(* ===== verification/_CoqProject ===== *)
-Q . S2P
Prelude.v
GoStrings.v
GoStd.v
Config.v
Objects.v
Metadata.v
ServiceCache.v
Policies.v
AddressStore.v
DestinationRules.v
Writers.v
ServiceEntries.v
SeDrSet.v
Caches.v
Dependents.v
World.v
VirtualServices.v
VsRouting.v
Worker.v
ClusterWriter.v
StateCheck.v
LeaseProtocol.v
LeaseTable.v
Controller.v
ControllerRun.v
ResourceController.v
IstioCaches.v
RoutingRules.v
RoutingWriter.v
PolicyController.v
DeploymentController.v
RolloutController.v
ServiceLookup.v
SeState.v
RegistryConfig.v
GatherServiceEntries.v
ModifyServiceEntry.v
LocalEntries.v
ConfigControllers.v
ClientControllers.v
WorkloadHandlers.v
DependencyProcessing.v
TrafficConfig.v
IdentityConfigs.v
RegistrySamples.v
StateSyncer.v
VirtualServiceSync.v
DestinationRuleSync.v
RoutingPolicies.v
Clusters.v
SecretController.v
DynamicConfig.v
Workloads.v
RegistryClient.v
Routes.v
Server.v
ShardHandler.v
Startup.v
CommandLine.v
