(* ===== verification/Prelude.v ===== *)
(** * Admiral: a verification library

    Admiral watches the workloads, policies and dependencies of many Kubernetes
    clusters and generates the Istio resources (service entries, destination rules,
    virtual services) that let the clusters reach each other.  This library models
    the Go code under [src/admiral] as executable functions, its concurrent parts as
    step relations, and proves what they are meant to do.

    ** The program and its files

    The command line gives the parameters; the start makes the registry, decides with
    a lease which pod writes, and starts a controller that watches secrets.  Each
    secret names clusters, and each cluster gets controllers for the kinds it holds.
    An event enters through the controller of its kind, which keeps a cache of the
    cluster's objects; the handlers turn it into service entries, destination rules
    and virtual services of an identity and an environment; the writers bring those to
    every cluster, over a pool of workers.  In the mode of an operator the same
    entries are built from the configurations of a registry, which a state syncer
    fills.

    Foundations:
    - [Prelude]: Go maps (with nil and with an open iteration order), sort.Slice,
      record update, tactics.  [GoStrings]: strings, strconv and sort.  [GoStd]:
      time.ParseDuration, net.ParseIP and single-precision arithmetic.
    - [Config] ([controller/common/config.go]): the parameters behind their lock, every
      getter.  [Objects]: the Kubernetes, Argo, Istio and Admiral objects.  [Metadata]
      ([common.go], [rolloutcommon.go], the two [util.go]): identities, environments,
      names, keys, selectors, ports, the order of policies, retries.
    - [Caches] ([controller/common/types.go]): the nested concurrent maps on a heap with
      pointers and mutexes.  [Dependents]: the exportTo list, computed from them.
      [World]: the state monad of API calls, caches and locks in which the functions
      from [VirtualServices] on are written.

    Events and caches:
    - [Controller], [ControllerRun] ([controller/admiral/controller.go]): callbacks, work
      queue, retries and statuses over the interface [Delegator]; workers and transaction
      ids.  Implementations of the interface: [DeploymentController],
      [RolloutController], [PolicyController], [ResourceController] with [IstioCaches]
      ([controller/istio]) and [ConfigControllers] (dependencies, traffic configurations,
      shards, nodes, routing policies), [ClientControllers] (jobs and vertices), and the
      services of [ServiceCache] in [WorkloadHandlers].
    - [Policies]: the policies in use, by the events of [globaltraffic_handler.go],
      [outlierdetection_handler.go] and [clientconnectionconfig_handler.go].

    From an event to the resources ([clusters/serviceentry.go] unless said):
    - [ServiceEntries], [DestinationRules] ([destinationrule_handler.go]), [SeDrSet]: the
      contents of entries and rules.  [AddressStore]: their addresses, in a config map
      that all processes share.  [ServiceLookup] ([service_handler.go], [util.go]): the
      services of a workload.
    - [SeState], [GatherServiceEntries], [ModifyServiceEntry], [LocalEntries]: the three
      parts of [modifyServiceEntryForNewServiceOrPod], the loop over the clusters, the
      rest, and the loop over the source clusters.
    - [WorkloadHandlers], [DependencyProcessing], [TrafficConfig]: the handlers that call
      it ([deployment_handler.go], [rollout_handler.go], [service_handler.go],
      [dependency_handler.go], [trafficconfig_handler.go]).
    - [Writers], [Worker], [ClusterWriter]: the writes with their retries, the channels of
      the worker pool, and what a worker does with a cluster.
    - [VirtualServices], [VsRouting], [RoutingRules], [RoutingWriter]
      ([virtualservice_handler.go], [virtualservice_routing.go]): the virtual services of
      the ingress and inside a cluster, their rules and sidecars, the rollback.
    - [VirtualServiceSync], [DestinationRuleSync], [RoutingPolicies]: what is copied to
      the dependent clusters (custom resources, envoy filters).

    The operator and the registry:
    - [RegistryConfig], [StateSyncer]: the configuration of an identity and how the state
      syncer stores it.  [IdentityConfigs] ([configwriter.go]): the entries built from
      it; [RegistrySamples]: the samples of [registry/testutils.go] and the expectations
      of the unit tests.  [RegistryClient]: the HTTP client.  [ShardHandler]: the
      producer, the consumers and the collector of a shard.

    The process:
    - [CommandLine] ([cmd/root.go]), [Startup] ([clusters/registry.go], [types.go]),
      [Clusters], [SecretController] ([controller/secret]), [DynamicConfig], [Workloads]
      ([admiralDatabaseClient.go], [dynamoDB.go]), [StateCheck] (the state checks
      and the suspension list), [LeaseProtocol] (pods that share the lease, with the scans and
      writes of their checks as steps), [LeaseTable] (the tables of the database),
      [Routes], [Server] (the HTTP endpoints).

    A definition has the name of the Go function it translates; a method is prefixed
    by its type ([MapOfMaps_Put]), and a part of a long function has a name of its own
    and is composed as in the source.  A Go error is an [option string] ([error]), a
    panic a [None] or an outcome of its own, a nil pointer or map a [None], a
    fixed-width integer a [Z] with its wrap-around where it matters.  Logging,
    metrics and the passing of contexts are left out.

    ** What is assumed

    The theorems hold for every [GoRange] (the order in which a map is ranged over)
    and every [GoSort] (any sort that sorts strict weak orders).  Code outside of the
    repository is a parameter, and what is documented of it a law with an instance: the
    config map API with optimistic concurrency ([ConfigMapClient]) and the YAML codec
    ([YamlLaws]), the API servers of Istio resources ([KubeClient]), the HTTP server of
    the registry ([HttpClient]), DynamoDB and its codec ([DynamoDB], [LeaseDBLaws]),
    client-go's clients ([ClientLoader]), pflag, the router, JSON, digests and the clock.
    A delegator promises to the controller that it remembers a status
    ([DelegatorLaws]), which is proved for deployments, policies, jobs and vertices; the
    caches of the other kinds have laws of their own ([ResourceCacheLaws]).  A function
    that calls another component at a place where only the call matters takes
    it as an argument; [Startup] and [Clusters] say which arguments the program gives.

    ** What the theorems show

    - Safety under interleaving: no two service entries ever share an address, for any
      number of processes ([AddressStore]); of pods on time
      one at most keeps writing, with an exact window when the lease changes hands
      ([LeaseProtocol]), and the calls of the database implement its tables
      ([LeaseTable]); the synchronization of virtual services and the shards neither
      deadlock nor lose a result, and end within a bound ([VirtualServiceSync],
      [ShardHandler]); nor does the worker pool when no tuple is skipped, and in any case
      its caller returns ([Worker]).
    - What is generated: the endpoints of an identity over all clusters
      ([GatherServiceEntries]), from the registry ([IdentityConfigs]), and that both agree
      on weights ([StateSyncer]); distributions that add up, sticky active/passive regions
      ([DestinationRules]); the tuple of each host of a policy ([SeDrSet]); routes and their weights
      ([VsRouting]); the policies in use ([Policies]).
    - What is written: only the desired contents, within a bounded number of calls
      ([Writers]); only service entries and rules that are Admiral's ([ClusterWriter]); local names stay
      local ([LocalEntries]); exports, pinned rules and the rollback ([RoutingWriter],
      [RoutingRules]); copies and their deletion ([DestinationRuleSync],
      [RoutingPolicies]).
    - Events and caches: the queue drains ([Controller]); caches follow the cluster
      ([RolloutController], [ServiceCache]); nested caches refine nested maps ([Caches]);
      clusters follow their secrets ([Clusters]); dependencies and dynamic
      configurations are processed once ([DependencyProcessing], [DynamicConfig]).
    - The process: the parameters that a command line gives, written out ([CommandLine]); what the registry
      allocates is what the other files assume ([Startup]).

    Where the code does not do what it means to, a lemma exhibits it next to the
    definitions.  Those with the widest effect: [failed_renewal_split_brain] and
    [takeover_race] ([LeaseProtocol]), [other_table_never_writes] ([StateCheck]),
    [skipped_tuple_loses_error] ([Worker]),
    [failed_update_is_forgotten] ([ClusterWriter]), [local_name_doubled] and
    [store_after_deletion_panics] ([StateSyncer]), [one_environment_without_service]
    ([IdentityConfigs]), [failed_cluster_panics] and [shared_cluster_lost] ([Clusters]),
    [namesake_deleted] ([VirtualServiceSync]), [missing_filter_blocks_deletion]
    ([RoutingPolicies]), [unknown_client_ends_all] ([DynamicConfig]),
    [shard_status_not_written] and [names_of_earlier_identities] ([ShardHandler]),
    [ignore_checker_never_initializes] ([Startup]), [attributes_leak]
    ([LeaseTable]) and [run_never_returns] ([CommandLine]).

    ** Bounds and fuel

    Few recursions are not structural.  The search for a free address has one unit of
    fuel more than there are taken addresses, and the candidates are pairwise
    different, so it is enough ([new_address_terminates]); the parsers of [GoStd] have
    the length of their input, of which every turn consumes a byte.  Retry loops run on
    the constants of the source: three tries for an address and for a table, five after a
    conflict, two requeues of an event, five of a secret; the wait of the start has 602
    passes of a tenth of a second, two more than its minute ([pause_spec]).  The step
    relations have measures: three steps for a cluster that is synchronized, six for an
    identity of a shard and eight more.

    ** What is not modelled

    Generated code: the clientset, listers, informers, deep copies and the accessors of
    the protocol buffers.  The calls that make clients of Kubernetes, AWS and HTTP, their
    TLS, and the files they read; the router and the JSON and YAML codecs; counters,
    gauges and log lines, and the methods that only print.  The mocks of the tests.
    Interfaces and empty methods of Go have no definition of their own. *)
From Stdlib Require Export Ascii.
From stdpp Require Export gmap strings list fin_maps sorting pretty.
From stdpp Require Import options.

Declare Scope admiral_scope.
Delimit Scope admiral_scope with admiral.
Global Open Scope admiral_scope.

(** Let [simpl] compute the concatenation of a string that starts with a known
    byte. *)
#[global] Arguments String.append !s1 s2 / : simpl nomatch.

(** ** Go maps

    A Go map that may be nil is an [option]: [None] is the nil map.  Reading a
    nil map gives the zero value, its length is 0 and ranging over it does
    nothing. *)
Abbreviation gomap := (option (gmap string string)).

(** [m[k]] with the comma-ok form. *)
Definition mlookup (m : gomap) (k : string) : option string :=
  match m with None => None | Some m' => m' !! k end.

(** [m[k]]: the zero value [""] for a missing key. *)
Definition mget (m : gomap) (k : string) : string :=
  default "" (mlookup m k).

(** [len(m)]. *)
Definition mlen (m : gomap) : nat :=
  match m with None => 0 | Some m' => size m' end.

(** [m == nil]. *)
Definition is_nil {A} (o : option A) : bool :=
  match o with None => true | Some _ => false end.

(** [len(s) == 0] for a string. *)
Definition is_empty (s : string) : bool :=
  match s with EmptyString => true | String _ _ => false end.

(** The first non-empty string of a chain of fallbacks: the shape of the
    [if len(x) == 0 { x = ... }] sequences of the source. *)
Definition or_else (a b : string) : string :=
  if is_empty a then b else a.

(** String equality as a boolean. *)
Definition seqb (a b : string) : bool := bool_decide (a = b).

Infix "=?s" := seqb (at level 70, no associativity) : admiral_scope.
Infix "|?|" := or_else (at level 50, left associativity) : admiral_scope.

(** [common.IsPresent] and [util.Contains] are this loop. *)
Fixpoint str_in (x : string) (l : list string) : bool :=
  match l with
  | [] => false
  | y :: l' => if y =?s x then true else str_in x l'
  end.

(** ** Iteration order of Go maps

    Ranging over a map visits every entry once, in an order the language leaves
    open.  [go_range i m] is the order the [i]-th range statement of a function
    sees; a client's theorem holds for every order. *)
Class GoRange := {
  go_range : forall {A : Type}, nat -> gmap string A -> list (string * A);
  go_range_perm : forall (A : Type) (i : nat) (m : gmap string A),
    go_range i m ≡ₚ map_to_list m
}.

(** The order of the finite-map library, used to run the definitions. *)
#[export] Instance range_map_to_list : GoRange.
Proof. by refine {| go_range A _ m := map_to_list m |}. Defined.

(** ** sort.Slice

    [sort.Slice] takes a strict weak order and returns the elements sorted; the
    order of equivalent elements is left open.  A client's theorem holds for
    every such sort. *)
Record strict_weak_on {A} (less : A -> A -> bool) (l : list A) : Prop := {
  swo_irrefl : forall x, x ∈ l -> less x x = false;
  swo_asym : forall x y, x ∈ l -> y ∈ l -> less x y = true -> less y x = false;
  swo_negtrans : forall x y z, x ∈ l -> y ∈ l -> z ∈ l ->
    less x y = false -> less y z = false -> less x z = false
}.

Definition sorted_by {A} (less : A -> A -> bool) : list A -> Prop :=
  StronglySorted (fun x y => less y x = false).

Class GoSort := {
  sort_slice : forall {A : Type}, (A -> A -> bool) -> list A -> list A;
  sort_slice_perm : forall (A : Type) (less : A -> A -> bool) (l : list A),
    sort_slice less l ≡ₚ l;
  sort_slice_sorted : forall (A : Type) (less : A -> A -> bool) (l : list A),
    strict_weak_on less l -> sorted_by less (sort_slice less l)
}.

(** Insertion sort, what [sort.Slice] runs on short slices. *)
Fixpoint ins {A} (less : A -> A -> bool) (x : A) (l : list A) : list A :=
  match l with
  | [] => [x]
  | y :: l' => if less y x then y :: ins less x l' else x :: y :: l'
  end.

Definition insertion_sort {A} (less : A -> A -> bool) (l : list A) : list A :=
  foldr (ins less) [] l.

(** ** Errors

    A Go [error] is [None] for nil and [Some msg] otherwise. *)
Abbreviation error := (option string).

(** A result or an error, for functions that return nothing else with an error. *)
Definition rbind {A B} (r : A + string) (k : A -> B + string) : B + string :=
  match r with inl a => k a | inr err => inr err end.
Notation "x <-! r ;; k" := (rbind r (fun x => k))
  (at level 80, r at next level, right associativity) : admiral_scope.

(** ** Record update

    [r <| f := v |>] is the record [r] with the field [f] replaced, for a record
    whose constructor is registered by a [Settable] instance. *)
Class Settable (R : Type) := eta_record : R -> R.
Class FieldSetter {R T : Type} (f : R -> T) := set_field : T -> R -> R.

Ltac solve_field_setter :=
  match goal with
  | |- @FieldSetter ?R ?T ?f =>
      let E := constr:(_ : Settable R) in
      let E' := eval hnf in E in
      let v := fresh "v" in let r := fresh "r" in
      intros v r;
      let body := eval cbv beta in (E' r) in
      match eval pattern (f r) in body with
      | ?F _ => let t := eval cbv beta in (F v) in exact t
      end
  end.

#[export] Hint Extern 1 (FieldSetter _) => solve_field_setter : typeclass_instances.
Notation "r <| f := v |>" := (@set_field _ _ f _ v r)
  (at level 12, left associativity, f at level 200, v at level 200) : admiral_scope.

(** ** Tactics of the development *)

Lemma seqb_eq a b : (a =?s b) = true <-> a = b.
Proof. apply bool_decide_eq_true. Qed.

Lemma seqb_neq a b : (a =?s b) = false <-> a <> b.
Proof. apply bool_decide_eq_false. Qed.

(** Turn the boolean string tests into equalities. *)
Ltac sdec :=
  repeat match goal with
  | H : seqb _ _ = true |- _ => apply seqb_eq in H
  | H : seqb _ _ = false |- _ => apply seqb_neq in H
  | H : bool_decide _ = true |- _ => apply bool_decide_eq_true_1 in H
  | H : bool_decide _ = false |- _ => apply bool_decide_eq_false_1 in H
  | H : andb _ _ = true |- _ => apply andb_true_iff in H; destruct H
  | H : orb _ _ = false |- _ => apply orb_false_iff in H; destruct H
  | H : negb _ = true |- _ => apply negb_true_iff in H
  | H : negb _ = false |- _ => apply negb_false_iff in H
  end.

(** Split every [match] of the goal, keeping the equations. *)
Ltac go_cases := repeat case_match; simplify_eq/=; sdec.

Create HintDb admiral discriminated.

(** ** Lemmas *)

Lemma seqb_refl a : (a =?s a) = true.
Proof. by apply seqb_eq. Qed.

Lemma is_empty_spec s : is_empty s = true <-> s = "".
Proof. by destruct s. Qed.

Lemma is_empty_false s : is_empty s = false <-> s <> "".
Proof. by destruct s. Qed.

Lemma or_else_nonempty a b : a <> "" -> a |?| b = a.
Proof. by destruct a. Qed.

Lemma or_else_empty b : "" |?| b = b.
Proof. done. Qed.

Lemma or_else_neq a b : b <> "" -> a |?| b <> "".
Proof. by destruct a. Qed.

Lemma or_else_assoc a b c : a |?| b |?| c = a |?| (b |?| c).
Proof. by destruct a, b. Qed.

Lemma str_in_spec x l : str_in x l = true <-> x ∈ l.
Proof.
  induction l as [|y l IH]; simpl.
  - split; [done|]. by intros ?%elem_of_nil.
  - rewrite elem_of_cons. destruct (y =?s x) eqn:E; sdec; naive_solver.
Qed.

Lemma str_in_false x l : str_in x l = false <-> x ∉ l.
Proof. rewrite <- str_in_spec. by destruct (str_in x l). Qed.

Lemma str_in_reflect x l : str_in x l = bool_decide (x ∈ l).
Proof.
  destruct (str_in x l) eqn:E; symmetry.
  - by apply bool_decide_eq_true, str_in_spec.
  - by apply bool_decide_eq_false, str_in_false.
Qed.

Lemma mget_Some m k v : mlookup m k = Some v -> mget m k = v.
Proof. unfold mget. by intros ->. Qed.

Lemma mget_None m k : mlookup m k = None -> mget m k = "".
Proof. unfold mget. by intros ->. Qed.

Lemma mget_nonempty m k : mget m k <> "" -> mlookup m k = Some (mget m k).
Proof. unfold mget. destruct (mlookup m k); naive_solver. Qed.

Lemma go_range_elem `{!GoRange} {A} i (m : gmap string A) k v :
  (k, v) ∈ go_range i m <-> m !! k = Some v.
Proof. rewrite go_range_perm. apply elem_of_map_to_list. Qed.

Lemma go_range_fst_NoDup `{!GoRange} {A} i (m : gmap string A) :
  NoDup (go_range i m).*1.
Proof. rewrite go_range_perm. apply NoDup_fst_map_to_list. Qed.

Lemma go_range_length `{!GoRange} {A} i (m : gmap string A) :
  length (go_range i m) = size m.
Proof. by rewrite go_range_perm, length_map_to_list. Qed.

Lemma ins_perm {A} less (x : A) l : ins less x l ≡ₚ x :: l.
Proof.
  induction l as [|y l IH]; simpl; [done|].
  destruct (less y x); [|done]. rewrite IH. apply Permutation_swap.
Qed.

Lemma insertion_sort_perm {A} less (l : list A) : insertion_sort less l ≡ₚ l.
Proof.
  induction l as [|x l IH]; simpl; [done|]. by rewrite ins_perm, IH.
Qed.

Lemma strict_weak_on_subset {A} less (l l' : list A) :
  (forall x, x ∈ l' -> x ∈ l) -> strict_weak_on less l -> strict_weak_on less l'.
Proof.
  intros Hsub [Hi Ha Hn]. split.
  - intros x Hx. by apply Hi, Hsub.
  - intros x y Hx Hy. apply Ha; by apply Hsub.
  - intros x y z Hx Hy Hz. apply Hn; by apply Hsub.
Qed.

Lemma ins_sorted {A} less (x : A) l :
  strict_weak_on less (x :: l) -> sorted_by less l -> sorted_by less (ins less x l).
Proof.
  intros Hw Hs. induction Hs as [|y l Hs IH Hy]; simpl.
  { repeat constructor. }
  assert (strict_weak_on less (x :: l)) as Hw'.
  { eapply strict_weak_on_subset; [|exact Hw].
    intros z. rewrite !elem_of_cons. tauto. }
  destruct Hw as [Hi Ha Hn]. destruct (less y x) eqn:E.
  - constructor; [by apply IH|].
    rewrite ins_perm. constructor; [|done].
    apply Ha; [by right; left|by left|done].
  - constructor; [by constructor|]. constructor; [done|].
    rewrite Forall_forall in *. intros z Hz.
    apply (Hn z y x); [by right; right|by right; left|by left|by apply Hy|done].
Qed.

Lemma insertion_sort_sorted {A} less (l : list A) :
  strict_weak_on less l -> sorted_by less (insertion_sort less l).
Proof.
  induction l as [|x l IH]; intros Hw; simpl; [constructor|].
  apply ins_sorted.
  - eapply strict_weak_on_subset; [|done].
    intros z. by rewrite !elem_of_cons, insertion_sort_perm.
  - apply IH. eapply strict_weak_on_subset; [|done]. intros z. by right.
Qed.

(** Insertion sort meets the contract of [sort.Slice]. *)
#[export] Instance go_insertion_sort : GoSort := {|
  sort_slice A := insertion_sort;
  sort_slice_perm A := insertion_sort_perm;
  sort_slice_sorted A := insertion_sort_sorted
|}.

(** The head of a sorted slice is not preceded by any other element. *)
Lemma sort_slice_head `{!GoSort} {A} (less : A -> A -> bool) l x l' :
  strict_weak_on less l -> sort_slice less l = x :: l' ->
  x ∈ l /\ forall y, y ∈ l -> less y x = false.
Proof.
  intros Hw Hs. pose proof (sort_slice_sorted _ _ _ Hw) as Hsort.
  pose proof (sort_slice_perm _ less l) as Hp. rewrite Hs in Hsort, Hp.
  assert (x ∈ l) as Hx by (rewrite <- Hp; set_solver).
  split; [done|]. intros y Hy. rewrite <- Hp, elem_of_cons in Hy.
  destruct Hy as [->|Hy]; [by apply (swo_irrefl _ _ Hw)|].
  inversion Hsort as [|? ? _ HF]; subst. by eapply Forall_forall in HF.
Qed.

#[export] Hint Rewrite seqb_eq seqb_neq is_empty_spec is_empty_false : admiral.
#[export] Hint Resolve or_else_neq or_else_nonempty : admiral.
