(* ===== verification/GoStrings.v ===== *)
(** * The string functions of the Go standard library that Admiral uses

    A Go string is a sequence of bytes, here a [string].  Case mapping and white
    space are those of ASCII: Kubernetes names, label values and host names are
    ASCII, and a byte above 127 is left as it is. *)
From S2P Require Import Prelude.
From stdpp Require Import options.

(** ** strings *)

Definition ascii_lower (a : Ascii.ascii) : Ascii.ascii :=
  let n := Ascii.N_of_ascii a in
  if (65 <=? n)%N && (n <=? 90)%N then Ascii.ascii_of_N (n + 32) else a.

(** strings.ToLower *)
Fixpoint to_lower (s : string) : string :=
  match s with
  | EmptyString => EmptyString
  | String a s' => String (ascii_lower a) (to_lower s')
  end.

Definition ascii_upper (a : Ascii.ascii) : Ascii.ascii :=
  let n := Ascii.N_of_ascii a in
  if (97 <=? n)%N && (n <=? 122)%N then Ascii.ascii_of_N (n - 32) else a.

(** strings.ToUpper *)
Fixpoint to_upper (s : string) : string :=
  match s with
  | EmptyString => EmptyString
  | String a s' => String (ascii_upper a) (to_upper s')
  end.

(** strings.EqualFold *)
Definition equal_fold (a b : string) : bool := to_lower a =?s to_lower b.

(** strings.HasPrefix, with the rest of the string *)
Fixpoint cut_prefix (s p : string) : option string :=
  match p, s with
  | EmptyString, _ => Some s
  | String a p', String b s' => if Ascii.eqb a b then cut_prefix s' p' else None
  | String _ _, EmptyString => None
  end.

Definition has_prefix (s p : string) : bool :=
  match cut_prefix s p with Some _ => true | None => false end.

(** strings.TrimPrefix *)
Definition trim_prefix (s p : string) : string :=
  match cut_prefix s p with Some r => r | None => s end.

(** strings.HasSuffix *)
Fixpoint has_suffix (s suf : string) : bool :=
  (s =?s suf) || match s with EmptyString => false | String _ s' => has_suffix s' suf end.

(** strings.TrimSuffix *)
Fixpoint cut_suffix (s suf : string) : option string :=
  if s =?s suf then Some EmptyString else
  match s with
  | EmptyString => None
  | String a s' => String a <$> cut_suffix s' suf
  end.

Definition trim_suffix (s suf : string) : string :=
  default s (cut_suffix s suf).

(** strings.Contains *)
Fixpoint contains (s sub : string) : bool :=
  has_prefix s sub || match s with EmptyString => false | String _ s' => contains s' sub end.

(** strings.ReplaceAll with a non-empty [old]: [skip] bytes of a match are still
    to be passed over *)
Fixpoint replace_from (s old new : string) (skip : nat) : string :=
  match s with
  | EmptyString => EmptyString
  | String a s' =>
      match skip with
      | S n => replace_from s' old new n
      | O => if has_prefix s old
             then new +:+ replace_from s' old new (pred (String.length old))
             else String a (replace_from s' old new 0)
      end
  end.

Definition replace_all (s old new : string) : string := replace_from s old new 0.

(** strings.Split on a one-byte separator *)
Fixpoint split (c : Ascii.ascii) (s : string) : list string :=
  match s with
  | EmptyString => [EmptyString]
  | String a s' =>
      if Ascii.eqb a c then EmptyString :: split c s'
      else match split c s' with
           | x :: xs => String a x :: xs
           | [] => [String a EmptyString]
           end
  end.

(** strings.Join *)
Fixpoint join (sep : string) (l : list string) : string :=
  match l with
  | [] => ""
  | [x] => x
  | x :: l' => x +:+ sep +:+ join sep l'
  end.

Definition is_space (a : Ascii.ascii) : bool :=
  let n := Ascii.N_of_ascii a in ((9 <=? n)%N && (n <=? 13)%N) || (n =? 32)%N.

Fixpoint trim_left (s : string) : string :=
  match s with
  | String a s' => if is_space a then trim_left s' else s
  | EmptyString => EmptyString
  end.

Fixpoint trim_right (s : string) : string :=
  match s with
  | EmptyString => EmptyString
  | String a s' =>
      match trim_right s' with
      | EmptyString => if is_space a then EmptyString else String a EmptyString
      | t => String a t
      end
  end.

(** strings.TrimSpace *)
Definition trim_space (s : string) : string := trim_right (trim_left s).

(** ** strconv *)

(** strconv.Itoa *)
Definition itoa (z : Z) : string := pretty z.

Definition digit_val (a : Ascii.ascii) : option Z :=
  let n := Z.of_N (Ascii.N_of_ascii a) in
  if (48 <=? n)%Z && (n <=? 57)%Z then Some (n - 48)%Z else None.

Fixpoint digits_val (acc : Z) (s : string) : option Z :=
  match s with
  | EmptyString => Some acc
  | String a s' => match digit_val a with
                   | Some d => digits_val (acc * 10 + d) s'
                   | None => None
                   end
  end.

(** A decimal number of one or more digits *)
Definition parse_digits (s : string) : option Z :=
  if is_empty s then None else digits_val 0 s.

Inductive num_error := ErrSyntax | ErrRange.

Definition int64_max : Z := 9223372036854775807.
Definition int64_min : Z := -9223372036854775808.

(** strconv.Atoi on a 64-bit int: the value and the error.  A syntax error comes
    with 0, a range error with the nearest int. *)
Definition atoi (s : string) : Z * option num_error :=
  let '(neg, body) := match s with
                      | String "-"%char s' => (true, s')
                      | String "+"%char s' => (false, s')
                      | _ => (false, s)
                      end in
  match parse_digits body with
  | None => (0%Z, Some ErrSyntax)
  | Some v =>
      let v' := if (neg : bool) then (- v)%Z else v in
      if (int64_max <? v')%Z then (int64_max, Some ErrRange)
      else if (v' <? int64_min)%Z then (int64_min, Some ErrRange)
      else (v', None)
  end.

(** strconv.ParseUint(s, 10, 32), the value where there is no error *)
Definition parse_uint32 (s : string) : option Z :=
  match parse_digits s with
  | Some v => if (v <? 2 ^ 32)%Z then Some v else None
  | None => None
  end.

(** Conversion to uint32 and int32: wrap-around *)
Definition uint32 (z : Z) : Z := (z mod 2 ^ 32)%Z.
Definition int32 (z : Z) : Z := ((z + 2 ^ 31) mod 2 ^ 32 - 2 ^ 31)%Z.

(** ** sort.Strings: the byte order is total, so the result is determined *)
Fixpoint str_ltb (a b : string) : bool :=
  match a, b with
  | EmptyString, String _ _ => true
  | String x a', String y b' =>
      if (Ascii.N_of_ascii x =? Ascii.N_of_ascii y)%N then str_ltb a' b'
      else (Ascii.N_of_ascii x <? Ascii.N_of_ascii y)%N
  | _, EmptyString => false
  end.

Definition sort_strings (l : list string) : list string := insertion_sort str_ltb l.

(** The loop that keeps [l[i]] when [i == 0 || l[i] != l[i-1]] *)
Fixpoint dedup_from (prev : option string) (l : list string) : list string :=
  match l with
  | [] => []
  | x :: l' => if bool_decide (prev = Some x) then dedup_from (Some x) l'
               else x :: dedup_from (Some x) l'
  end.

Definition dedup_adj (l : list string) : list string := dedup_from None l.

(** ** Lemmas *)

Lemma to_lower_app a b : to_lower (a +:+ b) = to_lower a +:+ to_lower b.
Proof. induction a as [|c a IH]; simpl; [done|]. by rewrite IH. Qed.

Lemma ascii_lower_idem a : ascii_lower (ascii_lower a) = ascii_lower a.
Proof. by destruct a as [[] [] [] [] [] [] [] []]. Qed.

Lemma to_lower_idem s : to_lower (to_lower s) = to_lower s.
Proof. induction s as [|c s IH]; simpl; [done|]. by rewrite ascii_lower_idem, IH. Qed.

Lemma to_lower_empty s : to_lower s = "" <-> s = "".
Proof. by destruct s. Qed.

Lemma to_lower_is_empty s : is_empty (to_lower s) = is_empty s.
Proof. by destruct s. Qed.

Lemma sapp_nil_r (s : string) : s +:+ "" = s.
Proof. induction s as [|c s IH]; simpl; [done|]. by rewrite IH. Qed.

Lemma sapp_assoc (a b c : string) : (a +:+ b) +:+ c = a +:+ b +:+ c.
Proof. induction a as [|x a IH]; simpl; [done|]. by rewrite IH. Qed.

Lemma sapp_inj_l (a b c : string) : a +:+ b = a +:+ c -> b = c.
Proof. induction a as [|x a IH]; simpl; [done|]. intros [= H]. by apply IH. Qed.

Lemma sapp_length (a b : string) :
  String.length (a +:+ b) = String.length a + String.length b.
Proof. induction a as [|x a IH]; simpl; [done|]. by rewrite IH. Qed.

Lemma sapp_inj_r (a b c : string) : a +:+ c = b +:+ c -> a = b.
Proof.
  revert b. induction a as [|x a IH]; intros [|y b]; simpl; intros H.
  - done.
  - apply (f_equal String.length) in H. simpl in H. rewrite sapp_length in H. lia.
  - apply (f_equal String.length) in H. simpl in H. rewrite sapp_length in H. lia.
  - simplify_eq. f_equal. eauto.
Qed.

Lemma cut_prefix_spec s p r : cut_prefix s p = Some r <-> s = p +:+ r.
Proof.
  revert s. induction p as [|a p IH]; intros s; simpl.
  - destruct s; naive_solver.
  - destruct s as [|b s]; simpl; [naive_solver|].
    destruct (Ascii.eqb_spec a b) as [->|Hne].
    + rewrite IH. naive_solver.
    + naive_solver.
Qed.

Lemma has_prefix_spec s p : has_prefix s p = true <-> exists r, s = p +:+ r.
Proof.
  unfold has_prefix. destruct (cut_prefix s p) as [r|] eqn:E.
  - apply cut_prefix_spec in E. naive_solver.
  - split; [done|]. intros [r Hr]. apply cut_prefix_spec in Hr. congruence.
Qed.

Lemma has_prefix_app p r : has_prefix (p +:+ r) p = true.
Proof. apply has_prefix_spec. by exists r. Qed.

Lemma trim_prefix_app p r : trim_prefix (p +:+ r) p = r.
Proof.
  unfold trim_prefix. destruct (cut_prefix (p +:+ r) p) as [r'|] eqn:E.
  - apply cut_prefix_spec in E. by eapply sapp_inj_l.
  - pose proof (proj2 (cut_prefix_spec (p +:+ r) p r) eq_refl). congruence.
Qed.

Lemma has_suffix_spec s suf : has_suffix s suf = true <-> exists p, s = p +:+ suf.
Proof.
  induction s as [|a s IH].
  - simpl. rewrite orb_false_r, seqb_eq. split.
    + intros <-. by exists "".
    + intros [[|]]; simpl in *; congruence.
  - change (has_suffix (String a s) suf) with ((String a s =?s suf) || has_suffix s suf).
    rewrite orb_true_iff, seqb_eq, IH. split.
    + intros [<-|[p ->]]; [by exists ""|by exists (String a p)].
    + intros [[|b p] H]; simpl in *; [by left|right]. simplify_eq. eauto.
Qed.

Lemma cut_suffix_spec s suf p : cut_suffix s suf = Some p <-> s = p +:+ suf.
Proof.
  revert p. induction s as [|a s IH]; intros p; cbn [cut_suffix].
  - destruct (EmptyString =?s suf) eqn:E; sdec.
    + subst. rewrite sapp_nil_r. naive_solver.
    + split; [done|]. destruct p; simpl; naive_solver.
  - destruct (String a s =?s suf) eqn:E; sdec.
    + subst suf. split; [by intros [= <-]|].
      intros H. destruct p as [|b p]; [done|]. exfalso.
      apply (f_equal String.length) in H. rewrite sapp_length in H. simpl in H. lia.
    + rewrite fmap_Some. setoid_rewrite IH. split.
      * by intros (q & -> & ->).
      * destruct p as [|b p]; simpl; intros H; [congruence|]. simplify_eq. eauto.
Qed.

Lemma trim_suffix_app p suf : trim_suffix (p +:+ suf) suf = p.
Proof.
  unfold trim_suffix. by rewrite (proj2 (cut_suffix_spec _ _ p) eq_refl).
Qed.

Lemma trim_suffix_none s suf : has_suffix s suf = false -> trim_suffix s suf = s.
Proof.
  unfold trim_suffix. intros H. destruct (cut_suffix s suf) as [p|] eqn:E; [|done].
  apply cut_suffix_spec in E.
  pose proof (proj2 (has_suffix_spec s suf) (ex_intro _ p E)). congruence.
Qed.

Lemma contains_spec s sub : contains s sub = true <-> exists p r, s = p +:+ sub +:+ r.
Proof.
  induction s as [|a s IH].
  - simpl. rewrite orb_false_r, has_prefix_spec. split.
    + intros [r H]. by exists "", r.
    + intros ([|] & r & H); simpl in *; [by exists r|done].
  - change (contains (String a s) sub) with (has_prefix (String a s) sub || contains s sub).
    rewrite orb_true_iff, has_prefix_spec, IH. split.
    + intros [[r H]|(p & r & ->)]; [by exists "", r|by exists (String a p), r].
    + intros ([|b p] & r & H); simpl in *; [by left; exists r|right].
      simplify_eq. eauto.
Qed.

Lemma split_cons c s : exists x xs, split c s = x :: xs.
Proof.
  induction s as [|a s (x & xs & E)]; simpl; [eauto|].
  destruct (Ascii.eqb a c); [eauto|]. rewrite E. eauto.
Qed.

(** Splitting and joining on the same separator gives the string back. *)
Lemma join_split c s : join (String c "") (split c s) = s.
Proof.
  induction s as [|a s IH]; [done|]. simpl.
  destruct (split_cons c s) as (x & xs & E). rewrite E in *.
  destruct (Ascii.eqb_spec a c) as [->|Hne].
  - simpl in *. by rewrite IH.
  - destruct xs; simpl in *; by rewrite IH.
Qed.

(** ** The string order *)

Lemma str_ltb_irrefl a : str_ltb a a = false.
Proof. induction a as [|x a IH]; simpl; [done|]. by rewrite N.eqb_refl. Qed.

Lemma str_ltb_asym a b : str_ltb a b = true -> str_ltb b a = false.
Proof.
  revert b. induction a as [|x a IH]; intros [|y b]; simpl; try done.
  rewrite (N.eqb_sym (Ascii.N_of_ascii y)).
  destruct (N.eqb_spec (Ascii.N_of_ascii x) (Ascii.N_of_ascii y)); [by apply IH|].
  rewrite N.ltb_lt, N.ltb_ge. lia.
Qed.

Lemma str_ltb_negtrans a b c :
  str_ltb a b = false -> str_ltb b c = false -> str_ltb a c = false.
Proof.
  revert b c. induction a as [|x a IH]; intros [|y b] [|z c]; simpl; try done.
  destruct (N.eqb_spec (Ascii.N_of_ascii x) (Ascii.N_of_ascii y)) as [Exy|?];
    destruct (N.eqb_spec (Ascii.N_of_ascii y) (Ascii.N_of_ascii z)) as [Eyz|?];
    destruct (N.eqb_spec (Ascii.N_of_ascii x) (Ascii.N_of_ascii z)) as [Exz|?];
    rewrite ?N.ltb_ge; intros; try lia; eauto.
Qed.

Lemma str_ltb_total a b : str_ltb a b = false -> str_ltb b a = false -> a = b.
Proof.
  revert b. induction a as [|x a IH]; intros [|y b]; simpl; try done.
  rewrite (N.eqb_sym (Ascii.N_of_ascii y)).
  destruct (N.eqb_spec (Ascii.N_of_ascii x) (Ascii.N_of_ascii y)) as [E|?].
  - apply (f_equal Ascii.ascii_of_N) in E. rewrite !Ascii.ascii_N_embedding in E.
    intros. f_equal; eauto.
  - rewrite !N.ltb_ge. lia.
Qed.

Lemma str_ltb_strict_weak l : strict_weak_on str_ltb l.
Proof.
  split; intros; eauto using str_ltb_irrefl, str_ltb_asym, str_ltb_negtrans.
Qed.

Lemma sort_strings_perm l : sort_strings l ≡ₚ l.
Proof. apply insertion_sort_perm. Qed.

Lemma sort_strings_sorted l : sorted_by str_ltb (sort_strings l).
Proof. apply insertion_sort_sorted, str_ltb_strict_weak. Qed.

(** Two sorted lists of strings with the same elements are the same list, so
    the result of [sort.Strings] is determined whatever the algorithm. *)
Lemma sorted_strings_unique l1 l2 :
  sorted_by str_ltb l1 -> sorted_by str_ltb l2 -> l1 ≡ₚ l2 -> l1 = l2.
Proof.
  intros H1 H2. apply (StronglySorted_unique_strong (fun x y => str_ltb y x = false));
    [|done..].
  intros a b _ _ Hab Hba. by apply str_ltb_total.
Qed.

Lemma sort_strings_congr l1 l2 : l1 ≡ₚ l2 -> sort_strings l1 = sort_strings l2.
Proof.
  intros H. apply sorted_strings_unique; auto using sort_strings_sorted.
  by rewrite !sort_strings_perm.
Qed.

#[export] Instance sort_strings_proper : Proper ((≡ₚ) ==> (=)) sort_strings.
Proof. intros l1 l2. apply sort_strings_congr. Qed.

(** ** Sorting by a key

    When the keys are pairwise different, every sort gives the same list. *)
Lemma nodup_key_eq {A} (key : A -> string) l x y :
  NoDup (key <$> l) -> x ∈ l -> y ∈ l -> key x = key y -> x = y.
Proof.
  induction l as [|z l IH]; [set_solver|]. cbn. rewrite NoDup_cons. intros [Hz Hn] Hx Hy Hk.
  rewrite elem_of_cons in Hx, Hy.
  destruct Hx as [->|Hx], Hy as [->|Hy]; [done| | |by apply IH]; exfalso; apply Hz;
    apply list_elem_of_fmap; eauto.
Qed.

Lemma key_perm_eq {A} (key : A -> string) l1 l2 :
  NoDup (key <$> l1) -> l1 ≡ₚ l2 -> key <$> l1 = key <$> l2 -> l1 = l2.
Proof.
  revert l2. induction l1 as [|x l1 IH]; intros [|y l2] Hn Hp Hk; try done.
  cbn in Hk. injection Hk as Hx Hk.
  assert (x = y) as ->.
  { apply (nodup_key_eq key (x :: l1)); [done|set_solver|rewrite Hp; set_solver|done]. }
  f_equal. apply IH; [by apply NoDup_cons in Hn as [_ Hn]|by apply Permutation_cons_inv in Hp|done].
Qed.

Lemma key_less_strict_weak {A} (key : A -> string) l : strict_weak_on (fun a b => str_ltb (key a) (key b)) l.
Proof.
  split; intros.
  - apply str_ltb_irrefl.
  - by apply str_ltb_asym.
  - by eapply str_ltb_negtrans.
Qed.

Lemma sorted_by_key {A} (key : A -> string) l :
  sorted_by (fun a b => str_ltb (key a) (key b)) l -> sorted_by str_ltb (key <$> l).
Proof.
  induction 1 as [|x l _ IH HF]; cbn; constructor; [done|]. by apply Forall_fmap.
Qed.

Lemma sort_by_key_unique {A} (key : A -> string) (sort1 sort2 : GoSort) l1 l2 :
  NoDup (key <$> l1) -> l1 ≡ₚ l2 ->
  @sort_slice sort1 _ (fun a b => str_ltb (key a) (key b)) l1 =
  @sort_slice sort2 _ (fun a b => str_ltb (key a) (key b)) l2.
Proof.
  intros Hn Hp.
  assert (@sort_slice sort1 _ (fun a b => str_ltb (key a) (key b)) l1 ≡ₚ
          @sort_slice sort2 _ (fun a b => str_ltb (key a) (key b)) l2) as Hs
    by by rewrite !sort_slice_perm.
  apply (key_perm_eq key); [by rewrite sort_slice_perm|done|].
  apply sorted_strings_unique; [| |by rewrite Hs];
    apply sorted_by_key, sort_slice_sorted, key_less_strict_weak.
Qed.

Lemma dedup_from_subset p l x : x ∈ dedup_from p l -> x ∈ l.
Proof.
  revert p. induction l as [|y l IH]; intros p; simpl; [done|].
  case_bool_decide; rewrite ?elem_of_cons; naive_solver.
Qed.

Lemma dedup_from_elem p l x : x ∈ l -> p <> Some x -> x ∈ dedup_from p l.
Proof.
  revert p. induction l as [|y l IH]; intros p; simpl; [done|].
  rewrite elem_of_cons. intros Hx Hp.
  destruct (decide (x = y)) as [->|Hne].
  - rewrite bool_decide_false by done. by left.
  - destruct Hx as [?|Hx]; [done|].
    case_bool_decide; [|right]; apply IH; congruence.
Qed.

Lemma dedup_adj_elem l x : x ∈ dedup_adj l <-> x ∈ l.
Proof. split; [apply dedup_from_subset|]. intros. by apply dedup_from_elem. Qed.

(** In a sorted list equal elements are adjacent, so the loop removes every
    duplicate. *)
Lemma dedup_from_NoDup p l :
  sorted_by str_ltb l -> (forall x y, p = Some x -> y ∈ l -> str_ltb y x = false) ->
  NoDup (dedup_from p l) /\ (forall x, p = Some x -> x ∉ dedup_from p l).
Proof.
  intros Hs. revert p. induction Hs as [|y l Hs IH Hy]; intros p Hp; simpl.
  { split; [constructor|]. by intros ?? ?%elem_of_nil. }
  destruct (IH (Some y)) as [Hnd Hni].
  { intros x z [= <-] Hz. by eapply Forall_forall in Hy. }
  case_bool_decide as Heq.
  - split; [done|]. intros x ->. simplify_eq. by apply Hni.
  - split; [constructor; auto|]. intros x -> [->|Hx]%elem_of_cons; [done|].
    assert (str_ltb y x = false) by (apply Hp; [done|by left]).
    apply dedup_from_subset in Hx as Hx'.
    eapply Forall_forall in Hy; [|exact Hx']. apply Heq.
    f_equal. by apply str_ltb_total.
Qed.

Lemma dedup_sort_NoDup l : NoDup (dedup_adj (sort_strings l)).
Proof. by apply dedup_from_NoDup; [apply sort_strings_sorted|]. Qed.

Lemma dedup_sort_elem l x : x ∈ dedup_adj (sort_strings l) <-> x ∈ l.
Proof. by rewrite dedup_adj_elem, sort_strings_perm. Qed.

Lemma dedup_from_sorted p l : sorted_by str_ltb l -> sorted_by str_ltb (dedup_from p l).
Proof.
  intros Hs. revert p. induction Hs as [|y l Hs IH Hy]; intros p; simpl; [constructor|].
  case_bool_decide; [apply IH|]. constructor; [apply IH|].
  rewrite Forall_forall in *. eauto using dedup_from_subset.
Qed.

Lemma dedup_sort_sorted l : sorted_by str_ltb (dedup_adj (sort_strings l)).
Proof. apply dedup_from_sorted, sort_strings_sorted. Qed.

(** ** Decimal numbers *)

Lemma itoa_inj a b : itoa a = itoa b -> a = b.
Proof. apply (inj pretty). Qed.

(** The bytes of a string, for arguments about separators. *)
Definition bytes (s : string) : list Ascii.ascii := String.list_ascii_of_string s.

Lemma bytes_app a b : bytes (a +:+ b) = bytes a ++ bytes b.
Proof. induction a as [|x a IH]; simpl; [done|]. by rewrite <- IH. Qed.

(** The first separator of a string determines what stands before it. *)
Lemma sep_inj c (a a' b b' : string) :
  c ∉ bytes a -> c ∉ bytes a' ->
  a +:+ String c b = a' +:+ String c b' -> a = a' /\ b = b'.
Proof.
  revert a'. induction a as [|x a IH]; intros [|y a']; simpl;
    unfold bytes; simpl; rewrite ?not_elem_of_cons; intros Ha Ha' E; simplify_eq;
    try tauto.
  destruct (IH a') as [-> ->]; [tauto..|done].
Qed.

Lemma pretty_N_char_no_dot n : pretty_N_char n <> "."%char.
Proof. unfold pretty_N_char. by repeat case_match. Qed.

Lemma pretty_N_go_no_dot n s :
  "."%char ∉ bytes s -> "."%char ∉ bytes (pretty_N_go n s).
Proof.
  revert s. induction (N.lt_wf_0 n) as [n _ IH]; intros s Hs.
  destruct (decide (0 < n)%N) as [Hpos|?].
  - rewrite pretty_N_go_step by done. apply IH; [by apply N.div_lt|].
    simpl. rewrite not_elem_of_cons. split; [|done].
    intros E. by apply (pretty_N_char_no_dot (n `mod` 10)).
  - replace n with 0%N by lia. done.
Qed.

Lemma itoa_no_dot z : (0 <= z)%Z -> "."%char ∉ bytes (itoa z).
Proof.
  intros Hz. destruct z as [|p|p]; [|change (itoa _) with (pretty (N.pos p))|lia].
  - vm_compute. by intros ?%list_elem_of_singleton.
  - unfold pretty, pretty_N. rewrite decide_False by lia.
    apply pretty_N_go_no_dot. simpl. by intros ?%elem_of_nil.
Qed.

#[export] Hint Rewrite to_lower_app to_lower_idem trim_suffix_app trim_prefix_app
  has_prefix_app sapp_nil_r sapp_assoc : admiral.
