(* ===== verification/GoStd.v ===== *)
(** * time.ParseDuration and net.ParseIP

    The two parsers of the Go standard library that the destination rules use,
    byte by byte.  [ParseDuration] computes the fraction of a unit in IEEE
    double precision, as the library does, with the executable
    specification of floating-point numbers. *)
From Stdlib Require Import SpecFloat.
From S2P Require Import Prelude GoStrings.
From stdpp Require Import options.
Local Open Scope Z_scope.

(** ** float64 *)

Definition float64_of_Z (z : Z) : spec_float := binary_normalize 53 1024 z 0 false.
Definition float64_mul := SFmul 53 1024.
Definition float64_div := SFdiv 53 1024.

(** [uint64(x)] of a finite non-negative float: truncation. *)
Definition uint64_of_float (x : spec_float) : Z :=
  match x with
  | S754_finite false m e => if 0 <=? e then Zpos m * 2 ^ e else Zpos m / 2 ^ (- e)
  | _ => 0
  end.

(** ** float32 *)

Definition float32_of_Z (z : Z) : spec_float := binary_normalize 24 128 z 0 false.
Definition float32_mul := SFmul 24 128.
Definition float32_div := SFdiv 24 128.

(** [int32(x)]: truncation towards zero; a value out of range is the least int32, as on
    amd64 (the language leaves it open). *)
Definition int32_of_float (x : spec_float) : Z :=
  match x with
  | S754_zero _ => 0
  | S754_finite s m e =>
      let v := if 0 <=? e then Zpos m * 2 ^ e else Zpos m / 2 ^ (- e) in
      let v := if s then - v else v in
      if (- 2 ^ 31 <=? v) && (v <? 2 ^ 31) then v else - 2 ^ 31
  | _ => - 2 ^ 31
  end.

(** ** time.ParseDuration *)

(** The longest run of leading decimal digits, as a list of digit values. *)
Fixpoint leading_digits (s : string) : list Z * string :=
  match s with
  | String c s' =>
      match digit_val c with
      | Some d => let '(ds, rest) := leading_digits s' in (d :: ds, rest)
      | None => ([], s)
      end
  | EmptyString => ([], s)
  end.

(** [leadingInt]: [None] when the number overflows. *)
Definition leading_int (ds : list Z) : option Z :=
  foldl (fun acc d =>
    x ← acc;
    if 2 ^ 63 / 10 <? x then None
    else let x' := x * 10 + d in if 2 ^ 63 <? x' then None else Some x') (Some 0) ds.

(** [leadingFraction]: the digits before an overflow, and the scale. *)
Definition leading_fraction (ds : list Z) : Z * spec_float :=
  let '(x, scale, _) :=
    foldl (fun '(x, scale, overflow) d =>
      if (overflow : bool) then (x, scale, true)
      else if (2 ^ 63 - 1) / 10 <? x then (x, scale, true)
      else let y := x * 10 + d in
           if 2 ^ 63 <? y then (x, scale, true)
           else (y, float64_mul scale (float64_of_Z 10), false))
      (0, float64_of_Z 1, false) ds in
  (x, scale).

(** The bytes up to the next digit or period. *)
Fixpoint unit_name (s : string) : string * string :=
  match s with
  | String c s' =>
      if Ascii.eqb c "." then (EmptyString, s)
      else match digit_val c with
           | Some _ => (EmptyString, s)
           | None => let '(u, rest) := unit_name s' in (String c u, rest)
           end
  | EmptyString => (EmptyString, EmptyString)
  end.

(** [unitMap]; the two spellings of the micro sign are their UTF-8 bytes. *)
Definition micro_sign : string := String (Ascii.ascii_of_nat 194) (String (Ascii.ascii_of_nat 181) "s").
Definition greek_mu : string := String (Ascii.ascii_of_nat 206) (String (Ascii.ascii_of_nat 188) "s").

Definition duration_unit (u : string) : option Z :=
  if u =?s "ns" then Some 1
  else if (u =?s "us") || (u =?s micro_sign) || (u =?s greek_mu) then Some 1000
  else if u =?s "ms" then Some 1000000
  else if u =?s "s" then Some 1000000000
  else if u =?s "m" then Some 60000000000
  else if u =?s "h" then Some 3600000000000
  else None.

(** One [number unit] group at the front of the string, in nanoseconds. *)
Definition duration_group (s : string) : option (Z * string) :=
  let '(ds, s1) := leading_digits s in
  v ← leading_int ds;
  let pre := negb (Nat.eqb (length ds) 0) in
  let '(fs, s2) :=
    match s1 with
    | String c s' => if Ascii.eqb c "." then leading_digits s' else ([], s1)
    | EmptyString => ([], s1)
    end in
  let post := negb (Nat.eqb (length fs) 0) in
  if negb pre && negb post then None
  else
    let '(f, scale) := leading_fraction fs in
    let '(u, s3) := unit_name s2 in
    if is_empty u then None
    else
      unit ← duration_unit u;
      if 2 ^ 63 / unit <? v then None
      else
        let v := v * unit in
        let v := if 0 <? f
                 then v + uint64_of_float
                        (float64_mul (float64_of_Z f) (float64_div (float64_of_Z unit) scale))
                 else v in
        if 2 ^ 63 <? v then None else Some (v, s3).

(** The loop; every group consumes at least one byte, so the length of the string
    is enough fuel. *)
Fixpoint duration_groups (fuel : nat) (d : Z) (s : string) : option Z :=
  match s, fuel with
  | EmptyString, _ => Some d
  | _, O => None
  | _, S fuel' =>
      '(v, s') ← duration_group s;
      let d' := d + v in
      if 2 ^ 63 <? d' then None else duration_groups fuel' d' s'
  end.

(** The duration in nanoseconds, [None] for an error. *)
Definition ParseDuration (s : string) : option Z :=
  let '(neg, s1) :=
    match s with
    | String c s' => if Ascii.eqb c "-" then (true, s')
                     else if Ascii.eqb c "+" then (false, s') else (false, s)
    | EmptyString => (false, s)
    end in
  if s1 =?s "0" then Some 0
  else if is_empty s1 then None
  else
    d ← duration_groups (String.length s1) 0 s1;
    if (neg : bool) then Some (- d)
    else if 2 ^ 63 - 1 <? d then None else Some d.

Example parse_duration_1 : ParseDuration "1h15m30.918s" = Some 4530918000000.
Proof. vm_compute. reflexivity. Qed.
Example parse_duration_2 : ParseDuration "-1.5h" = Some (-5400000000000).
Proof. vm_compute. reflexivity. Qed.
Example parse_duration_3 : ParseDuration "10" = None /\ ParseDuration "9223372036854775808ns" = None.
Proof. vm_compute. done. Qed.

(** ** net.ParseIP *)

(** [parseIPv4Fields]: [prev] is the byte before, [pos] the number of octets
    already stored in [fields]. *)
Fixpoint ipv4_fields (prev : option Ascii.ascii) (s : string) (val : Z) (digLen : nat)
    (fields : list Z) : option (list Z) :=
  match s with
  | EmptyString => if Nat.ltb (length fields) 3 then None else Some (fields ++ [val])
  | String c s' =>
      match digit_val c with
      | Some d =>
          if Nat.eqb digLen 1 && (val =? 0) then None
          else let val' := val * 10 + d in
               if 255 <? val' then None else ipv4_fields (Some c) s' val' (S digLen) fields
      | None =>
          if Ascii.eqb c "." then
            let bad := match prev with None => true | Some b => Ascii.eqb b "." end in
            if bad || is_empty s' || Nat.eqb (length fields) 3 then None
            else ipv4_fields (Some c) s' 0 0 (fields ++ [val])
          else None
      end
  end.

Definition hex_val (c : Ascii.ascii) : option Z :=
  let n := Z.of_N (Ascii.N_of_ascii c) in
  if (48 <=? n) && (n <=? 57) then Some (n - 48)
  else if (97 <=? n) && (n <=? 102) then Some (n - 87)
  else if (65 <=? n) && (n <=? 70) then Some (n - 55)
  else None.

(** A hexadecimal group: its value, its number of digits and what follows it. *)
Fixpoint hex_group (s : string) (acc : Z) (off : nat) : option (Z * nat * string) :=
  match s with
  | EmptyString => Some (acc, off, s)
  | String c s' =>
      match hex_val c with
      | Some d =>
          if Nat.ltb 3 off then None
          else let acc' := acc * 16 + d in
               if 65535 <? acc' then None else hex_group s' acc' (S off)
      | None => Some (acc, off, s)
      end
  end.

(** The loop of [parseIPv6]: the bytes stored so far, the position of the ellipsis
    and the rest of the string when the loop ends.  Every turn stores two bytes or
    more, so eight turns are enough. *)
Fixpoint ipv6_loop (fuel : nat) (s : string) (ip : list Z) (ellipsis : option nat)
    : option (list Z * option nat * string) :=
  match fuel with
  | O => Some (ip, ellipsis, s)
  | S fuel' =>
      if negb (Nat.ltb (length ip) 16) then Some (ip, ellipsis, s)
      else
        '(acc, off, rest) ← hex_group s 0 0;
        if Nat.eqb off 0 then None
        else
          match rest with
          | String c rest' =>
              if Ascii.eqb c "." then
                if (is_nil ellipsis && negb (Nat.eqb (length ip) 12))
                   || Nat.ltb 16 (length ip + 4) then None
                else
                  quad ← ipv4_fields None s 0 0 [];
                  Some (ip ++ quad, ellipsis, EmptyString)
              else
                let ip' := ip ++ [acc / 256; acc mod 256] in
                if negb (Ascii.eqb c ":") then None
                else match rest' with
                     | EmptyString => None
                     | String c2 rest2 =>
                         if Ascii.eqb c2 ":" then
                           match ellipsis with
                           | Some _ => None
                           | None =>
                               if is_empty rest2 then Some (ip', Some (length ip'), rest2)
                               else ipv6_loop fuel' rest2 ip' (Some (length ip'))
                           end
                         else ipv6_loop fuel' rest' ip' ellipsis
                     end
          | EmptyString => Some (ip ++ [acc / 256; acc mod 256], ellipsis, rest)
          end
  end.

(** [parseIPv6], for a string without a zone ([net.ParseIP] refuses a zone). *)
Definition parse_ipv6 (s : string) : option (list Z) :=
  let '(s1, ellipsis) := match cut_prefix s "::" with
                         | Some r => (r, Some 0%nat)
                         | None => (s, None)
                         end in
  if is_empty s1 && negb (is_nil ellipsis) then Some (replicate 16 0)
  else
    '(ip, ell, rest) ← ipv6_loop 8 s1 [] ellipsis;
    if negb (is_empty rest) then None
    else if Nat.ltb (length ip) 16 then
      match ell with
      | None => None
      | Some e => Some (take e ip ++ replicate (16 - length ip) 0 ++ drop e ip)
      end
    else match ell with None => Some ip | Some _ => None end.

(** [netip.ParseAddr] branches on the first period, colon or percent sign. *)
Fixpoint first_ip_sep (s : string) : option Ascii.ascii :=
  match s with
  | EmptyString => None
  | String c s' => if Ascii.eqb c "." || Ascii.eqb c ":" || Ascii.eqb c "%" then Some c
                   else first_ip_sep s'
  end.

Definition v4_in_v6_prefix : list Z := replicate 10 0 ++ [255; 255].

(** The 16 bytes of [net.ParseIP(s)]; [None] is nil. *)
Definition ParseIP (s : string) : option (list Z) :=
  match first_ip_sep s with
  | Some "."%char => q ← ipv4_fields None s 0 0 []; Some (v4_in_v6_prefix ++ q)
  | Some ":"%char => if contains s "%" then None else parse_ipv6 s
  | _ => None
  end.

(** [net.ParseIP(s).To4() != nil]. *)
Definition is_ipv4 (s : string) : bool :=
  match ParseIP s with
  | Some ip => bool_decide (take 12 ip = v4_in_v6_prefix)
  | None => false
  end.

Example is_ipv4_1 : is_ipv4 "10.1.2.3" = true /\ is_ipv4 "::ffff:10.1.2.3" = true.
Proof. vm_compute. done. Qed.
Example is_ipv4_2 : map is_ipv4 ["10.1.2"; "10.01.2.3"; "10.1.2.256"; "a.b"; "2001:db8::1"; "10..1.2"; ""]
  = replicate 7 false.
Proof. vm_compute. done. Qed.
Example ipv6_1 : ParseIP "2001:db8::1" = Some ([32; 1; 13; 184] ++ replicate 11 0 ++ [1]).
Proof. vm_compute. done. Qed.
Example ipv6_2 : ParseIP "1:2:3:4:5:6:7:8:9" = None /\ ParseIP "::" = Some (replicate 16 0) /\
  ParseIP "1::2::3" = None /\ ParseIP "1:2:3:4:5:6:7::" = Some ([0;1;0;2;0;3;0;4;0;5;0;6;0;7;0;0]).
Proof. vm_compute. done. Qed.
