(* ===== verification/Config.v ===== *)
(** * Configuration: controller/common/config.go and the parameters of types.go

    [Params.AdmiralParams] is the struct of the parameters and [Params.LabelSet]
    the struct its LabelSet pointer refers to.  [admiralParamsWrapper] is the
    process-wide singleton; each function of config.go takes the wrapper's read
    or write lock for the whole of its body, so it is one atomic step.  The
    getters and the feature predicates are functions of the parameters held by
    the wrapper. *)
From S2P Require Import Prelude GoStrings.
From stdpp Require Import options.

Module Params.

Record LabelSet := mkLabelSet {
  DeploymentAnnotation : string;
  SubsetLabel : string;
  NamespaceSidecarInjectionLabel : string;
  NamespaceSidecarInjectionLabelValue : string;
  AdmiralIgnoreLabel : string;
  PriorityKey : string;
  WorkloadIdentityKey : string;
  TrafficConfigIdentityKey : string;
  EnvKey : string;
  GatewayApp : string;
  AdmiralCRDIdentityLabel : string;
  IdentityPartitionKey : string;
  ShardIdentityLabelKey : string
}.

Definition zero_LabelSet : LabelSet := {|
  DeploymentAnnotation := "";
  SubsetLabel := "";
  NamespaceSidecarInjectionLabel := "";
  NamespaceSidecarInjectionLabelValue := "";
  AdmiralIgnoreLabel := "";
  PriorityKey := "";
  WorkloadIdentityKey := "";
  TrafficConfigIdentityKey := "";
  EnvKey := "";
  GatewayApp := "";
  AdmiralCRDIdentityLabel := "";
  IdentityPartitionKey := "";
  ShardIdentityLabelKey := ""
|}.

#[global] Instance eta_LabelSet : Settable LabelSet := fun r =>
  mkLabelSet (DeploymentAnnotation r) (SubsetLabel r) (NamespaceSidecarInjectionLabel r)
  (NamespaceSidecarInjectionLabelValue r) (AdmiralIgnoreLabel r) (PriorityKey r)
  (WorkloadIdentityKey r) (TrafficConfigIdentityKey r) (EnvKey r) (GatewayApp r)
  (AdmiralCRDIdentityLabel r) (IdentityPartitionKey r) (ShardIdentityLabelKey r).

Record AdmiralParams := mkAdmiralParams {
  ArgoRolloutsEnabled : bool;
  KubeconfigPath : string;
  SecretFilterTags : string;
  CacheReconcileDuration : Z;
  SeAndDrCacheReconcileDuration : Z;
  ClusterRegistriesNamespace : string;
  DependenciesNamespace : string;
  DnsConfigFile : string;
  DNSTimeoutMs : Z;
  DNSRetries : Z;
  TrafficConfigNamespace : string;
  SyncNamespace : string;
  EnableSAN : bool;
  SANPrefix : string;
  AdmiralConfig : string;
  Profile : string;
  LabelSetPtr : option LabelSet;
  LogLevel : Z;
  HostnameSuffix : string;
  PreviewHostnamePrefix : string;
  MetricsEnabled : bool;
  ChannelCapacity : Z;
  WorkloadSidecarUpdate : string;
  WorkloadSidecarName : string;
  AdmiralStateCheckerName : string;
  DRStateStoreConfigPath : string;
  ServiceEntryIPPrefix : string;
  EnvoyFilterVersion : string;
  DeprecatedEnvoyFilterVersion : string;
  EnvoyFilterAdditionalConfig : string;
  EnableRoutingPolicy : bool;
  RoutingPolicyClusters : list string;
  ExcludedIdentityList : list string;
  AdditionalEndpointSuffixes : list string;
  AdditionalEndpointLabelFilters : list string;
  HAMode : string;
  EnableWorkloadDataStorage : bool;
  EnableDiffCheck : bool;
  EnableProxyEnvoyFilter : bool;
  EnableDependencyProcessing : bool;
  DeploymentOrRolloutWorkerConcurrency : Z;
  DependentClusterWorkerConcurrency : Z;
  SeAddressConfigmap : string;
  DependencyWarmupMultiplier : Z;
  EnableOutlierDetection : bool;
  EnableClientConnectionConfigProcessing : bool;
  MaxRequestsPerConnection : Z;
  EnableAbsoluteFQDN : bool;
  EnableAbsoluteFQDNForLocalEndpoints : bool;
  DisableDefaultAutomaticFailover : bool;
  EnableServiceEntryCache : bool;
  AlphaIdentityList : list string;
  EnableDestinationRuleCache : bool;
  DisableIPGeneration : bool;
  EnableActivePassive : bool;
  EnableSWAwareNSCaches : bool;
  ClientInitiatedProcessingEnabledForControllers : bool;
  ClientInitiatedProcessingEnabledForDynamicConfig : bool;
  InitiateClientInitiatedProcessingFor : list string;
  ExportToIdentityList : list string;
  ExportToMaxNamespaces : Z;
  EnableSyncIstioResourcesToSourceClusters : bool;
  DefaultWarmupDurationSecs : Z;
  EnableGenerationCheck : bool;
  EnableIsOnlyReplicaCountChangedCheck : bool;
  PreventSplitBrain : bool;
  IgnoreLabelsAnnotationsVSCopyList : list string;
  TrafficConfigPersona : bool;
  TrafficConfigIgnoreAssets : list string;
  CartographerFeatures : gomap;
  TrafficConfigScope : string;
  LogToFile : bool;
  LogFilePath : string;
  LogFileSizeInMBs : Z;
  GatewayAssetAliases : list string;
  AdmiralOperatorMode : bool;
  OperatorSyncNamespace : string;
  AdmiralStateSyncerMode : bool;
  OperatorIdentityValue : string;
  ShardIdentityValue : string;
  OperatorSecretFilterTags : string;
  RegistryClientHost : string;
  RegistryClientAppId : string;
  RegistryClientAppSecret : string;
  RegistryClientBaseURI : string;
  AdmiralAppEnv : string;
  AdmiralStateSyncerClusters : list string;
  EnableVSRouting : bool;
  VSRoutingGateways : list string;
  IngressVSExportToNamespaces : list string;
  IngressLBPolicy : string;
  VSRoutingDisabledClusters : list string;
  VSRoutingSlowStartEnabledClusters : list string;
  EnableVSRoutingInCluster : bool;
  VSRoutingInClusterEnabledResources : gomap;
  VSRoutingInClusterDisabledResources : gomap;
  EnableCustomVSMerge : bool;
  ProcessVSCreatedBy : string;
  EnableSidecarCaching : bool;
  MaxSidecarEgressHostsLimitToCache : Z;
  EnableClientDiscovery : bool;
  ClientDiscoveryClustersForJobs : list string;
  DiscoveryClustersForNumaflow : list string;
  EnableDynamicConfig : bool;
  DynamicConfigDynamoDBTableName : string;
  DynamicSyncPeriod : Z;
  NLBEnabledClusters : list string;
  NLBEnabledIdentityList : list string;
  CLBEnabledClusters : list string;
  NLBIngressLabel : string;
  EnableTrafficConfigProcessingForSlowStart : bool
}.

Local Open Scope Z_scope.

Definition zero_AdmiralParams : AdmiralParams := {|
  ArgoRolloutsEnabled := false;
  KubeconfigPath := "";
  SecretFilterTags := "";
  CacheReconcileDuration := 0;
  SeAndDrCacheReconcileDuration := 0;
  ClusterRegistriesNamespace := "";
  DependenciesNamespace := "";
  DnsConfigFile := "";
  DNSTimeoutMs := 0;
  DNSRetries := 0;
  TrafficConfigNamespace := "";
  SyncNamespace := "";
  EnableSAN := false;
  SANPrefix := "";
  AdmiralConfig := "";
  Profile := "";
  LabelSetPtr := None;
  LogLevel := 0;
  HostnameSuffix := "";
  PreviewHostnamePrefix := "";
  MetricsEnabled := false;
  ChannelCapacity := 0;
  WorkloadSidecarUpdate := "";
  WorkloadSidecarName := "";
  AdmiralStateCheckerName := "";
  DRStateStoreConfigPath := "";
  ServiceEntryIPPrefix := "";
  EnvoyFilterVersion := "";
  DeprecatedEnvoyFilterVersion := "";
  EnvoyFilterAdditionalConfig := "";
  EnableRoutingPolicy := false;
  RoutingPolicyClusters := [];
  ExcludedIdentityList := [];
  AdditionalEndpointSuffixes := [];
  AdditionalEndpointLabelFilters := [];
  HAMode := "";
  EnableWorkloadDataStorage := false;
  EnableDiffCheck := false;
  EnableProxyEnvoyFilter := false;
  EnableDependencyProcessing := false;
  DeploymentOrRolloutWorkerConcurrency := 0;
  DependentClusterWorkerConcurrency := 0;
  SeAddressConfigmap := "";
  DependencyWarmupMultiplier := 0;
  EnableOutlierDetection := false;
  EnableClientConnectionConfigProcessing := false;
  MaxRequestsPerConnection := 0;
  EnableAbsoluteFQDN := false;
  EnableAbsoluteFQDNForLocalEndpoints := false;
  DisableDefaultAutomaticFailover := false;
  EnableServiceEntryCache := false;
  AlphaIdentityList := [];
  EnableDestinationRuleCache := false;
  DisableIPGeneration := false;
  EnableActivePassive := false;
  EnableSWAwareNSCaches := false;
  ClientInitiatedProcessingEnabledForControllers := false;
  ClientInitiatedProcessingEnabledForDynamicConfig := false;
  InitiateClientInitiatedProcessingFor := [];
  ExportToIdentityList := [];
  ExportToMaxNamespaces := 0;
  EnableSyncIstioResourcesToSourceClusters := false;
  DefaultWarmupDurationSecs := 0;
  EnableGenerationCheck := false;
  EnableIsOnlyReplicaCountChangedCheck := false;
  PreventSplitBrain := false;
  IgnoreLabelsAnnotationsVSCopyList := [];
  TrafficConfigPersona := false;
  TrafficConfigIgnoreAssets := [];
  CartographerFeatures := None;
  TrafficConfigScope := "";
  LogToFile := false;
  LogFilePath := "";
  LogFileSizeInMBs := 0;
  GatewayAssetAliases := [];
  AdmiralOperatorMode := false;
  OperatorSyncNamespace := "";
  AdmiralStateSyncerMode := false;
  OperatorIdentityValue := "";
  ShardIdentityValue := "";
  OperatorSecretFilterTags := "";
  RegistryClientHost := "";
  RegistryClientAppId := "";
  RegistryClientAppSecret := "";
  RegistryClientBaseURI := "";
  AdmiralAppEnv := "";
  AdmiralStateSyncerClusters := [];
  EnableVSRouting := false;
  VSRoutingGateways := [];
  IngressVSExportToNamespaces := [];
  IngressLBPolicy := "";
  VSRoutingDisabledClusters := [];
  VSRoutingSlowStartEnabledClusters := [];
  EnableVSRoutingInCluster := false;
  VSRoutingInClusterEnabledResources := None;
  VSRoutingInClusterDisabledResources := None;
  EnableCustomVSMerge := false;
  ProcessVSCreatedBy := "";
  EnableSidecarCaching := false;
  MaxSidecarEgressHostsLimitToCache := 0;
  EnableClientDiscovery := false;
  ClientDiscoveryClustersForJobs := [];
  DiscoveryClustersForNumaflow := [];
  EnableDynamicConfig := false;
  DynamicConfigDynamoDBTableName := "";
  DynamicSyncPeriod := 0;
  NLBEnabledClusters := [];
  NLBEnabledIdentityList := [];
  CLBEnabledClusters := [];
  NLBIngressLabel := "";
  EnableTrafficConfigProcessingForSlowStart := false
|}.

#[global] Instance eta_AdmiralParams : Settable AdmiralParams := fun r =>
  mkAdmiralParams (ArgoRolloutsEnabled r) (KubeconfigPath r) (SecretFilterTags r)
  (CacheReconcileDuration r) (SeAndDrCacheReconcileDuration r) (ClusterRegistriesNamespace
  r) (DependenciesNamespace r) (DnsConfigFile r) (DNSTimeoutMs r) (DNSRetries r)
  (TrafficConfigNamespace r) (SyncNamespace r) (EnableSAN r) (SANPrefix r) (AdmiralConfig
  r) (Profile r) (LabelSetPtr r) (LogLevel r) (HostnameSuffix r) (PreviewHostnamePrefix r)
  (MetricsEnabled r) (ChannelCapacity r) (WorkloadSidecarUpdate r) (WorkloadSidecarName r)
  (AdmiralStateCheckerName r) (DRStateStoreConfigPath r) (ServiceEntryIPPrefix r)
  (EnvoyFilterVersion r) (DeprecatedEnvoyFilterVersion r) (EnvoyFilterAdditionalConfig r)
  (EnableRoutingPolicy r) (RoutingPolicyClusters r) (ExcludedIdentityList r)
  (AdditionalEndpointSuffixes r) (AdditionalEndpointLabelFilters r) (HAMode r)
  (EnableWorkloadDataStorage r) (EnableDiffCheck r) (EnableProxyEnvoyFilter r)
  (EnableDependencyProcessing r) (DeploymentOrRolloutWorkerConcurrency r)
  (DependentClusterWorkerConcurrency r) (SeAddressConfigmap r) (DependencyWarmupMultiplier
  r) (EnableOutlierDetection r) (EnableClientConnectionConfigProcessing r)
  (MaxRequestsPerConnection r) (EnableAbsoluteFQDN r) (EnableAbsoluteFQDNForLocalEndpoints
  r) (DisableDefaultAutomaticFailover r) (EnableServiceEntryCache r) (AlphaIdentityList r)
  (EnableDestinationRuleCache r) (DisableIPGeneration r) (EnableActivePassive r)
  (EnableSWAwareNSCaches r) (ClientInitiatedProcessingEnabledForControllers r)
  (ClientInitiatedProcessingEnabledForDynamicConfig r)
  (InitiateClientInitiatedProcessingFor r) (ExportToIdentityList r) (ExportToMaxNamespaces
  r) (EnableSyncIstioResourcesToSourceClusters r) (DefaultWarmupDurationSecs r)
  (EnableGenerationCheck r) (EnableIsOnlyReplicaCountChangedCheck r) (PreventSplitBrain r)
  (IgnoreLabelsAnnotationsVSCopyList r) (TrafficConfigPersona r)
  (TrafficConfigIgnoreAssets r) (CartographerFeatures r) (TrafficConfigScope r) (LogToFile
  r) (LogFilePath r) (LogFileSizeInMBs r) (GatewayAssetAliases r) (AdmiralOperatorMode r)
  (OperatorSyncNamespace r) (AdmiralStateSyncerMode r) (OperatorIdentityValue r)
  (ShardIdentityValue r) (OperatorSecretFilterTags r) (RegistryClientHost r)
  (RegistryClientAppId r) (RegistryClientAppSecret r) (RegistryClientBaseURI r)
  (AdmiralAppEnv r) (AdmiralStateSyncerClusters r) (EnableVSRouting r) (VSRoutingGateways
  r) (IngressVSExportToNamespaces r) (IngressLBPolicy r) (VSRoutingDisabledClusters r)
  (VSRoutingSlowStartEnabledClusters r) (EnableVSRoutingInCluster r)
  (VSRoutingInClusterEnabledResources r) (VSRoutingInClusterDisabledResources r)
  (EnableCustomVSMerge r) (ProcessVSCreatedBy r) (EnableSidecarCaching r)
  (MaxSidecarEgressHostsLimitToCache r) (EnableClientDiscovery r)
  (ClientDiscoveryClustersForJobs r) (DiscoveryClustersForNumaflow r) (EnableDynamicConfig
  r) (DynamicConfigDynamoDBTableName r) (DynamicSyncPeriod r) (NLBEnabledClusters r)
  (NLBEnabledIdentityList r) (CLBEnabledClusters r) (NLBIngressLabel r)
  (EnableTrafficConfigProcessingForSlowStart r).

End Params.
Export Params (AdmiralParams, LabelSet).

(** ** The singleton *)

Record admiralParamsWrapper := mkWrapper {
  params : AdmiralParams;
  once_done : bool  (* resync.Once: has Do run since the last Reset *)
}.

#[export] Instance eta_wrapper : Settable admiralParamsWrapper := fun w =>
  mkWrapper (params w) (once_done w).

(** The package variable [wrapper] at start-up. *)
Definition wrapper : admiralParamsWrapper :=
  mkWrapper (Params.zero_AdmiralParams
             <| Params.LabelSetPtr := Some Params.zero_LabelSet |>) false.

Definition ResetSync (w : admiralParamsWrapper) : admiralParamsWrapper :=
  w <| once_done := false |>.

(** The new wrapper, and whether the call took effect. *)
Definition InitializeConfig (ps : AdmiralParams) (w : admiralParamsWrapper)
    : admiralParamsWrapper * bool :=
  if once_done w then (w, false)
  else
    let ps' := match Params.LabelSetPtr ps with
               | None => ps <| Params.LabelSetPtr := Some Params.zero_LabelSet |>
               | Some _ => ps
               end in
    (mkWrapper ps' true, true).

Definition GetAdmiralParams (w : admiralParamsWrapper) : AdmiralParams := params w.

Definition UpdateAdmiralParams (ps : AdmiralParams) (w : admiralParamsWrapper)
    : admiralParamsWrapper := w <| params := ps |>.

Definition SetKubeconfigPath (path : string) (w : admiralParamsWrapper) :=
  w <| params := params w <| Params.KubeconfigPath := path |> |>.

Definition SetEnablePrometheus (value : bool) (w : admiralParamsWrapper) :=
  w <| params := params w <| Params.MetricsEnabled := value |> |>.

Definition SetArgoRolloutsEnabled (value : bool) (w : admiralParamsWrapper) :=
  w <| params := params w <| Params.ArgoRolloutsEnabled := value |> |>.

Definition SetCartographerFeature (featureName val : string) (w : admiralParamsWrapper) :=
  let m := default ∅ (Params.CartographerFeatures (params w)) in
  w <| params := params w
       <| Params.CartographerFeatures := Some (<[featureName := val]> m) |> |>.

(** ** Getters and feature predicates *)
Section Getters.
Context (p : AdmiralParams).

(** [wrapper.params.LabelSet]: never nil after [InitializeConfig]
    ([config_labelset_not_nil]). *)
Definition label_set : LabelSet := default Params.zero_LabelSet (Params.LabelSetPtr p).

Definition GetAdmiralProfile : string := p.(Params.Profile).
Definition GetArgoRolloutsEnabled : bool := p.(Params.ArgoRolloutsEnabled).
Definition GetSecretFilterTags : string := p.(Params.SecretFilterTags).
Definition GetKubeconfigPath : string := p.(Params.KubeconfigPath).
Definition GetCacheRefreshDuration : Z := p.(Params.CacheReconcileDuration).
Definition GetClusterRegistriesNamespace : string := p.(Params.ClusterRegistriesNamespace).
Definition GetDependenciesNamespace : string := p.(Params.DependenciesNamespace).
Definition GetSyncNamespace : string := p.(Params.SyncNamespace).
Definition GetEnableSAN : bool := p.(Params.EnableSAN).
Definition GetSANPrefix : string := p.(Params.SANPrefix).
Definition GetAdmiralConfigPath : string := p.(Params.AdmiralConfig).
Definition GetLabelSet : option Params.LabelSet := p.(Params.LabelSetPtr).
Definition GetAdditionalEndpointSuffixes : list string := p.(Params.AdditionalEndpointSuffixes).
Definition GetAdditionalEndpointLabelFilters : list string := p.(Params.AdditionalEndpointLabelFilters).
Definition GetEnableWorkloadDataStorage : bool := p.(Params.EnableWorkloadDataStorage).
Definition IsAdmiralDynamicConfigEnabled : bool := p.(Params.EnableDynamicConfig).
Definition GetHostnameSuffix : string := p.(Params.HostnameSuffix).
Definition GetWorkloadIdentifier : string := label_set.(Params.WorkloadIdentityKey).
Definition GetPartitionIdentifier : string := label_set.(Params.IdentityPartitionKey).
Definition GetTrafficConfigIdentifier : string := label_set.(Params.TrafficConfigIdentityKey).
Definition GetAdmiralCRDIdentityLabel : string := label_set.(Params.AdmiralCRDIdentityLabel).
Definition GetRoutingPolicyLabel : string := label_set.(Params.WorkloadIdentityKey).
Definition GetWorkloadSidecarUpdate : string := p.(Params.WorkloadSidecarUpdate).
Definition GetEnvoyFilterAdditionalConfig : string := p.(Params.EnvoyFilterAdditionalConfig).
Definition GetEnableRoutingPolicy : bool := p.(Params.EnableRoutingPolicy).
Definition GetWorkloadSidecarName : string := p.(Params.WorkloadSidecarName).
Definition GetEnvKey : string := label_set.(Params.EnvKey).
Definition GetMetricsEnabled : bool := p.(Params.MetricsEnabled).
Definition IsPersonaTrafficConfig : bool := p.(Params.TrafficConfigPersona).
Definition GetHAMode : string := p.(Params.HAMode).
Definition GetDiffCheckEnabled : bool := p.(Params.EnableDiffCheck).
Definition IsProxyEnvoyFilterEnabled : bool := p.(Params.EnableProxyEnvoyFilter).
Definition IsDependencyProcessingEnabled : bool := p.(Params.EnableDependencyProcessing).
Definition GetSeAddressConfigMap : string := p.(Params.SeAddressConfigmap).
Definition DeploymentOrRolloutWorkerConcurrency : Z := p.(Params.DeploymentOrRolloutWorkerConcurrency).
Definition DependentClusterWorkerConcurrency : Z := p.(Params.DependentClusterWorkerConcurrency).
Definition DependencyWarmupMultiplier : Z := p.(Params.DependencyWarmupMultiplier).
Definition MaxRequestsPerConnection : Z := p.(Params.MaxRequestsPerConnection).
Definition IsAbsoluteFQDNEnabled : bool := p.(Params.EnableAbsoluteFQDN).
Definition IsClientConnectionConfigProcessingEnabled : bool := p.(Params.EnableClientConnectionConfigProcessing).
Definition IsAbsoluteFQDNEnabledForLocalEndpoints : bool := p.(Params.EnableAbsoluteFQDNForLocalEndpoints).
Definition DisableDefaultAutomaticFailover : bool := p.(Params.DisableDefaultAutomaticFailover).
Definition EnableServiceEntryCache : bool := p.(Params.EnableServiceEntryCache).
Definition EnableDestinationRuleCache : bool := p.(Params.EnableDestinationRuleCache).
Definition AlphaIdentityList : list string := p.(Params.AlphaIdentityList).
Definition GetGatewayAssetAliases : list string := p.(Params.GatewayAssetAliases).
Definition DisableIPGeneration : bool := p.(Params.DisableIPGeneration).
Definition EnableActivePassive : bool := p.(Params.EnableActivePassive).
Definition EnableSWAwareNSCaches : bool := p.(Params.EnableSWAwareNSCaches).
Definition ClientInitiatedProcessingEnabledForControllers : bool := p.(Params.ClientInitiatedProcessingEnabledForControllers).
Definition ClientInitiatedProcessingEnabledForDynamicConfig : bool := p.(Params.ClientInitiatedProcessingEnabledForDynamicConfig).
Definition GetIngressLBPolicy : string := p.(Params.IngressLBPolicy).
Definition GetIngressVSExportToNamespace : list string := p.(Params.IngressVSExportToNamespaces).
Definition IsCustomVSMergeEnabled : bool := p.(Params.EnableCustomVSMerge).
Definition GetProcessVSCreatedBy : string := p.(Params.ProcessVSCreatedBy).
Definition GetEnableVSRoutingInCluster : bool := p.(Params.EnableVSRoutingInCluster).
Definition IsSidecarCachingEnabled : bool := p.(Params.EnableSidecarCaching).
Definition GetMaxSidecarEgressHostsLimitToCache : Z := p.(Params.MaxSidecarEgressHostsLimitToCache).
Definition GetVSRoutingGateways : list string := p.(Params.VSRoutingGateways).
Definition DoGenerationCheck : bool := p.(Params.EnableGenerationCheck).
Definition IsOnlyReplicaCountChanged : bool := p.(Params.EnableIsOnlyReplicaCountChangedCheck).
Definition PreventSplitBrain : bool := p.(Params.PreventSplitBrain).
Definition GetExportToMaxNamespaces : Z := p.(Params.ExportToMaxNamespaces).
Definition IsClientDiscoveryEnabled : bool := p.(Params.EnableClientDiscovery).
Definition GetClientDiscoveryClustersForJobs : list string := p.(Params.ClientDiscoveryClustersForJobs).
Definition GetClientDiscoveryClustersForNumaflow : list string := p.(Params.DiscoveryClustersForNumaflow).
Definition IsAdmiralStateSyncerMode : bool := p.(Params.AdmiralStateSyncerMode).
Definition GetDefaultWarmupDurationSecs : Z := p.(Params.DefaultWarmupDurationSecs).
Definition IsAdmiralOperatorMode : bool := p.(Params.AdmiralOperatorMode).
Definition GetOperatorSyncNamespace : string := p.(Params.OperatorSyncNamespace).
Definition GetOperatorIdentityLabelValue : string := p.(Params.OperatorIdentityValue).
Definition GetOperatorSecretFilterTags : string := p.(Params.OperatorSecretFilterTags).
Definition GetIgnoreLabelsAnnotationsVSCopy : list string := p.(Params.IgnoreLabelsAnnotationsVSCopyList).
Definition GetAdmiralAppEnv : string := p.(Params.AdmiralAppEnv).
Definition IsTrafficConfigProcessingEnabledForSlowStart : bool := p.(Params.EnableTrafficConfigProcessingForSlowStart).

Definition GetEnvoyFilterVersion : list string :=
  if is_empty (trim_space p.(Params.EnvoyFilterVersion)) then []
  else split ","%char p.(Params.EnvoyFilterVersion).

Definition GetDeprecatedEnvoyFilterVersion : list string :=
  if is_empty (trim_space p.(Params.DeprecatedEnvoyFilterVersion)) then []
  else split ","%char p.(Params.DeprecatedEnvoyFilterVersion).

Definition IsCartographerFeatureDisabled (featureName : string) : bool :=
  match p.(Params.CartographerFeatures) with
  | None => false
  | Some m => match m !! featureName with
              | Some val => val =?s "disabled"
              | None => false
              end
  end.

Definition IsDefaultPersona : bool := negb p.(Params.TrafficConfigPersona).

Definition EnableExportTo (identityOrCname : string) : bool :=
  existsb (fun identity =>
    negb (identity =?s "")
    && ((identity =?s "*") || contains (to_lower identityOrCname) (to_lower identity))
    && p.(Params.EnableSWAwareNSCaches)) p.(Params.ExportToIdentityList).

Definition GetInitiateClientInitiatedProcessingFor : gmap string string :=
  foldl (fun result identity => <[identity := identity]> result) ∅
    p.(Params.InitiateClientInitiatedProcessingFor).

(** The loops over a list of clusters in which "*" stands for every cluster. *)
Fixpoint cluster_listed (cluster : string) (l : list string) : bool :=
  match l with
  | [] => false
  | c :: l' => if c =?s "*" then true
               else if c =?s cluster then true else cluster_listed cluster l'
  end.

Definition DoVSRoutingForCluster (cluster : string) : bool :=
  if negb p.(Params.EnableVSRouting) then false
  else negb (cluster_listed cluster p.(Params.VSRoutingDisabledClusters)).

Definition IsSlowStartEnabledForCluster (cluster : string) : bool :=
  if negb p.(Params.EnableVSRouting) then false
  else cluster_listed cluster p.(Params.VSRoutingSlowStartEnabledClusters).

Definition ShouldInClusterVSRoutingPerformRollback : bool :=
  Nat.ltb 0 (mlen p.(Params.VSRoutingInClusterDisabledResources)).

Definition GetVSRoutingInClusterEnabledResources : gmap string string :=
  default ∅ p.(Params.VSRoutingInClusterEnabledResources).

Definition GetVSRoutingInClusterDisabledResources : gmap string string :=
  default ∅ p.(Params.VSRoutingInClusterDisabledResources).

Definition DoRoutingPolicyForCluster (cluster : string) : bool :=
  if negb p.(Params.EnableRoutingPolicy) then false
  else cluster_listed cluster p.(Params.RoutingPolicyClusters).

(** UniversalReconcileInterval and SeAndDrReconcileInterval *)
Definition GetResyncIntervals : Z * Z :=
  (p.(Params.CacheReconcileDuration), p.(Params.SeAndDrCacheReconcileDuration)).

Definition GetShardIdentityLabelKeyValueSet : string * string :=
  (label_set.(Params.ShardIdentityLabelKey), p.(Params.ShardIdentityValue)).

Definition GetRegistryClientConfig : gmap string string :=
  {[ "Host" := p.(Params.RegistryClientHost); "AppId" := p.(Params.RegistryClientAppId);
     "AppSecret" := p.(Params.RegistryClientAppSecret);
     "BaseURI" := p.(Params.RegistryClientBaseURI) ]}.

Definition IsStateSyncerCluster (clusterName : string) : bool :=
  existsb (fun cluster =>
    negb (cluster =?s "") &&
    ((cluster =?s "*") || (to_lower clusterName =?s to_lower cluster)))
    p.(Params.AdmiralStateSyncerClusters).

End Getters.

(** ** The configuration as a state machine *)

Inductive config_op :=
| OpInitialize (ps : AdmiralParams)
| OpReset
| OpUpdate (ps : AdmiralParams)
| OpSetKubeconfigPath (path : string)
| OpSetEnablePrometheus (value : bool)
| OpSetArgoRolloutsEnabled (value : bool)
| OpSetCartographerFeature (name val : string).

Definition config_step (w : admiralParamsWrapper) (op : config_op) : admiralParamsWrapper :=
  match op with
  | OpInitialize ps => (InitializeConfig ps w).1
  | OpReset => ResetSync w
  | OpUpdate ps => UpdateAdmiralParams ps w
  | OpSetKubeconfigPath s => SetKubeconfigPath s w
  | OpSetEnablePrometheus b => SetEnablePrometheus b w
  | OpSetArgoRolloutsEnabled b => SetArgoRolloutsEnabled b w
  | OpSetCartographerFeature n v => SetCartographerFeature n v w
  end.

Definition config_run (w : admiralParamsWrapper) (ops : list config_op) :=
  foldl config_step w ops.

(** UpdateAdmiralParams is the one operation that does not check the pointer. *)
Definition op_keeps_labelset (op : config_op) : Prop :=
  match op with OpUpdate ps => Params.LabelSetPtr ps <> None | _ => True end.

(** ** Lemmas and properties *)

Lemma existsb_iff {A} (f : A -> bool) l : existsb f l = true <-> exists x, x ∈ l /\ f x = true.
Proof. rewrite existsb_exists. by setoid_rewrite list_elem_of_In. Qed.

Lemma cluster_listed_spec c l : cluster_listed c l = true <-> "*" ∈ l \/ c ∈ l.
Proof.
  induction l as [|x l IH]; simpl.
  { split; [done|]. by intros [?%elem_of_nil|?%elem_of_nil]. }
  rewrite !elem_of_cons. destruct (x =?s "*") eqn:E; sdec.
  { split; [intros _; left; left; congruence|done]. }
  destruct (x =?s c) eqn:E'; sdec.
  { split; [intros _; right; left; congruence|done]. }
  rewrite IH. intuition congruence.
Qed.

Lemma cluster_listed_false c l : cluster_listed c l = false <-> "*" ∉ l /\ c ∉ l.
Proof.
  rewrite <- not_true_iff_false, cluster_listed_spec. tauto.
Qed.

#[export] Hint Rewrite @existsb_iff cluster_listed_spec cluster_listed_false : admiral.

Lemma config_step_labelset w op :
  op_keeps_labelset op -> Params.LabelSetPtr (params w) <> None ->
  Params.LabelSetPtr (params (config_step w op)) <> None.
Proof.
  intros Hop Hw. destruct op; [|exact Hw|exact Hop|exact Hw..].
  cbn [config_step]. unfold InitializeConfig. destruct (once_done w); [exact Hw|].
  destruct (Params.LabelSetPtr ps) eqn:E; cbn [fst params].
  - by rewrite E.
  - intros H. discriminate H.
Qed.

(** The label-set pointer the getters dereference is never nil: it is not nil
    at start-up and every operation keeps it so, except [UpdateAdmiralParams]
    with a nil one. *)
Theorem config_labelset_not_nil ops :
  Forall op_keeps_labelset ops ->
  Params.LabelSetPtr (params (config_run wrapper ops)) <> None.
Proof.
  unfold config_run. intros Hops.
  assert (Params.LabelSetPtr (params wrapper) <> None) as Hw by done.
  revert Hw. generalize wrapper. induction Hops as [|op ops Hop Hops IH]; intros w Hw; simpl.
  - done.
  - by apply IH, config_step_labelset.
Qed.

Lemma config_labelset_not_nil_witness :
  Forall op_keeps_labelset [OpInitialize Params.zero_AdmiralParams; OpReset] /\
  Params.LabelSetPtr (params (config_run wrapper
    [OpInitialize Params.zero_AdmiralParams; OpReset])) <> None.
Proof.
  assert (Forall op_keeps_labelset [OpInitialize Params.zero_AdmiralParams; OpReset])
    as H by (repeat constructor).
  split; [exact H|]. exact (config_labelset_not_nil _ H).
Defined.
