(* ===== verification/Objects.v ===== *)
(** * The Kubernetes, Argo, Istio and Admiral objects

    The API objects are structs of packages the source imports, and of the
    generated files of [src/admiral/pkg/apis/admiral/model].  Each is a record
    with the fields that the modelled code reads or writes.  A map field is a
    [gomap] (nil or a map), a pointer field an [option], a fixed-width integer a
    [Z], a [metav1.Time] its number of nanoseconds since the epoch. *)
From S2P Require Import Prelude GoStrings.
From stdpp Require Import options.
Local Open Scope Z_scope.

(** ** metav1 *)

Record ObjectMeta := mkMeta {
  Name : string;
  Namespace : string;
  Labels : gomap;
  Annotations : gomap;
  CreationTimestamp : Z;
  ResourceVersion : string
}.
#[export] Instance eta_ObjectMeta : Settable ObjectMeta := fun m =>
  mkMeta (Name m) (Namespace m) (Labels m) (Annotations m) (CreationTimestamp m)
    (ResourceVersion m).
#[export] Instance ObjectMeta_eq_dec : EqDecision ObjectMeta.
Proof. solve_decision. Defined.

(** [time.Time.Nanosecond]: the offset within the second. *)
Definition nanosecond (t : Z) : Z := t mod 1000000000.

(** [t.After(u)]. *)
Definition after (t u : Z) : bool := u <? t.

Record LabelSelector := mkSelector { MatchLabels : gomap }.

(** ** apps/v1 and core/v1 *)

(** The pod template's metadata: [Spec.Template.ObjectMeta]. *)
Record PodTemplate := mkTemplate { TLabels : gomap; TAnnotations : gomap }.

Record DeploymentObj := mkDeployment {
  DepMeta : ObjectMeta;
  DepTemplate : PodTemplate;
  DepSelector : option LabelSelector;
  DepReplicas : option Z;
  DepGeneration : Z;
  DepOtherSpec : string  (* the rest of the spec, which is only compared *)
}.

(** [intstr.IntOrString]. *)
Record IntOrString := mkIntOrString { IntVal : Z; StrVal : string }.

Record SvcPort := mkSvcPort {
  PortName : string;
  Port : Z;  (* int32 *)
  TargetPort : IntOrString;
  NodePort : Z  (* int32 *)
}.
#[export] Instance IntOrString_eq_dec : EqDecision IntOrString.
Proof. solve_decision. Defined.
#[export] Instance SvcPort_eq_dec : EqDecision SvcPort.
Proof. solve_decision. Defined.

(** [LoadBalancerIngress]. *)
Record LbIngress := mkLbIngress { ingressHostname : string; ingressIP : string }.
#[export] Instance LbIngress_eq_dec : EqDecision LbIngress.
Proof. solve_decision. Defined.

Record ServiceObj := mkService {
  SvcMeta : ObjectMeta;
  SvcPorts : list SvcPort;
  SvcSelector : gomap;
  SvcExternalIPs : list string;
  SvcIngress : list LbIngress  (* Status.LoadBalancer.Ingress *)
}.
#[export] Instance ServiceObj_eq_dec : EqDecision ServiceObj.
Proof. solve_decision. Defined.

(** ** argo-rollouts *)

Record BlueGreenStrategy := mkBlueGreen { ActiveService : string; PreviewService : string }.

(** [TrafficRouting.Istio.VirtualService]. *)
Record IstioVS := mkIstioVS { IstioVSName : string; IstioVSRoutes : list string }.

(** [TrafficRouting]: [Some None] when [Istio] is nil, [Some (Some None)] when its
    [VirtualService] is nil. *)
Record CanaryStrategy := mkCanary {
  StableService : string;
  CanaryService : string;
  TrafficRouting : option (option (option IstioVS))
}.

Record RolloutStrategy := mkStrategy {
  BlueGreen : option BlueGreenStrategy;
  Canary : option CanaryStrategy
}.

Record RolloutObj := mkRollout {
  RoMeta : ObjectMeta;
  RoTemplate : PodTemplate;
  RoSelector : option LabelSelector;
  RoStrategy : RolloutStrategy;
  RoReplicas : option Z;
  RoGeneration : Z;
  RoOtherSpec : string  (* the rest of the spec, which is only compared *)
}.

(** ** Admiral's own resources *)

Inductive LbType := TOPOLOGY | FAILOVER.
#[export] Instance LbType_eq_dec : EqDecision LbType.
Proof. solve_decision. Defined.

Record TrafficGroup := mkTrafficGroup { Region : string; Weight : Z (* int32 *) }.
#[export] Instance TrafficGroup_eq_dec : EqDecision TrafficGroup.
Proof. solve_decision. Defined.

(** [TrafficPolicy_OutlierDetection] and [OutlierConfig] have the same fields. *)
Record OutlierConfig := mkOutlierConfig {
  ocBaseEjectionTime : Z;  (* int64 *)
  ocConsecutiveGatewayErrors : Z;  (* uint32 *)
  ocInterval : Z  (* int64 *)
}.
#[export] Instance OutlierConfig_eq_dec : EqDecision OutlierConfig.
Proof. solve_decision. Defined.

Record TrafficPolicy := mkTrafficPolicy {
  tpDns : string;
  tpLbType : LbType;
  tpTarget : list TrafficGroup;
  tpDnsPrefix : string;
  tpOutlierDetection : option OutlierConfig
}.
#[export] Instance TrafficPolicy_eq_dec : EqDecision TrafficPolicy.
Proof. solve_decision. Defined.

#[export] Instance eta_TrafficPolicy : Settable TrafficPolicy := fun t =>
  mkTrafficPolicy (tpDns t) (tpLbType t) (tpTarget t) (tpDnsPrefix t) (tpOutlierDetection t).

Record GlobalTrafficPolicy := mkGTP {
  GtpMeta : ObjectMeta;
  GtpPolicy : list TrafficPolicy;
  GtpSelector : gomap
}.
#[export] Instance eta_GTP : Settable GlobalTrafficPolicy := fun g =>
  mkGTP (GtpMeta g) (GtpPolicy g) (GtpSelector g).
#[export] Instance GTP_eq_dec : EqDecision GlobalTrafficPolicy.
Proof. solve_decision. Defined.

Record OutlierDetectionCrd := mkOD {
  OdMeta : ObjectMeta;
  OdConfig : option OutlierConfig;
  OdSelector : gomap
}.
#[export] Instance OD_eq_dec : EqDecision OutlierDetectionCrd.
Proof. solve_decision. Defined.

Record CccHttp := mkCccHttp {
  cccHttp2MaxRequests : Z;  (* int32 *)
  cccMaxRequestsPerConnection : Z;  (* int32 *)
  cccIdleTimeout : string
}.
#[export] Instance CccHttp_eq_dec : EqDecision CccHttp.
Proof. solve_decision. Defined.

Record CccPool := mkCccPool {
  cccHttp : option CccHttp;
  cccTcpMaxConnectionDuration : option string  (* Tcp, with its one field read *)
}.
#[export] Instance CccPool_eq_dec : EqDecision CccPool.
Proof. solve_decision. Defined.

Record ClientConnectionConfig := mkCCC {
  CccMeta : ObjectMeta;
  CccConnectionPool : option CccPool
}.
#[export] Instance CCC_eq_dec : EqDecision ClientConnectionConfig.
Proof. solve_decision. Defined.

Record SlowStartConfig := mkSlowStartConfig { WorkloadEnvSelectors : list string; Duration : string }.

(** [TcEdgeService]: the slow start of [Spec.EdgeService]; the service and the slice can
    be nil. *)
Record TrafficConfigObj := mkTrafficConfig {
  TcMeta : ObjectMeta;
  TcEdgeService : option (option (list SlowStartConfig))
}.

(** [Plugin], [Hosts] and [Config] of the spec. *)
Record RoutingPolicyObj := mkRoutingPolicy {
  RpMeta : ObjectMeta;
  RpPlugin : string;
  RpHosts : list string;
  RpConfig : gmap string string
}.

Record DependencyObj := mkDependency {
  DpMeta : ObjectMeta;
  DpSource : string;
  DpDestinations : list string
}.

(** ** networking.istio.io/v1alpha3 *)

Record ServicePort := mkServicePort { spNumber : Z; spProtocol : string; spName : string }.
#[export] Instance ServicePort_eq_dec : EqDecision ServicePort.
Proof. solve_decision. Defined.

Record WorkloadEntry := mkWorkloadEntry {
  weAddress : string;
  wePorts : gmap string Z;  (* map[string]uint32 *)
  weLabels : gomap;
  weLocality : string;
  weWeight : Z  (* uint32 *)
}.
#[export] Instance eta_WorkloadEntry : Settable WorkloadEntry := fun w =>
  mkWorkloadEntry (weAddress w) (wePorts w) (weLabels w) (weLocality w) (weWeight w).
#[export] Instance WorkloadEntry_eq_dec : EqDecision WorkloadEntry.
Proof. solve_decision. Defined.

Inductive SeLocation := MESH_EXTERNAL | MESH_INTERNAL.
Inductive SeResolution := RESOLUTION_NONE | STATIC | DNS | DNS_ROUND_ROBIN.
#[export] Instance SeLocation_eq_dec : EqDecision SeLocation.
Proof. solve_decision. Defined.
#[export] Instance SeResolution_eq_dec : EqDecision SeResolution.
Proof. solve_decision. Defined.

(** The spec, [networking.ServiceEntry]. *)
Record ServiceEntry := mkServiceEntry {
  seHosts : list string;
  seAddresses : list string;
  sePorts : list ServicePort;
  seLocation : SeLocation;
  seResolution : SeResolution;
  seEndpoints : list WorkloadEntry;
  seExportTo : list string;
  seSubjectAltNames : list string
}.
#[export] Instance eta_ServiceEntry : Settable ServiceEntry := fun s =>
  mkServiceEntry (seHosts s) (seAddresses s) (sePorts s) (seLocation s) (seResolution s)
    (seEndpoints s) (seExportTo s) (seSubjectAltNames s).
#[export] Instance ServiceEntry_eq_dec : EqDecision ServiceEntry.
Proof. solve_decision. Defined.

(** The resource, [v1alpha3.ServiceEntry]. *)
Record ServiceEntryObj := mkServiceEntryObj { SeMeta : ObjectMeta; SeSpec : ServiceEntry }.
#[export] Instance eta_ServiceEntryObj : Settable ServiceEntryObj := fun s =>
  mkServiceEntryObj (SeMeta s) (SeSpec s).
#[export] Instance ServiceEntryObj_eq_dec : EqDecision ServiceEntryObj.
Proof. solve_decision. Defined.

(** [LocalityLoadBalancerSetting_Distribute]. *)
Record Distribute := mkDistribute { dFrom : string; dTo : gmap string Z }.
#[export] Instance Distribute_eq_dec : EqDecision Distribute.
Proof. solve_decision. Defined.

(** [LoadBalancerSettings], with its [Simple] policy; the locality setting is its
    list of distributions and, when it is not nil, [Enabled]. *)
Inductive SimpleLb := LB_UNSPECIFIED | LEAST_REQUEST | ROUND_ROBIN | LB_RANDOM | LB_PASSTHROUGH.
#[export] Instance SimpleLb_eq_dec : EqDecision SimpleLb.
Proof. solve_decision. Defined.

Record LoadBalancerSettings := mkLoadBalancer {
  lbSimple : SimpleLb;
  lbLocality : option (list Distribute);
  lbWarmupDurationSecs : option Z;
  lbLocalityEnabled : option bool
}.
#[export] Instance eta_LoadBalancerSettings : Settable LoadBalancerSettings := fun l =>
  mkLoadBalancer (lbSimple l) (lbLocality l) (lbWarmupDurationSecs l) (lbLocalityEnabled l).
#[export] Instance LoadBalancerSettings_eq_dec : EqDecision LoadBalancerSettings.
Proof. solve_decision. Defined.

Record HTTPSettings := mkHTTPSettings {
  httpHttp2MaxRequests : Z;
  httpMaxRequestsPerConnection : Z;
  httpIdleTimeout : option Z  (* nanoseconds *)
}.
#[export] Instance eta_HTTPSettings : Settable HTTPSettings := fun h =>
  mkHTTPSettings (httpHttp2MaxRequests h) (httpMaxRequestsPerConnection h) (httpIdleTimeout h).
#[export] Instance HTTPSettings_eq_dec : EqDecision HTTPSettings.
Proof. solve_decision. Defined.

Record ConnectionPoolSettings := mkConnectionPool {
  cpHttp : option HTTPSettings;
  cpTcp : option (option Z)  (* Tcp, with MaxConnectionDuration in nanoseconds *)
}.
#[export] Instance eta_ConnectionPoolSettings : Settable ConnectionPoolSettings := fun c =>
  mkConnectionPool (cpHttp c) (cpTcp c).
#[export] Instance ConnectionPoolSettings_eq_dec : EqDecision ConnectionPoolSettings.
Proof. solve_decision. Defined.

(** [networking.OutlierDetection]; the wrapped values are pointers, the durations
    are in seconds. *)
Record OutlierDetection := mkOutlierDetection {
  odConsecutiveGatewayErrors : option Z;
  odConsecutive5xxErrors : option Z;
  odInterval : option Z;
  odBaseEjectionTime : option Z;
  odMaxEjectionPercent : Z
}.
#[export] Instance eta_OutlierDetection : Settable OutlierDetection := fun o =>
  mkOutlierDetection (odConsecutiveGatewayErrors o) (odConsecutive5xxErrors o)
    (odInterval o) (odBaseEjectionTime o) (odMaxEjectionPercent o).
#[export] Instance OutlierDetection_eq_dec : EqDecision OutlierDetection.
Proof. solve_decision. Defined.

Inductive TlsMode := TLS_DISABLE | TLS_SIMPLE | TLS_MUTUAL | ISTIO_MUTUAL.
#[export] Instance TlsMode_eq_dec : EqDecision TlsMode.
Proof. solve_decision. Defined.

Record ClientTLSSettings := mkTls { tlsMode : TlsMode; tlsSubjectAltNames : list string }.
#[export] Instance ClientTLSSettings_eq_dec : EqDecision ClientTLSSettings.
Proof. solve_decision. Defined.

(** [networking.TrafficPolicy]. *)
Record DrTrafficPolicy := mkDrTrafficPolicy {
  drTls : option ClientTLSSettings;
  drLoadBalancer : option LoadBalancerSettings;
  drConnectionPool : option ConnectionPoolSettings;
  drOutlierDetection : option OutlierDetection
}.
#[export] Instance eta_DrTrafficPolicy : Settable DrTrafficPolicy := fun t =>
  mkDrTrafficPolicy (drTls t) (drLoadBalancer t) (drConnectionPool t) (drOutlierDetection t).
#[export] Instance DrTrafficPolicy_eq_dec : EqDecision DrTrafficPolicy.
Proof. solve_decision. Defined.

(** The spec, [networking.DestinationRule]. *)
Record DestinationRule := mkDestinationRule {
  drHost : string;
  drTrafficPolicy : option DrTrafficPolicy;
  drExportTo : list string
}.
#[export] Instance eta_DestinationRule : Settable DestinationRule := fun d =>
  mkDestinationRule (drHost d) (drTrafficPolicy d) (drExportTo d).
#[export] Instance DestinationRule_eq_dec : EqDecision DestinationRule.
Proof. solve_decision. Defined.

(** The resource, [v1alpha3.DestinationRule]. *)
Record DestinationRuleObj := mkDestinationRuleObj { DrMeta : ObjectMeta; DrSpec : DestinationRule }.
#[export] Instance eta_DestinationRuleObj : Settable DestinationRuleObj := fun d =>
  mkDestinationRuleObj (DrMeta d) (DrSpec d).
#[export] Instance DestinationRuleObj_eq_dec : EqDecision DestinationRuleObj.
Proof. solve_decision. Defined.

(** [Destination]; a [Port] that is not nil has a number. *)
Record Destination := mkDestination { dstHost : string; dstSubset : string; dstPort : option Z (* uint32 *) }.
#[export] Instance Destination_eq_dec : EqDecision Destination.
Proof. solve_decision. Defined.

Record HeaderOperations := mkHeaderOperations { hoSet : gomap; hoAdd : gomap; hoRemove : list string }.
#[export] Instance HeaderOperations_eq_dec : EqDecision HeaderOperations.
Proof. solve_decision. Defined.
Record Headers := mkHeaders { hdRequest : option HeaderOperations; hdResponse : option HeaderOperations }.
#[export] Instance Headers_eq_dec : EqDecision Headers.
Proof. solve_decision. Defined.

(** Destinations of HTTP and TLS routes; the [Destination] is not nil. *)
Record HTTPRouteDestination := mkRouteDestination {
  rdDestination : Destination;
  rdWeight : Z;  (* int32 *)
  rdHeaders : option Headers
}.
#[export] Instance eta_HTTPRouteDestination : Settable HTTPRouteDestination := fun r =>
  mkRouteDestination (rdDestination r) (rdWeight r) (rdHeaders r).
#[export] Instance HTTPRouteDestination_eq_dec : EqDecision HTTPRouteDestination.
Proof. solve_decision. Defined.
Record TLSRouteDestination := mkTlsDestination { tdDestination : Destination; tdWeight : Z (* int32 *) }.
#[export] Instance TLSRouteDestination_eq_dec : EqDecision TLSRouteDestination.
Proof. solve_decision. Defined.

Inductive StringMatch := MatchExact (s : string) | MatchPrefix (s : string) | MatchRegex (s : string).
#[export] Instance StringMatch_eq_dec : EqDecision StringMatch.
Proof. solve_decision. Defined.

(** [hmOther] and [hrOther] stand for the fields that the code only copies and
    compares. *)
Record HTTPMatchRequest := mkHTTPMatch { hmAuthority : option StringMatch; hmOther : string }.
#[export] Instance HTTPMatchRequest_eq_dec : EqDecision HTTPMatchRequest.
Proof. solve_decision. Defined.
Record HTTPRoute := mkHTTPRoute {
  hrName : string;
  hrMatch : list HTTPMatchRequest;
  hrRoute : list HTTPRouteDestination;
  hrOther : string
}.
#[export] Instance eta_HTTPRoute : Settable HTTPRoute := fun r =>
  mkHTTPRoute (hrName r) (hrMatch r) (hrRoute r) (hrOther r).
#[export] Instance HTTPRoute_eq_dec : EqDecision HTTPRoute.
Proof. solve_decision. Defined.

Record TLSMatchAttributes := mkTlsMatch { tmPort : Z; tmSniHosts : list string }.
#[export] Instance TLSMatchAttributes_eq_dec : EqDecision TLSMatchAttributes.
Proof. solve_decision. Defined.
Record TLSRoute := mkTLSRoute { trMatch : list TLSMatchAttributes; trRoute : list TLSRouteDestination }.
#[export] Instance eta_TLSRoute : Settable TLSRoute := fun r => mkTLSRoute (trMatch r) (trRoute r).
#[export] Instance TLSRoute_eq_dec : EqDecision TLSRoute.
Proof. solve_decision. Defined.

(** The spec, [networking.VirtualService], with the fields that are read or written. *)
Record VirtualService := mkVirtualService {
  vsHosts : list string;
  vsGateways : list string;
  vsHttp : list HTTPRoute;
  vsTls : list TLSRoute;
  vsExportTo : list string
}.
#[export] Instance eta_VirtualService : Settable VirtualService := fun v =>
  mkVirtualService (vsHosts v) (vsGateways v) (vsHttp v) (vsTls v) (vsExportTo v).
#[export] Instance VirtualService_eq_dec : EqDecision VirtualService.
Proof. solve_decision. Defined.

(** The resource, [v1alpha3.VirtualService]. *)
Record VirtualServiceObj := mkVirtualServiceObj { VsMeta : ObjectMeta; VsSpec : VirtualService }.
#[export] Instance eta_VirtualServiceObj : Settable VirtualServiceObj := fun v =>
  mkVirtualServiceObj (VsMeta v) (VsSpec v).
#[export] Instance VirtualServiceObj_eq_dec : EqDecision VirtualServiceObj.
Proof. solve_decision. Defined.

(** The values of [structPb] that the code builds. *)
Inductive pb_value := PbString (s : string) | PbStruct (fields : list (string * pb_value)).

(** The spec of an envoy filter with one patch, [networking.EnvoyFilter], and the
    resource. *)
Record EnvoyFilter := mkEnvoyFilter {
  efWorkloadLabels : gmap string string;
  efApplyTo : string;
  efContext : string;
  efProxyVersion : string;
  efFilter : string;
  efSubFilter : string;
  efOperation : string;
  efPatchName : string;
  efTypedConfig : pb_value
}.
Record EnvoyFilterObj := mkEnvoyFilterObj { EfMeta : ObjectMeta; EfSpec : EnvoyFilter }.
#[export] Instance eta_EnvoyFilterObj : Settable EnvoyFilterObj := fun e => mkEnvoyFilterObj (EfMeta e) (EfSpec e).

(** The resource, [v1alpha3.Sidecar]; [elOther] and the strings of the spec stand for
    the fields that the code only copies, [sdOthers] for those that it does not name. *)
Record EgressListener := mkEgress { elHosts : list string; elOther : string }.
#[export] Instance EgressListener_eq_dec : EqDecision EgressListener.
Proof. solve_decision. Defined.
Record Sidecar := mkSidecar {
  sdWorkloadSelector : string;
  sdIngress : string;
  sdEgress : list EgressListener;
  sdOthers : string
}.
#[export] Instance Sidecar_eq_dec : EqDecision Sidecar.
Proof. solve_decision. Defined.
Record SidecarObj := mkSidecarObj { SdMeta : ObjectMeta; SdSpec : Sidecar }.
#[export] Instance eta_SidecarObj : Settable SidecarObj := fun s => mkSidecarObj (SdMeta s) (SdSpec s).
#[export] Instance SidecarObj_eq_dec : EqDecision SidecarObj.
Proof. solve_decision. Defined.

(** ** admiral.EventType *)

Inductive EventType := Add | Update | Delete.
#[export] Instance EventType_eq_dec : EqDecision EventType.
Proof. solve_decision. Defined.
