(* ===== verification/Metadata.v ===== *)
(** * Names, identities and environments: [controller/common]

    The functions of [common.go] and [rolloutcommon.go] that read an object's
    metadata: identifiers, environments, cnames, SANs, policy keys, mesh ports,
    service selection, policy ordering, and the small helpers next to them, with
    [controller/util/util.go].  The configuration is the argument [p]. *)
From S2P Require Import Prelude GoStrings Config Objects.
From stdpp Require Import options.
Local Open Scope Z_scope.

(** ** Constants *)
Definition Env := "env".
Definition Sep := ".".
Definition Dash := "-".
Definition Slash := "/".
Definition Default := "default".
Definition NamespaceIstioSystem := "istio-system".
Definition DotLocalDomainSuffix := ".svc.cluster.local".
Definition DefaultMtlsPort : Z := 15443.
Definition DefaultServiceEntryPort : Z := 80.
Definition SpiffePrefix := "spiffe://".
Definition NodeRegionLabel := "failure-domain.beta.kubernetes.io/region".
Definition SidecarEnabledPorts := "traffic.sidecar.istio.io/includeInboundPorts".
Definition AdmiralIgnoreAnnotation := "admiral.io/ignore".
Definition AdmiralCnameCaseSensitive := "admiral.io/cname-case-sensitive".
Definition BlueGreenRolloutPreviewPrefix := "preview".
Definition CanaryRolloutCanaryPrefix := "canary".
Definition RolloutPodHashLabel := "rollouts-pod-template-hash".
Definition AIREnvSuffix := "-air".
Definition IntuitTID := "intuit_tid".
Definition GTPCtrl := "gtp-ctrl".
Definition VSRoutingLabel := "admiral.io/vs-routing".
Definition VSRoutingType := "admiral.io/vs-routing-type".
Definition VSRoutingTypeInCluster := "incluster".

(** [GetPortProtocol] of [pkg/util]. *)
Definition Http := "http".
Definition Http2 := "http2".
Definition Grpc := "grpc".
Definition GrpcWeb := "grpc-web".

Definition GetPortProtocol (name : string) : string :=
  if has_prefix name GrpcWeb then GrpcWeb
  else if has_prefix name Grpc then Grpc
  else if has_prefix name Http2 then Http2
  else Http.

(** ** Environment fallback *)

(** The last component of a namespace that has at least two. *)
Definition env_of_namespace (ns : string) : string :=
  let splitNamespace := split "-"%char ns in
  if Nat.ltb 1 (length splitNamespace) then List.last splitNamespace "" else "".

Section Metadata.
Context (p : AdmiralParams).

Definition GetPodGlobalIdentifier (labels annotations : gomap) : string :=
  mget labels (GetWorkloadIdentifier p) |?| mget annotations (GetWorkloadIdentifier p).

Definition GetIdentityPartition (annotations labels : gomap) : string :=
  mget annotations (GetPartitionIdentifier p) |?| mget labels (GetPartitionIdentifier p).

Definition GetOriginalIdentifier (annotations labels : gomap) : string :=
  mget labels (GetWorkloadIdentifier p) |?| mget annotations (GetWorkloadIdentifier p).

(** The partition prefix that the identifier functions put in front. *)
Definition with_partition (partition identity : string) : string :=
  if p.(Params.EnableSWAwareNSCaches) && negb (is_empty identity) && negb (is_empty partition)
  then partition +:+ Sep +:+ to_lower identity
  else identity.

Definition GetGlobalIdentifier (annotations labels : gomap) : string :=
  with_partition (GetIdentityPartition annotations labels)
    (GetOriginalIdentifier annotations labels).

Definition GetDeploymentOriginalIdentifier (d : DeploymentObj) : string :=
  mget (TLabels (DepTemplate d)) (GetWorkloadIdentifier p)
  |?| mget (TAnnotations (DepTemplate d)) (GetWorkloadIdentifier p).

Definition GetDeploymentIdentityPartition (d : DeploymentObj) : string :=
  mget (TAnnotations (DepTemplate d)) (GetPartitionIdentifier p)
  |?| mget (TLabels (DepTemplate d)) (GetPartitionIdentifier p).

Definition GetDeploymentGlobalIdentifier (d : DeploymentObj) : string :=
  let identity := mget (TLabels (DepTemplate d)) (GetWorkloadIdentifier p)
                  |?| mget (TAnnotations (DepTemplate d)) (GetWorkloadIdentifier p) in
  with_partition (GetDeploymentIdentityPartition d) identity.

Definition GetRolloutOriginalIdentifier (r : RolloutObj) : string :=
  mget (TLabels (RoTemplate r)) (GetWorkloadIdentifier p)
  |?| mget (TAnnotations (RoTemplate r)) (GetWorkloadIdentifier p).

Definition GetRolloutIdentityPartition (r : RolloutObj) : string :=
  mget (TAnnotations (RoTemplate r)) (GetPartitionIdentifier p)
  |?| mget (TLabels (RoTemplate r)) (GetPartitionIdentifier p).

Definition GetRolloutGlobalIdentifier (r : RolloutObj) : string :=
  let identity := mget (TLabels (RoTemplate r)) (GetWorkloadIdentifier p)
                  |?| mget (TAnnotations (RoTemplate r)) (GetWorkloadIdentifier p) in
  with_partition (GetRolloutIdentityPartition r) identity.

Definition GetLocalDomainSuffix : string :=
  if IsAbsoluteFQDNEnabled p && IsAbsoluteFQDNEnabledForLocalEndpoints p
  then DotLocalDomainSuffix +:+ Sep else DotLocalDomainSuffix.

Definition GetEnv (d : DeploymentObj) : string :=
  mget (TAnnotations (DepTemplate d)) (GetEnvKey p)
  |?| mget (TLabels (DepTemplate d)) (GetEnvKey p)
  |?| mget (TLabels (DepTemplate d)) Env
  |?| env_of_namespace (Namespace (DepMeta d))
  |?| Default.

Definition GetEnvForRollout (r : RolloutObj) : string :=
  mget (TAnnotations (RoTemplate r)) (GetEnvKey p)
  |?| mget (TLabels (RoTemplate r)) (GetEnvKey p)
  |?| mget (TLabels (RoTemplate r)) Env
  |?| env_of_namespace (Namespace (RoMeta r))
  |?| Default.

Definition GetCnameVal (vals : list string) : string := join Sep vals.

Definition GetValueForKeyFromDeployment (key : string) (d : DeploymentObj) : string :=
  mget (TLabels (DepTemplate d)) key |?| mget (TAnnotations (DepTemplate d)) key.

Definition GetValueForKeyFromRollout (key : string) (r : RolloutObj) : string :=
  mget (TLabels (RoTemplate r)) key |?| mget (TAnnotations (RoTemplate r)) key.

Definition GetCname (d : DeploymentObj) (identifier nameSuffix : string) : string :=
  let environment := GetEnv d in
  let alias := GetValueForKeyFromDeployment identifier d
               |?| mget (TAnnotations (DepTemplate d)) identifier in
  if is_empty alias then ""
  else
    let cname := GetCnameVal [environment; alias; nameSuffix] in
    if mget (TAnnotations (DepTemplate d)) AdmiralCnameCaseSensitive =?s "true" then cname
    else to_lower cname.

Definition GetCnameForRollout (r : RolloutObj) (identifier nameSuffix : string) : string :=
  let environment := GetEnvForRollout r in
  let alias := GetValueForKeyFromRollout identifier r
               |?| mget (TAnnotations (RoTemplate r)) identifier in
  if is_empty alias then ""
  else
    let cname := environment +:+ Sep +:+ alias +:+ Sep +:+ nameSuffix in
    if mget (TAnnotations (RoTemplate r)) AdmiralCnameCaseSensitive =?s "true" then cname
    else to_lower cname.

Definition GetSAN (domain : string) (d : DeploymentObj) (identifier : string) : string :=
  let identifierVal := GetValueForKeyFromDeployment identifier d in
  if is_empty identifierVal then ""
  else if negb (is_empty domain) then SpiffePrefix +:+ domain +:+ Slash +:+ identifierVal
  else SpiffePrefix +:+ identifierVal.

Definition GetSANForRollout (domain : string) (r : RolloutObj) (identifier : string) : string :=
  let identifierVal := GetValueForKeyFromRollout identifier r in
  if is_empty identifierVal then ""
  else if negb (is_empty domain) then SpiffePrefix +:+ domain +:+ Slash +:+ identifierVal
  else SpiffePrefix +:+ identifierVal.

Definition GetNodeLocality (nodeLabels : gomap) : string := mget nodeLabels NodeRegionLabel.

(** [getSanForDeployment] and [getSanForRollout] of [serviceentry.go]; nil is []. *)
Definition getSanForDeployment (d : DeploymentObj) (workloadIdentityKey : string) : list string :=
  if GetEnableSAN p then
    let tmpSan := GetSAN (GetSANPrefix p) d workloadIdentityKey in
    if is_empty tmpSan then [] else [GetSAN (GetSANPrefix p) d workloadIdentityKey]
  else [].

Definition getSanForRollout (r : RolloutObj) (workloadIdentityKey : string) : list string :=
  if GetEnableSAN p then
    let tmpSan := GetSANForRollout (GetSANPrefix p) r workloadIdentityKey in
    if is_empty tmpSan then [] else [GetSANForRollout (GetSANPrefix p) r workloadIdentityKey]
  else [].

(** ** Admiral resources: identity, environment, key *)

Definition GetIdentity (labels selectors : gomap) : string :=
  mget labels (GetAdmiralCRDIdentityLabel p) |?| mget selectors (GetAdmiralCRDIdentityLabel p).

Definition GetEnvFromMetadata (annotations labels selectors : gomap) : string :=
  mget annotations (GetEnvKey p) |?| mget labels (GetEnvKey p) |?| mget selectors (GetEnvKey p).

Definition GetGtpEnv (gtp : GlobalTrafficPolicy) : string :=
  GetEnvFromMetadata (Annotations (GtpMeta gtp)) (Labels (GtpMeta gtp)) (GtpSelector gtp)
  |?| mget (Labels (GtpMeta gtp)) Env
  |?| mget (GtpSelector gtp) Env
  |?| Default.

Definition GetGtpIdentityPartition (gtp : GlobalTrafficPolicy) : string :=
  mget (Annotations (GtpMeta gtp)) (GetPartitionIdentifier p)
  |?| mget (Labels (GtpMeta gtp)) (GetPartitionIdentifier p).

Definition GetGtpIdentity (gtp : GlobalTrafficPolicy) : string :=
  let identity := GetIdentity (Labels (GtpMeta gtp)) (GtpSelector gtp) in
  with_partition (GetGtpIdentityPartition gtp) identity.

Definition ConstructKeyWithEnvAndIdentity (env identity : string) : string :=
  env +:+ "." +:+ identity.

Definition GetGtpKey (gtp : GlobalTrafficPolicy) : string :=
  ConstructKeyWithEnvAndIdentity (GetGtpEnv gtp) (GetGtpIdentity gtp).

Definition GetRoutingPolicyEnv (rp : RoutingPolicyObj) : string :=
  mget (Annotations (RpMeta rp)) (GetEnvKey p) |?| mget (Labels (RpMeta rp)) (GetEnvKey p)
  |?| Default.

Definition GetRoutingPolicyIdentity (rp : RoutingPolicyObj) : string :=
  mget (Labels (RpMeta rp)) (GetRoutingPolicyLabel p).

Definition GetRoutingPolicyKey (rp : RoutingPolicyObj) : string :=
  ConstructKeyWithEnvAndIdentity (GetRoutingPolicyEnv rp) (GetRoutingPolicyIdentity rp).

Definition ConstructRoutingPolicyKey (env identity : string) : string :=
  ConstructKeyWithEnvAndIdentity env identity.

Definition GetODIdentity (od : OutlierDetectionCrd) : string :=
  GetIdentity (Labels (OdMeta od)) (OdSelector od).

Definition GetODEnv (od : OutlierDetectionCrd) : string :=
  GetEnvFromMetadata (Annotations (OdMeta od)) (Labels (OdMeta od)) (OdSelector od)
  |?| mget (Labels (OdMeta od)) Env
  |?| mget (OdSelector od) Env
  |?| Default.

Definition GetClientConnectionConfigIdentity (ccc : ClientConnectionConfig) : string :=
  GetIdentity (Labels (CccMeta ccc)) (Some ∅).

Definition GetClientConnectionConfigEnv (ccc : ClientConnectionConfig) : string :=
  GetEnvFromMetadata (Annotations (CccMeta ccc)) (Labels (CccMeta ccc)) (Some ∅)
  |?| mget (Labels (CccMeta ccc)) Env
  |?| Default.

(** ** TrafficConfig *)

Definition IsTrafficConfigDisabled (tc : TrafficConfigObj) : bool :=
  (mget (Labels (TcMeta tc)) "isDisabled" =?s "true")
  || (mget (Annotations (TcMeta tc)) "isDisabled" =?s "true").

Definition GetTrafficConfigEnv (tc : TrafficConfigObj) : string :=
  mget (Labels (TcMeta tc)) "env" |?| mget (Annotations (TcMeta tc)) "env".

Definition GetTrafficConfigIdentity (tc : TrafficConfigObj) : string :=
  mget (Labels (TcMeta tc)) (GetTrafficConfigIdentifier p)
  |?| mget (Annotations (TcMeta tc)) (GetTrafficConfigIdentifier p).

Definition CheckIFEnvLabelIsPresent (tc : TrafficConfigObj) : error :=
  if is_nil (Labels (TcMeta tc)) then
    Some ("no labels found of traffic config object - " +:+ Name (TcMeta tc)
          +:+ " in namespace - " +:+ Namespace (TcMeta tc))
  else if is_empty (mget (Labels (TcMeta tc)) "env") then
    Some ("mandatory label env is not present on the traffic config object="
          +:+ Name (TcMeta tc) +:+ " in namespace=" +:+ Namespace (TcMeta tc))
  else None.

Definition GetTrafficConfigRevision (tc : TrafficConfigObj) : string :=
  mget (Labels (TcMeta tc)) "revisionNumber" |?| mget (Annotations (TcMeta tc)) "revisionNumber".

Definition GetTrafficConfigTransactionID (tc : TrafficConfigObj) : string :=
  mget (Labels (TcMeta tc)) "transactionID" |?| mget (Annotations (TcMeta tc)) "transactionID".

(** ** Traffic policy regions *)

Definition makeDnsPrefixRegionMapping (gtp : GlobalTrafficPolicy) : gmap string string :=
  foldl (fun m tp =>
    match tpLbType tp with
    | FAILOVER => foldl (fun m tg =>
        if Weight tg =? 100 then <[tpDnsPrefix tp := Region tg]> m else m) m (tpTarget tp)
    | TOPOLOGY => m
    end) ∅ (GtpPolicy gtp).

Fixpoint preference_loop (existing : gmap string string) (new : list (string * string)) : string :=
  match new with
  | [] => ""
  | (dnsprefix, region) :: rest =>
      match existing !! dnsprefix with
      | Some existingRegion =>
          if existingRegion =?s region then preference_loop existing rest else region
      | None => preference_loop existing rest
      end
  end.

Definition GetGtpPreferenceRegion `{!GoRange} (existingGtp newGtp : GlobalTrafficPolicy) : string :=
  preference_loop (makeDnsPrefixRegionMapping existingGtp)
    (go_range 0 (makeDnsPrefixRegionMapping newGtp)).

(** ** Ignore rules and service selection *)

Definition ShouldIgnoreResource (metadata : ObjectMeta) : bool :=
  (mget (Annotations metadata) AdmiralIgnoreAnnotation =?s "true")
  || (mget (Labels metadata) AdmiralIgnoreAnnotation =?s "true").

Definition ShouldIgnore (annotations labels : gomap) : bool :=
  let labelSet := label_set p in
  if mget labels (labelSet.(Params.AdmiralIgnoreLabel)) =?s "true" then true
  else if negb (mget annotations (labelSet.(Params.DeploymentAnnotation)) =?s "true") then true
  else if mget annotations AdmiralIgnoreAnnotation =?s "true" then true
  else false.

Fixpoint selector_loop (labels : gomap) (selector : list (string * string)) : bool :=
  match selector with
  | [] => true
  | (lkey, lvalue) :: rest =>
      if lkey =?s RolloutPodHashLabel then selector_loop labels rest
      else match mlookup labels lkey with
           | Some value => if value =?s lvalue then selector_loop labels rest else false
           | None => false
           end
  end.

Definition IsServiceMatch `{!GoRange} (serviceSelector : gomap) (selector : option LabelSelector)
    : bool :=
  match selector, serviceSelector with
  | Some sel, Some m =>
      if (Nat.eqb (mlen (MatchLabels sel)) 0) || (Nat.eqb (size m) 0) then false
      else selector_loop (MatchLabels sel) (go_range 0 m)
  | _, _ => false
  end.

Definition IsIstioIngressGatewayService (svc : option ServiceObj) (key : string) : bool :=
  match svc with
  | Some s => if Nat.ltb 0 (mlen (Labels (SvcMeta s)))
              then (Namespace (SvcMeta s) =?s NamespaceIstioSystem)
                   && (mget (Labels (SvcMeta s)) "app" =?s key)
              else false
  | None => false
  end.

(** ** Mesh ports *)

(** The first entry that parses as a 32-bit unsigned number. *)
Fixpoint first_valid_port (l : list string) : option Z :=
  match l with
  | [] => None
  | s :: l' => match parse_uint32 s with Some n => Some n | None => first_valid_port l' end
  end.

Definition target_port (sp : SvcPort) : Z :=
  let t := uint32 (Port sp) in
  let t := if is_empty (StrVal (TargetPort sp)) then t
           else let '(port, _) := atoi (StrVal (TargetPort sp)) in
                if 0 <? port then uint32 port else t in
  if IntVal (TargetPort sp) =? 0 then t else uint32 (IntVal (TargetPort sp)).

Fixpoint match_service_port (meshPort : option Z) (ports : list SvcPort) : gmap string Z :=
  match ports with
  | [] => ∅
  | sp :: rest =>
      if decide (meshPort = Some (target_port sp))
      then {[ GetPortProtocol (PortName sp) := uint32 (Port sp) ]}
      else match_service_port meshPort rest
  end.

Definition GetMeshPortsHelper (meshPorts : string) (destService : option ServiceObj)
    : gmap string Z :=
  match destService with
  | None => ∅
  | Some svc =>
      if is_empty meshPorts then
        match SvcPorts svc with
        | [] => ∅
        | sp :: _ => {[ GetPortProtocol (PortName sp) := uint32 (Port sp) ]}
        end
      else match_service_port (first_valid_port (split ","%char meshPorts)) (SvcPorts svc)
  end.

(** nil is [None]. *)
Definition GetMeshPortsForDeployments (destService : option ServiceObj)
    (destDeployment : option DeploymentObj) : option (gmap string Z) :=
  match destService, destDeployment with
  | Some _, Some d =>
      Some (GetMeshPortsHelper (mget (TAnnotations (DepTemplate d)) SidecarEnabledPorts) destService)
  | _, _ => None
  end.

(** ** Matching policies and rollouts *)

Definition MatchRolloutsToGTP (gtp : option GlobalTrafficPolicy) (rollouts : list RolloutObj)
    : list RolloutObj :=
  match gtp with
  | None => []
  | Some g =>
      if is_empty (Name (GtpMeta g)) then []
      else List.filter (fun r => GetEnvForRollout r =?s GetGtpEnv g) rollouts
  end.

Definition gtp_nanosecond_less (a b : GlobalTrafficPolicy) : bool :=
  nanosecond (CreationTimestamp (GtpMeta a)) <? nanosecond (CreationTimestamp (GtpMeta b)).

Definition MatchGTPsToRollout `{!GoSort} (gtpList : list GlobalTrafficPolicy)
    (rollout : option RolloutObj) : option GlobalTrafficPolicy :=
  match rollout with
  | None => None
  | Some r =>
      if is_empty (Name (RoMeta r)) then None
      else
        let rolloutEnvironment := GetEnvForRollout r in
        match gtpList with
        | [g] => if GetGtpEnv g =?s rolloutEnvironment then Some g else None
        | [] => None
        | _ =>
            match List.filter (fun g => GetGtpEnv g =?s rolloutEnvironment) gtpList with
            | [g] => Some g
            | [] => None
            | envMatchedGTPList => head (sort_slice gtp_nanosecond_less envMatchedGTPList)
            end
        end
  end.

(** ** Policy order *)

Definition getGtpPriority (gtp : GlobalTrafficPolicy) : Z :=
  match mlookup (Labels (GtpMeta gtp)) (label_set p).(Params.PriorityKey) with
  | Some val => match atoi (trim_space val) with
                | (convertedValue, None) => convertedValue
                | (_, Some _) => 0
                end
  | None => 0
  end.

(** The comparison that [SortGtpsByPriorityAndCreationTime] passes to [sort.Slice]. *)
Definition gtp_less (a b : GlobalTrafficPolicy) : bool :=
  if negb (getGtpPriority a =? getGtpPriority b) then getGtpPriority b <? getGtpPriority a
  else
    match mlookup (Annotations (GtpMeta a)) "lastUpdatedAt",
          mlookup (Annotations (GtpMeta b)) "lastUpdatedAt" with
    | Some iUpdateTime, Some jUpdateTime => str_ltb jUpdateTime iUpdateTime
    | _, _ => after (CreationTimestamp (GtpMeta a)) (CreationTimestamp (GtpMeta b))
    end.

Definition SortGtpsByPriorityAndCreationTime `{!GoSort} (gtps : list GlobalTrafficPolicy)
    : list GlobalTrafficPolicy := sort_slice gtp_less gtps.

(** ** Gateways and partitions *)

Definition gateway_suffix (item gw : string) : bool :=
  has_suffix (to_lower item) (Sep +:+ to_lower gw).

Definition IsAGateway (item : string) : bool :=
  existsb (gateway_suffix item) (GetGatewayAssetAliases p).

Definition GetPartitionAndOriginalIdentifierFromPartitionedIdentifier (partitionedIdentifier : string)
    : string * string :=
  match List.find (gateway_suffix partitionedIdentifier) (GetGatewayAssetAliases p) with
  | Some gw => (trim_suffix partitionedIdentifier (Sep +:+ to_lower gw), gw)
  | None => ("", partitionedIdentifier)
  end.

End Metadata.

(** ** Other helpers *)

Definition GenerateTxId (meta : option ObjectMeta) (ctrlName id : string) : string :=
  match meta with
  | None => id
  | Some m =>
      let id := if (ctrlName =?s GTPCtrl) && negb (is_empty (mget (Annotations m) IntuitTID))
                then mget (Annotations m) IntuitTID +:+ "-" +:+ id else id in
      if is_empty (ResourceVersion m) then id else ResourceVersion m +:+ "-" +:+ id
  end.

Definition IsAirEnv (originalEnvLabel : string) : bool := has_suffix originalEnvLabel AIREnvSuffix.

(** [newVSName[:250]] keeps the first 250 bytes. *)
Definition GenerateUniqueNameForVS (originNamespace vsName : string) : string :=
  if is_empty originNamespace && is_empty vsName then ""
  else if is_empty originNamespace then vsName
  else if is_empty vsName then originNamespace
  else
    let newVSName := originNamespace +:+ "-" +:+ vsName in
    if Nat.ltb 250 (String.length newVSName) then String.substring 0 250 newVSName else newVSName.

Definition IsVSRoutingEnabledVirtualService (vs : option VirtualServiceObj) : bool :=
  match vs with
  | None => false
  | Some v => match mlookup (Labels (VsMeta v)) VSRoutingLabel with Some _ => true | None => false end
  end.

Definition IsVSRoutingInClusterVirtualService (vs : option VirtualServiceObj) : bool :=
  match vs with
  | None => false
  | Some v => match mlookup (Labels (VsMeta v)) VSRoutingType with
              | Some val => val =?s VSRoutingTypeInCluster
              | None => false
              end
  end.

Definition IsDefaultFQDN (fqdn env : string) : bool := has_prefix fqdn env.

Definition AppendError (err newError : error) : error :=
  match newError with
  | None => err
  | Some n => match err with None => newError | Some e => Some (e +:+ "; " +:+ n) end
  end.

(** [RetryWithBackOff]: [callback] runs on the state [S]; the result also lists the
    sleeps, in seconds. *)
Section Retry.
Context {S : Type} (callback : S -> S * error).

Fixpoint retry_loop (fuel : nat) (i : nat) (sleep : Z) (err : error) (s : S) (slept : list Z)
    : S * error * list Z :=
  match fuel with
  | O => (s, err, slept)
  | Datatypes.S fuel' =>
      let slept' := if Nat.ltb 0 i then slept ++ [sleep] else slept in
      let sleep' := if Nat.ltb 0 i then sleep * 2 else sleep in
      match callback s with
      | (s', None) => (s', None, slept')
      | (s', Some e) => retry_loop fuel' (Datatypes.S i) sleep' (Some e) s' slept'
      end
  end.

Definition RetryWithBackOff (retryCount : Z) (s : S) : S * error * list Z :=
  retry_loop (Z.to_nat retryCount) 0 10 None s [].

End Retry.

(** [Subset] and [Contains] of [controller/util]. *)
Definition Subset `{!GoRange} (m1 m2 : gomap) : bool :=
  match m1, m2 with
  | Some a, Some b =>
      if Nat.eqb (size a) 0 || Nat.ltb (size b) (size a) then false
      else forallb (fun '(k, v) => match b !! k with
                                   | Some val => val =?s v
                                   | None => true
                                   end) (go_range 0 a)
  | _, _ => false
  end.

Definition Contains (vs : list string) (t : string) : bool := str_in t vs.

(** ** Lemmas *)

Lemma GetEnv_nonempty p d : GetEnv p d <> "".
Proof. unfold GetEnv. by apply or_else_neq. Qed.

Lemma GetGtpEnv_nonempty p g : GetGtpEnv p g <> "".
Proof. unfold GetGtpEnv. by apply or_else_neq. Qed.

Lemma selector_loop_spec labels sel :
  selector_loop labels sel = true <->
  forall k v, (k, v) ∈ sel -> k = RolloutPodHashLabel \/ mlookup labels k = Some v.
Proof.
  induction sel as [|[k v] sel IH]; simpl.
  { split; [|done]. by intros _ k v ?%elem_of_nil. }
  destruct (k =?s RolloutPodHashLabel) eqn:E; sdec.
  - rewrite IH. split; intros H k' v'.
    + rewrite elem_of_cons. intros [[= -> ->]|Hin]; [by left|by apply H].
    + intros Hin. apply H. by right.
  - split.
    + destruct (mlookup labels k) as [w|] eqn:Hk; [|done].
      destruct (w =?s v) eqn:Ew; [|done]. sdec. subst.
      intros H k' v'. rewrite elem_of_cons. intros [[= -> ->]|Hin]; [by right|].
      by apply IH.
    + intros H. destruct (H k v) as [?|Hk]; [by left|done|].
      rewrite Hk, seqb_refl. apply IH. intros k' v' Hin. apply H. by right.
Qed.

Lemma IsServiceMatch_iff `{!GoRange} m sel :
  IsServiceMatch (Some m) (Some sel) = true <->
  m <> ∅ /\ mlen (MatchLabels sel) <> 0%nat /\
  forall k v, m !! k = Some v -> k = RolloutPodHashLabel \/ mlookup (MatchLabels sel) k = Some v.
Proof.
  unfold IsServiceMatch. rewrite <- map_size_non_empty_iff.
  destruct (Nat.eqb_spec (mlen (MatchLabels sel)) 0) as [E1|E1]; simpl.
  { split; [done|]. by intros (_ & ? & _). }
  destruct (Nat.eqb_spec (size m) 0) as [E2|E2]; simpl.
  { split; [done|]. by intros (? & _). }
  rewrite selector_loop_spec. setoid_rewrite go_range_elem. tauto.
Qed.

Lemma parse_first_valid l n :
  first_valid_port l = Some n -> exists s, s ∈ l /\ parse_uint32 s = Some n.
Proof.
  induction l as [|s l IH]; simpl; [done|].
  destruct (parse_uint32 s) as [m|] eqn:E.
  - intros [= ->]. exists s. split; [by left|done].
  - intros H. destruct (IH H) as (s' & Hin & Hs'). exists s'. split; [by right|done].
Qed.

Lemma match_service_port_spec mp ports :
  (match_service_port mp ports = ∅ /\ forall sp, sp ∈ ports -> mp <> Some (target_port sp)) \/
  (exists pre sp post, ports = pre ++ sp :: post /\ mp = Some (target_port sp) /\
     (forall sp', sp' ∈ pre -> mp <> Some (target_port sp')) /\
     match_service_port mp ports = {[ GetPortProtocol (PortName sp) := uint32 (Port sp) ]}).
Proof.
  induction ports as [|sp ports IH]; simpl.
  { left. split; [done|]. by intros sp ?%elem_of_nil. }
  destruct (decide (mp = Some (target_port sp))) as [Hsp|Hsp].
  { right. exists [], sp, ports. split_and!; [done|done| |done]. by intros sp' ?%elem_of_nil. }
  destruct IH as [[-> Hall]|(pre & sp' & post & -> & Hmp & Hpre & ->)].
  - left. split; [done|]. intros sp'. rewrite elem_of_cons. intros [->|?]; [done|by apply Hall].
  - right. exists (sp :: pre), sp', post. split_and!; [done|done| |done].
    + intros sp''. rewrite elem_of_cons. intros [->|?]; [done|by apply Hpre].
Qed.

Lemma GetPortProtocol_cases s :
  GetPortProtocol s ∈ [Http; Http2; Grpc; GrpcWeb].
Proof. unfold GetPortProtocol. repeat case_match; set_solver. Qed.

Lemma key_inj env env' id id' :
  "."%char ∉ bytes env -> "."%char ∉ bytes env' ->
  ConstructKeyWithEnvAndIdentity env id = ConstructKeyWithEnvAndIdentity env' id' ->
  env = env' /\ id = id'.
Proof. unfold ConstructKeyWithEnvAndIdentity. intros H1 H2 H. by eapply sep_inj in H. Qed.

Lemma gtp_less_irrefl p a : gtp_less p a a = false.
Proof.
  unfold gtp_less. rewrite Z.eqb_refl. simpl. unfold after.
  destruct (mlookup _ _); [apply str_ltb_irrefl|apply Z.ltb_irrefl].
Qed.

(** The policies of a list agree on whether they carry [lastUpdatedAt]. *)
Definition uniform_update_time (l : list GlobalTrafficPolicy) : Prop :=
  (forall g, g ∈ l -> mlookup (Annotations (GtpMeta g)) "lastUpdatedAt" <> None) \/
  (forall g, g ∈ l -> mlookup (Annotations (GtpMeta g)) "lastUpdatedAt" = None).

(** [g] comes no later than [h]: a higher priority, or the same priority and a later
    update (creation) time. *)
Definition gtp_preferred (p : AdmiralParams) (g h : GlobalTrafficPolicy) : Prop :=
  getGtpPriority p h < getGtpPriority p g \/
  (getGtpPriority p h = getGtpPriority p g /\
   match mlookup (Annotations (GtpMeta g)) "lastUpdatedAt",
         mlookup (Annotations (GtpMeta h)) "lastUpdatedAt" with
   | Some t, Some t' => str_ltb t t' = false
   | _, _ => CreationTimestamp (GtpMeta h) <= CreationTimestamp (GtpMeta g)
   end).

Lemma gtp_less_false p g h : gtp_less p h g = false <-> gtp_preferred p g h.
Proof.
  unfold gtp_less, gtp_preferred, after.
  destruct (Z.eqb_spec (getGtpPriority p h) (getGtpPriority p g)) as [E|E]; simpl.
  - destruct (mlookup (Annotations (GtpMeta g)) _), (mlookup (Annotations (GtpMeta h)) _);
      rewrite ?Z.ltb_ge; intuition lia.
  - rewrite Z.ltb_ge. intuition lia.
Qed.

Lemma gtp_less_asym p a b : gtp_less p a b = true -> gtp_less p b a = false.
Proof.
  unfold gtp_less, after.
  destruct (Z.eqb_spec (getGtpPriority p a) (getGtpPriority p b)) as [E|E],
    (Z.eqb_spec (getGtpPriority p b) (getGtpPriority p a)) as [E'|E']; simpl; try lia.
  - destruct (mlookup (Annotations (GtpMeta a)) _), (mlookup (Annotations (GtpMeta b)) _);
      first [apply str_ltb_asym|rewrite Z.ltb_lt, Z.ltb_ge; lia].
Qed.

Lemma gtp_less_strict_weak p l : uniform_update_time l -> strict_weak_on (gtp_less p) l.
Proof.
  intros Hu. split.
  - intros x _. apply gtp_less_irrefl.
  - intros x y _ _. apply gtp_less_asym.
  - intros x y z Hx Hy Hz. rewrite !gtp_less_false. unfold gtp_preferred.
    intros H1 H2.
    assert (H3 := str_ltb_negtrans).
    destruct Hu as [Hu|Hu]; pose proof (Hu _ Hx) as Ex; pose proof (Hu _ Hy) as Ey;
      pose proof (Hu _ Hz) as Ez.
    + destruct (mlookup (Annotations (GtpMeta x)) _) as [tx|]; [|done].
      destruct (mlookup (Annotations (GtpMeta y)) _) as [ty|]; [|done].
      destruct (mlookup (Annotations (GtpMeta z)) _) as [tz|]; [|done].
      specialize (H3 tz ty tx). intuition lia.
    + revert H1 H2. rewrite Ex, Ey, Ez. intuition lia.
Qed.

(** [SortGtpsByPriorityAndCreationTime] puts first a policy that no other is
    preferred to (priority first, then the update or creation time), for every sort
    that meets the contract of [sort.Slice] and every list of policies that agree on
    carrying [lastUpdatedAt]; it loses and invents no policy. *)
Theorem sort_gtps_head `{!GoSort} p l g rest :
  uniform_update_time l ->
  SortGtpsByPriorityAndCreationTime p l = g :: rest ->
  g :: rest ≡ₚ l /\ forall h, h ∈ l -> gtp_preferred p g h.
Proof.
  intros Hu Hs. unfold SortGtpsByPriorityAndCreationTime in Hs. split.
  - rewrite <- Hs. apply sort_slice_perm.
  - destruct (sort_slice_head _ _ _ _ (gtp_less_strict_weak p l Hu) Hs) as [_ Hh].
    intros h Hin. apply gtp_less_false. by apply Hh.
Qed.

Definition gtp_at (name priority : string) (created : Z) (updated : option string) :=
  mkGTP (mkMeta name "ns" (Some {[ "priority" := priority ]})
           (match updated with Some t => Some {[ "lastUpdatedAt" := t ]} | None => None end)
           created "") [] None.

Definition priority_params : AdmiralParams :=
  Params.zero_AdmiralParams <| Params.LabelSetPtr :=
    Some (Params.zero_LabelSet <| Params.PriorityKey := "priority" |>) |>.

Lemma sort_gtps_head_witness :
  let l := [gtp_at "a" "1" 5 None; gtp_at "b" " 2" 3 None; gtp_at "c" "2" 4 None] in
  exists rest, gtp_at "c" "2" 4 None :: rest ≡ₚ l /\
    forall h, h ∈ l -> gtp_preferred priority_params (gtp_at "c" "2" 4 None) h.
Proof.
  intros l. exists [gtp_at "b" " 2" 3 None; gtp_at "a" "1" 5 None].
  apply (sort_gtps_head (H := go_insertion_sort) priority_params l); [|vm_compute; reflexivity].
  right. intros g Hg. repeat (apply elem_of_cons in Hg as [->|Hg]; [reflexivity|]).
  by apply elem_of_nil in Hg.
Defined.

(** A list that mixes policies with and without [lastUpdatedAt] may have no first
    policy: the comparison has a cycle. *)
Theorem gtp_less_cycle :
  let a := gtp_at "a" "1" 10 (Some "1") in
  let b := gtp_at "b" "1" 20 None in
  let c := gtp_at "c" "1" 30 (Some "0") in
  gtp_less priority_params a c = true /\ gtp_less priority_params c b = true /\
  gtp_less priority_params b a = true.
Proof. vm_compute. done. Qed.

(** A service selects a workload exactly when both selectors are non-empty and
    every label of the service's selector, except the pod hash that the rollouts
    controller adds, is on the workload; for every iteration order of the map. *)
Theorem service_match_iff `{!GoRange} m sel :
  IsServiceMatch (Some m) (Some sel) = true <->
  m <> ∅ /\ mlen (MatchLabels sel) <> 0%nat /\
  forall k v, m !! k = Some v -> k = RolloutPodHashLabel \/ mlookup (MatchLabels sel) k = Some v.
Proof. apply IsServiceMatch_iff. Qed.

(** With an [includeInboundPorts] annotation, [GetMeshPortsHelper] returns no port
    when no service port targets the first valid port of the annotation, and
    otherwise exactly the first such service port, under its protocol. *)
Theorem mesh_ports_first_match meshPorts svc :
  meshPorts <> "" ->
  let want := first_valid_port (split ","%char meshPorts) in
  (GetMeshPortsHelper meshPorts (Some svc) = ∅ /\
     forall sp, sp ∈ SvcPorts svc -> want <> Some (target_port sp)) \/
  (exists pre sp post, SvcPorts svc = pre ++ sp :: post /\ want = Some (target_port sp) /\
     (forall sp', sp' ∈ pre -> want <> Some (target_port sp')) /\
     GetMeshPortsHelper meshPorts (Some svc)
       = {[ GetPortProtocol (PortName sp) := uint32 (Port sp) ]}).
Proof.
  intros Hmp. simpl. destruct (is_empty meshPorts) eqn:E.
  - by apply is_empty_spec in E.
  - apply match_service_port_spec.
Qed.

Lemma mesh_ports_first_match_witness :
  let svc := mkService (mkMeta "s" "ns" None None 0 "")
    [mkSvcPort "http-a" 80 (mkIntOrString 8080 "") 0;
     mkSvcPort "grpc-b" 90 (mkIntOrString 0 "8090") 0]
    None [] [] in
  GetMeshPortsHelper "x,8090" (Some svc) = {[ Grpc := 90 ]} /\
  exists pre sp post, SvcPorts svc = pre ++ sp :: post /\
    GetMeshPortsHelper "x,8090" (Some svc)
      = {[ GetPortProtocol (PortName sp) := uint32 (Port sp) ]}.
Proof.
  intros svc. split; [vm_compute; reflexivity|].
  destruct (mesh_ports_first_match "x,8090" svc) as [[H _]|(pre & sp & post & E & _ & _ & H)].
  - discriminate.
  - discriminate H.
  - exists pre, sp, post. split; [exact E|exact H].
Defined.

(** ** Retries *)
Section RetryProofs.
Context {S : Type} (callback : S -> S * error).

(** The state before the [n]-th call, when every earlier call fails. *)
Fixpoint nth_state (n : nat) (s : S) : S :=
  match n with O => s | Datatypes.S n' => nth_state n' (callback s).1 end.

Definition sleeps (i n : nat) : list Z := map (fun k => 10 * 2 ^ Z.of_nat k) (seq i n).

Lemma nth_state_succ n s : nth_state (Datatypes.S n) s = (callback (nth_state n s)).1.
Proof. revert s. induction n as [|n IH]; intros s; [done|]. apply IH. Qed.

Lemma sleeps_step i n sleep slept :
  sleep = 10 * 2 ^ Z.of_nat (pred i) ->
  (if Nat.ltb 0 i then slept ++ [sleep] else slept) ++ sleeps i n
    = slept ++ sleeps (pred i) (match i with O => n | _ => Datatypes.S n end).
Proof.
  intros ->. destruct i as [|i]; simpl; [done|]. unfold sleeps. simpl. by rewrite <- app_assoc.
Qed.

Lemma sleep_next i sleep :
  sleep = 10 * 2 ^ Z.of_nat (pred i) ->
  (if Nat.ltb 0 i then sleep * 2 else sleep) = 10 * 2 ^ Z.of_nat i.
Proof.
  intros ->. destruct i as [|i]; cbn [Nat.ltb Nat.leb pred]; [done|].
  rewrite Nat2Z.inj_succ, Z.pow_succ_r by lia. ring.
Qed.

Lemma retry_loop_fail fuel i sleep err s slept :
  sleep = 10 * 2 ^ Z.of_nat (pred i) ->
  (forall n, (n < fuel)%nat -> (callback (nth_state n s)).2 <> None) ->
  retry_loop callback fuel i sleep err s slept
    = (nth_state fuel s,
       match fuel with O => err | Datatypes.S n => (callback (nth_state n s)).2 end,
       slept ++ sleeps (pred i) (match i with O => pred fuel | _ => fuel end)).
Proof.
  revert i sleep err s slept.
  induction fuel as [|fuel IH]; intros i sleep err s slept Hs Hall; simpl.
  { by destruct i; unfold sleeps; simpl; rewrite app_nil_r. }
  pose proof (Hall 0%nat) as H0. simpl in H0.
  destruct (callback s) as [s' [e|]] eqn:E; simpl in *; [|exfalso; apply H0; [lia|done]].
  rewrite (IH (Datatypes.S i)); [|by apply sleep_next|].
  - f_equal.
    + f_equal. destruct fuel as [|fuel]; simpl; by rewrite E.
    + cbn [pred]. rewrite sleeps_step by done. by destruct i.
  - intros n Hn. specialize (Hall (Datatypes.S n)). simpl in Hall. rewrite E in Hall.
    apply Hall. lia.
Qed.

Lemma retry_loop_first fuel k i sleep err s slept :
  sleep = 10 * 2 ^ Z.of_nat (pred i) ->
  (k < fuel)%nat ->
  (forall n, (n < k)%nat -> (callback (nth_state n s)).2 <> None) ->
  (callback (nth_state k s)).2 = None ->
  retry_loop callback fuel i sleep err s slept
    = (nth_state (Datatypes.S k) s, None,
       slept ++ sleeps (pred i) (match i with O => k | _ => Datatypes.S k end)).
Proof.
  revert k i sleep err s slept.
  induction fuel as [|fuel IH]; intros k i sleep err s slept Hs Hk Hall Hok; [lia|]. simpl.
  destruct (callback s) as [s' [e|]] eqn:E.
  - destruct k as [|k]; [simpl in Hok; by rewrite E in Hok|].
    rewrite (IH k (Datatypes.S i)); simpl in *; rewrite ?E in *; simpl in *.
    + f_equal. rewrite sleeps_step by done. done.
    + by apply sleep_next.
    + lia.
    + intros n Hn. specialize (Hall (Datatypes.S n)). simpl in Hall. rewrite E in Hall.
      apply Hall. lia.
    + done.
  - destruct k as [|k].
    + simpl. f_equal. pose proof (sleeps_step i 0 sleep slept Hs) as Hst.
      unfold sleeps at 1 in Hst. simpl in Hst. by rewrite app_nil_r in Hst.
    + specialize (Hall 0%nat). simpl in Hall. rewrite E in Hall. exfalso. apply Hall; [lia|done].
Qed.

(** [RetryWithBackOff] calls back until the first success or [retryCount] failures:
    if call [k] is the first success it returns nil after [k] sleeps of 10, 20, 40, ...
    seconds, and if every call fails it returns the error of the last one after
    [retryCount - 1] sleeps. *)
Theorem retry_with_backoff_spec (retryCount : nat) s :
  (forall k, (k < retryCount)%nat ->
     (forall n, (n < k)%nat -> (callback (nth_state n s)).2 <> None) ->
     (callback (nth_state k s)).2 = None ->
     RetryWithBackOff callback (Z.of_nat retryCount) s
       = (nth_state (Datatypes.S k) s, None, sleeps 0 k)) /\
  ((forall n, (n < retryCount)%nat -> (callback (nth_state n s)).2 <> None) ->
     RetryWithBackOff callback (Z.of_nat retryCount) s
       = (nth_state retryCount s,
          match retryCount with O => None | Datatypes.S n => (callback (nth_state n s)).2 end,
          sleeps 0 (pred retryCount))).
Proof.
  unfold RetryWithBackOff. rewrite Nat2Z.id. split.
  - intros k Hk Hall Hok. by apply retry_loop_first.
  - intros Hall. by apply retry_loop_fail.
Qed.

End RetryProofs.

Lemma retry_with_backoff_example :
  RetryWithBackOff (fun n : nat => (S n, if Nat.eqb n 2 then None else Some "conflict")) 5 0%nat
  = (3%nat, None, [10; 20]).
Proof. reflexivity. Qed.

(** ** Keys, partitions *)

(** Two policies with the same [GetGtpKey] have the same environment and the same
    identity, as long as their environments contain no dot. *)
Theorem gtp_key_injective p g h :
  "."%char ∉ bytes (GetGtpEnv p g) -> "."%char ∉ bytes (GetGtpEnv p h) ->
  GetGtpKey p g = GetGtpKey p h ->
  GetGtpEnv p g = GetGtpEnv p h /\ GetGtpIdentity p g = GetGtpIdentity p h.
Proof. apply key_inj. Qed.

Lemma gtp_key_injective_witness :
  let p := priority_params in let g := gtp_at "a" "1" 5 None in let h := gtp_at "b" "2" 6 None in
  GetGtpKey p g = GetGtpKey p h /\ GetGtpEnv p g = GetGtpEnv p h /\
  GetGtpIdentity p g = GetGtpIdentity p h.
Proof.
  intros p g h. split; [vm_compute; reflexivity|].
  apply (gtp_key_injective p g h); [| |vm_compute; reflexivity];
    apply (bool_decide_eq_true_1 _); vm_compute; reflexivity.
Defined.

Lemma find_first {A} (f : A -> bool) pre x post :
  (forall a, a ∈ pre -> f a = false) -> f x = true -> List.find f (pre ++ x :: post) = Some x.
Proof.
  induction pre as [|a pre IH]; simpl; intros Hpre Hx; [by rewrite Hx|].
  rewrite Hpre by (by left). apply IH; [|done]. intros b Hb. apply Hpre. by right.
Qed.

(** [GetPartitionAndOriginalIdentifierFromPartitionedIdentifier] undoes the partition
    prefix that the identifier functions add: for a gateway asset it returns the
    partition and the alias as it is configured. *)
Theorem partition_roundtrip p partition identity pre gw post :
  p.(Params.EnableSWAwareNSCaches) = true -> partition <> "" -> identity <> "" ->
  GetGatewayAssetAliases p = pre ++ gw :: post -> to_lower identity = to_lower gw ->
  (forall a, a ∈ pre -> gateway_suffix (with_partition p partition identity) a = false) ->
  GetPartitionAndOriginalIdentifierFromPartitionedIdentifier p
    (with_partition p partition identity) = (partition, gw).
Proof.
  intros Hsw Hp Hi Hal Hlow Hpre.
  unfold GetPartitionAndOriginalIdentifierFromPartitionedIdentifier. rewrite Hal.
  assert (with_partition p partition identity = partition +:+ (Sep +:+ to_lower gw)) as E.
  { unfold with_partition. rewrite Hsw, <- Hlow.
    apply is_empty_false in Hp, Hi. by rewrite Hp, Hi. }
  rewrite (find_first _ pre gw post); [|done|].
  - by rewrite E, trim_suffix_app.
  - unfold gateway_suffix. rewrite E. apply has_suffix_spec. exists (to_lower partition).
    by rewrite !to_lower_app, to_lower_idem.
Qed.

Definition partition_params : AdmiralParams :=
  Params.zero_AdmiralParams <| Params.EnableSWAwareNSCaches := true |>
    <| Params.GatewayAssetAliases := ["Org.gw"; "Org.other"] |>.

Lemma partition_roundtrip_witness :
  GetPartitionAndOriginalIdentifierFromPartitionedIdentifier partition_params
    (with_partition partition_params "swx" "ORG.gw") = ("swx", "Org.gw").
Proof.
  apply (partition_roundtrip partition_params "swx" "ORG.gw" [] "Org.gw" ["Org.other"]);
    try reflexivity; try discriminate. intros a Ha. by apply elem_of_nil in Ha.
Defined.

(** An identifier whose alias part is not in lower case keeps the alias in the
    partition: the suffix is found in the lower-cased identifier and trimmed from the
    original. *)
Theorem partition_mixed_case :
  GetPartitionAndOriginalIdentifierFromPartitionedIdentifier partition_params "swx.Org.gw"
    = ("swx.Org.gw", "Org.gw").
Proof. reflexivity. Qed.

Lemma gateway_iff p item :
  IsAGateway p item = true <->
  exists gw prefix, gw ∈ GetGatewayAssetAliases p /\ to_lower item = prefix +:+ Sep +:+ to_lower gw.
Proof.
  unfold IsAGateway. rewrite existsb_iff. unfold gateway_suffix.
  setoid_rewrite has_suffix_spec. split.
  - intros (gw & Hin & pre & E). by exists gw, pre.
  - intros (gw & pre & Hin & E). exists gw. split; [done|]. by exists pre.
Qed.

(** ** Matching *)

Lemma filter_In_iff {A} (f : A -> bool) l x : x ∈ List.filter f l <-> x ∈ l /\ f x = true.
Proof. rewrite !list_elem_of_In. apply filter_In. Qed.

(** [MatchGTPsToRollout] returns a policy exactly when some policy of the list has
    the rollout's environment, and the one it returns is of the list and has that
    environment. *)
Theorem match_gtps_to_rollout_spec `{!GoSort} p l r :
  Name (RoMeta r) <> "" ->
  match MatchGTPsToRollout p l (Some r) with
  | Some g => g ∈ l /\ GetGtpEnv p g = GetEnvForRollout p r
  | None => forall g, g ∈ l -> GetGtpEnv p g <> GetEnvForRollout p r
  end.
Proof.
  intros Hn. unfold MatchGTPsToRollout. apply is_empty_false in Hn. rewrite Hn.
  set (env := GetEnvForRollout p r).
  pose proof (filter_In_iff (fun g => GetGtpEnv p g =?s env) l) as Hf.
  destruct l as [|g1 [|g2 l]].
  - intros g ?%elem_of_nil. done.
  - destruct (GetGtpEnv p g1 =?s env) eqn:E; sdec; [by rewrite elem_of_cons; auto|].
    intros g. rewrite list_elem_of_singleton. by intros ->.
  - assert (forall l' g, head l' = Some g -> l' ≡ₚ List.filter (fun g => GetGtpEnv p g =?s env)
      (g1 :: g2 :: l) -> g ∈ g1 :: g2 :: l /\ GetGtpEnv p g = env) as Hhead.
    { intros [|g' l'] g [= <-] Hp. rewrite <- seqb_eq. apply Hf. rewrite <- Hp. by left. }
    destruct (List.filter _ _) as [|x [|y f]] eqn:E.
    + intros g Hg Heq. apply seqb_eq in Heq.
      pose proof (proj2 (Hf g) (conj Hg Heq)) as Hx. by apply elem_of_nil in Hx.
    + by apply (Hhead [x]).
    + pose proof (sort_slice_perm _ gtp_nanosecond_less (x :: y :: f)) as Hp.
      destruct (sort_slice gtp_nanosecond_less (x :: y :: f)) as [|z zs] eqn:Es; simpl.
      * by apply Permutation_nil_cons in Hp.
      * by apply (Hhead (z :: zs)).
Qed.

Definition rollout_in (name ns : string) : RolloutObj :=
  mkRollout (mkMeta name ns None None 0 "") (mkTemplate None (Some {[ "app" := "x" ]})) None
    (mkStrategy None None) None 1 "".

Lemma match_gtps_to_rollout_spec_witness :
  match MatchGTPsToRollout priority_params [gtp_at "a" "1" 5 None; gtp_at "b" "1" 6 None]
          (Some (rollout_in "r" "ns")) with
  | Some g => g ∈ [gtp_at "a" "1" 5 None; gtp_at "b" "1" 6 None] /\
      GetGtpEnv priority_params g = GetEnvForRollout priority_params (rollout_in "r" "ns")
  | None => forall g, g ∈ [gtp_at "a" "1" 5 None; gtp_at "b" "1" 6 None] ->
      GetGtpEnv priority_params g <> GetEnvForRollout priority_params (rollout_in "r" "ns")
  end.
Proof. apply (match_gtps_to_rollout_spec (H := go_insertion_sort)). discriminate. Defined.

(** Among several matching policies the tie is broken by the nanosecond within the
    second of the creation time, so a policy created later can be returned. *)
Theorem match_gtps_not_oldest :
  let old := gtp_at "old" "1" 999999999 None in let new := gtp_at "new" "1" 1000000000 None in
  MatchGTPsToRollout priority_params [old; new] (Some (rollout_in "r" "ns")) = Some new.
Proof. vm_compute. done. Qed.

(** [Subset] answers true for a map with a key the other one does not have. *)
Theorem subset_missing_key :
  Subset (Some {[ "a" := "1" ]}) (Some {[ "b" := "2" ]}) = true.
Proof. reflexivity. Qed.

(** What [Subset] decides: the two maps agree on the keys they share. *)
Lemma subset_iff `{!GoRange} a b :
  Subset (Some a) (Some b) = true <->
  a <> ∅ /\ (size a <= size b)%nat /\ forall k v w, a !! k = Some v -> b !! k = Some w -> v = w.
Proof.
  unfold Subset. rewrite <- map_size_non_empty_iff.
  destruct (Nat.eqb_spec (size a) 0) as [E1|E1]; simpl; [split; [done|by intros (? & _)]|].
  destruct (Nat.ltb_spec (size b) (size a)) as [E2|E2]; [split; [done|lia]|].
  rewrite forallb_forall. split.
  - intros Hf. split_and!; [done|done|]. intros k v w Ha Hb.
    specialize (Hf (k, v)). rewrite <- list_elem_of_In, go_range_elem, Hb in Hf.
    specialize (Hf Ha). by sdec.
  - intros (_ & _ & Hf) [k v] Hin%list_elem_of_In. rewrite go_range_elem in Hin.
    destruct (b !! k) eqn:Hb; [|done]. apply seqb_eq. symmetry. by eapply Hf.
Qed.

(** A generated virtual service name fits the limit of 250 bytes when it is made of
    a namespace and a name, and two names made of the same short parts are equal only
    when the names are. *)
Theorem vs_name_bounded_injective ns name name' :
  ns <> "" -> name <> "" -> name' <> "" ->
  (String.length (GenerateUniqueNameForVS ns name) <= 250)%nat /\
  ((String.length ns + String.length name < 250)%nat ->
   (String.length ns + String.length name' < 250)%nat ->
   GenerateUniqueNameForVS ns name = GenerateUniqueNameForVS ns name' -> name = name').
Proof.
  intros Hns Hn Hn'. apply is_empty_false in Hns, Hn, Hn'. unfold GenerateUniqueNameForVS.
  rewrite Hns, Hn, Hn'. simpl. split.
  - destruct (Nat.ltb_spec 250 (String.length (ns +:+ String "-" name))); [|lia].
    assert (forall s n, (String.length (String.substring 0 n s) <= n)%nat) as Hsub.
    { induction s as [|c s IH]; intros [|n]; simpl; try lia. specialize (IH n). lia. }
    apply Hsub.
  - intros Hl Hl'. rewrite !sapp_length. simpl.
    rewrite (proj2 (Nat.ltb_ge _ _)) by lia. rewrite (proj2 (Nat.ltb_ge _ _)) by lia.
    by intros [= ?]%sapp_inj_l.
Qed.

Lemma vs_name_bounded_injective_witness :
  (String.length (GenerateUniqueNameForVS "ns" "vs") <= 250)%nat /\
  ((String.length "ns" + String.length "vs" < 250)%nat ->
   (String.length "ns" + String.length "v2" < 250)%nat ->
   GenerateUniqueNameForVS "ns" "vs" = GenerateUniqueNameForVS "ns" "v2" -> "vs" = "v2").
Proof. apply (vs_name_bounded_injective "ns" "vs" "v2"); discriminate. Defined.
