(* ===== verification/ServiceCache.v ===== *)
(** * The service cache: [controller/admiral/service.go]

    Each cluster's service controller keeps its services by namespace and name; the
    readers take them newest first, and pick the ingress load balancer from them. *)
From S2P Require Import Prelude GoStrings Config Objects Metadata.
From stdpp Require Import options.
Local Open Scope Z_scope.

Definition ProcessingInProgress := "ProcessingInProgress".
Definition NotProcessed := "NotProcessed".
Definition DummyAdmiralGlobal := "dummy.admiral.global".

Record ServiceItem := mkServiceItem { Item : ServiceObj; Status : string }.

Record ServiceClusterEntry := mkServiceClusterEntry {
  Identity : string;
  Service : gmap string (gmap string ServiceItem)
}.

(** [serviceCache.cache]. *)
Abbreviation serviceCache := (gmap string ServiceClusterEntry).

(** [existing.Service[ns]]: a missing inner map is nil and reads as empty. *)
Definition inner (e : ServiceClusterEntry) (ns : string) : gmap string ServiceItem :=
  default ∅ (Service e !! ns).

(** ** Operations *)

Definition getKey (service : ServiceObj) : string := Namespace (SvcMeta service).

Definition shouldIgnoreBasedOnLabels (service : ServiceObj) : bool :=
  (mget (Annotations (SvcMeta service)) AdmiralIgnoreAnnotation =?s "true")
  || (mget (Labels (SvcMeta service)) AdmiralIgnoreAnnotation =?s "true").

(** [delete(existing.Service[identity], name)]: nothing when the inner map is nil. *)
Definition delete_inner (e : ServiceClusterEntry) (identity name : string) : ServiceClusterEntry :=
  match Service e !! identity with
  | Some m => mkServiceClusterEntry (Identity e) (<[identity := delete name m]> (Service e))
  | None => e
  end.

Definition ServiceCache_Put (s : serviceCache) (service : ServiceObj) : serviceCache :=
  let identity := getKey service in
  let existing := s !! identity in
  if shouldIgnoreBasedOnLabels service then
    match existing with
    | Some e => <[identity := delete_inner e identity (Name (SvcMeta service))]> s
    | None => s
    end
  else
    let e := default (mkServiceClusterEntry (getKey service) ∅) existing in
    let namespaceServices := inner e (Namespace (SvcMeta service)) in
    let namespaceServices := <[Name (SvcMeta service) := mkServiceItem service ProcessingInProgress]>
                               namespaceServices in
    <[identity := mkServiceClusterEntry (Identity e)
                    (<[Namespace (SvcMeta service) := namespaceServices]> (Service e))]> s.

Definition newer_service (a b : ServiceObj) : bool :=
  after (CreationTimestamp (SvcMeta a)) (CreationTimestamp (SvcMeta b)).

Definition getOrderedServices `{!GoRange, !GoSort} (serviceMap : gmap string ServiceItem)
    : list ServiceObj :=
  let orderedServices := map (fun kv => Item kv.2) (go_range 0 serviceMap) in
  if Nat.ltb 1 (length orderedServices) then sort_slice newer_service orderedServices
  else orderedServices.

Definition ServiceCache_Get `{!GoRange, !GoSort} (s : serviceCache) (key : string) : list ServiceObj :=
  match s !! key with
  | Some serviceClusterEntry => getOrderedServices (inner serviceClusterEntry key)
  | None => []
  end.

Definition cache_item (s : serviceCache) (service : ServiceObj) : option ServiceItem :=
  e ← s !! getKey service; m ← Service e !! Namespace (SvcMeta service);
  m !! Name (SvcMeta service).

Definition GetSvcProcessStatus (s : serviceCache) (service : ServiceObj) : string :=
  match cache_item s service with Some svc => Status svc | None => NotProcessed end.

Definition UpdateSvcProcessStatus (s : serviceCache) (service : ServiceObj) (status : string)
    : serviceCache * error :=
  let not_found := Some ("op=Update type=Service name=" +:+ Name (SvcMeta service)
    +:+ " namespace=" +:+ Namespace (SvcMeta service)
    +:+ " cluster= message=nothing to update, service not found in cache") in
  let identity := getKey service in
  match s !! identity with
  | Some e =>
      match Service e !! Namespace (SvcMeta service) with
      | Some m =>
          match m !! Name (SvcMeta service) with
          | Some svc =>
              (<[identity := mkServiceClusterEntry (Identity e)
                  (<[Namespace (SvcMeta service) :=
                     <[Name (SvcMeta service) := mkServiceItem (Item svc) status]> m]> (Service e))]> s,
               None)
          | None => (s, not_found)
          end
      | None => (s, not_found)
      end
  | None => (s, not_found)
  end.

Definition ServiceCache_Delete (s : serviceCache) (service : ServiceObj) : serviceCache :=
  let identity := getKey service in
  match s !! identity with
  | Some existing =>
      let existing := delete_inner existing identity (Name (SvcMeta service)) in
      if Nat.eqb (size (inner existing identity)) 0 then delete identity s
      else <[identity := existing]> s
  | None => s
  end.

(** ** The ingress load balancer *)

Fixpoint mtls_node_port (ports : list SvcPort) : option Z :=
  match ports with
  | [] => None
  | port :: rest => if Port port =? DefaultMtlsPort then Some (NodePort port) else mtls_node_port rest
  end.

Fixpoint find_load_balancer (absoluteFQDN : bool) (key : string) (services : list ServiceObj)
    : string * Z :=
  match services with
  | [] => (DummyAdmiralGlobal, DefaultMtlsPort)
  | service :: rest =>
      if IsIstioIngressGatewayService (Some service) key then
        match SvcIngress service with
        | ing :: _ =>
            if negb (is_empty (ingressHostname ing)) then
              if absoluteFQDN then (ingressHostname ing +:+ Sep, DefaultMtlsPort)
              else (ingressHostname ing, DefaultMtlsPort)
            else (ingressIP ing, DefaultMtlsPort)
        | [] =>
            match SvcExternalIPs service with
            | externalIp :: _ =>
                match mtls_node_port (SvcPorts service) with
                | Some port => (externalIp, port)
                | None => find_load_balancer absoluteFQDN key rest
                end
            | [] => find_load_balancer absoluteFQDN key rest
            end
        end
      else find_load_balancer absoluteFQDN key rest
  end.

Definition GetSingleLoadBalancer `{!GoRange, !GoSort} (p : AdmiralParams) (s : serviceCache)
    (key namespace : string) : string * Z :=
  match ServiceCache_Get s namespace with
  | [] => (DummyAdmiralGlobal, 0)
  | services => find_load_balancer (IsAbsoluteFQDNEnabled p) key services
  end.

(** A remote controller's service cache behind its three pointers: the controller, its
    [ServiceController] and its [Cache]. *)
Definition rc_services := option (option (option serviceCache)).

Definition isServiceControllerInitialized (rc : rc_services) : error :=
  match rc with
  | None => Some "remote controller not initialized"
  | Some None => Some "service controller not initialized"
  | Some (Some None) => Some "service controller cache not initialized"
  | Some (Some (Some _)) => None
  end.

Definition getOverwrittenLoadBalancer `{!GoRange, !GoSort} (p : AdmiralParams) (rc : rc_services)
    (clusterName : string) (nlbEnabledCluster : list string) : string * Z * error :=
  match rc with
  | Some (Some (Some s)) =>
      let '(endpoint, port) := GetSingleLoadBalancer p s (label_set p).(Params.GatewayApp)
                                 NamespaceIstioSystem in
      if str_in clusterName nlbEnabledCluster then
        let '(overwriteEndpoint, overwritePort) :=
          GetSingleLoadBalancer p s p.(Params.NLBIngressLabel) NamespaceIstioSystem in
        if negb (is_empty overwriteEndpoint) && (0 <? overwritePort)
           && negb (overwriteEndpoint =?s DummyAdmiralGlobal)
        then (overwriteEndpoint, overwritePort, None)
        else (endpoint, port, None)
      else (endpoint, port, None)
  | _ => (DummyAdmiralGlobal, DefaultMtlsPort, isServiceControllerInitialized rc)
  end.

(** ** The cache as a state machine, and its specification *)

Inductive cache_op :=
| OpPut (service : ServiceObj)
| OpDelete (service : ServiceObj)
| OpStatus (service : ServiceObj) (status : string).

Definition cache_step (s : serviceCache) (op : cache_op) : serviceCache :=
  match op with
  | OpPut service => ServiceCache_Put s service
  | OpDelete service => ServiceCache_Delete s service
  | OpStatus service status => (UpdateSvcProcessStatus s service status).1
  end.

(** What the cache promises: the last service put under a namespace and name, unless it
    asked to be ignored or was deleted since. *)
Abbreviation spec_state := (gmap (string * string) ServiceObj).

Definition svc_key (service : ServiceObj) : string * string :=
  (Namespace (SvcMeta service), Name (SvcMeta service)).

Definition spec_step (m : spec_state) (op : cache_op) : spec_state :=
  match op with
  | OpPut service => if shouldIgnoreBasedOnLabels service then delete (svc_key service) m
                     else <[svc_key service := service]> m
  | OpDelete service => delete (svc_key service) m
  | OpStatus _ _ => m
  end.

(** The services the cache holds under a namespace and name. *)
Definition abs_lookup (s : serviceCache) (ns name : string) : option ServiceObj :=
  e ← s !! ns; it ← inner e ns !! name; Some (Item it).

Definition cache_run (ops : list cache_op) : serviceCache := foldl cache_step ∅ ops.
Definition spec_run (ops : list cache_op) : spec_state := foldl spec_step ∅ ops.

(** ** Refinement *)

Definition refines (s : serviceCache) (m : spec_state) : Prop :=
  forall ns name, abs_lookup s ns name = m !! (ns, name).

Lemma inner_delete_inner e id name ns :
  inner (delete_inner e id name) ns = if decide (ns = id) then delete name (inner e ns) else inner e ns.
Proof.
  unfold delete_inner, inner. destruct (Service e !! id) as [m|] eqn:E; simpl.
  - case_decide as Hd; [subst; by rewrite lookup_insert_eq, E|by rewrite lookup_insert_ne].
  - case_decide as Hd; [subst; rewrite E; simpl; by rewrite delete_empty|done].
Qed.

Lemma abs_lookup_insert s ns e ns' name :
  abs_lookup (<[ns := e]> s) ns' name
    = if decide (ns' = ns) then it ← inner e ns !! name; Some (Item it) else abs_lookup s ns' name.
Proof.
  unfold abs_lookup. case_decide; [subst; by rewrite lookup_insert_eq|].
  by rewrite lookup_insert_ne.
Qed.

Lemma inner_bind_delete e ns name name' :
  (it ← delete name (inner e ns) !! name'; Some (Item it))
    = if decide (name' = name) then None else it ← inner e ns !! name'; Some (Item it).
Proof.
  case_decide; [subst; by rewrite lookup_delete_eq|by rewrite lookup_delete_ne].
Qed.

Lemma spec_delete_lookup (m : spec_state) k ns name :
  delete k m !! (ns, name) = if decide ((ns, name) = k) then None else m !! (ns, name).
Proof. case_decide; [subst; by rewrite lookup_delete_eq|by rewrite lookup_delete_ne]. Qed.

Lemma refines_delete s m svc :
  refines s m ->
  refines (match s !! getKey svc with
           | Some e => <[getKey svc := delete_inner e (getKey svc) (Name (SvcMeta svc))]> s
           | None => s
           end) (delete (svc_key svc) m).
Proof.
  intros HR ns name. specialize (HR ns name). rewrite spec_delete_lookup, <- HR.
  unfold svc_key, getKey in *. destruct (s !! Namespace (SvcMeta svc)) as [e|] eqn:E.
  - rewrite abs_lookup_insert. destruct (decide (ns = Namespace (SvcMeta svc))) as [->|Hns].
    + rewrite inner_delete_inner, decide_True, inner_bind_delete by done.
      unfold abs_lookup. rewrite E. simpl.
      destruct (decide (name = Name (SvcMeta svc))) as [->|Hn]; [by rewrite decide_True|].
      rewrite decide_False; [done|congruence].
    + rewrite decide_False; [done|congruence].
  - case_decide as Hd; [|done]. injection Hd as -> ->. unfold abs_lookup. by rewrite E.
Qed.

Lemma refines_put s m svc :
  shouldIgnoreBasedOnLabels svc = false -> refines s m ->
  refines (ServiceCache_Put s svc) (<[svc_key svc := svc]> m).
Proof.
  intros Hig HR ns name. unfold ServiceCache_Put. rewrite Hig, abs_lookup_insert. unfold inner at 1. simpl.
  unfold getKey, svc_key. rewrite lookup_insert_eq. simpl.
  destruct (decide (ns = Namespace (SvcMeta svc))) as [->|Hns].
  - destruct (decide (name = Name (SvcMeta svc))) as [->|Hn].
    + by rewrite !lookup_insert_eq.
    + rewrite !lookup_insert_ne by congruence. rewrite <- HR. unfold abs_lookup.
      destruct (s !! Namespace (SvcMeta svc)) as [e|]; simpl; [done|].
      unfold inner. simpl. by rewrite lookup_empty.
  - rewrite lookup_insert_ne by congruence. apply HR.
Qed.

Lemma refines_drop_empty s m ns e :
  s !! ns = Some e -> size (inner e ns) = 0%nat -> refines s m -> refines (delete ns s) m.
Proof.
  intros He Hz HR ns' name. rewrite <- HR. unfold abs_lookup.
  destruct (decide (ns' = ns)) as [->|Hn].
  - rewrite lookup_delete_eq, He. simpl. apply map_size_empty_inv in Hz. by rewrite Hz, lookup_empty.
  - by rewrite lookup_delete_ne.
Qed.

Lemma refines_status s m svc st :
  refines s m -> refines (UpdateSvcProcessStatus s svc st).1 m.
Proof.
  intros HR. unfold UpdateSvcProcessStatus, getKey.
  destruct (s !! Namespace (SvcMeta svc)) as [e|] eqn:E; [|done].
  destruct (Service e !! Namespace (SvcMeta svc)) as [im|] eqn:Em; [|done].
  destruct (im !! Name (SvcMeta svc)) as [it|] eqn:Ei; [|done]. simpl.
  intros ns name. rewrite <- HR, abs_lookup_insert. unfold inner at 1. simpl.
  case_decide as Hns; [subst|done]. rewrite lookup_insert_eq. simpl.
  unfold abs_lookup. rewrite E. simpl. unfold inner. rewrite Em. simpl.
  destruct (decide (name = Name (SvcMeta svc))) as [->|Hn].
  - by rewrite lookup_insert_eq, Ei.
  - by rewrite lookup_insert_ne.
Qed.

Lemma cache_step_refines s m op : refines s m -> refines (cache_step s op) (spec_step m op).
Proof.
  intros HR. destruct op as [svc|svc|svc st]; simpl.
  - destruct (shouldIgnoreBasedOnLabels svc) eqn:E.
    + unfold ServiceCache_Put. rewrite E. by apply refines_delete.
    + by apply refines_put.
  - unfold ServiceCache_Delete. pose proof (refines_delete s m svc HR) as H.
    destruct (s !! getKey svc) as [e|] eqn:E; [|done].
    destruct (Nat.eqb_spec (size (inner (delete_inner e (getKey svc) (Name (SvcMeta svc)))
      (getKey svc))) 0) as [Hz|Hz]; [|done].
    rewrite <- (delete_insert_eq s (getKey svc)
      (delete_inner e (getKey svc) (Name (SvcMeta svc)))).
    eapply refines_drop_empty; [apply lookup_insert_eq|done|done].
  - by apply refines_status.
Qed.

Lemma cache_run_refines ops : refines (cache_run ops) (spec_run ops).
Proof.
  unfold cache_run, spec_run.
  assert (refines ∅ ∅) as H by (intros ns name; by rewrite lookup_empty).
  revert H. generalize (∅ : serviceCache), (∅ : spec_state).
  induction ops as [|op ops IH]; intros s m H; simpl; [done|]. by apply IH, cache_step_refines.
Qed.

Lemma spec_run_keys ops k svc : spec_run ops !! k = Some svc -> svc_key svc = k.
Proof.
  unfold spec_run.
  assert (forall k svc, (∅ : spec_state) !! k = Some svc -> svc_key svc = k) as H
    by (intros ? ?; by rewrite lookup_empty).
  revert k svc H. generalize (∅ : spec_state).
  induction ops as [|op ops IH]; intros m k svc H; simpl; [by apply H|].
  apply IH. clear k svc. intros k svc. destruct op as [sv|sv|sv st]; simpl; [|
    rewrite lookup_delete_Some; intros [_ ?]; by apply H|by apply H].
  destruct (shouldIgnoreBasedOnLabels sv).
  - rewrite lookup_delete_Some. intros [_ ?]. by apply H.
  - rewrite lookup_insert_Some. intros [[<- <-]|[_ ?]]; [done|by apply H].
Qed.

Section Readers.
Context {range : GoRange} {sorting : GoSort}.

Lemma ordered_perm m : getOrderedServices m ≡ₚ map (fun kv => Item kv.2) (go_range 0 m).
Proof. unfold getOrderedServices. case_match; [apply sort_slice_perm|done]. Qed.

Lemma newer_strict_weak l : strict_weak_on newer_service l.
Proof.
  unfold newer_service, after. split.
  - intros x _. apply Z.ltb_irrefl.
  - intros x y _ _. rewrite Z.ltb_lt, Z.ltb_ge. lia.
  - intros x y z _ _ _. rewrite !Z.ltb_ge. lia.
Qed.

Lemma ordered_sorted m : sorted_by newer_service (getOrderedServices m).
Proof.
  unfold getOrderedServices. case_match eqn:E; [apply sort_slice_sorted, newer_strict_weak|].
  apply Nat.ltb_ge in E. destruct (map _ _) as [|a [|b l]]; simpl in E; [constructor|repeat constructor|lia].
Qed.

Lemma get_elem s m ns svc :
  refines s m ->
  svc ∈ ServiceCache_Get s ns <-> exists name, m !! (ns, name) = Some svc.
Proof.
  intros HR. unfold ServiceCache_Get. transitivity (exists name, abs_lookup s ns name = Some svc).
  2: { by setoid_rewrite HR. }
  unfold abs_lookup. destruct (s !! ns) as [e|]; simpl.
  - rewrite ordered_perm, list_elem_of_fmap. split.
    + intros ([name it] & -> & Hin). rewrite go_range_elem in Hin. exists name. simpl. by rewrite Hin.
    + intros (name & H). destruct (inner e ns !! name) as [it|] eqn:E; simplify_eq/=.
      exists (name, it). split; [done|]. by apply go_range_elem.
  - split; [by intros ?%elem_of_nil|by intros (? & ?)].
Qed.

(** The cache refines a map from namespace and name to service: after any sequence of
    puts, deletions and status updates, [Get] of a namespace returns the services that
    were put there last under their name and have not been deleted or asked to be
    ignored since, each name once, newest first; for every map order and sort. *)
Theorem service_cache_get_spec ops ns :
  (forall svc, svc ∈ ServiceCache_Get (cache_run ops) ns <->
     Namespace (SvcMeta svc) = ns /\ spec_run ops !! svc_key svc = Some svc) /\
  NoDup (map svc_key (ServiceCache_Get (cache_run ops) ns)) /\
  sorted_by newer_service (ServiceCache_Get (cache_run ops) ns).
Proof.
  pose proof (cache_run_refines ops) as HR. split; [|split].
  - intros svc. rewrite get_elem by done. split.
    + intros (name & H). pose proof (spec_run_keys _ _ _ H) as Hk.
      rewrite Hk. injection Hk as ? ?. done.
    + intros [<- H]. by exists (Name (SvcMeta svc)).
  - unfold ServiceCache_Get. destruct (cache_run ops !! ns) as [e|] eqn:E; [|constructor].
    rewrite ordered_perm, map_map.
    assert (map (fun kv : string * ServiceItem => svc_key (Item kv.2)) (go_range 0 (inner e ns))
            = map (fun k => (ns, k)) (go_range 0 (inner e ns)).*1) as ->.
    { change ((go_range 0 (inner e ns)).*1) with (map fst (go_range 0 (inner e ns))).
      rewrite map_map. apply map_ext_in. intros [k it] Hin%list_elem_of_In.
      rewrite go_range_elem in Hin. simpl. apply (spec_run_keys ops). rewrite <- HR.
      unfold abs_lookup. rewrite E. simpl. by rewrite Hin. }
    apply (NoDup_fmap_2 _), go_range_fst_NoDup.
  - unfold ServiceCache_Get. destruct (cache_run ops !! ns); [apply ordered_sorted|constructor].
Qed.

(** The overwriting load balancer is used only for a listed cluster, and only when it is a
    real endpoint. *)
Lemma overwritten_load_balancer_cases p s cluster nlb :
  getOverwrittenLoadBalancer p (Some (Some (Some s))) cluster nlb
    = (let lb := GetSingleLoadBalancer p s (label_set p).(Params.GatewayApp) NamespaceIstioSystem in
       let o := GetSingleLoadBalancer p s p.(Params.NLBIngressLabel) NamespaceIstioSystem in
       if decide (cluster ∈ nlb /\ o.1 <> "" /\ 0 < o.2 /\ o.1 <> DummyAdmiralGlobal)
       then (o.1, o.2, None) else (lb.1, lb.2, None)).
Proof.
  unfold getOverwrittenLoadBalancer. simpl.
  destruct (GetSingleLoadBalancer p s (label_set p).(Params.GatewayApp) NamespaceIstioSystem)
    as [e1 p1], (GetSingleLoadBalancer p s p.(Params.NLBIngressLabel) NamespaceIstioSystem)
    as [e2 p2]. simpl.
  destruct (str_in cluster nlb) eqn:E.
  - apply str_in_spec in E.
    destruct (is_empty e2) eqn:E1, (Z.ltb_spec 0 p2), (e2 =?s DummyAdmiralGlobal) eqn:E2;
      simpl; sdec; rewrite ?is_empty_spec, ?is_empty_false in E1; case_decide; intuition lia.
  - apply str_in_false in E. case_decide; tauto.
Qed.

End Readers.
