(* ===== verification/Policies.v ===== *)
(** * The policies of an identity

    Global traffic policies, outlier detections and client connection
    configurations: the cache each cluster's controller keeps of them
    ([controller/admiral/globaltraffic.go], [outlierdetection.go],
    [clientconnectionconfigcontroller.go]), the caches of the policy in use
    ([clusters/globaltraffic_handler.go], [outlierdetection_handler.go],
    [clientconnectionconfig_handler.go]), the choice between several
    ([clusters/serviceentry.go]), and the handlers of their events. *)
From S2P Require Import Prelude GoStrings Config Objects Metadata ServiceCache.
From stdpp Require Import options.
Local Open Scope Z_scope.

(** ** The kinds *)

(** What the code does with a policy of any kind; the last three fields are the
    errors of a status update that finds no key, no namespace or no policy. *)
Class PolicyKind (A : Type) := {
  pk_meta : A -> ObjectMeta;
  pk_env : AdmiralParams -> A -> string;
  pk_identity : AdmiralParams -> A -> string;
  pk_no_key : A -> string;
  pk_no_namespace : A -> string;
  pk_no_policy : A -> string
}.

(** [LogCacheFormat]. *)
Definition cache_error (kind : string) (m : ObjectMeta) (message : string) : string :=
  "op=Update type=" +:+ kind +:+ " name=" +:+ Name m +:+ " namespace=" +:+ Namespace m +:+
  " cluster= message=" +:+ message.

Definition GtpType := "GTP".
Definition OutlierDetectionType := "OutlierDetection".
Definition ClientConnectionConfigType := "ClientConnectionConfig".

#[export] Instance gtp_kind : PolicyKind GlobalTrafficPolicy :=
  let err g := cache_error GtpType (GtpMeta g) "nothing to update, gtp not found in cache" in
  {| pk_meta := GtpMeta; pk_env := GetGtpEnv; pk_identity := GetGtpIdentity;
     pk_no_key := err; pk_no_namespace := err; pk_no_policy := err |}.

#[export] Instance od_kind : PolicyKind OutlierDetectionCrd :=
  let err o := cache_error OutlierDetectionType (OdMeta o)
                 "nothing to update, OutlierDetection not found in cache" in
  {| pk_meta := OdMeta; pk_env := GetODEnv; pk_identity := GetODIdentity;
     pk_no_key := err; pk_no_namespace := err; pk_no_policy := err |}.

#[export] Instance ccc_kind : PolicyKind ClientConnectionConfig :=
  let err msg c := cache_error ClientConnectionConfigType (CccMeta c)
                     ("skipped updating status in cache, clientConnectionSettings " +:+ msg) in
  {| pk_meta := CccMeta; pk_env := GetClientConnectionConfigEnv;
     pk_identity := GetClientConnectionConfigIdentity;
     pk_no_key := err "not found in cache";
     pk_no_namespace := err "namespace not found in cache";
     pk_no_policy := err "not found in cache with the specified name" |}.

(** ** The cache of a cluster *)

Record policy_item (A : Type) := mkItem { it_policy : A; it_status : string }.
Arguments mkItem {A} _ _.
Arguments it_policy {A} _.
Arguments it_status {A} _.

(** By environment and identity, namespace and name. *)
Abbreviation policyCache A := (gmap string (gmap string (gmap string (policy_item A)))).

Section ClusterCache.
Context {A : Type} {kind : PolicyKind A} (p : AdmiralParams).

Definition pk_key (obj : A) : string :=
  ConstructKeyWithEnvAndIdentity (pk_env p obj) (pk_identity p obj).

Definition namespaces (c : policyCache A) (key : string) : gmap string (gmap string (policy_item A)) :=
  default ∅ (c !! key).

Definition in_namespace (nss : gmap string (gmap string (policy_item A))) (ns : string)
    : gmap string (policy_item A) := default ∅ (nss !! ns).

(** [gtpCache.Put] and [clientConnectionSettingsCache.Put]. *)
Definition policyCache_Put (obj : A) (c : policyCache A) : policyCache A :=
  let m := pk_meta obj in
  let nss := namespaces c (pk_key obj) in
  let items := in_namespace nss (Namespace m) in
  let items := if ShouldIgnoreResource m then delete (Name m) items
               else <[Name m := mkItem obj ProcessingInProgress]> items in
  <[pk_key obj := <[Namespace m := items]> nss]> c.

(** [odCache.Put], which removes an ignored outlier detection from another map. *)
Definition odCache_Put (obj : A) (c : policyCache A) : policyCache A :=
  let m := pk_meta obj in
  let nss := namespaces c (pk_key obj) in
  let items := in_namespace nss (Namespace m) in
  let '(nss, items) :=
    if ShouldIgnoreResource m then (delete (Name m) nss, items)
    else (nss, <[Name m := mkItem obj ProcessingInProgress]> items) in
  <[pk_key obj := <[Namespace m := items]> nss]> c.

Definition policyCache_Delete (obj : A) (c : policyCache A) : policyCache A :=
  let m := pk_meta obj in
  match c !! pk_key obj with
  | None => c
  | Some nss =>
      match nss !! Namespace m with
      | None => c
      | Some items => <[pk_key obj := <[Namespace m := delete (Name m) items]> nss]> c
      end
  end.

Definition policyCache_Get `{!GoRange} (c : policyCache A) (key namespace : string) : list A :=
  flat_map (fun kv => if namespace =?s kv.1 then map (fun it => it_policy it.2) (go_range 1 kv.2) else [])
    (go_range 0 (namespaces c key)).

Definition cached_item (c : policyCache A) (key ns name : string) : option (policy_item A) :=
  nss ← c !! key; items ← nss !! ns; items !! name.

Definition policyCache_GetStatus (c : policyCache A) (obj : A) : string :=
  match cached_item c (pk_key obj) (Namespace (pk_meta obj)) (Name (pk_meta obj)) with
  | Some it => it_status it
  | None => NotProcessed
  end.

Definition policyCache_UpdateStatus (c : policyCache A) (obj : A) (status : string)
    : policyCache A * error :=
  let m := pk_meta obj in
  match c !! pk_key obj with
  | None => (c, Some (pk_no_key obj))
  | Some nss =>
      match nss !! Namespace m with
      | None => (c, Some (pk_no_namespace obj))
      | Some items =>
          match items !! Name m with
          | None => (c, Some (pk_no_policy obj))
          | Some it =>
              (<[pk_key obj := <[Namespace m := <[Name m := mkItem (it_policy it) status]> items]> nss]> c,
               None)
          end
      end
  end.

End ClusterCache.

(** The caches of the outlier detections and of the connection settings repeat these
    methods for their types; only the [Put] of the former differs. *)
Section ClusterCaches.
Context {range : GoRange} (p : AdmiralParams).

Definition odCache_Delete (od : OutlierDetectionCrd) (c : policyCache OutlierDetectionCrd) : policyCache OutlierDetectionCrd :=
  policyCache_Delete p od c.
Definition odCache_Get (c : policyCache OutlierDetectionCrd) (key namespace : string) : list OutlierDetectionCrd :=
  policyCache_Get c key namespace.
Definition odCache_GetProcessStatus (c : policyCache OutlierDetectionCrd) (od : OutlierDetectionCrd) : string :=
  policyCache_GetStatus p c od.
Definition odCache_UpdateProcessingStatus (c : policyCache OutlierDetectionCrd) (od : OutlierDetectionCrd) (status : string)
    : policyCache OutlierDetectionCrd * error := policyCache_UpdateStatus p c od status.
(** [GetODProcessStatus] and [UpdateODProcessingStatus] are the same again. *)
Definition GetODProcessStatus (c : policyCache OutlierDetectionCrd) (od : OutlierDetectionCrd) : string :=
  policyCache_GetStatus p c od.
Definition UpdateODProcessingStatus (c : policyCache OutlierDetectionCrd) (od : OutlierDetectionCrd) (status : string)
    : policyCache OutlierDetectionCrd * error := policyCache_UpdateStatus p c od status.

Definition cccCache_Put (ccc : ClientConnectionConfig) (c : policyCache ClientConnectionConfig) : policyCache ClientConnectionConfig :=
  policyCache_Put p ccc c.
Definition cccCache_Delete (ccc : ClientConnectionConfig) (c : policyCache ClientConnectionConfig) : policyCache ClientConnectionConfig :=
  policyCache_Delete p ccc c.
Definition cccCache_Get (c : policyCache ClientConnectionConfig) (key namespace : string) : list ClientConnectionConfig :=
  policyCache_Get c key namespace.
Definition cccCache_GetStatus (c : policyCache ClientConnectionConfig) (ccc : ClientConnectionConfig) : string :=
  policyCache_GetStatus p c ccc.
Definition cccCache_UpdateStatus (c : policyCache ClientConnectionConfig) (ccc : ClientConnectionConfig) (status : string)
    : policyCache ClientConnectionConfig * error := policyCache_UpdateStatus p c ccc status.
End ClusterCaches.

(** ** The policy in use *)

(** The caches by environment and identity. *)
Abbreviation identityCache A := (gmap string A).

Section IdentityCache.
Context {A : Type} {kind : PolicyKind A} (p : AdmiralParams).

Definition identityCache_GetFromIdentity (c : identityCache A) (identity environment : string) : option A :=
  c !! ConstructKeyWithEnvAndIdentity environment identity.

(** [empty_error] is the message for a policy without a name. *)
Definition identityCache_Put (empty_error : string) (obj : A) (c : identityCache A)
    : identityCache A * error :=
  if Name (pk_meta obj) =?s "" then (c, Some empty_error)
  else (<[pk_key p obj := obj]> c, None).

(** [missing_error] is the message for a key that is not cached. *)
Definition identityCache_Delete (missing_error : string -> string) (identity environment : string)
    (c : identityCache A) : identityCache A * error :=
  let key := ConstructKeyWithEnvAndIdentity environment identity in
  match c !! key with
  | Some _ => (delete key c, None)
  | None => (c, Some (missing_error key))
  end.

(** The order of [sortOutlierDetectionByCreationTime] and
    [sortClientConnectionConfigByCreationTime]. *)
Definition created_after (a b : A) : bool :=
  after (CreationTimestamp (pk_meta a)) (CreationTimestamp (pk_meta b)).

(** The policies of all clusters. *)
Definition of_clusters `{!GoRange} (m : gmap string (list A)) : list A :=
  concat (go_range 0 m).*2.
End IdentityCache.

Definition globalTrafficCache_Put (p : AdmiralParams) :=
  identityCache_Put (A := GlobalTrafficPolicy) p "cannot add an empty globaltrafficpolicy to the cache".
Definition outlierDetectionCache_Put (p : AdmiralParams) :=
  identityCache_Put (A := OutlierDetectionCrd) p "Cannot add an empty outlierdetection to the cache".
Definition clientConnectionSettingsCache_Put (p : AdmiralParams) :=
  identityCache_Put (A := ClientConnectionConfig) p
    "skipped adding to clientConnectionSettingsCache, missing name in clientConnectionSettings".

Definition globalTrafficCache_Delete : string -> string -> identityCache GlobalTrafficPolicy ->
    identityCache GlobalTrafficPolicy * error :=
  identityCache_Delete (fun key => "gtp with key " +:+ key +:+ " not found in cache").
Definition outlierDetectionCache_Delete : string -> string -> identityCache OutlierDetectionCrd ->
    identityCache OutlierDetectionCrd * error :=
  identityCache_Delete (fun key => "OutlierDetection with key " +:+ key +:+ " not found in cache").
Definition clientConnectionSettingsCache_Delete : string -> string -> identityCache ClientConnectionConfig ->
    identityCache ClientConnectionConfig * error :=
  identityCache_Delete (fun key => "clientConnectionSettings with key " +:+ key +:+
    " not found in clientConnectionSettingsCache").

(** [sort.Slice] by [created_after]. *)
Definition sortByCreationTime `{!GoSort} {A} {kind : PolicyKind A} (l : list A) : list A :=
  sort_slice created_after l.

Section Choice.
Context {range : GoRange} {sorting : GoSort} (p : AdmiralParams).

Definition updateGlobalOutlierDetectionCache (identity env : string)
    (outlierDetections : gmap string (list OutlierDetectionCrd))
    (cache : identityCache OutlierDetectionCrd) : identityCache OutlierDetectionCrd :=
  match sortByCreationTime (of_clusters outlierDetections) with
  | [] => (outlierDetectionCache_Delete identity env cache).1
  | mostRecentOd :: _ => (outlierDetectionCache_Put p mostRecentOd cache).1
  end.

Definition updateGlobalClientConnectionConfigCache (identity env : string)
    (clientConnectionSettings : gmap string (list ClientConnectionConfig))
    (cache : identityCache ClientConnectionConfig) : identityCache ClientConnectionConfig * error :=
  if negb (IsClientConnectionConfigProcessingEnabled p) then (cache, None)
  else
    let ordered := of_clusters clientConnectionSettings in
    match (if Nat.ltb 1 (length ordered) then sortByCreationTime ordered else ordered) with
    | [] => ((clientConnectionSettingsCache_Delete identity env cache).1, None)
    | mostRecent :: _ =>
        match clientConnectionSettingsCache_Put p mostRecent cache with
        | (cache', None) => (cache', None)
        | (cache', Some err) =>
            (cache', Some ("error in updating ClientConnectionConfig global cache with name=" +:+
              Name (CccMeta mostRecent) +:+ " in namespace=" +:+ Namespace (CccMeta mostRecent) +:+
              " as actively used for identity=" +:+ identity +:+ " with err=" +:+ err))
        end
    end.

(** ** The workload table *)

(** [WorkloadData]: maps and slices are nil or not. *)
Record WorkloadData := mkWorkloadData {
  wdAssetAlias : string;
  wdEndpoint : string;
  wdEnv : string;
  wdDnsPrefix : string;
  wdLbType : string;
  wdTrafficDistribution : option (gmap string Z);
  wdAliases : option (list string);
  wdGtpManagedBy : string;
  wdGtpId : string;
  wdLastUpdatedAt : string;
  wdSuccessCluster : option (list string);
  wdFailedClusters : option (list string)
}.
#[export] Instance eta_WorkloadData : Settable WorkloadData := fun w =>
  mkWorkloadData (wdAssetAlias w) (wdEndpoint w) (wdEnv w) (wdDnsPrefix w) (wdLbType w) (wdTrafficDistribution w)
    (wdAliases w) (wdGtpManagedBy w) (wdGtpId w) (wdLastUpdatedAt w) (wdSuccessCluster w) (wdFailedClusters w).

(** [AdmiralDatabaseManager]: a [Get] that finds nothing returns a nil interface. *)
Class WorkloadDb (St : Type) := {
  wd_Get : string -> string -> St -> St * (option (list WorkloadData) + string);
  wd_Update : WorkloadData -> St -> St * error
}.

Section Workload.
Context {St : Type} {db : WorkloadDb St}.
(** The digest of the printed record. *)
Context (calculateShasumForWorkloadData : WorkloadData -> string).

(** [cache] is [DynamoDbEndpointUpdateCache]. *)
Definition verifyIfEndpointRecordNeedsUpdate (cache : gmap string string) (serviceEntryHost : string)
    (newWorkloadDataShasum : string) : bool :=
  match cache !! serviceEntryHost with
  | Some existingShaSum => negb (existingShaSum =?s newWorkloadDataShasum)
  | None => true
  end.

Definition wstate : Type := St * gmap string string.

Definition pushWorkloadDataToDynamodbTable (workloadDataToUpdate : WorkloadData) (endpoint : string)
    (s : wstate) : wstate * error :=
  let newWorkloadDataShasum := calculateShasumForWorkloadData workloadDataToUpdate in
  if negb (verifyIfEndpointRecordNeedsUpdate s.2 endpoint newWorkloadDataShasum) then (s, None)
  else
    match wd_Update workloadDataToUpdate s.1 with
    | (st, Some err) => ((st, s.2), Some err)
    | (st, None) => ((st, <[endpoint := newWorkloadDataShasum]> s.2), None)
    end.

Fixpoint push_items (items : list WorkloadData) (s : wstate) : wstate * error :=
  match items with
  | [] => (s, None)
  | item :: rest =>
      if negb (wdDnsPrefix item =?s "default") then
        match pushWorkloadDataToDynamodbTable
                (item <| wdGtpManagedBy := "" |>)
                (wdEndpoint item) s with
        | (s', Some err) => (s', Some err)
        | (s', None) => push_items rest s'
        end
      else push_items rest s
  end.

(** [initialized] is [AdmiralDatabaseClient != nil].  A policy list that is nil and one
    that is empty give different messages in the code, the same one here. *)
Definition handleDynamoDbUpdateForOldGtp (initialized : bool) (oldGtp : option GlobalTrafficPolicy)
    (env identity : string) (s : wstate) : wstate * error :=
  match oldGtp with
  | None => (s, Some "provided globaltrafficpolicy is nil")
  | Some gtp =>
      match GtpPolicy gtp with
      | [] => (s, Some (if is_nil (GtpSelector gtp)
                        then "globaltrafficpolicy " +:+ Name (GtpMeta gtp) +:+ " has a nil spec"
                        else "policies are not defined in globaltrafficpolicy : " +:+ Name (GtpMeta gtp)))
      | _ =>
          if negb initialized then
            (s, Some "dynamodb client for workload data table is not initialized")
          else
            match wd_Get env identity s.1 with
            | (st, inr err) => ((st, s.2), Some err)
            | (st, inl None) => ((st, s.2), None)
            | (st, inl (Some items)) => push_items items (st, s.2)
            end
      end
  end.

(** The preferred region and the error; the other results are the state of the table
    and the cache of the policy in use. *)
Definition updateGlobalGtpCacheAndGetGtpPreferenceRegion (initialized : bool) (identity env : string)
    (gtps : gmap string (list GlobalTrafficPolicy)) (cache : identityCache GlobalTrafficPolicy)
    (s : wstate) : wstate * identityCache GlobalTrafficPolicy * (string * error) :=
  let gtpsOrdered := of_clusters gtps in
  let oldGTP := identityCache_GetFromIdentity cache identity env in
  match (if Nat.ltb 1 (length gtpsOrdered) then SortGtpsByPriorityAndCreationTime p gtpsOrdered
         else gtpsOrdered) with
  | [] =>
      let '(s', err) := match oldGTP with
                        | Some _ => handleDynamoDbUpdateForOldGtp initialized oldGTP env identity s
                        | None => (s, None)
                        end in
      match err with
      | Some e => (s', cache, ("", Some ("failed to update dynamodb data when GTP was deleted for identity=" +:+
                                 identity +:+ " and env=" +:+ env +:+ ", err=" +:+ e)))
      | None => (s', (globalTrafficCache_Delete identity env cache).1, ("", None))
      end
  | mostRecentGtp :: _ =>
      let region := match oldGTP with
                    | Some old => if PreventSplitBrain p then GetGtpPreferenceRegion old mostRecentGtp else ""
                    | None => ""
                    end in
      match globalTrafficCache_Put p mostRecentGtp cache with
      | (cache', None) => (s, cache', (region, None))
      | (cache', Some err) =>
          (s, cache', ("", Some ("error in updating GTP with name=" +:+ Name (GtpMeta mostRecentGtp) +:+
             " in namespace=" +:+ Namespace (GtpMeta mostRecentGtp) +:+
             " as actively used for identity=" +:+ GetGtpKey p mostRecentGtp +:+ " with err=" +:+ err)))
      end
  end.

End Workload.
End Choice.

(** ** Event handlers *)

(** The values of the context that the handlers and [modifySE] read. *)
Record event_ctx := mkCtx {
  ctxClusterName : option string;
  ctxEventResourceType : option string;
  ctxEventType : option EventType;
  ctxTxId : option string
}.
#[export] Instance eta_event_ctx : Settable event_ctx := fun c =>
  mkCtx (ctxClusterName c) (ctxEventResourceType c) (ctxEventType c) (ctxTxId c).

Definition event_name (event : EventType) : string :=
  match event with Add => "Add" | Update => "Update" | Delete => "Delete" end.

(** [LogFormat] and [LogErrFormat]. *)
Definition log_message (op kind name cluster message : string) : string :=
  "op=" +:+ op +:+ " type=" +:+ kind +:+ " name=" +:+ name +:+ " cluster=" +:+ cluster +:+
  " message=" +:+ message.
Definition log_error (op kind name cluster err : string) : string :=
  "op=" +:+ op +:+ " type=" +:+ kind +:+ " name=" +:+ name +:+ " cluster=" +:+ cluster +:+
  " error=" +:+ err.

(** The part of [RegistryClient] that stores custom data: cluster, namespace, name, type
    and transaction, then the object. *)
Class CustomDataRegistry (St A : Type) := {
  PutCustomData : string -> string -> string -> string -> string -> A -> St -> St * error;
  DeleteCustomData : string -> string -> string -> string -> string -> St -> St * error
}.

Section Handlers.
Context {St A : Type} {kind : PolicyKind A} {reg : CustomDataRegistry St A} (p : AdmiralParams).
(** [registry] is [RegistryClient != nil]; [modifySE] the [ModifySEFunc] of the handler:
    context, event, environment, identity. *)
Context (registry : bool).
Context (modifySE : event_ctx -> EventType -> string -> string -> St -> St * error).

(** [callRegistryForGlobalTrafficPolicy], [...OutlierDetection] and
    [...ClientConnectionConfig]; [None] is the panic on a context without transaction. *)
Definition callRegistryForPolicy (resource : string) (ctx : event_ctx) (event : EventType)
    (clusterName : string) (obj : A) (s : St) : option (St * error) :=
  if IsAdmiralStateSyncerMode p && IsStateSyncerCluster p clusterName && registry then
    txId ← ctxTxId ctx;
    let m := pk_meta obj in
    let '(s', err) :=
      match event with
      | Add | Update => PutCustomData clusterName (Namespace m) (Name m) resource txId obj s
      | Delete => DeleteCustomData clusterName (Namespace m) (Name m) resource txId s
      end in
    Some (s', match err with
              | None => None
              | Some e => Some (log_message (event_name event) resource (Name m) clusterName
                  ("failed to " +:+ event_name event +:+ " " +:+ resource +:+ " with err: " +:+ e))
              end)
  else Some (s, None).

(** The tail of the three handlers. *)
Definition register_and_modify (resource : string) (ctx : event_ctx) (event : EventType)
    (clusterName env identity : string) (obj : A) (s : St) : option (St * error) :=
  '(s1, _) ← callRegistryForPolicy resource ctx event clusterName obj s;
  Some (modifySE ctx Update env identity s1).

(** The error of [Added], [Updated] and [Deleted]. *)
Definition wrap_handler_error (op resource cluster : string) (obj : A) (r : option (St * error))
    : option (St * error) :=
  '(s, err) ← r;
  Some (s, match err with
           | Some e => Some (log_error op resource (Name (pk_meta obj)) cluster e)
           | None => None
           end).
End Handlers.

Section KindHandlers.
Context {St : Type} (p : AdmiralParams) (registry : bool).
Context (modifySE : event_ctx -> EventType -> string -> string -> St -> St * error).
Context {gtp_reg : CustomDataRegistry St GlobalTrafficPolicy}
  {od_reg : CustomDataRegistry St OutlierDetectionCrd}
  {ccc_reg : CustomDataRegistry St ClientConnectionConfig}.

Definition HandleEventForGlobalTrafficPolicy (ctx : event_ctx) (event : EventType)
    (gtp : GlobalTrafficPolicy) (clusterName : string) (s : St) : option (St * error) :=
  let globalIdentifier := GetGtpIdentity p gtp in
  if is_empty globalIdentifier then
    Some (s, Some (log_message "Event" "globaltrafficpolicy" (Name (GtpMeta gtp)) clusterName
      ("Skipped as '" +:+ GetWorkloadIdentifier p +:+ " was not found', namespace=" +:+
       Namespace (GtpMeta gtp))))
  else
    let ctx := ctx <| ctxClusterName := Some clusterName |> <| ctxEventResourceType := Some "gtp" |>
                   <| ctxEventType := Some event |> in
    register_and_modify p registry modifySE "globaltrafficpolicy" ctx event clusterName
      (GetGtpEnv p gtp) globalIdentifier gtp s.

Definition HandleEventForOutlierDetection (ctx : event_ctx) (event : EventType)
    (od : OutlierDetectionCrd) (clusterName : string) (s : St) : option (St * error) :=
  let identity := GetODIdentity p od in
  let env := GetODEnv p od in
  if is_empty identity then
    Some (s, Some (log_message "Event" OutlierDetectionType (Name (OdMeta od)) clusterName
      ("Skipped as label " +:+ GetAdmiralCRDIdentityLabel p +:+ " was not found, namespace=" +:+
       Namespace (OdMeta od))))
  else if is_empty env then
    Some (s, Some (log_message "Event" OutlierDetectionType (Name (OdMeta od)) clusterName
      ("Skipped as env " +:+ env +:+ " was not found, namespace=" +:+ Namespace (OdMeta od))))
  else
    let ctx := ctx <| ctxClusterName := Some clusterName |>
                   <| ctxEventResourceType := Some OutlierDetectionType |> in
    register_and_modify p registry modifySE OutlierDetectionType ctx event clusterName env identity od s.

Definition HandleEventForClientConnectionConfig (ctx : event_ctx) (event : EventType)
    (ccc : ClientConnectionConfig) (clusterName : string) (s : St) : option (St * error) :=
  let identity := GetClientConnectionConfigIdentity p ccc in
  let env := GetClientConnectionConfigEnv p ccc in
  if is_empty identity then
    Some (s, Some (log_message "Event" ClientConnectionConfigType (Name (CccMeta ccc)) clusterName
      ("skipped as label " +:+ GetAdmiralCRDIdentityLabel p +:+ " was not found, namespace=" +:+
       Namespace (CccMeta ccc))))
  else if is_empty env then
    Some (s, Some (log_message "Event" ClientConnectionConfigType (Name (CccMeta ccc)) clusterName
      ("skipped as env " +:+ env +:+ " was not found, namespace=" +:+ Namespace (CccMeta ccc))))
  else
    let ctx := ctx <| ctxClusterName := Some clusterName |>
                   <| ctxEventResourceType := Some ClientConnectionConfigType |> in
    register_and_modify p registry modifySE ClientConnectionConfigType ctx event clusterName env identity
      ccc s.

(** [Added], [Updated] and [Deleted] of the three handlers; those of the last two kinds
    hand a deletion on as an update. *)
Definition GlobalTrafficHandler_event (event : EventType) (ctx : event_ctx) (clusterID : string)
    (obj : GlobalTrafficPolicy) (s : St) : option (St * error) :=
  wrap_handler_error
    (match event with Add => "Added" | Update => "Updated" | Delete => "Deleted" end)
    "globaltrafficpolicy" clusterID obj (HandleEventForGlobalTrafficPolicy ctx event obj clusterID s).

Definition OutlierDetectionHandler_event (event : EventType) (ctx : event_ctx) (clusterID : string)
    (obj : OutlierDetectionCrd) (s : St) : option (St * error) :=
  wrap_handler_error (event_name event) OutlierDetectionType clusterID obj
    (HandleEventForOutlierDetection ctx (match event with Add => Add | _ => Update end) obj clusterID s).

Definition ClientConnectionConfigHandler_event (event : EventType) (ctx : event_ctx)
    (clusterID : string) (obj : ClientConnectionConfig) (s : St) : option (St * error) :=
  wrap_handler_error (event_name event) ClientConnectionConfigType clusterID obj
    (HandleEventForClientConnectionConfig ctx (match event with Add => Add | _ => Update end) obj
       clusterID s).
End KindHandlers.

(** ** The live policies of a cluster *)

Inductive policy_event (A : Type) := PPut (obj : A) | PDelete (obj : A) | PStatus (obj : A) (status : string).
Arguments PPut {A} _.
Arguments PDelete {A} _.
Arguments PStatus {A} _ _.

(** Policies by key, namespace and name. *)
Abbreviation livePolicies A := (gmap (string * (string * string)) A).

Section Slots.
Context {A : Type} {kind : PolicyKind A} (p : AdmiralParams).

Definition slot (obj : A) : string * (string * string) :=
  (pk_key p obj, (Namespace (pk_meta obj), Name (pk_meta obj))).

Definition holds (c : policyCache A) (m : livePolicies A) : Prop :=
  forall key ns name, option_map it_policy (cached_item c key ns name) = m !! (key, (ns, name)).

Lemma cached_item_insert (c : policyCache A) key ns items key' ns' name :
  cached_item (<[key := <[ns := items]> (namespaces c key)]> c) key' ns' name =
    if decide ((key', ns') = (key, ns)) then items !! name else cached_item c key' ns' name.
Proof.
  unfold cached_item, namespaces. destruct (decide (key' = key)) as [->|Hk].
  - rewrite lookup_insert_eq. simpl. destruct (decide (ns' = ns)) as [->|Hn].
    + by rewrite lookup_insert_eq, decide_True.
    + rewrite lookup_insert_ne, decide_False by congruence. by destruct (c !! key).
  - by rewrite lookup_insert_ne, decide_False by congruence.
Qed.

Lemma in_namespace_lookup (c : policyCache A) key ns name :
  in_namespace (namespaces c key) ns !! name = cached_item c key ns name.
Proof.
  unfold cached_item, in_namespace, namespaces. destruct (c !! key) as [nss|]; simpl; [|done].
  by destruct (nss !! ns).
Qed.

Lemma slot_eq key ns name obj :
  (key, (ns, name)) = slot obj <->
  (key, ns) = (pk_key p obj, Namespace (pk_meta obj)) /\ name = Name (pk_meta obj).
Proof. unfold slot. split; [intros [= -> -> ->]; done|by intros [[= -> ->] ->]]. Qed.

(** One slot changes, to [v]. *)
Lemma holds_slot c m obj items v :
  holds c m ->
  (forall name, option_map it_policy (items !! name) =
     if decide (name = Name (pk_meta obj)) then v
     else option_map it_policy (cached_item c (pk_key p obj) (Namespace (pk_meta obj)) name)) ->
  holds (<[pk_key p obj := <[Namespace (pk_meta obj) := items]> (namespaces c (pk_key p obj))]> c)
        (partial_alter (fun _ => v) (slot obj) m).
Proof.
  intros Hh Hi key ns name. rewrite cached_item_insert.
  destruct (decide ((key, (ns, name)) = slot obj)) as [E|E].
  - rewrite E, lookup_partial_alter_eq. apply slot_eq in E as [E ->].
    by rewrite decide_True, Hi, decide_True by done.
  - rewrite lookup_partial_alter_ne by congruence. case_decide as Hd.
    + injection Hd as -> ->. rewrite Hi, decide_False, Hh; [done|].
      intros ->. by apply E, slot_eq.
    + apply Hh.
Qed.

Lemma holds_put c m obj :
  holds c m ->
  holds (policyCache_Put p obj c)
    (if ShouldIgnoreResource (pk_meta obj) then delete (slot obj) m else <[slot obj := obj]> m).
Proof.
  intros Hh. unfold policyCache_Put.
  destruct (ShouldIgnoreResource _);
    [change (delete (slot obj) m) with (partial_alter (fun _ => None) (slot obj) m)
    |change (<[slot obj := obj]> m) with (partial_alter (fun _ => Some obj) (slot obj) m)];
    (apply holds_slot; [done|]); intros name; rewrite <- in_namespace_lookup; case_decide as Hd.
  - by rewrite Hd, lookup_delete_eq.
  - by rewrite lookup_delete_ne.
  - by rewrite Hd, lookup_insert_eq.
  - by rewrite lookup_insert_ne.
Qed.

Lemma namespaces_Some (c : policyCache A) key nss : c !! key = Some nss -> namespaces c key = nss.
Proof. unfold namespaces. by intros ->. Qed.

Lemma holds_delete c m obj : holds c m -> holds (policyCache_Delete p obj c) (delete (slot obj) m).
Proof.
  intros Hh. unfold policyCache_Delete.
  assert (cached_item c (pk_key p obj) (Namespace (pk_meta obj)) (Name (pk_meta obj)) = None ->
    holds c (delete (slot obj) m)) as Habs.
  { intros Hn key ns name. rewrite Hh. destruct (decide ((key, (ns, name)) = slot obj)) as [E|E].
    - rewrite E, lookup_delete_eq. unfold slot. by rewrite <- Hh, Hn.
    - by rewrite lookup_delete_ne. }
  destruct (c !! pk_key p obj) as [nss|] eqn:E1; [|apply Habs; unfold cached_item; by rewrite E1].
  destruct (nss !! Namespace (pk_meta obj)) as [items|] eqn:E2;
    [|apply Habs; unfold cached_item; by rewrite E1; simpl; rewrite E2].
  change (delete (slot obj) m) with (partial_alter (fun _ => None) (slot obj) m).
  rewrite <- (namespaces_Some _ _ _ E1). apply holds_slot; [done|]. intros name.
  assert (cached_item c (pk_key p obj) (Namespace (pk_meta obj)) name = items !! name) as ->
    by (unfold cached_item; rewrite E1; simpl; by rewrite E2).
  case_decide as Hd; [by rewrite Hd, lookup_delete_eq|by rewrite lookup_delete_ne].
Qed.

Lemma holds_status c m obj st : holds c m -> holds (policyCache_UpdateStatus p c obj st).1 m.
Proof.
  intros Hh. unfold policyCache_UpdateStatus.
  destruct (c !! pk_key p obj) as [nss|] eqn:E1; [|done].
  destruct (nss !! Namespace (pk_meta obj)) as [items|] eqn:E2; [|done].
  destruct (items !! Name (pk_meta obj)) as [it|] eqn:E3; [|done]. simpl.
  intros key ns name. rewrite <- Hh, <- (namespaces_Some _ _ _ E1), cached_item_insert.
  case_decide as Hd; [|done]. injection Hd as -> ->. unfold cached_item. rewrite E1. simpl.
  rewrite E2. simpl. destruct (decide (name = Name (pk_meta obj))) as [->|Hn].
  - by rewrite lookup_insert_eq, E3.
  - by rewrite lookup_insert_ne.
Qed.

Lemma policyCache_Get_elem `{!GoRange} (c : policyCache A) key ns obj :
  obj ∈ policyCache_Get c key ns <-> exists name, option_map it_policy (cached_item c key ns name) = Some obj.
Proof.
  unfold policyCache_Get. rewrite list_elem_of_In, in_flat_map. setoid_rewrite <- list_elem_of_In.
  split.
  - intros ([ns' items] & Hin & Ho). simpl in Ho. rewrite go_range_elem in Hin.
    destruct (ns =?s ns') eqn:E; sdec; [subst ns'|by apply elem_of_nil in Ho].
    apply list_elem_of_fmap in Ho as ([name it] & -> & Hit). rewrite go_range_elem in Hit.
    exists name. unfold cached_item. unfold namespaces in Hin. destruct (c !! key); [|done].
    simpl in *. rewrite Hin. simpl. by rewrite Hit.
  - intros [name Hn]. unfold cached_item in Hn. destruct (c !! key) as [nss|] eqn:E1; [|done].
    simpl in Hn. destruct (nss !! ns) as [items|] eqn:E2; [|done]. simpl in Hn.
    destruct (items !! name) as [it|] eqn:E3; [|done]. injection Hn as <-.
    exists (ns, items). rewrite go_range_elem, (namespaces_Some _ _ _ E1). split; [done|]. simpl.
    rewrite seqb_refl. apply list_elem_of_fmap. exists (name, it). by rewrite go_range_elem.
Qed.

(** What [odCache.Put] does to the others when an outlier detection is to be ignored:
    those in the namespace that has its name go. *)
Definition od_ignored (obj : A) (m : livePolicies A) : livePolicies A :=
  filter (fun kv => ~ (kv.1.1 = pk_key p obj /\ kv.1.2.1 = Name (pk_meta obj) /\
                       kv.1.2.1 <> Namespace (pk_meta obj))) m.

Lemma od_ignored_lookup (obj : A) (m : livePolicies A) (key ns name : string) :
  od_ignored obj m !! (key, (ns, name)) =
    if decide (key = pk_key p obj /\ ns = Name (pk_meta obj) /\ ns <> Namespace (pk_meta obj))
    then None else m !! (key, (ns, name)).
Proof.
  unfold od_ignored. destruct (m !! (key, (ns, name))) as [o|] eqn:E.
  - case_decide as Hd.
    + apply map_lookup_filter_None_2. right. intros o' _ Hn. by apply Hn.
    + by apply map_lookup_filter_Some_2.
  - rewrite (map_lookup_filter_None_2 _ _ _ (or_introl E)). by case_decide.
Qed.

Lemma cached_item_namespaces (c : policyCache A) key ns name :
  cached_item c key ns name = (items ← namespaces c key !! ns; items !! name).
Proof. unfold cached_item, namespaces. by destruct (c !! key). Qed.

Lemma holds_od_put c m (obj : A) :
  holds c m ->
  holds (odCache_Put p obj c)
    (if ShouldIgnoreResource (pk_meta obj) then od_ignored obj m else <[slot obj := obj]> m).
Proof.
  intros Hh. unfold odCache_Put. pose proof (holds_put c m obj Hh) as Hput. unfold policyCache_Put in Hput.
  destruct (ShouldIgnoreResource _); [|done]. clear Hput. intros key ns name.
  rewrite od_ignored_lookup, <- Hh, cached_item_namespaces. unfold namespaces at 1.
  destruct (decide (key = pk_key p obj)) as [->|Hk];
    [|rewrite lookup_insert_ne by done; rewrite decide_False by tauto; by rewrite cached_item_namespaces].
  rewrite lookup_insert_eq. simpl. destruct (decide (ns = Namespace (pk_meta obj))) as [->|Hns].
  - rewrite lookup_insert_eq. rewrite decide_False by tauto. simpl. by rewrite in_namespace_lookup.
  - rewrite lookup_insert_ne by done. destruct (decide (ns = Name (pk_meta obj))) as [->|Hnm].
    + by rewrite lookup_delete_eq, decide_True.
    + rewrite lookup_delete_ne by done. rewrite decide_False by naive_solver. by rewrite cached_item_namespaces.
Qed.
End Slots.

(** ** The caches of the kinds, and what they promise

    [cache_Put] is the [Put] of the kind's cache and [ignored_step] what it does to the
    live policies when the policy is to be ignored. *)
Class PolicyCacheOps (A : Type) {kind : PolicyKind A} := {
  cache_Put : AdmiralParams -> A -> policyCache A -> policyCache A;
  ignored_step : AdmiralParams -> A -> livePolicies A -> livePolicies A
}.

Class PolicyCacheLaws (A : Type) {kind : PolicyKind A} {ops : PolicyCacheOps A} := {
  put_holds : forall p obj c (m : livePolicies A), holds c m ->
    holds (cache_Put p obj c)
      (if ShouldIgnoreResource (pk_meta obj) then ignored_step p obj m else <[slot p obj := obj]> m);
  ignored_subset : forall p obj (m : livePolicies A), ignored_step p obj m ⊆ m
}.

#[export] Instance gtp_cache : PolicyCacheOps GlobalTrafficPolicy :=
  {| cache_Put := policyCache_Put; ignored_step p obj m := delete (slot p obj) m |}.
#[export] Instance od_cache : PolicyCacheOps OutlierDetectionCrd :=
  {| cache_Put := odCache_Put; ignored_step := od_ignored |}.
#[export] Instance ccc_cache : PolicyCacheOps ClientConnectionConfig :=
  {| cache_Put := policyCache_Put; ignored_step p obj m := delete (slot p obj) m |}.

#[export] Instance gtp_cache_laws : PolicyCacheLaws GlobalTrafficPolicy.
Proof. split; intros; [by apply holds_put|apply delete_subseteq]. Qed.
#[export] Instance od_cache_laws : PolicyCacheLaws OutlierDetectionCrd.
Proof. split; intros; [by apply holds_od_put|apply map_filter_subseteq]. Qed.
#[export] Instance ccc_cache_laws : PolicyCacheLaws ClientConnectionConfig.
Proof. split; intros; [by apply holds_put|apply delete_subseteq]. Qed.

Section Refinement.
Context {A : Type} {kind : PolicyKind A} {ops : PolicyCacheOps A} (p : AdmiralParams).

Definition policy_step (c : policyCache A) (e : policy_event A) : policyCache A :=
  match e with
  | PPut obj => cache_Put p obj c
  | PDelete obj => policyCache_Delete p obj c
  | PStatus obj status => (policyCache_UpdateStatus p c obj status).1
  end.
Definition policy_run (evs : list (policy_event A)) : policyCache A := foldl policy_step ∅ evs.

(** The policy that was put last, unless it asked to be ignored or was deleted since. *)
Definition live_step (m : livePolicies A) (e : policy_event A) : livePolicies A :=
  match e with
  | PPut obj => if ShouldIgnoreResource (pk_meta obj) then ignored_step p obj m else <[slot p obj := obj]> m
  | PDelete obj => delete (slot p obj) m
  | PStatus _ _ => m
  end.
Definition live (evs : list (policy_event A)) : livePolicies A := foldl live_step ∅ evs.

Context {laws : PolicyCacheLaws A}.

Lemma holds_run evs : holds (policy_run evs) (live evs).
Proof using laws.
  unfold policy_run, live. induction evs as [|e evs IH] using rev_ind; [done|].
  rewrite !foldl_app. simpl. destruct e; [by apply put_holds|by apply holds_delete|by apply holds_status].
Qed.

(** Live policies are filed under their own key, namespace and name. *)
Lemma live_slot evs k obj : live evs !! k = Some obj -> k = slot p obj.
Proof using laws.
  unfold live. revert k. induction evs as [|e evs IH] using rev_ind; intros k; [done|].
  rewrite foldl_app. simpl. destruct e as [o|o|o st]; simpl; [|rewrite lookup_delete_Some; intros [_ H]; by apply IH|by apply IH].
  destruct (ShouldIgnoreResource (pk_meta o)) eqn:E.
  - intros Hl. eapply IH, lookup_weaken; [exact Hl|apply ignored_subset].
  - rewrite lookup_insert_Some. intros [[<- <-]|[_ H]]; [done|by apply IH].
Qed.

(** The controller's [Get] returns the live policies of the key and namespace. *)
Lemma get_run_elem {range : GoRange} evs key ns obj :
  obj ∈ policyCache_Get (policy_run evs) key ns <->
  live evs !! slot p obj = Some obj /\ pk_key p obj = key /\ Namespace (pk_meta obj) = ns.
Proof using laws.
  rewrite policyCache_Get_elem. setoid_rewrite (holds_run evs key ns). split.
  - intros [name Hl]. pose proof (live_slot _ _ _ Hl) as E. rewrite E in Hl.
    apply slot_eq in E as [[= -> ->] ->]. done.
  - intros (Hl & <- & <-). by exists (Name (pk_meta obj)).
Qed.

End Refinement.

(** ** Properties *)

Section Properties.
Context {range : GoRange} {sorting : GoSort} (p : AdmiralParams).

Lemma of_clusters_elem {A} (m : gmap string (list A)) x :
  x ∈ of_clusters m <-> exists c l, m !! c = Some l /\ x ∈ l.
Proof.
  unfold of_clusters. rewrite list_elem_of_In, in_concat. setoid_rewrite <- list_elem_of_In. split.
  - intros (l & ([c l'] & -> & Hin)%list_elem_of_fmap & Hx). rewrite go_range_elem in Hin. by exists c, l'.
  - intros (c & l & Hm & Hx). exists l. split; [|done]. apply list_elem_of_fmap. exists (c, l).
    by rewrite go_range_elem.
Qed.

Lemma sort_cons {A} less (l : list A) : l <> [] -> exists x l', sort_slice less l = x :: l'.
Proof.
  intros Hl. destruct (sort_slice less l) as [|x l'] eqn:E; [|by eexists _, _].
  pose proof (sort_slice_perm _ less l) as Hp. rewrite E in Hp. by apply Permutation_nil in Hp.
Qed.

Lemma created_after_strict_weak {A} {kind : PolicyKind A} (l : list A) : strict_weak_on created_after l.
Proof. unfold created_after, after. split; intros *; rewrite ?Z.ltb_ge, ?Z.ltb_lt; lia. Qed.

(** What the caches of the clusters hold for a key: a history and a namespace per
    cluster, and only the non-empty results are kept. *)
Definition gathered {A} {kind : PolicyKind A} {ops : PolicyCacheOps A} (key : string)
    (clusters : gmap string (list (policy_event A) * string)) : gmap string (list A) :=
  omap (fun hn => match policyCache_Get (policy_run p hn.1) key hn.2 with [] => None | l => Some l end)
    clusters.

(** The policy is live in one of the clusters' namespaces. *)
Definition live_somewhere {A} {kind : PolicyKind A} {ops : PolicyCacheOps A} (key : string)
    (clusters : gmap string (list (policy_event A) * string)) (obj : A) : Prop :=
  exists c evs ns, clusters !! c = Some (evs, ns) /\ live p evs !! slot p obj = Some obj /\
    pk_key p obj = key /\ Namespace (pk_meta obj) = ns.

Lemma gathered_elem {A} {kind : PolicyKind A} {ops : PolicyCacheOps A} {laws : PolicyCacheLaws A} key clusters (obj : A) :
  obj ∈ of_clusters (gathered key clusters) <-> live_somewhere key clusters obj.
Proof.
  rewrite of_clusters_elem. unfold gathered, live_somewhere. split.
  - intros (c & l & Hm & Hx). rewrite lookup_omap in Hm.
    destruct (clusters !! c) as [[evs ns]|] eqn:E; [|done]. simpl in Hm.
    exists c, evs, ns. split; [done|]. apply (proj1 (get_run_elem p evs key ns obj)).
    destruct (policyCache_Get _ _ _); [done|]. by injection Hm as <-.
  - intros (c & evs & ns & Hc & Hl). pose proof (proj2 (get_run_elem p evs key ns obj) Hl) as Hg. clear Hl.
    exists c, (policyCache_Get (policy_run p evs) key ns). split; [|done].
    rewrite lookup_omap, Hc. simpl. destruct (policyCache_Get _ _ _); [by apply elem_of_nil in Hg|done].
Qed.

Lemma put_get {A} {kind : PolicyKind A} msg (obj : A) c identity env :
  Name (pk_meta obj) <> "" -> pk_key p obj = ConstructKeyWithEnvAndIdentity env identity ->
  identityCache_GetFromIdentity (identityCache_Put p msg obj c).1 identity env = Some obj.
Proof.
  intros Hn Hk. unfold identityCache_Put, identityCache_GetFromIdentity.
  destruct (Name (pk_meta obj) =?s "") eqn:E; sdec; [done|]. simpl. by rewrite Hk, lookup_insert_eq.
Qed.

Lemma delete_get {A} msg (c : identityCache A) identity env :
  identityCache_GetFromIdentity (identityCache_Delete msg identity env c).1 identity env = None.
Proof.
  unfold identityCache_Delete, identityCache_GetFromIdentity.
  destruct (c !! _) eqn:E; simpl; [by rewrite lookup_delete_eq|done].
Qed.

(** The outlier detection in use.  Whatever the clusters' controllers have seen,
    after [updateGlobalOutlierDetectionCache] over what their caches hold for an
    environment and identity, the cache of that environment and identity holds a live
    outlier detection that no live one is newer than, and none when none is live. *)
Theorem od_in_use (identity env : string)
    (clusters : gmap string (list (policy_event OutlierDetectionCrd) * string))
    (cache : identityCache OutlierDetectionCrd) :
  let key := ConstructKeyWithEnvAndIdentity env identity in
  let cache' := updateGlobalOutlierDetectionCache p identity env (gathered key clusters) cache in
  (forall od, live_somewhere key clusters od -> Name (OdMeta od) <> "") ->
  match identityCache_GetFromIdentity cache' identity env with
  | Some od => live_somewhere key clusters od /\
      forall od', live_somewhere key clusters od' ->
        CreationTimestamp (OdMeta od') <= CreationTimestamp (OdMeta od)
  | None => forall od, ~ live_somewhere key clusters od
  end.
Proof.
  intros key cache' Hn. unfold cache', updateGlobalOutlierDetectionCache, sortByCreationTime.
  destruct (sort_slice created_after (of_clusters (gathered key clusters))) as [|od rest] eqn:E.
  - unfold outlierDetectionCache_Delete. rewrite delete_get. intros od Hl.
    apply gathered_elem in Hl. pose proof (sort_slice_perm _ created_after (of_clusters (gathered key clusters))) as Hp.
    rewrite E in Hp. rewrite <- Hp in Hl. by apply elem_of_nil in Hl.
  - apply sort_slice_head in E as [Hin Hmax]; [|apply created_after_strict_weak].
    apply gathered_elem in Hin. unfold outlierDetectionCache_Put.
    rewrite put_get; [|by apply Hn|by destruct Hin as (? & ? & ? & _ & _ & ? & _)].
    split; [done|]. intros od' Hl. apply gathered_elem, Hmax in Hl.
    unfold created_after, after in Hl. rewrite Z.ltb_ge in Hl. done.
Qed.

Lemma uniform_update_time_sub l l' : (forall x, x ∈ l' -> x ∈ l) -> uniform_update_time l -> uniform_update_time l'.
Proof. intros Hs [H|H]; [left|right]; auto. Qed.

(** The policy that is chosen, and when there is none. *)
Lemma most_recent_gtp l :
  uniform_update_time l ->
  match (if Nat.ltb 1 (length l) then SortGtpsByPriorityAndCreationTime p l else l) with
  | [] => l = []
  | g :: _ => g ∈ l /\ forall h, h ∈ l -> gtp_preferred p g h
  end.
Proof.
  intros Hu. destruct (Nat.ltb 1 (length l)) eqn:Hlen.
  - unfold SortGtpsByPriorityAndCreationTime. apply Nat.ltb_lt in Hlen.
    destruct (sort_cons (gtp_less p) l) as (g & rest & E); [by intros ->; simpl in Hlen; lia|]. rewrite E.
    apply sort_slice_head in E as [Hin Hh]; [|by apply gtp_less_strict_weak].
    split; [done|]. intros h Hh'. by apply gtp_less_false, Hh.
  - apply Nat.ltb_ge in Hlen. destruct l as [|g [|h l]]; simpl in Hlen; [done| |lia].
    split; [by left|]. intros h ->%list_elem_of_singleton. apply gtp_less_false, gtp_less_irrefl.
Qed.

(** C30: The global traffic policy in use.  Whatever the clusters' controllers have
    seen, when all the policies that their caches hold for an environment and identity have
    an update time, or none has, and [updateGlobalGtpCacheAndGetGtpPreferenceRegion] over them
    succeeds, the policy in use is a live one that
    no live one is preferred to (priority first, then update or creation time), and
    there is none when none is live; when it fails, the cache is as it was.  A policy is live
    from the event that puts it under the environment and identity until its deletion, also
    when it is relabelled in between ([relabelled_policy_stays]); with mixed times the order
    has cycles ([gtp_less_cycle]). *)
Theorem gtp_in_use {St} {db : WorkloadDb St} (shasum : WorkloadData -> string) (initialized : bool)
    (identity env : string) (clusters : gmap string (list (policy_event GlobalTrafficPolicy) * string))
    (cache : identityCache GlobalTrafficPolicy) (s : wstate) :
  let key := ConstructKeyWithEnvAndIdentity env identity in
  uniform_update_time (of_clusters (gathered key clusters)) ->
  let '(_, cache', (_, err)) := updateGlobalGtpCacheAndGetGtpPreferenceRegion p shasum initialized
      identity env (gathered key clusters) cache s in
  match err with
  | Some _ => cache' = cache
  | None =>
      match identityCache_GetFromIdentity cache' identity env with
      | Some g => live_somewhere key clusters g /\
          forall h, live_somewhere key clusters h -> gtp_preferred p g h
      | None => forall g, ~ live_somewhere key clusters g
      end
  end.
Proof.
  intros key Hu. unfold updateGlobalGtpCacheAndGetGtpPreferenceRegion. apply most_recent_gtp in Hu.
  destruct (if Nat.ltb _ _ then _ else _) as [|g rest].
  - destruct (match identityCache_GetFromIdentity cache identity env with
              | Some _ => handleDynamoDbUpdateForOldGtp _ _ _ _ _ _ | None => _ end) as [s' [e|]]; [done|].
    unfold globalTrafficCache_Delete. rewrite delete_get. intros g Hg.
    apply gathered_elem in Hg. rewrite Hu in Hg. by apply elem_of_nil in Hg.
  - destruct Hu as [Hin Hmax]. apply gathered_elem in Hin. unfold globalTrafficCache_Put.
    destruct (decide (Name (GtpMeta g) = "")) as [Hn|Hn].
    { unfold identityCache_Put. simpl. by rewrite Hn, seqb_refl. }
    pose proof (put_get "cannot add an empty globaltrafficpolicy to the cache" g cache identity env Hn) as Hg.
    unfold identityCache_Put in *. simpl in *. apply seqb_neq in Hn. rewrite Hn in *. simpl in *.
    rewrite Hg by (by destruct Hin as (? & ? & ? & _ & _ & ? & _)).
    split; [done|]. intros h Hl. by apply Hmax, gathered_elem.
Qed.
End Properties.

(** ** Policies that stay *)

Section Stale.
Context {A : Type} {kind : PolicyKind A} {ops : PolicyCacheOps A} (p : AdmiralParams).

(** An update that changes the environment or the identity of a policy files the new
    version under its new key and leaves the old one live under the old key. *)
Lemma relabelled_policy_stays evs (obj obj' : A) :
  ShouldIgnoreResource (pk_meta obj) = false -> ShouldIgnoreResource (pk_meta obj') = false ->
  pk_key p obj <> pk_key p obj' ->
  live p (evs ++ [PPut obj; PPut obj']) !! slot p obj = Some obj.
Proof.
  intros Hi Hi' Hk. unfold live. rewrite foldl_app. simpl. rewrite Hi, Hi'.
  assert (slot p obj' <> slot p obj) as Hs by (intros [= E _ _]; by apply Hk).
  rewrite lookup_insert_ne by done. by rewrite lookup_insert_eq.
Qed.

(** An outlier detection that is updated to be ignored stays in the cache. *)
Lemma ignored_od_stays `{!GoRange} (c : policyCache A) (od od' : A) :
  slot p od' = slot p od -> ShouldIgnoreResource (pk_meta od) = false ->
  ShouldIgnoreResource (pk_meta od') = true ->
  od ∈ policyCache_Get (odCache_Put p od' (odCache_Put p od c)) (pk_key p od) (Namespace (pk_meta od)).
Proof.
  unfold slot. intros [= Hk Hns Hn] Hi Hi'. apply policyCache_Get_elem. exists (Name (pk_meta od)).
  unfold odCache_Put. rewrite Hi, Hi', Hk, Hns. unfold cached_item.
  rewrite lookup_insert_eq. simpl. rewrite lookup_insert_eq. simpl.
  unfold namespaces, in_namespace. rewrite lookup_insert_eq. simpl.
  rewrite lookup_insert_eq. simpl. by rewrite lookup_insert_eq.
Qed.
End Stale.

(** The deletion of an outlier detection does not depend on how the registry deletes: the
    registry is told to store it. *)
Lemma od_deletion_not_registered {St} p registry modifySE (put : _ -> _ -> _ -> _ -> _ -> OutlierDetectionCrd -> St -> St * error)
    del del' ctx cluster od (s : St) :
  OutlierDetectionHandler_event p registry modifySE
    (od_reg := {| PutCustomData := put; DeleteCustomData := del |}) Delete ctx cluster od s =
  OutlierDetectionHandler_event p registry modifySE
    (od_reg := {| PutCustomData := put; DeleteCustomData := del' |}) Delete ctx cluster od s.
Proof. done. Qed.

(** ** The properties at concrete inputs *)

Definition policy_params : AdmiralParams :=
  Params.zero_AdmiralParams <| Params.LabelSetPtr := Some (Params.zero_LabelSet
    <| Params.EnvKey := "env" |> <| Params.AdmiralCRDIdentityLabel := "identity" |>
    <| Params.PriorityKey := "priority" |>) |>.

Definition sample_meta (name : string) (created : Z) : ObjectMeta :=
  mkMeta name "ns" (Some {[ "env" := "e2e"; "identity" := "foo" ]}) None created "".

Definition sample_od (name : string) (created : Z) : OutlierDetectionCrd :=
  mkOD (sample_meta name created) None None.

Definition sample_gtp (name : string) (created : Z) : GlobalTrafficPolicy :=
  mkGTP (sample_meta name created) [] None.

(** The older policy is in one cluster, the newer one in the other. *)
Definition two_histories {A} (older newer : A) : gmap string (list (policy_event A) * string) :=
  {[ "c1" := ([PPut older], "ns"); "c2" := ([PPut newer], "ns") ]}.

Lemma live_in_two {A} {kind : PolicyKind A} {ops : PolicyCacheOps A} {laws : PolicyCacheLaws A} p key
    (a b obj : A) :
  live_somewhere p key (two_histories a b) obj -> obj = a \/ obj = b.
Proof.
  intros (c & evs & ns & Hc & Hl & _). unfold two_histories in Hc.
  assert (evs = [PPut a] \/ evs = [PPut b]) as Hevs.
  { destruct (decide (c = "c1")) as [->|H1]; [rewrite lookup_insert_eq in Hc; left; congruence|].
    rewrite lookup_insert_ne in Hc by done. apply lookup_singleton_Some in Hc as [_ Hc].
    right. congruence. }
  assert (forall x, live p [PPut x] !! slot p obj = Some obj -> obj = x) as Hx.
  { intros x. unfold live. simpl. destruct (ShouldIgnoreResource _).
    { intros Hw. eapply lookup_weaken in Hw; [|apply ignored_subset]. by rewrite lookup_empty in Hw. }
    rewrite lookup_insert_Some. intros [[_ ->]|[_ H]]; [done|by rewrite lookup_empty in H]. }
  destruct Hevs as [->| ->]; [left|right]; by apply Hx.
Qed.

Lemma od_in_use_witness :
  let clusters := two_histories (sample_od "old" 1) (sample_od "new" 2) in
  match identityCache_GetFromIdentity (updateGlobalOutlierDetectionCache policy_params "foo" "e2e"
          (gathered policy_params "e2e.foo" clusters) ∅) "foo" "e2e" with
  | Some od => live_somewhere policy_params "e2e.foo" clusters od /\
      forall od', live_somewhere policy_params "e2e.foo" clusters od' ->
        CreationTimestamp (OdMeta od') <= CreationTimestamp (OdMeta od)
  | None => forall od, ~ live_somewhere policy_params "e2e.foo" clusters od
  end.
Proof.
  intros clusters. apply (od_in_use policy_params "foo" "e2e" clusters ∅).
  intros od [->| ->]%live_in_two; discriminate.
Defined.

Example od_in_use_newest :
  option_map (fun od => Name (OdMeta od))
    (identityCache_GetFromIdentity (updateGlobalOutlierDetectionCache policy_params "foo" "e2e"
       (gathered policy_params "e2e.foo" (two_histories (sample_od "old" 1) (sample_od "new" 2))) ∅)
       "foo" "e2e") = Some "new".
Proof. vm_compute. reflexivity. Qed.

(** A table that has nothing and takes everything. *)
#[export] Instance no_workloads : WorkloadDb unit := {|
  wd_Get _ _ s := (s, inl None); wd_Update _ s := (s, None)
|}.

Lemma gtp_in_use_witness :
  let clusters := two_histories (sample_gtp "old" 1) (sample_gtp "new" 2) in
  let '(_, cache', (_, err)) := updateGlobalGtpCacheAndGetGtpPreferenceRegion policy_params
      (fun _ => "") true "foo" "e2e" (gathered policy_params "e2e.foo" clusters) ∅ (tt, ∅) in
  match err with
  | Some _ => cache' = ∅
  | None =>
      match identityCache_GetFromIdentity cache' "foo" "e2e" with
      | Some g => live_somewhere policy_params "e2e.foo" clusters g /\
          forall h, live_somewhere policy_params "e2e.foo" clusters h -> gtp_preferred policy_params g h
      | None => forall g, ~ live_somewhere policy_params "e2e.foo" clusters g
      end
  end.
Proof.
  intros clusters. apply (gtp_in_use policy_params (fun _ => "") true "foo" "e2e" clusters ∅ (tt, ∅)).
  right. intros g Hg. apply (gathered_elem policy_params "e2e.foo" clusters), live_in_two in Hg.
  destruct Hg as [->| ->]; vm_compute; reflexivity.
Defined.
