(* ===== verification/AddressStore.v ===== *)
(** * Addresses of service entries: [clusters/serviceentry.go], [clusters/util.go]

    Admiral gives every service entry an address of its own and keeps the
    assignment in a config map that several Admiral processes share.  A process
    reads the config map, picks a free address, and writes the map back; the write
    is refused when the map changed since the read.

    The API server and the YAML library are outside the repository: [ConfigMapClient]
    and [Yaml] are the operations that are called, [ConfigMapLaws] and [YamlLaws]
    what is relied on. *)
From S2P Require Import Prelude GoStrings Config Objects Metadata.
From stdpp Require Import options.
Local Open Scope Z_scope.

(** ** The store and its config map *)

Record ServiceEntryAddressStore := mkStore {
  EntryAddresses : gmap string string;
  Addresses : list string
}.
#[export] Instance Store_eq_dec : EqDecision ServiceEntryAddressStore.
Proof. solve_decision. Defined.

Record ConfigMap := mkConfigMap { CmData : gomap; CmResourceVersion : string }.

Definition store_key := "serviceEntryAddressStore".

(** yaml.Unmarshal may leave either field nil. *)
Class Yaml := {
  yaml_marshal : ServiceEntryAddressStore -> option string;
  yaml_unmarshal : string -> option (gomap * option (list string))
}.

(** The store read back: nil fields become empty. *)
Definition normalize (r : gomap * option (list string)) : ServiceEntryAddressStore :=
  mkStore (default ∅ r.1) (default [] r.2).

Definition empty_store : ServiceEntryAddressStore := mkStore ∅ [].

Class YamlLaws {yaml : Yaml} := {
  yaml_roundtrip : forall st s, yaml_marshal st = Some s ->
    exists r, yaml_unmarshal s = Some r /\ normalize r = st;
  yaml_empty : exists r, yaml_unmarshal "" = Some r /\ normalize r = empty_store
}.

(** The client of the API server, for the one config map that is used: an error is
    [inr msg]; [cm_create] creates it without data. *)
Class ConfigMapClient (St : Type) := {
  cm_get : St -> St * (ConfigMap + string);
  cm_create : St -> St * (ConfigMap + string);
  cm_update : ConfigMap -> St -> St * error
}.

Section Operations.
Context {yaml : Yaml} {St : Type} {client : ConfigMapClient St}.
Context (p : AdmiralParams) (ServiceEntryIPPrefix : string).

(** ** [controller/admiral/configmap.go] *)

Definition GetConfigMap (s : St) : St * (ConfigMap + string) :=
  let '(s1, r) := cm_get s in
  match r with
  | inl configMap => (s1, inl configMap)
  | inr err => if contains err "not found" then cm_create s1 else (s1, inr err)
  end.

Definition PutConfigMap (newMap : ConfigMap) (s : St) : St * error := cm_update newMap s.

Definition GetIPPrefixForServiceEntries : string := ServiceEntryIPPrefix.

(** ** Reading and checking the store *)

Definition GetServiceEntryStateFromConfigmap (configmap : ConfigMap)
    : option ServiceEntryAddressStore :=
  match yaml_unmarshal (mget (CmData configmap) store_key) with
  | None => None
  | Some addressStore => Some (normalize addressStore)
  end.

(** [None] is the nil-pointer panic on a store that does not parse. *)
Definition ValidateConfigmapBeforePutting (cm : ConfigMap) : option error :=
  if is_empty (CmResourceVersion cm) then Some (Some "resourceversion required")
  else
    store ← GetServiceEntryStateFromConfigmap cm;
    Some (if Nat.eqb (size (EntryAddresses store)) (length (Addresses store)) then None
          else Some "address cache length mismatch").

(** ** Choosing an address *)

Definition address_of (prefix : string) (secondIndex firstIndex : Z) : string :=
  prefix +:+ Sep +:+ itoa secondIndex +:+ Sep +:+ itoa firstIndex.

Fixpoint address_loop (fuel : nat) (prefix : string) (addresses : list string)
    (secondIndex firstIndex : Z) : option string :=
  let address := address_of prefix secondIndex firstIndex in
  if Contains addresses address then
    match fuel with
    | O => None
    | S fuel' =>
        if firstIndex <? 255
        then address_loop fuel' prefix addresses secondIndex (firstIndex + 1)
        else address_loop fuel' prefix addresses (secondIndex + 1) 0
    end
  else Some address.

(** The loop of [GenerateNewAddressAndAddToConfigMap]; the candidates are pairwise
    different, so one turn more than there are addresses is enough
    ([new_address_terminates]). *)
Definition new_address (prefix : string) (addresses : list string) : option string :=
  let n := Z.of_nat (length addresses) in
  address_loop (length addresses) prefix addresses (n / 255 + 10) (n mod 255 + 1).

(** What the process does after its read of the config map: return, or write. *)
Inductive gen_result :=
| GenReturn (address : string) (err : error)
| GenPut (address : string) (data : ServiceEntryAddressStore)
| GenDiverge.

Definition gen_compute (seName : string) (cm : ConfigMap) : gen_result :=
  match GetServiceEntryStateFromConfigmap cm with
  | None => GenReturn "" (Some "could not unmarshall configmap yaml")
  | Some newAddressState =>
      match EntryAddresses newAddressState !! seName with
      | Some val => GenReturn val None
      | None =>
          if DisableIPGeneration p then GenReturn "" None
          else
            match new_address GetIPPrefixForServiceEntries (Addresses newAddressState) with
            | None => GenDiverge
            | Some address =>
                GenPut address
                  (mkStore (<[seName := address]> (EntryAddresses newAddressState))
                     (Addresses newAddressState ++ [address]))
            end
      end
  end.

(** The config map that is written, after [ValidateConfigmapBeforePutting]: [inr] is an
    error, [None] a panic. *)
Definition prepare_put (originalConfigmap : ConfigMap) (data : ServiceEntryAddressStore)
    : option (ConfigMap + string) :=
  match yaml_marshal data with
  | None => Some (inr "yaml error")
  | Some bytes =>
      let cm := mkConfigMap (Some (<[store_key := bytes]> (default ∅ (CmData originalConfigmap))))
                  (CmResourceVersion originalConfigmap) in
      err ← ValidateConfigmapBeforePutting cm;
      Some (match err with Some e => inr e | None => inl cm end)
  end.

Definition putServiceEntryStateFromConfigmap (originalConfigmap : ConfigMap)
    (data : ServiceEntryAddressStore) (s : St) : option (St * error) :=
  r ← prepare_put originalConfigmap data;
  Some (match r with
        | inr e => (s, Some e)
        | inl cm => PutConfigMap cm s
        end).

Definition GenerateNewAddressAndAddToConfigMap (seName : string) (s : St)
    : option (St * (string * error)) :=
  let '(s1, r) := GetConfigMap s in
  match r with
  | inr e => Some (s1, ("", Some e))
  | inl cm =>
      match gen_compute seName cm with
      | GenReturn address err => Some (s1, (address, err))
      | GenDiverge => None
      | GenPut address data =>
          '(s2, err) ← putServiceEntryStateFromConfigmap cm data s1;
          Some (s2, match err with Some e => ("", Some e) | None => (address, None) end)
      end
  end.

(** ** The local cache and the retries *)

(** The address, whether the cache must be reloaded, and the error. *)
Definition GetLocalAddressForSe (seName : string) (seAddressCache : ServiceEntryAddressStore) (s : St)
    : option (St * (string * bool * error)) :=
  let address := default "" (EntryAddresses seAddressCache !! seName) in
  if negb (is_empty address) then Some (s, (address, false, None))
  else if DisableIPGeneration p then Some (s, ("", false, None))
  else
    '(s', (address, err)) ← GenerateNewAddressAndAddToConfigMap seName s;
    Some (s', (address, true, err)).

Definition loadServiceEntryCacheData (cache : ServiceEntryAddressStore) (s : St)
    : St * ServiceEntryAddressStore :=
  let '(s', r) := GetConfigMap s in
  match r with
  | inr _ => (s', cache)
  | inl configmap =>
      match GetServiceEntryStateFromConfigmap configmap with
      | Some entryCache => (s', entryCache)
      | None => (s', cache)
      end
  end.

(** The retry loop; the sleeps between the calls have no effect on the state. *)
Fixpoint unique_address_loop (tries : nat) (seName : string) (cache : ServiceEntryAddressStore)
    (last : string * bool * error) (s : St) : option (St * (string * bool * error)) :=
  match tries with
  | O => Some (s, last)
  | S tries' =>
      '(s', r) ← GetLocalAddressForSe seName cache s;
      let '(address, _, err) := r in
      if negb (is_empty address) then Some (s', r)
      else if is_nil err && DisableIPGeneration p then Some (s', r)
      else unique_address_loop tries' seName cache r s'
  end.

Definition getIstioResourceName (host suffix : string) : string := to_lower host +:+ suffix.

Definition maxRetries : nat := 3.

(** The new state, the new local cache, the address and the error. *)
Definition getUniqueAddress (globalFqdn : string) (cache : ServiceEntryAddressStore) (s : St)
    : option (St * ServiceEntryAddressStore * (string * error)) :=
  '(s1, (address, needsCacheUpdate, err)) ←
    unique_address_loop maxRetries (getIstioResourceName globalFqdn "-se") cache ("", false, None) s;
  match err with
  | Some _ =>
      Some (s1, cache, (address, Some ("could not get unique address after 3 retries. Failing to create serviceentry name="
                                       +:+ globalFqdn)))
  | None =>
      if (needsCacheUpdate : bool)
      then let '(s2, cache') := loadServiceEntryCacheData cache s1 in Some (s2, cache', (address, None))
      else Some (s1, cache, (address, None))
  end.

End Operations.

(** ** Termination of the search *)

Fixpoint candidates (n : nat) (secondIndex firstIndex : Z) : list (Z * Z) :=
  match n with
  | O => []
  | S n' => (secondIndex, firstIndex) ::
      (if firstIndex <? 255 then candidates n' secondIndex (firstIndex + 1)
       else candidates n' (secondIndex + 1) 0)
  end.

Lemma candidates_length n s f : length (candidates n s f) = n.
Proof. revert s f. induction n as [|n IH]; intros s f; simpl; [done|]. case_match; by rewrite IH. Qed.

Lemma candidates_range n s f s' f' :
  0 <= s -> 0 <= f <= 255 -> (s', f') ∈ candidates n s f ->
  0 <= s' /\ 0 <= f' <= 255 /\ 256 * s + f <= 256 * s' + f'.
Proof.
  revert s f. induction n as [|n IH]; intros s f Hs Hf; simpl; [by intros ?%elem_of_nil|].
  rewrite elem_of_cons. intros [[= -> ->]|Hin]; [lia|].
  destruct (Z.ltb_spec f 255); apply IH in Hin; lia.
Qed.

Lemma candidates_NoDup n s f : 0 <= s -> 0 <= f <= 255 -> NoDup (candidates n s f).
Proof.
  revert s f. induction n as [|n IH]; intros s f Hs Hf; simpl; constructor.
  - intros Hin. destruct (Z.ltb_spec f 255); apply candidates_range in Hin; lia.
  - destruct (Z.ltb_spec f 255); apply IH; lia.
Qed.

Lemma address_of_inj prefix s f s' f' :
  0 <= s -> 0 <= s' -> address_of prefix s f = address_of prefix s' f' -> s = s' /\ f = f'.
Proof.
  intros Hs Hs' H. apply sapp_inj_l in H. simpl in H. injection H as H.
  apply sep_inj in H as [H1 H2]; [|by apply itoa_no_dot|by apply itoa_no_dot].
  split; by apply itoa_inj.
Qed.

Lemma address_loop_some fuel prefix taken s f a :
  address_loop fuel prefix taken s f = Some a -> a ∉ taken.
Proof.
  revert s f. induction fuel as [|fuel IH]; intros s f; simpl; unfold Contains;
    destruct (str_in _ taken) eqn:E; try done; try (by intros [= <-]; apply str_in_false).
  case_match; apply IH.
Qed.

Lemma address_loop_none fuel prefix taken s f :
  address_loop fuel prefix taken s f = None ->
  forall s' f', (s', f') ∈ candidates (S fuel) s f -> address_of prefix s' f' ∈ taken.
Proof.
  revert s f. induction fuel as [|fuel IH]; intros s f H s' f' Hin; simpl in H; unfold Contains in H;
    destruct (str_in (address_of prefix s f) taken) eqn:E; try done; apply str_in_spec in E;
    cbn [candidates] in Hin; apply elem_of_cons in Hin as [[= -> ->]|Hin]; try done.
  - case_match; by apply elem_of_nil in Hin.
  - case_match; by eapply IH.
Qed.

Lemma address_loop_total prefix taken s f :
  0 <= s -> 0 <= f <= 255 -> exists a, address_loop (length taken) prefix taken s f = Some a.
Proof.
  intros Hs Hf. destruct (address_loop _ _ _ _ _) as [a|] eqn:E; [by exists a|exfalso].
  pose proof (address_loop_none _ _ _ _ _ E) as Hall.
  set (cs := candidates (S (length taken)) s f) in Hall.
  set (as_ := map (fun c => address_of prefix c.1 c.2) cs).
  assert (NoDup as_) as Hnd.
  { apply NoDup_fmap_2_strong; [|by apply candidates_NoDup].
    intros [s1 f1] [s2 f2] H1%candidates_range H2%candidates_range Heq; [|done..]. simpl in Heq.
    apply address_of_inj in Heq as [-> ->]; [done|lia|lia]. }
  assert (as_ ⊆+ taken) as Hsub.
  { apply NoDup_submseteq; [done|]. intros a (c & -> & Hc)%list_elem_of_fmap.
    destruct c. by apply Hall. }
  apply submseteq_length in Hsub. unfold as_ in Hsub.
  rewrite length_map in Hsub. unfold cs in Hsub. rewrite candidates_length in Hsub. lia.
Qed.

Lemma new_address_total prefix addresses :
  exists a, new_address prefix addresses = Some a /\ a ∉ addresses.
Proof.
  unfold new_address.
  destruct (address_loop_total prefix addresses (Z.of_nat (length addresses) / 255 + 10)
    (Z.of_nat (length addresses) mod 255 + 1)) as [a Ha].
  - pose proof (Z.div_pos (Z.of_nat (length addresses)) 255). lia.
  - pose proof (Z.mod_pos_bound (Z.of_nat (length addresses)) 255). lia.
  - exists a. split; [done|]. by eapply address_loop_some.
Qed.

(** The search for a free address ends, whatever addresses are taken, with an
    address that is not taken. *)
Theorem new_address_terminates prefix addresses :
  exists a, new_address prefix addresses = Some a /\ a ∉ addresses.
Proof. apply new_address_total. Qed.

(** ** The shared store under concurrent processes *)

(** The store's invariant: every entry has an address of its own, the list holds exactly
    the addresses of the entries, and no address is empty. *)
Record store_ok (st : ServiceEntryAddressStore) : Prop := {
  ok_nodup : NoDup (Addresses st);
  ok_size : size (EntryAddresses st) = length (Addresses st);
  ok_in : forall se a, EntryAddresses st !! se = Some a -> a ∈ Addresses st;
  ok_inj : forall se se' a, EntryAddresses st !! se = Some a -> EntryAddresses st !! se' = Some a -> se = se';
  ok_nonempty : forall a, a ∈ Addresses st -> a <> ""
}.

Lemma empty_store_ok : store_ok empty_store.
Proof.
  split; simpl; [constructor|done|..]; intros *; rewrite ?lookup_empty; try done.
  by intros ?%elem_of_nil.
Qed.

(** [st'] is [st] with one new entry under a new address. *)
Definition extends_by (se a : string) (st st' : ServiceEntryAddressStore) : Prop :=
  EntryAddresses st !! se = None /\ a ∉ Addresses st /\ a <> "" /\
  st' = mkStore (<[se := a]> (EntryAddresses st)) (Addresses st ++ [a]).

Lemma extends_by_ok se a st st' : extends_by se a st st' -> store_ok st -> store_ok st'.
Proof.
  intros (Hse & Ha & Hne & ->) [Hnd Hsz Hin Hinj Hem]. split; simpl.
  - apply NoDup_app. split_and!; [done| |repeat constructor; by intros ?%elem_of_nil].
    intros x Hx. rewrite list_elem_of_singleton. by intros ->.
  - rewrite map_size_insert_None, length_app by done. simpl. lia.
  - intros s b. rewrite lookup_insert_Some, elem_of_app, list_elem_of_singleton.
    intros [[_ <-]|[_ ?]]; [by right|left; by eapply Hin].
  - intros s s' b. rewrite !lookup_insert_Some.
    intros [[<- <-]|[? H1]] [[<- E]|[? H2]]; try done.
    + exfalso. apply Ha. by eapply Hin.
    + subst. exfalso. apply Ha. by eapply Hin.
    + by eapply Hinj.
  - intros b. rewrite elem_of_app, list_elem_of_singleton. intros [? | ->]; [by apply Hem|done].
Qed.

Lemma address_loop_nonempty fuel prefix taken s f a :
  address_loop fuel prefix taken s f = Some a -> a <> "".
Proof.
  revert s f. induction fuel as [|fuel IH]; intros s f; simpl; destruct (Contains taken _); try done.
  - intros [= <-]. unfold address_of. by destruct prefix.
  - case_match; apply IH.
  - intros [= <-]. unfold address_of. by destruct prefix.
Qed.

Section Concurrency.
Context {yaml : Yaml} {yaml_laws : YamlLaws} (p : AdmiralParams) (prefix : string).

Lemma gen_compute_put se cm a data :
  gen_compute p prefix se cm = GenPut a data ->
  exists st, GetServiceEntryStateFromConfigmap cm = Some st /\ extends_by se a st data.
Proof.
  unfold gen_compute. destruct (GetServiceEntryStateFromConfigmap cm) as [st|]; [|done].
  destruct (EntryAddresses st !! se) eqn:E; [done|]. destruct (DisableIPGeneration p); [done|].
  unfold GetIPPrefixForServiceEntries.
  destruct (new_address prefix (Addresses st)) as [a'|] eqn:Ea; [|done].
  intros [= <- <-]. exists st. split; [done|]. split_and!; [done| | |done].
  - by eapply address_loop_some.
  - by eapply address_loop_nonempty.
Qed.

Lemma prepare_put_spec cm data cm' :
  prepare_put cm data = Some (inl cm') ->
  CmResourceVersion cm' = CmResourceVersion cm /\ GetServiceEntryStateFromConfigmap cm' = Some data.
Proof using yaml_laws.
  unfold prepare_put. destruct (yaml_marshal data) as [bytes|] eqn:Eb; [|done].
  destruct (yaml_roundtrip _ _ Eb) as (r & Hr & Hn).
  destruct (ValidateConfigmapBeforePutting _) as [[e|]|]; [done| |done].
  intros [= <-]. split; [done|]. unfold GetServiceEntryStateFromConfigmap, mget. simpl.
  by rewrite lookup_insert_eq; simpl; rewrite Hr, Hn.
Qed.

Lemma gen_compute_return se cm a :
  gen_compute p prefix se cm = GenReturn a None -> a <> "" ->
  exists st, GetServiceEntryStateFromConfigmap cm = Some st /\ EntryAddresses st !! se = Some a.
Proof.
  unfold gen_compute. destruct (GetServiceEntryStateFromConfigmap cm) as [st|]; [|done].
  destruct (EntryAddresses st !! se) eqn:E; [intros [= <-] _; by exists st|].
  destruct (DisableIPGeneration p); [by intros [= <-]|]. by case_match.
Qed.

Lemma gen_compute_no_diverge se cm : gen_compute p prefix se cm <> GenDiverge.
Proof.
  unfold gen_compute. repeat case_match; try done.
  unfold GetIPPrefixForServiceEntries in *.
  by destruct (new_address_total prefix (Addresses s)) as (a & Ha & _); simplify_eq.
Qed.

(** What is relied on of the API server: the config map has a revision that grows with
    every write and whose text is its resource version; an update goes through only
    with the current resource version (optimistic concurrency), and even one that
    reports an error either left the object alone or wrote what it was given. *)
Context {St : Type} {client : ConfigMapClient St}.

Record ConfigMapLaws := {
  cm_view : St -> option ConfigMap;  (* the stored object *)
  cm_rev : St -> nat;
  cm_vstr : nat -> string;
  law_vstr_inj : forall a b, cm_vstr a = cm_vstr b -> a = b;
  law_view_version : forall s cm, cm_view s = Some cm -> CmResourceVersion cm = cm_vstr (cm_rev s);
  law_get : forall s, cm_view (cm_get s).1 = cm_view s /\ cm_rev (cm_get s).1 = cm_rev s /\
    forall cm, (cm_get s).2 = inl cm -> cm_view s = Some cm;
  law_create : forall s,
    ((cm_view (cm_create s).1 = cm_view s /\ cm_rev (cm_create s).1 = cm_rev s) \/
     (cm_view s = None /\ (cm_rev s < cm_rev (cm_create s).1)%nat /\
      exists cm, cm_view (cm_create s).1 = Some cm /\ mget (CmData cm) store_key = "")) /\
    forall cm, (cm_create s).2 = inl cm -> cm_view (cm_create s).1 = Some cm;
  law_update : forall cm s,
    (cm_view (cm_update cm s).1 = cm_view s /\ cm_rev (cm_update cm s).1 = cm_rev s /\
     (cm_update cm s).2 <> None) \/
    (exists old cm', cm_view s = Some old /\ CmResourceVersion old = CmResourceVersion cm /\
       cm_view (cm_update cm s).1 = Some cm' /\ CmData cm' = CmData cm /\
       (cm_rev s < cm_rev (cm_update cm s).1)%nat)
}.

Context (laws : ConfigMapLaws).

(** The store that the server holds; nothing stored yet is the empty store. *)
Definition server_store (s : St) : option ServiceEntryAddressStore :=
  match cm_view laws s with
  | None => Some empty_store
  | Some cm => GetServiceEntryStateFromConfigmap cm
  end.

(** A process is idle or holds the config map it is about to write. *)
Inductive process :=
| Idle
| Writing (seName address : string) (cm : ConfigMap).

(** The system: the server, the processes, and the addresses handed out so far. *)
Record system := mkSystem {
  sys_server : St;
  sys_procs : gmap nat process;
  sys_given : list (string * string)
}.

(** The two halves of [GenerateNewAddressAndAddToConfigMap], each atomic at the server;
    processes interleave between them. *)
Inductive sys_step : system -> system -> Prop :=
| StepRead i se x s' r :
    GetConfigMap (sys_server x) = (s', inl r) ->
    forall a data cm, gen_compute p prefix se r = GenPut a data ->
    prepare_put r data = Some (inl cm) ->
    sys_step x (mkSystem s' (<[i := Writing se a cm]> (sys_procs x)) (sys_given x))
| StepReadKnown i se x s' r a :
    GetConfigMap (sys_server x) = (s', inl r) ->
    gen_compute p prefix se r = GenReturn a None -> a <> "" ->
    sys_step x (mkSystem s' (<[i := Idle]> (sys_procs x)) ((se, a) :: sys_given x))
| StepReadFail i x s' :
    (GetConfigMap (sys_server x)).1 = s' ->
    sys_step x (mkSystem s' (<[i := Idle]> (sys_procs x)) (sys_given x))
| StepWrite i se a cm x s' :
    sys_procs x !! i = Some (Writing se a cm) ->
    PutConfigMap cm (sys_server x) = (s', None) ->
    sys_step x (mkSystem s' (<[i := Idle]> (sys_procs x)) ((se, a) :: sys_given x))
| StepWriteFail i se a cm x s' e :
    sys_procs x !! i = Some (Writing se a cm) ->
    PutConfigMap cm (sys_server x) = (s', Some e) ->
    sys_step x (mkSystem s' (<[i := Idle]> (sys_procs x)) (sys_given x)).

(** A write that is still current extends the store by its entry. *)
Definition writing_ok (s : St) (pr : process) : Prop :=
  match pr with
  | Idle => True
  | Writing se a cm =>
      (exists v, (v <= cm_rev laws s)%nat /\ CmResourceVersion cm = cm_vstr laws v) /\
      (CmResourceVersion cm = cm_vstr laws (cm_rev laws s) -> cm_view laws s <> None ->
       exists st st', server_store s = Some st /\ GetServiceEntryStateFromConfigmap cm = Some st' /\
         extends_by se a st st')
  end.

Record sys_ok (x : system) : Prop := {
  sys_store : exists st, server_store (sys_server x) = Some st /\ store_ok st /\
    forall se a, (se, a) ∈ sys_given x -> EntryAddresses st !! se = Some a;
  sys_writing : forall i pr, sys_procs x !! i = Some pr -> writing_ok (sys_server x) pr
}.

Inductive sys_reach : system -> system -> Prop :=
| ReachRefl x : sys_reach x x
| ReachStep x y z : sys_reach x y -> sys_step y z -> sys_reach x z.

(** The server's state moved on: it is the same object, or a later revision. *)
Definition later (s s' : St) : Prop :=
  (cm_view laws s' = cm_view laws s /\ cm_rev laws s' = cm_rev laws s) \/
  (cm_rev laws s < cm_rev laws s')%nat.

Lemma writing_ok_later s s' pr : later s s' -> writing_ok s pr -> writing_ok s' pr.
Proof.
  destruct pr as [|se a cm]; [done|]. simpl. intros Hl [(v & Hv & Ev) Hw].
  destruct Hl as [[Hview Hrev]|Hlt].
  - unfold server_store. rewrite Hview, Hrev. split; [by exists v|exact Hw].
  - split; [exists v; split; [lia|done]|]. rewrite Ev.
    intros E%(law_vstr_inj laws). lia.
Qed.

Lemma get_frame s :
  server_store (GetConfigMap s).1 = server_store s /\ later s (GetConfigMap s).1 /\
  forall r, (GetConfigMap s).2 = inl r -> cm_view laws (GetConfigMap s).1 = Some r.
Proof using yaml_laws.
  unfold GetConfigMap. destruct (law_get laws s) as (Hv & Hr & Hg).
  destruct (cm_get s) as [s1 [cm|err]]; simpl in *.
  { unfold server_store, later. rewrite Hv. split_and!; [done|by left|].
    intros r [= <-]. by apply Hg. }
  destruct (contains err "not found"); simpl.
  2: { unfold server_store, later. rewrite Hv. split_and!; [done|by left|done]. }
  destruct (law_create laws s1) as [Hc Hi]. split; [|split; [|done]].
  - unfold server_store. destruct Hc as [[-> _]|(Hn & _ & cm & -> & Hk)]; [by rewrite Hv|].
    rewrite <- Hv, Hn. unfold GetServiceEntryStateFromConfigmap. rewrite Hk.
    destruct yaml_empty as (r & -> & ->). done.
  - unfold later. destruct Hc as [[-> ->]|(Hn & Hlt & _)]; [by left|right; lia].
Qed.

Lemma update_frame cm s : later s (PutConfigMap cm s).1.
Proof.
  unfold PutConfigMap, later.
  destruct (law_update laws cm s) as [(-> & -> & _)|(old & cm' & _ & _ & _ & _ & ?)]; auto.
Qed.

(** A write keeps the store well-formed and every assignment in it; one that is accepted
    adds its own. *)
Lemma update_store se a cm s st :
  writing_ok s (Writing se a cm) -> server_store s = Some st -> store_ok st ->
  exists st', server_store (PutConfigMap cm s).1 = Some st' /\ store_ok st' /\
    (forall se' a', EntryAddresses st !! se' = Some a' -> EntryAddresses st' !! se' = Some a') /\
    ((PutConfigMap cm s).2 = None -> EntryAddresses st' !! se = Some a).
Proof.
  intros [_ Hw] Hst Hok. unfold PutConfigMap.
  destruct (law_update laws cm s) as [(Hv & _ & He)|(old & cm' & Ho & Hver & Hn & Hd & _)].
  { exists st. unfold server_store in *. rewrite Hv. split_and!; [done|done|done|]. by intros ?. }
  destruct Hw as (st0 & st' & H0 & Hdec & Hext).
  { rewrite <- Hver. by apply law_view_version. }
  { by rewrite Ho. }
  rewrite Hst in H0. injection H0 as <-. exists st'. split_and!.
  - unfold server_store. rewrite Hn. unfold GetServiceEntryStateFromConfigmap in *. by rewrite Hd.
  - by eapply extends_by_ok.
  - destruct Hext as (Hse & _ & _ & ->). intros se' a' H. simpl.
    rewrite lookup_insert_ne; [done|]. intros ->. congruence.
  - intros _. destruct Hext as (_ & _ & _ & ->). simpl. by rewrite lookup_insert_eq.
Qed.

Lemma procs_later (procs : gmap nat process) i pr s s' :
  later s s' -> (forall j q, procs !! j = Some q -> writing_ok s q) -> writing_ok s' pr ->
  forall j q, <[i := pr]> procs !! j = Some q -> writing_ok s' q.
Proof.
  intros Hl Hp Hpr j q. rewrite lookup_insert_Some. intros [[_ <-]|[_ H]]; [done|].
  eapply writing_ok_later; [done|]. by eapply Hp.
Qed.

Lemma sys_step_ok x y : sys_ok x -> sys_step x y -> sys_ok y.
Proof using yaml_laws.
  intros [(st & Hst & Hok & Hgiven) Hp] Hstep.
  destruct Hstep as [i se x s' r Hget a data cm Hc Hpre|i se x s' r a Hget Hc Hne|i x s' Hget
    |i se a cm x s' Hi Hput|i se a cm x s' e Hi Hput]; simpl in *.
  - destruct (get_frame (sys_server x)) as (Hs & Hl & Hv). rewrite Hget in Hs, Hl, Hv. simpl in *.
    split; simpl; [exists st; by rewrite Hs|]. eapply procs_later; [done..|].
    specialize (Hv r eq_refl). simpl. apply prepare_put_spec in Hpre as [Hver Hdec].
    pose proof (law_view_version laws _ _ Hv) as Hrv. split.
    { exists (cm_rev laws s'). split; [done|congruence]. }
    intros _ _. destruct (gen_compute_put _ _ _ _ Hc) as (st0 & H0 & Hext).
    exists st0, data. unfold server_store. rewrite Hv. done.
  - destruct (get_frame (sys_server x)) as (Hs & Hl & Hv). rewrite Hget in Hs, Hl, Hv. simpl in *.
    specialize (Hv r eq_refl).
    split; simpl; [|by eapply procs_later]. exists st. rewrite Hs. split_and!; [done|done|].
    intros se' a'. rewrite elem_of_cons. intros [[= -> ->]|?]; [|by apply Hgiven].
    destruct (gen_compute_return _ _ _ Hc Hne) as (st0 & H0 & Hl0).
    rewrite <- Hs in Hst. unfold server_store in Hst. rewrite Hv in Hst. congruence.
  - destruct (get_frame (sys_server x)) as (Hs & Hl & _). rewrite Hget in Hs, Hl.
    split; simpl; [exists st; by rewrite Hs|by eapply procs_later].
  - destruct (update_store se a cm (sys_server x) st) as (st' & Hs' & Hok' & Hmono & Hadd);
      [by eapply Hp|done|done|].
    pose proof (update_frame cm (sys_server x)) as Hl. rewrite Hput in *. simpl in *.
    split; simpl; [|by eapply procs_later]. exists st'. split_and!; [done|done|].
    intros se' a'. rewrite elem_of_cons. intros [[= -> ->]|Hin]; [by apply Hadd|by apply Hmono, Hgiven].
  - destruct (update_store se a cm (sys_server x) st) as (st' & Hs' & Hok' & Hmono & _);
      [by eapply Hp|done|done|].
    pose proof (update_frame cm (sys_server x)) as Hl. rewrite Hput in *. simpl in *.
    split; simpl; [|by eapply procs_later]. exists st'. split_and!; [done|done|].
    intros se' a' Hin. by apply Hmono, Hgiven.
Qed.

Lemma sys_reach_ok x y : sys_ok x -> sys_reach x y -> sys_ok y.
Proof using yaml_laws.
  intros Hx Hr. induction Hr as [|x y z _ IH Hs]; [done|]. eapply sys_step_ok; [|done]. by apply IH.
Qed.

(** ** One process: totality and result *)

Lemma prepare_put_total cm data : prepare_put cm data <> None.
Proof using yaml_laws.
  unfold prepare_put. destruct (yaml_marshal data) as [bytes|] eqn:Eb; [|done].
  destruct (yaml_roundtrip _ _ Eb) as (r & Hr & Hn).
  unfold ValidateConfigmapBeforePutting, GetServiceEntryStateFromConfigmap, mget. simpl.
  rewrite lookup_insert_eq. simpl. rewrite Hr. by destruct (is_empty _).
Qed.

(** The call is a read step, or a read and a write step, of the system. *)
Lemma generate_steps se s procs given s' a err :
  GenerateNewAddressAndAddToConfigMap p prefix se s = Some (s', (a, err)) ->
  sys_reach (mkSystem s procs given)
    (mkSystem s' (<[0%nat := Idle]> procs)
       (if is_nil err && negb (is_empty a) then (se, a) :: given else given)).
Proof.
  unfold GenerateNewAddressAndAddToConfigMap.
  destruct (GetConfigMap s) as [s1 [cm|e]] eqn:Hg.
  2: { intros [= <- <- <-]. simpl. eapply ReachStep; [apply ReachRefl|].
       apply (StepReadFail 0 (mkSystem s procs given)). simpl. by rewrite Hg. }
  destruct (gen_compute p prefix se cm) as [a0 e0|a0 data|] eqn:Hc; [| |done].
  - intros [= <- <- <-]. eapply ReachStep; [apply ReachRefl|].
    destruct e0 as [e0|]; simpl.
    { apply (StepReadFail 0 (mkSystem s procs given)). simpl. by rewrite Hg. }
    destruct (is_empty a0) eqn:E; simpl.
    { apply (StepReadFail 0 (mkSystem s procs given)). simpl. by rewrite Hg. }
    apply (StepReadKnown 0 se (mkSystem s procs given) s1 cm a0); [done|done|].
    by apply is_empty_false.
  - unfold putServiceEntryStateFromConfigmap.
    destruct (prepare_put cm data) as [[cm'|e]|] eqn:Hp; simpl; [| |done].
    + destruct (PutConfigMap cm' s1) as [s2 [e|]] eqn:Hput; intros [= <- <- <-]; simpl.
      * eapply ReachStep; [eapply ReachStep; [apply ReachRefl|]|].
        { by apply (StepRead 0 se (mkSystem s procs given) s1 cm Hg a0 data cm'). }
        rewrite <- (insert_insert_eq procs 0%nat Idle (Writing se a0 cm')).
        apply (StepWriteFail 0 se a0 cm' (mkSystem s1 _ given) s2 e); [apply lookup_insert_eq|done].
      * destruct (gen_compute_put _ _ _ _ Hc) as (st & _ & _ & _ & Hne & _).
        apply is_empty_false in Hne. rewrite Hne. simpl.
        eapply ReachStep; [eapply ReachStep; [apply ReachRefl|]|].
        { by apply (StepRead 0 se (mkSystem s procs given) s1 cm Hg a0 data cm'). }
        rewrite <- (insert_insert_eq procs 0%nat Idle (Writing se a0 cm')).
        apply (StepWrite 0 se a0 cm' (mkSystem s1 _ given) s2); [apply lookup_insert_eq|done].
    + intros [= <- <- <-]. simpl. eapply ReachStep; [apply ReachRefl|].
      apply (StepReadFail 0 (mkSystem s procs given)). simpl. by rewrite Hg.
Qed.

Lemma generate_total se s : GenerateNewAddressAndAddToConfigMap p prefix se s <> None.
Proof using yaml_laws.
  unfold GenerateNewAddressAndAddToConfigMap. destruct (GetConfigMap s) as [s1 [cm|e]]; [|done].
  pose proof (gen_compute_no_diverge se cm). destruct (gen_compute p prefix se cm); try done.
  unfold putServiceEntryStateFromConfigmap. pose proof (prepare_put_total cm data).
  destruct (prepare_put cm data) as [[cm'|e]|]; simpl; try done. by destruct (PutConfigMap cm' s1).
Qed.

(** The server holds a well-formed store. *)
Definition server_ok (s : St) : Prop := exists st, server_store s = Some st /\ store_ok st.

Lemma gen_compute_enabled se cm a :
  DisableIPGeneration p = false -> gen_compute p prefix se cm = GenReturn a None ->
  exists st, GetServiceEntryStateFromConfigmap cm = Some st /\ EntryAddresses st !! se = Some a.
Proof.
  intros Hip. unfold gen_compute. destruct (GetServiceEntryStateFromConfigmap cm) as [st|]; [|done].
  destruct (EntryAddresses st !! se) eqn:E; [intros [= <-]; by exists st|].
  rewrite Hip. by case_match.
Qed.

Lemma store_ok_nonempty st se a : store_ok st -> EntryAddresses st !! se = Some a -> a <> "".
Proof. intros Hok H. eapply ok_nonempty; [done|]. by eapply ok_in. Qed.

(** The address that a call without error returns is not empty. *)
Lemma generate_nonempty se s s' a :
  DisableIPGeneration p = false -> server_ok s ->
  GenerateNewAddressAndAddToConfigMap p prefix se s = Some (s', (a, None)) -> a <> "".
Proof using yaml_laws.
  intros Hip (st & Hst & Hok). unfold GenerateNewAddressAndAddToConfigMap.
  destruct (get_frame s) as (Hs & _ & Hv). destruct (GetConfigMap s) as [s1 [cm|e]]; [|done].
  destruct (gen_compute p prefix se cm) as [a0 e0|a0 data|] eqn:Hc; [| |done].
  - intros [= <- <- ->]. destruct (gen_compute_enabled _ _ _ Hip Hc) as (st0 & H0 & Hl).
    specialize (Hv cm eq_refl). simpl in *. unfold server_store in Hs at 1. rewrite Hv in Hs.
    assert (st0 = st) as -> by congruence. by eapply store_ok_nonempty.
  - destruct (putServiceEntryStateFromConfigmap cm data s1) as [[s2 [e|]]|]; simpl; try done.
    intros [= <- <-]. by destruct (gen_compute_put _ _ _ _ Hc) as (? & _ & _ & _ & ? & _).
Qed.

Lemma generate_ok se s s' a err :
  server_ok s -> GenerateNewAddressAndAddToConfigMap p prefix se s = Some (s', (a, err)) ->
  server_ok s' /\ (err = None -> a <> "" -> exists st, server_store s' = Some st /\
                     EntryAddresses st !! se = Some a).
Proof using yaml_laws.
  intros (st & Hst & Hok) Hgen. apply (generate_steps _ _ ∅ []) in Hgen.
  apply sys_reach_ok in Hgen as [(st' & Hs & Ho & Hg) _].
  - split; [by exists st'|]. intros -> Hne. exists st'. split; [done|]. apply Hg.
    simpl. apply is_empty_false in Hne. rewrite Hne. by left.
  - split; simpl; [exists st; split_and!; [done|done|by intros ?? ?%elem_of_nil]|].
    intros i pr. by rewrite lookup_empty.
Qed.

(** What the retry loop returns: an error, or an address that the server assigned. *)
Definition assigned (se : string) (s : St) (r : string * bool * error) : Prop :=
  r.2 = None -> r.1.1 <> "" /\ exists st, server_store s = Some st /\ EntryAddresses st !! se = Some r.1.1.

Lemma unique_loop_ok tries se cache last s :
  DisableIPGeneration p = false -> default "" (EntryAddresses cache !! se) = "" -> server_ok s ->
  last.2 <> None \/ (0 < tries)%nat ->
  exists s' r, unique_address_loop p prefix tries se cache last s = Some (s', r) /\
    server_ok s' /\ assigned se s' r.
Proof using yaml_laws.
  intros Hip Hc. revert last s. induction tries as [|tries IH]; intros last s Hok Hlast; simpl.
  { exists s, last. split_and!; [done|done|]. intros ?. destruct Hlast; [done|lia]. }
  unfold GetLocalAddressForSe at 1. rewrite Hc, Hip. simpl.
  destruct (GenerateNewAddressAndAddToConfigMap p prefix se s) as [[s' [a err]]|] eqn:Hg; simpl;
    [|by apply generate_total in Hg].
  destruct (generate_ok _ _ _ _ _ Hok Hg) as [Hok' Hres].
  destruct (is_empty a) eqn:Ha; simpl.
  - rewrite andb_false_r. apply IH; [done|]. left. simpl. intros ->.
    apply is_empty_spec in Ha as ->. by eapply (generate_nonempty se s s' "").
  - apply is_empty_false in Ha. exists s', (a, true, err).
    split_and!; [done|done|]. intros ?. split; [done|]. by apply Hres.
Qed.

(** C32: With address generation enabled and a well-formed shared store, [getUniqueAddress]
    always returns (no panic, no endless loop), keeps the store well-formed, and when it returns without an error the address is not empty;
    it is the cached one, or the one that the shared store assigns to the service entry. *)
Theorem unique_address_result fqdn cache s :
  DisableIPGeneration p = false -> server_ok s ->
  exists s' cache' a err, getUniqueAddress p prefix fqdn cache s = Some (s', cache', (a, err)) /\
    server_ok s' /\
    (err = None -> a <> "" /\
      (EntryAddresses cache !! getIstioResourceName fqdn "-se" = Some a \/
       exists st, server_store s' = Some st /\
         EntryAddresses st !! getIstioResourceName fqdn "-se" = Some a)).
Proof using yaml_laws.
  intros Hip Hok. unfold getUniqueAddress. set (se := getIstioResourceName fqdn "-se").
  destruct (is_empty (default "" (EntryAddresses cache !! se))) eqn:Hc.
  - apply is_empty_spec in Hc.
    destruct (unique_loop_ok maxRetries se cache ("", false, None) s Hip Hc Hok)
      as (s1 & [[a upd] err] & -> & Hok1 & Has); [right; unfold maxRetries; lia|]. simpl.
    destruct err as [e|]; [by eexists s1, cache, a, _|].
    destruct Has as [Hne (st & Hs & Hl)]; [done|]. simpl in *.
    destruct upd; [|exists s1, cache, a, None; split_and!; [done|done|by eauto]].
    unfold loadServiceEntryCacheData. destruct (get_frame s1) as (Hf & _ & _).
    destruct (GetConfigMap s1) as [s2 r]. simpl in Hf.
    assert (server_ok s2) as Hok2 by (destruct Hok1 as (st1 & ? & ?); exists st1; by rewrite Hf).
    destruct r as [cm|e]; [destruct (GetServiceEntryStateFromConfigmap cm)|];
      (eexists s2, _, a, None; split_and!; [done|done|]; intros _; split; [done|];
       right; exists st; by rewrite Hf).
  - simpl. unfold GetLocalAddressForSe. fold se. rewrite Hc. simpl. rewrite Hc. simpl.
    apply is_empty_false in Hc. exists s, cache, (default "" (EntryAddresses cache !! se)), None.
    split_and!; [done|done|]. intros _. split; [done|]. left.
    by destruct (EntryAddresses cache !! se).
Qed.

(** C1: however the reads and writes of any number of processes interleave, starting
    from a well-formed (or missing) config map: the shared store stays well-formed, an
    address that was handed out stays assigned to its service entry, and no two
    service entries are ever handed the same address. *)
Theorem addresses_never_shared s st y :
  server_store s = Some st -> store_ok st ->
  sys_reach (mkSystem s ∅ []) y ->
  (exists st', server_store (sys_server y) = Some st' /\ store_ok st' /\
     forall se a, (se, a) ∈ sys_given y -> EntryAddresses st' !! se = Some a) /\
  (forall se se' a, (se, a) ∈ sys_given y -> (se', a) ∈ sys_given y -> se = se').
Proof using yaml_laws.
  intros Hst Hok Hr. apply sys_reach_ok in Hr as [(st' & Hs & Ho & Hg) _].
  - split; [by exists st'|]. intros se se' a H1 H2. eapply ok_inj; [done|by apply Hg..].
  - split; simpl; [exists st; split_and!; [done|done|by intros ?? ?%elem_of_nil]|].
    intros i pr. by rewrite lookup_empty.
Qed.

End Concurrency.

(** ** A concrete server

    One config map with a revision counter, and an encoding of the store as text:
    the interfaces above have an implementation. *)

Fixpoint bits_of_pos (n : positive) : string :=
  match n with
  | xH => EmptyString
  | xO n' => String "0" (bits_of_pos n')
  | xI n' => String "1" (bits_of_pos n')
  end.

Fixpoint pos_of_bits (s : string) : positive :=
  match s with
  | EmptyString => xH
  | String c s' => if Ascii.eqb c "1" then xI (pos_of_bits s') else xO (pos_of_bits s')
  end.

Lemma pos_of_bits_of_pos n : pos_of_bits (bits_of_pos n) = n.
Proof. induction n as [n IH|n IH|]; simpl; by rewrite ?IH. Qed.

Definition bits_decode (s : string) : option (list (string * string) * list string) :=
  match s with EmptyString => Some ([], []) | String _ s' => decode (pos_of_bits s') end.

#[export] Instance bits_yaml : Yaml := {|
  yaml_marshal st :=
    Some (String "y" (bits_of_pos (encode (map_to_list (EntryAddresses st), Addresses st))));
  yaml_unmarshal s :=
    match bits_decode s with
    | Some (m, l) => Some (Some (list_to_map m), Some l)
    | None => None
    end
|}.

#[export] Instance bits_yaml_laws : YamlLaws.
Proof.
  split.
  - intros [m l] s [= <-]. simpl. rewrite pos_of_bits_of_pos, decode_encode.
    eexists. split; [done|]. unfold normalize. simpl. by rewrite list_to_map_to_list.
  - eexists. split; [done|]. done.
Qed.

Record mem_server := mkMem { mem_cm : option gomap; mem_rev : nat }.

Definition rev_string (n : nat) : string := pretty (N.of_nat n).

Definition mem_object (s : mem_server) : option ConfigMap :=
  match mem_cm s with Some d => Some (mkConfigMap d (rev_string (mem_rev s))) | None => None end.

#[export] Instance mem_client : ConfigMapClient mem_server := {|
  cm_get s := (s, match mem_object s with Some cm => inl cm | None => inr "configmaps not found" end);
  cm_create s :=
    match mem_cm s with
    | Some _ => (s, inr "already exists")
    | None => let s' := mkMem (Some None) (S (mem_rev s)) in
              (s', inl (mkConfigMap None (rev_string (mem_rev s'))))
    end;
  cm_update cm s :=
    match mem_object s with
    | None => (s, Some "not found")
    | Some old => if CmResourceVersion old =?s CmResourceVersion cm
                  then (mkMem (Some (CmData cm)) (S (mem_rev s)), None)
                  else (s, Some "conflict")
    end
|}.

Definition mem_laws : ConfigMapLaws (St := mem_server).
Proof.
  refine {| cm_view := mem_object; cm_rev := mem_rev; cm_vstr := rev_string |}.
  - intros a b H. unfold rev_string in H. apply (inj pretty) in H. lia.
  - intros [[d|] r] cm H; [|discriminate H]. by injection H as <-.
  - intros s. split; [done|]. split; [done|]. intros cm H. simpl in H.
    destruct (mem_object s); [by injection H as <-|discriminate H].
  - intros [[d|] r]; simpl.
    + split; [by left|done].
    + split; [right; split_and!; [done|lia|by eexists]|]. by intros cm [= <-].
  - intros cm [[d|] r]; simpl.
    + destruct (_ =?s _) eqn:E; simpl; sdec; [|by left].
      right. eexists _, _. split_and!; [done|done|done|done|lia].
    + by left.
Defined.

Definition address_params : AdmiralParams := Params.zero_AdmiralParams.

(** Two processes read the same revision; the second write is refused and retried. *)
Lemma generate_example :
  let s0 := mkMem None 0 in
  let r := fun se s => GenerateNewAddressAndAddToConfigMap address_params "240.0" se s in
  match r "a-se" s0 with
  | Some (s1, (a, e)) =>
      match r "b-se" s1 with
      | Some (s2, (b, e')) =>
          match r "a-se" s2 with
          | Some (_, (a', _)) => [a; b; a'] = ["240.0.10.1"; "240.0.10.2"; "240.0.10.1"] /\
                                 e = None /\ e' = None
          | None => False
          end
      | None => False
      end
  | None => False
  end.
Proof. vm_compute. done. Qed.

Lemma addresses_never_shared_witness :
  let x := mkSystem (mkMem None 0) ∅ [] in
  exists y, sys_reach address_params "240.0" x y /\
    (exists st', server_store mem_laws (sys_server y) = Some st' /\ store_ok st' /\
      forall se a, (se, a) ∈ sys_given y -> EntryAddresses st' !! se = Some a) /\
    (forall se se' a, (se, a) ∈ sys_given y -> (se', a) ∈ sys_given y -> se = se').
Proof.
  intros x.
  pose (m1 := mkMem (Some None) 1). pose (cm0 := mkConfigMap None (rev_string 1)).
  pose (data := mkStore {[ "a-se" := "240.0.10.1" ]} ["240.0.10.1"]).
  pose (cm1 := mkConfigMap (Some {[ store_key := default "" (yaml_marshal data) ]}) (rev_string 1)).
  pose (m2 := mkMem (Some (CmData cm1)) 2).
  exists (mkSystem m2 (<[0%nat := Idle]> (<[0%nat := Writing "a-se" "240.0.10.1" cm1]> ∅))
            [("a-se", "240.0.10.1")]).
  assert (sys_reach address_params "240.0" x
    (mkSystem m2 (<[0%nat := Idle]> (<[0%nat := Writing "a-se" "240.0.10.1" cm1]> ∅))
       [("a-se", "240.0.10.1")])) as Hr.
  { eapply ReachStep; [eapply ReachStep; [apply ReachRefl|]|].
    - refine (StepRead address_params "240.0" 0 "a-se" x m1 cm0 _ "240.0.10.1" data cm1 _ _);
        vm_compute; reflexivity.
    - refine (StepWrite address_params "240.0" 0 "a-se" "240.0.10.1" cm1 (mkSystem m1 _ []) m2 _ _);
        vm_compute; reflexivity. }
  split; [exact Hr|].
  apply (addresses_never_shared address_params "240.0" mem_laws (mkMem None 0) empty_store);
    [reflexivity|apply empty_store_ok|exact Hr].
Defined.

Lemma unique_address_result_witness :
  exists s' cache' a err,
    getUniqueAddress address_params "240.0" "Stage.Foo.mesh" empty_store (mkMem None 0)
      = Some (s', cache', (a, err)) /\ server_ok mem_laws s' /\
    (err = None -> a <> "" /\
      (EntryAddresses empty_store !! getIstioResourceName "Stage.Foo.mesh" "-se" = Some a \/
       exists st, server_store mem_laws s' = Some st /\
         EntryAddresses st !! getIstioResourceName "Stage.Foo.mesh" "-se" = Some a)).
Proof.
  apply (unique_address_result address_params "240.0" mem_laws); [reflexivity|].
  exists empty_store. split; [reflexivity|apply empty_store_ok].
Defined.
