(* ===== verification/DestinationRules.v ===== *)
(** * Destination rules: [clusters/destinationrule_handler.go]

    [getDestinationRule] builds the spec of the destination rule of a service
    entry from the traffic policy, the outlier detection, the connection settings
    and the rule currently in the cluster.  A result of [None] is a run-time panic
    (an index out of range or a nil pointer). *)
From S2P Require Import Prelude GoStrings GoStd Config Objects Metadata.
From stdpp Require Import options.
Local Open Scope Z_scope.

(** [handler.go]. *)
Definition DefaultBaseEjectionTime : Z := 300.
Definition DefaultConsecutiveGatewayErrors : Z := 50.
Definition DefaultConsecutive5xxErrors : Z := 0.
Definition DefaultInterval : Z := 60.

(** [common.GTP], the event resource type of traffic policies. *)
Definition GTP := "gtp".
Definition WestLocality := "us-west-2".
Definition EastLocality := "us-east-2".

(** ** Locality *)

Definition isSEMultiRegion (se : option ServiceEntry) : bool :=
  match se with
  | None => false
  | Some se =>
      let regions := foldl (fun m ep => <[weLocality ep := true]> m) (∅ : gmap string bool)
                       (seEndpoints se) in
      Nat.ltb 1 (size regions)
  end.

#[local] Arguments isSEMultiRegion : simpl never.

(** The setting and the error. *)
Definition getLocalityLBSettings (currentLocality : string) : option (list Distribute) * error :=
  if currentLocality =?s "" then (None, Some "currentLocality is empty")
  else
    let remoteRegion := if currentLocality =?s WestLocality then EastLocality else WestLocality in
    (Some [mkDistribute "*" {[ remoteRegion := 100 ]}], None).

(** The load balancer of the current rule, when every pointer on the way is set. *)
Definition current_load_balancer (currentDR : DestinationRuleObj) : option LoadBalancerSettings :=
  tp ← drTrafficPolicy (DrSpec currentDR); drLoadBalancer tp.

Definition calculateDistribution (se : ServiceEntry) (currentDR : option DestinationRuleObj)
    : list Distribute :=
  match seEndpoints se with
  | [] => []
  | [ep] =>
      let defaultAPDistribution := mkDistribute "*" {[ weLocality ep := 100 ]} in
      match currentDR with
      | Some cur =>
          match current_load_balancer cur with
          | Some lb =>
              match lbLocality lb with
              | None => [defaultAPDistribution]
              | Some [d] => if dFrom d =?s "*" then [d] else []
              | Some _ => []
              end
          | None => []
          end
      | None => [defaultAPDistribution]
      end
  | _ =>
      match currentDR with
      | Some cur =>
          match current_load_balancer cur with
          | Some lb => match lbLocality lb with Some ds => ds | None => [] end
          | None => []
          end
      | None => []
      end
  end.

(** ** Connection pool *)

Section Build.
Context (p : AdmiralParams).

(** The HTTP overrides, applied to the default settings. *)
Definition override_http (http : CccHttp) (h : HTTPSettings) : HTTPSettings :=
  let h := if 0 <? cccHttp2MaxRequests http
           then h <| httpHttp2MaxRequests := cccHttp2MaxRequests http |> else h in
  let h := if 0 <? cccMaxRequestsPerConnection http
           then h <| httpMaxRequestsPerConnection := cccMaxRequestsPerConnection http |> else h in
  if negb (is_empty (cccIdleTimeout http)) then
    match ParseDuration (cccIdleTimeout http) with
    | None => h
    | Some idleTimeout => h <| httpIdleTimeout := Some idleTimeout |>
    end
  else h.

Definition getClientConnectionPoolOverrides (ccc : option ClientConnectionConfig)
    : option ConnectionPoolSettings :=
  let defaults := mkHTTPSettings 0 (MaxRequestsPerConnection p) None in
  match ccc with
  | None => Some (mkConnectionPool (Some defaults) None)
  | Some c =>
      pool ← CccConnectionPool c;
      let http := match cccHttp pool with
                  | Some h => override_http h defaults
                  | None => defaults
                  end in
      let tcp := match cccTcpMaxConnectionDuration pool with
                 | Some d => if negb (is_empty d) then
                               match ParseDuration d with
                               | None => None
                               | Some maxConnectionDuration => Some (Some maxConnectionDuration)
                               end
                             else None
                 | None => None
                 end in
      Some (mkConnectionPool (Some http) tcp)
  end.

(** ** Outlier detection *)

Definition getOutlierDetectionSkeleton (disableDefaultAutomaticFailover : bool) : OutlierDetection :=
  if disableDefaultAutomaticFailover then mkOutlierDetection None (Some 0) None None 0
  else mkOutlierDetection (Some DefaultConsecutiveGatewayErrors) (Some DefaultConsecutive5xxErrors)
         (Some DefaultInterval) (Some DefaultBaseEjectionTime) 0.

Definition setDefaultValuesOfOutlierDetection (od : OutlierDetection) : OutlierDetection :=
  od <| odBaseEjectionTime := Some DefaultBaseEjectionTime |>
     <| odConsecutiveGatewayErrors := Some DefaultConsecutiveGatewayErrors |>
     <| odInterval := Some DefaultInterval |>.

(** [outlierDetectionCrd.Spec.OutlierConfig] and [gtpTrafficPolicy.OutlierDetection],
    with the nil checks. *)
Definition crd_config (crd : option OutlierDetectionCrd) : option OutlierConfig :=
  c ← crd; OdConfig c.
Definition gtp_od_config (tp : option TrafficPolicy) : option OutlierConfig :=
  t ← tp; tpOutlierDetection t.

(** A single endpoint that is a local service or an IPv4 address. *)
Definition single_local_endpoint (se : ServiceEntry) : bool :=
  match seEndpoints se with
  | [ep] => contains (weAddress ep) DotLocalDomainSuffix || is_ipv4 (weAddress ep)
  | _ => false
  end.

Definition getOutlierDetection (se : ServiceEntry) (gtpTrafficPolicy : option TrafficPolicy)
    (outlierDetectionCrd : option OutlierDetectionCrd) (disableDefaultAutomaticFailover : bool)
    : option OutlierDetection :=
  if disableDefaultAutomaticFailover && is_nil (crd_config outlierDetectionCrd)
     && is_nil (gtp_od_config gtpTrafficPolicy)
  then Some (mkOutlierDetection (Some 0) (Some 0) None None 0)
  else if single_local_endpoint se then None
  else
    let od := getOutlierDetectionSkeleton disableDefaultAutomaticFailover in
    let od :=
      match crd_config outlierDetectionCrd, gtp_od_config gtpTrafficPolicy with
      | Some c, _ =>
          od <| odConsecutiveGatewayErrors := Some (ocConsecutiveGatewayErrors c) |>
             <| odInterval := Some (ocInterval c) |>
             <| odBaseEjectionTime := Some (ocBaseEjectionTime c) |>
      | None, Some g =>
          let od := setDefaultValuesOfOutlierDetection od in
          let od := if 0 <? ocBaseEjectionTime g
                    then od <| odBaseEjectionTime := Some (ocBaseEjectionTime g) |> else od in
          let od := if 0 <? ocConsecutiveGatewayErrors g
                    then od <| odConsecutiveGatewayErrors := Some (ocConsecutiveGatewayErrors g) |>
                    else od in
          if 0 <? ocInterval g then od <| odInterval := Some (ocInterval g) |> else od
      | None, None => od
      end in
    Some (if Nat.eqb (length (seEndpoints se)) 1 then od <| odMaxEjectionPercent := 33 |>
          else od <| odMaxEjectionPercent := 100 |>).

(** ** The destination rule *)

(** The regions and weights of the targets; a weight of 0 is skipped. *)
Definition target_traffic_map (targets : list TrafficGroup) : gmap string Z :=
  foldl (fun m tg => if Weight tg =? 0 then m else <[Region tg := uint32 (Weight tg)]> m)
    ∅ targets.

Definition default_load_balancer : LoadBalancerSettings :=
  mkLoadBalancer LEAST_REQUEST None (Some (GetDefaultWarmupDurationSecs p)) None.

(** [dr.TrafficPolicy.LoadBalancer.LocalityLbSetting = l]. *)
Definition set_locality (l : option (list Distribute)) (tp : DrTrafficPolicy) : DrTrafficPolicy :=
  tp <| drLoadBalancer := match drLoadBalancer tp with
                          | Some lb => Some (lb <| lbLocality := l |> <| lbLocalityEnabled := None |>)
                          | None => None
                          end |>.

(** The part of [getDestinationRule] before the locality is looked at. *)
Definition base_traffic_policy (se : ServiceEntry) (gtpTrafficPolicy : option TrafficPolicy)
    (outlierDetection : option OutlierDetectionCrd) (ccc : option ClientConnectionConfig)
    (currentDR : option DestinationRuleObj) (eventResourceType : string) (event : EventType)
    : option DrTrafficPolicy :=
  let od := getOutlierDetection se gtpTrafficPolicy outlierDetection
              (DisableDefaultAutomaticFailover p) in
  pool ← getClientConnectionPoolOverrides ccc;
  let tp := mkDrTrafficPolicy (Some (mkTls ISTIO_MUTUAL [])) (Some default_load_balancer) (Some pool) od in
  Some (if EnableActivePassive p
           && (negb (eventResourceType =?s GTP)
               || ((eventResourceType =?s GTP) && negb (bool_decide (event = Delete))))
        then match calculateDistribution se currentDR with
             | [] => tp
             | distribute => set_locality (Some distribute) tp
             end
        else tp).

(** The part that follows the policy of the resource. *)
Definition policy_traffic_policy (locality : string) (gtp : TrafficPolicy) (tp : DrTrafficPolicy)
    : DrTrafficPolicy :=
  if Nat.eqb (length (tpTarget gtp)) 0 then
    tp <| drLoadBalancer := Some default_load_balancer |>
  else match tpLbType gtp with
       | TOPOLOGY => set_locality (Some []) tp
       | FAILOVER =>
           set_locality (Some [mkDistribute (locality +:+ "/*") (target_traffic_map (tpTarget gtp))])
             tp
       end.

Definition getDestinationRule (se : ServiceEntry) (locality : string)
    (gtpTrafficPolicy : option TrafficPolicy) (outlierDetection : option OutlierDetectionCrd)
    (clientConnectionSettings : option ClientConnectionConfig)
    (currentDR : option DestinationRuleObj) (eventResourceType : string) (event : EventType)
    (doDRUpdateForInClusterRouting : bool) : option DestinationRule :=
  host ← head (seHosts se);
  let exportTo := if EnableExportTo p host || IsAdmiralOperatorMode p then seExportTo se else [] in
  tp ← base_traffic_policy se gtpTrafficPolicy outlierDetection clientConnectionSettings currentDR
         eventResourceType event;
  let dr := mkDestinationRule host (Some tp) exportTo in
  if is_empty locality then Some dr
  else
    match gtpTrafficPolicy with
    | None => Some dr
    | Some gtp =>
        if doDRUpdateForInClusterRouting && isSEMultiRegion (Some se) then
          let '(setting, err) := getLocalityLBSettings locality in
          let tp := set_locality setting tp in
          if is_nil err then Some (dr <| drTrafficPolicy := Some tp |>)
          else Some (dr <| drTrafficPolicy := Some (policy_traffic_policy locality gtp tp) |>)
        else Some (dr <| drTrafficPolicy := Some (policy_traffic_policy locality gtp tp) |>)
    end.

End Build.

(** [createDestinationRuleSkeleton]. *)
Definition createDestinationRuleSkeleton (dr : DestinationRule) (name namespace : string)
    : DestinationRuleObj :=
  mkDestinationRuleObj (mkMeta name namespace None None 0 "") dr.

(** ** Lemmas *)

(** The locality setting of a rule. *)
Definition dr_locality (dr : DestinationRule) : option (list Distribute) :=
  tp ← drTrafficPolicy dr; lb ← drLoadBalancer tp; lbLocality lb.

(** Sum of the weights of a distribution. *)
Definition total_weight (m : gmap string Z) : Z := map_fold (fun _ w acc => w + acc) 0 m.

Lemma total_weight_empty : total_weight ∅ = 0.
Proof. apply map_fold_empty. Qed.

Lemma total_weight_insert m k w :
  m !! k = None -> total_weight (<[k := w]> m) = w + total_weight m.
Proof. intros H. unfold total_weight. apply map_fold_insert_L; [intros; lia|done]. Qed.

Lemma target_map_snoc targets tg :
  target_traffic_map (targets ++ [tg])
    = if Weight tg =? 0 then target_traffic_map targets
      else <[Region tg := uint32 (Weight tg)]> (target_traffic_map targets).
Proof. unfold target_traffic_map. by rewrite foldl_app. Qed.

Lemma target_map_dom targets r :
  target_traffic_map targets !! r <> None -> exists tg, tg ∈ targets /\ Region tg = r.
Proof.
  induction targets as [|tg targets IH] using rev_ind; [done|].
  rewrite target_map_snoc. intros H.
  assert (target_traffic_map targets !! r <> None \/ Region tg = r) as [H'|H'].
  { destruct (Weight tg =? 0); [by left|].
    destruct (decide (Region tg = r)); [by right|]. left. by rewrite lookup_insert_ne in H. }
  - destruct (IH H') as (tg' & Hin & E). exists tg'. split; [|done]. apply elem_of_app. by left.
  - exists tg. split; [|done]. apply elem_of_app. right. by apply list_elem_of_singleton.
Qed.

(** A policy's weight, when it is in the range of the 32-bit field. *)
Definition weight_ok (tg : TrafficGroup) : Prop := 0 <= Weight tg < 2 ^ 31.

Lemma uint32_weight tg : weight_ok tg -> uint32 (Weight tg) = Weight tg.
Proof. unfold weight_ok, uint32. intros H. apply Z.mod_small. lia. Qed.

Lemma target_map_total targets :
  NoDup (map Region targets) -> Forall weight_ok targets ->
  total_weight (target_traffic_map targets) = foldr Z.add 0 (map Weight targets).
Proof.
  induction targets as [|tg targets IH] using rev_ind; intros Hnd Hw; [apply total_weight_empty|].
  rewrite target_map_snoc, map_app, foldr_app. simpl.
  rewrite map_app in Hnd. apply NoDup_app in Hnd as (Hnd & Hdis & _).
  apply Forall_app in Hw as [Hw Htg]. apply Forall_cons in Htg as [Htg _].
  specialize (IH Hnd Hw).
  assert (forall l a, foldr Z.add a l = foldr Z.add 0 l + a) as Hf.
  { induction l as [|x l IHl]; intros a; simpl; [lia|]. rewrite IHl. lia. }
  rewrite (Hf _ (Weight tg + 0)).
  destruct (Z.eqb_spec (Weight tg) 0) as [E|E]; [lia|].
  assert (target_traffic_map targets !! Region tg = None) as Hnone.
  { destruct (target_traffic_map targets !! Region tg) eqn:Hl; [|done].
    destruct (target_map_dom targets (Region tg)) as (tg' & Hin & Er); [by rewrite Hl|].
    exfalso. apply (Hdis (Region tg)); [rewrite <- Er; by apply list_elem_of_fmap_2|].
    by apply list_elem_of_singleton. }
  rewrite total_weight_insert, uint32_weight by done. lia.
Qed.

(** The distributions that the active/passive step leaves in the rule. *)
Lemma base_locality p se tp od ccc cur ert ev tpo :
  base_traffic_policy p se tp od ccc cur ert ev = Some tpo ->
  drLoadBalancer tpo = Some (default_load_balancer p <| lbLocality :=
    if EnableActivePassive p && (negb (ert =?s GTP) || negb (bool_decide (ev = Delete)))
    then match calculateDistribution se cur with [] => None | d => Some d end else None |>).
Proof.
  unfold base_traffic_policy. destruct (getClientConnectionPoolOverrides p ccc); simpl; [|done].
  intros [= <-]. destruct (EnableActivePassive p), (ert =?s GTP), (bool_decide (ev = Delete));
    simpl; try done; by destruct (calculateDistribution se cur).
Qed.

Lemma getDestinationRule_inv p se loc gtp od ccc cur ert ev pin dr :
  getDestinationRule p se loc gtp od ccc cur ert ev pin = Some dr ->
  exists host tp, head (seHosts se) = Some host /\ drHost dr = host /\
    base_traffic_policy p se gtp od ccc cur ert ev = Some tp /\
    drExportTo dr = (if EnableExportTo p host || IsAdmiralOperatorMode p then seExportTo se else []).
Proof.
  unfold getDestinationRule. destruct (head (seHosts se)) as [host|]; simpl; [|done].
  destruct (base_traffic_policy p se gtp od ccc cur ert ev) as [tp|]; simpl; [|done].
  intros H. exists host, tp.
  repeat case_match; simplify_eq/=; done.
Qed.

(** For a failover policy whose targets name different regions with weights in the
    field's range, the rule (when the cluster's region is known and the rule is not
    pinned) distributes the traffic of the cluster's locality and nothing else, only
    to regions the policy names, and the weights of the distribution add up to those
    of the policy. *)
Theorem failover_distribution p se loc gtp od ccc cur ert ev pin dr :
  getDestinationRule p se loc (Some gtp) od ccc cur ert ev pin = Some dr ->
  loc <> "" -> pin && isSEMultiRegion (Some se) = false ->
  tpLbType gtp = FAILOVER -> tpTarget gtp <> [] ->
  NoDup (map Region (tpTarget gtp)) -> Forall weight_ok (tpTarget gtp) ->
  exists m, dr_locality dr = Some [mkDistribute (loc +:+ "/*") m] /\
    total_weight m = foldr Z.add 0 (map Weight (tpTarget gtp)) /\
    forall r, m !! r <> None -> exists tg, tg ∈ tpTarget gtp /\ Region tg = r.
Proof.
  intros H Hloc Hpin Hlb Htg Hnd Hw. exists (target_traffic_map (tpTarget gtp)).
  split; [|split; [by apply target_map_total|intros r; apply target_map_dom]].
  unfold getDestinationRule in H. destruct (head (seHosts se)) as [host|]; simpl in H; [|done].
  destruct (base_traffic_policy p se (Some gtp) od ccc cur ert ev) as [tp|] eqn:E; simpl in H; [|done].
  apply is_empty_false in Hloc. rewrite Hloc, Hpin in H. injection H as <-.
  unfold dr_locality, policy_traffic_policy. simpl. rewrite Hlb.
  destruct (tpTarget gtp); [done|]. simpl.
  apply base_locality in E. by rewrite E.
Qed.

Definition west_east_gtp : TrafficPolicy :=
  mkTrafficPolicy "" FAILOVER [mkTrafficGroup "us-west-2" 70; mkTrafficGroup "us-east-2" 30] "west" None.
Definition se_of (endpoints : list WorkloadEntry) : ServiceEntry :=
  mkServiceEntry ["dev.foo.mesh"] [] [] MESH_INTERNAL DNS endpoints [] [].
Definition ep_in (region : string) : WorkloadEntry := mkWorkloadEntry "lb.example.com" ∅ None region 0.

Lemma failover_distribution_witness :
  exists dr, getDestinationRule Params.zero_AdmiralParams (se_of [ep_in "us-west-2"]) "us-west-2"
    (Some west_east_gtp) None None None "Deployment" Add false = Some dr /\
  exists m, dr_locality dr = Some [mkDistribute "us-west-2/*" m] /\ total_weight m = 100 /\
    forall r, m !! r <> None -> exists tg, tg ∈ tpTarget west_east_gtp /\ Region tg = r.
Proof.
  eexists. split; [vm_compute; reflexivity|].
  refine (failover_distribution Params.zero_AdmiralParams (se_of [ep_in "us-west-2"]) "us-west-2"
    west_east_gtp None None None "Deployment" Add false _ _ _ _ _ _ _ _).
  - vm_compute. reflexivity.
  - discriminate.
  - reflexivity.
  - reflexivity.
  - discriminate.
  - apply (bool_decide_eq_true_1 _). vm_compute. reflexivity.
  - repeat constructor; vm_compute; congruence.
Defined.

(** Pinning: with in-cluster routing, a policy and endpoints in several regions,
    the rule sends all traffic to one region, which is not the cluster's own. *)
Theorem pinned_to_remote_region p se loc gtp od ccc cur ert ev dr :
  getDestinationRule p se loc (Some gtp) od ccc cur ert ev true = Some dr ->
  loc <> "" -> isSEMultiRegion (Some se) = true ->
  exists r, r <> loc /\ dr_locality dr = Some [mkDistribute "*" {[ r := 100 ]}].
Proof.
  intros H Hloc Hm. unfold getDestinationRule in H.
  destruct (head (seHosts se)) as [host|]; simpl in H; [|done].
  destruct (base_traffic_policy p se (Some gtp) od ccc cur ert ev) as [tp|] eqn:E; simpl in H; [|done].
  pose proof Hloc as Hl. apply is_empty_false in Hl. rewrite Hl, Hm in H. simpl in H.
  unfold getLocalityLBSettings in H. apply seqb_neq in Hloc. rewrite Hloc in H.
  exists (if loc =?s WestLocality then EastLocality else WestLocality).
  injection H as <-. unfold dr_locality. simpl.
  apply base_locality in E. rewrite E. split; [|done].
  destruct (loc =?s WestLocality) eqn:W; sdec; [by subst|congruence].
Qed.

Lemma pinned_to_remote_region_witness :
  exists dr, getDestinationRule Params.zero_AdmiralParams
    (se_of [ep_in "us-west-2"; ep_in "us-east-2"]) "us-west-2"
    (Some west_east_gtp) None None None "Deployment" Add true = Some dr /\
  exists r, r <> "us-west-2" /\ dr_locality dr = Some [mkDistribute "*" {[ r := 100 ]}].
Proof.
  eexists. split; [vm_compute; reflexivity|].
  refine (pinned_to_remote_region Params.zero_AdmiralParams
    (se_of [ep_in "us-west-2"; ep_in "us-east-2"]) "us-west-2"
    west_east_gtp None None None "Deployment" Add _ _ _ _); [vm_compute; reflexivity|discriminate|reflexivity].
Defined.

(** ** Active/passive *)

(** One event that recomputes the rule of a host in a cluster for which no policy applies:
    what it carries besides the rule in use. *)
Record RuleEvent := mkRuleEvent {
  evSe : ServiceEntry;
  evLocality : string;
  evOutlierDetection : option OutlierDetectionCrd;
  evClientConnection : option ClientConnectionConfig;
  evResource : string;
  evType : EventType;
  evPinning : bool
}.

Section ActivePassive.
Context (p : AdmiralParams).

(** Each new rule is computed from the one before. *)
Definition rule_step (cur : option DestinationRuleObj) (e : RuleEvent)
    : option DestinationRuleObj :=
  dr ← getDestinationRule p (evSe e) (evLocality e) None (evOutlierDetection e)
         (evClientConnection e) cur (evResource e) (evType e) (evPinning e);
  Some (createDestinationRuleSkeleton dr "dr" "ns").

Fixpoint rule_run (cur : option DestinationRuleObj) (es : list RuleEvent)
    : option DestinationRuleObj :=
  match es with
  | [] => cur
  | e :: rest => rule_run (rule_step cur e) rest
  end.

(** An event that is not the deletion of a policy, for a service entry with a host and at
    least one endpoint; a client connection configuration has a connection pool. *)
Definition keeps_pin (e : RuleEvent) : Prop :=
  ~ (evResource e = GTP /\ evType e = Delete) /\
  seHosts (evSe e) <> [] /\ seEndpoints (evSe e) <> [] /\
  match evClientConnection e with Some c => CccConnectionPool c <> None | None => True end.

(** No rule in use, or one whose load balancer has no locality setting (active/active). *)
Definition not_pinned (o : option DestinationRuleObj) : Prop :=
  match o with
  | None => True
  | Some dr => exists lb, current_load_balancer dr = Some lb /\ lbLocality lb = None
  end.

Definition pinned_to (r : string) (o : option DestinationRuleObj) : Prop :=
  exists dr, o = Some dr /\ dr_locality (DrSpec dr) = Some [mkDistribute "*" {[ r := 100 ]}].

Lemma distribution_first cur se ep :
  not_pinned cur -> seEndpoints se = [ep] ->
  calculateDistribution se cur = [mkDistribute "*" {[ weLocality ep := 100 ]}].
Proof.
  intros Hn He. unfold calculateDistribution. rewrite He. destruct cur as [dr|]; [|done].
  destruct Hn as (lb & -> & ->). done.
Qed.

Lemma distribution_sticky r se dr :
  seEndpoints se <> [] -> pinned_to r (Some dr) ->
  calculateDistribution se (Some dr) = [mkDistribute "*" {[ r := 100 ]}].
Proof.
  intros Hne (dr' & [= <-] & Hl). unfold calculateDistribution, current_load_balancer.
  unfold dr_locality in Hl.
  destruct (drTrafficPolicy (DrSpec dr)) as [tp|]; simpl in *; [|done].
  destruct (drLoadBalancer tp) as [lb|]; simpl in *; [|done]. rewrite Hl.
  destruct (seEndpoints se) as [|e [|e' l]]; [done|reflexivity|done].
Qed.

Context (Hap : EnableActivePassive p = true).

Lemma rule_step_locality cur e d :
  keeps_pin e -> calculateDistribution (evSe e) cur = [d] ->
  exists dr, rule_step cur e = Some dr /\ dr_locality (DrSpec dr) = Some [d].
Proof using Hap.
  intros (Hev & Hh & _ & Hccc) Hd. unfold rule_step, getDestinationRule.
  destruct (head (seHosts (evSe e))) as [host|] eqn:Eh; simpl; [|by destruct (seHosts (evSe e))].
  destruct (base_traffic_policy p (evSe e) None (evOutlierDetection e) (evClientConnection e) cur
    (evResource e) (evType e)) as [tp|] eqn:E; simpl.
  - exists (createDestinationRuleSkeleton (mkDestinationRule host (Some tp)
      (if EnableExportTo p host || IsAdmiralOperatorMode p then seExportTo (evSe e) else []))
      "dr" "ns").
    split; [by destruct (is_empty (evLocality e))|]. apply base_locality in E.
    unfold dr_locality. simpl. rewrite E, Hap, Hd.
    replace (negb (evResource e =?s GTP) || negb (bool_decide (evType e = Delete))) with true;
      [done|].
    destruct (evResource e =?s GTP) eqn:Eg; [|done]. apply seqb_eq in Eg.
    rewrite bool_decide_false; [done|]. intros Ed. by apply Hev.
  - unfold base_traffic_policy, getClientConnectionPoolOverrides in E.
    destruct (evClientConnection e) as [c|]; simpl in E; [|done].
    by destruct (CccConnectionPool c).
Qed.

Lemma rule_step_pinned r o e : keeps_pin e -> pinned_to r o -> pinned_to r (rule_step o e).
Proof using Hap.
  intros He (dr & -> & Hp). apply rule_step_locality; [done|].
  apply distribution_sticky; [apply He|by exists dr].
Qed.

(** C34: with active/passive on and no policy: from no rule, or from a rule without a locality
    setting, an event for a service with exactly one endpoint writes a rule that sends all
    traffic to the region of that endpoint. Every later rule does so too, whatever
    endpoints come and go and whatever resource and type the events have, as long as the
    service keeps an endpoint, no policy applies and no event deletes one, and a client
    connection configuration has a pool. *)
Theorem active_passive_sticky cur e ep es :
  not_pinned cur -> keeps_pin e -> seEndpoints (evSe e) = [ep] -> Forall keeps_pin es ->
  pinned_to (weLocality ep) (rule_run cur (e :: es)).
Proof using Hap.
  intros Hn He Hep Hes. simpl.
  assert (pinned_to (weLocality ep) (rule_step cur e)) as Hp.
  { apply rule_step_locality; [done|]. by apply distribution_first. }
  revert Hp. generalize (rule_step cur e).
  induction Hes as [|e' es He' Hes IH]; intros o Hp; simpl; [done|].
  apply IH. by apply rule_step_pinned.
Qed.

End ActivePassive.

Definition ap_params : AdmiralParams :=
  Params.zero_AdmiralParams <| Params.EnableActivePassive := true |>.
Definition ap_event (resource : string) (ev : EventType) (regions : list string) : RuleEvent :=
  mkRuleEvent (se_of (map ep_in regions)) "us-west-2" None None resource ev false.

(** Deleting a policy drops the setting: the next event with one endpoint pins anew. *)
Example policy_deletion_unpins :
  not_pinned (rule_run ap_params None
    [ap_event "Deployment" Add ["us-west-2"]; ap_event GTP Delete ["us-west-2"]]).
Proof. eexists. split; [vm_compute; reflexivity|reflexivity]. Qed.

(** With two endpoints at the start nothing is pinned. *)
Example two_endpoints_unpinned :
  not_pinned (rule_run ap_params None [ap_event "Deployment" Add ["us-west-2"; "us-east-2"]]).
Proof. eexists. split; [vm_compute; reflexivity|reflexivity]. Qed.

Lemma active_passive_sticky_witness :
  pinned_to "us-west-2" (rule_run ap_params
    (rule_run ap_params None [ap_event "Deployment" Add ["us-west-2"; "us-east-2"]])
    [ap_event "Deployment" Update ["us-west-2"];
     ap_event "Rollout" Add ["us-west-2"; "us-east-2"];
     ap_event GTP Update ["us-east-2"]]).
Proof.
  refine (active_passive_sticky ap_params eq_refl _ (ap_event "Deployment" Update ["us-west-2"])
    (ep_in "us-west-2") _ _ _ eq_refl _).
  - eexists. split; [vm_compute; reflexivity|reflexivity].
  - repeat split; [intros [? _]; discriminate|discriminate|discriminate].
  - repeat constructor; solve [discriminate | intros [? ?]; discriminate].
Defined.

(** ** Outlier detection *)

(** The rule has no outlier detection exactly for a single endpoint that is local, unless
    automatic failover is off and nothing configures it. *)
Lemma outlier_detection_none se gtp crd d :
  getOutlierDetection se gtp crd d = None <->
  single_local_endpoint se = true /\
  (d = false \/ crd_config crd <> None \/ gtp_od_config gtp <> None).
Proof.
  unfold getOutlierDetection.
  destruct d, (crd_config crd), (gtp_od_config gtp), (single_local_endpoint se); simpl;
    repeat split; try done; try tauto; try (by right; left); try (by left); try (by right; right);
    intros [? [?|[?|?]]]; done.
Qed.

(** A threshold of the policy counts when it is positive. *)
Definition positive_or (v dflt : Z) : Z := if 0 <? v then v else dflt.

(** Outlier detection of a service that is not one local endpoint: the outlier
    detection resource comes before the traffic policy, whose positive thresholds
    come before the defaults; the detection ejects at most a third of a single
    endpoint's hosts and up to all hosts otherwise, and never looks at 5xx errors. *)
Theorem outlier_detection_precedence se gtp crd :
  single_local_endpoint se = false ->
  exists od, getOutlierDetection se gtp crd false = Some od /\
    odMaxEjectionPercent od = (if Nat.eqb (length (seEndpoints se)) 1 then 33 else 100) /\
    odConsecutive5xxErrors od = Some 0 /\
    match crd_config crd, gtp_od_config gtp with
    | Some c, _ =>
        odConsecutiveGatewayErrors od = Some (ocConsecutiveGatewayErrors c) /\
        odInterval od = Some (ocInterval c) /\ odBaseEjectionTime od = Some (ocBaseEjectionTime c)
    | None, Some g =>
        odConsecutiveGatewayErrors od = Some (positive_or (ocConsecutiveGatewayErrors g) 50) /\
        odInterval od = Some (positive_or (ocInterval g) 60) /\
        odBaseEjectionTime od = Some (positive_or (ocBaseEjectionTime g) 300)
    | None, None =>
        odConsecutiveGatewayErrors od = Some 50 /\ odInterval od = Some 60 /\
        odBaseEjectionTime od = Some 300
    end.
Proof.
  intros Hl. unfold getOutlierDetection. rewrite Hl. simpl.
  eexists. split; [reflexivity|]. unfold positive_or.
  destruct (Nat.eqb (length (seEndpoints se)) 1), (crd_config crd) as [c|]; simpl; try done;
    destruct (gtp_od_config gtp) as [g|]; simpl; try done;
    destruct (0 <? ocBaseEjectionTime g), (0 <? ocConsecutiveGatewayErrors g), (0 <? ocInterval g);
    done.
Qed.

Lemma outlier_detection_precedence_witness :
  exists od, getOutlierDetection (se_of [ep_in "us-west-2"])
      (Some (west_east_gtp <| tpOutlierDetection := Some (mkOutlierConfig 10 0 5) |>)) None false
    = Some od /\ odMaxEjectionPercent od = 33 /\ odConsecutive5xxErrors od = Some 0 /\
    odConsecutiveGatewayErrors od = Some 50 /\ odInterval od = Some 5 /\
    odBaseEjectionTime od = Some 10.
Proof.
  exact (outlier_detection_precedence (se_of [ep_in "us-west-2"])
    (Some (west_east_gtp <| tpOutlierDetection := Some (mkOutlierConfig 10 0 5) |>)) None eq_refl).
Defined.

(** ** Totality *)

(** [getDestinationRule] panics exactly for a service entry without hosts or for a
    connection config whose spec has no connection pool. *)
Theorem destination_rule_panics_iff p se loc gtp od ccc cur ert ev pin :
  getDestinationRule p se loc gtp od ccc cur ert ev pin = None <->
  seHosts se = [] \/ exists c, ccc = Some c /\ CccConnectionPool c = None.
Proof.
  unfold getDestinationRule.
  destruct (seHosts se) as [|host hosts]; simpl; [tauto|].
  unfold base_traffic_policy, getClientConnectionPoolOverrides.
  destruct ccc as [c|]; simpl.
  - destruct (CccConnectionPool c) eqn:E; simpl.
    + split; [|intros [?|(c' & [= <-] & ?)]; congruence].
      repeat case_match; done.
    + split; [intros _; right; by exists c|done].
  - split; [|intros [?|(c' & ? & _)]; done]. repeat case_match; done.
Qed.
