(* ===== verification/Writers.v ===== *)
(** * Writing service entries and destination rules

    [clusters/serviceentry_handler.go] and the write half of
    [clusters/destinationrule_handler.go]: create, update with retries on
    conflict, delete, and the check that keeps an update from destroying endpoints
    while Admiral boots.

    The API server is [KubeClient], one per kind of resource; its state [St] is
    arbitrary, so that between any two calls other clients may have written. *)
From S2P Require Import Prelude GoStrings Config Objects Metadata ServiceCache.
From stdpp Require Import options.
Local Open Scope Z_scope.

(** The errors that the code tells apart. *)
Inductive api_error := AlreadyExists | Conflict | NotFound | OtherError (msg : string).
#[export] Instance api_error_eq_dec : EqDecision api_error.
Proof. solve_decision. Defined.

(** A namespaced client; the first argument of each operation is the namespace. *)
Class KubeClient (St Obj : Type) := {
  api_create : string -> Obj -> St -> St * option api_error;
  api_update : string -> Obj -> St -> St * option api_error;
  api_delete : string -> string -> St -> St * option api_error;
  api_get : string -> string -> St -> St * (Obj + api_error)
}.

Definition created_by_key := "app.kubernetes.io/created-by".

(** [if obj.Annotations == nil {...}; obj.Annotations[created-by] = "admiral"]. *)
Definition annotate_created_by (m : ObjectMeta) : ObjectMeta :=
  m <| Annotations := Some (<[created_by_key := "admiral"]> (default ∅ (Annotations m))) |>.

(** ** Retried updates *)

(** Both retry functions get the object again, put the new contents in it and update,
    at most five times; the calls' last error is not reported, the first one is. *)
Section Retry.
Context {St Obj : Type} {client : KubeClient St Obj}.
Context (getNamespace namespace name : string) (patch : Obj -> Obj).

Fixpoint retry_update_loop (tries : nat) (s : St) : St * bool :=
  match tries with
  | O => (s, false)
  | S tries' =>
      let '(s1, r) := api_get getNamespace name s in
      match r with
      | inr _ => retry_update_loop tries' s1
      | inl updated =>
          let '(s2, err) := api_update namespace (patch updated) s1 in
          match err with
          | None => (s2, true)
          | Some _ => retry_update_loop tries' s2
          end
      end
  end.

Definition numRetries : nat := 5.

Definition retry_update (err : option api_error) (s : St) : St * option api_error :=
  match err with
  | Some Conflict =>
      let '(s', ok) := retry_update_loop numRetries s in
      (s', if (ok : bool) then None else Some Conflict)
  | _ => (s, err)
  end.

End Retry.

(** ** Service entries *)

Section ServiceEntryWriter.
Context {St : Type} {client : KubeClient St ServiceEntryObj} (p : AdmiralParams).

Definition patch_se (obj updated : ServiceEntryObj) : ServiceEntryObj :=
  mkServiceEntryObj
    (SeMeta updated <| Annotations := Annotations (SeMeta obj) |> <| Labels := Labels (SeMeta obj) |>)
    (SeSpec obj).

Definition retryUpdatingSE (obj exist : ServiceEntryObj) (namespace : string)
    (err : option api_error) (s : St) : St * option api_error :=
  retry_update (GetSyncNamespace p) namespace (Name (SeMeta exist)) (patch_se obj) err s.

(** The valid endpoints, and whether all were. *)
Definition validateAndProcessServiceEntryEndpoints (obj : ServiceEntryObj) : ServiceEntryObj * bool :=
  let valid ep := negb (weAddress ep =?s DummyAdmiralGlobal) in
  (obj <| SeSpec := SeSpec obj <| seEndpoints := List.filter valid (seEndpoints (SeSpec obj)) |> |>,
   forallb valid (seEndpoints (SeSpec obj))).

(** Two endpoints print the same: a nil map prints like an empty one. *)
Definition endpoint_string_eq (a b : WorkloadEntry) : bool :=
  bool_decide (a <| weLabels := Some (default ∅ (weLabels a)) |>
               = b <| weLabels := Some (default ∅ (weLabels b)) |>).

(** [oldEndpointMap]: the last endpoint of each address. *)
Definition endpoint_map (l : list WorkloadEntry) : gmap string WorkloadEntry :=
  foldl (fun m ep => <[weAddress ep := ep]> m) ∅ l.

(** The destructive flag; [None] is the panic on a service entry without hosts. *)
Definition getServiceEntryDiff (new old : option ServiceEntryObj) : option bool :=
  match new, old with
  | Some new, Some old =>
      let seNew := SeSpec new in let seOld := SeSpec old in
      let oldEndpointMap := endpoint_map (seEndpoints seOld) in
      let updated := existsb (fun ep => match oldEndpointMap !! weAddress ep with
                                        | Some val => negb (endpoint_string_eq val ep)
                                        | None => false
                                        end) (seEndpoints seNew) in
      let deleted := existsb (fun kv => negb (str_in kv.1 (map weAddress (seEndpoints seNew))))
                       (map_to_list oldEndpointMap) in
      host ← head (seHosts seNew);
      let removedNamespace :=
        if EnableExportTo p host
        then existsb (fun ns => negb (str_in ns (seExportTo seNew))) (seExportTo seOld)
        else false in
      Some (updated || deleted || removedNamespace)
  | _, _ => Some false
  end.

(** [sinceStart] is [time.Since(rc.StartTime)]. *)
Definition skipDestructiveUpdate (sinceStart : Z) (new old : ServiceEntryObj) : option bool :=
  destructive ← getServiceEntryDiff (Some new) (Some old);
  Some ((sinceStart <? 2 * p.(Params.CacheReconcileDuration)) && destructive).

(** The update half: [exist] is the stored object. *)
Definition update_existing_se (sinceStart : Z) (obj exist : ServiceEntryObj) (areEndpointsValid : bool)
    (namespace : string) (err : option api_error) (s : St) : option (St * option api_error) :=
  if areEndpointsValid then
    let exist := exist <| SeMeta := SeMeta exist <| Labels := Labels (SeMeta obj) |>
                                     <| Annotations := Annotations (SeMeta obj) |> |> in
    skipUpdate ← skipDestructiveUpdate sinceStart obj exist;
    if (skipUpdate : bool) then Some (s, None)
    else
      let exist := exist <| SeSpec := SeSpec obj |> in
      let '(s1, err) := api_update namespace exist s in
      Some (match err with
            | Some _ => retryUpdatingSE obj exist namespace err s1
            | None => (s1, None)
            end)
  else Some (s, err).

Definition addUpdateServiceEntry (sinceStart : Z) (obj : ServiceEntryObj)
    (exist : option ServiceEntryObj) (namespace : string) (s : St)
    : option (St * option api_error) :=
  let obj := obj <| SeMeta := annotate_created_by (SeMeta obj) |> in
  let '(obj, areEndpointsValid) := validateAndProcessServiceEntryEndpoints obj in
  let seIsNew := match exist with
                 | None => true
                 | Some e => Nat.eqb (length (seHosts (SeSpec e))) 0
                 end in
  match exist, seIsNew with
  | Some e, false => update_existing_se sinceStart obj e areEndpointsValid namespace None s
  | _, _ =>
      if Nat.ltb 0 (length (seEndpoints (SeSpec obj))) then
        let obj := obj <| SeMeta := SeMeta obj <| Namespace := namespace |> <| ResourceVersion := "" |> |> in
        let '(s1, err) := api_create namespace obj s in
        match err with
        | Some AlreadyExists =>
            let '(s2, r) := api_get namespace (Name (SeMeta obj)) s1 in
            match r with
            | inl e => update_existing_se sinceStart obj e areEndpointsValid namespace None s2
            | inr e => update_existing_se sinceStart obj obj areEndpointsValid namespace (Some e) s2
            end
        | _ => Some (s1, err)
        end
      else Some (s, None)
  end.

Definition deleteServiceEntry (serviceEntry : option ServiceEntryObj) (namespace : string) (s : St)
    : St * option api_error :=
  match serviceEntry with
  | None => (s, None)
  | Some se =>
      let '(s1, err) := api_delete namespace (Name (SeMeta se)) s in
      match err with
      | Some NotFound | None => (s1, None)
      | Some e => (s1, Some e)
      end
  end.

Definition createServiceEntrySkeleton (se : ServiceEntry) (name namespace : string) : ServiceEntryObj :=
  mkServiceEntryObj (mkMeta name namespace None None 0 "") se.

End ServiceEntryWriter.

(** ** Destination rules *)

Section DestinationRuleWriter.
Context {St : Type} {client : KubeClient St DestinationRuleObj} (p : AdmiralParams).

Definition patch_dr (exist updated : DestinationRuleObj) : DestinationRuleObj :=
  mkDestinationRuleObj
    (DrMeta updated <| Labels := Labels (DrMeta exist) |> <| Annotations := Annotations (DrMeta exist) |>)
    (DrSpec exist).

Definition retryUpdatingDR (exist : DestinationRuleObj) (namespace : string)
    (err : option api_error) (s : St) : St * option api_error :=
  retry_update namespace namespace (Name (DrMeta exist)) (patch_dr exist) err s.

Definition update_existing_dr (obj exist : DestinationRuleObj) (namespace : string) (s : St)
    : St * option api_error :=
  let exist := mkDestinationRuleObj
    (DrMeta exist <| Labels := Labels (DrMeta obj) |> <| Annotations := Annotations (DrMeta obj) |>)
    (DrSpec obj) in
  let '(s1, err) := api_update namespace exist s in
  match err with
  | Some _ => retryUpdatingDR exist namespace err s1
  | None => (s1, None)
  end.

(** [dependentNamespaces] is the result of [getSortedDependentNamespaces] for the rule's
    host and the cluster ([Dependents.v]). *)
Definition addUpdateDestinationRule (dr : DestinationRuleObj) (exist : option DestinationRuleObj)
    (namespace : string) (dependentNamespaces : list string) (s : St) : St * option api_error :=
  let obj := dr <| DrMeta := annotate_created_by (DrMeta dr) |> in
  let skipAddingExportTo := mget (Labels (DrMeta obj)) VSRoutingLabel =?s "enabled" in
  let obj := if EnableExportTo p (drHost (DrSpec obj)) && Nat.eqb (length (drExportTo (DrSpec obj))) 0
                && negb skipAddingExportTo
             then obj <| DrSpec := DrSpec obj <| drExportTo := dependentNamespaces |> |> else obj in
  let drIsNew := match exist with
                 | None => true
                 | Some e => is_empty (Name (DrMeta e)) || is_empty (drHost (DrSpec e))
                 end in
  match exist, drIsNew with
  | Some e, false => update_existing_dr obj e namespace s
  | _, _ =>
      let obj := obj <| DrMeta := DrMeta obj <| Namespace := namespace |> <| ResourceVersion := "" |> |> in
      let '(s1, err) := api_create namespace obj s in
      match err with
      | Some AlreadyExists =>
          let '(s2, r) := api_get namespace (Name (DrMeta obj)) s1 in
          update_existing_dr obj (match r with inl e => e | inr _ => obj end) namespace s2
      | _ => (s1, err)
      end
  end.

Definition deleteDestinationRule (exist : option DestinationRuleObj) (namespace : string) (s : St)
    : St * option api_error :=
  match exist with
  | None => (s, None)
  | Some e =>
      let '(s1, err) := api_delete namespace (Name (DrMeta e)) s in
      match err with
      | Some NotFound | None => (s1, None)
      | Some e => (s1, Some e)
      end
  end.

End DestinationRuleWriter.

(** ** Lemmas *)

#[global] Arguments retry_update : simpl never.
#[global] Arguments numRetries : simpl never.
#[global] Arguments update_existing_se : simpl never.
#[global] Arguments update_existing_dr : simpl never.

Lemma Forall_one {A} (P : A -> Prop) x : P x -> Forall P [x].
Proof. intros H. constructor; [done|constructor]. Qed.

(** A client that also records the namespaces and the objects of the writes it is asked
    for. *)
Section Recording.
Context {St Obj : Type} (client : KubeClient St Obj).

Definition recording : KubeClient (St * list (string * Obj)) Obj := {|
  api_create ns o s := let '(s', e) := api_create ns o s.1 in ((s', s.2 ++ [(ns, o)]), e);
  api_update ns o s := let '(s', e) := api_update ns o s.1 in ((s', s.2 ++ [(ns, o)]), e);
  api_delete ns n s := let '(s', e) := api_delete ns n s.1 in ((s', s.2), e);
  api_get ns n s := let '(s', r) := api_get ns n s.1 in ((s', s.2), r)
|}.

(** What the API server documents of names: an object is found under its own name and
    namespace, if [Inv] says this of what is stored and objects are written in their own
    namespace. *)
Record keeps_names (meta : Obj -> ObjectMeta) (Inv : St -> Prop) : Prop := {
  names_create : forall ns o s, Inv s -> Namespace (meta o) = ns -> Inv (api_create ns o s).1;
  names_update : forall ns o s, Inv s -> Namespace (meta o) = ns -> Inv (api_update ns o s).1;
  names_get : forall ns n s, Inv s -> Inv (api_get ns n s).1 /\
    forall o, (api_get ns n s).2 = inl o -> Name (meta o) = n /\ Namespace (meta o) = ns
}.
Context (meta : Obj -> ObjectMeta) (Inv : St -> Prop) (names : keeps_names meta Inv).

(** The retry writes at most as often as it tries, and only patched objects. *)
Lemma retry_loop_record ns name (patch : Obj -> Obj) (P : Obj -> Prop) tries s :
  Inv s.1 -> (forall o, Name (meta o) = name -> Namespace (meta o) = ns -> P (patch o) /\ Namespace (meta (patch o)) = ns) ->
  exists l, (retry_update_loop (client := recording) ns ns name patch tries s).1.2 = s.2 ++ map (pair ns) l /\
    (length l <= tries)%nat /\ Forall P l.
Proof using names.
  intros Hi HP. revert s Hi. induction tries as [|tries IH]; intros [s lg] Hi; simpl in *.
  { exists []. rewrite app_nil_r. split_and!; [done|done|constructor]. }
  destruct (names_get _ _ names ns name s Hi) as [Hi1 Hn]. destruct (api_get ns name s) as [s1 [o|e]]; simpl in *.
  - destruct (Hn o eq_refl) as [Hname Hns]. destruct (HP o Hname Hns) as [Ho Hp].
    pose proof (names_update _ _ names ns (patch o) s1 Hi1 Hp) as Hi2.
    destruct (api_update ns (patch o) s1) as [s2 [e|]]; simpl in *.
    + destruct (IH (s2, lg ++ [(ns, patch o)]) Hi2) as (l & -> & Hl & Hf).
      exists (patch o :: l). simpl. rewrite <- app_assoc. split_and!; [done|lia|by constructor].
    + exists [patch o]. split_and!; [done|simpl; lia|by apply Forall_one].
  - destruct (IH (s1, lg) Hi1) as (l & -> & Hl & Hf). exists l. split_and!; [done|lia|done].
Qed.

Lemma retry_update_record ns name (patch : Obj -> Obj) (P : Obj -> Prop) err s :
  Inv s.1 -> (forall o, Name (meta o) = name -> Namespace (meta o) = ns -> P (patch o) /\ Namespace (meta (patch o)) = ns) ->
  exists l, (retry_update (client := recording) ns ns name patch err s).1.2 = s.2 ++ map (pair ns) l /\
    (length l <= 5)%nat /\ Forall P l.
Proof using names.
  intros Hi HP. unfold retry_update.
  destruct err as [[| | |]|]; try (exists []; rewrite app_nil_r; split_and!; [done|simpl; lia|constructor]).
  destruct (retry_loop_record ns name patch P numRetries s Hi HP) as (l & H1 & H2 & H3).
  destruct (retry_update_loop _ _ _ _ _ _) as [s' ok]. exists l. by split_and!.
Qed.

End Recording.

Section ServiceEntryProofs.
Context (p : AdmiralParams).

Lemma endpoint_map_lookup l a ep :
  endpoint_map l !! a = Some ep -> ep ∈ l /\ weAddress ep = a.
Proof.
  unfold endpoint_map. induction l as [|e l IH] using rev_ind; [done|].
  rewrite foldl_app. simpl. rewrite lookup_insert_Some, elem_of_app, list_elem_of_singleton.
  intros [[<- <-]|[_ H]]; [auto|]. apply IH in H as [? ?]. auto.
Qed.

Lemma endpoint_map_dom l ep : ep ∈ l -> is_Some (endpoint_map l !! weAddress ep).
Proof.
  unfold endpoint_map. induction l as [|e l IH] using rev_ind; [by intros ?%elem_of_nil|].
  rewrite foldl_app, elem_of_app, list_elem_of_singleton. simpl. intros Hin.
  destruct (decide (weAddress e = weAddress ep)) as [->|Hne]; [by rewrite lookup_insert_eq|].
  rewrite lookup_insert_ne by done. destruct Hin as [Hin|Hin]; [by apply IH|by subst].
Qed.

(** The new service entry keeps what the old one has: every endpoint address, the
    contents of the endpoints it shares, and (when they are managed) the namespaces it
    is exported to. *)
Definition preserves (old new : ServiceEntry) : Prop :=
  (forall ep, ep ∈ seEndpoints old -> exists ep', ep' ∈ seEndpoints new /\ weAddress ep' = weAddress ep) /\
  (forall ep ep', endpoint_map (seEndpoints old) !! weAddress ep' = Some ep -> ep' ∈ seEndpoints new ->
     endpoint_string_eq ep ep' = true) /\
  (forall host, head (seHosts new) = Some host -> EnableExportTo p host = true ->
     forall ns, ns ∈ seExportTo old -> ns ∈ seExportTo new).

Lemma existsb_false_iff {A} (f : A -> bool) l :
  existsb f l = false <-> forall x, x ∈ l -> f x = false.
Proof.
  rewrite <- not_true_iff_false, existsb_iff. split.
  - intros H x Hx. destruct (f x) eqn:E; [|done]. exfalso. apply H. by exists x.
  - intros H (x & Hx & E). by rewrite H in E.
Qed.

Lemma diff_spec new old :
  seHosts (SeSpec new) <> [] ->
  getServiceEntryDiff p (Some new) (Some old) = Some false <-> preserves (SeSpec old) (SeSpec new).
Proof.
  intros Hh. unfold getServiceEntryDiff, preserves.
  destruct (head (seHosts (SeSpec new))) as [host|] eqn:Eh; [|by destruct (seHosts (SeSpec new))].
  simpl. set (m := endpoint_map (seEndpoints (SeSpec old))).
  assert (forall b, Some b = Some false <-> b = false) as Hs by (intros b; split; congruence).
  rewrite Hs, !orb_false_iff, !existsb_false_iff. clear Hs. split.
  - intros [[Hu Hd] Hn]. split_and!.
    + intros ep Hep. destruct (endpoint_map_dom _ _ Hep) as [e He].
      specialize (Hd (weAddress ep, e)). rewrite elem_of_map_to_list in Hd.
      apply Hd, negb_false_iff, str_in_spec, list_elem_of_fmap in He as (ep' & E & ?). by exists ep'.
    + intros ep ep' He Hin. specialize (Hu ep' Hin). rewrite He in Hu.
      by apply negb_false_iff in Hu.
    + intros host' [= <-] Hex ns Hns. rewrite Hex in Hn. rewrite existsb_false_iff in Hn.
      by apply Hn, negb_false_iff, str_in_spec in Hns.
  - intros (Ha & Hc & He). split; [split|].
    + intros ep Hin. destruct (m !! weAddress ep) as [v|] eqn:E; [|done].
      apply negb_false_iff. by eapply Hc.
    + intros [a v] Hv. apply elem_of_map_to_list in Hv. apply endpoint_map_lookup in Hv as [Hv <-].
      destruct (Ha _ Hv) as (ep' & Hin & E). simpl. apply negb_false_iff, str_in_spec.
      rewrite <- E. by apply list_elem_of_fmap_2.
    + destruct (EnableExportTo p host) eqn:Ex; [|done]. apply existsb_false_iff.
      intros ns Hns. apply negb_false_iff, str_in_spec. by eapply He.
Qed.

Context {St : Type} (client : KubeClient St ServiceEntryObj).

(** While Admiral boots (for twice the reconcile interval), an update that would drop
    an endpoint or an exported namespace of the stored service entry, or change an
    endpoint it keeps, is skipped: no call reaches the API server and no error is
    returned. *)
Theorem boot_update_not_destructive sinceStart obj e ns s :
  seHosts (SeSpec obj) <> [] -> seHosts (SeSpec e) <> [] ->
  sinceStart < 2 * p.(Params.CacheReconcileDuration) ->
  ~ preserves (SeSpec e) (SeSpec obj) ->
  Forall (fun ep => weAddress ep <> DummyAdmiralGlobal) (seEndpoints (SeSpec obj)) ->
  addUpdateServiceEntry p sinceStart obj (Some e) ns s = Some (s, None).
Proof.
  intros Hh He Hb Hnp Hv. unfold addUpdateServiceEntry.
  assert (validateAndProcessServiceEntryEndpoints
            (obj <| SeMeta := annotate_created_by (SeMeta obj) |>)
          = (obj <| SeMeta := annotate_created_by (SeMeta obj) |>, true)) as ->.
  { unfold validateAndProcessServiceEntryEndpoints.
    assert (forall l, Forall (fun ep => weAddress ep <> DummyAdmiralGlobal) l ->
      List.filter (fun ep => negb (weAddress ep =?s DummyAdmiralGlobal)) l = l /\
      forallb (fun ep => negb (weAddress ep =?s DummyAdmiralGlobal)) l = true) as Hf.
    { induction 1 as [|ep l Hep _ [IH1 IH2]]; simpl; [done|].
      apply seqb_neq in Hep. by rewrite Hep, IH1, IH2. }
    destruct (Hf _ Hv) as [H1 H2]. destruct obj as [om []]. simpl in *. cbn. by rewrite H1, H2. }
  destruct (Nat.eqb_spec (length (seHosts (SeSpec e))) 0) as [E|E];
    [by destruct (seHosts (SeSpec e))|].
  unfold update_existing_se, skipDestructiveUpdate.
  set (obj' := obj <| SeMeta := _ |>). set (e' := e <| SeMeta := _ |>).
  pose proof (diff_spec obj' e' Hh) as Hd.
  destruct (getServiceEntryDiff p (Some obj') (Some e')) as [[|]|] eqn:Eg; simpl.
  - apply Z.ltb_lt in Hb. by rewrite Hb.
  - exfalso. apply Hnp. by apply Hd.
  - exfalso. unfold getServiceEntryDiff in Eg. simpl in Eg. by destruct (seHosts (SeSpec obj)).
Qed.

(** What a written object must be: the desired spec, field by field, without dummy
    endpoints, the desired labels, and the desired annotations with the mark of Admiral. *)
Definition desired (obj o : ServiceEntryObj) : Prop :=
  SeSpec o = SeSpec obj <| seEndpoints :=
    List.filter (fun ep => negb (weAddress ep =?s DummyAdmiralGlobal)) (seEndpoints (SeSpec obj)) |> /\
  Labels (SeMeta o) = Labels (SeMeta obj) /\
  Annotations (SeMeta o) = Some (<[created_by_key := "admiral"]> (default ∅ (Annotations (SeMeta obj)))).

Abbreviation sync := (GetSyncNamespace p).

(** It also has the name of the desired object, and is in Admiral's namespace. *)
Definition desired_there (obj o : ServiceEntryObj) : Prop :=
  desired obj o /\ Name (SeMeta o) = Name (SeMeta obj) /\ Namespace (SeMeta o) = sync.

Context (Inv : St -> Prop) (names : keeps_names client SeMeta Inv).

Lemma update_existing_record sinceStart obj o e valid err s s' err' :
  desired obj o -> Inv s.1 -> Name (SeMeta e) = Name (SeMeta obj) -> Namespace (SeMeta e) = sync ->
  update_existing_se (client := recording client) p sinceStart o e valid sync err s = Some (s', err') ->
  exists l, s'.2 = s.2 ++ map (pair sync) l /\ (length l <= 6)%nat /\ Forall (desired_there obj) l.
Proof using names.
  intros Hd Hi Hname Hns. unfold update_existing_se.
  destruct valid; [|intros [= <- <-]; exists []; rewrite app_nil_r; split_and!; [done|simpl; lia|constructor]].
  destruct (skipDestructiveUpdate _ _ _ _) as [[|]|]; simpl; [| |done].
  { intros [= <- <-]. exists []. rewrite app_nil_r. split_and!; [done|simpl; lia|constructor]. }
  set (w := _ <| SeSpec := SeSpec o |>).
  assert (desired_there obj w) as Hw by (split; [exact Hd|done]).
  pose proof (names_update _ _ _ names sync w s.1 Hi Hns) as Hi1.
  destruct (api_update sync w s.1) as [s1 [e1|]].
  - intros [= E1].
    destruct (retry_update_record client SeMeta Inv names sync (Name (SeMeta w)) (patch_se o)
      (desired_there obj) (Some e1) (s1, s.2 ++ [(sync, w)])) as (l & Hl & Hlen & Hf); [exact Hi1| |].
    { intros u Hu Hn. split; [split; [exact Hd|]|done]. split; [|done]. simpl in *. congruence. }
    unfold retryUpdatingSE in E1. rewrite E1 in Hl. exists (w :: l). simpl in *.
    rewrite Hl, <- app_assoc. split_and!; [done|lia|by constructor].
  - intros [= <- <-]. exists [w]. split_and!; [done|simpl; lia|by apply Forall_one].
Qed.

Lemma create_record sinceStart obj o valid s r :
  desired obj o -> Name (SeMeta o) = Name (SeMeta obj) -> Inv s ->
  (let o' := o <| SeMeta := SeMeta o <| Namespace := sync |> <| ResourceVersion := "" |> |> in
   if Nat.ltb 0 (length (seEndpoints (SeSpec o))) then
     let '(s1, err) := api_create (KubeClient := recording client) sync o' (s, []) in
     match err with
     | Some AlreadyExists =>
         let '(s2, r) := api_get (KubeClient := recording client) sync (Name (SeMeta o')) s1 in
         match r with
         | inl e => update_existing_se (client := recording client) p sinceStart o' e valid sync None s2
         | inr e => update_existing_se (client := recording client) p sinceStart o' o' valid sync (Some e) s2
         end
     | _ => Some (s1, err)
     end
   else Some ((s, []), None)) = Some r ->
  exists l, r.1.2 = map (pair sync) l /\ (length l <= 7)%nat /\ Forall (desired_there obj) l.
Proof using names.
  intros Hd Hn Hi. cbv zeta. set (o' := o <| SeMeta := _ |>). destruct r as [s2 e2].
  assert (desired_there obj o') as Hd' by (split; [exact Hd|done]).
  destruct (Nat.ltb 0 (length (seEndpoints (SeSpec o)))).
  2: { intros [= <- <-]. exists []. split_and!; [done|simpl; lia|constructor]. }
  simpl. pose proof (names_create _ _ _ names sync o' s Hi eq_refl) as Hi1.
  destruct (api_create sync o' s) as [s1 e1]. simpl in Hi1.
  assert (forall (b : St * list (string * ServiceEntryObj)), b.2 = [(sync, o')] ->
    exists l, b.2 = map (pair sync) l /\ (length l <= 7)%nat /\ Forall (desired_there obj) l) as Hone.
  { intros b ->. exists [o']. split_and!; [done|simpl; lia|by apply Forall_one]. }
  destruct e1 as [[| | |]|]; simpl; try (intros [= <- <-]; by apply Hone).
  destruct (names_get _ _ _ names sync (Name (SeMeta o')) s1 Hi1) as [Hi3 Hg]. change (Name (SeMeta o')) with (Name (SeMeta o)) in *.
  destruct (api_get sync (Name (SeMeta o)) s1) as [s3 [e|e]]; simpl in *; intros H2.
  - destruct (Hg e eq_refl) as [He1 He2].
    destruct (update_existing_record sinceStart obj o' e valid None (s3, [(sync, o')]) s2 e2) as (l & Hl & Hlen & Hf);
      [apply Hd'|done|congruence|done|done|]. exists (o' :: l). split_and!; [done|simpl; lia|by constructor].
  - destruct (update_existing_record sinceStart obj o' o' valid (Some e) (s3, [(sync, o')]) s2 e2) as (l & Hl & Hlen & Hf);
      [apply Hd'|done|done|done|done|]. exists (o' :: l). split_and!; [done|simpl; lia|by constructor].
Qed.


End ServiceEntryProofs.

(** ** What the writers leave of an invariant of the server

    A client keeps the preorder [P] with every call when the written objects satisfy [Qw]
    and the deleted names [Qd]; the writers then keep it on all their paths. *)
Record client_post {St Obj : Type} (client : KubeClient St Obj) (P : St -> St -> Prop)
    (Qw : string -> Obj -> Prop) (Qd : string -> string -> Prop) : Prop := {
  post_create : forall ns o s, Qw ns o -> P s (api_create ns o s).1;
  post_update : forall ns o s, Qw ns o -> P s (api_update ns o s).1;
  post_delete : forall ns name s, Qd ns name -> P s (api_delete ns name s).1;
  post_get : forall ns name s, P s (api_get ns name s).1
}.

(** A get finds objects of the name it is asked for. *)
Definition gets_named {St Obj} (client : KubeClient St Obj) (meta : Obj -> ObjectMeta) : Prop :=
  forall ns n s o, (api_get ns n s).2 = inl o -> Name (meta o) = n.

Section Post.
Context {St Obj : Type} {client : KubeClient St Obj} (P : St -> St -> Prop) {pre : PreOrder P}.
Context (Qw : string -> Obj -> Prop) (Qd : string -> string -> Prop).
Context (Hc : client_post client P Qw Qd).

Lemma retry_loop_post gns ns name (patch : Obj -> Obj) tries s :
  (forall o, (exists s', (api_get gns name s').2 = inl o) -> Qw ns (patch o)) -> P s (retry_update_loop gns ns name patch tries s).1.
Proof using pre Hc.
  intros HQ. revert s. induction tries as [|tries IH]; intros s; simpl; [reflexivity|].
  pose proof (post_get _ _ _ _ Hc gns name s) as Hg. destruct (api_get gns name s) as [s1 [o|e]] eqn:Eg; simpl in *.
  - assert (exists s', (api_get gns name s').2 = inl o) as Ho by (exists s; by rewrite Eg).
    pose proof (post_update _ _ _ _ Hc ns (patch o) s1 (HQ o Ho)) as Hu.
    destruct (api_update ns (patch o) s1) as [s2 [e|]]; simpl in *; [|by etrans].
    etrans; [exact Hg|]. etrans; [exact Hu|apply IH].
  - etrans; [exact Hg|apply IH].
Qed.

Lemma retry_update_post gns ns name (patch : Obj -> Obj) err s :
  (forall o, (exists s', (api_get gns name s').2 = inl o) -> Qw ns (patch o)) -> P s (retry_update gns ns name patch err s).1.
Proof using pre Hc.
  intros HQ. unfold retry_update. destruct err as [[| | |]|]; try reflexivity.
  pose proof (retry_loop_post gns ns name patch numRetries s HQ) as Hr.
  by destruct (retry_update_loop _ _ _ _ _ _).
Qed.

(** An update that is retried. *)
Lemma update_retry_post gns ns name (patch : Obj -> Obj) w s :
  Qw ns w -> (forall o, (exists s', (api_get gns name s').2 = inl o) -> Qw ns (patch o)) ->
  P s (let '(s1, err) := api_update ns w s in
       match err with Some _ => retry_update gns ns name patch err s1 | None => (s1, None) end).1.
Proof using pre Hc.
  intros Hw HQ. pose proof (post_update _ _ _ _ Hc ns w s Hw) as Hu.
  destruct (api_update ns w s) as [s1 [e|]]; simpl in *; [|done].
  etrans; [exact Hu|]. by apply retry_update_post.
Qed.

(** A creation, with an update when the object turns out to exist. *)
Lemma create_post ns name o (k : St -> Obj + api_error -> St * option api_error) s :
  Qw ns o -> (forall s r, (exists s', (api_get ns name s').2 = r) -> P s (k s r).1) ->
  P s (let '(s1, err) := api_create ns o s in
       match err with
       | Some AlreadyExists => let '(s2, r) := api_get ns name s1 in k s2 r
       | _ => (s1, err)
       end).1.
Proof using pre Hc.
  intros Hw Hk. pose proof (post_create _ _ _ _ Hc ns o s Hw) as Hcr.
  destruct (api_create ns o s) as [s1 [[| | |]|]]; simpl in *; try done.
  pose proof (post_get _ _ _ _ Hc ns name s1) as Hg. destruct (api_get ns name s1) as [s2 r] eqn:Er. simpl in *.
  etrans; [exact Hcr|]. etrans; [exact Hg|]. apply Hk. exists s1. by rewrite Er.
Qed.
End Post.

Section WriterPost.
Context {St : Type} (P : St -> St -> Prop) {pre : PreOrder P} (p : AdmiralParams).

Lemma update_existing_se_post {client : KubeClient St ServiceEntryObj} Qw Qd sinceStart obj o e valid ns err s s' err' :
  client_post client P Qw Qd -> desired obj o -> (forall x, desired obj x -> Qw ns x) ->
  update_existing_se p sinceStart o e valid ns err s = Some (s', err') -> P s s'.
Proof using pre.
  intros Hc Hd HQ. unfold update_existing_se. destruct valid; [|by intros [= <- <-]].
  destruct (skipDestructiveUpdate _ _ _ _) as [[|]|]; simpl; [by intros [= <- <-]| |done].
  set (w := _ <| SeSpec := SeSpec o |>). intros H.
  pose proof (update_retry_post P Qw Qd Hc (GetSyncNamespace p) ns (Name (SeMeta w)) (patch_se o) w s
    (HQ w Hd) (fun x _ => HQ (patch_se o x) Hd)) as Hp. unfold retryUpdatingSE in H.
  destruct (api_update ns w s) as [s1 [e1|]]; simpl in *; injection H as H; [by rewrite H in Hp|by subst].
Qed.

Lemma addUpdateServiceEntry_post {client : KubeClient St ServiceEntryObj} Qw Qd sinceStart obj old ns s s' err :
  client_post client P Qw Qd -> (forall x, desired obj x -> Qw ns x) ->
  addUpdateServiceEntry p sinceStart obj old ns s = Some (s', err) -> P s s'.
Proof using pre.
  intros Hc HQ. unfold addUpdateServiceEntry.
  destruct (validateAndProcessServiceEntryEndpoints _) as [o valid] eqn:Ev.
  assert (desired obj o) as Hd by (by injection Ev as <- _).
  set (o' := o <| SeMeta := SeMeta o <| Namespace := ns |> <| ResourceVersion := "" |> |>).
  assert (desired obj o') as Hd' by exact Hd.
  assert ((if Nat.ltb 0 (length (seEndpoints (SeSpec o))) then
      let '(s1, err) := api_create ns o' s in
      match err with
      | Some AlreadyExists =>
          let '(s2, r) := api_get ns (Name (SeMeta o')) s1 in
          match r with
          | inl e => update_existing_se p sinceStart o' e valid ns None s2
          | inr e => update_existing_se p sinceStart o' o' valid ns (Some e) s2
          end
      | _ => Some (s1, err)
      end else Some (s, None)) = Some (s', err) -> P s s') as Hcreate.
  { destruct (Nat.ltb _ _); [|by intros [= <- <-]].
    pose proof (post_create _ _ _ _ Hc ns o' s (HQ _ Hd')) as Hcr.
    destruct (api_create ns o' s) as [s1 [[| | |]|]]; simpl in *; try (by intros [= <- <-]).
    pose proof (post_get _ _ _ _ Hc ns (Name (SeMeta o)) s1) as Hg.
    destruct (api_get ns (Name (SeMeta o)) s1) as [s2 [e|e]]; simpl in *; intros H;
      (etrans; [exact Hcr|]; etrans; [exact Hg|by eapply update_existing_se_post]). }
  destruct old as [e|]; [|exact Hcreate].
  destruct (Nat.eqb (length (seHosts (SeSpec e))) 0); [exact Hcreate|].
  by eapply update_existing_se_post.
Qed.

Lemma deleteServiceEntry_post {client : KubeClient St ServiceEntryObj} Qw Qd old ns s :
  client_post client P Qw Qd -> (forall se, old = Some se -> Qd ns (Name (SeMeta se))) ->
  P s (deleteServiceEntry old ns s).1.
Proof using pre.
  intros Hc HQ. unfold deleteServiceEntry. destruct old as [se|]; [|reflexivity].
  pose proof (post_delete _ _ _ _ Hc ns (Name (SeMeta se)) s (HQ se eq_refl)) as Hd.
  by destruct (api_delete _ _ _) as [s1 [[| | |]|]].
Qed.

(** What a written destination rule must be: the desired spec, but for an [exportTo] that
    was left open. *)
Definition desired_dr (dr o : DestinationRuleObj) : Prop :=
  drHost (DrSpec o) = drHost (DrSpec dr) /\
  drTrafficPolicy (DrSpec o) = drTrafficPolicy (DrSpec dr) /\
  (drExportTo (DrSpec dr) <> [] -> drExportTo (DrSpec o) = drExportTo (DrSpec dr)) /\
  Labels (DrMeta o) = Labels (DrMeta dr) /\
  Annotations (DrMeta o) = Some (<[created_by_key := "admiral"]> (default ∅ (Annotations (DrMeta dr)))).

Lemma update_existing_dr_post {client : KubeClient St DestinationRuleObj} Qw Qd dr o e ns s :
  client_post client P Qw Qd -> desired_dr dr o ->
  (forall x, desired_dr dr x -> (gets_named client DrMeta -> Name (DrMeta x) = Name (DrMeta e)) -> Qw ns x) ->
  P s (update_existing_dr o e ns s).1.
Proof using pre.
  intros Hc Hd HQ. unfold update_existing_dr, retryUpdatingDR. set (w := mkDestinationRuleObj _ _).
  apply (update_retry_post P Qw Qd Hc ns ns (Name (DrMeta w)) (patch_dr w) w s); [by apply HQ|].
  intros x [s' Hx]. apply HQ; [done|]. intros Hn. exact (Hn _ _ _ _ Hx).
Qed.

Lemma addUpdateDestinationRule_post {client : KubeClient St DestinationRuleObj} Qw Qd dr old ns deps s :
  client_post client P Qw Qd ->
  (forall x, desired_dr dr x ->
     (gets_named client DrMeta -> (forall e, old = Some e -> Name (DrMeta e) = Name (DrMeta dr)) ->
      Name (DrMeta x) = Name (DrMeta dr)) -> Qw ns x) ->
  P s (addUpdateDestinationRule p dr old ns deps s).1.
Proof using pre.
  intros Hc HQ. unfold addUpdateDestinationRule. set (obj := if _ && _ && _ then _ else _).
  assert (desired_dr dr obj) as Hd.
  { unfold obj. destruct (EnableExportTo _ _ && _ && _) eqn:E; [|done].
    apply andb_true_iff in E as [[_ E]%andb_true_iff _]. apply Nat.eqb_eq in E.
    repeat split. intros Hne. exfalso. apply Hne. simpl in E. by destruct (drExportTo (DrSpec dr)). }
  assert (Name (DrMeta obj) = Name (DrMeta dr)) as Hname by (unfold obj; by destruct (_ && _ && _)).
  assert (forall e, old = Some e -> P s (update_existing_dr obj e ns s).1) as Hup.
  { intros e He. eapply update_existing_dr_post; [done|done|]. intros x Hx Hn. apply HQ; [done|].
    intros Hg Ho. rewrite (Hn Hg). by apply Ho. }
  set (obj' := obj <| DrMeta := _ |>).
  assert (P s (let '(s1, err) := api_create ns obj' s in
      match err with
      | Some AlreadyExists =>
          let '(s2, r) := api_get ns (Name (DrMeta obj')) s1 in
          update_existing_dr obj' (match r with inl e => e | inr _ => obj' end) ns s2
      | _ => (s1, err)
      end).1) as Hcr.
  { apply (create_post P Qw Qd Hc ns (Name (DrMeta obj')) obj'
      (fun s2 r => update_existing_dr obj' (match r with inl e => e | inr _ => obj' end) ns s2));
      [by apply HQ|]. intros s2 r [s' Hr].
    eapply update_existing_dr_post; [done|done|]. intros x Hx Hn. apply HQ; [done|].
    intros Hg _. rewrite (Hn Hg). destruct r as [e|e]; [by rewrite (Hg _ _ _ _ Hr)|done]. }
  destruct old as [e|]; [|exact Hcr]. by destruct (_ || _); [exact Hcr|apply Hup].
Qed.

Lemma deleteDestinationRule_post {client : KubeClient St DestinationRuleObj} Qw Qd old ns s :
  client_post client P Qw Qd -> (forall dr, old = Some dr -> Qd ns (Name (DrMeta dr))) ->
  P s (deleteDestinationRule old ns s).1.
Proof using pre.
  intros Hc HQ. unfold deleteDestinationRule. destruct old as [dr|]; [|reflexivity].
  pose proof (post_delete _ _ _ _ Hc ns (Name (DrMeta dr)) s (HQ dr eq_refl)) as Hd.
  by destruct (api_delete _ _ _) as [s1 [[| | |]|]].
Qed.
End WriterPost.

(** ** Retries converge *)

Section Convergence.
Context {St Obj : Type} {client : KubeClient St Obj}.
Context (gns ns name : string) (patch : Obj -> Obj).

(** The server's state before attempt [k], when every earlier attempt fails. *)
Fixpoint attempt_state (k : nat) (s : St) : St :=
  match k with
  | O => s
  | S k' =>
      let '(s1, r) := api_get gns name s in
      attempt_state k' (match r with inl o => (api_update ns (patch o) s1).1 | inr _ => s1 end)
  end.

(** One attempt: the get finds the object and its update goes through. *)
Definition attempt_ok (s : St) : bool :=
  match (api_get gns name s).2 with
  | inl o => is_nil (api_update ns (patch o) (api_get gns name s).1).2
  | inr _ => false
  end.

Lemma retry_loop_ok_iff tries s :
  (retry_update_loop gns ns name patch tries s).2 = true <->
  exists k, (k < tries)%nat /\ attempt_ok (attempt_state k s) = true.
Proof.
  revert s. induction tries as [|tries IH]; intros s; simpl.
  { split; [done|]. intros (k & ? & _). lia. }
  unfold attempt_ok in *.
  destruct (api_get gns name s) as [s1 [o|e]] eqn:Eg.
  - destruct (api_update ns (patch o) s1) as [s2 [e|]] eqn:Eu.
    + rewrite IH. split.
      * intros (k & Hk & H). exists (S k). split; [lia|]. simpl. by rewrite Eg, Eu.
      * intros (k & Hk & H). destruct k as [|k]; simpl in H; rewrite Eg in H; simpl in H.
        { by rewrite Eu in H. }
        rewrite Eu in H. exists k. split; [lia|done].
    + split; [|done]. intros _. exists 0%nat. split; [lia|]. simpl. rewrite Eg. simpl. by rewrite Eu.
  - rewrite IH. split.
    + intros (k & Hk & H). exists (S k). split; [lia|]. simpl. by rewrite Eg.
    + intros (k & Hk & H). destruct k as [|k]; simpl in H; rewrite Eg in H; simpl in H; [done|].
      exists k. split; [lia|done].
Qed.

(** A retried update succeeds exactly when there was no error, or the error was a
    conflict and one of five further attempts (get, patch, update) goes through; any
    other error, and a conflict that outlives the attempts, is returned as it was. *)
Theorem retry_update_outcome err s :
  ((retry_update gns ns name patch err s).2 = None <->
     err = None \/
     (err = Some Conflict /\ exists k, (k < 5)%nat /\ attempt_ok (attempt_state k s) = true)) /\
  ((retry_update gns ns name patch err s).2 = None \/ (retry_update gns ns name patch err s).2 = err).
Proof.
  unfold retry_update. pose proof (retry_loop_ok_iff numRetries s) as Hiff.
  destruct err as [[| | |]|]; try (split; [split; [done|]|by right]; intros [?|[? _]]; done).
  - destruct (retry_update_loop _ _ _ _ _ _) as [s' [|]]; simpl in *.
    + split; [|by left]. split; [|done]. intros _. right. split; [done|]. by apply Hiff.
    + split; [|by right]. split; [done|]. intros [?|[_ Hk]]; [done|]. by apply Hiff in Hk.
  - split; [|by left]. split; [by left|done].
Qed.

End Convergence.

(** ** Clusters with working servers

    The objects of all clusters, by cluster, namespace and name; a dead cluster answers
    every call with an error. *)
Abbreviation cluster_objects Obj := (gmap (string * string * string) Obj).

Definition cluster_client {Obj} (obj_name : Obj -> string) (dead : string -> bool) (dead_error : api_error) (cluster : string)
    : KubeClient (cluster_objects Obj) Obj :=
  let run {A} (s : cluster_objects Obj) (r : cluster_objects Obj * A) (err : A) := if dead cluster then (s, err) else r in
  {| api_create ns o s := run s (let k := (cluster, ns, obj_name o) in
       match s !! k with None => (<[k := o]> s, None) | Some _ => (s, Some AlreadyExists) end) (Some dead_error);
     api_update ns o s := run s (let k := (cluster, ns, obj_name o) in
       match s !! k with None => (s, Some NotFound) | Some _ => (<[k := o]> s, None) end) (Some dead_error);
     api_delete ns name s := run s (let k := (cluster, ns, name) in
       match s !! k with None => (s, Some NotFound) | Some _ => (delete k s, None) end) (Some dead_error);
     api_get ns name s := run s (s, match s !! (cluster, ns, name) with None => inr NotFound | Some o => inl o end)
       (inr dead_error) |}.

(** ** A concrete server *)

(** Objects by namespace and name with a revision counter; an update needs the current
    resource version. *)
Record se_server := mkSeServer { srv_objs : gmap (string * string) ServiceEntryObj; srv_rev : nat }.

Definition se_rev (n : nat) : string := pretty (N.of_nat n).

#[export] Instance se_client : KubeClient se_server ServiceEntryObj := {|
  api_create ns o s :=
    match srv_objs s !! (ns, Name (SeMeta o)) with
    | Some _ => (s, Some AlreadyExists)
    | None => (mkSeServer (<[(ns, Name (SeMeta o)) :=
                 o <| SeMeta := SeMeta o <| ResourceVersion := se_rev (S (srv_rev s)) |> |>]> (srv_objs s))
                 (S (srv_rev s)), None)
    end;
  api_update ns o s :=
    match srv_objs s !! (ns, Name (SeMeta o)) with
    | None => (s, Some NotFound)
    | Some old => if ResourceVersion (SeMeta old) =?s ResourceVersion (SeMeta o)
                  then (mkSeServer (<[(ns, Name (SeMeta o)) :=
                          o <| SeMeta := SeMeta o <| ResourceVersion := se_rev (S (srv_rev s)) |> |>]>
                          (srv_objs s)) (S (srv_rev s)), None)
                  else (s, Some Conflict)
    end;
  api_delete ns name s :=
    match srv_objs s !! (ns, name) with
    | None => (s, Some NotFound)
    | Some _ => (mkSeServer (delete (ns, name) (srv_objs s)) (srv_rev s), None)
    end;
  api_get ns name s :=
    (s, match srv_objs s !! (ns, name) with Some o => inl o | None => inr NotFound end)
|}.

Definition sample_ep (address : string) : WorkloadEntry :=
  mkWorkloadEntry address ∅ (Some ∅) "us-west-2" 0.
Definition sample_se (eps : list WorkloadEntry) : ServiceEntryObj :=
  mkServiceEntryObj (mkMeta "foo-se" "ns" None None 0 "")
    (mkServiceEntry ["foo.mesh"] [] [] MESH_INTERNAL DNS eps [] []).
Definition writer_params : AdmiralParams :=
  Params.zero_AdmiralParams <| Params.SyncNamespace := "ns" |> <| Params.CacheReconcileDuration := 60 |>.

(** Create, then an update from a stale copy: a conflict, and a retry that succeeds. *)
Lemma add_update_example :
  let s0 := mkSeServer ∅ 0 in
  match addUpdateServiceEntry writer_params 1000 (sample_se [sample_ep "a"]) None "ns" s0 with
  | Some (s1, None) =>
      match addUpdateServiceEntry writer_params 1000 (sample_se [sample_ep "b"; sample_ep DummyAdmiralGlobal])
              (Some (sample_se [sample_ep "a"])) "ns" s1,
            addUpdateServiceEntry writer_params 1000 (sample_se [sample_ep "b"])
              (Some (sample_se [sample_ep "a"])) "ns" s1 with
      | Some (s2, None), Some (s3, None) =>
          (seEndpoints ∘ SeSpec <$> srv_objs s2 !! ("ns", "foo-se"),
           seEndpoints ∘ SeSpec <$> srv_objs s3 !! ("ns", "foo-se"))
            = (Some [sample_ep "a"], Some [sample_ep "b"])
      | _, _ => False
      end
  | _ => False
  end.
Proof. vm_compute. done. Qed.

Lemma boot_update_not_destructive_witness :
  addUpdateServiceEntry writer_params 100 (sample_se [sample_ep "b"])
    (Some (sample_se [sample_ep "a"])) "ns" (mkSeServer ∅ 0) = Some (mkSeServer ∅ 0, None).
Proof.
  apply (boot_update_not_destructive writer_params se_client); [discriminate|discriminate|vm_compute; reflexivity| |].
  - intros [H _]. destruct (H (sample_ep "a")) as (ep & Hin & E); [by left|].
    apply list_elem_of_singleton in Hin as ->. discriminate E.
  - apply Forall_one. discriminate.
Defined.

(** The objects of the server are stored under their names. *)
Definition server_named (s : se_server) : Prop :=
  forall ns n o, srv_objs s !! (ns, n) = Some o -> Name (SeMeta o) = n /\ Namespace (SeMeta o) = ns.

Lemma server_keeps_names : keeps_names se_client SeMeta server_named.
Proof.
  assert (forall ns o (s : se_server), server_named s -> Namespace (SeMeta o) = ns ->
    server_named (mkSeServer (<[(ns, Name (SeMeta o)) := o <| SeMeta := SeMeta o <| ResourceVersion := se_rev (S (srv_rev s)) |> |>]>
      (srv_objs s)) (S (srv_rev s)))) as Hput.
  { intros ns o s Hs Hn ns' n' o' H. cbn [srv_objs] in H. apply lookup_insert_Some in H as [[[= <- <-] <-]|[_ H]]; [done|by apply Hs]. }
  split; intros ns o s Hs; simpl.
  - intros Hn. destruct (srv_objs s !! _); [done|by apply Hput].
  - intros Hn. destruct (srv_objs s !! _) as [old|]; [|done]. destruct (_ =?s _); [by apply Hput|done].
  - split; [done|]. intros x. destruct (srv_objs s !! _) as [y|] eqn:E; [|done]. intros [= <-]. by apply Hs.
Qed.

