(* ===== verification/ServiceEntries.v ===== *)
(** * Building and comparing service entries: [clusters/serviceentry.go]

    [generateServiceEntry] adds a cluster's ingress endpoint to the service entry of a
    cname, or removes it; the functions after it rewrite the ingress endpoint into
    local ones for the source cluster; [reconcileServiceEntry] decides whether the
    stored entry must be written again. *)
From S2P Require Import Prelude GoStrings Config Objects Metadata ServiceCache.
From stdpp Require Import options.
Local Open Scope Z_scope.

(** [common.Deployment] and [common.Rollout]. *)
Definition DeploymentType := "deployment".
Definition RolloutType := "rollout".

(** ** The parts of a remote controller and of the Admiral cache that are used *)

Record RemoteController := mkRC {
  ClusterID : string;
  ServiceControllerCache : option (option serviceCache);  (* ServiceController, its Cache *)
  Locality : option string  (* NodeController.Locality.Region *)
}.

Record AdmiralCache := mkAdmiralCache {
  CnameClusterCache : gmap string (gmap string string);
  NLBEnabledCluster : list string
}.

Definition put_cname_cluster (c : AdmiralCache) (cname cluster : string) : AdmiralCache :=
  mkAdmiralCache (<[cname := <[cluster := cluster]> (default ∅ (CnameClusterCache c !! cname))]>
                    (CnameClusterCache c)) (NLBEnabledCluster c).

(** ** Endpoints *)

Definition endpoint_labels (appType : string) : gomap :=
  Some {[ "type" := appType; "security.istio.io/tlsMode" := "istio" ]}.

Definition makeRemoteEndpointForServiceEntry (address locality portName : string) (portNumber : Z)
    (appType : string) : WorkloadEntry :=
  mkWorkloadEntry address {[ portName := uint32 portNumber ]} (endpoint_labels appType) locality 0.

(** The last protocol that the range over the mesh ports visits, [http] for none. *)
Definition final_protocol `{!GoRange} (meshPorts : gmap string Z) : string :=
  foldl (fun _ kv => kv.1) Http (go_range 0 meshPorts).

Definition getServiceEntryPort `{!GoRange} (meshPorts : gmap string Z) : option ServicePort :=
  foldl (fun _ kv => Some (mkServicePort DefaultServiceEntryPort kv.1 kv.1)) None
    (go_range 0 meshPorts).

(** ** [generateServiceEntry] *)

Section Generate.
Context {range : GoRange} {sorting : GoSort} (p : AdmiralParams).

(** The cluster's ingress endpoint. *)
Definition cluster_endpoint (c : AdmiralCache) (rc : RemoteController) (meshPorts : gmap string Z)
    (appType : string) : WorkloadEntry :=
  let '(endpointAddress, port, _) :=
    getOverwrittenLoadBalancer p (Some (ServiceControllerCache rc)) (ClusterID rc)
      (NLBEnabledCluster c) in
  makeRemoteEndpointForServiceEntry endpointAddress (default "" (Locality rc))
    (final_protocol meshPorts) port appType.

(** The entry made when the cname has none yet. *)
Definition new_service_entry (meshPorts : gmap string Z) (globalFqdn address : string)
    (san : list string) : ServiceEntry :=
  let finalProtocol := final_protocol meshPorts in
  mkServiceEntry [globalFqdn]
    (if DisableIPGeneration p && is_empty address then [] else [address])
    [mkServicePort DefaultServiceEntryPort finalProtocol finalProtocol]
    MESH_INTERNAL DNS [] [] san.

Definition apply_endpoint_event (event : EventType) (seEndpoint : WorkloadEntry)
    (endpoints : list WorkloadEntry) : list WorkloadEntry :=
  match event with
  | Add | Update =>
      if existsb (fun ep => weAddress ep =?s weAddress seEndpoint) endpoints then endpoints
      else endpoints ++ [seEndpoint]
  | Delete => List.filter (fun ep => negb (bool_decide (ep = seEndpoint))) endpoints
  end.

(** The new cache, the new map of service entries and the entry. *)
Definition generateServiceEntry (event : EventType) (admiralCache : AdmiralCache)
    (meshPorts : gmap string Z) (globalFqdn : string) (rc : RemoteController)
    (serviceEntries : gmap string ServiceEntry) (address : string) (san : list string)
    (appType : string) : AdmiralCache * gmap string ServiceEntry * ServiceEntry :=
  let admiralCache := put_cname_cluster admiralCache globalFqdn (ClusterID rc) in
  let tmpSe := default (new_service_entry meshPorts globalFqdn address san)
                 (serviceEntries !! globalFqdn) in
  let seEndpoint := cluster_endpoint admiralCache rc meshPorts appType in
  let tmpSe := tmpSe <| seEndpoints := apply_endpoint_event event seEndpoint (seEndpoints tmpSe) |> in
  (admiralCache, <[globalFqdn := tmpSe]> serviceEntries, tmpSe).

End Generate.

(** ** The event seen by one cluster: [removeSeEndpoints] of [util.go] *)

Definition removeSeEndpoints (eventCluster : string) (event : EventType) (clusterId : string)
    (deployToRolloutMigration : bool) (appType : string) (clusterAppDeleteMap : gmap string string)
    : EventType * bool :=
  match event with
  | Delete =>
      if eventCluster =?s clusterId then
        (if deployToRolloutMigration
            && negb (appType =?s default "" (clusterAppDeleteMap !! eventCluster))
         then Update else event, true)
      else (Update, false)
  | _ => (event, false)
  end.

(** ** Rewriting the ingress endpoint *)

Section Rewrite.
Context (p : AdmiralParams).

(** The local name of a service. *)
Definition local_fqdn (svc : ServiceObj) : string :=
  Name (SvcMeta svc) +:+ Sep +:+ Namespace (SvcMeta svc) +:+ GetLocalDomainSuffix p.

(** [UpdateEndpointsForDeployToRolloutMigration] of [controller/util/migration.go]. *)
Definition migrate_endpoint (deploySvc rolloutSvc : ServiceObj) (meshPorts : gmap string (gmap string Z))
    (clusterIngress : string) (deleted : string) (present : gmap string bool) (ep : WorkloadEntry)
    : list WorkloadEntry * list ServiceObj :=
  if weAddress ep =?s clusterIngress then
    let local kind svc :=
      if negb (deleted =?s kind) && default false (present !! kind)
      then ([mkWorkloadEntry (local_fqdn svc) (default ∅ (meshPorts !! kind)) (endpoint_labels kind)
               (weLocality ep) 0], [svc])
      else ([], []) in
    let '(d, ds) := local DeploymentType deploySvc in
    let '(r, rs) := local RolloutType rolloutSvc in
    (d ++ r, ds ++ rs)
  else
    ([ep <| weLabels := match weLabels ep with
                        | Some m => Some (delete "type" m)
                        | None => None
                        end |>], []).

Definition UpdateEndpointsForDeployToRolloutMigration (serviceInstance : gmap string ServiceObj)
    (serviceEntry : ServiceEntry) (meshPorts : gmap string (gmap string Z)) (clusterIngress : string)
    (clusterAppDeleteMap : gmap string string) (clusterName : string)
    (clusterDeployRolloutPresent : gmap string (gmap string bool))
    : ServiceEntry * list ServiceObj * error :=
  match serviceInstance !! DeploymentType, serviceInstance !! RolloutType with
  | Some deploySvc, Some rolloutSvc =>
      let rs := map (migrate_endpoint deploySvc rolloutSvc meshPorts clusterIngress
                       (default "" (clusterAppDeleteMap !! clusterName))
                       (default ∅ (clusterDeployRolloutPresent !! clusterName)))
                  (seEndpoints serviceEntry) in
      (serviceEntry <| seEndpoints := concat (map fst rs) |>, concat (map snd rs), None)
  | _, _ =>
      (serviceEntry, [],
       Some "serviceInstance for Deployment/Rollout is nil as the service cache has not updated yet")
  end.

(** [clusters/util.go]. *)
Definition GetMeshPortsForRollout (destService : option ServiceObj) (destRollout : option RolloutObj)
    : option (gmap string Z) :=
  match destService, destRollout with
  | Some _, Some r =>
      Some (GetMeshPortsHelper (mget (TAnnotations (RoTemplate r)) SidecarEnabledPorts) destService)
  | _, _ => None
  end.

(** [WeightedService] of [handler.go]. *)
Record WeightedService := mkWeighted { wsWeight : Z; wsService : ServiceObj }.

Definition localize (rollout : RolloutObj) (ws : WeightedService) (cnames : gmap string string)
    (ep : WorkloadEntry) : WorkloadEntry * gmap string string * option WeightedService :=
  let localFqdn := local_fqdn (wsService ws) in
  (ep <| weAddress := localFqdn |>
      <| wePorts := default ∅ (GetMeshPortsForRollout (Some (wsService ws)) (Some rollout)) |>,
   <[localFqdn := "1"]> cnames, Some ws).

(** The endpoint, the cnames and the service; [None] is the panic on a rollout without a
    blue-green strategy. *)
Definition updateEndpointsForBlueGreen (rollout : RolloutObj)
    (weightedServices : gmap string WeightedService) (cnames : gmap string string)
    (ep : WorkloadEntry) (meshHost : string)
    : option (WorkloadEntry * gmap string string * option WeightedService) :=
  bg ← BlueGreen (RoStrategy rollout);
  Some (match has_prefix meshHost (BlueGreenRolloutPreviewPrefix +:+ Sep),
              weightedServices !! PreviewService bg with
        | true, Some previewService => localize rollout previewService cnames ep
        | _, _ => match weightedServices !! ActiveService bg with
                  | Some activeService => localize rollout activeService cnames ep
                  | None => (ep, cnames, None)
                  end
        end).

Definition is_ingress (clusterIngress : string) (ep : WorkloadEntry) : bool :=
  (weAddress ep =?s clusterIngress) || (weAddress ep =?s "").

(** The endpoint of one weighted service. *)
Definition weighted_endpoint (meshPorts : gmap string Z) (replaced : WorkloadEntry) (ws : WeightedService)
    : WorkloadEntry :=
  replaced <| wePorts := meshPorts |> <| weAddress := local_fqdn (wsService ws) |>
           <| weWeight := uint32 (wsWeight ws) |>.

Definition updateEndpointsForWeightedServices `{!GoRange} (serviceEntry : ServiceEntry)
    (weightedServices : gmap string WeightedService) (clusterIngress : string)
    (meshPorts : gmap string Z) : ServiceEntry :=
  let endpoints := List.filter (fun ep => negb (is_ingress clusterIngress ep)) (seEndpoints serviceEntry) in
  match last (List.filter (is_ingress clusterIngress) (seEndpoints serviceEntry)) with
  | None => serviceEntry
  | Some endpointToReplace =>
      let services := List.filter (fun kv => 0 <? wsWeight kv.2) (go_range 0 weightedServices) in
      serviceEntry <| seEndpoints :=
        endpoints ++ map (fun kv => weighted_endpoint meshPorts endpointToReplace kv.2) services |>
  end.

End Rewrite.

(** ** Order of the source clusters *)

(** The region and the error; [None] is the nil-pointer panic on a cluster that the
    operator's locality cache does not have.  [clusterLocalityCache] is nil outside of
    operator mode. *)
Definition getClusterRegion (p : AdmiralParams)
    (clusterLocalityCache : option (gmap string (gmap string string))) (cluster : string)
    (rc : RemoteController) : option (string * error) :=
  match IsAdmiralOperatorMode p, clusterLocalityCache with
  | true, Some c => m ← c !! cluster; Some (default "" (m !! cluster), None)
  | _, _ => match Locality rc with
            | Some region => Some (region, None)
            | None => Some ("", Some ("failed to get region of cluster " +:+ cluster))
            end
  end.

Section Order.
Context {range : GoRange} (p : AdmiralParams).
Context (clusterLocalityCache : option (gmap string (gmap string string))).
Context (remoteControllers : gmap string RemoteController).

(** Is the cluster in the preferred region? *)
Definition in_region (gtpPreferenceRegion cluster : string) : option bool :=
  match remoteControllers !! cluster with
  | None => Some false
  | Some rc =>
      '(region, err) ← getClusterRegion p clusterLocalityCache cluster rc;
      Some (is_nil err && (region =?s gtpPreferenceRegion))
  end.

Fixpoint preferred_clusters (region : string) (clusters : list string) : option (list string) :=
  match clusters with
  | [] => Some []
  | c :: rest =>
      b ← in_region region c; l ← preferred_clusters region rest;
      Some (if (b : bool) then c :: l else l)
  end.

(** [gtpPreferenceRegion] is [None] when the context carries no string. *)
Definition orderSourceClusters {A} (gtpPreferenceRegion : option string) (services : gmap string A)
    : option (list string) :=
  first ← match gtpPreferenceRegion with
          | Some region =>
              if PreventSplitBrain p && negb (region =?s "")
              then preferred_clusters region (go_range 0 services).*1 else Some []
          | None => Some []
          end;
  Some (first ++ List.filter (fun c => negb (str_in c first)) (go_range 1 services).*1).

End Order.

(** ** Validation *)

Definition endpoint_errors (ep : WorkloadEntry) : list string :=
  (if weLocality ep =?s "" then ["locality not set for endpoint with address " +:+ weAddress ep] else [])
  ++ (if mget (weLabels ep) "security.istio.io/tlsMode" =?s "istio" then []
      else ["istio mode not set for endpoint with address " +:+ weAddress ep]).

Definition validateServiceEntryEndpoints (entry : ServiceEntryObj) : bool * error :=
  match concat (map endpoint_errors (seEndpoints (SeSpec entry))) with
  | [] => (true, None)
  | errorStrings => (false, Some (join ", " errorStrings))
  end.

(** ** Reconciliation *)

Definition compareMapsOnKeys (keys : list string) (desired current : gomap) : bool :=
  forallb (fun v => negb (negb (is_empty (mget desired v)) && negb (mget desired v =?s mget current v)))
    keys.

(** [WorkloadEntrySorted]. *)
Definition endpoint_less (a b : WorkloadEntry) : bool := str_ltb (weAddress a) (weAddress b).

Definition comparable_spec `{!GoSort} (s : ServiceEntry) : ServiceEntry :=
  s <| seAddresses := [] |> <| seEndpoints := sort_slice endpoint_less (seEndpoints s) |>.

Definition reconcileServiceEntry `{!GoSort} (enableSECache : bool) (currentSE : option ServiceEntryObj)
    (desiredSE : ServiceEntryObj) (annotationsKeyToCompare labelKeysToCompare : list string) : bool :=
  if negb enableSECache then true
  else
    match currentSE with
    | None => true
    | Some cur =>
        if negb (compareMapsOnKeys annotationsKeyToCompare (Annotations (SeMeta desiredSE))
                   (Annotations (SeMeta cur))) then true
        else if negb (compareMapsOnKeys labelKeysToCompare (Labels (SeMeta desiredSE))
                        (Labels (SeMeta cur))) then true
        else negb (bool_decide (comparable_spec (SeSpec desiredSE) = comparable_spec (SeSpec cur)))
    end.

Definition reconcileDestinationRule (enableDRCache : bool) (currentDR : option DestinationRuleObj)
    (dr : DestinationRule) : bool :=
  if negb enableDRCache then true
  else match currentDR with
       | None => true
       | Some cur => negb (bool_decide (dr = DrSpec cur))
       end.

(** The destination-rule caches of the clusters, by name and namespace; a cluster that
    is missing has no remote controller. *)
Definition getCurrentDRForLocalityLbSetting (p : AdmiralParams)
    (drCaches : gmap string (gmap (string * string) DestinationRuleObj))
    (isServiceEntryModifyCalledForSourceCluster : bool) (cluster : string) (host : string)
    (sourceClusters : list string) : option DestinationRuleObj :=
  let key := (to_lower host +:+ "-default-dr", GetSyncNamespace p) in
  let in_cluster c := m ← drCaches !! c; m !! key in
  match in_cluster cluster with
  | Some dr => Some dr
  | None =>
      if isServiceEntryModifyCalledForSourceCluster
      then foldr (fun c acc => match in_cluster c with Some dr => Some dr | None => acc end)
             None sourceClusters
      else None
  end.

(** ** Lemmas *)

Definition addresses (eps : list WorkloadEntry) : list string := map weAddress eps.

Lemma filter_none {A} (f : A -> bool) l : (forall x, x ∈ l -> f x = true) -> List.filter f l = l.
Proof.
  induction l as [|x l IH]; simpl; intros H; [done|].
  rewrite (H x) by (by left). f_equal. apply IH. intros y Hy. apply H. by right.
Qed.

Lemma existsb_address a eps :
  existsb (fun ep => weAddress ep =?s a) eps = true <-> a ∈ addresses eps.
Proof.
  rewrite existsb_iff. unfold addresses. rewrite list_elem_of_fmap. split.
  - intros (ep & Hin & E). sdec. by exists ep.
  - intros (ep & -> & Hin). exists ep. by rewrite seqb_refl.
Qed.

(** Adding an endpoint keeps the addresses distinct and makes its address present. *)
Lemma apply_add_NoDup ev ep eps :
  ev <> Delete -> NoDup (addresses eps) ->
  NoDup (addresses (apply_endpoint_event ev ep eps)) /\
  weAddress ep ∈ addresses (apply_endpoint_event ev ep eps).
Proof.
  intros Hev Hnd. assert (apply_endpoint_event ev ep eps = apply_endpoint_event Add ep eps) as ->
    by (by destruct ev).
  simpl. destruct (existsb _ eps) eqn:E.
  - split; [done|]. by apply existsb_address.
  - apply not_true_iff_false in E. rewrite existsb_address in E. unfold addresses in *.
    rewrite map_app. simpl. split.
    + apply NoDup_app. split_and!; [done| |repeat constructor; by intros ?%elem_of_nil].
      intros a Ha. rewrite list_elem_of_singleton. by intros ->.
    + apply elem_of_app. right. by left.
Qed.

Lemma apply_delete_subset ep eps x :
  x ∈ apply_endpoint_event Delete ep eps <-> x ∈ eps /\ x <> ep.
Proof.
  simpl. rewrite filter_In_iff, negb_true_iff. by rewrite bool_decide_eq_false.
Qed.

(** Deleting an endpoint that was just added restores the list. *)
Lemma apply_add_delete ep eps :
  weAddress ep ∉ addresses eps ->
  apply_endpoint_event Delete ep (apply_endpoint_event Add ep eps) = eps.
Proof.
  intros H. simpl. destruct (existsb _ eps) eqn:E; [by apply existsb_address in E|].
  assert (forall x, x ∈ eps -> x <> ep) as Hne.
  { intros x Hx ->. apply H. by apply list_elem_of_fmap_2. }
  rewrite List.filter_app. simpl. rewrite bool_decide_true by done. simpl. rewrite app_nil_r.
  apply filter_none. intros x Hx. rewrite bool_decide_false; [done|by apply Hne].
Qed.

Section Aggregate.
Context {range : GoRange} {sorting : GoSort} (p : AdmiralParams).
Context (fqdn address : string) (san : list string) (appType : string).

(** The clusters of an identity add their endpoints one after the other, as the loop over
    the source clusters does; each comes with its mesh ports. *)
Definition add_clusters (c : AdmiralCache) (entries : gmap string ServiceEntry)
    (clusters : list (RemoteController * gmap string Z)) : AdmiralCache * gmap string ServiceEntry :=
  foldl (fun '(c, entries) '(rc, ports) =>
    (generateServiceEntry p Add c ports fqdn rc entries address san appType).1) (c, entries) clusters.

(** The load balancer's address of a cluster. *)
Definition lb_address (nlb : list string) (rc : RemoteController) : string :=
  (getOverwrittenLoadBalancer p (Some (ServiceControllerCache rc)) (ClusterID rc) nlb).1.1.

Lemma cluster_endpoint_address c rc ports :
  weAddress (cluster_endpoint p c rc ports appType) = lb_address (NLBEnabledCluster c) rc.
Proof.
  unfold cluster_endpoint, lb_address. by destruct (getOverwrittenLoadBalancer _ _ _ _) as [[? ?] ?].
Qed.

Lemma cluster_endpoint_nlb c c' rc ports :
  NLBEnabledCluster c = NLBEnabledCluster c' ->
  cluster_endpoint p c rc ports appType = cluster_endpoint p c' rc ports appType.
Proof. unfold cluster_endpoint. by intros ->. Qed.

Lemma generate_add_step c entries rc ports se :
  default (new_service_entry p ports fqdn address san) (entries !! fqdn) = se ->
  lb_address (NLBEnabledCluster c) rc ∉ addresses (seEndpoints se) ->
  (generateServiceEntry p Add c ports fqdn rc entries address san appType).1
    = (put_cname_cluster c fqdn (ClusterID rc),
       <[fqdn := se <| seEndpoints := seEndpoints se ++ [cluster_endpoint p c rc ports appType] |>]>
         entries).
Proof.
  intros Hse Hlb. unfold generateServiceEntry. rewrite Hse. simpl.
  rewrite (cluster_endpoint_nlb (put_cname_cluster c fqdn (ClusterID rc)) c) by done.
  destruct (existsb _ (seEndpoints se)) eqn:E; [|done].
  apply existsb_address in E. by rewrite cluster_endpoint_address in E.
Qed.

Lemma add_clusters_spec clusters : forall c entries se,
  entries !! fqdn = Some se ->
  NoDup (addresses (seEndpoints se) ++ map (fun x => lb_address (NLBEnabledCluster c) x.1) clusters) ->
  exists c', add_clusters c entries clusters
    = (c', <[fqdn := se <| seEndpoints := seEndpoints se ++
               map (fun x => cluster_endpoint p c x.1 x.2 appType) clusters |>]> entries) /\
    NLBEnabledCluster c' = NLBEnabledCluster c.
Proof.
  unfold add_clusters. induction clusters as [|[rc ports] clusters IH]; intros c entries se Hse Hnd;
    cbn [foldl map].
  { exists c. split; [|done]. rewrite app_nil_r. f_equal.
    rewrite insert_id; [done|]. rewrite Hse. by destruct se. }
  cbn [map fst] in Hnd. rewrite NoDup_app in Hnd. destruct Hnd as (Hn1 & Hdis & Hn2).
  apply NoDup_cons in Hn2 as [Hn2 Hn3].
  rewrite (generate_add_step c entries rc ports se); [|by rewrite Hse|].
  2: { intros Hin. apply (Hdis _ Hin). by left. }
  set (se' := se <| seEndpoints := seEndpoints se ++ [cluster_endpoint p c rc ports appType] |>).
  destruct (IH (put_cname_cluster c fqdn (ClusterID rc)) (<[fqdn := se']> entries) se')
    as (c' & -> & Hc').
  - apply lookup_insert_eq.
  - unfold addresses in *. simpl. rewrite map_app, <- app_assoc. simpl.
    rewrite cluster_endpoint_address. apply NoDup_app. split_and!; [done|done|].
    apply NoDup_cons. done.
  - exists c'. split; [|done]. rewrite insert_insert_eq. f_equal. f_equal. unfold se'. cbn.
    by rewrite <- app_assoc.
Qed.

(** The service entry that a cname gets from its clusters has exactly one endpoint per
    cluster, the ingress of that cluster, in the order the clusters are processed, and
    any two orders give the same endpoints up to order (the load balancers of the
    clusters being distinct). *)
Theorem one_endpoint_per_cluster c entries clusters clusters' :
  entries !! fqdn = None -> clusters <> [] -> clusters ≡ₚ clusters' ->
  NoDup (map (fun x => lb_address (NLBEnabledCluster c) x.1) clusters) ->
  exists se se', (add_clusters c entries clusters).2 !! fqdn = Some se /\
    (add_clusters c entries clusters').2 !! fqdn = Some se' /\
    seEndpoints se = map (fun x => cluster_endpoint p c x.1 x.2 appType) clusters /\
    seEndpoints se ≡ₚ seEndpoints se'.
Proof.
  intros Hn Hne Hp Hnd.
  assert (forall l, l <> [] -> NoDup (map (fun x => lb_address (NLBEnabledCluster c) x.1) l) ->
    exists se, (add_clusters c entries l).2 !! fqdn = Some se /\
      seEndpoints se = map (fun x => cluster_endpoint p c x.1 x.2 appType) l) as H.
  { intros [|[rc ports] l] Hl Hl'; [done|]. unfold add_clusters. cbn [foldl map fst] in *.
    apply NoDup_cons in Hl' as [Hl1 Hl2].
    rewrite (generate_add_step c entries rc ports (new_service_entry p ports fqdn address san));
      [|by rewrite Hn|by intros ?%elem_of_nil].
    set (se := _ <| seEndpoints := _ |>).
    destruct (add_clusters_spec l (put_cname_cluster c fqdn (ClusterID rc)) (<[fqdn := se]> entries) se)
      as (c' & E & _).
    - apply lookup_insert_eq.
    - unfold se, addresses. simpl. rewrite cluster_endpoint_address. apply NoDup_cons. done.
    - unfold add_clusters in E. rewrite E. simpl. eexists. rewrite lookup_insert_eq. split; [done|].
      simpl. done. }
  destruct (H clusters Hne Hnd) as (se & Hs & He).
  destruct (H clusters') as (se' & Hs' & He').
  { intros ->. by apply Permutation_nil_r in Hp. }
  { by rewrite <- Hp. }
  exists se, se'. split_and!; [done|done|done|]. rewrite He, He'. by rewrite Hp.
Qed.

(** A delete event undoes an add event: it removes the cluster's endpoint and leaves
    the other clusters' endpoints as they were. *)
Theorem add_then_delete_endpoint c entries ports rc se :
  entries !! fqdn = Some se ->
  lb_address (NLBEnabledCluster c) rc ∉ addresses (seEndpoints se) ->
  let '(c1, e1, _) := generateServiceEntry p Add c ports fqdn rc entries address san appType in
  let '(_, e2, se2) := generateServiceEntry p Delete c1 ports fqdn rc e1 address san appType in
  seEndpoints se2 = seEndpoints se /\ e2 !! fqdn = Some se2.
Proof.
  intros Hse Hlb. unfold generateServiceEntry. rewrite Hse. simpl.
  rewrite lookup_insert_eq. simpl.
  rewrite !(cluster_endpoint_nlb _ c) by done.
  split; [|by rewrite lookup_insert_eq].
  apply apply_add_delete. by rewrite cluster_endpoint_address.
Qed.

End Aggregate.

(** Two clusters with their own load balancers. *)
Definition gateway_service (host : string) : ServiceObj :=
  mkService (mkMeta "gw" NamespaceIstioSystem (Some {[ "app" := "gw" ]}) None 0 "") [] None []
    [mkLbIngress host ""].
Definition cluster_with (id host : string) : RemoteController :=
  mkRC id (Some (Some (ServiceCache_Put ∅ (gateway_service host)))) (Some "us-west-2").
Definition gw_params : AdmiralParams :=
  Params.zero_AdmiralParams <| Params.LabelSetPtr :=
    Some (Params.zero_LabelSet <| Params.GatewayApp := "gw" |>) |>.
Definition two_clusters : list (RemoteController * gmap string Z) :=
  [(cluster_with "c1" "lb1", {[ Http := 8080 ]}); (cluster_with "c2" "lb2", {[ Http := 8080 ]})].

Lemma one_endpoint_per_cluster_witness :
  let c := mkAdmiralCache ∅ [] in
  exists se se',
    (add_clusters gw_params "foo.mesh" "240.0.10.1" [] "deployment" c ∅ two_clusters).2 !! "foo.mesh" = Some se /\
    (add_clusters gw_params "foo.mesh" "240.0.10.1" [] "deployment" c ∅ (rev two_clusters)).2 !! "foo.mesh" = Some se' /\
    seEndpoints se = map (fun x => cluster_endpoint gw_params c x.1 x.2 "deployment") two_clusters /\
    seEndpoints se ≡ₚ seEndpoints se'.
Proof.
  intros c. apply (one_endpoint_per_cluster gw_params "foo.mesh" "240.0.10.1" [] "deployment" c ∅
    two_clusters (rev two_clusters)).
  - reflexivity.
  - discriminate.
  - apply Permutation_rev.
  - apply (bool_decide_eq_true_1 _). vm_compute. reflexivity.
Defined.

Lemma add_then_delete_endpoint_witness :
  let c := mkAdmiralCache ∅ [] in
  let se := new_service_entry gw_params ∅ "foo.mesh" "240.0.10.1" [] in
  let '(c1, e1, _) := generateServiceEntry gw_params Add c ∅ "foo.mesh" (cluster_with "c1" "lb1")
                        {[ "foo.mesh" := se ]} "240.0.10.1" [] "deployment" in
  let '(_, e2, se2) := generateServiceEntry gw_params Delete c1 ∅ "foo.mesh" (cluster_with "c1" "lb1")
                         e1 "240.0.10.1" [] "deployment" in
  seEndpoints se2 = seEndpoints se /\ e2 !! "foo.mesh" = Some se2.
Proof.
  intros c se.
  apply (add_then_delete_endpoint gw_params "foo.mesh" "240.0.10.1" [] "deployment" c
    {[ "foo.mesh" := se ]} ∅ (cluster_with "c1" "lb1") se).
  - reflexivity.
  - intros H. by apply elem_of_nil in H.
Defined.

(** ** Order of the clusters *)

Section OrderProofs.
Context {range : GoRange} (p : AdmiralParams) (clc : option (gmap string (gmap string string)))
  (rcs : gmap string RemoteController).

Lemma preferred_spec region l first :
  preferred_clusters p clc rcs region l = Some first ->
  first = List.filter (fun c => bool_decide (in_region p clc rcs region c = Some true)) l.
Proof.
  revert first. induction l as [|c l IH]; intros first; simpl; [by intros [= <-]|].
  destruct (in_region p clc rcs region c) as [b|]; simpl; [|done].
  destruct (preferred_clusters p clc rcs region l) as [l'|]; simpl; [|done].
  intros [= <-]. rewrite <- (IH l' eq_refl). by destruct b.
Qed.

(** [orderSourceClusters] returns every cluster of the services exactly once, and with
    split-brain prevention the clusters of the preferred region come before all others;
    for every iteration order of the two ranges over the map. *)
Theorem order_source_clusters_spec {A} region (services : gmap string A) l :
  orderSourceClusters p clc rcs region services = Some l ->
  l ≡ₚ (map_to_list services).*1 /\
  forall r, region = Some r -> r <> "" -> PreventSplitBrain p = true ->
    exists first rest, l = first ++ rest /\
      (forall c, c ∈ first -> in_region p clc rcs r c = Some true) /\
      (forall c, c ∈ rest -> in_region p clc rcs r c <> Some true).
Proof.
  intros H. unfold orderSourceClusters in H.
  set (first := match region with Some r => _ | None => _ end) in H.
  destruct first as [fl|] eqn:Ef; simpl in H; [|done]. injection H as <-.
  assert (exists f, fl = List.filter f (go_range 0 services).*1) as [f Hf].
  { unfold first in Ef. destruct region as [r|].
    - destruct (_ && _).
      + apply preferred_spec in Ef. by eexists.
      + injection Ef as <-. exists (fun _ => false). by induction (go_range 0 services).*1.
    - injection Ef as <-. exists (fun _ => false). by induction (go_range 0 services).*1. }
  split.
  - assert (NoDup (go_range 0 services).*1) as Hn0 by apply go_range_fst_NoDup.
    assert (NoDup (go_range 1 services).*1) as Hn1 by apply go_range_fst_NoDup.
    assert (forall i c, c ∈ (go_range i services).*1 <-> c ∈ (map_to_list services).*1) as Hk
      by (intros i c; by rewrite go_range_perm).
    assert (forall c, c ∈ fl -> c ∈ (map_to_list services).*1) as Hfl.
    { intros c Hc. rewrite Hf in Hc. apply filter_In_iff in Hc as [Hc _]. by eapply Hk. }
    apply NoDup_Permutation.
    + apply NoDup_app. split_and!.
      * subst fl. apply NoDup_ListNoDup, List.NoDup_filter. by apply NoDup_ListNoDup.
      * intros c Hc. rewrite filter_In_iff. intros [_ Hb].
        apply negb_true_iff, str_in_false in Hb. done.
      * apply NoDup_ListNoDup, List.NoDup_filter. by apply NoDup_ListNoDup.
    + apply NoDup_fst_map_to_list.
    + intros c. rewrite elem_of_app, filter_In_iff. split.
      * intros [Hc|[Hc _]]; [by apply Hfl|by eapply Hk].
      * intros Hc. destruct (str_in c fl) eqn:E; [left; by apply str_in_spec|right].
        split; [by apply Hk|done].
  - intros r -> Hr Hps. exists fl, (List.filter (fun c => negb (str_in c fl)) (go_range 1 services).*1).
    apply seqb_neq in Hr. unfold first in Ef. rewrite Hps, Hr in Ef. simpl in Ef.
    apply preferred_spec in Ef. split_and!; [done| |].
    + intros c. rewrite Ef, filter_In_iff. by intros [_ Hb%bool_decide_eq_true].
    + intros c. rewrite filter_In_iff. intros [Hc Hb] Hin.
      apply negb_true_iff, str_in_false in Hb. apply Hb. rewrite Ef. apply filter_In_iff. split.
      * by rewrite go_range_perm in Hc |- *.
      * by apply bool_decide_eq_true.
Qed.

End OrderProofs.

Lemma order_source_clusters_spec_witness :
  let p := Params.zero_AdmiralParams <| Params.PreventSplitBrain := true |> in
  let rcs := {[ "c1" := mkRC "c1" None (Some "east"); "c2" := mkRC "c2" None (Some "west") ]} in
  let services : gmap string nat := {[ "c1" := 1%nat; "c2" := 2%nat; "c3" := 3%nat ]} in
  exists l, orderSourceClusters p None rcs (Some "west") services = Some l /\
    l ≡ₚ (map_to_list services).*1 /\
    forall r, Some "west" = Some r -> r <> "" -> PreventSplitBrain p = true ->
      exists first rest, l = first ++ rest /\
        (forall c, c ∈ first -> in_region p None rcs r c = Some true) /\
        (forall c, c ∈ rest -> in_region p None rcs r c <> Some true).
Proof.
  intros p rcs services. eexists. split; [vm_compute; reflexivity|].
  apply (order_source_clusters_spec p None rcs (Some "west") services). vm_compute. reflexivity.
Defined.

(** ** Weighted services *)

(** The weight of a list of endpoints. *)
Definition total_endpoint_weight (eps : list WorkloadEntry) : Z :=
  foldr (fun ep acc => weWeight ep + acc) 0 eps.

Definition positive_weights (ws : gmap string WeightedService) : list (string * WeightedService) :=
  List.filter (fun kv => 0 <? wsWeight kv.2) (map_to_list ws).

Lemma total_weight_app a b :
  total_endpoint_weight (a ++ b) = total_endpoint_weight a + total_endpoint_weight b.
Proof. induction a as [|x a IH]; simpl; [done|]. rewrite IH. lia. Qed.

Lemma total_weight_perm a b : a ≡ₚ b -> total_endpoint_weight a = total_endpoint_weight b.
Proof. induction 1; simpl; lia. Qed.

Lemma filter_perm {A} (f : A -> bool) l l' : l ≡ₚ l' -> List.filter f l ≡ₚ List.filter f l'.
Proof.
  induction 1 as [|x l l' _ IH|x y l|l l' l'' _ IH1 _ IH2]; simpl.
  - done.
  - destruct (f x); [by constructor|done].
  - destruct (f x), (f y); try done. apply Permutation_swap.
  - by rewrite IH1.
Qed.

(** Canary traffic splitting: when the source cluster's ingress endpoint is there, it
    is replaced by one endpoint per service of positive weight, at the service's local
    name with the service's weight, the region and labels of the ingress endpoint, and
    every other endpoint is kept; without it nothing changes. *)
Theorem weighted_services_spec {range : GoRange} p se ws ingress ports :
  let keep := List.filter (fun ep => negb (is_ingress ingress ep)) (seEndpoints se) in
  match last (List.filter (is_ingress ingress) (seEndpoints se)) with
  | None => updateEndpointsForWeightedServices p se ws ingress ports = se
  | Some old =>
      exists new, seEndpoints (updateEndpointsForWeightedServices p se ws ingress ports) = keep ++ new /\
        new ≡ₚ map (fun kv => weighted_endpoint p ports old kv.2) (positive_weights ws) /\
        Forall (fun ep => weLocality ep = weLocality old /\ weLabels ep = weLabels old /\
                          wePorts ep = ports) new /\
        (map_Forall (fun _ w => wsWeight w < 2 ^ 32) ws ->
         total_endpoint_weight new
           = foldr (fun kv acc => wsWeight kv.2 + acc) 0 (positive_weights ws))
  end.
Proof.
  simpl. unfold updateEndpointsForWeightedServices.
  destruct (last _) as [old|]; [|done]. simpl.
  set (new := map (fun kv => weighted_endpoint p ports old kv.2) _).
  assert (new ≡ₚ map (fun kv => weighted_endpoint p ports old kv.2) (positive_weights ws)) as Hp.
  { unfold new, positive_weights. apply Permutation_map, filter_perm, go_range_perm. }
  exists new. split_and!; [done|done| |].
  - rewrite Forall_forall. intros ep Hin. unfold new in Hin.
    apply list_elem_of_fmap in Hin as (kv & -> & _). done.
  - intros Hw. rewrite (total_weight_perm _ _ Hp). unfold positive_weights.
    assert (forall k w, (k, w) ∈ map_to_list ws -> wsWeight w < 2 ^ 32) as Hb
      by (intros k w Hin; apply elem_of_map_to_list in Hin; by eapply Hw).
    induction (map_to_list ws) as [|[k w] l IH]; simpl; [done|].
    specialize (Hb k w (list_elem_of_here _ _)) as Hkw.
    assert (forall k w, (k, w) ∈ l -> wsWeight w < 2 ^ 32) as Hl
      by (intros k' w' H'; eapply Hb; by right).
    destruct (Z.ltb_spec 0 (wsWeight w)); simpl; rewrite IH by done; [|done].
    unfold uint32. by rewrite Z.mod_small by lia.
Qed.

(** Several ingress endpoints collapse into the last one: the services get its region and
    labels, and the regions of the others disappear. *)
Theorem weighted_services_last_ingress :
  let ep region := mkWorkloadEntry "lb" ∅ None region 0 in
  let se := mkServiceEntry ["foo"] [] [] MESH_INTERNAL DNS [ep "us-west-2"; ep "us-east-2"] [] [] in
  let ws := {[ "stable" := mkWeighted 100 (gateway_service "x") ]} in
  map weLocality (seEndpoints (updateEndpointsForWeightedServices gw_params se ws "lb" ∅)) = ["us-east-2"].
Proof. reflexivity. Qed.

(** ** Migration between deployment and rollout *)

(** Migration: the ingress endpoint of the source cluster becomes the local endpoints
    of those of the deployment and the rollout that are present and not being deleted,
    in its region; the other endpoints keep their address, region and ports; the
    services returned are those of the new endpoints, in order. *)
Theorem migration_spec p svcs se ports ingress deleted cluster present d r :
  svcs !! DeploymentType = Some d -> svcs !! RolloutType = Some r ->
  let kinds := List.filter (fun k =>
      negb (default "" (deleted !! cluster) =?s k)
      && default false (default ∅ (present !! cluster) !! k)) [DeploymentType; RolloutType] in
  let svc k := if k =?s DeploymentType then d else r in
  let '(se', used, err) :=
    UpdateEndpointsForDeployToRolloutMigration p svcs se ports ingress deleted cluster present in
  err = None /\
  map (fun ep => (weAddress ep, weLocality ep)) (seEndpoints se')
    = concat (map (fun ep => if weAddress ep =?s ingress
                             then map (fun k => (local_fqdn p (svc k), weLocality ep)) kinds
                             else [(weAddress ep, weLocality ep)]) (seEndpoints se)) /\
  used = concat (map (fun ep => if weAddress ep =?s ingress then map svc kinds else []) (seEndpoints se)).
Proof.
  intros Hd Hr. simpl. unfold UpdateEndpointsForDeployToRolloutMigration. rewrite Hd, Hr.
  split; [done|]. simpl.
  set (del := default "" (deleted !! cluster)). set (pre := default ∅ (present !! cluster)).
  split.
  - induction (seEndpoints se) as [|ep eps IH]; simpl; [done|]. rewrite map_app, IH. f_equal.
    unfold migrate_endpoint. destruct (weAddress ep =?s ingress); [|done].
    destruct (negb (del =?s DeploymentType) && default false (pre !! DeploymentType)),
      (negb (del =?s RolloutType) && default false (pre !! RolloutType)); done.
  - induction (seEndpoints se) as [|ep eps IH]; simpl; [done|]. rewrite IH. f_equal.
    unfold migrate_endpoint. destruct (weAddress ep =?s ingress); [|done].
    destruct (negb (del =?s DeploymentType) && default false (pre !! DeploymentType)),
      (negb (del =?s RolloutType) && default false (pre !! RolloutType)); done.
Qed.

Lemma migration_spec_witness :
  let d := gateway_service "d" in let r := gateway_service "r" in
  let svcs := {[ DeploymentType := d; RolloutType := r ]} in
  let se := mkServiceEntry ["foo"] [] [] MESH_INTERNAL DNS
    [mkWorkloadEntry "lb" ∅ None "us-west-2" 0; mkWorkloadEntry "lb2" ∅ None "us-east-2" 0] [] [] in
  let present := {[ "c1" := {[ DeploymentType := true; RolloutType := true ]} ]} in
  let kinds := List.filter (fun k =>
      negb (default "" (({[ "c1" := DeploymentType ]} : gmap string string) !! "c1") =?s k)
      && default false (default ∅ ((present : gmap string (gmap string bool)) !! "c1") !! k))
      [DeploymentType; RolloutType] in
  let svc k := if k =?s DeploymentType then d else r in
  let '(se', used, err) :=
    UpdateEndpointsForDeployToRolloutMigration gw_params svcs se ∅ "lb" {[ "c1" := DeploymentType ]} "c1"
      present in
  err = None /\
  map (fun ep => (weAddress ep, weLocality ep)) (seEndpoints se')
    = concat (map (fun ep => if weAddress ep =?s "lb"
                             then map (fun k => (local_fqdn gw_params (svc k), weLocality ep)) kinds
                             else [(weAddress ep, weLocality ep)]) (seEndpoints se)) /\
  used = concat (map (fun ep => if weAddress ep =?s "lb" then map svc kinds else []) (seEndpoints se)).
Proof.
  intros d r svcs se present.
  apply (migration_spec gw_params svcs se ∅ "lb" {[ "c1" := DeploymentType ]} "c1" present d r);
    reflexivity.
Defined.

(** ** Delete events *)

Lemma remove_se_endpoints_spec ec ev c mig app del :
  removeSeEndpoints ec ev c mig app del
    = (if decide (ev = Delete) then
         if decide (ec = c) then
           (if mig && negb (app =?s default "" (del !! ec)) then Update else Delete, true)
         else (Update, false)
       else (ev, false)).
Proof. unfold removeSeEndpoints. destruct ev; simpl; try done. unfold seqb. by case_bool_decide; case_decide. Qed.

(** ** Reconciliation *)

Lemma compare_keys_iff keys d c :
  compareMapsOnKeys keys d c = true <->
  forall k, k ∈ keys -> mget d k <> "" -> mget d k = mget c k.
Proof.
  unfold compareMapsOnKeys. rewrite forallb_forall. setoid_rewrite <- list_elem_of_In.
  split; intros H k Hk; specialize (H k Hk).
  - intros Hne. apply is_empty_false in Hne. rewrite Hne in H. simpl in H.
    by destruct (mget d k =?s mget c k) eqn:E; sdec.
  - destruct (is_empty (mget d k)) eqn:E; [done|]. apply is_empty_false in E. simpl.
    apply H in E. rewrite E. by rewrite seqb_refl.
Qed.

(** A service entry that is not written again has, in the cluster, the hosts, ports,
    exports and alternative names that are desired, the desired endpoints up to order,
    and every compared annotation and label that is desired with a non-empty value; its
    addresses are not compared. *)
Theorem reconcile_skip_sound {sorting : GoSort} cur des aks lks :
  reconcileServiceEntry true (Some cur) des aks lks = false ->
  seHosts (SeSpec cur) = seHosts (SeSpec des) /\ sePorts (SeSpec cur) = sePorts (SeSpec des) /\
  seLocation (SeSpec cur) = seLocation (SeSpec des) /\
  seResolution (SeSpec cur) = seResolution (SeSpec des) /\
  seExportTo (SeSpec cur) = seExportTo (SeSpec des) /\
  seSubjectAltNames (SeSpec cur) = seSubjectAltNames (SeSpec des) /\
  seEndpoints (SeSpec cur) ≡ₚ seEndpoints (SeSpec des) /\
  (forall k, k ∈ aks -> mget (Annotations (SeMeta des)) k <> "" ->
     mget (Annotations (SeMeta des)) k = mget (Annotations (SeMeta cur)) k) /\
  (forall k, k ∈ lks -> mget (Labels (SeMeta des)) k <> "" ->
     mget (Labels (SeMeta des)) k = mget (Labels (SeMeta cur)) k).
Proof.
  unfold reconcileServiceEntry. simpl.
  destruct (compareMapsOnKeys aks _ _) eqn:Ea; [|done]. simpl.
  destruct (compareMapsOnKeys lks _ _) eqn:El; [|done]. simpl.
  rewrite compare_keys_iff in Ea, El. rewrite negb_false_iff, bool_decide_eq_true.
  unfold comparable_spec. intros E.
  pose proof (f_equal seHosts E) as E1. pose proof (f_equal sePorts E) as E2.
  pose proof (f_equal seLocation E) as E3. pose proof (f_equal seResolution E) as E4.
  pose proof (f_equal seExportTo E) as E5. pose proof (f_equal seSubjectAltNames E) as E6.
  pose proof (f_equal seEndpoints E) as E7. simpl in *.
  split_and!; try done.
  rewrite <- (sort_slice_perm _ endpoint_less (seEndpoints (SeSpec cur))), <- E7.
  apply sort_slice_perm.
Qed.

Definition labelled_se (labels : gomap) (eps : list WorkloadEntry) : ServiceEntryObj :=
  mkServiceEntryObj (mkMeta "foo-se" "ns" labels None 0 "")
    (mkServiceEntry ["foo"] [] [] MESH_INTERNAL DNS eps [] []).

Lemma reconcile_skip_sound_witness :
  let e1 := mkWorkloadEntry "a" ∅ None "us-west-2" 0 in
  let e2 := mkWorkloadEntry "b" ∅ None "us-east-2" 0 in
  reconcileServiceEntry true (Some (labelled_se None [e1; e2])) (labelled_se None [e2; e1]) [] ["x"] = false /\
  seEndpoints (SeSpec (labelled_se None [e1; e2])) ≡ₚ seEndpoints (SeSpec (labelled_se None [e2; e1])).
Proof.
  intros e1 e2.
  assert (reconcileServiceEntry true (Some (labelled_se None [e1; e2])) (labelled_se None [e2; e1]) [] ["x"]
    = false) as H by (vm_compute; reflexivity).
  split; [exact H|].
  destruct (reconcile_skip_sound (labelled_se None [e1; e2]) (labelled_se None [e2; e1]) [] ["x"] H)
    as (_ & _ & _ & _ & _ & _ & Hp & _). exact Hp.
Defined.

(** A compared label that is no longer desired is not noticed. *)
Theorem reconcile_ignores_removed_label :
  reconcileServiceEntry true (Some (labelled_se (Some {[ "env" := "qa" ]}) []))
    (labelled_se None []) [] ["env"] = false.
Proof. vm_compute. done. Qed.

(** [validateServiceEntryEndpoints] accepts exactly the entries whose endpoints all have a
    locality and the istio mode. *)
Lemma validate_endpoints_iff entry :
  (validateServiceEntryEndpoints entry).1 = true <->
  forall ep, ep ∈ seEndpoints (SeSpec entry) ->
    weLocality ep <> "" /\ mget (weLabels ep) "security.istio.io/tlsMode" = "istio".
Proof.
  unfold validateServiceEntryEndpoints. induction (seEndpoints (SeSpec entry)) as [|ep eps IH]; simpl.
  { split; [|done]. by intros _ ep ?%elem_of_nil. }
  setoid_rewrite elem_of_cons. unfold endpoint_errors at 1.
  destruct (weLocality ep =?s "") eqn:E1, (mget (weLabels ep) _ =?s "istio") eqn:E2; simpl; sdec;
    try (split; [done|]; intros H; destruct (H ep) as [? ?]; [by left|congruence]).
  rewrite IH. split; intros H ep'; [intros [->|Hin]; [done|by apply H]|intros Hin; apply H; by right].
Qed.
