(* ===== verification/SeDrSet.v ===== *)
(** * Service entries and destination rules of a policy: [createSeAndDrSetFromGtp]

    A cname with a traffic policy gets one service entry and destination rule per
    policy prefix, next to those of the cname itself.  Each prefixed host gets an
    address of its own, so the function reads and writes the address store. *)
From S2P Require Import Prelude GoStrings GoStd Config Objects Metadata ServiceCache.
From S2P Require Import AddressStore DestinationRules ServiceEntries.
From stdpp Require Import options.
Local Open Scope Z_scope.

Record SeDrTuple := mkSeDrTuple {
  SeName : string;
  DrName : string;
  TServiceEntry : ServiceEntry;
  TDestinationRule : DestinationRule;
  SeDnsPrefix : string;
  SeDrGlobalTrafficPolicyName : string
}.
#[export] Instance eta_SeDrTuple : Settable SeDrTuple := fun t =>
  mkSeDrTuple (SeName t) (DrName t) (TServiceEntry t) (TDestinationRule t) (SeDnsPrefix t)
    (SeDrGlobalTrafficPolicyName t).

Section Create.
Context {yaml : Yaml} {St : Type} {client : ConfigMapClient St}.
Context (p : AdmiralParams) (prefix : string).

(** The arguments that every rule of the set gets. *)
Context (env region : string) (outlierDetection : option OutlierDetectionCrd)
  (clientConnectionSettings : option ClientConnectionConfig) (currentDR : option DestinationRuleObj)
  (doDRUpdateForInClusterRouting : bool).

(** Is the policy for a host of its own? *)
Definition own_host (host : string) (tp : TrafficPolicy) : bool :=
  negb (tpDnsPrefix tp =?s env) && negb (tpDnsPrefix tp =?s Default) && negb (tpDns tp =?s host).

(** The DNS prefix that the tuple keeps, for a host [host0] of the cname. *)
Definition tuple_dns_prefix (host0 dnsPrefix : string) : string :=
  if has_prefix host0 CanaryRolloutCanaryPrefix && negb (is_empty dnsPrefix) then
    if negb (dnsPrefix =?s Default) then dnsPrefix +:+ Sep +:+ CanaryRolloutCanaryPrefix
    else CanaryRolloutCanaryPrefix
  else dnsPrefix.

(** The state of the address store: the server and the local cache. *)
Definition astate : Type := St * ServiceEntryAddressStore.

(** The service entry of a policy, with its host: the outer [None] is a panic, the inner
    one the early [return nil, nil]. *)
Definition policy_service_entry (se : ServiceEntry) (host0 : string) (tp : TrafficPolicy) (a : astate)
    : option (astate * option (string * ServiceEntry)) :=
  if own_host host0 tp then
    let host := GetCnameVal [tpDnsPrefix tp; host0] in
    '(s', cache', (newAddress, addressErr)) ← getUniqueAddress p prefix host a.2 a.1;
    match addressErr with
    | Some _ => Some ((s', cache'), None)
    | None =>
        let modifiedSe := se <| seHosts := host :: tail (seHosts se) |> in
        Some ((s', cache'),
          Some (host, modifiedSe <| seAddresses :=
            if DisableIPGeneration p && is_empty newAddress then [] else [newAddress] |>))
    end
  else Some (a, Some (host0, se)).

Abbreviation seDrSet := (gmap string SeDrTuple).

Fixpoint policies_loop (gtpName : string) (eventResourceType : string) (event : EventType)
    (se : ServiceEntry) (host0 : string) (policies : list TrafficPolicy) (set : seDrSet) (a : astate)
    : option (astate * option seDrSet) :=
  match policies with
  | [] => Some (a, Some set)
  | tp :: rest =>
      '(a', r) ← policy_service_entry se host0 tp a;
      match r with
      | None => Some (a', None)
      | Some (host, modifiedSe) =>
          dr ← getDestinationRule p modifiedSe region (Some tp) outlierDetection
                 clientConnectionSettings currentDR eventResourceType event
                 doDRUpdateForInClusterRouting;
          let own := own_host host0 tp in
          let seDr := mkSeDrTuple (getIstioResourceName host "-se")
                        (getIstioResourceName host (if own then "-dr" else "-default-dr"))
                        modifiedSe dr (tuple_dns_prefix host0 (tpDnsPrefix tp)) gtpName in
          policies_loop gtpName eventResourceType event se host0 rest (<[host := seDr]> set) a'
      end
  end.

(** [ctxEventResourceType] and [ctxEventType] are the context's values, [None] when they
    are missing or of another type; [dependentNamespaces] is the result of
    [getSortedDependentNamespaces] for the host.  The result is a panic, [nil, nil], or
    the set and the exported namespaces. *)
Definition createSeAndDrSetFromGtp (ctxEventResourceType : option string)
    (ctxEventType : option EventType) (dependentNamespaces : list string) (se : ServiceEntry)
    (globalTrafficPolicy : option GlobalTrafficPolicy) (a : astate)
    : option (astate * option (seDrSet * list string)) :=
  host0 ← head (seHosts se);
  match ctxEventResourceType with
  | None => Some (a, None)
  | Some eventResourceType =>
      match (if eventResourceType =?s DestinationRules.GTP then ctxEventType else Some Add) with
      | None => Some (a, None)
      | Some event =>
          let se := if negb (IsAdmiralOperatorMode p) && EnableExportTo p host0
                    then se <| seExportTo := dependentNamespaces |> else se in
          '(a', r) ← match globalTrafficPolicy with
                     | Some gtp => policies_loop (Name (GtpMeta gtp)) eventResourceType event se host0
                                     (GtpPolicy gtp) ∅ a
                     | None => Some (a, Some ∅)
                     end;
          match r with
          | None => Some (a', None)
          | Some set =>
              match set !! host0 with
              | Some _ => Some (a', Some (set, seExportTo se))
              | None =>
                  dr ← getDestinationRule p se region None outlierDetection clientConnectionSettings
                         currentDR eventResourceType event doDRUpdateForInClusterRouting;
                  let seDr := mkSeDrTuple (getIstioResourceName host0 "-se")
                                (getIstioResourceName host0 "-default-dr") se dr
                                (if has_prefix host0 CanaryRolloutCanaryPrefix
                                 then CanaryRolloutCanaryPrefix else "") "" in
                  Some (a', Some (<[host0 := seDr]> set, seExportTo se))
              end
          end
      end
  end.

(** ** What the set must be *)

(** A policy is for a host of its own unless its prefix is the environment or "default", or
    its DNS name that of the cname. *)
Definition own_policy (host0 : string) (tp : TrafficPolicy) : Prop :=
  tpDnsPrefix tp <> env /\ tpDnsPrefix tp <> "default" /\ tpDns tp <> host0.
#[export] Instance own_policy_dec host0 tp : Decision (own_policy host0 tp).
Proof using Type. apply _. Defined.

(** The host that a policy is for, its prefix in front of the cname. *)
Definition policy_host (host0 : string) (tp : TrafficPolicy) : string :=
  if decide (own_policy host0 tp) then tpDnsPrefix tp +:+ "." +:+ host0 else host0.

(** The last policy for a host counts. *)
Definition policy_of (host0 : string) (policies : list TrafficPolicy) (host : string) : option TrafficPolicy :=
  last (filter (fun tp => policy_host host0 tp = host) policies).

(** The addresses that the address store gives a host. *)
Definition addresses_of (host : string) (addresses : list string) : Prop :=
  exists cache s cache' s' address, getUniqueAddress p prefix host cache s = Some (s', cache', (address, None)) /\
    addresses = if DisableIPGeneration p && is_empty address then [] else [address].

(** The prefix that is kept for the additional endpoints; that of the canary host of a cname
    names the canary. *)
Definition kept_prefix (host0 dnsPrefix : string) : string :=
  if has_prefix host0 "canary" then
    if is_empty dnsPrefix then "" else if dnsPrefix =?s "default" then "canary" else dnsPrefix +:+ ".canary"
  else dnsPrefix.

(** The rule of a service entry for a policy. *)
Abbreviation rule_of se policy ert event dr :=
  (getDestinationRule p se region policy outlierDetection clientConnectionSettings currentDR ert event
     doDRUpdateForInClusterRouting = Some dr).

(** The tuple of a host whose policy is [tp]: a host of its own has the service entry with
    this host and its address, and the cname has the entry itself. *)
Definition policy_tuple (ert : string) (event : EventType) (gtpName : string) (se : ServiceEntry) (host0 host : string)
    (tp : TrafficPolicy) (t : SeDrTuple) : Prop :=
  exists e dr addresses, rule_of e (Some tp) ert event dr /\
    (if decide (own_policy host0 tp)
     then addresses_of host addresses /\ e = se <| seHosts := host :: tail (seHosts se) |> <| seAddresses := addresses |>
     else e = se) /\
    t = {| SeName := getIstioResourceName host "-se";
           DrName := getIstioResourceName host (if decide (own_policy host0 tp) then "-dr" else "-default-dr");
           TServiceEntry := e; TDestinationRule := dr;
           SeDnsPrefix := kept_prefix host0 (tpDnsPrefix tp); SeDrGlobalTrafficPolicyName := gtpName |}.

(** The tuple of a cname without a policy. *)
Definition default_tuple (ert : string) (event : EventType) (se : ServiceEntry) (host0 : string) (t : SeDrTuple) : Prop :=
  exists dr, rule_of se None ert event dr /\
    t = {| SeName := getIstioResourceName host0 "-se"; DrName := getIstioResourceName host0 "-default-dr";
           TServiceEntry := se; TDestinationRule := dr;
           SeDnsPrefix := if has_prefix host0 "canary" then "canary" else ""; SeDrGlobalTrafficPolicyName := "" |}.

(** ** The set is this *)

Lemma own_host_spec host0 tp : own_host host0 tp = bool_decide (own_policy host0 tp).
Proof using Type.
  apply eq_bool_prop_intro. rewrite bool_decide_spec, Is_true_true. unfold own_host, own_policy, Default.
  rewrite !andb_true_iff, !negb_true_iff, !seqb_neq. tauto.
Qed.

Lemma kept_prefix_spec host0 d : tuple_dns_prefix host0 d = kept_prefix host0 d.
Proof using Type.
  unfold tuple_dns_prefix, kept_prefix, CanaryRolloutCanaryPrefix, Default. destruct (has_prefix host0 "canary"); [|done]. simpl.
  destruct d as [|c d]; [done|]. simpl. destruct (String c d =?s "default"); [done|]. done.
Qed.

(** One policy: its host and its tuple. *)
Lemma policy_turn gtpName ert event se host0 tp a a' host e dr :
  policy_service_entry se host0 tp a = Some (a', Some (host, e)) -> rule_of e (Some tp) ert event dr ->
  host = policy_host host0 tp /\
  policy_tuple ert event gtpName se host0 host tp
    (mkSeDrTuple (getIstioResourceName host "-se")
       (getIstioResourceName host (if own_host host0 tp then "-dr" else "-default-dr"))
       e dr (tuple_dns_prefix host0 (tpDnsPrefix tp)) gtpName).
Proof using Type.
  unfold policy_service_entry, policy_host, policy_tuple. rewrite kept_prefix_spec, own_host_spec.
  destruct (decide (own_policy host0 tp)) as [Ho|Ho]; [rewrite bool_decide_true by done|rewrite bool_decide_false by done].
  - destruct (getUniqueAddress _ _ _ _ _) as [[[s' c'] [na [e'|]]]|] eqn:Ea; simpl; try done. intros [= _ <- <-] Hr. split; [done|].
    eexists _, dr, _. split; [exact Hr|]. split; [|done]. split; [|done]. by exists a.2, a.1, c', s', na.
  - intros [= _ <- <-] Hr. split; [done|]. by exists se, dr, [].
Qed.

Lemma policies_loop_spec name ert event se host0 pols : forall set a a' set',
  policies_loop name ert event se host0 pols set a = Some (a', Some set') ->
  forall h, match policy_of host0 pols h with
            | Some tp => exists t, set' !! h = Some t /\ policy_tuple ert event name se host0 h tp t
            | None => set' !! h = set !! h
            end.
Proof using Type.
  induction pols as [|tp pols IH]; intros set a a' set' H h; simpl in H; [by injection H as _ <-|].
  destruct (policy_service_entry se host0 tp a) as [[a1 [[host e]|]]|] eqn:Ep; simpl in H; try done.
  destruct (getDestinationRule _ _ _ _ _ _ _ _ _ _) as [dr|] eqn:Ed; simpl in H; [|done].
  destruct (policy_turn name ert event se host0 tp a a1 host e dr Ep Ed) as [Hhost Ht].
  specialize (IH _ _ _ _ H h). unfold policy_of in *. destruct (decide (policy_host host0 tp = h)) as [Heq|Hne].
  - rewrite filter_cons_True by done. rewrite last_cons. destruct (last (filter _ pols)) as [tp'|]; [done|].
    rewrite IH. assert (host = h) as -> by congruence. rewrite lookup_insert_eq. by eexists.
  - rewrite filter_cons_False by done. destruct (last (filter _ pols)) as [tp'|]; [done|].
    rewrite IH. apply lookup_insert_ne. congruence.
Qed.


End Create.

Definition west_gtp : GlobalTrafficPolicy :=
  mkGTP (mkMeta "gtp" "ns" None None 0 "") [west_east_gtp] None.

(** Without address generation the store is not touched. *)
Definition no_ip_params : AdmiralParams :=
  Params.zero_AdmiralParams <| Params.DisableIPGeneration := true |>.


(** The policy's host is there, without an address, with the failover distribution. *)
Lemma se_dr_set_example :
  match createSeAndDrSetFromGtp no_ip_params "240.0" "dev" "us-west-2" None None None false
      (Some "Deployment") None [] (se_of [ep_in "us-west-2"]) (Some west_gtp) (mkMem None 0, empty_store) with
  | Some (_, Some (set, _)) =>
      match set !! "west.dev.foo.mesh" with
      | Some t => seAddresses (TServiceEntry t) = [] /\ SeName t = "west.dev.foo.mesh-se" /\
                  dr_locality (TDestinationRule t)
                    = Some [mkDistribute "us-west-2/*" {[ "us-west-2" := 70; "us-east-2" := 30 ]}]
      | None => False
      end
  | _ => False
  end.
Proof. vm_compute. done. Qed.
