(* ===== verification/Caches.v ===== *)
(** * The concurrent maps of [controller/common/types.go]

    Admiral's caches are maps of maps behind pointers, each object with its own
    mutex.  A [heap] holds the objects; a pointer is an [option] of a location, and
    several caches may hold the same pointer.  A method call runs with its
    object's lock held for the whole call, so calls are atomic, and the lock only
    shows when a [Range] callback calls back into the same object: the mutexes are
    not reentrant. *)
From S2P Require Import Prelude GoStrings.
From stdpp Require Import options.

(** ** The heap and its monad *)

(** [h_maps]: the [Map] objects.  [h_tabs]: the objects whose values are pointers,
    with their depth: 2 for a [MapOfMaps], 3 for a [MapOfMapOfMaps], 4 for a
    [MapOfMapOfMapsOfMaps]; the values of depth [n] point to objects of depth
    [n - 1], a [Map] having depth 1. *)
Record heap := mkHeap {
  h_maps : gmap nat (gmap string string);
  h_tabs : gmap (nat * nat) (gmap string (option nat));
  h_next : nat;
  h_locked : gset (nat * nat)
}.
#[export] Instance eta_heap : Settable heap := fun h =>
  mkHeap (h_maps h) (h_tabs h) (h_next h) (h_locked h).

(** A pointer: [None] is nil. *)
Abbreviation ptr := (option nat).

Inductive outcome (A : Type) :=
| Done (a : A) (h : heap)
| NilPanic
| Deadlock.
Arguments Done {A} _ _.
Arguments NilPanic {A}.
Arguments Deadlock {A}.

Definition M (A : Type) : Type := heap -> outcome A.

Definition mret {A} (a : A) : M A := fun h => Done a h.

Definition mbnd {A B} (c : M A) (k : A -> M B) : M B := fun h =>
  match c h with
  | Done a h' => k a h'
  | NilPanic => NilPanic
  | Deadlock => Deadlock
  end.

Declare Scope cache_scope.
Delimit Scope cache_scope with cache.
Notation "x <- c ;; k" := (mbnd c (fun x => k))
  (at level 80, c at next level, right associativity) : cache_scope.
Notation "' p <- c ;; k" := (mbnd c (fun x => match x with p => k end))
  (at level 80, p pattern, c at next level, right associativity) : cache_scope.
Notation "c ;;; k" := (mbnd c (fun _ => k)) (at level 80, right associativity) : cache_scope.
Local Open Scope cache_scope.

(** The object of a pointer, its lock being free; a method of a nil pointer
    panics on the mutex. *)
Definition deref_map (s : ptr) : M (nat * gmap string string) := fun h =>
  match s with
  | None => NilPanic
  | Some l => if bool_decide ((1, l) ∈ h_locked h) then Deadlock
              else match h_maps h !! l with Some m => Done (l, m) h | None => NilPanic end
  end.

Definition deref_tab (d : nat) (s : ptr) : M (nat * gmap string ptr) := fun h =>
  match s with
  | None => NilPanic
  | Some l => if bool_decide ((d, l) ∈ h_locked h) then Deadlock
              else match h_tabs h !! (d, l) with Some m => Done (l, m) h | None => NilPanic end
  end.

Definition store_map (l : nat) (m : gmap string string) : M unit := fun h =>
  Done tt (h <| h_maps := <[l := m]> (h_maps h) |>).
Definition store_tab (d l : nat) (m : gmap string ptr) : M unit := fun h =>
  Done tt (h <| h_tabs := <[(d, l) := m]> (h_tabs h) |>).

(** [s.cache[k]] for pointers: the zero value is nil. *)
Definition tab_get (m : gmap string ptr) (k : string) : ptr := default None (m !! k).

(** Lock and unlock the mutex of an object. *)
Definition set_locked (d l : nat) (b : bool) : M unit := fun h =>
  Done tt (h <| h_locked := if b then {[ (d, l) ]} ∪ h_locked h
                            else h_locked h ∖ {[ (d, l) ]} |>).

(** The callees of a method run with the method's lock held. *)
Definition locking {A} (d l : nat) (c : M A) : M A :=
  set_locked d l true ;;; a <- c;; set_locked d l false ;;; mret a.

Fixpoint miter {A} (f : A -> M unit) (l : list A) : M unit :=
  match l with
  | [] => mret tt
  | a :: l' => f a ;;; miter f l'
  end.

(** ** Map *)

Definition NewMap : M ptr := fun h =>
  Done (Some (h_next h)) (h <| h_maps := <[h_next h := ∅]> (h_maps h) |> <| h_next := S (h_next h) |>).

Definition Map_Put (s : ptr) (key value : string) : M unit :=
  '(l, m) <- deref_map s;; store_map l (<[key := value]> m).

Definition Map_Get (s : ptr) (key : string) : M string :=
  '(_, m) <- deref_map s;; mret (default "" (m !! key)).

Definition Map_CheckIfPresent (s : ptr) (key : string) : M bool :=
  '(_, m) <- deref_map s;; mret (bool_decide (is_Some (m !! key))).

Definition Map_Len (s : ptr) : M nat := '(_, m) <- deref_map s;; mret (size m).

Definition Map_Delete (s : ptr) (key : string) : M unit :=
  '(l, m) <- deref_map s;; store_map l (delete key m).

(** nil for a nil receiver. *)
Definition Map_Copy (s : ptr) : M gomap :=
  match s with
  | None => mret None
  | Some _ => '(_, m) <- deref_map s;; mret (Some m)
  end.

(** The constructors of the deeper maps: [NewMapOfMaps] (depth 2),
    [NewMapOfMapOfMaps] (3), [NewMapOfMapOfMapOfMaps] (4). *)
Definition new_tab (d : nat) : M ptr := fun h =>
  Done (Some (h_next h))
    (h <| h_tabs := <[(d, h_next h) := ∅]> (h_tabs h) |> <| h_next := S (h_next h) |>).
Definition NewMapOfMaps : M ptr := new_tab 2.
Definition NewMapOfMapOfMaps : M ptr := new_tab 3.
Definition NewMapOfMapOfMapOfMaps : M ptr := new_tab 4.

Section Ranging.
Context {range : GoRange}.

Definition Map_CopyJustValues (s : ptr) : M (list string) :=
  match s with
  | None => mret []
  | Some _ => '(_, m) <- deref_map s;; mret (go_range 0 m).*2
  end.

Definition Map_GetValues (s : ptr) : M (list string) :=
  '(_, m) <- deref_map s;; mret (go_range 0 m).*2.

Definition Map_GetKeys (s : ptr) : M (list string) :=
  '(_, m) <- deref_map s;; mret (go_range 0 m).*1.

(** [Range]: the callback runs with the lock held. *)
Definition Map_Range (s : ptr) (fn : string -> string -> M unit) : M unit :=
  '(l, m) <- deref_map s;;
  locking 1 l (miter (fun kv => fn kv.1 kv.2) (go_range 0 m)).

(** ** MapOfMaps *)

Definition MapOfMaps_Put (s : ptr) (pkey key value : string) : M unit :=
  '(l, m) <- deref_tab 2 s;;
  locking 2 l (
    mapVal <- (match tab_get m pkey with None => NewMap | Some n => mret (Some n) end);;
    Map_Put mapVal key value ;;;
    store_tab 2 l (<[pkey := mapVal]> m)).

Definition MapOfMaps_DeleteMap (s : ptr) (pkey key : string) : M unit :=
  '(l, m) <- deref_tab 2 s;;
  match tab_get m pkey with
  | None => mret tt
  | Some n => locking 2 l (Map_Delete (Some n) key ;;; store_tab 2 l (<[pkey := Some n]> m))
  end.

Definition MapOfMaps_PutMap (s : ptr) (pkey : string) (inputMap : ptr) : M unit :=
  '(l, m) <- deref_tab 2 s;; store_tab 2 l (<[pkey := inputMap]> m).

Definition MapOfMaps_Get (s : ptr) (key : string) : M ptr :=
  '(_, m) <- deref_tab 2 s;; mret (tab_get m key).

Definition MapOfMaps_Delete (s : ptr) (key : string) : M unit :=
  '(l, m) <- deref_tab 2 s;; store_tab 2 l (delete key m).

Definition MapOfMaps_Range (s : ptr) (fn : string -> ptr -> M unit) : M unit :=
  '(l, m) <- deref_tab 2 s;;
  locking 2 l (miter (fun kv => fn kv.1 kv.2) (go_range 0 m)).

Definition MapOfMaps_Len (s : ptr) : M nat := '(_, m) <- deref_tab 2 s;; mret (size m).

Definition MapOfMaps_GetKeys (s : ptr) : M (list string) :=
  '(_, m) <- deref_tab 2 s;; mret (go_range 0 m).*1.

(** ** MapOfMapOfMaps *)

Definition MapOfMapOfMaps_Put (s : ptr) (pkey skey key value : string) : M unit :=
  '(l, m) <- deref_tab 3 s;;
  locking 3 l (
    mapOfMapsVal <- (match tab_get m pkey with None => NewMapOfMaps | Some n => mret (Some n) end);;
    MapOfMaps_Put mapOfMapsVal skey key value ;;;
    store_tab 3 l (<[pkey := mapOfMapsVal]> m)).

Definition MapOfMapOfMaps_PutMapofMaps (s : ptr) (key : string) (value : ptr) : M unit :=
  '(l, m) <- deref_tab 3 s;; store_tab 3 l (<[key := value]> m).

Definition MapOfMapOfMaps_Get (s : ptr) (key : string) : M ptr :=
  '(_, m) <- deref_tab 3 s;; mret (tab_get m key).

Definition MapOfMapOfMaps_Len (s : ptr) : M nat := '(_, m) <- deref_tab 3 s;; mret (size m).

(** ** MapOfMapOfMapsOfMaps *)

Definition MapOfMapOfMapsOfMaps_Put (s : ptr) (pkey skey tkey key value : string) : M unit :=
  '(l, m) <- deref_tab 4 s;;
  locking 4 l (
    mapOfMapOfMapsVal <-
      (match tab_get m pkey with None => NewMapOfMapOfMaps | Some n => mret (Some n) end);;
    MapOfMapOfMaps_Put mapOfMapOfMapsVal skey tkey key value ;;;
    store_tab 4 l (<[pkey := mapOfMapOfMapsVal]> m)).

Definition MapOfMapOfMapsOfMaps_PutMapofMapsofMaps (s : ptr) (key : string) (value : ptr) : M unit :=
  '(l, m) <- deref_tab 4 s;; store_tab 4 l (<[key := value]> m).

Definition MapOfMapOfMapsOfMaps_Get (s : ptr) (key : string) : M ptr :=
  '(_, m) <- deref_tab 4 s;; mret (tab_get m key).

Definition MapOfMapOfMapsOfMaps_Len (s : ptr) : M nat := '(_, m) <- deref_tab 4 s;; mret (size m).

End Ranging.

(** ** Reading through pointers

    [resolve d h p path] follows the keys of [path] from the object [p] of depth
    [d]; [read] is the value the chain of [Get]s returns, [""] when a pointer on
    the way is nil or the key is missing. *)
Definition child (d : nat) (h : heap) (p : ptr) (k : string) : ptr :=
  match p with
  | None => None
  | Some l => match h_tabs h !! (d, l) with Some m => tab_get m k | None => None end
  end.

#[global] Arguments child : simpl never.

Fixpoint resolve (d : nat) (h : heap) (p : ptr) (path : list string) : ptr :=
  match path with
  | [] => p
  | a :: path' => resolve (pred d) h (child d h p a) path'
  end.

Definition entry (h : heap) (p : ptr) (k : string) : option string :=
  match p with
  | None => None
  | Some n => match h_maps h !! n with Some m => m !! k | None => None end
  end.

Definition read (d : nat) (h : heap) (p : ptr) (path : list string) (k : string) : string :=
  default "" (entry h (resolve d h p path) k).

(** The common shape of the [Put] of every depth. *)
Definition new_obj (d : nat) : M ptr := if decide (d = 1) then NewMap else new_tab d.

Fixpoint path_put (path : list string) (p : ptr) (k v : string) : M unit :=
  match path with
  | [] => Map_Put p k v
  | a :: path' =>
      let d := S (length path) in
      '(l, m) <- deref_tab d p;;
      locking d l (
        c <- (match tab_get m a with None => new_obj (pred d) | Some n => mret (Some n) end);;
        path_put path' c k v ;;;
        store_tab d l (<[a := c]> m))
  end.

Lemma path_put_2 p a k v : MapOfMaps_Put p a k v = path_put [a] p k v.
Proof. done. Qed.
Lemma path_put_3 p a b k v : MapOfMapOfMaps_Put p a b k v = path_put [a; b] p k v.
Proof. done. Qed.
Lemma path_put_4 p a b c k v : MapOfMapOfMapsOfMaps_Put p a b c k v = path_put [a; b; c] p k v.
Proof. done. Qed.

(** ** Well-formed heaps *)

Definition allocated (d : nat) (h : heap) (n : nat) : Prop :=
  if decide (d = 1) then is_Some (h_maps h !! n) else is_Some (h_tabs h !! (d, n)).

(** Locations are below the next free one, and pointers lead to objects of the
    right depth. *)
Record wf (h : heap) : Prop := {
  wf_below : forall d n, allocated d h n -> n < h_next h;
  wf_child : forall d p k q, child d h p k = Some q -> 2 <= d /\ allocated (pred d) h q
}.

Definition valid (d : nat) (h : heap) (p : ptr) : Prop :=
  match p with None => True | Some l => allocated d h l end.

(** What a [Put] may do to the pointers: those that were not nil stay, the new
    ones lead to new objects, one pointer to each. *)
Record grows (h h' : heap) : Prop := {
  gr_mono : forall d p k q, child d h p k = Some q -> child d h' p k = Some q;
  gr_new : forall d p k q, child d h' p k = Some q -> child d h p k = Some q \/ h_next h <= q;
  gr_unique : forall d1 p1 k1 d2 p2 k2 q, h_next h <= q ->
    child d1 h' p1 k1 = Some q -> child d2 h' p2 k2 = Some q -> (d1, p1, k1) = (d2, p2, k2);
  gr_alloc : forall d n, allocated d h n -> allocated d h' n;
  gr_next : h_next h <= h_next h'
}.

Lemma child_below d h p k q : wf h -> child d h p k = Some q -> q < h_next h.
Proof. intros Hw Hc. apply (wf_child _ Hw) in Hc as [_ Ha]. by apply (wf_below _ Hw) in Ha. Qed.

Lemma grows_refl h : wf h -> grows h h.
Proof.
  intros Hw. split; auto. intros d1 p1 k1 d2 p2 k2 q Hq Hc%child_below; [lia|done].
Qed.

Lemma grows_trans h1 h2 h3 : grows h1 h2 -> grows h2 h3 -> grows h1 h3.
Proof.
  intros [A1 A2 A3 A4 A5] [B1 B2 B3 B4 B5]. split; auto with lia.
  - intros d p k q Hq. destruct (B2 _ _ _ _ Hq) as [Hq2 | Hq2]; [|right; lia]. auto.
  - intros d1 p1 k1 d2 p2 k2 q Hq Hc1 Hc2.
    destruct (B2 _ _ _ _ Hc1) as [Hd1|]; [|by eapply B3].
    destruct (B2 _ _ _ _ Hc2) as [Hd2|]; [|by eapply B3]. by eapply A3.
Qed.

Lemma child_valid d h p k : wf h -> valid (pred d) h (child d h p k).
Proof.
  intros Hw. destruct (child d h p k) eqn:E; [|done]. by apply (wf_child _ Hw) in E as [_ ?].
Qed.

Lemma resolve_valid path : forall d h p,
  wf h -> valid d h p -> valid (d - length path) h (resolve d h p path).
Proof.
  induction path as [|a path IH]; intros d h p Hw Hp; simpl.
  { by rewrite Nat.sub_0_r. }
  replace (d - S (length path)) with (pred d - length path) by lia.
  apply IH; [done|]. by apply child_valid.
Qed.

Lemma resolve_nil path d h : path <> [] -> resolve d h None path = None.
Proof.
  revert d. induction path as [|a path IH]; intros d Hp; [done|].
  destruct path as [|b path]; [done|]. by apply IH.
Qed.

Lemma resolve_mono path : forall d h h' p q,
  (forall d p k q, child d h p k = Some q -> child d h' p k = Some q) ->
  resolve d h p path = Some q -> resolve d h' p path = Some q.
Proof.
  induction path as [|a path IH]; intros d h h' p q Hg Hr; simpl in *; [done|].
  destruct (child d h p a) as [c|] eqn:Ec.
  - rewrite (Hg _ _ _ _ Ec). by eapply IH.
  - destruct path as [|b path]; [done|]. by rewrite resolve_nil in Hr.
Qed.

(** A path that leads to an object after the [Put] led there before, or the object
    is new. *)
Lemma child_fresh d h l k : wf h -> h_next h <= l -> child d h (Some l) k = None.
Proof.
  intros Hw Hl. unfold child. destruct (h_tabs h !! (d, l)) as [m|] eqn:E; [|done].
  destruct (tab_get m k) as [q|] eqn:Ek; [|done].
  assert (child d h (Some l) k = Some q) as Hc by (unfold child; by rewrite E).
  apply (wf_child _ Hw) in Hc as [Hd _].
  assert (l < h_next h); [|lia]. apply (wf_below _ Hw d).
  unfold allocated. destruct (decide (d = 1)); [lia|]. by eexists.
Qed.

Lemma resolve_new_aux path : forall d h h' p q,
  wf h -> grows h h' -> resolve d h' p path = Some q ->
  resolve d h p path = Some q \/
  (h_next h <= q /\ ((forall l, p = Some l -> h_next h <= l) \/ resolve d h p path = None)).
Proof.
  induction path as [|a path IH]; intros d h h' p q Hw Hg Hr; simpl in *; [by left|].
  destruct (child d h' p a) as [c|] eqn:Ec.
  2: { destruct path; [done|]. by rewrite resolve_nil in Hr. }
  destruct (gr_new _ _ Hg _ _ _ _ Ec) as [Hc | Hc].
  - rewrite Hc in *. destruct (IH _ _ _ _ _ Hw Hg Hr) as [?|[Hq [Hl|Hn]]]; auto.
    exfalso. specialize (Hl c eq_refl). apply child_below in Hc; [lia|done].
  - right. split.
    + destruct (IH _ _ _ _ _ Hw Hg Hr) as [Hs|[? _]]; [|done].
      destruct path as [|b path]; simpl in *; [by simplify_eq|].
      rewrite (child_fresh _ _ _ _ Hw Hc) in Hs.
      destruct path; [done|]. by rewrite resolve_nil in Hs.
    + right. destruct (child d h p a) as [c0|] eqn:Ec0.
      * rewrite (gr_mono _ _ Hg _ _ _ _ Ec0) in Ec. simplify_eq.
        apply child_below in Ec0; [lia|done].
      * destruct path; [done|]. by rewrite resolve_nil.
Qed.

Lemma valid_below d h l : wf h -> valid d h (Some l) -> l < h_next h.
Proof. intros Hw Hl. by apply (wf_below _ Hw d). Qed.

Lemma resolve_new path d h h' p q :
  wf h -> grows h h' -> valid d h p -> resolve d h' p path = Some q ->
  resolve d h p path = Some q \/ (h_next h <= q /\ resolve d h p path = None).
Proof.
  intros Hw Hg Hv Hr. destruct (resolve_new_aux _ _ _ _ _ _ Hw Hg Hr) as [?|[Hq [Hl|Hn]]]; auto.
  right. split; [done|]. destruct p as [l|].
  - specialize (Hl l eq_refl). apply valid_below in Hv; [lia|done].
  - destruct path; [done|]. by apply resolve_nil.
Qed.

Lemma resolve_snoc path d h p a :
  resolve d h p (path ++ [a]) = child (d - length path) h (resolve d h p path) a.
Proof.
  revert d p. induction path as [|b path IH]; intros d p; simpl.
  - by rewrite Nat.sub_0_r.
  - rewrite IH. f_equal. lia.
Qed.

(** ** One write into a table *)
Definition set_slot (h : heap) (d l : nat) (m : gmap string ptr) (a : string) (n : nat) : heap :=
  h <| h_tabs := <[(d, l) := <[a := Some n]> m]> (h_tabs h) |>.

Lemma child_set_slot h d l m a n d0 p k :
  h_tabs h !! (d, l) = Some m ->
  child d0 (set_slot h d l m a n) p k =
    if decide ((d0, p, k) = (d, Some l, a)) then Some n else child d0 h p k.
Proof.
  intros Hm. unfold child, set_slot. cbn. destruct p as [l0|].
  2: { by destruct (decide _); simplify_eq. }
  destruct (decide ((d, l) = (d0, l0))) as [[= <- <-]|Hne].
  - rewrite lookup_insert_eq, Hm. unfold tab_get. destruct (decide (a = k)) as [<-|Hk].
    + rewrite lookup_insert_eq. by rewrite decide_True.
    + rewrite lookup_insert_ne by done. rewrite decide_False; [done|congruence].
  - rewrite lookup_insert_ne by done. rewrite decide_False; [done|congruence].
Qed.

Lemma allocated_set_slot h d l m a n d0 n0 :
  h_tabs h !! (d, l) = Some m -> allocated d0 (set_slot h d l m a n) n0 <-> allocated d0 h n0.
Proof.
  intros Hm. unfold allocated, set_slot. cbn. destruct (decide (d0 = 1)); [done|].
  destruct (decide ((d, l) = (d0, n0))) as [[= <- <-]|Hne].
  - rewrite lookup_insert_eq, Hm. naive_solver.
  - by rewrite lookup_insert_ne.
Qed.

Lemma wf_set_slot h d l m a n :
  wf h -> 2 <= d -> h_tabs h !! (d, l) = Some m -> allocated (pred d) h n ->
  wf (set_slot h d l m a n).
Proof.
  intros [W1 W2] Hd Hm Hn. split.
  - intros d0 n0. rewrite allocated_set_slot by done. apply W1.
  - intros d0 p k q. rewrite child_set_slot, allocated_set_slot by done.
    destruct (decide _); [|apply W2]. by intros [= <-]; simplify_eq.
Qed.

Lemma grows_set_slot h0 h d l m a n :
  wf h0 -> grows h0 h -> h_tabs h !! (d, l) = Some m ->
  child d h0 (Some l) a = Some n \/
  (child d h0 (Some l) a = None /\ h_next h0 <= n /\ forall d0 p k, child d0 h p k <> Some n) ->
  grows h0 (set_slot h d l m a n).
Proof.
  intros Hw [G1 G2 G3 G4 G5] Hm Hn. split.
  - intros d0 p k q Hq. rewrite child_set_slot by done.
    destruct (decide _); [|auto]. simplify_eq. naive_solver congruence.
  - intros d0 p k q. rewrite child_set_slot by done.
    destruct (decide _); [|auto]. simplify_eq. intros [= <-]. naive_solver.
  - intros d1 p1 k1 d2 p2 k2 q Hq. rewrite !child_set_slot by done.
    destruct Hn as [Hn | (_ & _ & Hn)]; [apply child_below in Hn; [|done]|];
      destruct (decide _), (decide _); intros; simplify_eq; try lia; try done;
      try (by eapply G3); exfalso; by eapply Hn.
  - intros d0 n0 Ha. rewrite allocated_set_slot by done. auto.
  - done.
Qed.

(** ** Allocation *)
Record new_effect (d : nat) (h h' : heap) : Prop := {
  ne_allocated : forall d0 n, allocated d0 h' n <-> allocated d0 h n \/ (d0 = d /\ n = h_next h);
  ne_child : forall d0 p k, child d0 h' p k = child d0 h p k;
  ne_next : h_next h' = S (h_next h);
  ne_locked : h_locked h' = h_locked h;
  ne_empty : forall q, default ∅ (h_maps h' !! q) = default ∅ (h_maps h !! q);
  ne_maps : forall q, q <> h_next h \/ d <> 1 -> h_maps h' !! q = h_maps h !! q;
  ne_tabs : forall d0 l0, d0 <> d -> h_tabs h' !! (d0, l0) = h_tabs h !! (d0, l0)
}.

Lemma fresh_map h : wf h -> h_maps h !! h_next h = None.
Proof.
  intros [W1 _]. apply eq_None_not_Some. intros Hs.
  assert (h_next h < h_next h); [|lia]. by apply (W1 1).
Qed.

Lemma fresh_tab d h : wf h -> d <> 1 -> h_tabs h !! (d, h_next h) = None.
Proof.
  intros [W1 _] Hd. apply eq_None_not_Some. intros Hs.
  assert (h_next h < h_next h); [|lia]. apply (W1 d). unfold allocated. by rewrite decide_False.
Qed.

Lemma NewMap_run h : wf h -> exists h', NewMap h = Done (Some (h_next h)) h' /\ new_effect 1 h h'.
Proof.
  intros Hw. eexists. split; [reflexivity|]. split; try done.
  - intros d0 n. unfold allocated. cbn. destruct (decide (d0 = 1)); [|naive_solver].
    rewrite lookup_insert_is_Some'. naive_solver.
  - intros q. cbn. destruct (decide (q = h_next h)) as [->|].
    + by rewrite lookup_insert_eq, fresh_map.
    + by rewrite lookup_insert_ne.
  - intros q [Hq|]; [|done]. cbn. by rewrite lookup_insert_ne.
Qed.

Lemma new_tab_run d h :
  wf h -> d <> 1 -> exists h', new_tab d h = Done (Some (h_next h)) h' /\ new_effect d h h'.
Proof.
  intros Hw Hd. eexists. split; [reflexivity|]. split; try done.
  - intros d0 n. unfold allocated. cbn. destruct (decide (d0 = 1)); [naive_solver|].
    rewrite lookup_insert_is_Some'. naive_solver.
  - intros d0 [l|] k; [|done]. unfold child. cbn.
    destruct (decide ((d, h_next h) = (d0, l))) as [[= <- <-]|].
    + by rewrite lookup_insert_eq, fresh_tab.
    + by rewrite lookup_insert_ne.
  - intros d0 l0 Hd0. cbn. rewrite lookup_insert_ne; [done|congruence].
Qed.

Lemma new_obj_run d h :
  wf h -> exists h', new_obj d h = Done (Some (h_next h)) h' /\ new_effect d h h'.
Proof.
  intros Hw. unfold new_obj. destruct (decide (d = 1)) as [->|].
  - by apply NewMap_run.
  - by apply new_tab_run.
Qed.

Lemma new_effect_wf d h h' : new_effect d h h' -> wf h -> wf h'.
Proof.
  intros [E1 E2 E3 _ _ _ _] [W1 W2]. split.
  - intros d0 n. rewrite E1, E3. intros [?%W1|[_ ->]]; lia.
  - intros d0 p k q. rewrite E2, E1. intros [??]%W2. auto.
Qed.

Lemma new_effect_grows d h h' : new_effect d h h' -> wf h -> grows h h'.
Proof.
  intros [E1 E2 E3 _ _ _ _] Hw. split.
  - intros *. by rewrite E2.
  - intros *. rewrite E2. by left.
  - intros *. rewrite !E2. by apply grows_refl.
  - intros *. rewrite E1. by left.
  - lia.
Qed.

(** ** The effect of a Put of any depth *)

(** Locks do not matter to pointers. *)
Definition with_locks (h : heap) (L : gset (nat * nat)) : heap := h <| h_locked := L |>.

Lemma wf_with_locks h L : wf h -> wf (with_locks h L).
Proof. intros [W1 W2]. by split. Qed.

Lemma grows_with_locks h h' L L' : grows (with_locks h L) h' -> grows h (with_locks h' L').
Proof. intros [G1 G2 G3 G4 G5]. by split. Qed.

(** No lock of depth [D] or less is held. *)
Definition unlocked (D : nat) (h : heap) : Prop := forall d l, d <= D -> (d, l) ∉ h_locked h.

(** [put_effect D h h' n k v]: the pointers grow, the [Map] at [n] gets the entry,
    nothing else changes, and the tables deeper than [D] are untouched. *)
Record put_effect (D : nat) (h h' : heap) (n : nat) (k v : string) : Prop := {
  pe_wf : wf h';
  pe_grows : grows h h';
  pe_locked : h_locked h' = h_locked h;
  pe_maps : forall q, h_maps h' !! q =
    if decide (q = n) then Some (<[k := v]> (default ∅ (h_maps h !! n))) else h_maps h !! q;
  pe_tabs : forall d l, D < d -> h_tabs h' !! (d, l) = h_tabs h !! (d, l)
}.

Lemma map_put_effect h l k v :
  wf h -> unlocked 1 h -> allocated 1 h l ->
  exists h', Map_Put (Some l) k v h = Done tt h' /\ put_effect 1 h h' l k v.
Proof.
  intros Hw Hu [m Hm]. unfold Map_Put, mbnd, deref_map.
  rewrite bool_decide_eq_false_2 by (by apply Hu). rewrite Hm.
  assert (forall d n, allocated d (h <| h_maps := <[l := <[k := v]> m]> (h_maps h) |>) n
            <-> allocated d h n) as Ha.
  { intros d n. unfold allocated. cbn. destruct (decide (d = 1)); [|done].
    rewrite lookup_insert_is_Some'. naive_solver. }
  eexists. split; [reflexivity|]. split; [| | done | |done].
  - destruct Hw as [W1 W2]. split; intros *; [rewrite Ha; apply W1|].
    intros Hc. rewrite Ha. by eapply W2.
  - assert (grows h h) as [G1 G2 G3 _ _] by (by apply grows_refl).
    split; [done..| |done]. intros d n. by rewrite Ha.
  - intros q. cbn. destruct (decide (q = l)) as [->|].
    + by rewrite lookup_insert_eq, Hm.
    + by rewrite lookup_insert_ne.
Qed.

(** The lock is taken and given back. *)
Lemma locking_run {A} d l (c : M A) h a h' :
  (d, l) ∉ h_locked h ->
  c (with_locks h ({[ (d, l) ]} ∪ h_locked h)) = Done a h' ->
  h_locked h' = {[ (d, l) ]} ∪ h_locked h ->
  locking d l c h = Done a (with_locks h' (h_locked h)).
Proof.
  intros Hl Hc Hl'. unfold locking, mbnd, set_locked, mret. unfold with_locks in Hc.
  rewrite Hc. rewrite Hl'. unfold with_locks. f_equal. f_equal. set_solver.
Qed.

(** [h1] is [h0] with the object of the slot [a] of a table at hand, allocated when
    the slot was nil. *)
Record slot_ready (d l : nat) (m : gmap string ptr) (a : string) (n : nat) (h0 h1 : heap) : Prop := {
  sr_wf : wf h1;
  sr_grows : grows h0 h1;
  sr_tab : h_tabs h0 !! (d, l) = Some m;
  sr_alloc : allocated (pred d) h1 n;
  sr_slot : tab_get m a = Some n \/
    (tab_get m a = None /\ h_next h0 <= n < h_next h1 /\ forall d0 p k, child d0 h1 p k <> Some n);
  sr_empty : forall q, default ∅ (h_maps h1 !! q) = default ∅ (h_maps h0 !! q);
  sr_locked : h_locked h1 = h_locked h0;
  sr_tabs : forall d0 l0, pred d < d0 -> h_tabs h1 !! (d0, l0) = h_tabs h0 !! (d0, l0);
  sr_maps : forall q, q <> n \/ pred d <> 1 -> h_maps h1 !! q = h_maps h0 !! q
}.

Lemma slot_object d l m a h0 :
  wf h0 -> 2 <= d -> h_tabs h0 !! (d, l) = Some m ->
  exists h1 n, (match tab_get m a with None => new_obj (pred d) | Some n => mret (Some n) end) h0
      = Done (Some n) h1 /\ slot_ready d l m a n h0 h1.
Proof.
  intros Hw Hd Hm. destruct (tab_get m a) as [n|] eqn:En.
  - exists h0, n. split; [done|]. split; auto using grows_refl.
    apply (wf_child _ Hw d (Some l) a n). unfold child. by rewrite Hm.
  - destruct (new_obj_run (pred d) h0) as (h1 & Hr & Hn); [done|].
    exists h1, (h_next h0). split; [done|]. pose proof Hn as [N1 N2 N3 N4 N5 N6 N7].
    split; eauto using new_effect_wf, new_effect_grows.
    + apply N1. auto.
    + right. split_and!; [done|lia..|]. intros d0 p k. rewrite N2. intros Hc%child_below; [lia|done].
    + intros d0 l0 Hd0. apply N7. lia.
Qed.

(** One level: the slot's object gets its [Put], then the slot is written. *)
Lemma slot_effect d l m a n n' h0 h1 h2 k v :
  2 <= d -> wf h0 -> slot_ready d l m a n h0 h1 -> n' = n \/ pred d <> 1 ->
  put_effect (pred d) h1 h2 n' k v ->
  put_effect d h0 (set_slot h2 d l m a n) n' k v.
Proof.
  intros Hd Hw0 [S1 S2 S3 S4 S5 S6 S7 S8 S9] Hn' [E1 E2 E3 E4 E5].
  assert (h_tabs h2 !! (d, l) = Some m) as Hm2 by (rewrite E5, S8; [done|lia..]).
  split.
  - apply wf_set_slot; [done..|]. by apply (gr_alloc _ _ E2).
  - apply grows_set_slot; [done|by eapply grows_trans|done|]. unfold child at 1 2. rewrite S3.
    destruct S5 as [?|(? & ? & Hu)]; [by left|right]. split_and!; [done|lia|].
    intros d0 p k0 Hc. apply (gr_new _ _ E2) in Hc as [Hc|]; [by eapply Hu|lia].
  - cbn. congruence.
  - intros q. cbn. rewrite E4, S6. destruct (decide _); [done|]. apply S9.
    destruct Hn' as [->|]; auto.
  - intros d0 l0 Hd0. cbn. rewrite lookup_insert_ne by (intros [=]; lia).
    rewrite E5 by lia. apply S8. lia.
Qed.

Lemma resolve_with_locks d h L p path : resolve d (with_locks h L) p path = resolve d h p path.
Proof. revert d p. induction path as [|a path IH]; intros d p; simpl; [done|]. apply IH. Qed.

(** The slot leads where its object leads. *)
Lemma slot_resolve d l m a n h0 h1 h2 n' k v path q :
  2 <= d -> slot_ready d l m a n h0 h1 -> put_effect (pred d) h1 h2 n' k v ->
  resolve (pred d) h2 (Some n) path = Some q ->
  resolve d (set_slot h2 d l m a n) (Some l) (a :: path) = Some q.
Proof.
  intros Hd [S1 S2 S3 S4 S5 S6 S7 S8 S9] [E1 E2 E3 E4 E5] Hr.
  assert (h_tabs h2 !! (d, l) = Some m) as Hm2 by (rewrite E5, S8; [done|lia..]).
  cbn [resolve]. rewrite child_set_slot, decide_True by done.
  eapply resolve_mono; [|exact Hr]. intros d0 p k0 q0 Hq.
  rewrite child_set_slot by done. destruct (decide _) as [?|]; [simplify_eq|done].
  unfold child in Hq. rewrite Hm2 in Hq. naive_solver congruence.
Qed.

Lemma put_effect_locks D h h' n k v L :
  put_effect D (with_locks h L) h' n k v ->
  put_effect D h (with_locks h' (h_locked h)) n k v.
Proof.
  intros [E1 E2 E3 E4 E5]. split; [by apply wf_with_locks|by eapply grows_with_locks|done..].
Qed.

Lemma path_put_effect path : forall l k v h,
  wf h -> unlocked (S (length path)) h -> allocated (S (length path)) h l ->
  exists h' n, path_put path (Some l) k v h = Done tt h' /\
    put_effect (S (length path)) h h' n k v /\
    resolve (S (length path)) h' (Some l) path = Some n.
Proof.
  induction path as [|a path IH]; intros l k v h Hw Hu Ha.
  { destruct (map_put_effect h l k v) as (h' & Hr & He); [done..|]. by exists h', l. }
  destruct Ha as [m Hm]. set (d := S (length (a :: path))).
  change (h_tabs h !! (d, l) = Some m) in Hm.
  set (L := {[ (d, l) ]} ∪ h_locked h). set (h0 := with_locks h L).
  assert (unlocked (S (length path)) h0) as Hu0.
  { intros d0 l0 Hd0. unfold h0, L. cbn. rewrite not_elem_of_union, not_elem_of_singleton.
    split; [intros [= -> _]; simpl in *; lia|]. apply Hu. simpl in *; lia. }
  assert (wf h0) as Hw0 by by apply wf_with_locks.
  destruct (slot_object d l m a h0) as (h1 & n & Hr1 & Hs1); [done|unfold d; simpl; lia|done|].
  destruct (IH n k v h1) as (h2 & n' & Hr2 & He2 & Hres2); 
    [apply (sr_wf _ _ _ _ _ _ _ Hs1)| |apply (sr_alloc _ _ _ _ _ _ _ Hs1)|].
  { intros d0 l0 Hd0. rewrite (sr_locked _ _ _ _ _ _ _ Hs1). by apply Hu0. }
  exists (with_locks (set_slot h2 d l m a n) (h_locked h)), n'. split; [|split].
  - cbn [path_put]. fold d. unfold mbnd at 1, deref_tab.
    rewrite bool_decide_eq_false_2 by (by apply Hu). rewrite Hm.
    apply locking_run; [by apply Hu| |].
    2: { cbn. by rewrite (pe_locked _ _ _ _ _ _ He2), (sr_locked _ _ _ _ _ _ _ Hs1). }
    fold L. fold h0. unfold mbnd. by rewrite Hr1, Hr2.
  - eapply put_effect_locks, slot_effect; [unfold d; simpl; lia|done|done| |done].
    destruct path as [|b path]; [left|by right]. simpl in Hres2. by simplify_eq.
  - rewrite resolve_with_locks.
    by apply (slot_resolve d l m a n h0 h1 h2 n' k v path n'); [unfold d; simpl; lia|..].
Qed.

(** ** What a read sees after a Put *)

Lemma entry_put D h h' n k v q k0 :
  put_effect D h h' n k v ->
  entry h' (Some q) k0 = if decide (q = n /\ k0 = k) then Some v
    else if decide (q = n) then default ∅ (h_maps h !! n) !! k0 else entry h (Some q) k0.
Proof.
  intros He. unfold entry. rewrite (pe_maps _ _ _ _ _ _ He).
  destruct (decide (q = n)) as [->|].
  - destruct (decide (k0 = k)) as [->|].
    + rewrite decide_True by done. by rewrite lookup_insert_eq.
    + rewrite decide_False by naive_solver. by rewrite lookup_insert_ne.
  - by rewrite decide_False by naive_solver.
Qed.

Lemma entry_fresh h q k : wf h -> h_next h <= q -> entry h (Some q) k = None.
Proof.
  intros Hw Hq. unfold entry. destruct (h_maps h !! q) eqn:E; [|done].
  assert (q < h_next h); [|lia]. apply (wf_below _ Hw 1). by eexists.
Qed.

Lemma entry_default h q k : entry h (Some q) k = default ∅ (h_maps h !! q) !! k.
Proof. unfold entry. destruct (h_maps h !! q); [done|]. symmetry. apply lookup_empty. Qed.

Lemma put_read D h h' n k v d p path k0 :
  wf h -> put_effect D h h' n k v -> valid d h p ->
  read d h' p path k0 =
    if decide (resolve d h' p path = Some n /\ k0 = k) then v else read d h p path k0.
Proof.
  intros Hw He Hv. unfold read. destruct (resolve d h' p path) as [q|] eqn:Eq.
  2: { rewrite decide_False by naive_solver. destruct (resolve d h p path) eqn:E; [|done].
       erewrite resolve_mono in Eq; [done|apply He|exact E]. }
  rewrite (entry_put _ _ _ _ _ _ _ _ He).
  destruct (decide (q = n /\ k0 = k)) as [[-> ->]|Hne].
  { by rewrite decide_True. }
  rewrite (decide_False (P := Some q = Some n /\ k0 = k)) by naive_solver.
  rewrite <- (entry_default h n). assert ((if decide (q = n) then entry h (Some n) k0
    else entry h (Some q) k0) = entry h (Some q) k0) as -> by (by destruct (decide _) as [->|]).
  destruct (resolve_new _ _ _ _ _ _ Hw (pe_grows _ _ _ _ _ _ He) Hv Eq) as [->|[Hq ->]]; [done|].
  by rewrite entry_fresh.
Qed.

(** [p] owns its objects: no two paths of a length lead to the same object. *)
Definition unshared (d : nat) (h : heap) (p : ptr) : Prop :=
  forall path1 path2 q, length path1 = length path2 ->
    resolve d h p path1 = Some q -> resolve d h p path2 = Some q -> path1 = path2.

Lemma unshared_grows d h h' p :
  wf h -> grows h h' -> valid d h p -> unshared d h p -> unshared d h' p.
Proof.
  intros Hw Hg Hv Hu path1. induction path1 as [|a1 x1 IH] using rev_ind; intros path2 q Hl H1 H2.
  { by destruct path2. }
  destruct path2 as [|a2 x2 _] using rev_ind; [rewrite length_app in Hl; simpl in Hl; lia|].
  rewrite !length_app in Hl. simpl in Hl.
  destruct (decide (h_next h <= q)) as [Hq|Hq].
  - rewrite resolve_snoc in H1, H2. pose proof (gr_unique _ _ Hg _ _ _ _ _ _ _ Hq H1 H2) as He.
    injection He as _ Hr ->. f_equal. destruct (resolve d h' p x1) as [r|] eqn:E1; [|done].
    apply (IH _ r); [lia|done|done].
  - destruct (resolve_new _ _ _ _ _ _ Hw Hg Hv H1) as [G1|[? _]]; [|done].
    destruct (resolve_new _ _ _ _ _ _ Hw Hg Hv H2) as [G2|[? _]]; [|done].
    apply (Hu _ _ q); [rewrite !length_app; simpl; lia|done|done].
Qed.

(** The [Put] methods, with the keys of their path. *)
Inductive put_method : nat -> (ptr -> string -> string -> M unit) -> list string -> Prop :=
| pm_map : put_method 1 Map_Put []
| pm_map_of_maps a : put_method 2 (fun p => MapOfMaps_Put p a) [a]
| pm_map_of_map_of_maps a b : put_method 3 (fun p => MapOfMapOfMaps_Put p a b) [a; b]
| pm_map_of_map_of_maps_of_maps a b c :
    put_method 4 (fun p => MapOfMapOfMapsOfMaps_Put p a b c) [a; b; c].

Lemma put_method_effect d op path l k v h :
  put_method d op path -> wf h -> unlocked d h -> allocated d h l ->
  exists h' n, op (Some l) k v h = Done tt h' /\ put_effect d h h' n k v /\
    resolve d h' (Some l) path = Some n.
Proof.
  intros Hop Hw Hu Ha. destruct Hop.
  - by apply (path_put_effect []).
  - by apply (path_put_effect [a]).
  - by apply (path_put_effect [a; b]).
  - by apply (path_put_effect [a; b; c]).
Qed.

Lemma nested_put_helper d op path l k v h :
  put_method d op path -> wf h -> unlocked d h -> allocated d h l -> unshared d h (Some l) ->
  exists h', op (Some l) k v h = Done tt h' /\ wf h' /\ unlocked d h' /\ allocated d h' l /\
    unshared d h' (Some l) /\
    forall path' k', length path' = length path ->
      read d h' (Some l) path' k' =
        if decide (path' = path /\ k' = k) then v else read d h (Some l) path' k'.
Proof.
  intros Hop Hw Hu Ha Hs.
  destruct (put_method_effect d op path l k v h) as (h' & n & Hr & He & Hn); [done..|].
  assert (unshared d h' (Some l)) as Hs' by (eapply unshared_grows; [done|apply He|done|done]).
  exists h'. split_and!; [done|apply He| | |done|].
  - intros d0 l0 Hd0. rewrite (pe_locked _ _ _ _ _ _ He). by apply Hu.
  - by apply (gr_alloc _ _ (pe_grows _ _ _ _ _ _ He)).
  - intros path' k' Hl. rewrite (put_read _ _ _ _ _ _ _ _ _ _ Hw He) by done.
    destruct (decide (path' = path /\ k' = k)) as [[-> ->]|Hne]; [by rewrite decide_True|].
    rewrite decide_False; [done|]. intros [Hq ->]. apply Hne. split; [|done]. by apply (Hs' _ _ n).
Qed.

(** ** Fresh objects *)
Definition empty_heap : heap := mkHeap ∅ ∅ 0 ∅.

Lemma wf_empty : wf empty_heap.
Proof.
  split.
  - intros d n. unfold allocated, empty_heap. cbn. destruct (decide (d = 1)); intros [? Hn]; done.
  - intros d [l|] k q Hq; done.
Qed.

Lemma new_unshared d h h' :
  wf h -> new_effect d h h' -> unshared d h' (Some (h_next h)).
Proof.
  intros Hw Hn path1 path2 q Hl H1 H2.
  destruct path1 as [|a1 x1], path2 as [|a2 x2]; try done. exfalso.
  simpl in H1. rewrite (ne_child _ _ _ Hn), child_fresh in H1 by done.
  destruct x1; [done|]. by rewrite resolve_nil in H1.
Qed.

(** ** Running the readers *)
Lemma deref_tab_run d h l :
  d <> 1 -> (d, l) ∉ h_locked h -> allocated d h l ->
  exists m, h_tabs h !! (d, l) = Some m /\ deref_tab d (Some l) h = Done (l, m) h /\
    forall k, child d h (Some l) k = tab_get m k.
Proof.
  intros Hd Hl Ha. unfold allocated in Ha. rewrite decide_False in Ha by done.
  destruct Ha as [m Hm]. exists m. split; [done|]. unfold deref_tab, child.
  rewrite bool_decide_eq_false_2 by done. by rewrite Hm.
Qed.

(** The contents of a [Map]; a nil pointer has none. *)
Definition map_of (h : heap) (p : ptr) : gmap string string :=
  match p with Some n => default ∅ (h_maps h !! n) | None => ∅ end.

Lemma deref_map_run h l :
  (1, l) ∉ h_locked h -> allocated 1 h l ->
  deref_map (Some l) h = Done (l, map_of h (Some l)) h.
Proof.
  intros Hl [m Hm]. unfold deref_map, map_of. rewrite bool_decide_eq_false_2 by done.
  by rewrite Hm.
Qed.

Lemma entry_map_of h p k : entry h p k = map_of h p !! k.
Proof. destruct p; [apply entry_default|]. symmetry. apply lookup_empty. Qed.

Section Runs.
Context {range : GoRange} (h : heap) (Hu : h_locked h = ∅).

Lemma map_Get_run l k :
  allocated 1 h l -> Map_Get (Some l) k h = Done (default "" (map_of h (Some l) !! k)) h.
Proof using Hu. intros Ha. unfold Map_Get, mbnd. rewrite deref_map_run; [done|set_solver|done]. Qed.

Lemma map_Len_run l : allocated 1 h l -> Map_Len (Some l) h = Done (size (map_of h (Some l))) h.
Proof using Hu. intros Ha. unfold Map_Len, mbnd. rewrite deref_map_run; [done|set_solver|done]. Qed.

Lemma map_CheckIfPresent_run l k :
  allocated 1 h l ->
  Map_CheckIfPresent (Some l) k h = Done (bool_decide (is_Some (map_of h (Some l) !! k))) h.
Proof using Hu.
  intros Ha. unfold Map_CheckIfPresent, mbnd. rewrite deref_map_run; [done|set_solver|done].
Qed.

Lemma map_GetValues_run l :
  allocated 1 h l -> Map_GetValues (Some l) h = Done (go_range 0 (map_of h (Some l))).*2 h.
Proof using Hu. intros Ha. unfold Map_GetValues, mbnd. rewrite deref_map_run; [done|set_solver|done]. Qed.

Lemma mom_Get_run l k :
  allocated 2 h l -> MapOfMaps_Get (Some l) k h = Done (child 2 h (Some l) k) h.
Proof using Hu.
  intros Ha. destruct (deref_tab_run 2 h l) as (m & _ & Hr & Hc); [done|set_solver|done|].
  unfold MapOfMaps_Get, mbnd. by rewrite Hr, Hc.
Qed.

Lemma momom_Get_run l k :
  allocated 3 h l -> MapOfMapOfMaps_Get (Some l) k h = Done (child 3 h (Some l) k) h.
Proof using Hu.
  intros Ha. destruct (deref_tab_run 3 h l) as (m & _ & Hr & Hc); [done|set_solver|done|].
  unfold MapOfMapOfMaps_Get, mbnd. by rewrite Hr, Hc.
Qed.

Lemma mom_Len_run l :
  allocated 2 h l -> exists n, MapOfMaps_Len (Some l) h = Done n h /\
    (n = 0 -> forall k, child 2 h (Some l) k = None).
Proof using Hu.
  intros Ha. destruct (deref_tab_run 2 h l) as (m & _ & Hr & Hc); [done|set_solver|done|].
  exists (size m). unfold MapOfMaps_Len, mbnd. rewrite Hr. split; [done|].
  intros Hz k. rewrite Hc. apply map_size_empty_inv in Hz as ->. done.
Qed.
End Runs.

(** A heap that can be checked by computation. *)
Definition allocatedb (d : nat) (h : heap) (n : nat) : bool :=
  if decide (d = 1) then bool_decide (is_Some (h_maps h !! n))
  else bool_decide (is_Some (h_tabs h !! (d, n))).

Definition slotb (d : nat) (h : heap) (kp : string * ptr) : bool :=
  match kp.2 with Some q => allocatedb (pred d) h q | None => true end.

Definition wfb (h : heap) : bool :=
  forallb (fun nm => bool_decide (nm.1 < h_next h)) (map_to_list (h_maps h)) &&
  forallb (fun dm => bool_decide (dm.1.2 < h_next h) && bool_decide (2 <= dm.1.1) &&
    forallb (slotb dm.1.1 h) (map_to_list dm.2)) (map_to_list (h_tabs h)).

Lemma forallb_map `{Countable K} {A} (f : K * A -> bool) (m : gmap K A) k x :
  forallb f (map_to_list m) = true -> m !! k = Some x -> f (k, x) = true.
Proof.
  rewrite forallb_forall. intros Hf Hk. apply Hf, list_elem_of_In. by apply elem_of_map_to_list.
Qed.

Lemma wfb_sound h : wfb h = true -> wf h.
Proof.
  unfold wfb. rewrite andb_true_iff. intros [Hm Ht]. split.
  - intros d n. unfold allocated. destruct (decide (d = 1)).
    + intros [m Hn]. eapply forallb_map in Hm; [|exact Hn]. by sdec.
    + intros [m Hn]. eapply forallb_map in Ht; [|exact Hn]. by sdec.
  - intros d [l|] k q; unfold child; [|done]. destruct (h_tabs h !! (d, l)) as [m|] eqn:E; [|done].
    eapply forallb_map in Ht; [|exact E]. apply andb_true_iff in Ht as [Ht Hs]. sdec.
    simpl in *. intros Hq. split; [done|].
    unfold tab_get in Hq. destruct (m !! k) as [p|] eqn:Ek; [|done]. simpl in Hq. subst p.
    eapply forallb_map in Hs; [|exact Ek]. unfold slotb, allocatedb, allocated in *. cbn in Hs.
    destruct (decide _); by sdec.
Qed.

(** ** Properties *)

(** C39: The nested caches are nested maps.  Every [Put] method, on an object that
    owns the objects below it, returns (it neither panics nor deadlocks), changes
    the reading of exactly the keys it was given, and keeps the object's
    ownership, so the property holds for any sequence of [Put]s. *)
Theorem nested_put_refines (d : nat) (op : ptr -> string -> string -> M unit)
    (path : list string) (l : nat) (k v : string) (h : heap) :
  put_method d op path -> wf h -> unlocked d h -> allocated d h l -> unshared d h (Some l) ->
  exists h', op (Some l) k v h = Done tt h' /\ wf h' /\ unlocked d h' /\ allocated d h' l /\
    unshared d h' (Some l) /\
    forall path' k', length path' = length path ->
      read d h' (Some l) path' k' =
        if decide (path' = path /\ k' = k) then v else read d h (Some l) path' k'.
Proof. apply nested_put_helper. Qed.

Definition tab_heap : heap := mkHeap ∅ {[ (3, 0) := ∅ ]} 1 ∅.

Lemma tab_heap_new : new_effect 3 empty_heap tab_heap.
Proof.
  destruct (new_tab_run 3 empty_heap wf_empty ltac:(done)) as (h & [= <-] & Hn). exact Hn.
Qed.

Lemma nested_put_refines_witness :
  exists h', MapOfMapOfMaps_Put (Some 0) "cname" "cluster" "ns" "ns" tab_heap = Done tt h' /\
    wf h' /\ unlocked 3 h' /\ allocated 3 h' 0 /\ unshared 3 h' (Some 0) /\
    forall path' k', length path' = 2 ->
      read 3 h' (Some 0) path' k' =
        if decide (path' = ["cname"; "cluster"] /\ k' = "ns") then "ns"
        else read 3 tab_heap (Some 0) path' k'.
Proof.
  apply (nested_put_refines 3 (fun p => MapOfMapOfMaps_Put p "cname" "cluster")
    ["cname"; "cluster"] 0 "ns" "ns" tab_heap).
  - constructor.
  - exact (new_effect_wf _ _ _ tab_heap_new wf_empty).
  - intros d l _. set_solver.
  - by eexists.
  - exact (new_unshared _ _ _ wf_empty tab_heap_new).
Defined.
