(* ===== verification/Dependents.v ===== *)
(** * Dependent namespaces

    Models [getSortedDependentNamespaces] and [filterClusters] of
    [clusters/util.go]: the [exportTo] list of a generated resource, read from
    Admiral's caches. *)
From S2P Require Import Prelude GoStrings Config Metadata Caches.
From stdpp Require Import options.
Local Open Scope cache_scope.

(** The map fields of [AdmiralCache]; [CnameIdentityCache] is a [sync.Map]. *)
Record CachePointers := mkCachePointers {
  CnameDependentClusterCache : ptr;
  CnameIdentityCache : option (gmap string string);
  IdentityClusterCache : ptr;
  IdentityClusterNamespaceCache : ptr;
  CnameDependentClusterNamespaceCache : ptr
}.

Section Dependents.
Context {range : GoRange}.

(** The cname without a canary or preview prefix; [""] when it has none. *)
Definition cname_without_prefix (cname : string) : string :=
  if has_prefix cname (CanaryRolloutCanaryPrefix +:+ Sep)
  then trim_prefix cname (CanaryRolloutCanaryPrefix +:+ Sep)
  else if has_prefix cname (BlueGreenRolloutPreviewPrefix +:+ Sep)
  then trim_prefix cname (BlueGreenRolloutPreviewPrefix +:+ Sep)
  else "".

(** [Len() > 0] and [GetValues] of a namespace map that may be nil. *)
Definition namespace_values (namespaces : ptr) : M (list string) :=
  match namespaces with
  | None => mret []
  | Some _ =>
      n <- Map_Len namespaces;;
      if bool_decide (0 < n) then Map_GetValues namespaces else mret []
  end.

(** The namespaces of the identity itself when it runs in the cluster. *)
Definition source_namespaces (c : CachePointers) (cname clusterId : string) : M (list string) :=
  match CnameIdentityCache c with
  | None => mret []
  | Some identities =>
      match identities !! cname, IdentityClusterCache c with
      | Some partitionedIdentity, Some _ =>
          sourceClusters <- MapOfMaps_Get (IdentityClusterCache c) partitionedIdentity;;
          match sourceClusters with
          | None => mret []
          | Some _ =>
              cluster <- Map_Get sourceClusters clusterId;;
              if is_empty cluster then mret []
              else match IdentityClusterNamespaceCache c with
                   | None => mret [NamespaceIstioSystem]
                   | Some _ =>
                       namespaces <- MapOfMapOfMaps_Get (IdentityClusterNamespaceCache c)
                         partitionedIdentity;;
                       match namespaces with
                       | None => mret [NamespaceIstioSystem]
                       | Some _ =>
                           sourceNamespacesInCluster <- MapOfMaps_Get namespaces clusterId;;
                           values <- namespace_values sourceNamespacesInCluster;;
                           mret (NamespaceIstioSystem :: values)
                       end
                   end
          end
      | _, _ => mret []
      end
  end.

(** The dependents of the cname; those of the cname without its prefix are stored
    under the cname when it has none of its own. *)
Definition dependent_clusters (c : CachePointers) (cname cnameWithoutPrefix : string) : M ptr :=
  clusterNamespaces <- MapOfMapOfMaps_Get (CnameDependentClusterNamespaceCache c) cname;;
  match clusterNamespaces with
  | Some _ => mret clusterNamespaces
  | None =>
      if is_empty cnameWithoutPrefix then mret None
      else
        base <- MapOfMapOfMaps_Get (CnameDependentClusterNamespaceCache c) cnameWithoutPrefix;;
        match base with
        | None => mret None
        | Some _ =>
            MapOfMapOfMaps_PutMapofMaps (CnameDependentClusterNamespaceCache c) cname base ;;;
            mret base
        end
  end.

(** [clusterNamespaces.Get(clusterId)] when there are clusters. *)
Definition cluster_dependents (clusterNamespaces : ptr) (clusterId : string) : M ptr :=
  match clusterNamespaces with
  | None => mret None
  | Some _ =>
      n <- MapOfMaps_Len clusterNamespaces;;
      if bool_decide (0 < n) then MapOfMaps_Get clusterNamespaces clusterId else mret None
  end.

(** The maximum only counts when there are dependents. *)
Definition with_dependents (p : AdmiralParams) (namespaceSlice dependents : list string)
    : list string :=
  match dependents with
  | [] => namespaceSlice
  | _ =>
      if bool_decide (GetExportToMaxNamespaces p < Z.of_nat (length (namespaceSlice ++ dependents)))%Z
      then ["*"] else namespaceSlice ++ dependents
  end.

Definition finish_namespaces (skipIstioNSFromExportTo : bool) (namespaceSlice : list string)
    : list string :=
  List.filter (fun s => negb (skipIstioNSFromExportTo && (s =?s NamespaceIstioSystem)))
    (dedup_adj (sort_strings namespaceSlice)).

Definition getSortedDependentNamespaces (p : AdmiralParams) (admiralCache : option CachePointers)
    (cname0 clusterId : string) (skipIstioNSFromExportTo : bool) : M (list string) :=
  let cname := to_lower cname0 in
  match admiralCache with
  | None => mret []
  | Some c =>
      match CnameDependentClusterNamespaceCache c with
      | None => mret []
      | Some _ =>
          namespaceSlice <- source_namespaces c cname clusterId;;
          clusterNamespaces <- dependent_clusters c cname (trim_space (cname_without_prefix cname));;
          namespaces <- cluster_dependents clusterNamespaces clusterId;;
          dependents <- namespace_values namespaces;;
          mret (finish_namespaces skipIstioNSFromExportTo (with_dependents p namespaceSlice dependents))
      end
  end.

(** [filterClusters]: the source clusters that hold no destination. *)
Definition filterClusters (sourceClusters destinationClusters : ptr) : M ptr :=
  filteredSourceClusters <- NewMap;;
  Map_Range sourceClusters (fun k v =>
    match destinationClusters with
    | None => mret tt
    | Some _ =>
        present <- Map_CheckIfPresent destinationClusters k;;
        if present then mret tt else Map_Put filteredSourceClusters k v
    end) ;;;
  mret filteredSourceClusters.

End Dependents.

(** ** What the list is made of *)

Section Spec.
Context {range : GoRange} (h : heap) (c : CachePointers).

Definition values (m : gmap string string) : list string := (map_to_list m).*2.

(** The partitioned identity of the cname. *)
Definition identity_of (cname : string) : option string :=
  match CnameIdentityCache c with Some ids => ids !! cname | None => None end.

(** The identity runs in the cluster. *)
Definition in_cluster (cname clusterId : string) : bool :=
  match identity_of cname with
  | Some id => negb (is_empty (read 2 h (IdentityClusterCache c) [id] clusterId))
  | None => false
  end.

(** The namespaces of the identity in the cluster. *)
Definition own_namespaces (cname clusterId : string) : gmap string string :=
  match identity_of cname with
  | Some id => map_of h (resolve 3 h (IdentityClusterNamespaceCache c) [id; clusterId])
  | None => ∅
  end.

Definition source_list (cname clusterId : string) : list string :=
  if in_cluster cname clusterId
  then NamespaceIstioSystem :: values (own_namespaces cname clusterId) else [].

(** The object that holds the dependents of the cname: its own, or that of the
    cname without its prefix. *)
Definition dependents_of (cname : string) : ptr :=
  match child 3 h (CnameDependentClusterNamespaceCache c) cname with
  | Some q => Some q
  | None =>
      let base := trim_space (cname_without_prefix cname) in
      if is_empty base then None else child 3 h (CnameDependentClusterNamespaceCache c) base
  end.

(** The namespaces in the cluster that depend on the cname. *)
Definition dependent_namespaces (cname clusterId : string) : gmap string string :=
  map_of h (child 2 h (dependents_of cname) clusterId).

Record caches_ok : Prop := {
  co_wf : wf h;
  co_unlocked : h_locked h = ∅;
  co_dependents : valid 3 h (CnameDependentClusterNamespaceCache c);
  co_clusters : valid 2 h (IdentityClusterCache c);
  co_namespaces : valid 3 h (IdentityClusterNamespaceCache c)
}.

Lemma namespace_values_run p :
  h_locked h = ∅ -> valid 1 h p ->
  exists l, namespace_values p h = Done l h /\ l ≡ₚ values (map_of h p).
Proof.
  intros Hu Hv. destruct p as [n|]; [|by exists []]. unfold namespace_values, mbnd.
  rewrite map_Len_run by done. destruct (bool_decide _) eqn:E; sdec.
  - rewrite map_GetValues_run by done. eexists. split; [done|].
    unfold values. by rewrite go_range_perm.
  - exists []. split; [done|]. unfold values.
    assert (size (map_of h (Some n)) = 0) as Hz by lia.
    apply map_size_empty_inv in Hz. rewrite Hz. by rewrite map_to_list_empty.
Qed.

Lemma source_namespaces_run cname clusterId :
  caches_ok ->
  exists l, source_namespaces c cname clusterId h = Done l h /\ l ≡ₚ source_list cname clusterId.
Proof.
  intros [Hw Hu _ Hc Hn]. unfold source_namespaces, source_list, in_cluster, own_namespaces,
    identity_of, read. destruct (CnameIdentityCache c) as [ids|]; [|by exists []].
  destruct (ids !! cname) as [id|]; [|by exists []]. simpl resolve.
  destruct (IdentityClusterCache c) as [lc|] eqn:Elc; [|by exists []].
  unfold mbnd. rewrite mom_Get_run by done.
  pose proof (child_valid 2 h (Some lc) id Hw) as Hv.
  destruct (child 2 h (Some lc) id) as [q|]; [|by exists []].
  rewrite map_Get_run, entry_map_of by done.
  destruct (is_empty _) eqn:Ee; [by exists []|]. simpl.
  destruct (IdentityClusterNamespaceCache c) as [ln|] eqn:Eln.
  2: { eexists. split; [done|]. unfold child. simpl. unfold values. by rewrite map_to_list_empty. }
  rewrite momom_Get_run by done. pose proof (child_valid 3 h (Some ln) id Hw) as Hv3.
  destruct (child 3 h (Some ln) id) as [q3|].
  2: { eexists. split; [done|]. unfold child. simpl. unfold values. by rewrite map_to_list_empty. }
  rewrite mom_Get_run by done. pose proof (child_valid 2 h (Some q3) clusterId Hw) as Hv2.
  destruct (namespace_values_run (child 2 h (Some q3) clusterId)) as (l & Hr & Hp); [done..|].
  rewrite Hr. eexists. split; [done|]. by rewrite Hp.
Qed.

Lemma cluster_dependents_run p clusterId :
  h_locked h = ∅ -> valid 2 h p -> cluster_dependents p clusterId h = Done (child 2 h p clusterId) h.
Proof.
  intros Hu Hv. destruct p as [q|]; [|done]. unfold cluster_dependents, mbnd.
  destruct (mom_Len_run h Hu q) as (n & -> & Hn); [done|].
  destruct (bool_decide _) eqn:E; sdec.
  - by rewrite mom_Get_run.
  - rewrite Hn; [done|lia].
Qed.

(** The heap after the dependents of the base cname are stored under the cname. *)
Lemma dependent_clusters_run l cname :
  caches_ok -> CnameDependentClusterNamespaceCache c = Some l ->
  exists h', dependent_clusters c cname (trim_space (cname_without_prefix cname)) h
      = Done (dependents_of cname) h' /\ wf h' /\ h_locked h' = ∅ /\ h_maps h' = h_maps h /\
    (forall d n, allocated d h' n <-> allocated d h n) /\
    (forall d p k, (d, p, k) <> (3, Some l, cname) -> child d h' p k = child d h p k) /\
    child 3 h' (Some l) cname = dependents_of cname.
Proof.
  intros [Hw Hu Hd _ _] Hl. unfold dependent_clusters, dependents_of. rewrite Hl in *.
  unfold mbnd at 1. rewrite momom_Get_run by done.
  destruct (child 3 h (Some l) cname) as [q|] eqn:Eq; [by exists h|].
  set (base := trim_space _).
  destruct (is_empty base); [by exists h|]. unfold mbnd at 1. rewrite momom_Get_run by done.
  destruct (child 3 h (Some l) base) as [q|] eqn:Eb; [|by exists h].
  destruct (deref_tab_run 3 h l) as (m & Hm & Hr & _); [done|set_solver|done|].
  exists (set_slot h 3 l m cname q). split_and!; try done.
  - unfold mbnd, MapOfMapOfMaps_PutMapofMaps, mbnd. by rewrite Hr.
  - apply wf_set_slot; [done|lia|done|]. by apply (wf_child _ Hw) in Eb as [_ ?].
  - intros d n. by apply allocated_set_slot.
  - intros d p k Hne. rewrite child_set_slot by done. by rewrite decide_False.
  - rewrite child_set_slot by done. by rewrite decide_True.
Qed.

Lemma dependents_valid cname : caches_ok -> valid 2 h (dependents_of cname).
Proof.
  intros [Hw _ _ _ _]. unfold dependents_of.
  pose proof (child_valid 3 h (CnameDependentClusterNamespaceCache c) cname Hw) as Hv.
  destruct (child 3 h _ cname); [done|]. destruct (is_empty _); [done|]. by apply (child_valid 3).
Qed.
End Spec.

Section Result.
Context {range : GoRange}.

Lemma finish_congr skip l1 l2 : l1 ≡ₚ l2 -> finish_namespaces skip l1 = finish_namespaces skip l2.
Proof. intros Hp. unfold finish_namespaces. by rewrite (sort_strings_congr _ _ Hp). Qed.

Lemma with_dependents_congr p l1 l2 d1 d2 :
  l1 ≡ₚ l2 -> d1 ≡ₚ d2 -> with_dependents p l1 d1 ≡ₚ with_dependents p l2 d2.
Proof.
  intros Hl Hd. unfold with_dependents. destruct d1 as [|x d1], d2 as [|y d2]; [done| | |].
  - by apply Permutation_nil_cons in Hd.
  - by apply Permutation_nil_r in Hd.
  - assert (length (l1 ++ x :: d1) = length (l2 ++ y :: d2)) as ->.
    { apply Permutation_length. by rewrite Hl, Hd. }
    destruct (bool_decide _); [done|]. by rewrite Hl, Hd.
Qed.

(** The list as a function of the caches. *)
Definition exported_namespaces (p : AdmiralParams) (c : CachePointers) (h : heap)
    (cname clusterId : string) (skip : bool) : list string :=
  finish_namespaces skip (with_dependents p (source_list h c cname clusterId)
    (values (dependent_namespaces h c cname clusterId))).

Lemma get_sorted_run p c l h cname0 clusterId skip :
  caches_ok h c -> CnameDependentClusterNamespaceCache c = Some l ->
  let cname := to_lower cname0 in
  exists h', getSortedDependentNamespaces p (Some c) cname0 clusterId skip h
      = Done (exported_namespaces p c h cname clusterId skip) h' /\
    wf h' /\ h_locked h' = ∅ /\ h_maps h' = h_maps h /\
    (forall d n, allocated d h' n <-> allocated d h n) /\
    (forall d q k, (d, q, k) <> (3, Some l, cname) -> child d h' q k = child d h q k) /\
    child 3 h' (Some l) cname = dependents_of h c cname.
Proof.
  intros Hok Hl cname. unfold getSortedDependentNamespaces. fold cname. rewrite Hl.
  destruct (source_namespaces_run h c cname clusterId Hok) as (src & Hs & Hps).
  destruct (dependent_clusters_run h c l cname Hok Hl)
    as (h' & Hr & Hw' & Hu' & Hm' & Ha' & Hc' & Hd').
  exists h'. split; [|done]. unfold mbnd. rewrite Hs, Hr.
  pose proof (dependents_valid h c cname Hok) as Hv.
  assert (valid 2 h' (dependents_of h c cname)) as Hv'.
  { destruct (dependents_of h c cname); [|done]. by apply Ha'. }
  rewrite cluster_dependents_run by done.
  rewrite Hc' by (intros [=]; lia).
  destruct (namespace_values_run h' (child 2 h (dependents_of h c cname) clusterId)) as (deps & Hn & Hpd).
  { done. }
  { pose proof (child_valid 2 h (dependents_of h c cname) clusterId (co_wf _ _ Hok)) as Hv1.
    destruct (child 2 h _ clusterId); [|done]. by apply Ha'. }
  rewrite Hn. unfold mret. f_equal. apply finish_congr, with_dependents_congr; [done|].
  rewrite Hpd. unfold dependent_namespaces, map_of. by rewrite Hm'.
Qed.

Lemma values_elem m x : x ∈ values m <-> exists k, m !! k = Some x.
Proof.
  unfold values. rewrite list_elem_of_fmap. split.
  - intros ([k y] & -> & Hk%elem_of_map_to_list). by exists k.
  - intros [k Hk%elem_of_map_to_list]. by exists (k, x).
Qed.

Lemma values_length m : length (values m) = size m.
Proof. unfold values. by rewrite length_fmap, length_map_to_list. Qed.

Lemma finish_elem skip l x :
  x ∈ finish_namespaces skip l <-> x ∈ l /\ (skip = true -> x <> NamespaceIstioSystem).
Proof.
  unfold finish_namespaces. rewrite list_elem_of_In, filter_In, <- list_elem_of_In, dedup_sort_elem.
  destruct skip; simpl; [|naive_solver]. destruct (x =?s NamespaceIstioSystem) eqn:E; sdec; naive_solver.
Qed.
Lemma finish_sorted skip l : sorted_by str_ltb (finish_namespaces skip l).
Proof.
  unfold finish_namespaces. pose proof (dedup_sort_sorted l) as Hs.
  induction Hs as [|x xs _ IH Hx]; simpl; [constructor|].
  destruct (negb _); [|done]. constructor; [done|].
  rewrite Forall_forall in *. intros y Hy. apply Hx. by apply filter_In_iff in Hy as [? _].
Qed.

Lemma finish_NoDup skip l : NoDup (finish_namespaces skip l).
Proof. apply NoDup_ListNoDup, List.NoDup_filter, NoDup_ListNoDup, dedup_sort_NoDup. Qed.

(** A [Put] below a shared object is read through every key that leads to it. *)
Lemma shared_put h l q name a b cluster ns :
  wf h -> h_locked h = ∅ -> allocated 3 h l ->
  child 3 h (Some l) name = Some q -> child 3 h (Some l) a = Some q -> child 3 h (Some l) b = Some q ->
  exists h', MapOfMapOfMaps_Put (Some l) name cluster ns ns h = Done tt h' /\
    read 3 h' (Some l) [a; cluster] ns = ns /\ read 3 h' (Some l) [b; cluster] ns = ns.
Proof.
  intros Hw Hu Ha Hn H1 H2.
  destruct (put_method_effect 3 _ _ l ns ns h (pm_map_of_map_of_maps name cluster))
    as (h' & n & Hr & He & Hres); [done|intros d k _; set_solver|done|].
  exists h'. split; [done|].
  assert (forall k, child 3 h (Some l) k = Some q -> read 3 h' (Some l) [k; cluster] ns = ns) as Hk.
  { intros k Hk. rewrite (put_read _ _ _ _ _ _ _ _ _ _ Hw He) by done. rewrite decide_True; [done|].
    split; [|done]. simpl in *. pose proof (pe_grows _ _ _ _ _ _ He) as Hg.
    rewrite (gr_mono _ _ Hg _ _ _ _ Hk). by rewrite (gr_mono _ _ Hg _ _ _ _ Hn) in Hres. }
  auto.
Qed.
End Result.

(** ** Properties *)
Section Properties.
Context {range : GoRange}.

(** The dependents, the source's namespaces and [istio-system] exceed the maximum. *)
Definition too_many (p : AdmiralParams) (h : heap) (c : CachePointers) (cname clusterId : string) : bool :=
  let deps := dependent_namespaces h c cname clusterId in
  bool_decide (deps <> ∅) &&
  bool_decide (GetExportToMaxNamespaces p <
    Z.of_nat ((if in_cluster h c cname clusterId
               then S (size (own_namespaces h c cname clusterId)) else 0) + size deps))%Z.

Lemma with_dependents_elem p h c cname clusterId x :
  x ∈ with_dependents p (source_list h c cname clusterId)
        (values (dependent_namespaces h c cname clusterId)) <->
  if too_many p h c cname clusterId then x = "*"
  else (in_cluster h c cname clusterId = true /\
        (x = NamespaceIstioSystem \/ exists k, own_namespaces h c cname clusterId !! k = Some x)) \/
       (exists k, dependent_namespaces h c cname clusterId !! k = Some x).
Proof.
  unfold too_many. set (deps := dependent_namespaces h c cname clusterId).
  assert (length (source_list h c cname clusterId) = if in_cluster h c cname clusterId
      then S (size (own_namespaces h c cname clusterId)) else 0) as Hlen.
  { unfold source_list. destruct (in_cluster _ _ _ _); [|done]. simpl. by rewrite values_length. }
  assert (forall y, y ∈ source_list h c cname clusterId <-> in_cluster h c cname clusterId = true /\
      (y = NamespaceIstioSystem \/ exists k, own_namespaces h c cname clusterId !! k = Some y)) as Hsrc.
  { intros y. unfold source_list. destruct (in_cluster _ _ _ _).
    - rewrite elem_of_cons, values_elem. naive_solver.
    - rewrite elem_of_nil. naive_solver. }
  rewrite <- Hlen, <- (values_length deps), <- length_app. clear Hlen.
  clearbody deps. pose proof (values_elem deps x) as Hdeps.
  assert (bool_decide (deps <> ∅) = match values deps with [] => false | _ => true end) as ->.
  { pose proof (values_length deps) as Hl. destruct (values deps) as [|v vs]; simpl in Hl.
    - symmetry in Hl. apply map_size_empty_inv in Hl as ->.
      apply bool_decide_eq_false_2. intros Hn. by apply Hn.
    - apply bool_decide_eq_true_2. intros ->. rewrite map_size_empty in Hl. lia. }
  unfold with_dependents. destruct (values deps) as [|v vs]; simpl andb; cbv iota.
  { rewrite <- Hsrc, <- Hdeps, elem_of_nil. naive_solver. }
  destruct (bool_decide _); [by rewrite list_elem_of_singleton|].
  by rewrite elem_of_app, Hsrc, Hdeps.
Qed.

(** The [exportTo] list of a resource.  On well-formed caches
    [getSortedDependentNamespaces] returns, without a panic or a deadlock and
    without changing the contents of a cache entry, a strictly sorted list that
    does not depend on the iteration order of the maps: ["*"] when there are
    dependents and everything together exceeds the maximum; otherwise the
    namespaces of the dependents in the cluster and, when the cname's own identity
    runs there, its namespaces and [istio-system], the latter left out on request. *)
Theorem sorted_dependent_namespaces_spec (p : AdmiralParams) (c : CachePointers) (h : heap)
    (l : nat) (cname0 clusterId : string) (skip : bool) :
  caches_ok h c -> CnameDependentClusterNamespaceCache c = Some l ->
  let cname := to_lower cname0 in
  exists res h', getSortedDependentNamespaces p (Some c) cname0 clusterId skip h = Done res h' /\
    wf h' /\ h_locked h' = ∅ /\ h_maps h' = h_maps h /\
    sorted_by str_ltb res /\ NoDup res /\
    forall x, x ∈ res <-> (skip = true -> x <> NamespaceIstioSystem) /\
      (if too_many p h c cname clusterId then x = "*"
       else (in_cluster h c cname clusterId = true /\
             (x = NamespaceIstioSystem \/ exists k, own_namespaces h c cname clusterId !! k = Some x)) \/
            (exists k, dependent_namespaces h c cname clusterId !! k = Some x)).
Proof.
  intros Hok Hl cname.
  destruct (get_sorted_run p c l h cname0 clusterId skip Hok Hl) as (h' & Hr & Hw & Hu & Hm & _).
  exists (exported_namespaces p c h cname clusterId skip), h'. split_and!; try done.
  - apply finish_sorted.
  - apply finish_NoDup.
  - intros x. unfold exported_namespaces. rewrite finish_elem, with_dependents_elem. tauto.
Qed.

(** A canary or preview cname follows its base cname.  When it has no
    dependents of its own and the base cname has, the call makes the two cnames
    share one object: a dependent recorded later for either cname is seen through
    the other, and the recorded namespace is the value read through both. *)
Theorem prefixed_cname_shares (p : AdmiralParams) (c : CachePointers) (h : heap)
    (l q : nat) (cname0 clusterId cluster ns : string) (skip : bool) :
  caches_ok h c -> CnameDependentClusterNamespaceCache c = Some l ->
  let cname := to_lower cname0 in
  let base := trim_space (cname_without_prefix cname) in
  base <> "" -> base <> cname ->
  child 3 h (Some l) cname = None -> child 3 h (Some l) base = Some q ->
  exists res h', getSortedDependentNamespaces p (Some c) cname0 clusterId skip h = Done res h' /\
    forall name, name = cname \/ name = base ->
    exists h'', MapOfMapOfMaps_Put (Some l) name cluster ns ns h' = Done tt h'' /\
      read 3 h'' (Some l) [cname; cluster] ns = ns /\ read 3 h'' (Some l) [base; cluster] ns = ns.
Proof.
  intros Hok Hl cname base Hb Hne Hc Hbase.
  destruct (get_sorted_run p c l h cname0 clusterId skip Hok Hl)
    as (h' & Hr & Hw & Hu & _ & Ha & Hch & Hd).
  fold cname in Hr, Hch, Hd.
  exists (exported_namespaces p c h cname clusterId skip), h'. split; [done|].
  assert (child 3 h' (Some l) cname = Some q) as Hcn.
  { rewrite Hd. unfold dependents_of. rewrite Hl. fold cname. rewrite Hc. fold base.
    destruct (is_empty base) eqn:E; [by apply is_empty_spec in E|done]. }
  assert (child 3 h' (Some l) base = Some q) as Hcb by (rewrite Hch; congruence).
  intros name Hname. eapply shared_put; [done|done| |destruct Hname as [-> | ->]; done|done|done].
  apply Ha. pose proof (co_dependents _ _ Hok) as Hv. by rewrite Hl in Hv.
Qed.

End Properties.

(** ** filterClusters *)
Section Filter.
Context {range : GoRange}.

Lemma map_range_run (f : string -> string -> M unit) h s :
  (1, s) ∉ h_locked h -> allocated 1 h s ->
  Map_Range (Some s) f h =
    locking 1 s (miter (fun kv => f kv.1 kv.2) (go_range 0 (map_of h (Some s)))) h.
Proof. intros Hl Ha. unfold Map_Range, mbnd at 1. by rewrite deref_map_run. Qed.

(** The entries the loop copies. *)
Definition kept (dst : gmap string string) (l : list (string * string)) (acc : gmap string string)
    : gmap string string :=
  foldl (fun a kv => if decide (is_Some (dst !! kv.1)) then a else <[kv.1 := kv.2]> a) acc l.

Lemma kept_lookup dst l acc k v :
  NoDup l.*1 -> (forall k', k' ∈ l.*1 -> acc !! k' = None) ->
  kept dst l acc !! k = Some v <-> acc !! k = Some v \/ ((k, v) ∈ l /\ dst !! k = None).
Proof.
  revert acc. induction l as [|[k1 v1] l IH]; intros acc Hnd Hacc; simpl.
  { set_solver. }
  inversion Hnd as [|? ? Hk1 Hnd']; subst. simpl in *.
  assert (acc !! k1 = None) as Ha by (apply Hacc; by left).
  destruct (decide (is_Some (dst !! k1))) as [Hd|Hd].
  - rewrite IH; [|done|intros k' Hk'; apply Hacc; by right].
    rewrite elem_of_cons. split; [naive_solver|]. intros [?|[[[= -> ->]|?] Hn]]; auto.
    rewrite Hn in Hd. by destruct Hd.
  - rewrite IH; [|done|].
    2: { intros k' Hk'. rewrite lookup_insert_ne by (by intros ->). apply Hacc. by right. }
    apply eq_None_not_Some in Hd. rewrite elem_of_cons, lookup_insert_Some. split; [naive_solver|].
    intros [Hv|[[[= -> ->]|Hin] Hn]]; [|by left; left|by right].
    left. right. split; [|done]. congruence.
Qed.

(** The state of the loop: the filtered map at [n], everything else as at the start. *)
Definition filtering (h : heap) (s n : nat) (acc : gmap string string) : heap :=
  mkHeap (<[n := acc]> (h_maps h)) (h_tabs h) (S n) {[ (1, s) ]}.

Lemma filter_loop h s d n dst l acc :
  h_maps h !! d = Some dst -> d <> s -> d <> n -> n <> s ->
  miter (fun kv =>
    present <- Map_CheckIfPresent (Some d) kv.1;;
    if present then mret tt else Map_Put (Some n) kv.1 kv.2) l (filtering h s n acc)
  = Done tt (filtering h s n (kept dst l acc)).
Proof.
  intros Hd Hds Hdn Hns. revert acc. induction l as [|[k v] l IH]; intros acc; [done|].
  cbn [miter]. unfold mbnd at 1 2. unfold Map_CheckIfPresent, Map_Put, mbnd, deref_map.
  rewrite bool_decide_eq_false_2 by (cbn; set_solver).
  replace (h_maps (filtering h s n acc) !! d) with (Some dst)
    by (unfold filtering; cbn; by rewrite lookup_insert_ne).
  unfold mret. cbn [kept foldl fst snd]. destruct (bool_decide _) eqn:E; sdec.
  - rewrite decide_True by done. apply IH.
  - rewrite decide_False by done.
    rewrite bool_decide_eq_false_2 by (cbn; set_solver).
    replace (h_maps (filtering h s n acc) !! n) with (Some acc)
      by (unfold filtering; cbn; by rewrite lookup_insert_eq).
    unfold store_map.
    replace (filtering h s n acc <| h_maps := <[n := <[k := v]> acc]> (h_maps (filtering h s n acc)) |>)
      with (filtering h s n (<[k := v]> acc)); [apply IH|].
    unfold filtering. cbn. by rewrite insert_insert_eq.
Qed.

(** [filterClusters] of two different maps returns a new map with exactly the
    source clusters that are not destination clusters, each with its value, and
    leaves both arguments alone. *)
Theorem filter_clusters_spec (h : heap) (s d : nat) :
  wf h -> h_locked h = ∅ -> allocated 1 h s -> allocated 1 h d -> d <> s ->
  exists n h', filterClusters (Some s) (Some d) h = Done (Some n) h' /\ h_locked h' = ∅ /\
    h_next h <= n /\ (forall q, q <> n -> h_maps h' !! q = h_maps h !! q) /\
    forall k v, map_of h' (Some n) !! k = Some v <->
      map_of h (Some s) !! k = Some v /\ map_of h (Some d) !! k = None.
Proof.
  intros Hw Hu [src Hs] [dst Hd] Hne. pose (n := h_next h).
  assert (s < n) as Hsn by (apply (wf_below _ Hw 1); by eexists).
  assert (d < n) as Hdn by (apply (wf_below _ Hw 1); by eexists).
  exists n, (mkHeap (<[n := kept dst (go_range 0 src) ∅]> (h_maps h)) (h_tabs h) (S n) ∅).
  split_and!; [|done|done| |].
  - unfold filterClusters, mbnd at 1, NewMap. fold n. set (h1 := _ <| h_next := _ |>).
    assert (map_of h1 (Some s) = src) as Hms
      by (unfold map_of, h1; cbn; rewrite lookup_insert_ne, Hs by lia; done).
    unfold mbnd at 1. rewrite map_range_run.
    2: { unfold h1. cbn. rewrite Hu. set_solver. }
    2: { unfold h1, allocated. cbn. rewrite lookup_insert_ne by lia. by eexists. }
    rewrite Hms, (locking_run 1 s _ h1 tt (filtering h s n (kept dst (go_range 0 src) ∅))).
    + unfold mret, with_locks, filtering, h1. cbn. by rewrite Hu.
    + unfold h1. cbn. rewrite Hu. set_solver.
    + rewrite <- (filter_loop h s d n) by (done || lia). f_equal.
      unfold with_locks, filtering, h1. cbn. by rewrite Hu, union_empty_r_L.
    + unfold filtering, h1. cbn. by rewrite Hu, union_empty_r_L.
  - intros q Hq. cbn. by rewrite lookup_insert_ne.
  - intros k v. unfold map_of. cbn. rewrite lookup_insert_eq, Hs, Hd. cbn.
    rewrite kept_lookup; [|apply go_range_fst_NoDup|done].
    rewrite go_range_elem. set_solver.
Qed.

(** Of a map with itself it deadlocks: the callback asks for the lock [Range] holds. *)
Lemma filter_clusters_self_deadlock (h : heap) (s : nat) (src : gmap string string) :
  wf h -> h_locked h = ∅ -> h_maps h !! s = Some src -> src <> ∅ ->
  filterClusters (Some s) (Some s) h = Deadlock.
Proof.
  intros Hw Hu Hs Hne.
  assert (s < h_next h) as Hsn by (apply (wf_below _ Hw 1); by eexists).
  unfold filterClusters, mbnd at 1, NewMap. set (h1 := _ <| h_next := _ |>).
  assert (map_of h1 (Some s) = src) as Hms
    by (unfold map_of, h1; cbn; rewrite lookup_insert_ne, Hs by lia; done).
  unfold mbnd at 1. rewrite map_range_run.
  2: { unfold h1. cbn. rewrite Hu. set_solver. }
  2: { unfold h1, allocated. cbn. rewrite lookup_insert_ne by lia. by eexists. }
  rewrite Hms. destruct (go_range 0 src) as [|[k v] l] eqn:El.
  { exfalso. apply Hne, map_size_empty_inv. by rewrite <- (go_range_length 0), El. }
  unfold locking, mbnd, set_locked, Map_CheckIfPresent, deref_map. cbn. unfold mbnd.
  rewrite bool_decide_eq_true_2; [done|set_solver].
Qed.
End Filter.

(** ** The properties at concrete caches

    Identity [id] runs in [c1], in [ns0]; [b] of [c1] depends on [id.global]. *)
Definition sample_heap : heap :=
  mkHeap
    {[ 0 := {[ "c1" := "c1" ]}; 1 := {[ "ns0" := "ns0" ]}; 2 := {[ "b" := "b" ]} ]}
    (list_to_map [((2, 3), {[ "id" := Some 0 ]}); ((2, 4), {[ "c1" := Some 1 ]});
                  ((3, 5), {[ "id" := Some 4 ]}); ((2, 6), {[ "c1" := Some 2 ]});
                  ((3, 7), {[ "id.global" := Some 6 ]})])
    8 ∅.

Definition sample_caches : CachePointers :=
  mkCachePointers None (Some {[ "id.global" := "id"; "canary.id.global" := "id" ]})
    (Some 3) (Some 5) (Some 7).

Definition export_params (n : Z) : AdmiralParams :=
  Params.zero_AdmiralParams <| Params.ExportToMaxNamespaces := n |>.

Lemma sample_ok : caches_ok sample_heap sample_caches.
Proof.
  split; [by apply wfb_sound; vm_compute|done|by eexists..].
Qed.

Example sample_export :
  (match getSortedDependentNamespaces (export_params 35) (Some sample_caches) "Canary.id.global"
           "c1" true sample_heap with Done l _ => l | _ => [] end) = ["b"; "ns0"].
Proof. by vm_compute. Qed.

Example sample_export_star :
  (match getSortedDependentNamespaces (export_params 2) (Some sample_caches) "id.global"
           "c1" false sample_heap with Done l _ => l | _ => [] end) = ["*"].
Proof. by vm_compute. Qed.

Lemma sorted_dependent_namespaces_spec_witness :
  exists res h', getSortedDependentNamespaces (export_params 35) (Some sample_caches)
      "Canary.id.global" "c1" true sample_heap = Done res h' /\ sorted_by str_ltb res /\ "b" ∈ res.
Proof.
  destruct (sorted_dependent_namespaces_spec (export_params 35) sample_caches sample_heap 7
    "Canary.id.global" "c1" true sample_ok eq_refl) as (res & h' & Hr & _ & _ & _ & Hs & _ & Hx).
  assert (too_many (export_params 35) sample_heap sample_caches (to_lower "Canary.id.global") "c1"
    = false) as Ht by (vm_compute; reflexivity).
  rewrite Ht in Hx. exists res, h'. split; [exact Hr|]. split; [exact Hs|]. apply Hx.
  split; [intros _ [=]|]. right. exists "b". vm_compute. reflexivity.
Defined.

Lemma prefixed_cname_shares_witness :
  exists res h' h'', getSortedDependentNamespaces (export_params 35) (Some sample_caches)
      "Canary.id.global" "c1" true sample_heap = Done res h' /\
    MapOfMapOfMaps_Put (Some 7) "canary.id.global" "c2" "d" "d" h' = Done tt h'' /\
    read 3 h'' (Some 7) ["id.global"; "c2"] "d" = "d".
Proof.
  destruct (prefixed_cname_shares (export_params 35) sample_caches sample_heap 7 6
    "Canary.id.global" "c1" "c2" "d" true sample_ok eq_refl) as (res & h' & Hr & Hn).
  - by vm_compute.
  - by vm_compute.
  - by vm_compute.
  - by vm_compute.
  - destruct (Hn "canary.id.global") as (h'' & Hp & _ & Hb); [by left; vm_compute|].
    exists res, h', h''. split; [exact Hr|]. split; [exact Hp|exact Hb].
Defined.

Definition two_maps : heap :=
  mkHeap {[ 0 := {[ "c1" := "c1"; "c2" := "c2" ]}; 1 := {[ "c2" := "c2" ]} ]} ∅ 2 ∅.

Lemma filter_clusters_spec_witness :
  exists n h', filterClusters (Some 0) (Some 1) two_maps = Done (Some n) h' /\
    map_of h' (Some n) !! "c1" = Some "c1" /\ map_of h' (Some n) !! "c2" <> Some "c2".
Proof.
  destruct (filter_clusters_spec two_maps 0 1) as (n & h' & Hr & _ & _ & _ & Hk).
  - by apply wfb_sound; vm_compute.
  - done.
  - by eexists.
  - by eexists.
  - done.
  - exists n, h'. split; [exact Hr|]. split.
    + apply Hk. split; by vm_compute.
    + intros [_ Hc]%Hk. by vm_compute in Hc.
Defined.
