(* ===== verification/World.v ===== *)
(** * The state of a worker

    A worker that writes to a cluster calls the API server and reads and writes
    Admiral's caches.  A [world] has both; the functions that use it are written in
    its state monad, in which the methods of the caches ([Caches.v]) and the calls of
    the API run as they are. *)
From S2P Require Import Prelude GoStrings Config Objects Metadata AddressStore Caches Dependents.
From stdpp Require Import options.

(** The pointers of [AdmiralCache], those of [Dependents.v] among them. *)
Record AdmiralCaches := mkAdmiralCaches {
  pointers : CachePointers;
  PartitionIdentityCache : ptr;
  SeClusterCache : ptr;
  ClientClusterNamespaceServerCache : ptr;
  IdentityDependencyCache : ptr
}.
#[export] Instance eta_AdmiralCaches : Settable AdmiralCaches := fun c =>
  mkAdmiralCaches (pointers c) (PartitionIdentityCache c) (SeClusterCache c)
    (ClientClusterNamespaceServerCache c) (IdentityDependencyCache c).

(** [w_api]: the API servers.  [w_addresses]: [ServiceEntryAddressStore] of the cache.
    [w_se_cache]: the service entries that the cluster's controller caches, by name; the
    code gets pointers to them and writes through these. *)
Record world (St : Type) := mkWorld {
  w_api : St;
  w_heap : heap;
  w_caches : AdmiralCaches;
  w_addresses : ServiceEntryAddressStore;
  w_se_cache : gmap string ServiceEntryObj
}.
Arguments mkWorld {St} _ _ _ _ _.
Arguments w_api {St} _.
Arguments w_heap {St} _.
Arguments w_caches {St} _.
Arguments w_addresses {St} _.
Arguments w_se_cache {St} _.
#[export] Instance eta_world St : Settable (world St) := fun w =>
  mkWorld (w_api w) (w_heap w) (w_caches w) (w_addresses w) (w_se_cache w).

(** [None] is a panic, or a deadlock on a mutex. *)
Definition W (St A : Type) : Type := world St -> option (A * world St).

Section Monad.
Context {St : Type}.

Definition wret {A} (a : A) : W St A := fun w => Some (a, w).
Definition wbnd {A B} (c : W St A) (k : A -> W St B) : W St B := fun w =>
  match c w with Some (a, w') => k a w' | None => None end.
Definition wpanic {A} : W St A := fun _ => None.

(** A method of the caches. *)
Definition on_heap {A} (c : M A) : W St A := fun w =>
  match c (w_heap w) with
  | Done a h => Some (a, w <| w_heap := h |>)
  | _ => None
  end.

(** A call of the API. *)
Definition on_api {A} (f : St -> St * A) : W St A := fun w =>
  let '(s, a) := f (w_api w) in Some (a, w <| w_api := s |>).

(** A call of the API that may panic. *)
Definition on_api_opt {A} (f : St -> option (St * A)) : W St A := fun w =>
  match f (w_api w) with
  | Some (s, a) => Some (a, w <| w_api := s |>)
  | None => None
  end.

Definition get_caches : W St AdmiralCaches := fun w => Some (w_caches w, w).

(** A run of the address store, which may panic. *)
Definition on_addresses {A} (f : St * ServiceEntryAddressStore -> option ((St * ServiceEntryAddressStore) * A))
    : W St A := fun w =>
  match f (w_api w, w_addresses w) with
  | Some ((s, addresses), a) => Some (a, w <| w_api := s |> <| w_addresses := addresses |>)
  | None => None
  end.

(** [rc.ServiceEntryController.Cache.Get], and a write through the pointer it returns. *)
Definition cached_se (name : string) : W St (option ServiceEntryObj) := fun w =>
  Some (w_se_cache w !! name, w).
Definition set_cached_se (name : string) (se : ServiceEntryObj) : W St unit := fun w =>
  Some (tt, w <| w_se_cache := <[name := se]> (w_se_cache w) |>).

(** [CnameIdentityCache.Store]; a nil [sync.Map] pointer panics. *)
Definition CnameIdentityCache_Store (key value : string) : W St unit := fun w =>
  let c := w_caches w in
  match CnameIdentityCache (pointers c) with
  | None => None
  | Some m =>
      let ps := pointers c in
      Some (tt, w <| w_caches :=
        c <| pointers := mkCachePointers (CnameDependentClusterCache ps) (Some (<[key := value]> m))
                           (IdentityClusterCache ps) (IdentityClusterNamespaceCache ps)
                           (CnameDependentClusterNamespaceCache ps) |> |>)
  end.
End Monad.

Declare Scope world_scope.
Delimit Scope world_scope with world.
Notation "x <- c ;; k" := (wbnd c (fun x => k))
  (at level 80, c at next level, right associativity) : world_scope.
Notation "' p <- c ;; k" := (wbnd c (fun x => match x with p => k end))
  (at level 80, p pattern, c at next level, right associativity) : world_scope.
Notation "c ;;; k" := (wbnd c (fun _ => k)) (at level 80, right associativity) : world_scope.
Local Open Scope world_scope.

Section Functions.
Context {range : GoRange} {St : Type} (p : AdmiralParams).

Fixpoint witer {A} (f : A -> W St unit) (l : list A) : W St unit :=
  match l with
  | [] => wret tt
  | a :: l' => f a ;;; witer f l'
  end.

(** [getSortedDependentNamespaces] on the caches as they are. *)
Definition sortedDependentNamespaces (cname clusterId : string) (skipIstioNS : bool) : W St (list string) :=
  c <- get_caches;; on_heap (getSortedDependentNamespaces p (Some (pointers c)) cname clusterId skipIstioNS).

Definition getNonPartitionedIdentity (sourceIdentity : string) : W St string :=
  if IsAdmiralOperatorMode p then wret sourceIdentity
  else
    c <- get_caches;;
    if EnableSWAwareNSCaches p && negb (is_nil (PartitionIdentityCache c)) then
      nonPartitionedIdentity <- on_heap (Map_Get (PartitionIdentityCache c) sourceIdentity);;
      wret (nonPartitionedIdentity |?| sourceIdentity)
    else wret sourceIdentity.
End Functions.

(** ** Lemmas *)

Lemma wbnd_Some {X A B : Type} (c : W X A) (k : A -> W X B) w b w' :
  wbnd c k w = Some (b, w') -> exists a w1, c w = Some (a, w1) /\ k a w1 = Some (b, w').
Proof. unfold wbnd. destruct (c w) as [[a w1]|]; [|done]. eauto. Qed.

Lemma wbnd_ext {Y A B} (c c' : W Y A) (k k' : A -> W Y B) w :
  c w = c' w -> (forall a w', c w = Some (a, w') -> k a w' = k' a w') -> wbnd c k w = wbnd c' k' w.
Proof. unfold wbnd. intros <- Hk. destruct (c w) as [[a w']|] eqn:E; [by apply Hk|done]. Qed.

Section Lemmas.
Context {St : Type}.

(** What holds of the API state after every run that returns. *)
Definition api_post {A} (c : W St A) (P : St -> St -> Prop) : Prop :=
  forall w a w', c w = Some (a, w') -> P (w_api w) (w_api w').

Context (P : St -> St -> Prop) {pre : PreOrder P}.

Lemma api_post_ret {A} (a : A) : api_post (wret a) P.
Proof using pre. intros w a' w' [= <- <-]. reflexivity. Qed.

Lemma api_post_bnd {A B} (c : W St A) (k : A -> W St B) :
  api_post c P -> (forall a, api_post (k a) P) -> api_post (wbnd c k) P.
Proof using pre.
  intros Hc Hk w b w' H. unfold wbnd in H. destruct (c w) as [[a w1]|] eqn:E; [|done].
  transitivity (w_api w1); [by eapply Hc|by eapply Hk].
Qed.

Lemma api_post_panic {A} : api_post (@wpanic St A) P.
Proof. done. Qed.

Lemma api_post_heap {A} (c : M A) : api_post (on_heap c) P.
Proof using pre.
  intros w a w' H. unfold on_heap in H. destruct (c (w_heap w)); [|done..].
  injection H as <- <-. reflexivity.
Qed.

Lemma api_post_caches : api_post (@get_caches St) P.
Proof using pre. intros w a w' [= <- <-]. reflexivity. Qed.

Lemma api_post_store k v : api_post (@CnameIdentityCache_Store St k v) P.
Proof using pre.
  intros w a w' H. unfold CnameIdentityCache_Store in H. destruct (CnameIdentityCache _); [|done].
  injection H as <- <-. reflexivity.
Qed.

Lemma api_post_cached name : api_post (@cached_se St name) P.
Proof using pre. intros w a w' [= <- <-]. reflexivity. Qed.

Lemma api_post_set_cached name se : api_post (@set_cached_se St name se) P.
Proof using pre. intros w a w' [= <- <-]. reflexivity. Qed.

Lemma api_post_api {A} (f : St -> St * A) : (forall s, P s (f s).1) -> api_post (on_api f) P.
Proof.
  intros Hf w a w' H. unfold on_api in H. specialize (Hf (w_api w)). destruct (f (w_api w)) as [s b].
  by injection H as <- <-.
Qed.

Lemma api_post_api_opt {A} (f : St -> option (St * A)) :
  (forall s s' a, f s = Some (s', a) -> P s s') -> api_post (on_api_opt f) P.
Proof.
  intros Hf w a w' H. unfold on_api_opt in H. destruct (f (w_api w)) as [[s b]|] eqn:E; [|done].
  injection H as <- <-. by eapply Hf.
Qed.

Lemma api_post_iter {A} (f : A -> W St unit) l : (forall a, api_post (f a) P) -> api_post (witer f l) P.
Proof using pre.
  intros Hf. induction l as [|a l IH]; [apply api_post_ret|]. by apply api_post_bnd.
Qed.
End Lemmas.

#[export] Hint Resolve api_post_ret api_post_panic api_post_heap api_post_caches api_post_store
  api_post_cached api_post_set_cached : admiral.
