(* ===== verification/VirtualServices.v ===== *)
(** * Virtual services

    The writers of [clusters/virtualservice_handler.go], the virtual services of the
    additional endpoints ([clusters/serviceentry.go]) and the decision whether the
    routing in the cluster takes over ([clusters/virtualservice_routing.go]).  The
    caches are those of the [world], the API server is a [KubeClient]. *)
From S2P Require Import Prelude GoStrings Config Objects Metadata ServiceCache Writers ServiceEntries.
From S2P Require Import AddressStore Caches Dependents World.
From stdpp Require Import options.
Local Open Scope Z_scope.
Local Open Scope world_scope.

Definition dnsPrefixAnnotationLabel := "dns-prefix".

Definition isGeneratedByAdmiral (annotations : gomap) : bool :=
  match mlookup annotations created_by_key with Some v => v =?s "admiral" | None => false end.

Definition isGeneratedByCartographer (annotations : gomap) : bool :=
  match mlookup annotations created_by_key with Some v => v =?s "cartographer" | None => false end.

Definition createVirtualServiceSkeleton (vs : VirtualService) (name namespace : string) : VirtualServiceObj :=
  mkVirtualServiceObj (mkMeta name namespace None None 0 "") vs.

(** [delete(m, k)] for each key. *)
Definition remove_keys (keys : list string) (m : gomap) : gomap :=
  option_map (fun m' => foldl (fun acc k => delete k acc) m' keys) m.

Section Writer.
Context {range : GoRange} {St : Type} {client : KubeClient St VirtualServiceObj} (p : AdmiralParams).
(** [ClusterID] of the remote controller, the text of an API error, and the object a
    client returns next to an error. *)
Context (clusterID : string) (message : api_error -> string) (vs_on_error : option VirtualServiceObj).

(** ** Writing *)

Definition patch_vs (obj updated : VirtualServiceObj) : VirtualServiceObj :=
  mkVirtualServiceObj
    (VsMeta updated <| Labels := Labels (VsMeta obj) |> <| Annotations := Annotations (VsMeta obj) |>)
    (VsSpec obj).

Definition retryUpdatingVS (obj exist : VirtualServiceObj) (namespace : string) (err : option api_error)
    (s : St) : St * option api_error :=
  retry_update namespace namespace (Name (VsMeta exist)) (patch_vs obj) err s.

Definition update_existing_vs (newCopy exist : VirtualServiceObj) (namespace : string) (s : St)
    : St * option api_error :=
  let exist := patch_vs newCopy exist in
  let '(s1, err) := api_update namespace exist s in
  match err with
  | Some _ => retryUpdatingVS newCopy exist namespace err s1
  | None => (s1, None)
  end.

(** The copy that is written, without its [exportTo]. *)
Definition vs_copy (new : VirtualServiceObj) : VirtualServiceObj :=
  let m := annotate_created_by (VsMeta new) in
  let ignored := GetIgnoreLabelsAnnotationsVSCopy p in
  new <| VsMeta := m <| Labels := remove_keys ignored (Labels m) |>
                     <| Annotations := remove_keys ignored (Annotations m) |> |>.

Definition write_vs (newCopy : VirtualServiceObj) (exist : option VirtualServiceObj) (namespace : string)
    (s : St) : St * option api_error :=
  match exist with
  | Some e => update_existing_vs newCopy e namespace s
  | None =>
      let newCopy := newCopy <| VsMeta := VsMeta newCopy <| Namespace := namespace |> <| ResourceVersion := "" |> |> in
      let '(s1, err) := api_create namespace newCopy s in
      match err with
      | Some AlreadyExists =>
          let '(s2, r) := api_get namespace (Name (VsMeta newCopy)) s1 in
          update_existing_vs newCopy (match r with inl e => e | inr _ => newCopy end) namespace s2
      | _ => (s1, err)
      end
  end.

(** The label is read before the ignored ones are removed. *)
Definition addUpdateVirtualService (new : VirtualServiceObj) (exist : option VirtualServiceObj)
    (namespace : string) : W St (option api_error) :=
  let skipAddingExportTo := mget (Labels (VsMeta new)) VSRoutingLabel =?s "enabled" in
  let newCopy := vs_copy new in
  match vsHosts (VsSpec newCopy) with
  | [] => wpanic
  | host :: _ =>
      newCopy <- (if EnableExportTo p host && negb skipAddingExportTo then
                    sortedDependentNamespaces <- sortedDependentNamespaces p host clusterID false;;
                    wret (newCopy <| VsSpec := VsSpec newCopy <| vsExportTo := sortedDependentNamespaces |> |>)
                  else wret newCopy);;
      on_api (write_vs newCopy exist namespace)
  end.

(** [rc] and the service are not nil. *)
Definition maxUpdateRetries : nat := 5.
Fixpoint update_vs_loop (tries : nat) (vs : VirtualServiceObj) (namespace : string) (last : option api_error)
    (s : St) : St * option api_error :=
  match tries with
  | O => (s, last)
  | S tries' =>
      let '(s', err) := api_update namespace vs s in
      match err with
      | None => (s', None)
      | Some _ => update_vs_loop tries' vs namespace err s'
      end
  end.
Definition updateVirtualService (vs : VirtualServiceObj) (namespace : string) (s : St)
    : St * (option api_error + string) :=
  if namespace =?s "" then (s, inr "namespace is empty")
  else let '(s', err) := update_vs_loop maxUpdateRetries vs namespace None s in (s', inl err).

(** ** Deleting *)

Inductive vs_delete_error := IsVSAlreadyDeletedErr | VSApiError (err : api_error).

Definition vsAlreadyDeletedMsg := "either VirtualService was already deleted, or it never existed".

Definition deleteVirtualService (vsName namespace : string) (s : St) : St * option vs_delete_error :=
  let '(s1, err) := api_delete namespace vsName s in
  match err with
  | None => (s1, None)
  | Some NotFound =>
      let '(s2, err2) := api_delete namespace (to_lower vsName) s1 in
      match err2 with
      | None => (s2, None)
      | Some NotFound => (s2, Some IsVSAlreadyDeletedErr)
      | Some e => (s2, Some (VSApiError e))
      end
  | Some e => (s1, Some (VSApiError e))
  end.

(** ** Reading *)

(** [getExistingVS]: only an error of kind not found is reported. *)
Definition getExistingVS (vsName namespace : string) (s : St) : St * (option VirtualServiceObj * option api_error) :=
  let '(s', r) := api_get namespace vsName s in
  (s', match r with
       | inl vs => (Some vs, None)
       | inr NotFound => (None, Some NotFound)
       | inr _ => (vs_on_error, None)
       end).

(** [None] is a virtual service of somebody else. *)
Definition getAdmiralGeneratedVirtualService (vsName namespace : string) (s : St)
    : St * (option VirtualServiceObj + api_error) :=
  let '(s', r) := api_get namespace vsName s in
  (s', match r with
       | inl existingVS => inl (if isGeneratedByAdmiral (Annotations (VsMeta existingVS))
                                then Some existingVS else None)
       | inr err => inr err
       end).

(** ** Additional endpoints *)

Definition validateAdditionalEndpointParams (identity env : string) : error :=
  if identity =?s "" then Some "identity passed is empty"
  else if env =?s "" then Some "env passed is empty" else None.

Definition getAdditionalEndpointVirtualServiceNames (identity env vsDNSPrefix : string) : list string :=
  map (fun suffix =>
    let vsName := env +:+ "." +:+ identity +:+ "." +:+ suffix +:+ "-vs" in
    if is_empty vsDNSPrefix then vsName else vsDNSPrefix +:+ "." +:+ vsName)
    (GetAdditionalEndpointSuffixes p).

Fixpoint delete_endpoints (vsNames : list string) (namespace : string) (s : St) : St * error :=
  match vsNames with
  | [] => (s, None)
  | vsName :: rest =>
      let '(s1, r) := getAdmiralGeneratedVirtualService vsName namespace s in
      match r with
      | inr err => (s1, Some (message err))
      | inl None => (s1, None)
      | inl (Some vsToDelete) =>
          let '(s2, err) := deleteVirtualService (Name (VsMeta vsToDelete)) namespace s1 in
          match err with
          | None => delete_endpoints rest namespace s2
          | Some IsVSAlreadyDeletedErr => (s2, Some vsAlreadyDeletedMsg)
          | Some (VSApiError e) => (s2, Some (message e))
          end
      end
  end.

Definition deleteAdditionalEndpoints (identity env namespace vsDNSPrefix : string) (s : St) : St * error :=
  match validateAdditionalEndpointParams identity env with
  | Some err => (s, Some ("failed deleting additional endpoints due to error " +:+ err))
  | None => delete_endpoints (getAdditionalEndpointVirtualServiceNames identity env vsDNSPrefix) namespace s
  end.

Definition getAdditionalEndpoints (identity env vsDNSPrefix : string) : list string * error :=
  match validateAdditionalEndpointParams identity env with
  | Some err => ([], Some ("failed validating additional endpoint parameters due to error " +:+ err))
  | None =>
      let trimmedAirEnv := trim_suffix env AIREnvSuffix in
      (map (fun suffix =>
         let hostName := to_lower (GetCnameVal [trimmedAirEnv; identity; suffix]) in
         if negb (vsDNSPrefix =?s "") && negb (vsDNSPrefix =?s Default)
         then to_lower (GetCnameVal [vsDNSPrefix; hostName]) else hostName)
         (GetAdditionalEndpointSuffixes p), None)
  end.

(** The dependents of the cname are shared with the additional host names. *)
Definition share_dependents (env identity partitionedIdentity : string) (virtualServiceHostnames : list string)
    : W St unit :=
  c <- get_caches;;
  if EnableSWAwareNSCaches p && negb (is_nil (CnameDependentClusterNamespaceCache (pointers c))) then
    let defaultCname := trim_space (to_lower (GetCnameVal [env; identity; GetHostnameSuffix p])) in
    dependentClusterNamespaces <-
      on_heap (MapOfMapOfMaps_Get (CnameDependentClusterNamespaceCache (pointers c)) defaultCname);;
    match dependentClusterNamespaces with
    | None => wret tt
    | Some _ =>
        n <- on_heap (MapOfMaps_Len dependentClusterNamespaces);;
        if Nat.ltb 0 n then
          witer (fun vshostname =>
            on_heap (MapOfMapOfMaps_PutMapofMaps (CnameDependentClusterNamespaceCache (pointers c))
              (to_lower vshostname) dependentClusterNamespaces) ;;;
            CnameIdentityCache_Store vshostname partitionedIdentity) virtualServiceHostnames
        else wret tt
    end
  else wret tt.

(** The virtual service of the additional endpoints. *)
Definition additional_vs (virtualServiceHostnames : list string) (identity env destinationHostName namespace
    vsDNSPrefix defaultVSName : string) : VirtualServiceObj :=
  let defaultVSRoute := mkHTTPRoute "" []
    [mkRouteDestination (mkDestination destinationHostName "" (Some DefaultServiceEntryPort)) 0 None] "" in
  let vs := createVirtualServiceSkeleton (mkVirtualService virtualServiceHostnames [] [defaultVSRoute] [] [])
              defaultVSName namespace in
  vs <| VsMeta := VsMeta vs
       <| Labels := Some (<[dnsPrefixAnnotationLabel := vsDNSPrefix]> {[ GetEnvKey p := env ]}) |>
       <| Annotations := Some {[ GetWorkloadIdentifier p := identity ]} |> |>.

(** [eventResourceType] is the context's value, [None] when it is not a string. *)
Definition createAdditionalEndpoints (eventResourceType : option string)
    (virtualServiceHostnames : list string) (partitionedIdentity env destinationHostName namespace
    vsDNSPrefix : string) (gatewayClusters : list string) (originalEnvLabel : string) : W St error :=
  match validateAdditionalEndpointParams partitionedIdentity env, virtualServiceHostnames with
  | Some err, _ => wret (Some ("failed generating additional endpoints due to error " +:+ err))
  | None, [] => wret (Some ("failed generating additional endpoints for suffixes [" +:+
                       join " " (GetAdditionalEndpointSuffixes p) +:+ "]"))
  | None, host0 :: _ =>
      identity <- getNonPartitionedIdentity p partitionedIdentity;;
      let defaultVSName := getIstioResourceName host0 "-vs" in
      '(existingVS, _) <- on_api (getExistingVS defaultVSName (GetSyncNamespace p));;
      match eventResourceType with
      | None => wret (Some "error occurred trying to get eventResourceType")
      | Some resourceType =>
          if negb (is_nil existingVS) &&
             negb (str_in clusterID gatewayClusters && (resourceType =?s RolloutType) && IsAirEnv originalEnvLabel)
          then wret None
          else
            share_dependents env identity partitionedIdentity virtualServiceHostnames ;;;
            err <- addUpdateVirtualService
              (additional_vs virtualServiceHostnames identity env destinationHostName namespace vsDNSPrefix
                 defaultVSName) existingVS namespace;;
            wret (match err with
                  | None => None
                  | Some e => Some ("failed generating additional endpoints from serviceentry due to error: " +:+
                                    message e)
                  end)
      end
  end.
End Writer.

(** ** Is a destination rule pinned for the routing in the cluster? *)

(** The parts of a remote controller that the decision reads: the virtual-service
    controller with its caches, each of which may be nil (the first one by identity in
    lower case), and the Argo virtual services
    of the rollout controller, nil when either is. *)
Record VsController := mkVsController {
  IdentityVirtualServiceCache : option (gmap string (gset string));
  VirtualServiceCache : option (gmap string VirtualServiceObj)
}.
Record RcRouting := mkRcRouting {
  VirtualServiceController : option VsController;
  IdentityArgoVSCache : option (gmap string (gset string))
}.

Definition CreatedBy := "createdBy".
Definition CreatedFor := "createdFor".
Definition CreatedForEnv := "createdForEnv".
Definition InclusterVSNameSuffix := "incluster-vs".

Section Routing.
Context {range : GoRange} {St : Type} (p : AdmiralParams) (message : api_error -> string).
Context (remoteControllers : gmap string RcRouting).
(** The virtual services of a cluster's namespace with the given labels, and the list a
    client returns next to an error, [None] for nil. *)
Context (api_list : string -> string -> gmap string string -> St -> St * (list VirtualServiceObj + api_error))
  (list_on_error : option (list VirtualServiceObj)).

(** Does the cluster have a virtual service of the identity that Argo does not manage?
    [None] when the loop goes on. *)
Definition custom_vs_in (identityId : string) (vc : VsController) (argo : option (gmap string (gset string)))
    (cluster : string) : option (bool * error) :=
  match IdentityVirtualServiceCache vc with
  | None => Some (false, Some ("IdentityVirtualServiceCache is nil for cluster " +:+ cluster))
  | Some cache =>
      let virtualServices := default ∅ (cache !! to_lower identityId) in
      if bool_decide (virtualServices = ∅) then None
      else match (if GetArgoRolloutsEnabled p then argo else None) with
           | None => Some (true, None)
           | Some argoCache =>
               let argoVS := default ∅ (argoCache !! identityId) in
               if bool_decide (virtualServices ⊆ argoVS) then None else Some (true, None)
           end
  end.

Fixpoint identity_vs_loop (identityId : string) (identityClusters : list string) : bool * error :=
  match identityClusters with
  | [] => (false, None)
  | cluster :: rest =>
      match remoteControllers !! cluster with
      | None => (false, Some ("remoteController is nil for cluster " +:+ cluster))
      | Some rc =>
          match VirtualServiceController rc with
          | None => (false, Some ("VirtualServiceController is nil for cluster " +:+ cluster))
          | Some vc =>
              match custom_vs_in identityId vc (IdentityArgoVSCache rc) cluster with
              | Some r => r
              | None => identity_vs_loop identityId rest
              end
          end
      end
  end.

Definition DoesIdentityHaveVS (identityId : string) : W St (bool * error) :=
  c <- get_caches;;
  match IdentityClusterCache (pointers c) with
  | None => wret (false, Some "IdentityClusterCache is nil in AdmiralCache")
  | Some _ =>
      identityClustersMap <- on_heap (MapOfMaps_Get (IdentityClusterCache (pointers c)) identityId);;
      match identityClustersMap with
      | None => wret (false, Some ("identityClustersMap is nil for identity " +:+ identityId))
      | Some _ =>
          identityClusters <- on_heap (Map_GetValues identityClustersMap);;
          match identityClusters with
          | [] => wret (false, Some ("no clusters found for identity " +:+ identityId))
          | _ => wret (identity_vs_loop identityId identityClusters)
          end
      end
  end.

(** The environments of the first virtual service that is made for [env], this one
    first. *)
Fixpoint custom_vs_loop (env : string) (vss : list VirtualServiceObj) : list (string * VirtualServiceObj) :=
  match vss with
  | [] => []
  | vs :: rest =>
      match mlookup (Annotations (VsMeta vs)) CreatedForEnv with
      | None => custom_vs_loop env rest
      | Some createdForEnv =>
          if is_empty createdForEnv then custom_vs_loop env rest
          else
            let splitEnvs := split "_" createdForEnv in
            if str_in env splitEnvs then
              (env, vs) :: map (fun e => (e, vs)) (List.filter (fun e => negb (e =?s env)) splitEnvs)
            else custom_vs_loop env rest
      end
  end.

Definition getCustomVirtualService (cluster env identity : string)
    : W St (list (string * VirtualServiceObj) * error) :=
  if is_empty env then wret ([], Some "env is empty")
  else if is_empty identity then wret ([], Some "identity is empty")
  else
    r <- on_api (api_list cluster (GetSyncNamespace p)
           (<[CreatedBy := GetProcessVSCreatedBy p]> {[ CreatedFor := to_lower identity ]}));;
    match r with
    | inl vss => wret (custom_vs_loop env vss, None)
    | inr NotFound => wret ([], Some ("failed to fetch custom vs with env " +:+ env +:+ " and identity " +:+
                                identity +:+ " due to error " +:+ message NotFound))
    | inr _ => match list_on_error with Some vss => wret (custom_vs_loop env vss, None) | None => wpanic end
    end.

Definition IsCartographerVSDisabled (cluster env identity : string) : W St (bool * error) :=
  if is_empty env then wret (false, Some "env is empty")
  else if is_empty identity then wret (false, Some "identity is empty")
  else
    '(envVSTuple, err) <- getCustomVirtualService cluster env identity;;
    match err, envVSTuple with
    | Some e, _ => wret (false, Some e)
    | None, [] => wret (true, None)
    | None, (_, customVS) :: _ => wret (str_in "." (vsExportTo (VsSpec customVS)), None)
    end.

Definition incluster_vs_name (seHost : string) : string :=
  let seHost := if has_prefix seHost CanaryRolloutCanaryPrefix
                then replace_all seHost (CanaryRolloutCanaryPrefix +:+ ".") "" else seHost in
  let seHost := if has_prefix seHost BlueGreenRolloutPreviewPrefix
                then replace_all seHost (BlueGreenRolloutPreviewPrefix +:+ ".") "" else seHost in
  seHost +:+ "-" +:+ InclusterVSNameSuffix.

Definition hasInClusterVSWithValidExportToNS (se : ServiceEntry) (rc : option RcRouting) : bool * error :=
  match rc with
  | None => (false, Some "remoteController is nil")
  | Some rc =>
      match seHosts se with
      | [host] =>
          match VirtualServiceController rc with
          | None => (false, Some "VirtualServiceController is nil in remoteController")
          | Some vc =>
              match VirtualServiceCache vc with
              | None => (false, Some "VirtualServiceCache is nil in VirtualServiceController")
              | Some cache =>
                  match cache !! incluster_vs_name host with
                  | None => (false, Some ("virtualService " +:+ incluster_vs_name host +:+ " not found in cache"))
                  | Some cachedVS => (negb (str_in (GetSyncNamespace p) (vsExportTo (VsSpec cachedVS))), None)
                  end
              end
          end
      | _ => (false, Some "serviceEntry has more than one host")
      end
  end.

Definition checkClusterIdentity (identities identity : string) : bool :=
  (trim_space identities =?s "*")
  || existsb (fun id => trim_space id =?s trim_space identity) (split "," identities).

Definition IsVSRoutingInClusterDisabledForIdentity (cluster identity : string) : bool :=
  let disabled := GetVSRoutingInClusterDisabledResources p in
  checkClusterIdentity (default "" (disabled !! "*")) identity
  || checkClusterIdentity (default "" (disabled !! cluster)) identity.

Definition IsVSRoutingInClusterDisabledForCluster (cluster : string) : bool :=
  let disabled := GetVSRoutingInClusterDisabledResources p in
  (default "" (disabled !! "*") =?s "*") || (default "" (disabled !! cluster) =?s "*").

(** The feature is switched on for the cluster or the identity. *)
Definition routing_in_cluster_enabled (cluster identity : string) : bool :=
  let enabledResources := GetVSRoutingInClusterEnabledResources p in
  (default "" (enabledResources !! "*") =?s "*") || (default "" (enabledResources !! cluster) =?s "*")
  || checkClusterIdentity (default "" (enabledResources !! "*")) identity
  || checkClusterIdentity (default "" (enabledResources !! cluster)) identity.

Definition DoVSRoutingInClusterForClusterAndIdentity (env cluster identity : string)
    (performCartographerVSCheck : bool) : W St bool :=
  if negb (GetEnableVSRoutingInCluster p) then wret false
  else if IsVSRoutingInClusterDisabledForCluster cluster
          || IsVSRoutingInClusterDisabledForIdentity cluster identity then wret false
  else if routing_in_cluster_enabled cluster identity then
    '(hasVSInNS, err) <- DoesIdentityHaveVS identity;;
    if negb (is_nil err) || (hasVSInNS : bool) then wret false
    else if performCartographerVSCheck then
      match remoteControllers !! cluster with
      | None => wret false
      | Some _ =>
          '(isCartographerVSDisabled, err) <- IsCartographerVSDisabled cluster env identity;;
          wret (is_nil err && (isCartographerVSDisabled : bool))
      end
    else wret true
  else wret false.

Definition DoDRUpdateForInClusterVSRouting (env cluster identity : string) (isSourceCluster : bool)
    (se : ServiceEntry) (performCartographerVSCheck : bool) : W St bool :=
  if isSourceCluster then
    let '(hasValidInClusterVS, err) := hasInClusterVSWithValidExportToNS se (remoteControllers !! cluster) in
    if negb (is_nil err) || negb hasValidInClusterVS then wret false
    else DoVSRoutingInClusterForClusterAndIdentity env cluster identity performCartographerVSCheck
  else wret false.
End Routing.

(** ** What the writers leave of an invariant of the server *)

(** What a written virtual service must be. *)
Definition desired_vs (new o : VirtualServiceObj) : Prop :=
  exists exportTo, VsSpec o = VsSpec new <| vsExportTo := exportTo |>.

Lemma desired_vs_same new o : VsSpec o = VsSpec new -> desired_vs new o.
Proof. unfold desired_vs. intros ->. exists (vsExportTo (VsSpec new)). by destruct (VsSpec new). Qed.

Lemma desired_vs_export new o exportTo :
  desired_vs new o -> desired_vs new (o <| VsSpec := VsSpec o <| vsExportTo := exportTo |> |>).
Proof. intros [e He]. exists exportTo. simpl. by rewrite He. Qed.

Section Post.
Context {range : GoRange} {St : Type} {client : KubeClient St VirtualServiceObj}.
Context (P : St -> St -> Prop) {pre : PreOrder P} (p : AdmiralParams).
Context (Qw : string -> VirtualServiceObj -> Prop) (Qd : string -> string -> Prop).
Context (Hc : client_post client P Qw Qd).

Lemma update_existing_vs_post new o e ns s :
  desired_vs new o -> (forall x, desired_vs new x -> Qw ns x) -> P s (update_existing_vs o e ns s).1.
Proof using pre Hc.
  intros Hd HQ. unfold update_existing_vs, retryUpdatingVS.
  apply (update_retry_post P Qw Qd Hc ns ns _ (patch_vs o) (patch_vs o e) s); [by apply HQ|].
  intros x _. by apply HQ.
Qed.

Lemma write_vs_post new o old ns s :
  desired_vs new o -> (forall x, desired_vs new x -> Qw ns x) -> P s (write_vs o old ns s).1.
Proof using pre Hc.
  intros Hd HQ. unfold write_vs. destruct old as [e|]; [by eapply update_existing_vs_post|].
  set (o' := o <| VsMeta := _ |>).
  apply (create_post P Qw Qd Hc ns (Name (VsMeta o')) o'
    (fun s2 r => update_existing_vs o' (match r with inl e => e | inr _ => o' end) ns s2)); [by apply HQ|].
  intros s2 r _. by eapply update_existing_vs_post.
Qed.

Lemma sortedDependentNamespaces_post cname cluster skip :
  api_post (St := St) (sortedDependentNamespaces p cname cluster skip) P.
Proof using pre. apply (api_post_bnd P); auto with admiral. Qed.

Lemma addUpdateVirtualService_post clusterID new old ns :
  (forall x, desired_vs new x -> Qw ns x) -> api_post (addUpdateVirtualService p clusterID new old ns) P.
Proof using pre Hc.
  intros HQ. unfold addUpdateVirtualService. destruct (vsHosts (VsSpec (vs_copy p new))) as [|host hosts]; [auto with admiral|].
  set (o := vs_copy p new). assert (desired_vs new o) as Hd by by apply desired_vs_same.
  assert (forall o', desired_vs new o' -> api_post (on_api (write_vs o' old ns)) P) as Hw.
  { intros o' Hd'. apply api_post_api. intros s. by eapply write_vs_post. }
  destruct (EnableExportTo _ _ && _).
  - intros w a w' H. unfold wbnd in H.
    destruct (sortedDependentNamespaces p _ clusterID false w) as [[deps w1]|] eqn:E1; [|done].
    apply sortedDependentNamespaces_post in E1. etrans; [exact E1|].
    eapply Hw; [by apply desired_vs_export|exact H].
  - intros w a w' H. by eapply (Hw o).
Qed.

Lemma deleteVirtualService_post name ns s :
  (forall n, Qd ns n) -> P s (deleteVirtualService name ns s).1.
Proof using pre Hc.
  intros HQ. unfold deleteVirtualService.
  pose proof (post_delete _ _ _ _ Hc ns name s (HQ _)) as H1.
  destruct (api_delete ns name s) as [s1 [[| | |]|]]; simpl in *; try done.
  pose proof (post_delete _ _ _ _ Hc ns (to_lower name) s1 (HQ _)) as H2.
  destruct (api_delete ns (to_lower name) s1) as [s2 [[| | |]|]]; simpl in *; by etrans.
Qed.

Lemma delete_endpoints_post message names ns s :
  (forall n, Qd ns n) -> P s (delete_endpoints message names ns s).1.
Proof using pre Hc.
  intros HQ. revert s. induction names as [|name names IH]; intros s; simpl; [reflexivity|].
  unfold getAdmiralGeneratedVirtualService.
  pose proof (post_get _ _ _ _ Hc ns name s) as Hg. destruct (api_get ns name s) as [s1 [vs|e]]; simpl in *; [|done].
  destruct (isGeneratedByAdmiral _); simpl; [|done].
  pose proof (deleteVirtualService_post (Name (VsMeta vs)) ns s1 HQ) as Hd.
  destruct (deleteVirtualService _ _ _) as [s2 [[|e]|]]; simpl in *; try by etrans.
  exact (PreOrder_Transitive _ _ _ Hg (PreOrder_Transitive _ _ _ Hd (IH s2))).
Qed.

Lemma deleteAdditionalEndpoints_post message identity env ns prefix s :
  (forall n, Qd ns n) -> P s (deleteAdditionalEndpoints p message identity env ns prefix s).1.
Proof using pre Hc.
  intros HQ. unfold deleteAdditionalEndpoints. destruct (validateAdditionalEndpointParams _ _); [reflexivity|].
  by apply delete_endpoints_post.
Qed.

Lemma share_dependents_post env identity pid hosts : api_post (St := St) (share_dependents p env identity pid hosts) P.
Proof using pre.
  unfold share_dependents. apply (api_post_bnd P); [auto with admiral|]. intros c.
  destruct (_ && _); [|auto with admiral]. apply (api_post_bnd P); [auto with admiral|]. intros [d|]; [|auto with admiral].
  apply (api_post_bnd P); [auto with admiral|]. intros n. destruct (Nat.ltb 0 n); [|auto with admiral].
  apply (api_post_iter P). intros host. apply (api_post_bnd P); auto with admiral.
Qed.

Lemma getNonPartitionedIdentity_post id : api_post (St := St) (getNonPartitionedIdentity p id) P.
Proof using pre.
  unfold getNonPartitionedIdentity. destruct (IsAdmiralOperatorMode p); [auto with admiral|].
  apply (api_post_bnd P); [auto with admiral|]. intros c. destruct (_ && _); [|auto with admiral].
  apply (api_post_bnd P); auto with admiral.
Qed.

(** The virtual service of the additional endpoints, whatever its labels. *)
Definition is_additional (hosts : list string) (destination : string) (o : VirtualServiceObj) : Prop :=
  exists exportTo, VsSpec o = mkVirtualService hosts []
    [mkHTTPRoute "" [] [mkRouteDestination (mkDestination destination "" (Some DefaultServiceEntryPort)) 0 None] ""]
    [] exportTo.

Lemma createAdditionalEndpoints_post clusterID message on_error ert hosts pid env destination ns prefix gws label :
  (forall x, is_additional hosts destination x -> Qw ns x) ->
  api_post (createAdditionalEndpoints p clusterID message on_error ert hosts pid env destination ns prefix
              gws label) P.
Proof using pre Hc.
  intros HQ. unfold createAdditionalEndpoints. destruct (validateAdditionalEndpointParams _ _); [auto with admiral|].
  destruct hosts as [|host0 hosts]; [auto with admiral|].
  apply (api_post_bnd P); [apply getNonPartitionedIdentity_post|]. intros identity.
  apply (api_post_bnd P).
  { apply api_post_api. intros s. unfold getExistingVS.
    pose proof (post_get _ _ _ _ Hc (GetSyncNamespace p) (getIstioResourceName host0 "-vs") s) as Hg.
    by destruct (api_get _ _ _). }
  intros [old e]. destruct ert as [ert|]; [|auto with admiral]. destruct (_ && _); [auto with admiral|].
  apply (api_post_bnd P); [apply share_dependents_post|]. intros _.
  apply (api_post_bnd P); [|auto with admiral]. apply addUpdateVirtualService_post.
  intros x [exportTo Hx]. apply HQ. exists exportTo. by rewrite Hx.
Qed.
End Post.

(** ** When a destination rule is pinned *)
Section Pinning.
Context {range : GoRange} {St : Type} (p : AdmiralParams) (message : api_error -> string).
Context (remoteControllers : gmap string RcRouting).
Context (api_list : string -> string -> gmap string string -> St -> St * (list VirtualServiceObj + api_error))
  (list_on_error : option (list VirtualServiceObj)).

(** The cluster has no virtual service of the identity but those of Argo. *)
Definition no_custom_vs (identity cluster : string) : Prop :=
  exists rc vc cache, remoteControllers !! cluster = Some rc /\ VirtualServiceController rc = Some vc /\
    IdentityVirtualServiceCache vc = Some cache /\
    let vss := default ∅ (cache !! to_lower identity) in
    vss = ∅ \/ (GetArgoRolloutsEnabled p = true /\
      exists argo, IdentityArgoVSCache rc = Some argo /\ vss ⊆ default ∅ (argo !! identity)).

Lemma identity_vs_loop_none identity l :
  identity_vs_loop p remoteControllers identity l = (false, None) ->
  forall c, c ∈ l -> no_custom_vs identity c.
Proof.
  induction l as [|cluster l IH]; [intros _ c ?%elem_of_nil; done|]. simpl. intros Hl.
  destruct (remoteControllers !! cluster) as [rc|] eqn:E1; [|done].
  destruct (VirtualServiceController rc) as [vc|] eqn:E2; [|done].
  destruct (custom_vs_in p identity vc (IdentityArgoVSCache rc) cluster) as [[b e]|] eqn:E3.
  { unfold custom_vs_in in E3. repeat case_match; simplify_eq. }
  intros c [->|Hc]%elem_of_cons; [|by apply IH]. unfold custom_vs_in in E3.
  destruct (IdentityVirtualServiceCache vc) as [cache|] eqn:E4; [|done].
  exists rc, vc, cache. split_and!; [done..|]. simpl.
  destruct (bool_decide (_ = ∅)) eqn:E5; sdec; [by left|right].
  destruct (GetArgoRolloutsEnabled p); [|done]. destruct (IdentityArgoVSCache rc) as [argo|]; [|done].
  split; [done|]. exists argo. split; [done|]. by destruct (bool_decide (_ ⊆ _)) eqn:E6; sdec.
Qed.

(** The in-cluster virtual service of the host is there, and not exported to Admiral's
    own namespace. *)
Definition has_incluster_vs (cluster : string) (se : ServiceEntry) : Prop :=
  exists rc vc cache host vs, remoteControllers !! cluster = Some rc /\
    VirtualServiceController rc = Some vc /\ VirtualServiceCache vc = Some cache /\ seHosts se = [host] /\
    cache !! incluster_vs_name host = Some vs /\ GetSyncNamespace p ∉ vsExportTo (VsSpec vs).

Lemma has_incluster_vs_spec cluster se :
  hasInClusterVSWithValidExportToNS p se (remoteControllers !! cluster) = (true, None) ->
  has_incluster_vs cluster se.
Proof.
  unfold hasInClusterVSWithValidExportToNS, has_incluster_vs.
  destruct (remoteControllers !! cluster) as [rc|]; [|done].
  destruct (seHosts se) as [|host [|]]; try done.
  destruct (VirtualServiceController rc) as [vc|] eqn:E1; [|done].
  destruct (VirtualServiceCache vc) as [cache|] eqn:E2; [|done].
  destruct (cache !! incluster_vs_name host) as [vs|] eqn:E3; [|done].
  intros [= Hn]. apply negb_true_iff, str_in_false in Hn. by exists rc, vc, cache, host, vs.
Qed.

Lemma does_identity_have_vs_none identity (w w1 : world St) :
  DoesIdentityHaveVS p remoteControllers identity w = Some ((false, None), w1) ->
  exists l m, MapOfMaps_Get (IdentityClusterCache (pointers (w_caches w))) identity (w_heap w)
      = Done (Some l) (w_heap w) /\
    h_maps (w_heap w) !! l = Some m /\ m <> ∅ /\ forall k c, m !! k = Some c -> no_custom_vs identity c.
Proof.
  unfold DoesIdentityHaveVS, wbnd, get_caches, on_heap.
  destruct (IdentityClusterCache (pointers (w_caches w))) as [t|]; [|done].
  unfold MapOfMaps_Get at 1, Map_GetValues, mbnd, deref_tab, deref_map.
  destruct (bool_decide ((2, t)%nat ∈ _)) eqn:L1; [done|].
  destruct (h_tabs (w_heap w) !! (2, t)%nat) as [tab|] eqn:E1; [|done]. cbn [mret].
  unfold mret. destruct (tab_get tab identity) as [l|] eqn:E2; [|done]. simpl.
  destruct (bool_decide ((1, l)%nat ∈ _)) eqn:L2; [done|].
  destruct (h_maps (w_heap w) !! l) as [m|] eqn:E3; [|done].
  destruct (go_range 0 m).*2 as [|c0 cs] eqn:E4; [done|]. intros [= Hl _].
  exists l, m. unfold MapOfMaps_Get, mbnd, deref_tab, mret. rewrite L1, E1, E2. split_and!; [done|done| |].
  - intros ->. pose proof (go_range_perm _ 0 (∅ : gmap string string)) as Hp.
    rewrite map_to_list_empty in Hp. apply Permutation_nil_r in Hp. by rewrite Hp in E4.
  - intros k c Hc. apply (identity_vs_loop_none identity (c0 :: cs)); [done|]. rewrite <- E4.
    apply list_elem_of_fmap. exists (k, c). by rewrite go_range_elem.
Qed.

(** The routing in the cluster is on for an identity only when the feature is on for the
    cluster or the identity, off for neither, and no cluster of the identity has a virtual
    service of the identity that Argo does not manage. *)
Lemma do_vs_routing_guarded (env cluster identity : string) (check : bool) (w w' : world St) :
  DoVSRoutingInClusterForClusterAndIdentity p message remoteControllers api_list list_on_error env cluster identity
    check w = Some (true, w') ->
  GetEnableVSRoutingInCluster p = true /\
  IsVSRoutingInClusterDisabledForCluster p cluster = false /\
  IsVSRoutingInClusterDisabledForIdentity p cluster identity = false /\
  routing_in_cluster_enabled p cluster identity = true /\
  exists l m, MapOfMaps_Get (IdentityClusterCache (pointers (w_caches w))) identity (w_heap w)
      = Done (Some l) (w_heap w) /\
    h_maps (w_heap w) !! l = Some m /\ m <> ∅ /\ forall k c, m !! k = Some c -> no_custom_vs identity c.
Proof.
  unfold DoVSRoutingInClusterForClusterAndIdentity.
  destruct (GetEnableVSRoutingInCluster p); [|done].
  destruct (IsVSRoutingInClusterDisabledForCluster p cluster) eqn:E2; [done|].
  destruct (IsVSRoutingInClusterDisabledForIdentity p cluster identity) eqn:E3; [done|]. simpl.
  destruct (routing_in_cluster_enabled p cluster identity) eqn:E4; [|done].
  unfold wbnd at 1. intros H.
  destruct (DoesIdentityHaveVS p remoteControllers identity w) as [[[has err] w1]|] eqn:E5; [|done].
  destruct err, has; try done. split_and!; [done..|]. by eapply does_identity_have_vs_none.
Qed.

(** A destination rule is pinned for the routing in the cluster only when it is safe:
    for a source cluster, with the feature on for the cluster or the identity and off for
    neither, when the host's in-cluster virtual service is in the cluster and not
    exported to Admiral's own namespace, and when no cluster of the identity has a
    virtual service of the identity that Argo does not manage. *)
Theorem dr_pinning_guarded (env cluster identity : string) (isSourceCluster : bool) (se : ServiceEntry)
    (check : bool) (w w' : world St) :
  DoDRUpdateForInClusterVSRouting p message remoteControllers api_list list_on_error env cluster identity
    isSourceCluster se check w = Some (true, w') ->
  isSourceCluster = true /\ GetEnableVSRoutingInCluster p = true /\
  IsVSRoutingInClusterDisabledForCluster p cluster = false /\
  IsVSRoutingInClusterDisabledForIdentity p cluster identity = false /\
  routing_in_cluster_enabled p cluster identity = true /\
  has_incluster_vs cluster se /\
  exists l m, MapOfMaps_Get (IdentityClusterCache (pointers (w_caches w))) identity (w_heap w)
      = Done (Some l) (w_heap w) /\
    h_maps (w_heap w) !! l = Some m /\ m <> ∅ /\ forall k c, m !! k = Some c -> no_custom_vs identity c.
Proof.
  unfold DoDRUpdateForInClusterVSRouting. destruct isSourceCluster; [|done].
  destruct (hasInClusterVSWithValidExportToNS _ _ _) as [b e] eqn:E1.
  destruct e, b; try done. apply has_incluster_vs_spec in E1. simpl.
  intros (H1 & H2 & H3 & H4 & H5)%do_vs_routing_guarded. by split_and!.
Qed.
End Pinning.

(** ** Additional endpoints that stay

    With one suffix, the virtual service that is created for the default prefix has
    none of the names that the deletion looks for. *)
Lemma length_append s1 s2 : String.length (s1 +:+ s2) = (String.length s1 + String.length s2)%nat.
Proof. induction s1 as [|a s1 IH]; [done|]. simpl. by rewrite IH. Qed.

Lemma length_to_lower s : String.length (to_lower s) = String.length s.
Proof. induction s as [|a s IH]; [done|]. simpl. by rewrite IH. Qed.

Lemma cut_suffix_length s suf r : cut_suffix s suf = Some r -> (String.length r <= String.length s)%nat.
Proof.
  revert r. induction s as [|a s IH]; intros r; simpl.
  - destruct (_ =?s _); [by intros [= <-]|done].
  - destruct (_ =?s _); [intros [= <-]; simpl; lia|].
    destruct (cut_suffix s suf) as [r'|] eqn:E; [|done]. intros [= <-]. specialize (IH r' eq_refl). simpl. lia.
Qed.

Lemma trim_suffix_length s suf : (String.length (trim_suffix s suf) <= String.length s)%nat.
Proof.
  unfold trim_suffix. destruct (cut_suffix s suf) as [r|] eqn:E; simpl; [by eapply cut_suffix_length|lia].
Qed.

Lemma additional_vs_not_deleted p identity env suffix hosts host0 :
  GetAdditionalEndpointSuffixes p = [suffix] ->
  getAdditionalEndpoints p identity env Default = (hosts, None) -> head hosts = Some host0 ->
  getIstioResourceName host0 "-vs" ∉ getAdditionalEndpointVirtualServiceNames p identity env Default.
Proof.
  intros Hs. unfold getAdditionalEndpoints, getAdditionalEndpointVirtualServiceNames. rewrite Hs.
  destruct (validateAdditionalEndpointParams identity env); [done|]. intros [= <-]. simpl.
  intros [= <-] Hin. apply list_elem_of_singleton in Hin.
  apply (f_equal String.length) in Hin. pose proof (trim_suffix_length env AIREnvSuffix) as Ht.
  unfold getIstioResourceName, GetCnameVal in Hin. cbn [join] in Hin.
  unfold Sep, Default in Hin. cbn [String.append] in Hin.
  repeat (rewrite ?length_append, ?length_to_lower in Hin; cbn [String.length] in Hin). lia.
Qed.

(** ** The properties at concrete inputs *)

Definition pin_params : AdmiralParams :=
  Params.zero_AdmiralParams <| Params.EnableVSRoutingInCluster := true |>
    <| Params.VSRoutingInClusterEnabledResources := Some {[ "c1" := "foo, bar" ]} |>
    <| Params.SyncNamespace := "sync" |>.

(** The identity [foo] runs in [c1]. *)
Definition pin_world : world unit :=
  mkWorld tt (mkHeap {[ 1%nat := {[ "c1" := "c1" ]} ]} {[ (2, 0)%nat := {[ "foo" := Some 1%nat ]} ]} 2 ∅)
    (mkAdmiralCaches (mkCachePointers None None (Some 0%nat) None None) None None None None)
    empty_store ∅.

Definition pin_routing : gmap string RcRouting :=
  {[ "c1" := mkRcRouting (Some (mkVsController (Some ∅)
       (Some {[ "e2e.foo.mesh-incluster-vs" :=
         mkVirtualServiceObj (mkMeta "e2e.foo.mesh-incluster-vs" "sync" None None 0 "")
           (mkVirtualService [] [] [] [] ["ns1"]) ]}))) None ]}.

Definition pin_se : ServiceEntry :=
  mkServiceEntry ["canary.e2e.foo.mesh"] [] [] MESH_INTERNAL DNS [] [] [].

Lemma dr_pinning_guarded_witness : has_incluster_vs pin_params pin_routing "c1" pin_se.
Proof.
  edestruct (dr_pinning_guarded (St := unit) pin_params (fun _ => "") pin_routing (fun _ _ _ s => (s, inl [])) None
    "e2e" "c1" "foo" true pin_se false pin_world pin_world) as (_ & _ & _ & _ & _ & H & _); [|exact H].
  vm_compute. reflexivity.
Defined.
