(* ===== verification/VsRouting.v ===== *)
(** * The virtual services of the routing

    The discovery and generation half of [clusters/virtualservice_routing.go]: the local
    destinations of an identity in a cluster, their weights, the hosts and weights that a
    traffic policy adds, the virtual services for the ingress and for the clients in the
    cluster, their comparison with the cached ones and the merge with custom ones.  The
    route destinations are those of [core/vsrouting/routedestination.go]. *)
From S2P Require Import Prelude GoStrings GoStd Config Objects Metadata ServiceCache.
From S2P Require Import ServiceEntries DestinationRules VirtualServices.
From stdpp Require Import options.
Local Open Scope Z_scope.

(** ** Route destinations *)

Record RouteDestination := mkRouteDest {
  rtDestination : Destination;
  rtWeight : Z;  (* int32 *)
  rtHeaders : option Headers;
  rtType : string
}.
#[export] Instance eta_RouteDestination : Settable RouteDestination := fun r =>
  mkRouteDest (rtDestination r) (rtWeight r) (rtHeaders r) (rtType r).
#[export] Instance RouteDestination_eq_dec : EqDecision RouteDestination.
Proof. solve_decision. Defined.

Definition ToTLSRouteDestination (r : RouteDestination) : TLSRouteDestination :=
  mkTlsDestination (rtDestination r) (rtWeight r).

Definition ToHTTPRouteDestination (r : RouteDestination) : HTTPRouteDestination :=
  mkRouteDestination (rtDestination r) (rtWeight r) (rtHeaders r).

(** [DeepCopyInto] a new route destination: nil headers become empty ones, and the type
    is not copied. *)
Definition DeepCopyInto (r : RouteDestination) : RouteDestination :=
  mkRouteDest (rtDestination r) (rtWeight r) (Some (default (mkHeaders None None) (rtHeaders r))) "".

Definition rt_host (r : RouteDestination) : string := dstHost (rtDestination r).

(** [RouteDestinationSorted.Less]. *)
Definition RouteDestinationSorted_Less (a b : RouteDestination) : bool := str_ltb (rt_host a) (rt_host b).

Definition getRouteDestination (host : string) (port weight : Z) : RouteDestination :=
  mkRouteDest (mkDestination host "" (Some port)) (if 0 <? weight then weight else 0) None "".

(** The destinations of the host names. *)
Abbreviation destinations_of := (gmap string (list RouteDestination)).

(** [destinations[k] = append(destinations[k], rds...)]; a missing list is empty. *)
Definition append_destinations (k : string) (rds : list RouteDestination) (m : destinations_of) : destinations_of :=
  <[k := default [] (m !! k) ++ rds]> m.

(** ** Weights *)

(** The loop over the weights, with [r] still to be handed out. *)
Fixpoint split_loop (n : nat) (base r : Z) : list Z :=
  match n with
  | O => []
  | S n' => if 0 <? r then base + 1 :: split_loop n' base (r - 1) else base :: split_loop n' base r
  end.

Definition getWeightSplits (numberOfSplits : nat) : list Z :=
  if Nat.eqb numberOfSplits 0 then []
  else split_loop numberOfSplits (100 / Z.of_nat numberOfSplits) (100 mod Z.of_nat numberOfSplits).

Definition total_rt_weight (rds : list RouteDestination) : Z :=
  foldl (fun total rd => int32 (total + rtWeight rd)) 0 rds.

Definition set_weights (rds : list RouteDestination) (weights : list Z) : list RouteDestination :=
  zip_with (fun rd w => rd <| rtWeight := w |>) rds weights.

(** The loop's body for one host. *)
Definition add_weights (rds : list RouteDestination) : list RouteDestination :=
  if Nat.ltb 1 (length rds) then
    if (total_rt_weight rds =? 100) || (0 <? total_rt_weight rds) then rds
    else set_weights rds (getWeightSplits (length rds))
  else rds.

(** The map is not nil. *)
Definition addWeightsToRouteDestinations (destinations : destinations_of) : destinations_of :=
  add_weights <$> destinations.

(** [int32((float32(w) / 100) * float32(part))]. *)
Definition weight_part (w part : Z) : Z :=
  int32_of_float (float32_mul (float32_div (float32_of_Z w) (float32_of_Z 100)) (float32_of_Z part)).

(** ** Host names *)

Section Names.
Context (p : AdmiralParams).

Definition getDefaultFQDNFromDeployment (deployment : option DeploymentObj) : string + string :=
  match deployment with
  | None => inr "deployment is nil"
  | Some d =>
      let cname := GetCname p d (GetWorkloadIdentifier p) (GetHostnameSuffix p) in
      if is_empty cname then inr "cname is empty" else inl cname
  end.

Definition getDefaultFQDNFromRollout (rollout : option RolloutObj) : string + string :=
  match rollout with
  | None => inr "rollout is nil"
  | Some r =>
      let cname := GetCnameForRollout p r (GetWorkloadIdentifier p) (GetHostnameSuffix p) in
      if is_empty cname then inr "cname is empty" else inl cname
  end.

Definition getCanaryFQDNFromRollout (rollout : option RolloutObj) : string + string :=
  match rollout with
  | None => inr "rollout is nil"
  | Some r =>
      let cName := GetCnameForRollout p r (GetWorkloadIdentifier p) (GetHostnameSuffix p) in
      if is_empty cName
      then inr ("getCanaryFQDNForRollout, unable to get cname for rollout " +:+ Name (RoMeta r))
      else inl (CanaryRolloutCanaryPrefix +:+ Sep +:+ cName)
  end.

Definition getPreviewFQDNFromRollout (rollout : option RolloutObj) : string + string :=
  match rollout with
  | None => inr "rollout is nil"
  | Some r =>
      let cName := GetCnameForRollout p r (GetWorkloadIdentifier p) (GetHostnameSuffix p) in
      if is_empty cName
      then inr ("getPreviewFQDNForRollout, unable to get cname for rollout " +:+ Name (RoMeta r))
      else inl (BlueGreenRolloutPreviewPrefix +:+ Sep +:+ cName)
  end.

Definition sni_prefix : string := "outbound_." +:+ itoa DefaultServiceEntryPort +:+ "_._.".

Definition generateSNIHost (fqdn : string) : string + string :=
  if is_empty fqdn then inr "fqdn is empty" else inl (sni_prefix +:+ fqdn).

Definition getFQDNFromSNIHost (sniHost : string) : string + string :=
  if is_empty sniHost then inr "sniHost is empty"
  else if negb (has_prefix sniHost "outbound_.")
  then inr "invalid SNI host format, should start with outbound_"
  else inl (replace_all sniHost sni_prefix "").
End Names.

(** ** The discovery of the destinations in a cluster

    The service maps are [Some] unless nil; the destinations map is not nil.  On an error
    the caller drops the map. *)

Section Discovery.
Context {range : GoRange} {sorting : GoSort} (p : AdmiralParams).

Definition local_host (name namespace : string) : string := name +:+ Sep +:+ namespace +:+ DotLocalDomainSuffix.

Definition service_host (svc : ServiceObj) : string := local_host (Name (SvcMeta svc)) (Namespace (SvcMeta svc)).

(** [if len(destinations[k]) > 1 { sort.Sort(...) }]. *)
Definition sort_destinations (k : string) (m : destinations_of) : destinations_of :=
  match m !! k with
  | Some rds => if Nat.ltb 1 (length rds) then <[k := sort_slice RouteDestinationSorted_Less rds]> m else m
  | None => m
  end.

Definition populateVSRouteDestinationForDeployment (serviceInstance : option (gmap string ServiceObj))
    (meshPort : Z) (deployment : option DeploymentObj) (destinations : destinations_of) : destinations_of + string :=
  match serviceInstance with
  | None => inr "serviceInstance is nil"
  | Some services =>
      match services !! DeploymentType with
      | None => inr "service is not associated with a deployment"
      | Some svc =>
          globalFQDN <-! getDefaultFQDNFromDeployment p deployment;;
          inl (append_destinations globalFQDN [getRouteDestination (service_host svc) meshPort 0] destinations)
      end
  end.

(** The rollout has a blue-green strategy: the panic on one without is [None] of
    [BlueGreen], which the only caller excludes. *)
Definition populateDestinationsForBlueGreenStrategy (weightedServices : option (gmap string WeightedService))
    (rollout : RolloutObj) (bg : BlueGreenStrategy) (meshPort : Z) (destinations : destinations_of)
    : destinations_of + string :=
  match weightedServices with
  | None => inr ("populateDestinationsForBlueGreenStrategy, weightedServices is nil for rollout " +:+
                 Name (RoMeta rollout))
  | Some ws =>
      destinations <-! match ws !! PreviewService bg with
                       | None => inl destinations
                       | Some preview =>
                           previewFQDN <-! getPreviewFQDNFromRollout p (Some rollout);;
                           inl (append_destinations previewFQDN
                                  [getRouteDestination (service_host (wsService preview)) meshPort 0] destinations)
                       end;;
      match ws !! ActiveService bg with
      | None => inl destinations
      | Some active =>
          defaultFQDN <-! getDefaultFQDNFromRollout p (Some rollout);;
          inl (sort_destinations defaultFQDN (append_destinations defaultFQDN
                 [getRouteDestination (service_host (wsService active)) meshPort 0] destinations))
      end
  end.

(** The loop over the weighted services; [weight] survives from one turn to the next. *)
Fixpoint canary_loop (several : bool) (meshPort weight : Z) (services : list (string * WeightedService))
    : list RouteDestination :=
  match services with
  | [] => []
  | (serviceName, service) :: rest =>
      let weight := if (0 <? wsWeight service) && several then wsWeight service else weight in
      getRouteDestination (local_host serviceName (Namespace (SvcMeta (wsService service)))) meshPort weight
        :: canary_loop several meshPort weight rest
  end.

Definition populateDestinationsForCanaryStrategy (serviceInstance : ServiceObj)
    (weightedServices : option (gmap string WeightedService)) (rollout : RolloutObj) (canary : CanaryStrategy)
    (meshPort : Z) (destinations : destinations_of) : destinations_of + string :=
  let ws := default ∅ weightedServices in
  defaultFQDN <-! getDefaultFQDNFromRollout p (Some rollout);;
  canaryFQDN <-! getCanaryFQDNFromRollout p (Some rollout);;
  let rds := canary_loop (Nat.ltb 1 (size ws)) meshPort 0 (go_range 0 ws) in
  let destinations := if is_nil (head rds) then destinations else append_destinations defaultFQDN rds destinations in
  let destinations := sort_destinations defaultFQDN destinations in
  let host := local_host (CanaryService canary) (Namespace (SvcMeta serviceInstance)) in
  inl (append_destinations canaryFQDN [getRouteDestination host meshPort 0] destinations).

(** [isBlueGreenStrategy] and [IsCanaryIstioStrategy], with the strategy they find. *)
Definition blue_green (rollout : RolloutObj) : option BlueGreenStrategy := BlueGreen (RoStrategy rollout).
Definition canary_istio (rollout : RolloutObj) : option CanaryStrategy :=
  match Canary (RoStrategy rollout) with
  | Some c => match TrafficRouting c with
              | Some (Some _) => if is_empty (CanaryService c) then None else Some c
              | _ => None
              end
  | None => None
  end.

Definition populateVSRouteDestinationForRollout (serviceInstance : option (gmap string ServiceObj))
    (weightedServices : option (gmap string WeightedService)) (rollout : option RolloutObj) (meshPort : Z)
    (destinations : destinations_of) : destinations_of + string :=
  match serviceInstance with
  | None => inr "serviceInstance is nil"
  | Some services =>
      match services !! RolloutType, rollout with
      | None, _ => inr "service is not associated with a rollout"
      | Some _, None => inr "rollout is nil"
      | Some svc, Some r =>
          match blue_green r, canary_istio r with
          | Some bg, _ => populateDestinationsForBlueGreenStrategy weightedServices r bg meshPort destinations
          | None, Some c => populateDestinationsForCanaryStrategy svc weightedServices r c meshPort destinations
          | None, None =>
              defaultFQDN <-! getDefaultFQDNFromRollout p rollout;;
              inl (sort_destinations defaultFQDN (append_destinations defaultFQDN
                     [getRouteDestination (service_host svc) meshPort 0] destinations))
          end
      end
  end.

Definition getMeshHTTPPort (resourceType : string) (ports : option (gmap string (gmap string Z))) : Z + string :=
  match ports with
  | None => inr "ports map is nil"
  | Some ports =>
      if Nat.eqb (size ports) 0 then inr "ports map is empty"
      else match ports !! resourceType with
           | None => inr (resourceType +:+ " ports not found")
           | Some deploymentPorts =>
               match List.find (fun kv => 0 <? kv.2) (go_range 0 deploymentPorts) with
               | Some kv => inl kv.2
               | None => inr ("no valid port found for " +:+ resourceType)
               end
           end
  end.

Definition getMeshHTTPPortForRollout := getMeshHTTPPort RolloutType.
Definition getMeshHTTPPortForDeployment := getMeshHTTPPort DeploymentType.

Definition getAllVSRouteDestinationsByCluster (serviceInstance : option (gmap string ServiceObj))
    (meshDeployAndRolloutPorts : option (gmap string (gmap string Z)))
    (weightedServices : option (gmap string WeightedService)) (rollout : option RolloutObj)
    (deployment : option DeploymentObj) (resourceTypeBeingDeleted : string) : destinations_of + string :=
  match serviceInstance with
  | None => inr "serviceInstance is nil"
  | Some services =>
      destinations <-!
        (if negb (is_nil (services !! DeploymentType)) && negb (resourceTypeBeingDeleted =?s DeploymentType) then
           meshPort <-! getMeshHTTPPortForDeployment meshDeployAndRolloutPorts;;
           populateVSRouteDestinationForDeployment serviceInstance meshPort deployment ∅
         else inl ∅);;
      if negb (is_nil (services !! RolloutType)) && negb (resourceTypeBeingDeleted =?s RolloutType) then
        meshPort <-! getMeshHTTPPortForRollout meshDeployAndRolloutPorts;;
        populateVSRouteDestinationForRollout serviceInstance weightedServices rollout meshPort destinations
      else inl destinations
  end.
End Discovery.

(** ** Traffic policies *)

Section Policies.
Context {range : GoRange} (p : AdmiralParams).

(** [weights]: the last target of a region counts. *)
Definition target_weights (policy : TrafficPolicy) : gmap string Z :=
  foldl (fun m t => <[Region t := Weight t]> m) ∅ (tpTarget policy).

(** The loop over the copied destinations: those in the cluster keep the part of the
    policy, and a last one that leaves for [routeHost] is returned for the others. *)
Fixpoint split_with_remote (routeHost : string) (weightForLocality : Z) (rds : list RouteDestination)
    (remoteRD : option RouteDestination) : list RouteDestination * option RouteDestination :=
  match rds with
  | [] => ([], remoteRD)
  | rd :: rest =>
      let '(rd, remoteRD) :=
        if negb (has_suffix (rt_host rd) DotLocalDomainSuffix) then (rd, remoteRD)
        else if weightForLocality =? 100 then (rd, remoteRD)
        else
          let remote := getRouteDestination routeHost 80 (int32 (100 - weightForLocality)) in
          (rd <| rtWeight := if weightForLocality =? 0 then 0
                             else if negb (rtWeight rd =? 0) then weight_part (rtWeight rd) weightForLocality
                             else weightForLocality |>, Some remote) in
      let '(rest, remoteRD) := split_with_remote routeHost weightForLocality rest remoteRD in
      (rd :: rest, remoteRD)
  end.

(** The turn of the inner loop for a policy: the host and its destinations, if any. *)
Definition policy_destinations (env sourceClusterLocality : string) (updateWeights : bool) (globalFQDN : string)
    (routeDestinations : list RouteDestination) (policy : TrafficPolicy)
    : option (string * list RouteDestination) :=
  let weights := target_weights policy in
  let own := (tpDnsPrefix policy =?s Default) || (tpDnsPrefix policy =?s env) in
  if negb updateWeights && Nat.eqb (size weights) 0 && own then None
  else
    let routeHost := if own then globalFQDN else tpDnsPrefix policy +:+ Sep +:+ globalFQDN in
    let newRD := map DeepCopyInto routeDestinations in
    if bool_decide (tpLbType policy = TOPOLOGY) || negb updateWeights || Nat.eqb (size weights) 0
    then Some (routeHost, newRD)
    else
      let weightForLocality := default 0 (weights !! sourceClusterLocality) in
      let '(newRD, remoteRD) := split_with_remote routeHost weightForLocality newRD None in
      Some (routeHost, newRD ++ option_list remoteRD).

Definition add_policy (env sourceClusterLocality : string) (updateWeights : bool) (globalFQDN : string)
    (routeDestinations : list RouteDestination) (gtpDestinations : destinations_of) (policy : TrafficPolicy)
    : destinations_of :=
  match policy_destinations env sourceClusterLocality updateWeights globalFQDN routeDestinations policy with
  | Some (routeHost, newRD) => <[routeHost := newRD]> gtpDestinations
  | None => gtpDestinations
  end.

(** Neither the policy nor the map is nil; a missing list of destinations is empty. *)
Definition getDestinationsForGTPDNSPrefixes (globalTrafficPolicy : GlobalTrafficPolicy)
    (destinations : destinations_of) (env sourceClusterLocality : string) (updateWeights : bool) : destinations_of :=
  foldl (fun gtpDestinations '(globalFQDN, routeDestinations) =>
    if Nat.eqb (length routeDestinations) 0 || has_prefix globalFQDN BlueGreenRolloutPreviewPrefix
    then gtpDestinations
    else foldl (add_policy env sourceClusterLocality updateWeights globalFQDN routeDestinations) gtpDestinations
           (GtpPolicy globalTrafficPolicy))
    ∅ (go_range 0 destinations).

(** What a remote controller has cached: service entries by name, destination rules by
    name and namespace.  The controllers and caches themselves are not nil. *)
Record RcCaches := mkRcCaches {
  rcServiceEntries : gmap string ServiceEntryObj;
  rcDestinationRules : gmap (string * string) DestinationRuleObj
}.
#[export] Instance eta_RcCaches : Settable RcCaches := fun c =>
  mkRcCaches (rcServiceEntries c) (rcDestinationRules c).

(** [LocalityLbSetting.Distribute], when every pointer on the way is set; an empty one is
    nil. *)
Definition dr_distribution (dr : DestinationRuleObj) : option (list Distribute) :=
  tp ← drTrafficPolicy (DrSpec dr); lb ← drLoadBalancer tp;
  match lbLocality lb with Some (d :: ds) => Some (d :: ds) | _ => None end.

Definition failover_policy (sourceClusterLocality activeLocality : string) : GlobalTrafficPolicy :=
  mkGTP (mkMeta "" "" None None 0 "")
    [mkTrafficPolicy "" FAILOVER
       [mkTrafficGroup sourceClusterLocality 0; mkTrafficGroup activeLocality 100] Default None] None.

Definition doActivePassiveInClusterVS (rc : option RcCaches) (cname sourceCluster sourceClusterLocality : string)
    : GlobalTrafficPolicy + string :=
  match rc with
  | None => inr ("remotecontroller is nil for cluster " +:+ sourceCluster)
  | Some rc =>
      let seName := cname +:+ "-se" in
      let drName := cname +:+ "-default-dr" in
      match rcServiceEntries rc !! seName with
      | None => inr ("no se found in cache for seName " +:+ seName)
      | Some seFromCache =>
          if negb (isSEMultiRegion (Some (SeSpec seFromCache)))
          then inr ("skipped active passive for incluster as the SE is not multi-region " +:+ seName)
          else match rcDestinationRules rc !! (drName, GetSyncNamespace p) with
               | None => inr ("no dr found in cache for drName " +:+ drName)
               | Some drFromCache =>
                   match dr_distribution drFromCache with
                   | None => inr ("skipped active passive for incluster as the DR has no localityLBSetting " +:+ drName)
                   | Some [distribution] =>
                       match dTo distribution !! sourceClusterLocality with
                       | Some _ => inr ("the DR " +:+ drName +:+ " is pointing to the active cluster " +:+
                                        sourceClusterLocality +:+ " already")
                       | None =>
                           let activeLocality := List.last (go_range 0 (dTo distribution)).*1 "" in
                           if is_empty activeLocality
                           then inr ("current locality is empty for dr " +:+ drName)
                           else inl (failover_policy sourceClusterLocality activeLocality)
                       end
                   | Some _ => inr ("distribution on the DR " +:+ drName +:+ " has a traffic split")
                   end
               end
      end
  end.

(** [globalTrafficPolicy] is what the cache of the policies in use has. *)
Definition processGTPAndAddWeightsByCluster (rc : option RcCaches)
    (globalTrafficPolicy : option GlobalTrafficPolicy) (env sourceClusterLocality : string)
    (destinations : destinations_of) (updateWeights : bool) (cname sourceCluster : string) : destinations_of :=
  let policy :=
    if is_nil globalTrafficPolicy && updateWeights && EnableActivePassive p then
      match doActivePassiveInClusterVS rc cname sourceCluster sourceClusterLocality with
      | inl g => Some g
      | inr _ => None
      end
    else globalTrafficPolicy in
  let destinations :=
    match policy with
    | None => destinations
    | Some g => getDestinationsForGTPDNSPrefixes g destinations env sourceClusterLocality updateWeights ∪ destinations
    end in
  addWeightsToRouteDestinations destinations.
End Policies.

(** ** Virtual services *)

Section Generate.
Context {range : GoRange} {sorting : GoSort} (p : AdmiralParams).
(** [String] of the generated type [StringMatch]. *)
Context (StringMatch_String : StringMatch -> string).

Definition VSRoutingEnabledLabels : gmap string string := {[ VSRoutingLabel := "enabled" ]}.
Definition IstioSystemNamespace := "istio-system".

Definition getBaseInClusterVirtualService : VirtualServiceObj :=
  mkVirtualServiceObj
    (mkMeta "" IstioSystemNamespace (Some (<[VSRoutingType := VSRoutingTypeInCluster]> VSRoutingEnabledLabels))
       None 0 "")
    (mkVirtualService [] [] [] [] []).

Definition getBaseVirtualServiceForIngress : VirtualServiceObj + string :=
  match GetVSRoutingGateways p with
  | [] => inr "no gateways configured for ingress virtual service"
  | gateways =>
      inl (mkVirtualServiceObj (mkMeta "" IstioSystemNamespace (Some VSRoutingEnabledLabels) None 0 "")
             (mkVirtualService [] gateways [] [] (GetIngressVSExportToNamespace p)))
  end.

Definition authority_prefix (s : string) : HTTPMatchRequest := mkHTTPMatch (Some (MatchPrefix s)) "".

(** [s[:i] + mid + s[i+n:]]. *)
Definition splice (s mid : string) (i n : nat) : string :=
  String.substring 0 i s +:+ mid +:+ String.substring (i + n) (String.length s - (i + n)) s.

(** [None] is the panic on an empty identity. *)
Definition generateAuthorityMatches (globalFQDN sourceIdentity : string) : option (list HTTPMatchRequest) :=
  match String.index 0 (to_lower sourceIdentity) (to_lower globalFQDN) with
  | None => Some [authority_prefix globalFQDN]
  | Some idx =>
      match sourceIdentity with
      | EmptyString => None
      | String c rest =>
          let n := String.length sourceIdentity in
          let upperCase := to_upper (String c "") +:+ rest in
          let lowerCase := to_lower (String c "") +:+ rest in
          Some [authority_prefix (splice globalFQDN lowerCase idx n);
                authority_prefix (splice globalFQDN upperCase idx n)]
      end
  end.

Definition incluster_route (sourceIdentity : string) (d : string * list RouteDestination) : option HTTPRoute :=
  matches ← generateAuthorityMatches d.1 sourceIdentity;
  Some (mkHTTPRoute d.1 matches (map ToHTTPRouteDestination d.2) "").

(** The entries that have destinations. *)
Definition routed (destination : destinations_of) : list (string * list RouteDestination) :=
  List.filter (fun d => negb (Nat.eqb (length d.2) 0)) (go_range 0 destination).

(** [httpRoutes[i].Match[0].Authority.String()]. *)
Definition authority_key (r : HTTPRoute) : string :=
  match hrMatch r with
  | m :: _ => match hmAuthority m with Some a => StringMatch_String a | None => "" end
  | [] => ""
  end.

(** The hosts and the routes of [generateVirtualServiceForIncluster]; [None] is a panic. *)
Definition incluster_routes (destination : destinations_of) (sourceIdentity : string)
    : option (list string * list HTTPRoute + string) :=
  httpRoutes ← mapM (incluster_route sourceIdentity) (routed destination);
  let vsHosts := (routed destination).*1 in
  Some (match vsHosts with
        | [] => inr "skipped creating virtualservice as there are no valid hosts found"
        | _ => inl (sort_strings vsHosts, sort_slice (fun a b => str_ltb (authority_key a) (authority_key b)) httpRoutes)
        end).

Definition incluster_vs (vsName : string) (hosts : list string) (routes : list HTTPRoute) (exportTo : list string)
    : VirtualServiceObj :=
  let base := getBaseInClusterVirtualService in
  mkVirtualServiceObj (VsMeta base <| Name := vsName +:+ "-" +:+ InclusterVSNameSuffix |>)
    (VsSpec base <| vsHosts := hosts |> <| vsHttp := routes |> <| vsExportTo := exportTo |>).

Definition ingress_route (d : string * list RouteDestination) : option (string * TLSRoute) :=
  match generateSNIHost d.1 with
  | inl hostWithSNIPrefix =>
      Some (hostWithSNIPrefix,
            mkTLSRoute [mkTlsMatch DefaultMtlsPort [hostWithSNIPrefix]] (map ToTLSRouteDestination d.2))
  | inr _ => None
  end.

(** [tlsRoutes[i].Match[0].SniHosts[0]]. *)
Definition sni_key (r : TLSRoute) : string :=
  match trMatch r with m :: _ => List.hd "" (tmSniHosts m) | [] => "" end.

Definition generateVirtualServiceForIngress (destination : destinations_of) (vsName : string)
    : VirtualServiceObj + string :=
  virtualService <-! getBaseVirtualServiceForIngress;;
  let routes := omap ingress_route (routed destination) in
  match routes with
  | [] => inr "skipped creating virtualservice as there are no valid hosts found"
  | _ =>
      inl (mkVirtualServiceObj (VsMeta virtualService <| Name := vsName +:+ "-routing-vs" |>)
             (VsSpec virtualService <| vsHosts := sort_strings routes.*1 |>
               <| vsTls := sort_slice (fun a b => str_ltb (sni_key a) (sni_key b)) routes.*2 |>))
  end.

(** ** Reconciliation

    The compared specs are deep copies, in which an empty list is nil. *)

Definition route_host_less (a b : HTTPRouteDestination) : bool :=
  str_ltb (dstHost (rdDestination a)) (dstHost (rdDestination b)).
Definition tls_host_less (a b : TLSRouteDestination) : bool :=
  str_ltb (dstHost (tdDestination a)) (dstHost (tdDestination b)).
Definition HTTPRouteSorted_Less (a b : HTTPRoute) : bool := str_ltb (hrName a) (hrName b).

Definition sorted_http (routes : list HTTPRoute) : list HTTPRoute :=
  map (fun r => r <| hrRoute := sort_slice route_host_less (hrRoute r) |>) (sort_slice HTTPRouteSorted_Less routes).

Definition httpRoutesComparator (vs1Spec vs2Spec : VirtualService) : bool * error :=
  match vsHttp vs1Spec, vsHttp vs2Spec with
  | [], _ => (false, Some "vs1.Spec.Http is nil")
  | _, [] => (false, Some "vs2.Spec.Http is nil")
  | _, _ => (bool_decide (sorted_http (vsHttp vs1Spec) = sorted_http (vsHttp vs2Spec)), None)
  end.

Definition sorted_tls (routes : list TLSRoute) : list TLSRoute :=
  map (fun r => r <| trRoute := sort_slice tls_host_less (trRoute r) |>) routes.

Definition tlsRoutesComparator (vs1Spec vs2Spec : VirtualService) : bool * error :=
  match vsTls vs1Spec, vsTls vs2Spec with
  | [], _ => (false, Some "vs1.Spec.Tls is nil")
  | _, [] => (false, Some "vs2.Spec.Tls is nil")
  | _, _ => (bool_decide (sorted_tls (vsTls vs1Spec) = sorted_tls (vsTls vs2Spec)), None)
  end.

Definition same_strings (a b : list string) : bool := bool_decide (sort_strings a = sort_strings b).

Definition doReconcileVirtualService (rc : option RcRouting) (desired : VirtualServiceObj)
    (doRoutesMatch : VirtualService -> VirtualService -> bool * error) : bool * error :=
  match rc with
  | None => (true, Some "remoteController is nil")
  | Some rc =>
      match VirtualServiceController rc with
      | None => (true, Some "virtualService controller is nil")
      | Some vc =>
          match VirtualServiceCache vc with
          | None => (true, Some "virtualServiceCache is nil")
          | Some cache =>
              match cache !! Name (VsMeta desired) with
              | None => (true, None)
              | Some cachedVS =>
                  let cached := VsSpec cachedVS in
                  let desired := VsSpec desired in
                  if negb (same_strings (vsExportTo cached) (vsExportTo desired)) then (true, None)
                  else if negb (same_strings (vsHosts cached) (vsHosts desired)) then (true, None)
                  else
                    match doRoutesMatch cached desired with
                    | (_, Some err) => (true, Some err)
                    | (false, None) => (true, None)
                    | (true, None) =>
                        if negb (is_nil (head (vsGateways desired))) &&
                           negb (same_strings (vsGateways cached) (vsGateways desired)) then (true, None)
                        else (false, None)
                    end
              end
          end
      end
  end.
End Generate.

(** ** The merge with a custom virtual service *)

Definition mergeHosts (hosts1 hosts2 : list string) : list string :=
  hosts1 ++ foldl (fun merged host => if str_in host hosts1 || str_in host merged then merged else merged ++ [host])
              [] hosts2.

Definition getHostsDiff (inclusterHosts customVSHosts : list string) : gmap string bool :=
  foldl (fun result host => if str_in host customVSHosts then result else <[host := true]> result) ∅ inclusterHosts.

(** [m[k]] of a [map[string]bool]. *)
Definition flag (m : gmap string bool) (k : string) : bool := default false (m !! k).

Definition sortVSRoutes (customVSRoutes inclusterVSRoutes : list HTTPRoute)
    (hostsNotInCustomVS : gmap string bool) : list HTTPRoute :=
  let nonDefaultRoutes := List.filter (fun r => flag hostsNotInCustomVS (hrName r)) inclusterVSRoutes in
  let defaultRoutes := List.filter (fun r => negb (flag hostsNotInCustomVS (hrName r))) inclusterVSRoutes in
  let customVSRouteNames := map hrName customVSRoutes in
  let deduplicatedDefaultRoutes := List.filter (fun r => negb (str_in (hrName r) customVSRouteNames)) defaultRoutes in
  nonDefaultRoutes ++ customVSRoutes ++ deduplicatedDefaultRoutes.

(** The list is not nil. *)
Definition adjustWeights (routeDestinations : list HTTPRouteDestination) (weight : Z) : list HTTPRouteDestination :=
  match routeDestinations with
  | [rd] => [rd <| rdWeight := weight |>]
  | _ => map (fun rd => rd <| rdWeight := weight_part (rdWeight rd) weight |>) routeDestinations
  end.

(** [hostRoutes] is [HostToRouteDestinationCache] of the cluster.  A route without
    destinations has a nil list. *)
Definition modify_destination (inclusterVSRoutes : list HTTPRoute)
    (hostRoutes : gmap string (list HTTPRouteDestination)) (routeDestination : HTTPRouteDestination)
    : list HTTPRouteDestination :=
  let inClusterRouteLookup : gmap string (list HTTPRouteDestination) :=
    foldl (fun m r => <[hrName r := hrRoute r]> m) ∅ inclusterVSRoutes in
  let host := dstHost (rdDestination routeDestination) in
  let rd := match inClusterRouteLookup !! host with
            | Some rd => rd
            | None => default [] (hostRoutes !! host)
            end in
  match rd with
  | [] => [routeDestination]
  | _ => if rdWeight routeDestination =? 0 then rd else adjustWeights rd (rdWeight routeDestination)
  end.

Definition modifyCustomVSHTTPRoutes (customVSRoutes inclusterVSRoutes : list HTTPRoute)
    (hostRoutes : gmap string (list HTTPRouteDestination)) : list HTTPRoute + string :=
  match customVSRoutes, inclusterVSRoutes with
  | [], _ => inr "custom VS HTTPRoutes is nil"
  | _, [] => inr "incluster VS HTTPRoutes is nil"
  | _, _ =>
      inl (map (fun r => r <| hrRoute := flat_map (modify_destination inclusterVSRoutes hostRoutes) (hrRoute r) |>)
             customVSRoutes)
  end.

(** Neither virtual service nor the remote controller is nil. *)
Definition mergeVS (customVS inclusterVS : VirtualServiceObj) (hostRoutes : gmap string (list HTTPRouteDestination))
    : VirtualServiceObj + string :=
  let custom := VsSpec customVS in
  let incluster := VsSpec inclusterVS in
  modified <-! modifyCustomVSHTTPRoutes (vsHttp custom) (vsHttp incluster) hostRoutes;;
  let hostDiff := getHostsDiff (vsHosts incluster) (vsHosts custom) in
  inl (inclusterVS <| VsSpec := incluster
         <| vsHttp := sortVSRoutes modified (vsHttp incluster) hostDiff |>
         <| vsHosts := mergeHosts (vsHosts custom) (vsHosts incluster) |> |>).

(** ** Weights: lemmas *)

Definition zsum (l : list Z) : Z := foldr Z.add 0 l.

Lemma zsum_app l1 l2 : zsum (l1 ++ l2) = zsum l1 + zsum l2.
Proof. unfold zsum. induction l1 as [|x l1 IH]; simpl; [done|]. rewrite IH. lia. Qed.

Lemma zsum_nonneg l : Forall (fun w => 0 <= w) l -> 0 <= zsum l.
Proof. induction 1; simpl; lia. Qed.

Lemma split_loop_spec n base r :
  0 <= r -> length (split_loop n base r) = n /\
  zsum (split_loop n base r) = Z.of_nat n * base + Z.min (Z.of_nat n) r /\
  Forall (fun w => w = base \/ w = base + 1) (split_loop n base r).
Proof.
  revert r. induction n as [|n IH]; intros r Hr; simpl split_loop.
  - split_and!; [done|simpl; lia|constructor].
  - destruct (Z.ltb_spec 0 r); [destruct (IH (r - 1)) as (H1 & H2 & H3)|destruct (IH r) as (H1 & H2 & H3)]; try lia;
      (split_and!; [by simpl; rewrite H1|simpl; lia|constructor; [lia|done]]).
Qed.

(** [getWeightSplits] is an even split of 100. *)
Lemma weight_splits_spec n :
  (0 < n)%nat -> length (getWeightSplits n) = n /\ zsum (getWeightSplits n) = 100 /\
  Forall (fun w => w = 100 / Z.of_nat n \/ w = 100 / Z.of_nat n + 1) (getWeightSplits n).
Proof.
  intros Hn. unfold getWeightSplits. destruct (Nat.eqb_spec n 0) as [|_]; [lia|].
  pose proof (Z.mod_pos_bound 100 (Z.of_nat n)) as Hb.
  destruct (split_loop_spec n (100 / Z.of_nat n) (100 mod Z.of_nat n)) as (H1 & H2 & H3); [lia|].
  split_and!; [done| |done]. rewrite H2, Z.min_r by lia. symmetry. apply Z.div_mod. lia.
Qed.

Lemma int32_small z : - 2 ^ 31 <= z < 2 ^ 31 -> int32 z = z.
Proof. intros Hz. unfold int32. rewrite Z.mod_small by lia. lia. Qed.

Lemma total_weight_from rds acc :
  Forall (fun rd => 0 <= rtWeight rd) rds -> 0 <= acc -> acc + zsum (map rtWeight rds) < 2 ^ 31 ->
  foldl (fun total rd => int32 (total + rtWeight rd)) acc rds = acc + zsum (map rtWeight rds).
Proof.
  intros Hn. revert acc. induction Hn as [|rd rds Hrd Hn IH]; intros acc Ha Hs; simpl in *; [lia|].
  assert (0 <= zsum (map rtWeight rds)) by (apply zsum_nonneg, Forall_map; done).
  rewrite int32_small, IH by lia. lia.
Qed.

Lemma total_rt_weight_sum rds :
  Forall (fun rd => 0 <= rtWeight rd) rds -> zsum (map rtWeight rds) < 2 ^ 31 ->
  total_rt_weight rds = zsum (map rtWeight rds).
Proof. intros Hn Hs. by apply (total_weight_from rds 0). Qed.

Lemma set_weights_spec rds ws :
  length ws = length rds -> map rtWeight (set_weights rds ws) = ws /\
  map rtDestination (set_weights rds ws) = map rtDestination rds.
Proof.
  revert ws. unfold set_weights. induction rds as [|rd rds IH]; intros [|w ws] H; try done.
  simpl in *. destruct (IH ws) as [H1 H2]; [lia|]. by rewrite H1, H2.
Qed.

(** The percentages, and the bounds of a part, checked for each of them. *)
Definition percentages : list Z := map Z.of_nat (seq 0 101).
Definition part_ok (a w : Z) : bool :=
  let r := weight_part a w in (0 <=? r) && (100 * r <=? a * w) && (a * w - 199 <=? 100 * r).

Lemma percentages_ok : forallb (fun a => forallb (part_ok a) percentages) percentages = true.
Proof. vm_cast_no_check (eq_refl true). Qed.

Lemma percentages_elem z : 0 <= z <= 100 -> In z percentages.
Proof. intros Hz. apply in_map_iff. exists (Z.to_nat z). rewrite in_seq. lia. Qed.

(** A destination's part of a percentage: rounded down, or one less. *)
Lemma weight_part_bounds a w :
  0 <= a <= 100 -> 0 <= w <= 100 ->
  0 <= weight_part a w /\ 100 * weight_part a w <= a * w /\ a * w - 199 <= 100 * weight_part a w.
Proof.
  intros Ha Hw. pose proof percentages_ok as H. rewrite forallb_forall in H.
  specialize (H a (percentages_elem a Ha)). rewrite forallb_forall in H.
  specialize (H w (percentages_elem w Hw)). unfold part_ok in H.
  rewrite !andb_true_iff, !Z.leb_le in H. tauto.
Qed.

(** In single precision, 53, 59 and 84 percent lose one more percent than the rounding
    asks for. *)
Lemma weight_part_loses : weight_part 53 100 = 52 /\ weight_part 59 100 = 58 /\ weight_part 84 75 = 62.
Proof. by vm_compute. Qed.

(** The parts of weights that add up to 100. *)
Lemma weight_parts_total ws w :
  Forall (fun a => 0 <= a <= 100) ws -> 0 <= w <= 100 ->
  100 * zsum (map (fun a => weight_part a w) ws) <= zsum ws * w /\
  zsum ws * w - 199 * Z.of_nat (length ws) <= 100 * zsum (map (fun a => weight_part a w) ws).
Proof.
  intros Hws Hw. induction Hws as [|a ws Ha _ IH]; simpl; [lia|].
  pose proof (weight_part_bounds a w Ha Hw) as (_ & H1 & H2). unfold zsum in *. lia.
Qed.

(** C35: The weights of the routes.  [addWeightsToRouteDestinations] keeps the hosts and
    their destinations; a host with several destinations whose weights were all zero gets
    weights that add up to 100 and differ by at most one, and every other host keeps its
    weights. *)
Theorem route_weights_add_up (destinations : destinations_of) (host : string) (rds : list RouteDestination) :
  destinations !! host = Some rds ->
  Forall (fun rd => 0 <= rtWeight rd) rds -> zsum (map rtWeight rds) < 2 ^ 31 ->
  exists rds', addWeightsToRouteDestinations destinations !! host = Some rds' /\
    map rtDestination rds' = map rtDestination rds /\
    ((1 < length rds)%nat /\ zsum (map rtWeight rds) = 0 ->
       zsum (map rtWeight rds') = 100 /\
       Forall (fun w => w = 100 / Z.of_nat (length rds) \/ w = 100 / Z.of_nat (length rds) + 1) (map rtWeight rds')) /\
    (~ ((1 < length rds)%nat /\ zsum (map rtWeight rds) = 0) -> rds' = rds).
Proof.
  intros Hl Hn Hs. exists (add_weights rds). unfold addWeightsToRouteDestinations. rewrite lookup_fmap, Hl.
  split; [done|]. pose proof (zsum_nonneg _ (proj2 (Forall_map _ _ _) Hn)) as H0.
  unfold add_weights. rewrite total_rt_weight_sum by done.
  destruct (Nat.ltb_spec 1 (length rds)) as [H1|H1]; [|split_and!; [done|lia|done]].
  destruct (Z.ltb_spec 0 (zsum (map rtWeight rds))) as [H2|H2].
  { rewrite orb_true_r. split_and!; [done|lia|done]. }
  destruct (Z.eqb_spec (zsum (map rtWeight rds)) 100) as [|_]; [lia|]. simpl.
  destruct (weight_splits_spec (length rds)) as (E1 & E2 & E3); [lia|].
  destruct (set_weights_spec rds _ E1) as [W1 W2]. split_and!; [done|by rewrite W1|].
  intros Hc. destruct Hc. lia.
Qed.

Section Split.
Context (routeHost : string) (w : Z).

(** A destination in the cluster after a split with [0 < w < 100]. *)
Definition split_weight (a : Z) : Z := if negb (a =? 0) then weight_part a w else w.

Lemma split_with_remote_spec rds remote :
  Forall (fun rd => has_suffix (rt_host rd) DotLocalDomainSuffix = true) rds ->
  exists locals, split_with_remote routeHost w rds remote =
      (locals, if (w =? 100) || Nat.eqb (length rds) 0 then remote
               else Some (getRouteDestination routeHost 80 (int32 (100 - w)))) /\
    map rtDestination locals = map rtDestination rds /\
    map rtWeight locals = (if w =? 100 then map rtWeight rds
                           else if w =? 0 then map (fun _ => 0) rds
                           else map split_weight (map rtWeight rds)).
Proof.
  intros Hl. revert remote. induction Hl as [|rd rds Hrd _ IH]; intros remote; cbn [split_with_remote].
  { exists []. rewrite orb_true_r. by repeat case_match. }
  rewrite Hrd. cbn [negb].
  destruct (w =? 100) eqn:E1.
  - destruct (IH remote) as (ls & -> & H1 & H2). exists (rd :: ls). by rewrite !map_cons, H1, H2.
  - destruct (IH (Some (getRouteDestination routeHost 80 (int32 (100 - w))))) as (ls & -> & H1 & H2).
    eexists. split; [by destruct (Nat.eqb _ _)|]. rewrite !map_cons, H1, H2. split; [done|].
    unfold split_weight. simpl. by destruct (w =? 0).
Qed.
End Split.


(** Two destinations without weights, those of a deployment and a rollout with the same
    host name, get the part of the policy each: the weights add up to 160. *)
Lemma unweighted_destinations_overshoot :
  let rds := [getRouteDestination "dep.ns.svc.cluster.local" 80 0; getRouteDestination "ro.ns.svc.cluster.local" 80 0] in
  let policy := mkTrafficPolicy "" FAILOVER [mkTrafficGroup "us-west-2" 60; mkTrafficGroup "us-east-2" 40] Default None in
  option_map (fun d => map rtWeight d.2) (policy_destinations "e2e" "us-west-2" true "e2e.foo.mesh" rds policy)
    = Some [60; 60; 40].
Proof. reflexivity. Qed.

(** ** The generated virtual services *)

Lemma List_filter_perm {A} (f : A -> bool) l1 l2 : l1 ≡ₚ l2 -> List.filter f l1 ≡ₚ List.filter f l2.
Proof.
  induction 1; simpl; [done|case_match; by rewrite ?IHPermutation| |by etrans].
  repeat case_match; try done. apply perm_swap.
Qed.

Lemma substring_app s i n : String.substring 0 i s +:+ String.substring i n s = String.substring 0 (i + n) s.
Proof.
  revert i. induction s as [|c s IH]; intros [|i]; simpl; [by destruct n|done|done|]. by rewrite IH.
Qed.

Lemma substring_all s n : (String.length s <= n)%nat -> String.substring 0 n s = s.
Proof.
  revert n. induction s as [|c s IH]; intros [|n] H; simpl in *; [done|done|lia|]. rewrite IH by lia. done.
Qed.

Lemma to_lower_substring s i n : to_lower (String.substring i n s) = String.substring i n (to_lower s).
Proof.
  revert i n. induction s as [|c s IH]; intros [|i] [|n]; simpl; try done; by rewrite IH.
Qed.

(** Exchanging an occurrence of the identity for a different spelling of it. *)
Lemma splice_to_lower f mid id idx :
  String.index 0 (to_lower id) (to_lower f) = Some idx -> to_lower mid = to_lower id ->
  to_lower (splice f mid idx (String.length id)) = to_lower f.
Proof.
  intros Hi Hm. apply String.index_correct1 in Hi. rewrite length_to_lower in Hi.
  unfold splice. rewrite !to_lower_app, !to_lower_substring, Hm, <- Hi, <- sapp_assoc, substring_app, substring_app.
  rewrite <- (length_to_lower f). apply substring_all. lia.
Qed.

Lemma ascii_lower_upper c : ascii_lower (ascii_upper c) = ascii_lower c.
Proof. by destruct c as [[] [] [] [] [] [] [] []]. Qed.

(** Every authority that a route matches is the host name, up to the case of letters. *)
Lemma authority_matches_spec f id :
  id <> "" -> exists ms, generateAuthorityMatches f id = Some ms /\ ms <> [] /\
    forall m, m ∈ ms -> exists a, hmAuthority m = Some (MatchPrefix a) /\ to_lower a = to_lower f.
Proof.
  intros Hid. unfold generateAuthorityMatches.
  destruct (String.index 0 (to_lower id) (to_lower f)) as [idx|] eqn:E.
  - destruct id as [|c rest]; [done|]. eexists. split_and!; [done|done|].
    intros m Hm. rewrite !elem_of_cons, elem_of_nil in Hm.
    destruct Hm as [->|[->|[]]]; eexists; (split; [done|]); apply splice_to_lower; try done;
      simpl; by rewrite ?ascii_lower_idem, ?ascii_lower_upper.
  - eexists. split_and!; [done|done|]. intros m ->%list_elem_of_singleton. by eexists.
Qed.

Lemma incluster_route_total id d : id <> "" -> exists r, incluster_route id d = Some r.
Proof.
  intros Hid. unfold incluster_route. destruct (authority_matches_spec d.1 id Hid) as (ms & -> & _). by eexists.
Qed.

Lemma routes_mapM id ds :
  id <> "" -> exists rs, mapM (incluster_route id) ds = Some rs /\
    Forall2 (fun d r => incluster_route id d = Some r) ds rs.
Proof.
  intros Hid. induction ds as [|d ds (rs & IH & HF)]; [by exists []|].
  destruct (incluster_route_total id d Hid) as (r & Hr). exists (r :: rs). simpl. rewrite Hr. simpl. rewrite IH.
  split; [done|by constructor].
Qed.

Lemma routed_elem {range : GoRange} (m : destinations_of) k rds :
  (k, rds) ∈ routed m <-> m !! k = Some rds /\ rds <> [].
Proof.
  unfold routed. rewrite list_elem_of_In, filter_In, <- list_elem_of_In, go_range_elem. simpl.
  destruct rds; simpl; intuition congruence.
Qed.

Lemma routed_perm (r1 r2 : GoRange) (m : destinations_of) : @routed r1 m ≡ₚ @routed r2 m.
Proof. apply List_filter_perm. by rewrite !go_range_perm. Qed.

Lemma routed_keys_NoDup {range : GoRange} (m : destinations_of) : NoDup (routed m).*1.
Proof.
  unfold routed. pose proof (go_range_fst_NoDup 0 m) as Hn. revert Hn. generalize (go_range 0 m) as l.
  induction l as [|[k rds] l IH]; [done|]. cbn [fmap list_fmap fst List.filter]. rewrite NoDup_cons. intros [Hk Hn].
  destruct (negb _); [|by apply IH]. cbn. apply NoDup_cons. split; [|by apply IH].
  intros Hin. apply Hk. apply list_elem_of_fmap in Hin as ([k' rds'] & -> & Hin). apply list_elem_of_fmap.
  eexists. split; [done|]. rewrite list_elem_of_In, filter_In, <- list_elem_of_In in Hin. apply Hin.
Qed.

Lemma routes_omap id ds rs :
  Forall2 (fun d r => incluster_route id d = Some r) ds rs -> rs = omap (incluster_route id) ds.
Proof. induction 1 as [|d r ds rs Hr _ IH]; [done|]. simpl. by rewrite Hr, IH. Qed.

Section Incluster.
Context (StringMatch_String : StringMatch -> string).
(** The printed form of a prefix determines the prefix. *)
Context (string_inj : forall a b, StringMatch_String (MatchPrefix a) = StringMatch_String (MatchPrefix b) -> a = b).

Lemma incluster_route_spec id d :
  id <> "" -> exists r, incluster_route id d = Some r /\ hrName r = d.1 /\
    hrRoute r = map ToHTTPRouteDestination d.2 /\
    exists a, authority_key StringMatch_String r = StringMatch_String (MatchPrefix a) /\ to_lower a = to_lower d.1.
Proof.
  intros Hid. unfold incluster_route. destruct (authority_matches_spec d.1 id Hid) as (ms & -> & Hne & Hms).
  eexists. split_and!; [done|done|done|]. destruct ms as [|m ms]; [done|].
  destruct (Hms m) as (a & Ha & Hl); [by left|]. exists a. unfold authority_key. simpl. by rewrite Ha.
Qed.

Lemma authority_keys_NoDup id ds rs :
  id <> "" -> NoDup ds.*1 -> Forall (fun d => to_lower d.1 = d.1) ds ->
  Forall2 (fun d r => incluster_route id d = Some r) ds rs ->
  NoDup (authority_key StringMatch_String <$> rs).
Proof using string_inj.
  intros Hid Hn Hlow HF. revert Hn Hlow. induction HF as [|d r ds rs Hr HF IH]; intros Hn Hlow; [constructor|].
  cbn in Hn. cbn [fmap list_fmap]. apply NoDup_cons in Hn as [Hd Hn]. apply Forall_cons in Hlow as [Hld Hlow].
  apply NoDup_cons. split; [|by apply IH]. intros Hin. apply Hd.
  apply list_elem_of_fmap in Hin as (r' & Hk & Hin).
  apply list_elem_of_lookup in Hin as [i Hi]. destruct (Forall2_lookup_r _ _ _ _ _ HF Hi) as (d' & Hd' & Hr').
  destruct (incluster_route_spec id d Hid) as (r1 & E1 & _ & _ & a & Ha & Hla).
  destruct (incluster_route_spec id d' Hid) as (r2 & E2 & _ & _ & b & Hb & Hlb).
  simplify_eq. rewrite Ha, Hb in Hk. apply string_inj in Hk as ->.
  apply list_elem_of_lookup_2 in Hd'. rewrite Forall_forall in Hlow. specialize (Hlow _ Hd').
  apply list_elem_of_fmap. exists d'. split; [congruence|done].
Qed.

(** C20: The virtual service for the clients in a cluster.  Its hosts are exactly the host
    names that have destinations, sorted and without repetition, and each has one route,
    of its name, to exactly these destinations; the result depends neither on the
    iteration order of the map nor on the sort, so a reconciliation with the same
    destinations compares equal things. *)
Theorem incluster_routes_spec (range : GoRange) (sorting : GoSort) (id : string) (destination : destinations_of) :
  id <> "" -> (forall k rds, destination !! k = Some rds -> to_lower k = k) ->
  (forall range' sorting', @incluster_routes range' sorting' StringMatch_String destination id =
                           @incluster_routes range sorting StringMatch_String destination id) /\
  exists result, @incluster_routes range sorting StringMatch_String destination id = Some result /\
    match result with
    | inr _ => forall k rds, destination !! k = Some rds -> rds = []
    | inl (hosts, routes) =>
        sorted_by str_ltb hosts /\ NoDup hosts /\
        (forall k, k ∈ hosts <-> exists rds, destination !! k = Some rds /\ rds <> []) /\
        map hrName routes ≡ₚ hosts /\
        forall r, r ∈ routes -> exists rds, destination !! hrName r = Some rds /\
          hrRoute r = map ToHTTPRouteDestination rds
    end.
Proof using string_inj.
  intros Hid Hlow. unfold incluster_routes.
  assert (forall rg : GoRange, Forall (fun d => to_lower d.1 = d.1) (@routed rg destination)) as Hl.
  { intros rg. apply Forall_forall. intros [k rds] [Hk _]%routed_elem. by eapply Hlow. }
  destruct (routes_mapM id (@routed range destination) Hid) as (rs & E & HF). pose proof (routes_omap _ _ _ HF) as Hrs.
  split.
  { intros range' sorting'. rewrite E.
    destruct (routes_mapM id (@routed range' destination) Hid) as (rs' & -> & HF').
    pose proof (routes_omap _ _ _ HF') as Hrs'. pose proof (routed_perm range' range destination) as Hp. simpl.
    rewrite (sort_strings_congr _ _ (fmap_Permutation fst _ _ Hp)).
    rewrite (sort_by_key_unique (authority_key StringMatch_String) sorting' sorting rs' rs).
    - pose proof (fmap_Permutation fst _ _ Hp) as Hk. revert Hk.
      destruct ((@routed range' destination).*1), ((@routed range destination).*1); intros Hk; try done;
        exfalso; [by apply Permutation_nil_l in Hk|by apply Permutation_nil_r in Hk].
    - by eapply authority_keys_NoDup; [|apply routed_keys_NoDup| |].
    - by rewrite Hrs, Hrs', Hp. }
  rewrite E. simpl. eexists. split; [done|].
  assert (map hrName rs = (routed destination).*1) as Hnames.
  { clear Hrs E. induction HF as [|d r ds rs Hr _ IH]; [done|].
    destruct (incluster_route_spec id d Hid) as (r' & Hr' & Hn & _). simplify_eq.
    cbn. by rewrite IH, Hn. }
  destruct ((routed destination).*1) as [|h hs] eqn:Eh.
  { intros k rds Hk. destruct (decide (rds = [])) as [|Hne]; [done|].
    assert (k ∈ (routed destination).*1) as Hin.
    { apply list_elem_of_fmap. exists (k, rds). split; [done|]. by apply routed_elem. }
    rewrite Eh in Hin. by apply elem_of_nil in Hin. }
  rewrite <- Eh in *. clear Eh. split_and!.
  - apply sort_strings_sorted.
  - rewrite sort_strings_perm. apply routed_keys_NoDup.
  - intros k. rewrite sort_strings_perm, list_elem_of_fmap. split.
    + intros ([k' rds] & -> & Hin). exists rds. by apply routed_elem in Hin.
    + intros (rds & H). exists (k, rds). split; [done|]. by apply routed_elem.
  - rewrite sort_strings_perm, <- Hnames. apply fmap_Permutation, sort_slice_perm.
  - intros r. rewrite sort_slice_perm. intros [i Hi]%list_elem_of_lookup.
    destruct (Forall2_lookup_r _ _ _ _ _ HF Hi) as ([k rds] & Hd & Hr).
    destruct (incluster_route_spec id (k, rds) Hid) as (r' & Hr' & Hn & Hro & _). simplify_eq.
    exists rds. apply list_elem_of_lookup_2, routed_elem in Hd as [Hd _]. simpl in *. by rewrite Hn.
Qed.
End Incluster.

(** ** Reconciliation and merge: theorems *)

(** The same route, up to the order of its destinations. *)
Definition same_route (a b : HTTPRoute) : Prop :=
  hrName a = hrName b /\ hrMatch a = hrMatch b /\ hrOther a = hrOther b /\ hrRoute a ≡ₚ hrRoute b.

Lemma same_strings_spec a b : same_strings a b = true <-> a ≡ₚ b.
Proof.
  unfold same_strings. rewrite bool_decide_eq_true. split; [|apply sort_strings_congr].
  intros H. by rewrite <- (sort_strings_perm a), H, sort_strings_perm.
Qed.

Section Reconcile.
Context {sorting : GoSort}.

Lemma sorted_http_same l1 l2 :
  sorted_http l1 = sorted_http l2 ->
  Forall2 same_route (sort_slice HTTPRouteSorted_Less l1) (sort_slice HTTPRouteSorted_Less l2).
Proof.
  unfold sorted_http. generalize (sort_slice HTTPRouteSorted_Less l1) (sort_slice HTTPRouteSorted_Less l2).
  induction l as [|a l IH]; intros [|b l']; simpl; intros H; [constructor|done|done|].
  injection H as H1 H2 H3 H4 H5. constructor; [|by apply IH]. split_and!; [done..|].
  by rewrite <- (sort_slice_perm _ route_host_less (hrRoute a)), H3, sort_slice_perm.
Qed.

(** Reconciliation of a virtual service for the clients.  It is not written again
    only when the cached one of its name has the same exportTo and hosts, and gateways if
    it has some, and the same routes, all up to order; and it is not written again when
    the cached one is equal to it. *)
Theorem vs_reconcile_sound (rc : RcRouting) (vc : VsController) (cache : gmap string VirtualServiceObj)
    (desired : VirtualServiceObj) :
  VirtualServiceController rc = Some vc -> VirtualServiceCache vc = Some cache ->
  let result := doReconcileVirtualService (Some rc) desired httpRoutesComparator in
  (result.1 = false -> exists cached, cache !! Name (VsMeta desired) = Some cached /\
     vsExportTo (VsSpec cached) ≡ₚ vsExportTo (VsSpec desired) /\
     vsHosts (VsSpec cached) ≡ₚ vsHosts (VsSpec desired) /\
     (vsGateways (VsSpec desired) <> [] -> vsGateways (VsSpec cached) ≡ₚ vsGateways (VsSpec desired)) /\
     exists l1 l2, l1 ≡ₚ vsHttp (VsSpec cached) /\ l2 ≡ₚ vsHttp (VsSpec desired) /\ Forall2 same_route l1 l2) /\
  (forall cached, cache !! Name (VsMeta desired) = Some cached -> VsSpec cached = VsSpec desired ->
     vsHttp (VsSpec desired) <> [] -> result = (false, None)).
Proof.
  intros Hvc Hc. cbv zeta. unfold doReconcileVirtualService. rewrite Hvc, Hc.
  destruct (cache !! Name (VsMeta desired)) as [cached|]; [|split; [done|by intros]]. split.
  - intros H. exists cached. split; [done|].
    destruct (same_strings (vsExportTo _) _) eqn:E1; [|done].
    destruct (same_strings (vsHosts _) _) eqn:E2; [|done].
    rewrite same_strings_spec in E1, E2. simpl in H. unfold httpRoutesComparator in H.
    destruct (vsHttp (VsSpec cached)) eqn:H1; [done|]. destruct (vsHttp (VsSpec desired)) eqn:H2; [done|].
    rewrite <- H1, <- H2 in *. destruct (bool_decide _) eqn:E3; [|done].
    apply bool_decide_eq_true, sorted_http_same in E3. split_and!; [done|done| |].
    + intros Hg. destruct (vsGateways (VsSpec desired)) eqn:E4; [done|]. rewrite <- E4 in *.
      destruct (same_strings (vsGateways _) _) eqn:E5; [by apply same_strings_spec|].
      rewrite E4 in H. done.
    + eexists _, _. split_and!; [apply sort_slice_perm..|done].
  - intros c [= <-] Hs Hh. rewrite Hs.
    rewrite !(proj2 (same_strings_spec _ _)) by done. simpl. unfold httpRoutesComparator.
    destruct (vsHttp (VsSpec desired)); [done|]. rewrite bool_decide_true by done. by rewrite andb_false_r.
Qed.
End Reconcile.

(** The routes of a merged virtual service are matched in order, but their order is not
    compared: a cached one with another order is taken for the desired one. *)
Lemma route_order_not_reconciled :
  let route n := mkHTTPRoute n [authority_prefix "x"] [] "" in
  let vs routes := mkVirtualServiceObj (mkMeta "vs" "" None None 0 "") (mkVirtualService ["h"] [] routes [] []) in
  doReconcileVirtualService
    (Some (mkRcRouting (Some (mkVsController None (Some {[ "vs" := vs [route "a"; route "b"] ]}))) None))
    (vs [route "b"; route "a"]) httpRoutesComparator = (false, None).
Proof. by vm_compute. Qed.

Lemma merge_hosts_elem h1 h2 h : h ∈ mergeHosts h1 h2 <-> h ∈ h1 \/ h ∈ h2.
Proof.
  unfold mergeHosts. rewrite elem_of_app.
  assert (forall acc, h ∈ h1 \/ h ∈ foldl (fun merged host =>
      if str_in host h1 || str_in host merged then merged else merged ++ [host]) acc h2
    <-> h ∈ h1 \/ h ∈ acc \/ h ∈ h2) as H; [|rewrite H; set_solver].
  induction h2 as [|x h2 IH]; intros acc; simpl; [set_solver|]. rewrite IH.
  destruct (str_in x h1) eqn:E1; [apply str_in_spec in E1; set_solver|].
  destruct (str_in x acc) eqn:E2; simpl; [apply str_in_spec in E2; set_solver|]. set_solver.
Qed.

Lemma merge_hosts_NoDup h1 h2 : NoDup h1 -> NoDup (mergeHosts h1 h2).
Proof.
  intros Hn. unfold mergeHosts.
  assert (forall acc, NoDup (h1 ++ acc) -> NoDup (h1 ++ foldl (fun merged host =>
      if str_in host h1 || str_in host merged then merged else merged ++ [host]) acc h2)) as H;
    [|apply H; by rewrite app_nil_r].
  induction h2 as [|x h2 IH]; intros acc Ha; simpl; [done|].
  apply IH. destruct (str_in x h1) eqn:E1; [done|]. destruct (str_in x acc) eqn:E2; [done|]. simpl.
  rewrite app_assoc. apply NoDup_app. rewrite str_in_false in E1, E2. split_and!; [done| |apply NoDup_singleton].
  intros y Hy ->%list_elem_of_singleton. apply elem_of_app in Hy as [?|?]; done.
Qed.

Lemma hosts_diff_flag h1 h2 k : flag (getHostsDiff h1 h2) k = true <-> k ∈ h1 /\ k ∉ h2.
Proof.
  unfold getHostsDiff.
  assert (forall m, flag (foldl (fun result host => if str_in host h2 then result else <[host := true]> result) m h1) k
    = true <-> flag m k = true \/ (k ∈ h1 /\ k ∉ h2)) as H.
  - induction h1 as [|x h1 IH]; intros m; simpl; [set_solver|]. rewrite IH.
    destruct (str_in x h2) eqn:E.
    + apply str_in_spec in E. set_solver.
    + apply str_in_false in E. unfold flag. destruct (decide (x = k)) as [->|Hne].
      * rewrite lookup_insert_eq. simpl. set_solver.
      * rewrite lookup_insert_ne by done. set_solver.
  - rewrite H. unfold flag. rewrite lookup_empty. simpl. intuition congruence.
Qed.

(** The merge with a custom virtual service.  It fails only when one of the two has no
    routes.  The hosts are those of both, without repetition; the routes of the hosts that
    the custom one does not have come first, then the custom routes with their names and
    conditions, and then the other routes that no custom route replaces. *)
Theorem merge_vs_spec (customVS inclusterVS : VirtualServiceObj) (hostRoutes : gmap string (list HTTPRouteDestination)) :
  let custom := VsSpec customVS in
  let incluster := VsSpec inclusterVS in
  let own r := hrName r ∈ vsHosts incluster /\ hrName r ∉ vsHosts custom in
  match mergeVS customVS inclusterVS hostRoutes with
  | inr _ => vsHttp custom = [] \/ vsHttp incluster = []
  | inl vs =>
      VsMeta vs = VsMeta inclusterVS /\
      (forall h, h ∈ vsHosts (VsSpec vs) <-> h ∈ vsHosts custom \/ h ∈ vsHosts incluster) /\
      (NoDup (vsHosts custom) -> NoDup (vsHosts (VsSpec vs))) /\
      exists front customs back, vsHttp (VsSpec vs) = front ++ customs ++ back /\
        (forall r, r ∈ front <-> r ∈ vsHttp incluster /\ own r) /\
        map hrName customs = map hrName (vsHttp custom) /\ map hrMatch customs = map hrMatch (vsHttp custom) /\
        (forall r, r ∈ back <-> r ∈ vsHttp incluster /\ ~ own r /\ hrName r ∉ map hrName (vsHttp custom))
  end.
Proof.
  cbv zeta. unfold mergeVS, modifyCustomVSHTTPRoutes.
  destruct (vsHttp (VsSpec customVS)) as [|c cs] eqn:Ec; [by left|].
  destruct (vsHttp (VsSpec inclusterVS)) as [|i rest] eqn:Ei; [by right|].
  rewrite <- Ec, <- Ei. simpl rbind. cbn [VsMeta VsSpec]. split_and!; [done|apply merge_hosts_elem|apply merge_hosts_NoDup|].
  assert (forall f (r : HTTPRoute) l, r ∈ List.filter f l <-> r ∈ l /\ f r = true) as Hf.
  { intros f r l. by rewrite !list_elem_of_In, filter_In. }
  eexists _, _, _. split; [reflexivity|]. split_and!.
  - intros r. by rewrite Hf, hosts_diff_flag.
  - rewrite map_map. by apply map_ext.
  - rewrite map_map. by apply map_ext.
  - intros r. rewrite !Hf, !negb_true_iff, <- not_true_iff_false, hosts_diff_flag, str_in_false.
    rewrite map_map. change (fun x => hrName (x <| hrRoute := _ |>)) with hrName. tauto.
Qed.

(** The name of a virtual service's host is recovered from its SNI host. *)
Lemma replace_none s old new : contains s old = false -> replace_all s old new = s.
Proof.
  unfold replace_all. induction s as [|c s IH]; [done|]. cbn [contains replace_from].
  rewrite orb_false_iff. intros [H1 H2]. by rewrite H1, IH.
Qed.

Lemma replace_from_skip a b old new : replace_from (a +:+ b) old new (String.length a) = replace_all b old new.
Proof. unfold replace_all. by induction a as [|c a IH]; simpl; [destruct b|]. Qed.

Lemma replace_at_head old b new : old <> "" -> replace_all (old +:+ b) old new = new +:+ replace_all b old new.
Proof.
  intros Hne. destruct old as [|c old']; [done|]. unfold replace_all at 1. simpl replace_from.
  rewrite (has_prefix_app (String c old') b : has_prefix (String c (old' +:+ b)) (String c old') = true).
  by rewrite replace_from_skip.
Qed.

(** The SNI host of a host name that does not contain the prefix of SNI hosts gives
    the host name back. *)
Theorem sni_host_roundtrip (fqdn : string) :
  fqdn <> "" -> contains fqdn sni_prefix = false ->
  exists sniHost, generateSNIHost fqdn = inl sniHost /\ getFQDNFromSNIHost sniHost = inl fqdn.
Proof.
  intros Hne Hc. exists (sni_prefix +:+ fqdn). unfold generateSNIHost, getFQDNFromSNIHost.
  rewrite (proj2 (is_empty_false fqdn) Hne). split; [done|].
  rewrite (proj2 (is_empty_false _)) by done.
  rewrite (proj2 (has_prefix_spec _ "outbound_.")) by (eexists; reflexivity). simpl negb. cbv iota.
  by rewrite replace_at_head, replace_none by done.
Qed.

(** ** The properties at concrete inputs *)

Lemma route_weights_add_up_witness :
  addWeightsToRouteDestinations
    {[ "h" := [getRouteDestination "a" 80 0; getRouteDestination "b" 80 0; getRouteDestination "c" 80 0] ]} !! "h"
    = Some (set_weights [getRouteDestination "a" 80 0; getRouteDestination "b" 80 0; getRouteDestination "c" 80 0]
              [34; 33; 33]) /\
  exists rds', zsum (map rtWeight rds') = 100.
Proof.
  split; [by vm_compute|].
  edestruct (route_weights_add_up
    {[ "h" := [getRouteDestination "a" 80 0; getRouteDestination "b" 80 0; getRouteDestination "c" 80 0] ]} "h")
    as (rds' & _ & _ & H & _); [by vm_compute| | |].
  - by repeat constructor.
  - by vm_compute.
  - exists rds'. apply H. by vm_compute; split; [lia|].
Defined.

Definition split_policy : TrafficPolicy :=
  mkTrafficPolicy "" FAILOVER [mkTrafficGroup "us-west-2" 75; mkTrafficGroup "us-east-2" 25] "west" None.
Definition canary_destinations : list RouteDestination :=
  [getRouteDestination "canary.ns.svc.cluster.local" 80 16; getRouteDestination "stable.ns.svc.cluster.local" 80 84].


Definition printed (m : StringMatch) : string :=
  match m with MatchExact s => "exact:" +:+ s | MatchPrefix s => "prefix:" +:+ s | MatchRegex s => "regex:" +:+ s end.

Definition two_hosts : destinations_of :=
  {[ "e2e.foo.mesh" := [getRouteDestination "foo.ns.svc.cluster.local" 80 0];
     "canary.e2e.foo.mesh" := [getRouteDestination "canary.ns.svc.cluster.local" 80 0]; "unused" := [] ]}.

Lemma incluster_routes_spec_witness :
  option_map (fun r => match r with inl (hosts, _) => hosts | inr _ => [] end)
    (incluster_routes printed two_hosts "Foo") = Some ["canary.e2e.foo.mesh"; "e2e.foo.mesh"] /\
  exists result, incluster_routes printed two_hosts "Foo" = Some result.
Proof.
  split; [by vm_compute|].
  edestruct (incluster_routes_spec printed) as [_ (result & H & _)]; [| | |exists result; exact H].
  - intros a b H. by apply sapp_inj_l in H.
  - done.
  - intros k rds H. unfold two_hosts in H. rewrite !lookup_insert_Some, lookup_singleton_Some in H.
    by destruct H as [[<- _]|[_ [[<- _]|[_ [<- _]]]]].
Defined.

Lemma vs_reconcile_sound_witness :
  let vs := mkVirtualServiceObj (mkMeta "vs" "" None None 0 "")
              (mkVirtualService ["h"] [] [mkHTTPRoute "a" [] [] ""] [] ["ns"]) in
  doReconcileVirtualService (Some (mkRcRouting (Some (mkVsController None (Some {[ "vs" := vs ]}))) None)) vs
    httpRoutesComparator = (false, None).
Proof.
  intros vs. eapply (vs_reconcile_sound (mkRcRouting (Some (mkVsController None (Some {[ "vs" := vs ]}))) None) _
    {[ "vs" := vs ]} vs); [reflexivity|reflexivity|by vm_compute|reflexivity|done].
Defined.

Lemma sni_host_roundtrip_witness :
  exists sniHost, generateSNIHost "e2e.foo.mesh" = inl sniHost /\ getFQDNFromSNIHost sniHost = inl "e2e.foo.mesh".
Proof. by apply (sni_host_roundtrip "e2e.foo.mesh"); vm_compute. Defined.
