(* ===== verification/Worker.v ===== *)
(** * The worker pool of the writers

    Models the channel protocol of [AddServiceEntriesWithDrToAllCluster] and
    [AddServiceEntriesWithDrWorker] ([clusters/serviceentry.go]): for every service
    entry the caller starts workers, hands them the clusters over one buffered
    channel and collects one result per cluster from another.  The scheduler may
    interleave the goroutines in any way, so the protocol is a step relation.  What
    a worker does with a cluster is summarised by the results it sends; [ClusterWriter.v]
    has all of it. *)
From S2P Require Import Prelude GoStrings Config Objects Metadata.
From stdpp Require Import options.

(** ** What a worker sends for a cluster *)

(** The passage of the worker's loop body: an early [continue] when there is no
    remote controller or no region, otherwise the pass over the tuples of the
    cname; a tuple whose service entry and destination rule are both left alone is
    [true] in [skips], and [err] is what the other tuples collected. *)
Inductive cluster_run :=
| ClusterSkipped
| ClusterProcessed (skips : list bool) (err : error).

Definition errorCluster := "error-cluster".

(** [addSEorDRToAClusterError] with the name of the cluster. *)
Definition final_error (cluster : string) (err : error) : error :=
  match err with
  | Some _ => AppendError err (Some (errorCluster +:+ "=" +:+ cluster))
  | None => None
  end.

(** A skipped tuple sends its own nil before the loop goes on. *)
Definition worker_messages (cluster : string) (r : cluster_run) : list error :=
  match r with
  | ClusterSkipped => [None]
  | ClusterProcessed skips err =>
      map (fun _ => None) (List.filter id skips) ++ [final_error cluster err]
  end.

(** ** The protocol *)

(** A worker waits for a cluster, has results to send, or has left the loop. *)
Inductive worker := WIdle | WBusy (pending : list error) | WExited.

Record pstate := mkP {
  to_send : list string;    (** clusters the caller has not sent yet *)
  clusters : list string;   (** the buffer of [clusters] *)
  closed : bool;
  workers : list worker;
  errs : list error;        (** the buffer of [errors] *)
  received : list error
}.

Section Protocol.
(** [cap] is [clustersLen], the capacity of both channels; [msgs] what a worker sends
    for a cluster. *)
Context (cap : nat) (msgs : string -> list error).

Inductive pstep : pstate -> pstate -> Prop :=
| caller_send c r cs ws es rs :
    length cs < cap ->
    pstep (mkP (c :: r) cs false ws es rs) (mkP r (cs ++ [c]) false ws es rs)
| caller_close cs ws es rs :
    pstep (mkP [] cs false ws es rs) (mkP [] cs true ws es rs)
| caller_receive cs ws e es rs :
    length rs < cap ->
    pstep (mkP [] cs true ws (e :: es) rs) (mkP [] cs true ws es (rs ++ [e]))
| worker_take ts c cs cl ws1 ws2 es rs :
    pstep (mkP ts (c :: cs) cl (ws1 ++ WIdle :: ws2) es rs)
          (mkP ts cs cl (ws1 ++ WBusy (msgs c) :: ws2) es rs)
| worker_send ts cs cl ws1 ws2 e r es rs :
    length es < cap ->
    pstep (mkP ts cs cl (ws1 ++ WBusy (e :: r) :: ws2) es rs)
          (mkP ts cs cl (ws1 ++ WBusy r :: ws2) (es ++ [e]) rs)
| worker_next ts cs cl ws1 ws2 es rs :
    pstep (mkP ts cs cl (ws1 ++ WBusy [] :: ws2) es rs)
          (mkP ts cs cl (ws1 ++ WIdle :: ws2) es rs)
| worker_exit ts ws1 ws2 es rs :
    pstep (mkP ts [] true (ws1 ++ WIdle :: ws2) es rs)
          (mkP ts [] true (ws1 ++ WExited :: ws2) es rs).

Definition start (n : nat) (cs : list string) : pstate := mkP cs [] false (replicate n WIdle) [] [].

(** The caller has its results. *)
Definition returned (s : pstate) : Prop := closed s = true /\ length (received s) = cap.

(** Everybody is done. *)
Definition finished (s : pstate) : Prop := returned s /\ Forall (fun w => w = WExited) (workers s).

End Protocol.

(** ** The function *)

Section Function.
Context {range : GoRange} (p : AdmiralParams).
(** What happens to a cluster for a service entry. *)
Context (run : ServiceEntry -> string -> cluster_run).

Definition no_hosts_error (identityId env : string) : string :=
  "failed to process service entry for identity " +:+ identityId +:+ " and env " +:+ env +:+
  " as it is nil or has empty hosts".

(** The loop over the service entries, from the [i]-th range over the clusters on;
    [acc] is [addSEorDRerror]. *)
Inductive add_entries (identityId env : string) (sourceClusters : gmap string string)
    : nat -> list ServiceEntry -> error -> error -> Prop :=
| add_done i acc : add_entries identityId env sourceClusters i [] acc acc
| add_no_hosts i se ses acc :
    seHosts se = [] ->
    add_entries identityId env sourceClusters i (se :: ses) acc (Some (no_hosts_error identityId env))
| add_entry i se ses acc s res :
    seHosts se <> [] ->
    let cs := (go_range i sourceClusters).*2 in
    rtc (pstep (length cs) (fun c => worker_messages c (run se c)))
        (start (Z.to_nat (DependentClusterWorkerConcurrency p)) cs) s ->
    returned (length cs) s ->
    add_entries identityId env sourceClusters (S i) ses (foldl AppendError acc (received s)) res ->
    add_entries identityId env sourceClusters i (se :: ses) acc res.

(** [AddServiceEntriesWithDrToAllCluster] returns [res]. *)
Inductive AddServiceEntriesWithDrToAllCluster (sourceClusters : gmap string string)
    (serviceEntries : gmap string ServiceEntry) (identityId env : string) : error -> Prop :=
| all_no_identity :
    identityId = "" ->
    AddServiceEntriesWithDrToAllCluster sourceClusters serviceEntries identityId env
      (Some "failed to process service entry as identity passed was empty")
| all_no_env :
    identityId <> "" -> env = "" ->
    AddServiceEntriesWithDrToAllCluster sourceClusters serviceEntries identityId env
      (Some ("failed to process service entry as env passed was empty for identity " +:+ identityId))
| all_entries res :
    identityId <> "" -> env <> "" ->
    add_entries identityId env sourceClusters 1 (go_range 0 serviceEntries).*2 None res ->
    AddServiceEntriesWithDrToAllCluster sourceClusters serviceEntries identityId env res.
End Function.

(** ** Invariants *)
Section Invariants.
Context (cap : nat) (msgs : string -> list error).

Definition pending (w : worker) : list error := match w with WBusy l => l | _ => [] end.

(** The results sent, being sent and still to come. *)
Definition owed (s : pstate) : list error :=
  received s ++ errs s ++ concat (map pending (workers s)) ++
  concat (map msgs (clusters s ++ to_send s)).

Record inv (n : nat) (cs : list string) (s : pstate) : Prop := {
  inv_owed : owed s ≡ₚ concat (map msgs cs);
  inv_closed : closed s = true -> to_send s = [];
  inv_exited : WExited ∈ workers s -> closed s = true /\ clusters s = [];
  inv_received : length (received s) <= cap;
  inv_buffers : length (clusters s) + length (to_send s) <= length cs;
  inv_workers : length (workers s) = n
}.

Lemma inv_start n cs : inv n cs (start n cs).
Proof.
  split; simpl; try done; try lia.
  - unfold owed. simpl. induction n; [done|]. simpl. done.
  - intros Hin. by apply elem_of_replicate in Hin as [? _].
  - by rewrite length_replicate.
Qed.

Lemma concat_pending_mid ws1 w ws2 :
  concat (map pending (ws1 ++ w :: ws2)) ≡ₚ pending w ++ concat (map pending (ws1 ++ ws2)).
Proof.
  rewrite !map_app, !concat_app. simpl. rewrite (Permutation_app_comm (concat _)), <- app_assoc.
  f_equiv. apply Permutation_app_comm.
Qed.

(** A result moves along; none is lost or made. *)
Lemma owed_step s s' : pstep cap msgs s s' -> owed s' ≡ₚ owed s.
Proof.
  intros Hs. unfold owed. destruct Hs; simpl; rewrite ?concat_pending_mid; simpl.
  - by rewrite <- !app_assoc.
  - done.
  - by rewrite <- !app_assoc.
  - solve_Permutation.
  - solve_Permutation.
  - done.
  - done.
Qed.
Lemma exited_mid ws1 w w' ws2 :
  w' <> WExited -> WExited ∈ ws1 ++ w' :: ws2 -> WExited ∈ ws1 ++ w :: ws2.
Proof. intros Hw. rewrite !elem_of_app, !elem_of_cons. intros [?|[?|?]]; [by left|congruence|auto]. Qed.

Lemma length_mid (ws1 ws2 : list worker) w w' :
  length (ws1 ++ w :: ws2) = length (ws1 ++ w' :: ws2).
Proof. rewrite !length_app. done. Qed.

Lemma inv_step n cs s s' : cap = length cs -> pstep cap msgs s s' -> inv n cs s -> inv n cs s'.
Proof.
  intros Hcap Hs Hi. pose proof (owed_step _ _ Hs) as Ho. destruct Hi as [I1 I2 I3 I4 I5 I6].
  split; [by rewrite Ho|..]; clear Ho I1; destruct Hs; simpl in *; try done;
    rewrite ?length_app in *; simpl in *; try lia.
  - intros Hx. by destruct (I3 Hx).
  - intros Hx. by destruct (I3 Hx).
  - intros Hx. destruct I3 as [_ [=]]. eapply exited_mid; [|exact Hx]; done.
  - intros Hx. apply I3. eapply exited_mid; [|exact Hx]; done.
  - intros Hx. apply I3. eapply exited_mid; [|exact Hx]; done.
Qed.

Lemma inv_reach n cs s :
  cap = length cs -> rtc (pstep cap msgs) (start n cs) s -> inv n cs s.
Proof.
  intros Hcap Hr. assert (inv n cs (start n cs)) as Hi by apply inv_start.
  revert Hi. generalize (start n cs) Hr. clear Hr. intros s0 Hr.
  induction Hr; [done|]. intros Hi. eauto using inv_step.
Qed.

(** ** Termination *)
Definition cost (c : string) : nat := 2 + 2 * length (msgs c).

Definition worker_cost (w : worker) : nat :=
  match w with WIdle => 1 | WBusy l => 2 + 2 * length l | WExited => 0 end.

(** Every step lowers it. *)
Definition measure (s : pstate) : nat :=
  (if closed s then 0 else 1) + sum_list_with (fun c => S (cost c)) (to_send s) +
  sum_list_with cost (clusters s) + sum_list_with worker_cost (workers s) + length (errs s).

Lemma measure_step s s' : pstep cap msgs s s' -> measure s' < measure s.
Proof.
  destruct 1; unfold measure, cost, worker_cost; simpl;
    rewrite ?sum_list_with_app, ?length_app; simpl; unfold cost; lia.
Qed.

Lemma run_length s s' k : nsteps (pstep cap msgs) k s s' -> k <= measure s.
Proof.
  induction 1 as [|k s s1 s2 Hs _ IH]; [lia|]. apply measure_step in Hs. lia.
Qed.

(** ** Progress *)
Lemma workers_split (ws : list worker) :
  Forall (fun w => w = WExited) ws \/
  exists ws1 w ws2, ws = ws1 ++ w :: ws2 /\ w <> WExited.
Proof.
  induction ws as [|w ws IH]; [by left|]. destruct w; [right; by exists [], WIdle, ws|
    right; by eexists [], (WBusy _), ws|].
  destruct IH as [?|(ws1 & w & ws2 & -> & ?)]; [left; by constructor|].
  right. by exists (WExited :: ws1), w, ws2.
Qed.

Lemma length_sent (cs : list string) (k : nat) :
  (forall c, c ∈ cs -> length (msgs c) = k) -> length (concat (map msgs cs)) = k * length cs.
Proof.
  induction cs as [|c cs IH]; intros H; simpl; [lia|]. rewrite length_app, H by (by left). rewrite IH; [lia|].
  intros c' Hc. apply H. by right.
Qed.

Lemma at_least_sent (cs : list string) :
  (forall c, 1 <= length (msgs c)) -> length cs <= length (concat (map msgs cs)).
Proof. intros H. induction cs as [|c cs IH]; simpl; [lia|]. rewrite length_app. specialize (H c). lia. Qed.

(** Nobody has anything to send any more. *)
Lemma all_exited_pending (ws : list worker) : Forall (fun w => w = WExited) ws -> concat (map pending ws) = [].
Proof. induction 1 as [|w ws -> _ IH]; [done|]. simpl. done. Qed.

(** While the caller waits there is a next step: a worker that has filled the buffer has left
    a result for it. *)
Lemma progress n cs s :
  cap = length cs -> 1 <= n -> (forall c, 1 <= length (msgs c)) -> inv n cs s ->
  returned cap s \/ exists s', pstep cap msgs s s'.
Proof.
  intros Hcap Hn Hone [I1 I2 I3 I4 I5 I6].
  assert (cap <= length (owed s)) as Hl by (rewrite I1, Hcap; by apply at_least_sent).
  destruct s as [ts qs cl ws es rs]; unfold owed in *; simpl in *.
  destruct cl. 2: { right. destruct ts as [|c ts]; [eexists; apply caller_close|].
    eexists. apply caller_send. simpl in *. lia. }
  specialize (I2 eq_refl) as ->. destruct (decide (length rs < cap)) as [Hlt|Hge].
  2: { left. split; simpl; [done|lia]. }
  right. destruct es as [|e es]; [|eexists; by apply caller_receive].
  destruct (workers_split ws) as [Hall|(ws1 & w & ws2 & -> & Hw)].
  - exfalso. destruct ws as [|w ws]; simpl in I6; [lia|].
    assert (WExited ∈ w :: ws) as Hin by (apply Forall_inv in Hall as ->; by left).
    destruct (I3 Hin) as [_ ->]. apply all_exited_pending in Hall. rewrite Hall, !length_app in Hl. simpl in Hl. lia.
  - destruct w as [|[|e l]|]; [|eexists; apply worker_next| |done].
    + destruct qs; eexists; [apply worker_exit|apply worker_take].
    + eexists. apply worker_send. simpl. lia.
Qed.

(** With one result per cluster the workers are not stuck either. *)
Lemma progress_workers n cs s :
  cap = length cs -> 1 <= n -> (forall c, c ∈ cs -> length (msgs c) = 1) -> (forall c, 1 <= length (msgs c)) -> inv n cs s ->
  finished cap s \/ exists s', pstep cap msgs s s'.
Proof.
  intros Hcap Hn Hone Hle Hi. destruct (progress n cs s Hcap Hn Hle Hi) as [Hret|]; [|by right].
  destruct Hi as [I1 I2 I3 I4 I5 I6]. assert (length (owed s) = cap) as Hl by (rewrite I1, Hcap, (length_sent cs 1 Hone); lia).
  destruct (workers_split (workers s)) as [Hall|(ws1 & w & ws2 & Hws & Hw)]; [by left|right].
  destruct s as [ts qs cl ws es rs]; unfold owed, returned in *; simpl in *. subst ws. destruct Hret as [-> Hrs].
  destruct w as [|[|e l]|]; [|eexists; apply worker_next| |done].
  - destruct qs; eexists; [apply worker_exit|apply worker_take].
  - exfalso. rewrite !length_app in Hl. rewrite concat_pending_mid in Hl. simpl in Hl. lia.
Qed.

(** So every run can be, and within [measure] steps is, brought to where [Q] holds. *)
Lemma completes (Q : pstate -> Prop) n cs s :
  cap = length cs -> (forall s, inv n cs s -> Q s \/ exists s', pstep cap msgs s s') ->
  inv n cs s -> exists s', rtc (pstep cap msgs) s s' /\ Q s'.
Proof.
  intros Hcap Hp. remember (measure s) as k eqn:Hk. revert s Hk.
  induction (lt_wf k) as [k _ IH]. intros s -> Hi.
  destruct (Hp s Hi) as [Hf|[s' Hs]]; [by exists s|].
  destruct (IH (measure s')) with s' as (s'' & Hr & Hf); [by apply measure_step|done|by eapply inv_step|].
  exists s''. split; [by econstructor|done].
Qed.

(** What the caller has when it returns: results that were sent, each once, and all of them
    when there is one for each cluster. *)
Lemma returned_results n cs s :
  cap = length cs -> inv n cs s -> returned cap s ->
  (exists rest, received s ++ rest ≡ₚ concat (map msgs cs)) /\
  ((forall c, c ∈ cs -> length (msgs c) = 1) -> received s ≡ₚ concat (map msgs cs)).
Proof.
  intros Hcap [I1 _ _ _ _ _] [_ Hret]. split; [by exists (errs s ++ concat (map pending (workers s)) ++ concat (map msgs (clusters s ++ to_send s)))|].
  intros Hone. assert (length (owed s) = cap) as Hl by (rewrite I1, Hcap, (length_sent cs 1 Hone); lia).
  rewrite <- I1. unfold owed in *. rewrite length_app, Hret in Hl.
  destruct (errs s ++ _) as [|x l]; [by rewrite app_nil_r|simpl in Hl; lia].
Qed.
End Invariants.

(** ** Properties *)

(** The result of a cluster. *)
Definition cluster_error (cluster : string) (r : cluster_run) : error :=
  match r with ClusterSkipped => None | ClusterProcessed _ err => final_error cluster err end.

(** No tuple of the cluster is skipped for a custom resource or for want of a change. *)
Definition no_skips (r : cluster_run) : Prop :=
  match r with ClusterSkipped => True | ClusterProcessed skips _ => Forall (fun b => b = false) skips end.

Lemma no_skips_messages c r : no_skips r -> worker_messages c r = [cluster_error c r].
Proof.
  destruct r as [|skips err]; [done|]. simpl. intros Hs.
  induction Hs as [|b l -> _ IH]; [done|]. simpl. done.
Qed.

Lemma some_message c r : 1 <= length (worker_messages c r).
Proof. destruct r; simpl; [lia|]. rewrite length_app. simpl. lia. Qed.

(** A cluster without an error sends nothing but nils. *)
Lemma succeed_messages c r : cluster_error c r = None -> Forall (fun e => e = None) (worker_messages c r).
Proof.
  destruct r as [|skips err]; simpl; [by repeat constructor|]. intros ->. apply Forall_app. split; [|by repeat constructor].
  by apply Forall_map, Forall_forall.
Qed.

Lemma append_errors_None acc l : foldl AppendError acc l = None <-> acc = None /\ Forall (fun e => e = None) l.
Proof.
  revert acc. induction l as [|e l IH]; intros acc; simpl.
  - split; [auto|by intros [? _]].
  - rewrite IH, Forall_cons. unfold AppendError. destruct e, acc; naive_solver.
Qed.

Lemma final_error_None c err : final_error c err = None <-> err = None.
Proof. by destruct err. Qed.

Lemma concat_singletons {A B} (f : A -> B) l : concat (map (fun c => [f c]) l) = map f l.
Proof. induction l; [done|]. simpl. by f_equal. Qed.

Section Properties.
Context {range : GoRange} (p : AdmiralParams) (run : ServiceEntry -> string -> cluster_run).

Lemma entry_messages se cs :
  (forall c, c ∈ cs -> no_skips (run se c)) ->
  concat (map (fun c => worker_messages c (run se c)) cs) =
    map (fun c => cluster_error c (run se c)) cs.
Proof.
  intros Hn. rewrite <- (concat_singletons (fun c => cluster_error c (run se c))).
  f_equal. apply map_ext_in. intros c Hc. apply no_skips_messages, Hn. by apply list_elem_of_In.
Qed.

Lemma entry_one se c : no_skips (run se c) -> length (worker_messages c (run se c)) = 1.
Proof. intros Hn. by rewrite no_skips_messages. Qed.

(** C3: The worker pool, with at least one worker.  Every run of the caller and the workers
    has at most [measure] steps; as long as the caller waits there is a next step, so it
    returns under every schedule, with results that the workers sent, each taken once.  A
    cluster sends one result for itself, and a nil for each of its tuples that is skipped;
    when none is, the workers do not get stuck either: every run can be continued until
    all of them have left, and what the caller returns with is the result of every cluster,
    exactly once.  ([skipped_tuple_loses_error] and [skipped_tuples_block_worker] show
    what happens otherwise.) *)
Theorem worker_pool_safe (se : ServiceEntry) (n : nat) (cs : list string) (s : pstate) :
  1 <= n ->
  let msgs := fun c => worker_messages c (run se c) in
  rtc (pstep (length cs) msgs) (start n cs) s ->
  (forall k s', nsteps (pstep (length cs) msgs) k (start n cs) s' -> k <= measure msgs (start n cs)) /\
  (returned (length cs) s \/ exists s', pstep (length cs) msgs s s') /\
  (exists s', rtc (pstep (length cs) msgs) s s' /\ returned (length cs) s') /\
  (returned (length cs) s -> exists rest, received s ++ rest ≡ₚ concat (map msgs cs)) /\
  ((forall c, c ∈ cs -> no_skips (run se c)) ->
   (finished (length cs) s \/ exists s', pstep (length cs) msgs s s') /\
   (exists s', rtc (pstep (length cs) msgs) s s' /\ finished (length cs) s') /\
   (returned (length cs) s -> received s ≡ₚ map (fun c => cluster_error c (run se c)) cs)).
Proof.
  intros Hn msgs Hr. assert (forall c, 1 <= length (msgs c)) as Hle by (intros c; apply some_message).
  pose proof (inv_reach _ msgs n cs s eq_refl Hr) as Hi. split_and!.
  - intros k s' Hk. by eapply run_length.
  - by eapply progress.
  - eapply completes; [done| |done]. intros s' Hs'. by eapply progress.
  - intros Hret. by eapply returned_results.
  - intros Hskip. assert (forall c, c ∈ cs -> length (msgs c) = 1) as Hone by (intros c Hc; by apply entry_one, Hskip).
    split_and!; [by eapply progress_workers| |].
    + eapply completes; [done| |done]. intros s' Hs'. by eapply progress_workers.
    + intros Hret. rewrite <- entry_messages by done. by eapply returned_results.
Qed.

(** No cluster failed for the entry. *)
Definition all_succeed (m : gmap string string) (se : ServiceEntry) : Prop :=
  forall k c, m !! k = Some c -> cluster_error c (run se c) = None.

Lemma range_clusters i (m : gmap string string) (P : string -> Prop) :
  (forall c, c ∈ (go_range i m).*2 -> P c) <-> forall k c, m !! k = Some c -> P c.
Proof.
  split.
  - intros Hf k c Hk. apply Hf. apply list_elem_of_fmap. exists (k, c). by rewrite go_range_elem.
  - intros Hf c ([k c'] & -> & Hk)%list_elem_of_fmap. rewrite go_range_elem in Hk. by eapply Hf.
Qed.

Lemma add_entries_result identityId env m ses : forall i acc,
  (1 <= DependentClusterWorkerConcurrency p)%Z ->
  (exists res, add_entries p run identityId env m i ses acc res) /\
  forall res, add_entries p run identityId env m i ses acc res ->
    (acc = None /\ Forall (fun se => seHosts se <> [] /\ all_succeed m se) ses -> res = None) /\
    (Forall (fun se => forall k c, m !! k = Some c -> no_skips (run se c)) ses -> res = None ->
     acc = None /\ Forall (fun se => seHosts se <> [] /\ all_succeed m se) ses).
Proof.
  induction ses as [|se ses IH]; intros i acc Hw.
  { split; [eexists; constructor|]. intros res Hr. inversion Hr; subst. rewrite Forall_nil. tauto. }
  set (cs := (go_range i m).*2). set (msgs := fun c => worker_messages c (run se c)).
  assert (forall c, 1 <= length (msgs c)) as Hle by (intros c; apply some_message).
  split.
  - destruct (decide (seHosts se = [])) as [Hh|Hh]; [eexists; by apply add_no_hosts|].
    destruct (completes (length cs) msgs (returned (length cs)) (Z.to_nat (DependentClusterWorkerConcurrency p)) cs
      (start (Z.to_nat (DependentClusterWorkerConcurrency p)) cs)) as (s & Hr & Hf); [done| |apply inv_start|].
    { intros s Hs. eapply progress; [done| |done|exact Hs]. lia. }
    destruct (IH (S i) (foldl AppendError acc (received s)) Hw) as [[res Hres] _].
    exists res. by eapply add_entry.
  - intros res Hr. inversion Hr as [|? ? ? ? Hno|? ? ? ? s ? Hh cs' Hs Hret Hrest]; subst.
    { rewrite Forall_cons. split; [tauto|done]. }
    apply (IH _ _ Hw) in Hrest as [R1 R2]. pose proof (inv_reach _ _ _ _ _ eq_refl Hs) as Hi.
    destruct (returned_results _ _ _ _ _ eq_refl Hi Hret) as [[rest Hsome] Hone].
    rewrite append_errors_None in R1, R2. rewrite Forall_cons. split.
    + intros (-> & [_ Hse] & Hses). apply R1. split_and!; [done| |done].
      assert (Forall (fun e => e = None) (received s ++ rest)) as [? _]%Forall_app; [|done]. rewrite Hsome.
      apply Forall_concat, Forall_map, Forall_forall. intros c Hc. apply succeed_messages.
      revert c Hc. by apply range_clusters.
    + intros [Hn Hns]%Forall_cons ->. destruct (R2 Hns eq_refl) as ([-> Hnone] & Hses). split_and!; [done..| |done].
      pose proof (proj2 (range_clusters i m _) Hn) as Hn'. fold cs' in Hn'.
      rewrite Hone, entry_messages, Forall_map, Forall_forall in Hnone by (try done; intros c Hc; by apply entry_one, Hn').
      exact (proj1 (range_clusters i m (fun c => cluster_error c (run se c) = None)) Hnone).
Qed.

(** C6: Every schedule gives the caller a verdict.  With at least one worker,
    [AddServiceEntriesWithDrToAllCluster] returns; whatever the schedule and the order of the
    ranges, it returns nil when the identity and the environment are given, all entries have
    hosts and no cluster failed for any of them, and, when no tuple of a cluster is
    skipped, only then. *)
Theorem all_clusters_result (sourceClusters : gmap string string)
    (serviceEntries : gmap string ServiceEntry) (identityId env : string) :
  (1 <= DependentClusterWorkerConcurrency p)%Z ->
  let fine := identityId <> "" /\ env <> "" /\ forall name se, serviceEntries !! name = Some se ->
    seHosts se <> [] /\ all_succeed sourceClusters se in
  (exists res, AddServiceEntriesWithDrToAllCluster p run sourceClusters serviceEntries identityId env res) /\
  forall res, AddServiceEntriesWithDrToAllCluster p run sourceClusters serviceEntries identityId env res ->
    (fine -> res = None) /\
    ((forall name se k c, serviceEntries !! name = Some se -> sourceClusters !! k = Some c -> no_skips (run se c)) ->
     res = None -> fine).
Proof.
  intros Hw fine.
  assert (forall P : ServiceEntry -> Prop, Forall P (go_range 0 serviceEntries).*2 <-> forall name se, serviceEntries !! name = Some se -> P se)
    as Hrange.
  { intros P. rewrite Forall_forall. split.
    - intros Hf name se Hn. apply Hf, list_elem_of_fmap. exists (name, se). by rewrite go_range_elem.
    - intros Hf se ([name se'] & -> & Hin)%list_elem_of_fmap. rewrite go_range_elem in Hin. by eapply Hf. }
  destruct (add_entries_result identityId env sourceClusters (go_range 0 serviceEntries).*2 1 None Hw) as [[res0 Hex] Hall].
  split.
  - destruct (decide (identityId = "")); [eexists; by apply all_no_identity|].
    destruct (decide (env = "")); [eexists; by apply all_no_env|]. exists res0. by apply all_entries.
  - intros res Hr. inversion Hr as [Hid|Hid He|? Hid He Ha];
      [split; [by intros [? _]|done]|split; [by intros (_ & ? & _)|done]|subst].
    destruct (Hall res Ha) as [H1 H2]. split.
    { intros (_ & _ & Hf). apply H1. split; [done|]. by apply Hrange. }
    intros Hn Hres. destruct H2 as [_ Hf]; [apply Hrange|done|exact (conj Hid (conj He (proj1 (Hrange _) Hf)))].
    intros name se Hse k c. by apply Hn with name.
Qed.

End Properties.

(** ** Skipped tuples

    A tuple that is skipped sends a result of its own, so a cluster may send more
    results than the caller takes. *)

Definition boom : error := Some "boom".

(** One cluster, one worker: the state in which the caller has taken the nil of a
    skipped tuple. *)
Lemma skipped_tuple_run skips :
  rtc (pstep 1 (fun c => worker_messages c (ClusterProcessed (true :: skips) boom)))
    (start 1 ["c1"])
    (mkP [] [] true [WBusy (worker_messages "c1" (ClusterProcessed skips boom))] [] [None]).
Proof.
  eapply rtc_l; [apply caller_send; simpl; lia|].
  eapply rtc_l; [apply caller_close|].
  eapply rtc_l; [apply (worker_take _ _ [] "c1" [] true [] [])|].
  eapply rtc_l; [apply (worker_send _ _ [] [] true [] []); simpl; lia|].
  eapply rtc_l; [apply caller_receive; simpl; lia|]. apply rtc_refl.
Qed.

(** The error of the cluster is lost: the caller has returned nil. *)
Lemma skipped_tuple_loses_error :
  exists s, rtc (pstep 1 (fun c => worker_messages c (ClusterProcessed [true] boom)))
      (start 1 ["c1"]) s /\ returned 1 s /\ foldl AppendError None (received s) = None /\
    cluster_error "c1" (ClusterProcessed [true] boom) <> None.
Proof. eexists. split; [apply skipped_tuple_run|done]. Qed.

(** With two skipped tuples the worker is left blocked for ever on its last result. *)
Lemma skipped_tuples_block_worker :
  let msgs := fun c => worker_messages c (ClusterProcessed [true; true] boom) in
  exists s, rtc (pstep 1 msgs) (start 1 ["c1"]) s /\ returned 1 s /\ ~ finished 1 s /\
    forall s', ~ pstep 1 msgs s s'.
Proof.
  intros msgs. eexists. split; [|split; [|split]].
  - eapply rtc_r; [apply skipped_tuple_run|].
    apply (worker_send _ _ [] [] true [] []). simpl. lia.
  - done.
  - intros [_ Hf]. by inversion Hf.
  - intros s' Hs. inversion Hs as [| |? ? ? ? ? Hlt| ? ? ? ? ws1 ws2 |? ? ? ws1 ws2 ? ? ? ? Hlt|? ? ? ws1 ws2|? ws1 ws2];
      simpl in *; try lia; destruct ws1 as [|? [|]]; simplify_eq/=; lia.
Qed.

(** ** The properties at concrete inputs *)

Definition plain_se : ServiceEntry :=
  mkServiceEntry ["e2e.foo.global"] [] [] MESH_INTERNAL DNS [] [] [].

(** The second cluster fails. *)
Definition sample_run (se : ServiceEntry) (c : string) : cluster_run :=
  if c =?s "c2" then ClusterProcessed [false] boom else ClusterSkipped.

Lemma sample_run_no_skips se c : no_skips (sample_run se c).
Proof. unfold sample_run. destruct (c =?s "c2"); simpl; [by repeat constructor|done]. Qed.

Lemma worker_pool_safe_witness :
  let msgs := fun c => worker_messages c (sample_run plain_se c) in
  exists s', rtc (pstep 2 msgs) (start 2 ["c1"; "c2"]) s' /\ finished 2 s'.
Proof.
  intros msgs. apply (worker_pool_safe sample_run plain_se 2 ["c1"; "c2"] (start 2 ["c1"; "c2"])).
  - lia.
  - apply rtc_refl.
  - intros c _. apply sample_run_no_skips.
Defined.

Definition pool_params : AdmiralParams :=
  Params.zero_AdmiralParams <| Params.DependentClusterWorkerConcurrency := 2%Z |>.

Lemma all_clusters_result_witness :
  exists res, AddServiceEntriesWithDrToAllCluster pool_params sample_run
    {[ "c1" := "c1"; "c2" := "c2" ]} {[ "e2e.foo.global" := plain_se ]} "foo" "e2e" res /\ res <> None.
Proof.
  destruct (all_clusters_result pool_params sample_run {[ "c1" := "c1"; "c2" := "c2" ]}
    {[ "e2e.foo.global" := plain_se ]} "foo" "e2e") as [[res Hr] H]; [vm_compute; discriminate|].
  exists res. split; [exact Hr|]. intros Hn. destruct (H res Hr) as [_ Hf].
  destruct Hf as (_ & _ & Hf); [intros; apply sample_run_no_skips|exact Hn|].
  destruct (Hf "e2e.foo.global" plain_se) as [_ Hs]; [reflexivity|].
  specialize (Hs "c2" "c2" eq_refl). discriminate Hs.
Defined.
