(* ===== verification/ClusterWriter.v ===== *)
(** * What a worker does with a cluster

    The body of [AddServiceEntriesWithDrWorker] ([clusters/serviceentry.go]): the
    policies of the identity, the set of service entries and destination rules
    ([SeDrSet.v]), and for every tuple of it the decision to leave it alone, to delete
    or to write, with the additional endpoints that go with it.  The result is the
    [cluster_run] that the channel protocol ([Worker.v]) sends on. *)
From S2P Require Import Prelude GoStrings Config Objects Metadata ServiceCache Policies AddressStore.
From S2P Require Import DestinationRules Writers ServiceEntries SeDrSet Caches Dependents World.
From S2P Require Import VirtualServices Worker.
From stdpp Require Import options.
Local Open Scope Z_scope.

Definition serviceEntryAssociatedGtpAnnotationLabel := "associated-gtp".

(** [getDNSPrefixFromServiceEntry]. *)
Definition getDNSPrefixFromServiceEntry (seDR : SeDrTuple) : string :=
  if negb (SeDnsPrefix seDR =?s "") && negb (SeDnsPrefix seDR =?s Default) then SeDnsPrefix seDR else Default.

(** [Map.Range] with a callback that changes a variable of its closure. *)
Fixpoint mfold {A B} (f : A -> B -> M B) (l : list A) (b : B) : M B :=
  match l with
  | [] => mret b
  | a :: l' => mbnd (f a b) (mfold f l')
  end.
Definition Map_RangeWith {range : GoRange} {B} (s : ptr) (fn : string -> string -> B -> M B) (b : B) : M B :=
  mbnd (deref_map s) (fun '(l, m) => locking 1 l (mfold (fun kv => fn kv.1 kv.2) (go_range 0 m) b)).

Local Open Scope world_scope.

Section Tuple.
Context {range : GoRange} {sorting : GoSort} {St : Type}.
Context {seClient : KubeClient St ServiceEntryObj} {drClient : KubeClient St DestinationRuleObj}
  {vsClient : KubeClient St VirtualServiceObj}.
(** The clients are those of the cluster [clusterID]; [message] is the text of an API
    error; the next two are what a client returns next to an error; [sinceStart] is
    [time.Since(rc.StartTime)] when the tuple is written. *)
Context (p : AdmiralParams) (clusterID : string) (message : api_error -> string)
  (se_on_error : option ServiceEntryObj) (vs_on_error : option VirtualServiceObj)
  (sinceStart : SeDrTuple -> Z).
(** The clusters of an identity in the registry, for the operator. *)
Context (registry_clusters : string -> option (list string)).
(** The cached destination rules of the cluster, by name and namespace. *)
Context (dr_cache : gmap (string * string) DestinationRuleObj).
(** The arguments of the worker, with [identityId] without its partition, and the event's
    resource type. *)
Context (isAdditionalEndpointsEnabled : bool) (partitionedIdentity identityId env : string)
  (eventResourceType : option string).

Definition syncNamespace : string :=
  if IsAdmiralOperatorMode p then GetOperatorSyncNamespace p else GetSyncNamespace p.

Definition api_err (e : option api_error) : error := option_map message e.

(** ** The stored objects *)

(** The old service entry, and whether it is the cached one. *)
Definition old_service_entry (seName : string) : W St (option ServiceEntryObj * bool) :=
  cached <- cached_se seName;;
  match cached with
  | Some se => wret (Some se, true)
  | None =>
      r <- on_api (api_get syncNamespace seName);;
      wret (match r with inl se => Some se | inr NotFound => None | inr _ => se_on_error end, false)
  end.

(** [skipSEUpdate] and [skipDRUpdate]: the object is somebody else's; a destination rule
    is also skipped when the cached one is the desired one. *)
Definition custom_se (old : option ServiceEntryObj) : bool :=
  match old with Some se => negb (isGeneratedByAdmiral (Annotations (SeMeta se))) | None => false end.
Definition custom_dr (old : option DestinationRuleObj) : bool :=
  match old with Some dr => negb (isGeneratedByAdmiral (Annotations (DrMeta dr))) | None => false end.

Definition old_destination_rule (t : SeDrTuple) : W St (option DestinationRuleObj * bool) :=
  if reconcileDestinationRule (EnableDestinationRuleCache p) (dr_cache !! (DrName t, GetSyncNamespace p))
       (TDestinationRule t)
  then
    r <- on_api (api_get syncNamespace (DrName t));;
    let old := match r with inl dr => Some dr | inr _ => None end in
    wret (old, custom_dr old)
  else wret (None, true).

(** The old service entry without its dummy endpoints, which the cached object loses too;
    [true] when it had some and nothing is left. *)
Definition check_old_endpoints (t : SeDrTuple) (old : option ServiceEntryObj) (cached skipSE : bool)
    : W St (option ServiceEntryObj * bool) :=
  match old with
  | Some se =>
      if skipSE then wret (old, false)
      else
        let '(se', areEndpointsValid) := validateAndProcessServiceEntryEndpoints se in
        (if cached then set_cached_se (SeName t) se' else wret tt) ;;;
        wret (Some se', negb areEndpointsValid && Nat.eqb (length (seEndpoints (SeSpec se'))) 0)
  | None => wret (None, false)
  end.

(** ** Deletion *)

Definition first_host (t : SeDrTuple) : option string := head (seHosts (TServiceEntry t)).

Definition delete_additional (t : SeDrTuple) : W St error :=
  if isAdditionalEndpointsEnabled then
    on_api (deleteAdditionalEndpoints p message identityId (trim_suffix env AIREnvSuffix) syncNamespace
              (getDNSPrefixFromServiceEntry t))
  else wret None.

(** [deleteWorkloadData] does nothing and returns nil. *)
Definition delete_tuple (t : SeDrTuple) (oldSE : option ServiceEntryObj) (oldDR : option DestinationRuleObj)
    (skipSE skipDR : bool) (acc : error) : W St error :=
  acc <- (if skipSE then wret acc
          else
            err <- on_api (deleteServiceEntry oldSE syncNamespace);;
            let acc := AppendError acc (api_err err) in
            match first_host t with
            | None => wpanic
            | Some host =>
                c <- get_caches;;
                on_heap (MapOfMaps_Delete (SeClusterCache c) host) ;;;
                err <- delete_additional t;;
                wret (AppendError acc err)
            end);;
  if skipDR then wret acc
  else
    err <- on_api (deleteDestinationRule oldDR syncNamespace);;
    wret (AppendError acc (api_err err)).

(** ** Creation and update *)

(** The new service entry and the annotations to compare. *)
Definition new_service_entry_obj (t : SeDrTuple) : ServiceEntryObj * list string :=
  let annotations := {[ GetWorkloadIdentifier p := identityId ]} in
  let '(annotations, keys) :=
    if negb (SeDnsPrefix t =?s "") && negb (SeDnsPrefix t =?s Default)
    then (<[dnsPrefixAnnotationLabel := SeDnsPrefix t]> annotations, [GetWorkloadIdentifier p; dnsPrefixAnnotationLabel])
    else (annotations, [GetWorkloadIdentifier p]) in
  let '(annotations, keys) :=
    if negb (SeDrGlobalTrafficPolicyName t =?s "")
    then (<[serviceEntryAssociatedGtpAnnotationLabel := SeDrGlobalTrafficPolicyName t]> annotations,
          keys ++ [serviceEntryAssociatedGtpAnnotationLabel])
    else (annotations, keys) in
  let se := createServiceEntrySkeleton (TServiceEntry t) (SeName t) syncNamespace in
  (se <| SeMeta := SeMeta se <| Annotations := Some (annotations : gmap string string) |>
                            <| Labels := Some {[ GetEnvKey p := env ]} |> |>, keys).

(** The object behind the pointer [old] after [addUpdateServiceEntry]: an update writes
    its labels, annotations and, unless it is skipped, its spec before it calls the API.
    [None] is a panic. *)
Definition exist_after (sinceStart : Z) (obj old : ServiceEntryObj) : option ServiceEntryObj :=
  let obj := obj <| SeMeta := annotate_created_by (SeMeta obj) |> in
  let '(obj, areEndpointsValid) := validateAndProcessServiceEntryEndpoints obj in
  if Nat.eqb (length (seHosts (SeSpec old))) 0 then Some old
  else if areEndpointsValid then
    let old := old <| SeMeta := SeMeta old <| Labels := Labels (SeMeta obj) |>
                                     <| Annotations := Annotations (SeMeta obj) |> |> in
    skipUpdate ← skipDestructiveUpdate p sinceStart obj old;
    Some (if (skipUpdate : bool) then old else old <| SeSpec := SeSpec obj |>)
  else Some old.

Definition write_service_entry (t : SeDrTuple) (se : ServiceEntryObj) (old : option ServiceEntryObj)
    (cached : bool) : W St error :=
  match old with
  | Some oldSE =>
      match (if cached then exist_after (sinceStart t) se oldSE else Some oldSE) with
      | None => wpanic
      | Some after =>
          (if cached then set_cached_se (SeName t) after else wret tt) ;;;
          err <- on_api_opt (addUpdateServiceEntry p (sinceStart t) se old syncNamespace);;
          wret (api_err err)
      end
  | None =>
      err <- on_api_opt (addUpdateServiceEntry p (sinceStart t) se None syncNamespace);;
      wret (api_err err)
  end.

(** [getClusters]. *)
Definition getClusters (c : AdmiralCaches) (dependent : string) : M ptr :=
  if IsAdmiralOperatorMode p then
    match registry_clusters dependent with
    | None => mret None
    | Some clusters =>
        mbnd NewMap (fun gwClusterMap =>
          mbnd (miter (fun cluster => Map_Put gwClusterMap cluster cluster) clusters) (fun _ => mret gwClusterMap))
    end
  else MapOfMaps_Get (IdentityClusterCache (pointers c)) dependent.

(** The clusters of the dependents that are gateways. *)
Definition gateway_clusters_of (c : AdmiralCaches) (gwAlias : string) (gwClusters : list string)
    : M (list string) :=
  mbnd (MapOfMaps_Get (IdentityDependencyCache c) partitionedIdentity) (fun dependents =>
  match dependents with
  | None => mret gwClusters
  | Some _ =>
      mbnd (Map_Len dependents) (fun n =>
      if Nat.ltb 0 n then
        Map_RangeWith dependents (fun _ dependent gwClusters =>
          if contains (to_lower dependent) (to_lower gwAlias) then
            mbnd (getClusters c dependent) (fun gwClustersMap =>
            match gwClustersMap with
            | None => mret gwClusters
            | Some _ => mbnd (Map_GetValues gwClustersMap) (fun vs => mret (gwClusters ++ vs))
            end)
          else mret gwClusters) gwClusters
      else mret gwClusters)
  end).

Definition create_additional (t : SeDrTuple) (host : string) : W St error :=
  if isAdditionalEndpointsEnabled then
    c <- get_caches;;
    gwClusters <- on_heap (mfold (gateway_clusters_of c) (GetGatewayAssetAliases p) []);;
    let vsDNSPrefix := getDNSPrefixFromServiceEntry t in
    let trimmedAirEnv := trim_suffix env AIREnvSuffix in
    match getAdditionalEndpoints p identityId trimmedAirEnv vsDNSPrefix with
    | (_, Some err) => wret (Some err)
    | (additionalEndpoints, None) =>
        createAdditionalEndpoints p clusterID message vs_on_error eventResourceType additionalEndpoints
          partitionedIdentity trimmedAirEnv host syncNamespace vsDNSPrefix gwClusters env
    end
  else wret None.

Definition locality_error (e : error) : string :=
  "failed to validate locality in service entry, received error: " +:+ default "<nil>" e.

(** The service entry of a tuple; [storeWorkloadData] does nothing and returns nil. *)
Definition write_tuple_se (t : SeDrTuple) (oldSE : option ServiceEntryObj) (cached : bool) (acc : error)
    : W St error :=
  let '(newServiceEntry, compareAnnotations) := new_service_entry_obj t in
  current <- cached_se (SeName t);;
  let seReconciliationRequired := reconcileServiceEntry (EnableServiceEntryCache p) current newServiceEntry
                                    compareAnnotations [GetEnvKey p] in
  let '(valid, validityError) := validateServiceEntryEndpoints newServiceEntry in
  acc <- (if seReconciliationRequired && valid && is_nil validityError then
            err <- write_service_entry t newServiceEntry oldSE cached;;
            wret (AppendError acc err)
          else wret acc);;
  let acc := if negb valid || negb (is_nil validityError)
             then AppendError acc (Some (locality_error validityError)) else acc in
  match first_host t with
  | None => wpanic
  | Some host =>
      c <- get_caches;;
      on_heap (MapOfMaps_Put (SeClusterCache c) host clusterID clusterID) ;;;
      err <- create_additional t host;;
      wret (AppendError acc err)
  end.

(** The namespaces that [addUpdateDestinationRule] asks for when the rule has none. *)
Definition dr_namespaces (dr : DestinationRuleObj) : W St (list string) :=
  if EnableExportTo p (drHost (DrSpec dr)) && Nat.eqb (length (drExportTo (DrSpec dr))) 0
     && negb (mget (Labels (DrMeta dr)) VSRoutingLabel =?s "enabled")
  then sortedDependentNamespaces p (drHost (DrSpec dr)) clusterID false
  else wret [].

Definition write_tuple_dr (t : SeDrTuple) (oldDR : option DestinationRuleObj) (acc : error) : W St error :=
  let newDestinationRule := createDestinationRuleSkeleton (TDestinationRule t) (DrName t) syncNamespace in
  dependentNamespaces <- dr_namespaces newDestinationRule;;
  err <- on_api (addUpdateDestinationRule p newDestinationRule oldDR syncNamespace dependentNamespaces);;
  wret (AppendError acc (api_err err)).

(** ** A tuple *)

(** What happens once the old objects are known. *)
Definition act_on_tuple (t : SeDrTuple) (oldSE : option ServiceEntryObj) (cached : bool)
    (oldDR : option DestinationRuleObj) (skipDR : bool) (acc : error) : W St (bool * error) :=
  let skipSE := custom_se oldSE in
  if skipSE && skipDR then wret (true, acc)
  else
    '(oldSE, deleteOldServiceEntry) <- check_old_endpoints t oldSE cached skipSE;;
    if Nat.eqb (length (seEndpoints (TServiceEntry t))) 0 || deleteOldServiceEntry then
      acc <- delete_tuple t oldSE oldDR skipSE skipDR acc;;
      wret (false, acc)
    else
      acc <- (if skipSE then wret acc else write_tuple_se t oldSE cached acc);;
      acc <- (if skipDR then wret acc else write_tuple_dr t oldDR acc);;
      wret (false, acc).

(** [true] for a tuple that is skipped; the error is [addSEorDRToAClusterError]. *)
Definition process_tuple (t : SeDrTuple) (acc : error) : W St (bool * error) :=
  '(oldSE, cached) <- old_service_entry (SeName t);;
  '(oldDR, skipDR) <- old_destination_rule t;;
  act_on_tuple t oldSE cached oldDR skipDR acc.

Fixpoint process_tuples (ts : list SeDrTuple) (skips : list bool) (acc : error) : W St (list bool * error) :=
  match ts with
  | [] => wret (skips, acc)
  | t :: rest =>
      '(skipped, acc) <- process_tuple t acc;;
      process_tuples rest (skips ++ [skipped]) acc
  end.
End Tuple.

(** ** A cluster *)

Section Cluster.
Context {range : GoRange} {sorting : GoSort} {yaml : Yaml} {St : Type} {addressClient : ConfigMapClient St}.
Context {seClient : KubeClient St ServiceEntryObj} {drClient : KubeClient St DestinationRuleObj}
  {vsClient : KubeClient St VirtualServiceObj}.
Context (p : AdmiralParams) (message : api_error -> string)
  (se_on_error : option ServiceEntryObj) (vs_on_error : option VirtualServiceObj)
  (sinceStart : SeDrTuple -> Z) (registry_clusters : string -> option (list string)).
Context (api_list : string -> string -> gmap string string -> St -> St * (list VirtualServiceObj + api_error))
  (list_on_error : option (list VirtualServiceObj)).
(** The remote controllers, their caches of destination rules and virtual services. *)
Context (remoteControllers : gmap string RemoteController)
  (dr_caches : gmap string (gmap (string * string) DestinationRuleObj)) (routing : gmap string RcRouting)
  (clusterLocalityCache : option (gmap string (gmap string string))) (ip_prefix : string).
(** The policies in use. *)
Context (globalTrafficCache : identityCache GlobalTrafficPolicy)
  (outlierDetectionCache : identityCache OutlierDetectionCrd)
  (clientConnectionConfigCache : identityCache ClientConnectionConfig).
(** The arguments of the worker, and the values of its context. *)
Context (isAdditionalEndpointsEnabled isServiceEntryModifyCalledForSourceCluster : bool)
  (partitionedIdentity identityId env : string) (eventResourceType : option string)
  (eventType : option EventType).

(** The clusters of the identity, read when the cluster itself has no destination rule. *)
Definition identity_clusters (cluster host : string) : W St (list string) :=
  if is_nil (getCurrentDRForLocalityLbSetting p dr_caches false cluster host [])
     && isServiceEntryModifyCalledForSourceCluster then
    c <- get_caches;;
    clustersMap <- on_heap (MapOfMaps_Get (IdentityClusterCache (pointers c)) partitionedIdentity);;
    match clustersMap with
    | None => wret []
    | Some _ => on_heap (Map_GetValues clustersMap)
    end
  else wret [].

(** The namespaces that the set is exported to, as [createSeAndDrSetFromGtp] asks for
    them once it has the context's values. *)
Definition context_complete : bool :=
  match eventResourceType with
  | None => false
  | Some r => if r =?s DestinationRules.GTP then negb (is_nil eventType) else true
  end.

Definition set_namespaces (cluster host : string) : W St (list string) :=
  if context_complete && negb (IsAdmiralOperatorMode p) && EnableExportTo p host
  then sortedDependentNamespaces p host cluster false else wret [].

Definition se_dr_set (se : ServiceEntry) (host cluster region : string)
    : W St (option (gmap string SeDrTuple * list string)) :=
  let globalTrafficPolicy := identityCache_GetFromIdentity globalTrafficCache partitionedIdentity env in
  let outlierDetection := identityCache_GetFromIdentity outlierDetectionCache identityId env in
  let clientConnectionSettings := identityCache_GetFromIdentity clientConnectionConfigCache identityId env in
  sourceClusters <- identity_clusters cluster host;;
  let currentDR := getCurrentDRForLocalityLbSetting p dr_caches isServiceEntryModifyCalledForSourceCluster
                     cluster host sourceClusters in
  doDRUpdate <- DoDRUpdateForInClusterVSRouting p message routing api_list list_on_error env cluster identityId
                  isServiceEntryModifyCalledForSourceCluster se true;;
  dependentNamespaces <- set_namespaces cluster host;;
  on_addresses (createSeAndDrSetFromGtp p ip_prefix env region outlierDetection clientConnectionSettings
    currentDR doDRUpdate eventResourceType eventType dependentNamespaces se globalTrafficPolicy).

Definition remember_clients (cluster : string) (clientNamespaces : list string) : W St unit :=
  c <- get_caches;;
  witer (fun clientNs => on_heap (MapOfMapOfMaps_Put (ClientClusterNamespaceServerCache c) cluster clientNs
                           partitionedIdentity partitionedIdentity)) clientNamespaces.

(** A pass of the worker's loop. *)
Definition process_cluster (se : ServiceEntry) (cluster : string) : W St cluster_run :=
  match remoteControllers !! cluster with
  | None => wret ClusterSkipped
  | Some rc =>
      match getClusterRegion p clusterLocalityCache cluster rc, head (seHosts se) with
      | None, _ => wpanic
      | Some (_, Some _), _ => wret ClusterSkipped
      | Some (region, None), None => wpanic
      | Some (region, None), Some host =>
          set <- se_dr_set se host cluster region;;
          let '(seDrSet, clientNamespaces) := default (∅, []) set in
          '(skips, err) <- process_tuples p (ClusterID rc) message se_on_error vs_on_error sinceStart
            registry_clusters (default ∅ (dr_caches !! cluster)) isAdditionalEndpointsEnabled
            partitionedIdentity identityId env eventResourceType (go_range 0 seDrSet).*2 [] None;;
          match err with
          | Some _ => wret (ClusterProcessed skips err)
          | None => remember_clients cluster clientNamespaces ;;; wret (ClusterProcessed skips None)
          end
      end
  end.
End Cluster.

(** ** What is written for a tuple *)

(** The calls that change something, with the namespace. *)
Inductive kube_write :=
| SeWrite (ns : string) (o : ServiceEntryObj) | SeDelete (ns name : string)
| DrWrite (ns : string) (o : DestinationRuleObj) | DrDelete (ns name : string)
| VsWrite (ns : string) (o : VirtualServiceObj) | VsDelete (ns name : string).

(** A client that also logs them. *)
Definition logged {St Obj} (client : KubeClient St Obj) (write : string -> Obj -> kube_write)
    (del : string -> string -> kube_write) : KubeClient (St * list kube_write) Obj := {|
  api_create ns o s := let '(s', e) := api_create ns o s.1 in ((s', s.2 ++ [write ns o]), e);
  api_update ns o s := let '(s', e) := api_update ns o s.1 in ((s', s.2 ++ [write ns o]), e);
  api_delete ns n s := let '(s', e) := api_delete ns n s.1 in ((s', s.2 ++ [del ns n]), e);
  api_get ns n s := let '(s', r) := api_get ns n s.1 in ((s', s.2), r)
|}.

(** The log only grows, by entries that satisfy [Q]. *)
Definition logs {St} (Q : kube_write -> Prop) (s s' : St * list kube_write) : Prop :=
  exists l, s'.2 = s.2 ++ l /\ Forall Q l.

#[export] Instance logs_preorder {St} Q : PreOrder (@logs St Q).
Proof.
  split.
  - intros s. exists []. by rewrite app_nil_r.
  - intros s1 s2 s3 (l1 & E1 & F1) (l2 & E2 & F2). exists (l1 ++ l2).
    rewrite E2, E1, <- app_assoc. split; [done|]. by apply Forall_app.
Qed.

Lemma logged_post {St Obj} (client : KubeClient St Obj) write del (Q : kube_write -> Prop) :
  client_post (logged client write del) (logs Q) (fun ns o => Q (write ns o)) (fun ns n => Q (del ns n)).
Proof.
  assert (forall A (f : St -> St * A) (s : St * list kube_write) w, Q w ->
    logs Q s (let '(s', e) := f s.1 in ((s', s.2 ++ [w]), e)).1) as Hw.
  { intros A f s w HQ. destruct (f s.1) as [s' e]. exists [w]. split; [done|]. by apply Forall_one. }
  split; intros; simpl; try (by apply Hw).
  match goal with |- context[api_get ?a ?b ?c] => destruct (api_get a b c) as [s' r] end.
  exists []. by rewrite app_nil_r.
Qed.

Section Written.
Context {range : GoRange} {sorting : GoSort} {St : Type}.
Context {seClient : KubeClient St ServiceEntryObj} {drClient : KubeClient St DestinationRuleObj}
  {vsClient : KubeClient St VirtualServiceObj}.
Context (p : AdmiralParams) (clusterID : string) (message : api_error -> string)
  (se_on_error : option ServiceEntryObj) (vs_on_error : option VirtualServiceObj)
  (sinceStart : SeDrTuple -> Z) (registry_clusters : string -> option (list string))
  (dr_cache : gmap (string * string) DestinationRuleObj).
Context (additional : bool) (partitionedIdentity identityId env : string) (eventResourceType : option string).

#[local] Instance loggedSe : KubeClient (St * list kube_write) ServiceEntryObj := logged seClient SeWrite SeDelete.
#[local] Instance loggedDr : KubeClient (St * list kube_write) DestinationRuleObj := logged drClient DrWrite DrDelete.
#[local] Instance loggedVs : KubeClient (St * list kube_write) VirtualServiceObj := logged vsClient VsWrite VsDelete.

(** The tuple is to be deleted: it has no endpoints, or Admiral's stored entry had only
    dummy ones. *)
Definition to_delete (t : SeDrTuple) (oldSE : option ServiceEntryObj) : bool :=
  Nat.eqb (length (seEndpoints (TServiceEntry t))) 0 ||
  match oldSE with
  | Some se => negb (custom_se oldSE) &&
      let '(se', valid) := validateAndProcessServiceEntryEndpoints se in
      negb valid && Nat.eqb (length (seEndpoints (SeSpec se'))) 0
  | None => false
  end.

(** What may be written for a tuple whose stored objects are [oldSE] and [oldDR]. *)
Definition permitted (t : SeDrTuple) (oldSE : option ServiceEntryObj) (oldDR : option DestinationRuleObj)
    (skipDR : bool) (w : kube_write) : Prop :=
  match w with
  | SeWrite ns o => ns = syncNamespace p /\ custom_se oldSE = false /\ to_delete t oldSE = false /\
      desired (new_service_entry_obj p identityId env t).1 o
  | SeDelete ns name => ns = syncNamespace p /\ custom_se oldSE = false /\ to_delete t oldSE = true /\
      exists se, oldSE = Some se /\ name = Name (SeMeta se)
  | DrWrite ns o => ns = syncNamespace p /\ skipDR = false /\ to_delete t oldSE = false /\
      desired_dr (createDestinationRuleSkeleton (TDestinationRule t) (DrName t) (syncNamespace p)) o
  | DrDelete ns name => ns = syncNamespace p /\ skipDR = false /\ to_delete t oldSE = true /\
      exists dr, oldDR = Some dr /\ name = Name (DrMeta dr)
  | VsWrite ns o => ns = syncNamespace p /\ custom_se oldSE = false /\ to_delete t oldSE = false /\
      additional = true /\ exists hosts host, first_host t = Some host /\ is_additional hosts host o
  | VsDelete ns _ => ns = syncNamespace p /\ custom_se oldSE = false /\ to_delete t oldSE = true /\
      additional = true
  end.

Lemma desired_meta obj obj' x :
  SeSpec obj = SeSpec obj' -> Labels (SeMeta obj) = Labels (SeMeta obj') ->
  Annotations (SeMeta obj) = Annotations (SeMeta obj') -> desired obj x -> desired obj' x.
Proof. unfold desired. by intros -> -> ->. Qed.

Lemma wbnd_post {A B} Q (c : W (St * list kube_write) A) (k : A -> W (St * list kube_write) B) :
  api_post c (logs Q) -> (forall a, api_post (k a) (logs Q)) -> api_post (wbnd c k) (logs Q).
Proof. apply (api_post_bnd (logs Q)). Qed.

Lemma heap_post {A} Q (c : M A) : api_post (on_heap (St := St * list kube_write) c) (logs Q).
Proof. apply (api_post_heap (logs Q)). Qed.

Lemma ret_post {A} Q (a : A) : api_post (wret (St := St * list kube_write) a) (logs Q).
Proof. apply (api_post_ret (logs Q)). Qed.

Lemma caches_post Q : api_post (get_caches (St := St * list kube_write)) (logs Q).
Proof. apply (api_post_caches (logs Q)). Qed.

Lemma delete_tuple_post t oldSE oldSE' oldDR skipDR acc :
  to_delete t oldSE = true ->
  (custom_se oldSE = false -> forall se', oldSE' = Some se' ->
     exists se, oldSE = Some se /\ Name (SeMeta se') = Name (SeMeta se)) ->
  api_post (delete_tuple p message additional identityId env t oldSE' oldDR (custom_se oldSE) skipDR acc)
    (logs (permitted t oldSE oldDR skipDR)).
Proof.
  intros Hdel Hold. unfold delete_tuple. apply wbnd_post.
  - destruct (custom_se oldSE) eqn:Hc; [apply ret_post|]. apply wbnd_post.
    + apply api_post_api. intros s. eapply deleteServiceEntry_post; [apply _|apply logged_post|].
      intros se' E. destruct (Hold eq_refl _ E) as (se & -> & ->). simpl. by eauto 10.
    + intros err. destruct (first_host t) as [host|]; [|apply api_post_panic].
      apply wbnd_post; [apply caches_post|]. intros c. apply wbnd_post; [apply heap_post|]. intros _.
      apply wbnd_post; [|intros; apply ret_post]. unfold delete_additional.
      destruct additional eqn:Ha; [|apply ret_post]. apply api_post_api. intros s.
      eapply deleteAdditionalEndpoints_post; [apply _|apply logged_post|]. by intros n.
  - intros acc'. destruct skipDR eqn:Hs; [apply ret_post|]. apply wbnd_post; [|intros; apply ret_post].
    apply api_post_api. intros s. eapply deleteDestinationRule_post; [apply _|apply logged_post|].
    intros dr ->. simpl. by eauto 10.
Qed.

Lemma write_service_entry_post Q t se old cached :
  (forall x, desired se x -> Q (SeWrite (syncNamespace p) x)) ->
  api_post (write_service_entry p message sinceStart t se old cached) (logs Q).
Proof.
  intros HQ. unfold write_service_entry.
  assert (forall old, api_post (on_api_opt (addUpdateServiceEntry p (sinceStart t) se old (syncNamespace p)))
    (logs Q)) as Hadd.
  { intros o. apply api_post_api_opt. intros s s' a H.
    eapply (addUpdateServiceEntry_post (logs Q)); [apply logged_post|exact HQ|exact H]. }
  destruct old as [o|].
  - destruct (if cached then _ else _); [|apply api_post_panic]. apply wbnd_post.
    + destruct cached; [apply (api_post_set_cached (logs Q))|apply ret_post].
    + intros _. apply wbnd_post; [apply Hadd|intros; apply ret_post].
  - apply wbnd_post; [apply Hadd|intros; apply ret_post].
Qed.

Lemma write_tuple_se_post t oldSE oldSE' cached oldDR skipDR acc :
  to_delete t oldSE = false -> custom_se oldSE = false ->
  api_post (write_tuple_se p clusterID message vs_on_error sinceStart registry_clusters additional
    partitionedIdentity identityId env eventResourceType t oldSE' cached acc)
    (logs (permitted t oldSE oldDR skipDR)).
Proof.
  intros Hdel Hc. unfold write_tuple_se.
  destruct (new_service_entry_obj p identityId env t) as [se keys] eqn:Ese.
  apply wbnd_post; [apply (api_post_cached (logs _))|]. intros current.
  destruct (validateServiceEntryEndpoints se) as [valid verr].
  apply wbnd_post.
  { destruct (_ && _ && _); [|apply ret_post]. apply wbnd_post; [|intros; apply ret_post].
    apply write_service_entry_post. intros x Hx. simpl. rewrite Ese. done. }
  intros acc'. destruct (first_host t) as [host|] eqn:Eh; [|apply api_post_panic].
  apply wbnd_post; [apply caches_post|]. intros c. apply wbnd_post; [apply heap_post|]. intros _.
  apply wbnd_post; [|intros; apply ret_post]. unfold create_additional.
  destruct additional eqn:Ha; [|apply ret_post]. apply wbnd_post; [apply caches_post|]. intros c'.
  apply wbnd_post; [apply heap_post|]. intros gws.
  destruct (getAdditionalEndpoints _ _ _ _) as [hosts [e|]]; [apply ret_post|].
  eapply (createAdditionalEndpoints_post (logs _)); [apply logged_post|]. intros x Hx. simpl. by eauto 10.
Qed.

Lemma write_tuple_dr_post t oldSE oldDR oldDR' acc :
  to_delete t oldSE = false ->
  api_post (write_tuple_dr p clusterID message t oldDR' acc) (logs (permitted t oldSE oldDR false)).
Proof.
  intros Hdel. unfold write_tuple_dr. apply wbnd_post.
  { unfold dr_namespaces. destruct (_ && _ && _); [|apply ret_post].
    apply (sortedDependentNamespaces_post (logs _)). }
  intros deps. apply wbnd_post; [|intros; apply ret_post]. apply api_post_api. intros s.
  eapply addUpdateDestinationRule_post; [apply _|apply logged_post|]. intros x Hx. simpl. done.
Qed.

(** The object that [old_service_entry] finds in a world. *)
Definition stored_se (w : world (St * list kube_write)) (name : string) : option ServiceEntryObj :=
  match w_se_cache w !! name with
  | Some se => Some se
  | None => match (api_get (syncNamespace p) name (w_api w).1).2 with
            | inl se => Some se
            | inr NotFound => None
            | inr _ => se_on_error
            end
  end.

Lemma old_service_entry_spec name w oldSE cached w' :
  old_service_entry p se_on_error name w = Some ((oldSE, cached), w') ->
  oldSE = stored_se w name /\ (w_api w').2 = (w_api w).2 /\
  (w_api w').1 = match w_se_cache w !! name with
                 | Some _ => (w_api w).1
                 | None => (api_get (Obj := ServiceEntryObj) (syncNamespace p) name (w_api w).1).1
                 end.
Proof.
  unfold old_service_entry, stored_se, wbnd, cached_se, on_api, wret.
  destruct (w_se_cache w !! name) as [se|]; [by intros [= <- _ <-]|]. simpl.
  destruct (api_get (syncNamespace p) name (w_api w).1) as [s r]. by intros [= <- _ <-].
Qed.

(** The cached destination rule is the desired one, and no call is made for it. *)
Definition unchanged_dr (t : SeDrTuple) : bool :=
  EnableDestinationRuleCache p &&
  match dr_cache !! (DrName t, GetSyncNamespace p) with
  | Some dr => bool_decide (DrSpec dr = TDestinationRule t)
  | None => false
  end.

(** The destination rule of the API server, as it is after the call for the service entry. *)
Definition stored_dr (w : world (St * list kube_write)) (t : SeDrTuple) : option DestinationRuleObj :=
  let s := match w_se_cache w !! SeName t with
           | Some _ => (w_api w).1
           | None => (api_get (Obj := ServiceEntryObj) (syncNamespace p) (SeName t) (w_api w).1).1
           end in
  match (api_get (syncNamespace p) (DrName t) s).2 with inl dr => Some dr | inr _ => None end.

(** The destination rule is left alone: it is the desired one, or somebody else's. *)
Definition dr_left_alone (w : world (St * list kube_write)) (t : SeDrTuple) : bool :=
  unchanged_dr t || match stored_dr w t with
                    | Some dr => negb (isGeneratedByAdmiral (Annotations (DrMeta dr)))
                    | None => false
                    end.

Lemma old_destination_rule_spec t w oldDR skipDR w' :
  old_destination_rule p dr_cache t w = Some ((oldDR, skipDR), w') ->
  (w_api w').2 = (w_api w).2 /\
  let stored := match (api_get (Obj := DestinationRuleObj) (syncNamespace p) (DrName t) (w_api w).1).2 with
                | inl dr => Some dr | inr _ => None end in
  skipDR = unchanged_dr t || custom_dr stored /\ (skipDR = false -> oldDR = stored).
Proof.
  unfold old_destination_rule, reconcileDestinationRule, unchanged_dr. destruct (EnableDestinationRuleCache p); simpl.
  - destruct (dr_cache !! _) as [dr|] eqn:E; [destruct (bool_decide (_ = DrSpec dr)) eqn:Eb; simpl|].
    + unfold wret. intros [= <- <- <-]. sdec. by rewrite bool_decide_true.
    + assert (bool_decide (DrSpec dr = TDestinationRule t) = false) as -> by (by sdec; apply bool_decide_eq_false_2).
      unfold wbnd, on_api, wret. simpl. destruct (api_get _ _ _) as [s r]. by intros [= <- <- <-].
    + unfold wbnd, on_api, wret. simpl. destruct (api_get _ _ _) as [s r]. by intros [= <- <- <-].
  - unfold wbnd, on_api, wret. simpl. destruct (api_get _ _ _) as [s r]. by intros [= <- <- <-].
Qed.

(** The check of the old endpoints keeps the name and says what [to_delete] says. *)
Lemma check_old_endpoints_spec t (oldSE : option ServiceEntryObj) cached (w : world (St * list kube_write))
    (r : option ServiceEntryObj) (del : bool) w' :
  check_old_endpoints t oldSE cached (custom_se oldSE) w = Some ((r, del), w') ->
  w_api w' = w_api w /\
  to_delete t oldSE = Nat.eqb (length (seEndpoints (TServiceEntry t))) 0 || del /\
  (custom_se oldSE = false -> forall se', r = Some se' ->
     exists se, oldSE = Some se /\ Name (SeMeta se') = Name (SeMeta se)).
Proof.
  unfold check_old_endpoints, to_delete. destruct oldSE as [se|].
  2: { unfold wret. intros [= <- <- <-]. done. }
  destruct (custom_se (Some se)) eqn:Ec; [unfold wret; by intros [= <- <- <-]|].
  destruct (validateAndProcessServiceEntryEndpoints se) as [se' valid] eqn:Ev.
  destruct cached; unfold wbnd, set_cached_se, wret; intros [= <- <- <-]; (split_and!; [done|done|]);
    intros _ x [= <-]; exists se; by injection Ev as <- _.
Qed.

Lemma act_on_tuple_spec t oldSE cached oldDR skipDR acc w skipped err w' :
  act_on_tuple p clusterID message vs_on_error sinceStart registry_clusters additional partitionedIdentity
    identityId env eventResourceType t oldSE cached oldDR skipDR acc w = Some ((skipped, err), w') ->
  (skipped = true <-> custom_se oldSE = true /\ skipDR = true) /\
  logs (permitted t oldSE oldDR skipDR) (w_api w) (w_api w').
Proof.
  unfold act_on_tuple. destruct (custom_se oldSE && skipDR) eqn:Esk.
  { apply andb_true_iff in Esk as [-> ->]. unfold wret. intros [= <- <- <-]. split; [done|reflexivity]. }
  assert (forall b, b = false -> (b = true <-> custom_se oldSE = true /\ skipDR = true)) as Hskip.
  { intros b ->. split; [done|]. intros [H1 H2]. by rewrite H1, H2 in Esk. }
  unfold wbnd at 1. destruct (check_old_endpoints _ _ _ _ w) as [[[r del] w1]|] eqn:E1; [|done].
  apply check_old_endpoints_spec in E1 as (Ea & Hdel & Hname). rewrite <- Ea, <- Hdel.
  destruct (to_delete t oldSE) eqn:Ed; intros H.
  - assert (skipped = false) as ->.
    { unfold wbnd in H. destruct (delete_tuple _ _ _ _ _ _ _ _ _ _ _ _) as [[e w2]|]; [|done].
      by injection H as <- _ _. }
    split; [by apply Hskip|]. revert H. apply wbnd_post; [|intros; apply ret_post].
    by apply delete_tuple_post.
  - assert (skipped = false) as ->.
    { unfold wbnd in H. repeat case_match; simplify_eq; by injection H. }
    split; [by apply Hskip|]. revert H. apply wbnd_post.
    { destruct (custom_se oldSE) eqn:Ec; [apply ret_post|]. by apply write_tuple_se_post. }
    intros acc'. apply wbnd_post; [|intros; apply ret_post].
    destruct skipDR; [apply ret_post|]. by apply write_tuple_dr_post.
Qed.

(** C5: What a worker writes for a tuple.  The stored service entry decides, the one of
    the controller's cache or, without one, that of the API server, and the destination rule
    of the API server, which is not read when the cached one is the desired one.  Every call to the
    API that changes something is permitted: a service entry or a destination rule that
    Admiral did not make is never written nor deleted, and nothing is done for the additional
    endpoints of such a service entry (whether Admiral made their virtual service is not
    asked before it is written); deletions, of the stored resources, happen only when the
    tuple has no endpoints or the stored entry had only dummy ones, and creations and
    updates only otherwise, with the desired contents.  The tuple counts as skipped exactly
    when both of its resources are left alone. *)
Theorem tuple_writes_permitted (t : SeDrTuple) (acc : error) (w w' : world (St * list kube_write))
    (skipped : bool) (err : error) :
  process_tuple p clusterID message se_on_error vs_on_error sinceStart registry_clusters dr_cache additional
    partitionedIdentity identityId env eventResourceType t acc w = Some ((skipped, err), w') ->
  logs (permitted t (stored_se w (SeName t)) (stored_dr w t) (dr_left_alone w t)) (w_api w) (w_api w') /\
  (skipped = true <-> custom_se (stored_se w (SeName t)) = true /\ dr_left_alone w t = true).
Proof.
  unfold process_tuple. unfold wbnd at 1.
  destruct (old_service_entry p se_on_error (SeName t) w) as [[[oldSE cached] w1]|] eqn:E1; [|done].
  apply old_service_entry_spec in E1 as (-> & El1 & Es1). unfold wbnd at 1.
  destruct (old_destination_rule p dr_cache t w1) as [[[oldDR skipDR] w2]|] eqn:E2; [|done].
  apply old_destination_rule_spec in E2 as (El2 & Hskip & Hold). cbv zeta in Hskip, Hold.
  assert (skipDR = dr_left_alone w t) as Hs. { rewrite Hskip. unfold dr_left_alone, stored_dr. by rewrite Es1. }
  intros H. apply act_on_tuple_spec in H as [Hsk Hl]. rewrite <- Hs. split; [|done].
  destruct Hl as (l & Hl & Hf). exists l. split; [by rewrite Hl, El2, El1|]. eapply Forall_impl; [exact Hf|].
  intros c. destruct skipDR; [destruct c; simpl; try done; by intros (_ & ? & _)|]. rewrite Hold by done. unfold stored_dr. by rewrite Es1.
Qed.
End Written.

(** ** A failed update is taken for done

    The old service entry comes from the controller's cache as a pointer, and
    [addUpdateServiceEntry] writes the desired contents through it before it calls the
    API.  When the call fails, the cache has what the cluster has not: the event is
    retried, the cached entry is the desired one, and nothing is written any more. *)

(** Servers whose updates fail and that have nothing. *)
Definition failing {Obj} : KubeClient unit Obj := {|
  api_create _ _ s := (s, Some (OtherError "timeout"));
  api_update _ _ s := (s, Some (OtherError "timeout"));
  api_delete _ _ s := (s, Some (OtherError "timeout"));
  api_get _ _ s := (s, inr NotFound)
|}.

Definition tuple_params : AdmiralParams :=
  Params.zero_AdmiralParams
    <| Params.LabelSetPtr := Some (Params.zero_LabelSet <| Params.EnvKey := "env" |>
         <| Params.WorkloadIdentityKey := "identity" |>) |>
    <| Params.SyncNamespace := "sync" |> <| Params.EnableServiceEntryCache := true |>
    <| Params.EnableDestinationRuleCache := true |>.

Definition tuple_endpoint (address : string) : WorkloadEntry :=
  mkWorkloadEntry address {[ "http" := 15443 ]} (endpoint_labels "deployment") "us-west-2" 0.

Definition tuple_se (eps : list WorkloadEntry) : ServiceEntry :=
  mkServiceEntry ["e2e.foo.global"] [] [] MESH_INTERNAL DNS eps [] [].

Definition sample_tuple : SeDrTuple :=
  mkSeDrTuple "e2e.foo.global-se" "e2e.foo.global-default-dr"
    (tuple_se [tuple_endpoint "lb1.example.com"; tuple_endpoint "lb2.example.com"])
    (mkDestinationRule "e2e.foo.global" None []) "" "".

(** The cluster has the entry with one endpoint, and the desired destination rule. *)
Definition stored_entry : ServiceEntryObj :=
  mkServiceEntryObj (mkMeta "e2e.foo.global-se" "sync" (Some {[ "env" := "e2e" ]})
    (Some {[ "identity" := "foo"; created_by_key := "admiral" ]}) 0 "7")
    (tuple_se [tuple_endpoint "lb1.example.com"]).

Definition stored_rules : gmap (string * string) DestinationRuleObj :=
  {[ ("e2e.foo.global-default-dr", "sync") :=
     mkDestinationRuleObj (mkMeta "e2e.foo.global-default-dr" "sync" None None 0 "1")
       (mkDestinationRule "e2e.foo.global" None []) ]}.

Definition tuple_world : world (unit * list kube_write) :=
  mkWorld (tt, []) (mkHeap ∅ {[ (2, 0)%nat := ∅ ]} 1 ∅)
    (mkAdmiralCaches (mkCachePointers None None None None None) None (Some 0%nat) None None)
    empty_store {[ "e2e.foo.global-se" := stored_entry ]}.

Definition run_tuple (w : world (unit * list kube_write)) :
    option (bool * error * world (unit * list kube_write)) :=
  process_tuple (seClient := logged failing SeWrite SeDelete) (drClient := logged failing DrWrite DrDelete)
    (vsClient := logged failing VsWrite VsDelete) tuple_params "c1" (fun _ => "timeout") None None
    (fun _ => 1000) (fun _ => None) stored_rules false "foo" "foo" "e2e" (Some "deployment") sample_tuple None w.

Definition world_after (r : option (bool * error * world (unit * list kube_write))) :=
  match r with Some (_, w) => w | None => tuple_world end.

(** The first run reports the error of its one call; the second one calls nothing and
    reports success. *)
Lemma failed_update_is_forgotten :
  let r1 := run_tuple tuple_world in
  let r2 := run_tuple (world_after r1) in
  option_map fst r1 = Some (false, Some "timeout") /\ length (w_api (world_after r1)).2 = 1%nat /\
  option_map fst r2 = Some (false, None) /\ length (w_api (world_after r2)).2 = 1%nat.
Proof. vm_compute. done. Qed.

(** ** The properties at concrete inputs *)

Lemma tuple_writes_permitted_witness :
  logs (permitted tuple_params false "foo" "e2e" sample_tuple (Some stored_entry) None true)
    (w_api tuple_world) (w_api (world_after (run_tuple tuple_world))).
Proof.
  edestruct (tuple_writes_permitted (seClient := failing) (drClient := failing) (vsClient := failing)
    tuple_params "c1" (fun _ => "timeout") None None (fun _ => 1000) (fun _ => None) stored_rules false
    "foo" "foo" "e2e" (Some "deployment") sample_tuple None tuple_world
    (world_after (run_tuple tuple_world)) false (Some "timeout")) as [H _].
  - vm_compute. reflexivity.
  - exact H.
Defined.
