(* ===== verification/StateCheck.v ===== *)
(** * Who may write: the read/write lease and the suspension list

    Models the disaster-recovery state checker
    ([clusters/admiralReadWriteLeaseStateChecker.go], the lease functions of
    [clusters/dynamoDB.go], [admiralStateChecker.go]) and the service entry
    suspender ([clusters/serviceEntrySuspender.go]).  The Admiral pods of a
    deployment share a DynamoDB table with a lease; the pod that holds it writes,
    the others are read-only. *)
From S2P Require Import Prelude GoStrings Config.
From stdpp Require Import options.
Local Open Scope Z_scope.

(** ** Data *)

Record DynamoDBConfig := mkDynamoDBConfig {
  LeaseName : string;
  PodIdentifier : string;
  WaitTimeInSeconds : Z;
  FailureThreshold : Z;
  TableName : string
}.

Record ReadWriteLease := mkReadWriteLease {
  RwLeaseName : string;
  LeaseOwner : string;
  UpdatedTime : Z;
  Notes : string
}.
#[export] Instance eta_ReadWriteLease : Settable ReadWriteLease := fun l =>
  mkReadWriteLease (RwLeaseName l) (LeaseOwner l) (UpdatedTime l) (Notes l).

(** [commonUtil.CurrentAdmiralState]. *)
Record AdmiralState := mkAdmiralState { ReadOnly : bool; IsStateInitialized : bool }.
#[export] Instance eta_AdmiralState : Settable AdmiralState := fun s =>
  mkAdmiralState (ReadOnly s) (IsStateInitialized s).

Definition ReadWriteEnabled := false.
Definition ReadOnlyEnabled := true.
Definition StateNotInitialized := false.
Definition StateInitialized := true.

Definition skipLeaseCheckPodName := "SKIP-LEASE-POD".

(** ** The state check *)

(** [IsCacheWarmupTime]; times and durations in nanoseconds. *)
Definition IsCacheWarmupTime (p : AdmiralParams) (startTime now : Z) : bool :=
  bool_decide (now - startTime < p.(Params.CacheReconcileDuration)).

(** The first lease of the name, or a new one without an owner. *)
Fixpoint filterOrCreateLeaseIfNotFound (currentTime : Z) (allLeases : list ReadWriteLease)
    (leaseName : string) : ReadWriteLease :=
  match allLeases with
  | [] => mkReadWriteLease leaseName "" 0 ("Created at " +:+ itoa currentTime)
  | l :: r => if RwLeaseName l =?s leaseName then l
              else filterOrCreateLeaseIfNotFound currentTime r leaseName
  end.

(** [ExecuteStateCheck].  [remoteRegistry] is [None] when the context holds none,
    [Some None] when it is nil, and tells otherwise whether the caches are warming up.
    [scan] is what [getReadWriteLease] returned, [None] for an error.  The result is
    the new state and the lease handed to [updatedReadWriteLease], whose error the
    function drops. *)
Definition ExecuteStateCheck (c : DynamoDBConfig) (currentTime : Z)
    (remoteRegistry : option (option bool)) (scan : option (list ReadWriteLease))
    (s : AdmiralState) : AdmiralState * option ReadWriteLease :=
  match remoteRegistry with
  | None => (s, None)
  | Some rr =>
      let warmup := match rr with Some w => w | None => false end in
      match scan with
      | None => (s <| ReadOnly := ReadOnlyEnabled |>, None)
      | Some readWriteLeases =>
          let readWriteLease :=
            filterOrCreateLeaseIfNotFound currentTime readWriteLeases (LeaseName c) in
          let mine := readWriteLease <| LeaseOwner := PodIdentifier c |> <| UpdatedTime := currentTime |> in
          let initialized ro := s <| ReadOnly := ro |> <| IsStateInitialized := StateInitialized |> in
          if is_empty (LeaseOwner readWriteLease) then (s, Some mine)
          else if skipLeaseCheckPodName =?s LeaseOwner readWriteLease
          then (initialized ReadOnlyEnabled, None)
          else if negb (is_nil rr) && (PodIdentifier c =?s LeaseOwner readWriteLease) && warmup
          then (initialized ReadOnlyEnabled, None)
          else if PodIdentifier c =?s LeaseOwner readWriteLease
          then (initialized ReadWriteEnabled, Some (readWriteLease <| UpdatedTime := currentTime |>))
          else if bool_decide (UpdatedTime readWriteLease <
                               currentTime - WaitTimeInSeconds c * FailureThreshold c)
                  && negb (is_nil rr) && negb warmup
          then (s, Some mine)
          else (initialized ReadOnlyEnabled, None)
      end
  end.

(** The checker that the others fall back to. *)
Definition NoOPStateChecker_runStateCheck (s : AdmiralState) : AdmiralState :=
  s <| ReadOnly := ReadWriteEnabled |> <| IsStateInitialized := StateInitialized |>.

(** ** The table *)

(** The table that [getReadWriteLease] scans, whatever the configuration says. *)
Definition scanned_table := "admiral-lease".

Definition PutItem (t : string) (l : ReadWriteLease) (ts : gmap string (gmap string ReadWriteLease))
    : gmap string (gmap string ReadWriteLease) :=
  <[t := <[RwLeaseName l := l]> (default ∅ (ts !! t))]> ts.

Definition write_lease (c : DynamoDBConfig) (w : option ReadWriteLease)
    (ts : gmap string (gmap string ReadWriteLease)) : gmap string (gmap string ReadWriteLease) :=
  match w with Some l => PutItem (TableName c) l ts | None => ts end.

(** A scan of the table, in any order; it fails when there is no such table. *)
Definition scanned (ts : gmap string (gmap string ReadWriteLease)) (scan : option (list ReadWriteLease))
    : Prop :=
  match scan with
  | None => True
  | Some l => exists t, ts !! scanned_table = Some t /\ l ≡ₚ (map_to_list t).*2
  end.

(** ** One check *)
Section Check.
Context (c : DynamoDBConfig) (now : Z) (rr : option bool) (leases : list ReadWriteLease).
Let lease := filterOrCreateLeaseIfNotFound now leases (LeaseName c).

Lemma check_other s :
  LeaseOwner lease <> "" -> LeaseOwner lease <> PodIdentifier c ->
  now - WaitTimeInSeconds c * FailureThreshold c <= UpdatedTime lease ->
  ReadOnly (ExecuteStateCheck c now (Some rr) (Some leases) s).1 = true /\
  (ExecuteStateCheck c now (Some rr) (Some leases) s).2 = None.
Proof.
  intros Ho Hc Ht. unfold ExecuteStateCheck. fold lease.
  destruct (is_empty (LeaseOwner lease)) eqn:E1; [by apply is_empty_spec in E1|].
  destruct (skipLeaseCheckPodName =?s LeaseOwner lease); [done|].
  destruct (PodIdentifier c =?s LeaseOwner lease) eqn:E2; [by sdec|].
  rewrite andb_false_r. simpl.
  rewrite (bool_decide_eq_false_2 (UpdatedTime lease < _)) by lia. done.
Qed.

Lemma check_owner s :
  PodIdentifier c <> "" -> LeaseOwner lease = PodIdentifier c ->
  let r := ExecuteStateCheck c now (Some rr) (Some leases) s in
  (ReadOnly r.1 = true /\ r.2 = None) \/
  (ReadOnly r.1 = false /\ r.2 = Some (lease <| UpdatedTime := now |>)).
Proof.
  intros Hid Ho r. unfold r, ExecuteStateCheck. fold lease.
  destruct (is_empty (LeaseOwner lease)) eqn:E1; [apply is_empty_spec in E1; congruence|].
  destruct (skipLeaseCheckPodName =?s LeaseOwner lease); [by left|].
  rewrite Ho, seqb_refl. destruct (negb (is_nil rr) && true && _); [by left|by right].
Qed.

(** A pod that does not own the lease does not start to write. *)
Lemma check_not_owner s :
  LeaseOwner lease <> PodIdentifier c -> ReadOnly s = true ->
  ReadOnly (ExecuteStateCheck c now (Some rr) (Some leases) s).1 = true.
Proof.
  intros Hc Hs. unfold ExecuteStateCheck. fold lease.
  destruct (is_empty _); [done|]. destruct (skipLeaseCheckPodName =?s _); [done|].
  destruct (PodIdentifier c =?s LeaseOwner lease) eqn:E2; [by sdec|].
  rewrite andb_false_r. simpl. by destruct (_ && _ && _).
Qed.

(** A pod is made read-only and writes nothing, or it owns the lease and renews it, or it
    writes itself as the owner of a lease that nobody has or that is stale. *)
Lemma check_cases s :
  PodIdentifier c <> "" ->
  let r := ExecuteStateCheck c now (Some rr) (Some leases) s in
  (ReadOnly r.1 = true /\ r.2 = None) \/
  (LeaseOwner lease = PodIdentifier c /\ ReadOnly r.1 = false /\ r.2 = Some (lease <| UpdatedTime := now |>)) \/
  (r = (s, Some (lease <| LeaseOwner := PodIdentifier c |> <| UpdatedTime := now |>)) /\
   LeaseOwner lease <> PodIdentifier c /\
   (LeaseOwner lease = "" \/ UpdatedTime lease < now - WaitTimeInSeconds c * FailureThreshold c)).
Proof.
  intros Hid r. destruct (decide (LeaseOwner lease = PodIdentifier c)) as [Ho|Ho].
  { destruct (check_owner s Hid Ho) as [?|[? ?]]; auto. }
  unfold r, ExecuteStateCheck. fold lease.
  destruct (is_empty (LeaseOwner lease)) eqn:E1; [apply is_empty_spec in E1; right; right; auto|].
  destruct (skipLeaseCheckPodName =?s LeaseOwner lease); [by left|].
  destruct (PodIdentifier c =?s LeaseOwner lease) eqn:E2; [by sdec|].
  rewrite andb_false_r. simpl. destruct (bool_decide _) eqn:Hb; [apply bool_decide_eq_true in Hb|by left].
  destruct (_ && _); [|by left]. right. right. auto.
Qed.
End Check.

Lemma filter_lease_lookup now (t : gmap string ReadWriteLease) l name :
  (forall k x, t !! k = Some x -> RwLeaseName x = k) -> l ≡ₚ (map_to_list t).*2 ->
  filterOrCreateLeaseIfNotFound now l name =
    default (mkReadWriteLease name "" 0 ("Created at " +:+ itoa now)) (t !! name).
Proof.
  intros Hk Hl.
  assert (forall x, x ∈ l <-> exists k, t !! k = Some x) as Hin.
  { intros x. rewrite Hl, list_elem_of_fmap. split.
    - intros ([k y] & -> & Hx%elem_of_map_to_list). by exists k.
    - intros [k Hx%elem_of_map_to_list]. by exists (k, x). }
  assert (forall l', (forall x, x ∈ l' -> x ∈ l) ->
    (filterOrCreateLeaseIfNotFound now l' name = mkReadWriteLease name "" 0 ("Created at " +:+ itoa now)
      /\ forall x, x ∈ l' -> RwLeaseName x <> name) \/
    t !! name = Some (filterOrCreateLeaseIfNotFound now l' name)) as Hf.
  { induction l' as [|x l' IH]; intros Hsub; simpl; [left; split; [done|]; by intros ? ?%elem_of_nil|].
    destruct (RwLeaseName x =?s name) eqn:E; sdec.
    - right. destruct (proj1 (Hin x)) as [k Hx]; [apply Hsub; by left|].
      by rewrite <- E, (Hk _ _ Hx).
    - destruct IH as [[-> Hn]|?]; [intros y Hy; apply Hsub; by right| |by right].
      left. split; [done|]. intros y [->|Hy]%elem_of_cons; [done|by apply Hn]. }
  destruct (Hf l ltac:(done)) as [[-> Hn]|Hs]; [|by rewrite Hs].
  destruct (t !! name) as [x|] eqn:E; [|done]. exfalso.
  apply (Hn x); [apply Hin; by exists name|by apply Hk].
Qed.

Lemma filter_name now leases name :
  RwLeaseName (filterOrCreateLeaseIfNotFound now leases name) = name.
Proof.
  induction leases as [|l leases IH]; simpl; [done|].
  destruct (RwLeaseName l =?s name) eqn:E; by sdec.
Qed.

Lemma check_written c now rr scan s w :
  (ExecuteStateCheck c now (Some rr) scan s).2 = Some w -> RwLeaseName w = LeaseName c.
Proof.
  unfold ExecuteStateCheck. destruct scan as [leases|]; [|done].
  pose proof (filter_name now leases (LeaseName c)) as Hn.
  destruct (filterOrCreateLeaseIfNotFound now leases (LeaseName c)) as [n o u nt]. simpl in *.
  destruct (is_empty o); [by intros [= <-]|]. destruct (skipLeaseCheckPodName =?s o); [done|].
  destruct (negb (is_nil rr) && (PodIdentifier c =?s o) && _); [done|].
  destruct (PodIdentifier c =?s o); [by intros [= <-]|].
  destruct (_ && _ && _); [by intros [= <-]|done].
Qed.

(** ** Properties *)

(** A lease is taken over.  A pod outside its warm-up that reads a lease of
    another owner, not updated within the threshold, writes itself as the owner
    without changing its mode, and when its next check reads what it wrote it may
    write; on a lease that is still fresh it is made read-only and writes nothing. *)
Theorem lease_takeover (c : DynamoDBConfig) (now later : Z) (leases leases' : list ReadWriteLease)
    (s : AdmiralState) :
  let lease := filterOrCreateLeaseIfNotFound now leases (LeaseName c) in
  PodIdentifier c <> "" -> PodIdentifier c <> skipLeaseCheckPodName ->
  LeaseOwner lease <> "" -> LeaseOwner lease <> skipLeaseCheckPodName ->
  LeaseOwner lease <> PodIdentifier c ->
  let r := ExecuteStateCheck c now (Some (Some false)) (Some leases) s in
  if bool_decide (UpdatedTime lease < now - WaitTimeInSeconds c * FailureThreshold c) then
    exists l, r = (s, Some l) /\ LeaseOwner l = PodIdentifier c /\ UpdatedTime l = now /\
      RwLeaseName l = LeaseName c /\
      (filterOrCreateLeaseIfNotFound later leases' (LeaseName c) = l ->
       ExecuteStateCheck c later (Some (Some false)) (Some leases') r.1 =
         (mkAdmiralState ReadWriteEnabled StateInitialized, Some (l <| UpdatedTime := later |>)))
  else r = (mkAdmiralState ReadOnlyEnabled StateInitialized, None).
Proof.
  intros lease Hid Hids Ho Hos Hne r. unfold r, ExecuteStateCheck. fold lease.
  assert (is_empty (LeaseOwner lease) = false) as -> by by apply is_empty_false.
  assert ((skipLeaseCheckPodName =?s LeaseOwner lease) = false) as ->.
  { apply seqb_neq. congruence. }
  assert ((PodIdentifier c =?s LeaseOwner lease) = false) as -> by (apply seqb_neq; congruence).
  simpl. rewrite andb_true_r, andb_true_r. destruct (bool_decide _); [|done].
  eexists. split; [reflexivity|]. cbn. split_and!; try done.
  { apply filter_name. }
  intros ->. cbn. assert (is_empty (PodIdentifier c) = false) as -> by by apply is_empty_false.
  assert ((skipLeaseCheckPodName =?s PodIdentifier c) = false) as -> by (apply seqb_neq; congruence).
  by rewrite seqb_refl.
Qed.

(** ** What goes wrong *)

(** [updatedReadWriteLease] writes to the configured table, [getReadWriteLease]
    scans "admiral-lease": when the two differ and the scanned table does not know the
    lease, a pod that is read-only stays read-only for ever. *)
Lemma other_table_never_writes c now rr scan s ts :
  TableName c <> scanned_table -> ReadOnly s = true ->
  (forall t, ts !! scanned_table = Some t -> t !! LeaseName c = None /\
     forall k l, t !! k = Some l -> RwLeaseName l = k) ->
  scanned ts scan ->
  let r := ExecuteStateCheck c now (Some rr) scan s in
  ReadOnly r.1 = true /\ write_lease c r.2 ts !! scanned_table = ts !! scanned_table.
Proof.
  intros Ht Hs Hts Hscan r. split.
  - destruct scan as [leases|]; [|done]. destruct Hscan as (t & Htab & Hl).
    destruct (Hts t Htab) as [Hn Hk].
    unfold r, ExecuteStateCheck. by rewrite (filter_lease_lookup now t leases), Hn.
  - unfold write_lease. destruct r.2; [|done]. unfold PutItem. by rewrite lookup_insert_ne.
Qed.

Definition pod_config (id : string) : DynamoDBConfig :=
  mkDynamoDBConfig "lease" id 15 3 scanned_table.

Definition stale_lease : ReadWriteLease := mkReadWriteLease "lease" "a" 0 "".

(** ** Suspension of updates *)

(** A list of environments may be nil. *)
Record IgnoredIdentityCache := mkIgnoredIdentityCache {
  Enabled : bool;
  All : bool;
  ClusterEnvironment : string;
  EnvironmentsByIdentity : gmap string (option (list string))
}.

Definition NewDefaultServiceEntrySuspender (items : list string) : IgnoredIdentityCache :=
  mkIgnoredIdentityCache (bool_decide (0 < length items)%nat) false ""
    (foldl (fun m item => <[item := Some [""]]> m) ∅ items).

Definition NewDummyServiceEntrySuspender : IgnoredIdentityCache :=
  mkIgnoredIdentityCache false false "" ∅.

Definition identityByEnvironment (des : IgnoredIdentityCache) (identity environment : string) : bool :=
  match EnvironmentsByIdentity des !! identity with
  | Some (Some identityEnvironments) =>
      match identityEnvironments with
      | [] => true
      | [e] => is_empty e || str_in environment identityEnvironments
      | _ => str_in environment identityEnvironments
      end
  | _ => false
  end.

Definition SuspendUpdate (des : IgnoredIdentityCache) (identity environment : string) : bool :=
  Enabled des && (All des || identityByEnvironment des identity environment).

(** [getState]: the first item of the table. *)
Definition getState (tableName : string) (items : list IgnoredIdentityCache + string)
    : IgnoredIdentityCache * error :=
  match items with
  | inr err => (mkIgnoredIdentityCache false false "" ∅,
      Some ("op=ignoreIdentityStateChecker message=error retrieving items, err: " +:+ err))
  | inl [] => (mkIgnoredIdentityCache false false "" ∅,
      Some ("op=ignoreIdentityStateChecker message=expected table: '" +:+ tableName +:+
            "' to contain 1 item, got: 0"))
  | inl (x :: _) => (x, None)
  end.

Definition syncState (stateCache state : IgnoredIdentityCache) : IgnoredIdentityCache :=
  mkIgnoredIdentityCache (Enabled state) (All state) (ClusterEnvironment state)
    (EnvironmentsByIdentity state).

(** One period of [runStateCheck]: a failed read leaves the cache as it is. *)
Definition ignore_check (tableName : string) (stateCache : IgnoredIdentityCache)
    (items : list IgnoredIdentityCache + string) : IgnoredIdentityCache :=
  let '(state, err) := getState tableName items in
  match err with Some _ => stateCache | None => syncState stateCache state end.

Lemma default_environments items m id :
  foldl (fun (m : gmap string (option (list string))) item => <[item := Some [""]]> m) m items !! id =
    if decide (id ∈ items) then Some (Some [""]) else m !! id.
Proof.
  revert m. induction items as [|x items IH]; intros m; simpl.
  { done. }
  rewrite IH. destruct (decide (id ∈ items)) as [Hin|Hin].
  - rewrite decide_True; [done|by right].
  - destruct (decide (id = x)) as [->|Hne].
    + rewrite decide_True by (by left). by rewrite lookup_insert_eq.
    + rewrite decide_False by (by intros [?|?]%elem_of_cons). by rewrite lookup_insert_ne.
Qed.

(** Suspended identities.  The default suspender suspends an update exactly when
    the identity is in the configured list, in every environment; after a successful
    read of the suspension table an update is suspended exactly when its first item
    says so, and after a failed read exactly what was suspended before still is. *)
Theorem suspension_spec (items : list string) (tableName identity environment : string)
    (cache : IgnoredIdentityCache) (read : list IgnoredIdentityCache + string) :
  (SuspendUpdate (NewDefaultServiceEntrySuspender items) identity environment = true <->
   identity ∈ items) /\
  (SuspendUpdate (ignore_check tableName cache read) identity environment = true <->
   match read with
   | inl (x :: _) =>
       Enabled x = true /\ (All x = true \/ exists envs,
         EnvironmentsByIdentity x !! identity = Some (Some envs) /\
         (envs = [] \/ envs = [""] \/ environment ∈ envs))
   | _ => SuspendUpdate cache identity environment = true
   end).
Proof.
  split.
  - unfold SuspendUpdate, identityByEnvironment, NewDefaultServiceEntrySuspender. simpl.
    rewrite default_environments. destruct (decide (identity ∈ items)) as [Hin|Hin].
    + destruct items; [by apply elem_of_nil in Hin|]. done.
    + rewrite lookup_empty, andb_false_r. naive_solver.
  - destruct read as [[|x l]|e]; [done| |done]. simpl. unfold SuspendUpdate. simpl.
    rewrite andb_true_iff, orb_true_iff. unfold identityByEnvironment, syncState. simpl.
    destruct (EnvironmentsByIdentity x !! identity) as [[envs|]|]; [|naive_solver..].
    assert ((match envs with [] => true | [e] => is_empty e || str_in environment envs
             | _ => str_in environment envs end) = true <->
            (envs = [] \/ envs = [""] \/ environment ∈ envs)) as ->; [|naive_solver].
    destruct envs as [|e [|e' envs]]; [naive_solver| |].
    + rewrite orb_true_iff, is_empty_spec, str_in_spec. naive_solver.
    + rewrite str_in_spec. naive_solver.
Qed.

(** ** The properties at concrete inputs *)

Lemma lease_takeover_witness :
  let r := ExecuteStateCheck (pod_config "b") 50 (Some (Some false)) (Some [stale_lease])
    (mkAdmiralState true false) in
  exists l, r = (mkAdmiralState true false, Some l) /\ LeaseOwner l = "b" /\ UpdatedTime l = 50.
Proof.
  intros r.
  destruct (lease_takeover (pod_config "b") 50 65 [stale_lease] [] (mkAdmiralState true false))
    as (l & Hr & Ho & Hu & _).
  - vm_compute. discriminate.
  - vm_compute. discriminate.
  - vm_compute. discriminate.
  - vm_compute. discriminate.
  - vm_compute. discriminate.
  - exists l. split; [exact Hr|]. split; [exact Ho|exact Hu].
Defined.
