(* ===== verification/LeaseProtocol.v ===== *)
(** * The pods that share the lease

    The Admiral pods of a deployment run [runStateCheck]
    ([clusters/admiralReadWriteLeaseStateChecker.go]) side by side: a ticker starts a check,
    which takes the time, scans the table, changes the state of the pod and may write the
    lease.  These are steps of their own, between which the other pods act and seconds
    pass; neither the scan nor the write is conditional on anything.  What keeps the pods
    apart is time alone: the tickers and the calls are exact to [D] seconds. *)
From S2P Require Import Prelude GoStrings Config StateCheck.
From stdpp Require Import options.
Local Open Scope Z_scope.

(** ** Pods *)

(** A check has read the clock, or it has scanned the table and its write is under way. *)
Inductive phase := Idle | Scanning (currentTime : Z) | Writing (currentTime : Z) (lease : ReadWriteLease).

(** A pod: its configuration and state, the time of its last check that has scanned the
    table, how many of these in a row have let it write, and where it is in its loop. *)
Record pod := mkPod {
  pcfg : DynamoDBConfig;
  pod_state : AdmiralState;
  plast : Z;
  streak : nat;
  pphase : phase
}.
#[export] Instance eta_pod : Settable pod := fun x => mkPod (pcfg x) (pod_state x) (plast x) (streak x) (pphase x).

Abbreviation wait x := (WaitTimeInSeconds (pcfg x)).
Definition may_write (x : pod) : Prop := ReadOnly (pod_state x) = false.

(** DynamoDB tables, whose items are keyed by the name of the lease. *)
Record dr_sys := mkSys {
  clock : Z;
  tables : gmap string (gmap string ReadWriteLease);
  pods : list pod
}.

(** The pod after its scan at [now]. *)
Definition after_scan (t : Z) (x : pod) (r : AdmiralState * option ReadWriteLease) : pod :=
  mkPod (pcfg x) r.1 t (if ReadOnly r.1 then 0%nat else S (streak x))
    (match r.2 with Some l => Writing t l | None => Idle end).

(** A second may pass for a pod: a call takes at most [D] seconds, and a pod that may write
    starts its next check before its wait time is over. *)
Definition on_time (D now : Z) (x : pod) : Prop :=
  match pphase x with
  | Idle => may_write x -> now + 1 <= plast x + wait x
  | Scanning t | Writing t _ => now + 1 <= t + D
  end.

(** The steps of [runStateCheck] and [ExecuteStateCheck].  A check starts a wait time after
    the last one, or up to [D] seconds sooner; [writes_succeed] rules out writes that fail,
    whose error the code drops. *)
Inductive dr_step (writes_succeed : bool) (D : Z) : dr_sys -> dr_sys -> Prop :=
| dr_tick now ts ps :
    Forall (on_time D now) ps ->
    dr_step writes_succeed D (mkSys now ts ps) (mkSys (now + 1) ts ps)
| dr_start now ts ps i x :
    ps !! i = Some x -> pphase x = Idle -> plast x + wait x - D <= now ->
    dr_step writes_succeed D (mkSys now ts ps) (mkSys now ts (<[i := x <| pphase := Scanning now |>]> ps))
| dr_scan now ts ps i x t rr scan :
    ps !! i = Some x -> pphase x = Scanning t -> scanned ts scan ->
    dr_step writes_succeed D (mkSys now ts ps)
      (mkSys now ts (<[i := after_scan t x (ExecuteStateCheck (pcfg x) t (Some rr) scan (pod_state x))]> ps))
| dr_write now ts ps i x t l :
    ps !! i = Some x -> pphase x = Writing t l ->
    dr_step writes_succeed D (mkSys now ts ps)
      (mkSys now (PutItem (TableName (pcfg x)) l ts) (<[i := x <| pphase := Idle |>]> ps))
| dr_write_failed now ts ps i x t l :
    writes_succeed = false -> ps !! i = Some x -> pphase x = Writing t l ->
    dr_step writes_succeed D (mkSys now ts ps) (mkSys now ts (<[i := x <| pphase := Idle |>]> ps)).

Definition lease_table (s : dr_sys) : gmap string ReadWriteLease :=
  default ∅ (tables s !! scanned_table).

(** The pods of a deployment: one lease, the scanned table, different names; the delay is
    small against the wait times, and a pod takes over only after more than a wait time of
    any other one and the delay. *)
Record fleet_ok (name : string) (D : Z) (ps : list pod) : Prop := {
  fl_delay : 0 <= D;
  fl_cfg i x : ps !! i = Some x -> LeaseName (pcfg x) = name /\ TableName (pcfg x) = scanned_table /\
    PodIdentifier (pcfg x) <> "" /\ 3 * D < wait x;
  fl_ids i j x y : ps !! i = Some x -> ps !! j = Some y -> PodIdentifier (pcfg x) = PodIdentifier (pcfg y) -> i = j;
  fl_wait i j x y : ps !! i = Some x -> ps !! j = Some y ->
    wait y + D <= wait x * FailureThreshold (pcfg x) /\ wait y + 4 * D < 2 * wait x
}.

(** ** The invariant *)

(** The lease has gone to another pod, whose check that wrote it came after that of [x], but
    for the delay. *)
Definition superseded (D : Z) (s : dr_sys) (i : nat) (x : pod) (l : ReadWriteLease) : Prop :=
  plast x <= UpdatedTime l + D /\
  exists j z, j <> i /\ pods s !! j = Some z /\ LeaseOwner l = PodIdentifier (pcfg z) /\ UpdatedTime l <= plast z.

Definition writing (x : pod) : Prop := exists t l, pphase x = Writing t l.

(** A pod that may write was the owner at its last scan and has the lease or has been
    superseded; when its own write has arrived and it has the lease, only pods whose checks
    started before can still disturb it. *)
Definition writer_ok (name : string) (D : Z) (s : dr_sys) (i : nat) (x : pod) : Prop :=
  (1 <= streak x)%nat /\
  exists l, lease_table s !! name = Some l /\
    (LeaseOwner l = PodIdentifier (pcfg x) \/ superseded D s i x l) /\
    (~ writing x -> LeaseOwner l = PodIdentifier (pcfg x) ->
       UpdatedTime l = plast x /\
       (forall j y t m, pods s !! j = Some y -> pphase y = Writing t m -> t <= plast x + D) /\
       (forall j y, j <> i -> pods s !! j = Some y -> may_write y -> plast y <= plast x + D)).

(** The owner of the lease, which nobody can take from it as long as it is on time. *)
Definition established (name : string) (s : dr_sys) (i : nat) (x : pod) : Prop :=
  exists l, lease_table s !! name = Some l /\ LeaseOwner l = PodIdentifier (pcfg x) /\
    (UpdatedTime l = plast x \/ writing x /\ plast x - wait x <= UpdatedTime l) /\
    forall j y, j <> i -> pods s !! j = Some y -> ~ may_write y /\ ~ writing y.

(** The times of a pod. *)
Definition pod_ok (D now : Z) (x : pod) : Prop :=
  ((1 <= streak x)%nat -> may_write x) /\
  (may_write x -> plast x <= now) /\
  match pphase x with
  | Idle => may_write x -> now <= plast x + wait x
  | Scanning t => plast x + wait x - D <= t <= now /\ now <= t + D /\ (may_write x -> t <= plast x + wait x)
  | Writing t l => t = plast x /\ t <= now <= t + D /\
      LeaseOwner l = PodIdentifier (pcfg x) /\ UpdatedTime l = t /\ RwLeaseName l = LeaseName (pcfg x)
  end.

Record dr_inv (name : string) (D : Z) (s : dr_sys) : Prop := {
  di_fleet : fleet_ok name D (pods s);
  di_keys k l : lease_table s !! k = Some l -> RwLeaseName l = k;
  di_pod i x : pods s !! i = Some x -> pod_ok D (clock s) x;
  di_writer i x : pods s !! i = Some x -> may_write x -> writer_ok name D s i x;
  di_apart i j x y : i <> j -> pods s !! i = Some x -> pods s !! j = Some y -> may_write x -> may_write y ->
    plast x + wait y - 2 * D <= plast y \/ plast y + wait x - 2 * D <= plast x;
  di_established i x : pods s !! i = Some x -> may_write x -> (2 <= streak x)%nat -> established name s i x
}.

(** ** Pods that change *)

Lemma lease_table_put now ts ps l :
  lease_table (mkSys now (PutItem scanned_table l ts) ps) = <[RwLeaseName l := l]> (lease_table (mkSys now ts ps)).
Proof. unfold lease_table, PutItem. cbn. by rewrite lookup_insert_eq. Qed.

Lemma pods_insert {ps : list pod} {i j x' y} :
  <[i := x']> ps !! j = Some y -> j = i /\ y = x' \/ j <> i /\ ps !! j = Some y.
Proof. intros [(-> & -> & _)|[? ?]]%list_lookup_insert_Some; auto. Qed.

Lemma fleet_update name D ps i x x' :
  ps !! i = Some x -> pcfg x' = pcfg x -> fleet_ok name D ps -> fleet_ok name D (<[i := x']> ps).
Proof.
  intros Hi Hc [F0 F1 F2 F3].
  assert (forall j y, <[i := x']> ps !! j = Some y -> exists z, ps !! j = Some z /\ pcfg z = pcfg y) as Hz.
  { intros j y [[-> ->]|[_ Hy]]%pods_insert; [by exists x|by exists y]. }
  split; [done| | |].
  - intros j y (z & Hy & <-)%Hz. by eapply F1.
  - intros j k y y' (z & Hy & <-)%Hz (z' & Hy' & <-)%Hz. by eapply F2.
  - intros j k y y' (z & Hy & <-)%Hz (z' & Hy' & <-)%Hz. by eapply F3.
Qed.

(** Another pod changes without becoming a writer: what holds of [y] still does. *)
Lemma superseded_update D now ts ps i x x' j y l :
  ps !! i = Some x -> pcfg x' = pcfg x -> plast x <= plast x' ->
  superseded D (mkSys now ts ps) j y l -> superseded D (mkSys now ts (<[i := x']> ps)) j y l.
Proof.
  intros Hi Hc Hl [H (k & z & Hk & Hz & Ho & Hu)]. split; [done|].
  destruct (decide (k = i)) as [->|Hne].
  - exists i, x'. cbn in *. rewrite list_lookup_insert_eq by (by eapply lookup_lt_Some). rewrite Hi in Hz.
    injection Hz as ->. rewrite Hc. split_and!; [done..|lia].
  - exists k, z. cbn in *. by rewrite list_lookup_insert_ne.
Qed.

Lemma superseded_same D s s' i x x' l :
  pods s' = pods s -> plast x' = plast x -> superseded D s i x l -> superseded D s' i x' l.
Proof. unfold superseded. by intros -> ->. Qed.

(** The lease that a scan finds. *)
Lemma read_lease name D s leases t i x :
  dr_inv name D s -> pods s !! i = Some x -> scanned (tables s) (Some leases) ->
  filterOrCreateLeaseIfNotFound t leases (LeaseName (pcfg x)) =
    default (mkReadWriteLease name "" 0 ("Created at " +:+ itoa t)) (lease_table s !! name).
Proof.
  intros Hi Hx (tb & Ht & Hl). destruct (fl_cfg _ _ _ (di_fleet _ _ _ Hi) i x Hx) as (-> & _).
  unfold lease_table. rewrite Ht. simpl. apply filter_lease_lookup; [|done]. intros k l Hk.
  apply (di_keys _ _ _ Hi). unfold lease_table. by rewrite Ht.
Qed.

(** A writer is on time. *)
Lemma writer_deadline D now x : may_write x -> pod_ok D now x -> 0 <= D -> plast x <= now <= plast x + wait x + D \/ writing x.
Proof.
  intros Hm (_ & Hl & Hp) HD. specialize (Hl Hm). destruct (pphase x) as [|t|t l] eqn:E; [specialize (Hp Hm)| |].
  - left. lia.
  - destruct Hp as (? & ? & Hp). specialize (Hp Hm). left. lia.
  - right. by exists t, l.
Qed.

(** What a scan can do: make the pod read-only, renew the lease of its owner, or take over a
    lease that nobody has or that is stale, which a pod that may write does not. *)
Lemma scan_cases name D s i x t rr scan :
  dr_inv name D s -> pods s !! i = Some x -> pphase x = Scanning t -> scanned (tables s) scan ->
  let r := ExecuteStateCheck (pcfg x) t (Some rr) scan (pod_state x) in
  (ReadOnly r.1 = true /\ r.2 = None) \/
  (exists l, lease_table s !! name = Some l /\ LeaseOwner l = PodIdentifier (pcfg x) /\
     ReadOnly r.1 = false /\ r.2 = Some (l <| UpdatedTime := t |>)) \/
  (ReadOnly r.1 = true /\ exists w, r.2 = Some w /\ LeaseOwner w = PodIdentifier (pcfg x) /\ UpdatedTime w = t /\
     RwLeaseName w = name /\ forall l, lease_table s !! name = Some l -> LeaseOwner l <> PodIdentifier (pcfg x) /\
       (LeaseOwner l = "" \/ UpdatedTime l < t - wait x * FailureThreshold (pcfg x))).
Proof.
  intros Hi Hx Hph Hs r. destruct scan as [leases|]; [|by left].
  destruct (fl_cfg _ _ _ (di_fleet _ _ _ Hi) i x Hx) as (Hname & _ & Hid & Hw).
  pose proof (check_written (pcfg x) t rr (Some leases) (pod_state x)) as Hwn.
  pose proof (read_lease _ _ _ _ t _ _ Hi Hx Hs) as Hr.
  pose proof (check_cases (pcfg x) t rr leases (pod_state x) Hid) as Hc. cbv zeta in Hc. rewrite Hr in Hc. subst r.
  revert Hwn Hc. generalize (ExecuteStateCheck (pcfg x) t (Some rr) (Some leases) (pod_state x)) as r.
  intros r Hwn [H|[(Ho & H1 & H2)|(E & Hne & Hst)]].
  - by left.
  - right. left. destruct (lease_table s !! name) as [l|] eqn:El; [|by destruct Hid]. by exists l.
  - right. right. rewrite E in Hwn |- *. simpl in *. split.
    + destruct (ReadOnly (pod_state x)) eqn:Em; [done|]. exfalso.
      destruct (di_writer _ _ _ Hi i x Hx Em) as (_ & l & Hl & Hor & _). rewrite Hl in *. simpl in *.
      destruct Hor as [|(Hu & j & z & Hj & Hz & Ho & _)]; [done|].
      destruct (fl_cfg _ _ _ (di_fleet _ _ _ Hi) j z Hz) as (_ & _ & Hidz & _). destruct Hst as [?|Hst]; [congruence|].
      destruct (di_pod _ _ _ Hi i x Hx) as (_ & _ & Hp). rewrite Hph in Hp. destruct Hp as (_ & _ & Hp). specialize (Hp Em).
      pose proof (fl_wait _ _ _ (di_fleet _ _ _ Hi) i i x x Hx Hx). lia.
    + eexists. split_and!; [reflexivity|done|done|by rewrite (Hwn _ eq_refl)|]. intros l Hl. rewrite Hl in *. simpl in *. auto.
Qed.

(** ** The steps *)

Lemma not_writing_start x t : pphase x = Idle \/ pphase x = Scanning t -> ~ writing x.
Proof. intros [E|E] (u & l & Hw); congruence. Qed.

(** A pod goes on without becoming a writer and without a write. *)
Lemma dr_inv_quiet name D now ts ps i x x' :
  dr_inv name D (mkSys now ts ps) -> ps !! i = Some x -> pcfg x' = pcfg x -> plast x <= plast x' ->
  ~ writing x -> ~ writing x' -> (may_write x' -> may_write x /\ plast x' = plast x /\ streak x' = streak x) ->
  pod_ok D now x' -> dr_inv name D (mkSys now ts (<[i := x']> ps)).
Proof.
  intros [F K P W A E] Hi Hc Hl Hn Hn' Hm Hp. cbn [pods tables clock] in *.
  (* a writer of now was one before, with the same times *)
  assert (forall j y, <[i := x']> ps !! j = Some y -> exists z, ps !! j = Some z /\ pcfg y = pcfg z /\ (writing y -> y = z) /\ ~ (writing z /\ y <> z) /\
    (may_write y -> may_write z /\ plast y = plast z /\ streak y = streak z /\ (writing z -> writing y))) as Hb.
  { intros j y [[-> ->]|[_ Hy]]%pods_insert; [exists x|exists y; tauto].
    split_and!; [done|done|done|tauto|]. intros [? [? ?]]%Hm. split_and!; [done..|]. by intros ?%Hn. }
  assert (forall j y t m, <[i := x']> ps !! j = Some y -> pphase y = Writing t m -> ps !! j = Some y) as Hwr.
  { intros j y t m Hy Hph. destruct (Hb j y Hy) as (z & Hz & _ & He & _). by rewrite He by (by exists t, m). }
  split; cbn [pods tables clock].
  - by eapply fleet_update.
  - exact K.
  - intros j y [[-> ->]|[_ Hy]]%pods_insert; [done|by eapply P].
  - intros j y Hy Hmy. destruct (Hb j y Hy) as (z & Hz & Hcz & _ & _ & Hmz). destruct (Hmz Hmy) as (Hwz & Hpl & Hst & Hwz').
    destruct (W j z Hz Hwz) as (H1 & l & Hll & Ho & Hh). split; [by rewrite Hst|]. exists l. rewrite Hcz, Hpl. split_and!; [done| |].
    + destruct Ho as [?|Hs]; [by left|right]. apply (superseded_update _ _ _ _ _ x); [done..|].
      revert Hs. by apply superseded_same.
    + intros Hnw Hown. destruct Hh as (H2 & H3 & H4); [tauto|done|]. split_and!; [done| |].
      * intros k u t m Hu Hph. eapply H3; [by eapply Hwr|done].
      * intros k u Hk Hu Hmu. destruct (Hb k u Hu) as (u' & Hu' & _ & _ & _ & Hmu'). destruct (Hmu' Hmu) as (? & -> & _).
        by eapply H4.
  - intros j k y u Hjk Hy Hu Hmy Hmu.
    destruct (Hb j y Hy) as (y' & Hy' & Hcy & _ & _ & Hy2). destruct (Hy2 Hmy) as (? & -> & _).
    destruct (Hb k u Hu) as (u' & Hu' & Hcu & _ & _ & Hu2). destruct (Hu2 Hmu) as (? & -> & _). rewrite Hcy, Hcu. by apply (A j k).
  - intros j y Hy Hmy Hs. destruct (Hb j y Hy) as (z & Hz & Hcz & _ & _ & Hmz). destruct (Hmz Hmy) as (Hwz & Hpl & Hst & Hwz').
    rewrite Hst in Hs. destruct (E j z Hz Hwz Hs) as (l & Hll & Ho & Hu & Hoth). exists l. rewrite Hcz, Hpl.
    split_and!; [done|done|tauto|]. intros k u Hk Hu'. destruct (Hb k u Hu') as (u' & Hu2 & _ & He & _ & Hm2).
    destruct (Hoth k u' Hk Hu2) as [? Hn2]. split; [tauto|]. intros Hwu. apply Hn2. by rewrite <- (He Hwu).
Qed.

(** Who has a fresh lease keeps it: no other pod takes it over. *)
Lemma no_takeover name D s i j x y t l :
  dr_inv name D s -> i <> j -> pods s !! i = Some x -> pphase x = Scanning t ->
  pods s !! j = Some y -> may_write y -> lease_table s !! name = Some l -> LeaseOwner l = PodIdentifier (pcfg y) ->
  UpdatedTime l = plast y \/ writing y /\ plast y - wait y <= UpdatedTime l ->
  ~ (LeaseOwner l = "" \/ UpdatedTime l < t - wait x * FailureThreshold (pcfg x)).
Proof.
  intros Hi Hij Hx Hph Hy Hm Hl Ho Hu Hst. pose proof (di_fleet _ _ _ Hi) as F.
  destruct (fl_cfg _ _ _ F j y Hy) as (_ & _ & Hid & Hw). destruct Hst as [?|Hst]; [congruence|].
  destruct (fl_wait _ _ _ F i j x y Hx Hy) as [Hf _]. pose proof (fl_delay _ _ _ F).
  pose proof (di_pod _ _ _ Hi i x Hx) as (_ & _ & Hp). rewrite Hph in Hp.
  pose proof (di_pod _ _ _ Hi j y Hy) as Hpy.
  assert (writing y -> clock s <= plast y + D) as Hwr.
  { intros (u & m & E). destruct Hpy as (_ & _ & Hpy). rewrite E in Hpy. lia. }
  destruct Hu as [Hu|[Hwy Hu]]; [|specialize (Hwr Hwy); lia].
  destruct (writer_deadline _ _ _ Hm Hpy) as [?|Hwy]; [done|lia|]. specialize (Hwr Hwy). lia.
Qed.

Lemma dr_inv_takeover name D now ts ps i x x' t w :
  dr_inv name D (mkSys now ts ps) -> ps !! i = Some x -> pphase x = Scanning t -> ReadOnly (pod_state x') = true ->
  pcfg x' = pcfg x -> plast x' = t -> streak x' = 0%nat -> pphase x' = Writing t w ->
  LeaseOwner w = PodIdentifier (pcfg x) -> UpdatedTime w = t -> RwLeaseName w = name ->
  (forall l, lease_table (mkSys now ts ps) !! name = Some l -> LeaseOwner l <> PodIdentifier (pcfg x) /\
     (LeaseOwner l = "" \/ UpdatedTime l < t - wait x * FailureThreshold (pcfg x))) ->
  dr_inv name D (mkSys now ts (<[i := x']> ps)).
Proof.
  intros Hinv Hi Hph Hro Hc Hpl Hst Hph' Ho Hu Hn Hk. pose proof (di_pod _ _ _ Hinv i x Hi) as (_ & _ & Hpx).
  rewrite Hph in Hpx. cbn [clock] in Hpx. destruct (fl_cfg _ _ _ (di_fleet _ _ _ Hinv) i x Hi) as (Hname & _ & _ & HwD).
  pose proof (fl_delay _ _ _ (di_fleet _ _ _ Hinv)) as HD.
  assert (~ may_write x') as Hnm by (unfold may_write; congruence).
  split; cbn [pods tables clock].
  - by eapply fleet_update, Hinv.
  - apply Hinv.
  - intros j y [[-> ->]|[_ Hy]]%pods_insert; [|by eapply (di_pod _ _ _ Hinv)]. split; [rewrite Hst; lia|]. split; [done|].
    rewrite Hph', Hc. split_and!; [done|lia|lia|done..|congruence].
  - intros j y [[-> ->]|[Hne Hy]]%pods_insert Hm; [done|]. destruct (di_writer _ _ _ Hinv j y Hy Hm) as (H1 & l & Hl & Hor & Hh).
    split; [done|]. exists l. split_and!; [done| |].
    + destruct Hor as [?|Hs]; [by left|right]. apply (superseded_update _ _ _ _ _ x); [done|done|lia|done].
    + intros Hnw Hown. destruct (Hh Hnw Hown) as (H2 & _). exfalso. destruct (Hk l Hl) as [_ Hs]. revert Hs.
      by eapply (no_takeover _ _ _ i j x y); eauto.
  - intros j k y u Hjk [[-> ->]|[_ Hy]]%pods_insert Hu' Hmy; [done|]. revert Hu'.
    intros [[-> ->]|[_ Hu']]%pods_insert Hmu; [done|]. by apply (di_apart _ _ _ Hinv j k).
  - intros j y [[-> ->]|[Hne Hy]]%pods_insert Hm Hs; [done|].
    destruct (di_established _ _ _ Hinv j y Hy Hm Hs) as (l & Hl & Hown & Hor & _). exfalso.
    destruct (Hk l Hl) as [_ Hst']. revert Hst'. by eapply (no_takeover _ _ _ i j x y); eauto.
Qed.

(** The owner of the lease scans it: it may write, and it has been apart from the others. *)
Lemma owner_apart name D s i j x y t l :
  dr_inv name D s -> i <> j -> pods s !! i = Some x -> pphase x = Scanning t ->
  pods s !! j = Some y -> may_write y -> lease_table s !! name = Some l -> LeaseOwner l = PodIdentifier (pcfg x) ->
  superseded D s j y l /\ plast y + wait x - 2 * D <= t.
Proof.
  intros Hi Hij Hx Hph Hy Hm Hl Ho. destruct (di_writer _ _ _ Hi j y Hy Hm) as (_ & l' & Hl' & Hor & _).
  assert (l' = l) as -> by congruence. destruct Hor as [Ho'|Hs].
  { destruct Hij. apply (fl_ids _ _ _ (di_fleet _ _ _ Hi) i j x y Hx Hy). congruence. }
  split; [done|]. destruct Hs as (Hu & k & z & _ & Hz & Hoz & Huz).
  assert (k = i) as -> by (apply (fl_ids _ _ _ (di_fleet _ _ _ Hi) k i z x Hz Hx); congruence).
  assert (z = x) as -> by congruence. pose proof (di_pod _ _ _ Hi i x Hx) as (_ & _ & Hp). rewrite Hph in Hp. lia.
Qed.

(** A second check in a row that finds the pod to be the owner: nobody else can write. *)
Lemma second_check name D s i x t l :
  dr_inv name D s -> pods s !! i = Some x -> pphase x = Scanning t -> (1 <= streak x)%nat ->
  lease_table s !! name = Some l -> LeaseOwner l = PodIdentifier (pcfg x) ->
  t - wait x <= UpdatedTime l /\ forall j y, j <> i -> pods s !! j = Some y -> ~ may_write y /\ ~ writing y.
Proof.
  intros Hi Hx Hph Hs Hl Ho. pose proof (di_fleet _ _ _ Hi) as F. pose proof (fl_delay _ _ _ F) as HD.
  destruct (fl_cfg _ _ _ F i x Hx) as (_ & _ & _ & Hwx).
  pose proof (di_pod _ _ _ Hi i x Hx) as (Hstr & _ & Hp). rewrite Hph in Hp. pose proof (Hstr Hs) as Hm.
  destruct (di_writer _ _ _ Hi i x Hx Hm) as (_ & l' & Hl' & _ & Hh). assert (l' = l) as -> by congruence.
  destruct Hh as (Hu & Hwr & Hoth); [apply (not_writing_start _ t); by right|done|].
  destruct Hp as (Hp1 & Hp2 & Hp3). specialize (Hp3 Hm). split; [lia|]. intros j y Hj Hy.
  pose proof (di_pod _ _ _ Hi j y Hy) as Hpy. destruct (fl_cfg _ _ _ F j y Hy) as (_ & _ & _ & Hwy).
  assert (~ writing y) as Hnw.
  { intros (u & m & E). specialize (Hwr j y u m Hy E). destruct Hpy as (_ & _ & Hpy). rewrite E in Hpy. lia. }
  split; [|done]. intros Hmy. specialize (Hoth j y Hj Hy Hmy). destruct (fl_wait _ _ _ F i j x y Hx Hy) as [_ Hw2].
  destruct (writer_deadline _ _ _ Hmy Hpy) as [?|?]; [done| |done].
  destruct (di_apart _ _ _ Hi i j x y) as [?|?]; [done..|lia|lia].
Qed.

Lemma dr_inv_owner name D now ts ps i x x' t w l :
  dr_inv name D (mkSys now ts ps) -> ps !! i = Some x -> pphase x = Scanning t -> ReadOnly (pod_state x') = false ->
  pcfg x' = pcfg x -> plast x' = t -> streak x' = S (streak x) -> pphase x' = Writing t w ->
  LeaseOwner w = PodIdentifier (pcfg x) -> UpdatedTime w = t -> RwLeaseName w = name ->
  lease_table (mkSys now ts ps) !! name = Some l -> LeaseOwner l = PodIdentifier (pcfg x) ->
  dr_inv name D (mkSys now ts (<[i := x']> ps)).
Proof.
  intros Hinv Hi Hph Hm' Hc Hpl Hst Hph' Hwo Hu Hn Hl Ho. pose proof (di_pod _ _ _ Hinv i x Hi) as (Hstr & _ & Hpx).
  rewrite Hph in Hpx. cbn [clock] in Hpx. destruct (fl_cfg _ _ _ (di_fleet _ _ _ Hinv) i x Hi) as (Hname & _ & _ & HwD).
  pose proof (fl_delay _ _ _ (di_fleet _ _ _ Hinv)) as HD.
  assert (writing x') as Hw' by (by exists t, w).
  split; cbn [pods tables clock].
  - by eapply fleet_update, Hinv.
  - apply Hinv.
  - intros j y [[-> ->]|[_ Hy]]%pods_insert; [|by eapply (di_pod _ _ _ Hinv)]. split; [done|]. split; [lia|].
    rewrite Hph', Hc. split_and!; [done|lia|lia|done..|congruence].
  - intros j y [[-> ->]|[Hne Hy]]%pods_insert Hm.
    + split; [lia|]. exists l. rewrite Hc. split_and!; [done|by left|by intros ?].
    + destruct (di_writer _ _ _ Hinv j y Hy Hm) as (H1 & _). split; [done|]. exists l.
      destruct (owner_apart _ _ _ i j x y t l Hinv) as [Hs _]; [done..|]. split_and!; [done| |].
      * right. apply (superseded_update _ _ _ _ _ x); [done|done|lia|done].
      * intros _ Hown. destruct Hne. apply (fl_ids _ _ _ (di_fleet _ _ _ Hinv) j i y x Hy Hi). congruence.
  - intros j k y u Hjk [[-> ->]|[Hj Hy]]%pods_insert Hu' Hmy; revert Hu';
      intros [[-> ->]|[Hk Hu']]%pods_insert Hmu; [done| | |by apply (di_apart _ _ _ Hinv j k)].
    + right. rewrite Hc, Hpl. by eapply (owner_apart _ _ _ i k x u t l Hinv).
    + left. rewrite Hc, Hpl. eapply (owner_apart _ _ _ i j x y t l Hinv); eauto.
  - intros j y [[-> ->]|[Hne Hy]]%pods_insert Hm Hs.
    + destruct (second_check _ _ _ i x t l Hinv) as [Hul Hoth]; [done|done|lia|done|done|]. exists l. rewrite Hc, Hpl.
      split_and!; [done|done|by right|]. intros k u Hk Hu'. apply pods_insert in Hu' as [[-> _]|[_ Hu']]; [done|by eapply Hoth].
    + destruct (di_established _ _ _ Hinv j y Hy Hm Hs) as (l' & Hl' & Hown & _). destruct Hne.
      apply (fl_ids _ _ _ (di_fleet _ _ _ Hinv) j i y x Hy Hi). congruence.
Qed.

Lemma dr_inv_write name D now ts ps i x t l :
  dr_inv name D (mkSys now ts ps) -> ps !! i = Some x -> pphase x = Writing t l ->
  dr_inv name D (mkSys now (PutItem (TableName (pcfg x)) l ts) (<[i := x <| pphase := Idle |>]> ps)).
Proof.
  intros Hinv Hi Hph. pose proof (di_pod _ _ _ Hinv i x Hi) as (Hstr & Hpm & Hpx). rewrite Hph in Hpx.
  destruct Hpx as (Ht & Hnow & Ho & Hu & Hn). cbn [clock] in *.
  pose proof (di_fleet _ _ _ Hinv) as F. destruct (fl_cfg _ _ _ F i x Hi) as (Hname & -> & Hid & HwD).
  pose proof (fl_delay _ _ _ F) as HD. set (x' := x <| pphase := Idle |>). rewrite Hname in Hn.
  assert (lease_table (mkSys now (PutItem scanned_table l ts) (<[i := x']> ps)) =
    <[name := l]> (lease_table (mkSys now ts ps))) as Htab by by rewrite lease_table_put, Hn.
  assert (lease_table (mkSys now (PutItem scanned_table l ts) (<[i := x']> ps)) !! name = Some l) as Hl
    by by rewrite Htab, lookup_insert_eq.
  assert (writing x) as Hw by by exists t, l.
  split; cbn [pods tables clock].
  - by eapply fleet_update, Hinv.
  - intros k m. rewrite Htab. intros [[<- <-]|[_ Hk]]%lookup_insert_Some; [done|by apply (di_keys _ _ _ Hinv)].
  - intros j y [[-> ->]|[_ Hy]]%pods_insert; [|by eapply (di_pod _ _ _ Hinv)]. split; [done|]. split; [done|]. simpl. lia.
  - intros j y [[-> ->]|[Hne Hy]]%pods_insert Hm.
    + split; [by eapply (di_writer _ _ _ Hinv i x)|]. exists l. split_and!; [done|by left|]. intros _ _. split; [by rewrite Hu|].
      change (plast x') with (plast x). split.
      * intros k u t' m [[-> ->]|[_ Hu']]%pods_insert Hph'; [done|].
        pose proof (di_pod _ _ _ Hinv k u Hu') as (_ & _ & Hpu). rewrite Hph' in Hpu. simpl in *. lia.
      * intros k u Hk [[-> ->]|[_ Hu']]%pods_insert Hmu; [done|].
        pose proof (di_pod _ _ _ Hinv k u Hu') as (_ & Hpu & _). specialize (Hpu Hmu). simpl in *. lia.
    + split; [by eapply (di_writer _ _ _ Hinv j y)|]. exists l. split_and!; [done| |].
      * right. pose proof (di_pod _ _ _ Hinv j y Hy) as (_ & Hpy & _). specialize (Hpy Hm). cbn [clock] in Hpy. split; [lia|].
        exists i, x'. cbn [pods]. rewrite list_lookup_insert_eq by (by eapply lookup_lt_Some).
        split_and!; [done|done|done|simpl; lia].
      * intros _ Hown. destruct Hne. apply (fl_ids _ _ _ F j i y x Hy Hi). congruence.
  - intros j k y u Hjk [[-> ->]|[Hj Hy]]%pods_insert Hu' Hmy; revert Hu';
      intros [[-> ->]|[Hk Hu']]%pods_insert Hmu; [done|..|by apply (di_apart _ _ _ Hinv j k)].
    + by apply (di_apart _ _ _ Hinv i k x u).
    + by apply (di_apart _ _ _ Hinv j i y x).
  - intros j y [[-> ->]|[Hne Hy]]%pods_insert Hm Hs.
    + exists l. split_and!; [done|done|left; simpl; lia|]. intros k u Hk Hu'. apply pods_insert in Hu' as [[-> _]|[_ Hu']]; [done|].
      destruct (di_established _ _ _ Hinv i x Hi Hm Hs) as (_ & _ & _ & _ & Hoth). by eapply Hoth.
    + exfalso. destruct (di_established _ _ _ Hinv j y Hy Hm Hs) as (_ & _ & _ & _ & Hoth). by destruct (Hoth i x ltac:(done) Hi).
Qed.

Lemma dr_inv_step name D s s' : dr_step true D s s' -> dr_inv name D s -> dr_inv name D s'.
Proof.
  intros Hs Hi. destruct Hs as [now ts ps Hall|now ts ps i x Hx Hph Hst|now ts ps i x t rr scan Hx Hph Hscan|now ts ps i x t l Hx Hph|now ts ps i x t l Hf]; [| | | |done].
  - pose proof Hi as [F K P W A E]. cbn [pods tables clock] in *. split; try done. cbn [pods clock].
    intros i x Hx. destruct (P i x Hx) as (H1 & H2 & H3). rewrite Forall_lookup in Hall. specialize (Hall i x Hx).
    unfold on_time in Hall. split_and!; [done|by intros ?%H2; lia|]. destruct (pphase x) as [|t|t l]; [auto|..];
      destruct H3 as (? & ? & H3); split_and!; try lia; by apply H3.
  - pose proof (di_pod _ _ _ Hi i x Hx) as (H1 & H2 & H3). rewrite Hph in H3. pose proof (fl_delay _ _ _ (di_fleet _ _ _ Hi)).
    apply (dr_inv_quiet _ _ _ _ _ _ x); [done|done|done|done|..].
    + by apply (not_writing_start _ now); left.
    + by apply (not_writing_start _ now); right.
    + done.
    + unfold pod_ok. simpl in *. split_and!; [done|done|lia..|done].
  - destruct (fl_cfg _ _ _ (di_fleet _ _ _ Hi) i x Hx) as (_ & _ & _ & HwD).
    pose proof (fl_delay _ _ _ (di_fleet _ _ _ Hi)). pose proof (di_pod _ _ _ Hi i x Hx) as (_ & _ & Hp). rewrite Hph in Hp.
    pose proof (scan_cases _ _ _ i x t rr scan Hi Hx Hph Hscan) as Hc. cbv zeta in Hc. cbn [clock] in Hp.
    revert Hc. generalize (ExecuteStateCheck (pcfg x) t (Some rr) scan (pod_state x)) as r. intros r Hc.
    destruct Hc as [[Hro Hno]|[(l & Hl & Ho & Hrw & Hre)|(Hro & w & Hw & Ho & Hu & Hn & Hk)]].
    + apply (dr_inv_quiet _ _ _ _ _ _ x); [done|done|done|simpl; lia|..].
      * apply (not_writing_start _ t); by right.
      * intros (u & m & E). simpl in E. by rewrite Hno in E.
      * unfold may_write. simpl. congruence.
      * unfold pod_ok, may_write. simpl. rewrite Hro, Hno. split_and!; [lia|done|done].
    + apply (dr_inv_owner _ _ _ _ _ _ x _ t (l <| UpdatedTime := t |>) l); try done; simpl.
      * by rewrite Hrw.
      * by rewrite Hre.
      * apply (di_keys _ _ _ Hi _ _ Hl).
    + apply (dr_inv_takeover _ _ _ _ _ _ x _ t w); try done; simpl; [by rewrite Hro|by rewrite Hw].
  - by apply (dr_inv_write _ _ _ _ _ _ _ t).
Qed.

Lemma dr_inv_reach name D s s' : rtc (dr_step true D) s s' -> dr_inv name D s -> dr_inv name D s'.
Proof. induction 1; eauto using dr_inv_step. Qed.

Definition all_passive (s : dr_sys) : Prop :=
  forall i x, pods s !! i = Some x -> ReadOnly (pod_state x) = true /\ streak x = 0%nat /\ pphase x = Idle.

Lemma dr_inv_start name D s :
  fleet_ok name D (pods s) -> (forall k l, lease_table s !! k = Some l -> RwLeaseName l = k) -> all_passive s -> dr_inv name D s.
Proof.
  intros Hf Hk Hro. assert (forall i x, pods s !! i = Some x -> ~ may_write x) as Hn.
  { intros i x Hx Hm. destruct (Hro i x Hx) as (Hr & _). unfold may_write in Hm. congruence. }
  split; [done|done| | | |].
  - intros i x Hx. destruct (Hro i x Hx) as (_ & Hs & Hph). unfold pod_ok. rewrite Hph, Hs. split_and!; [lia|..]; by intros ?%(Hn i x Hx).
  - by intros i x Hx ?%(Hn i x Hx).
  - by intros i j x y _ Hx _ ?%(Hn i x Hx).
  - by intros i x Hx ?%(Hn i x Hx).
Qed.

(** The lease in the table is that of the pod, from its last check or the one before it. *)
Definition holds_lease (name : string) (s : dr_sys) (x : pod) : Prop :=
  exists l, lease_table s !! name = Some l /\ LeaseOwner l = PodIdentifier (pcfg x) /\ plast x - wait x <= UpdatedTime l.

Lemma writers_apart name D s i j x y :
  dr_inv name D s -> i <> j -> pods s !! i = Some x -> pods s !! j = Some y -> may_write x -> may_write y ->
  plast x + wait y - 2 * D <= plast y ->
  streak x = 1%nat /\ streak y = 1%nat /\ plast x + wait y - 2 * D <= clock s <= plast x + wait x + D.
Proof.
  intros Hi Hij Hx Hy Hmx Hmy Hp. pose proof (fl_delay _ _ _ (di_fleet _ _ _ Hi)).
  assert (forall k z k' z', k <> k' -> pods s !! k = Some z -> pods s !! k' = Some z' -> may_write z -> may_write z' -> streak z = 1%nat) as H1.
  { intros k z k' z' Hk Hz Hz' Hm Hm'. destruct (di_writer _ _ _ Hi k z Hz Hm) as [Hs _].
    destruct (decide (streak z = 1%nat)); [done|]. destruct (di_established _ _ _ Hi k z Hz Hm ltac:(lia)) as (_ & _ & _ & _ & Ho).
    by destruct (Ho k' z' ltac:(done) Hz'). }
  split; [by eapply (H1 i x j y)|]. split; [by eapply (H1 j y i x)|].
  pose proof (di_pod _ _ _ Hi j y Hy) as (_ & Hny & _). specialize (Hny Hmy).
  pose proof (di_pod _ _ _ Hi i x Hx) as Hpx. destruct (fl_cfg _ _ _ (di_fleet _ _ _ Hi) i x Hx) as (_ & _ & _ & Hw).
  destruct (writer_deadline _ _ _ Hmx Hpx) as [?|(u & m & E)]; [done|lia|].
  destruct Hpx as (_ & _ & Hpx). rewrite E in Hpx. lia.
Qed.

(** ** The property *)


(** ** Two pods *)

Definition ro_pod (id : string) : pod := mkPod (pod_config id) (mkAdmiralState true false) 0 0 Idle.
Definition rw_pod (id : string) (t : Z) (n : nat) : pod := mkPod (pod_config id) (mkAdmiralState false true) t n Idle.
(** A pod that has just written itself as the owner. *)
Definition claiming_pod (id : string) (t : Z) : pod := mkPod (pod_config id) (mkAdmiralState true false) t 0 Idle.
Definition owned (owner : string) (t : Z) : gmap string (gmap string ReadWriteLease) :=
  {[ scanned_table := {[ "lease" := mkReadWriteLease "lease" owner t "" ]} ]}.

Lemma scan_owned owner t : scanned (owned owner t) (Some [mkReadWriteLease "lease" owner t ""]).
Proof. eexists. split; [reflexivity|by vm_compute]. Qed.

Lemma ticks b D now ts ps (n : nat) :
  (forall t, now <= t < now + Z.of_nat n -> Forall (on_time D t) ps) ->
  rtc (dr_step b D) (mkSys now ts ps) (mkSys (now + Z.of_nat n) ts ps).
Proof.
  induction n as [|n IH]; intros Hn; [by rewrite Z.add_0_r|]. eapply rtc_r; [apply IH; intros; apply Hn; lia|].
  replace (now + Z.of_nat (S n)) with (now + Z.of_nat n + 1) by lia. apply dr_tick, Hn. lia.
Qed.

(** A check that nobody disturbs: it starts and scans, and its write arrives. *)
Section WholeCheck.
Context (b : bool) (D now : Z) (ts : gmap string (gmap string ReadWriteLease)) (ps : list pod) (i : nat) (x : pod)
  (scan : option (list ReadWriteLease)) (l : ReadWriteLease).
Let x1 := x <| pphase := Scanning now |>.
Let x2 := after_scan now x1 (ExecuteStateCheck (pcfg x) now (Some (Some false)) scan (pod_state x)).
Context (Hx : ps !! i = Some x) (Hph : pphase x = Idle) (Hst : plast x + wait x - D <= now) (Hs : scanned ts scan)
  (Hw : pphase x2 = Writing now l).

Lemma start_and_scan ts' :
  (forall qs, qs !! i = Some x2 -> dr_step b D (mkSys now ts qs) (mkSys now ts' (<[i := x2 <| pphase := Idle |>]> qs))) ->
  rtc (dr_step b D) (mkSys now ts ps) (mkSys now ts' (<[i := x2 <| pphase := Idle |>]> ps)).
Proof using Hx Hph Hst Hs.
  intros Hlast. pose proof (lookup_lt_Some _ _ _ Hx) as Hlt.
  eapply rtc_l; [by apply (dr_start _ _ _ _ _ i x)|]. fold x1.
  eapply rtc_l; [apply (dr_scan _ _ _ _ _ i x1 now (Some false) scan); [by rewrite list_lookup_insert_eq|done|done]|].
  rewrite list_insert_insert_eq. apply rtc_once.
  rewrite <- (list_insert_insert_eq ps i (x2 <| pphase := Idle |>) x2).
  apply Hlast. by rewrite list_lookup_insert_eq.
Qed.

Lemma whole_check :
  rtc (dr_step b D) (mkSys now ts ps) (mkSys now (PutItem (TableName (pcfg x)) l ts) (<[i := x2 <| pphase := Idle |>]> ps)).
Proof using Hx Hph Hst Hs Hw. apply start_and_scan. intros qs Hq. by apply (dr_write _ _ _ _ _ i x2 now l). Qed.

Lemma failed_check :
  b = false -> rtc (dr_step b D) (mkSys now ts ps) (mkSys now ts (<[i := x2 <| pphase := Idle |>]> ps)).
Proof using Hx Hph Hst Hs Hw. intros Hb. apply start_and_scan. intros qs Hq. by apply (dr_write_failed _ _ _ _ _ i x2 now l). Qed.
End WholeCheck.

Definition lease_sys : dr_sys := mkSys 50 (owned "a" 0) [ro_pod "a"; ro_pod "b"].

Lemma lease_fleet D : 0 <= D -> 4 * D < 15 -> fleet_ok "lease" D (pods lease_sys).
Proof.
  intros HD H15. assert (forall i x, pods lease_sys !! i = Some x -> i = 0%nat /\ x = ro_pod "a" \/ i = 1%nat /\ x = ro_pod "b") as Hp.
  { intros [|[|i]] x; simpl; [by intros [= <-]; auto|by intros [= <-]; auto|done]. }
  split; [done| | |].
  - intros i x [[-> ->]|[-> ->]]%Hp; simpl; split_and!; (done || lia).
  - by intros i j x y [[-> ->]|[-> ->]]%Hp [[-> ->]|[-> ->]]%Hp.
  - intros i j x y [[-> ->]|[-> ->]]%Hp [[-> ->]|[-> ->]]%Hp; simpl; lia.
Qed.

Lemma lease_keys k l : lease_table lease_sys !! k = Some l -> RwLeaseName l = k.
Proof.
  change (lease_table lease_sys) with ({[ "lease" := mkReadWriteLease "lease" "a" 0 "" ]} : gmap string ReadWriteLease).
  intros [<- <-]%lookup_singleton_Some. reflexivity.
Qed.

Lemma lease_passive : all_passive lease_sys.
Proof. intros [|[|i]] x; simpl; by intros [= <-]. Qed.

(** Pod [a], which owned the lease, checks twice. *)
Lemma two_checks : rtc (dr_step true 1) lease_sys (mkSys 64 (owned "a" 64) [rw_pod "a" 64 2; ro_pod "b"]).
Proof.
  etrans; [exact (whole_check true 1 50 _ [ro_pod "a"; ro_pod "b"] 0 (ro_pod "a") _
    (mkReadWriteLease "lease" "a" 50 "") eq_refl eq_refl ltac:(done) (scan_owned "a" 0) eq_refl)|].
  etrans; [apply (ticks _ _ _ _ _ 14)|].
  { intros t Ht. repeat constructor; [intros _; simpl; lia|by intros ?]. }
  exact (whole_check true 1 64 _ [rw_pod "a" 50 1; ro_pod "b"] 0 (rw_pod "a" 50 1) _
    (mkReadWriteLease "lease" "a" 64 "") eq_refl eq_refl ltac:(done) (scan_owned "a" 50) eq_refl).
Qed.


(** ** What goes wrong *)

(** Pod [a] owns a lease that it has not renewed for long, for instance because it was
    warming up.  Pod [b] reads it, and is about to take it over, when [a] checks, may write
    and renews the lease; then the write of [b] arrives, which is not conditional.  At its
    next check, fifteen seconds later, [b] owns the lease and may write, while the check of
    [a] is due in the same second. *)
Lemma takeover_race :
  exists s, rtc (dr_step true 0) lease_sys s /\ Forall may_write (pods s).
Proof.
  exists (mkSys 65 (owned "b" 65) [rw_pod "a" 50 1; rw_pod "b" 65 1]). split; [|by repeat constructor].
  pose (b1 := ro_pod "b" <| pphase := Scanning 50 |>).
  pose (b2 := claiming_pod "b" 50 <| pphase := Writing 50 (mkReadWriteLease "lease" "b" 50 "") |>).
  pose (a1 := ro_pod "a" <| pphase := Scanning 50 |>).
  pose (a2 := rw_pod "a" 50 1 <| pphase := Writing 50 (mkReadWriteLease "lease" "a" 50 "") |>).
  eapply rtc_l; [exact (dr_start true 0 50 _ [ro_pod "a"; ro_pod "b"] 1 (ro_pod "b") eq_refl eq_refl ltac:(done))|].
  eapply rtc_l; [exact (dr_scan true 0 50 _ [ro_pod "a"; b1] 1 b1 50 (Some false) _ eq_refl eq_refl (scan_owned "a" 0))|].
  etrans; [exact (whole_check true 0 50 _ [ro_pod "a"; b2] 0 (ro_pod "a") _
    (mkReadWriteLease "lease" "a" 50 "") eq_refl eq_refl ltac:(done) (scan_owned "a" 0) eq_refl)|].
  eapply rtc_l; [exact (dr_write true 0 50 _ [rw_pod "a" 50 1; b2] 1 b2 50 _ eq_refl eq_refl)|].
  etrans; [apply (ticks _ _ _ _ _ 15)|].
  { intros t Ht. repeat constructor; [intros _; simpl; lia|by intros ?]. }
  exact (whole_check true 0 65 _ [rw_pod "a" 50 1; claiming_pod "b" 50] 1 (claiming_pod "b" 50) _
    (mkReadWriteLease "lease" "b" 65 "") eq_refl eq_refl ltac:(done) (scan_owned "b" 50) eq_refl).
Qed.

(** The error of the write is dropped: an owner that cannot renew the lease goes on writing,
    check after check, and another pod takes over beside it. *)
Lemma failed_renewal_split_brain :
  exists s, rtc (dr_step false 0) lease_sys s /\ pods s = [rw_pod "a" 65 2; rw_pod "b" 80 1].
Proof.
  exists (mkSys 80 (owned "b" 80) [rw_pod "a" 65 2; rw_pod "b" 80 1]). split; [|done].
  etrans; [exact (failed_check false 0 50 _ [ro_pod "a"; ro_pod "b"] 0 (ro_pod "a") _
    (mkReadWriteLease "lease" "a" 50 "") eq_refl eq_refl ltac:(done) (scan_owned "a" 0) eq_refl eq_refl)|].
  etrans; [apply (ticks _ _ _ _ _ 15); intros t Ht; repeat constructor; [intros _; simpl; lia|by intros ?]|].
  etrans; [exact (failed_check false 0 65 _ [rw_pod "a" 50 1; ro_pod "b"] 0 (rw_pod "a" 50 1) _
    (mkReadWriteLease "lease" "a" 65 "") eq_refl eq_refl ltac:(done) (scan_owned "a" 0) eq_refl eq_refl)|].
  etrans; [exact (whole_check false 0 65 _ [rw_pod "a" 65 2; ro_pod "b"] 1 (ro_pod "b") _
    (mkReadWriteLease "lease" "b" 65 "") eq_refl eq_refl ltac:(done) (scan_owned "a" 0) eq_refl)|].
  etrans; [apply (ticks _ _ _ _ _ 15); intros t Ht; repeat constructor; [intros _; simpl; lia|by intros ?]|].
  exact (whole_check false 0 80 _ [rw_pod "a" 65 2; claiming_pod "b" 65] 1 (claiming_pod "b" 65) _
    (mkReadWriteLease "lease" "b" 80 "") eq_refl eq_refl ltac:(done) (scan_owned "b" 65) eq_refl).
Qed.
