(* ===== verification/LeaseTable.v ===== *)
(** * The lease table

    The calls of [clusters/dynamoDB.go] that the state checkers make: the lease is written
    by [updatedReadWriteLease] and read by [getReadWriteLease], and the items of the list
    of ignored identities by [getIgnoreIdentityListItem].  The tables and the conversion of
    items are those of the AWS SDK; with what it documents the pods over the database
    behave as those of [LeaseProtocol.v] over tables of leases. *)
From S2P Require Import Prelude GoStrings Config StateCheck LeaseProtocol.
From stdpp Require Import options.

(** ** The calls *)

(** An item is a map of attributes.  [UnmarshalMap] stores into a value that has fields
    already. *)
Class LeaseDB (St AV : Type) := {
  PutItem_ : string -> gmap string AV -> St -> St * error;
  Scan : string -> St -> St * (list (gmap string AV) + string);
  MarshalLease : ReadWriteLease -> gmap string AV + string;
  UnmarshalLease : gmap string AV -> ReadWriteLease -> ReadWriteLease + string;
  UnmarshalIgnored : gmap string AV -> IgnoredIdentityCache -> IgnoredIdentityCache + string
}.

Section Calls.
Context {St AV : Type} {db : LeaseDB St AV}.

Definition updatedReadWriteLease (lease : ReadWriteLease) (tableName : string) (s : St) : St * error :=
  match MarshalLease lease with
  | inr err => (s, Some err)
  | inl av => PutItem_ tableName av s
  end.

Definition zero_lease : ReadWriteLease := mkReadWriteLease "" "" 0 "".

(** The loop, with the [item] that is declared before it; [None] is the panic. *)
Fixpoint read_leases (item : ReadWriteLease) (items : list (gmap string AV)) : option (list ReadWriteLease) :=
  match items with
  | [] => Some []
  | v :: items =>
      match UnmarshalLease v item with
      | inr _ => None
      | inl item => cons item <$> read_leases item items
      end
  end.

Definition getReadWriteLease (s : St) : option (St * (list ReadWriteLease + string)) :=
  match Scan scanned_table s with
  | (s', inr err) => Some (s', inr err)
  | (s', inl items) => (fun leases => (s', inl leases)) <$> read_leases zero_lease items
  end.

Definition zero_ignored : IgnoredIdentityCache := mkIgnoredIdentityCache false false "" ∅.

(** The items before an unreadable one are returned with the error. *)
Fixpoint read_ignored (clusterEnvironment : string) (items : list (gmap string AV)) : list IgnoredIdentityCache * error :=
  match items with
  | [] => ([], None)
  | item :: rest =>
      match UnmarshalIgnored item zero_ignored with
      | inr err => ([], Some ("failed to unmarshal table items, err: " +:+ err))
      | inl currentStore =>
          let '(stores, err) := read_ignored clusterEnvironment rest in
          ((if ClusterEnvironment currentStore =?s clusterEnvironment then [currentStore] else []) ++ stores, err)
      end
  end.

Definition getIgnoreIdentityListItem (tableName clusterEnvironment : string) (s : St)
    : St * (list IgnoredIdentityCache * error) :=
  match Scan tableName s with
  | (s', inr err) => (s', ([], Some ("failed to scan table: '" +:+ tableName +:+ "', err: " +:+ err)))
  | (s', inl items) => (s', read_ignored clusterEnvironment items)
  end.
End Calls.

(** ** The checks of the pods *)

Section Pods.
Context {St AV : Type} {db : LeaseDB St AV}.

(** [ExecuteStateCheck] up to its write: the new state and the lease to write.  [None] is the
    panic over a row that cannot be decoded; without a registry in the context nothing is
    read. *)
Definition check_scan (c : DynamoDBConfig) (currentTime : Z) (remoteRegistry : option (option bool)) (state : AdmiralState)
    (s : St) : option (St * (AdmiralState * option ReadWriteLease)) :=
  match remoteRegistry with
  | None => Some (s, (state, None))
  | Some _ =>
      '(s, read) ← getReadWriteLease s;
      let scan := match read with inl readWriteLeases => Some readWriteLeases | inr _ => None end in
      Some (s, ExecuteStateCheck c currentTime remoteRegistry scan state)
  end.

(** The pods over a database, as in [dr_step]; the error of the write is dropped. *)
Record db_sys := mkDbSys { dbClock : Z; dbState : St; dbPods : list pod }.
Inductive db_step (D : Z) : db_sys -> db_sys -> Prop :=
| db_tick now s ps :
    Forall (on_time D now) ps -> db_step D (mkDbSys now s ps) (mkDbSys (now + 1) s ps)
| db_start now s ps i x :
    ps !! i = Some x -> pphase x = Idle -> (plast x + wait x - D <= now)%Z ->
    db_step D (mkDbSys now s ps) (mkDbSys now s (<[i := x <| pphase := Scanning now |>]> ps))
| db_scan now s ps i x t rr s' r :
    ps !! i = Some x -> pphase x = Scanning t -> check_scan (pcfg x) t (Some rr) (pod_state x) s = Some (s', r) ->
    db_step D (mkDbSys now s ps) (mkDbSys now s' (<[i := after_scan t x r]> ps))
| db_write now s ps i x t l :
    ps !! i = Some x -> pphase x = Writing t l ->
    db_step D (mkDbSys now s ps)
      (mkDbSys now (updatedReadWriteLease l (TableName (pcfg x)) s).1 (<[i := x <| pphase := Idle |>]> ps)).
End Pods.
Arguments db_sys St : clear implicits.

(** ** The tables of the SDK *)

(** What the SDK documents: an item is kept under its key; a scan gives the items of the
    table in some order; a lease can be converted, and what is read for a converted lease
    is this lease, whatever the value had before. *)
Class LeaseDBLaws {St AV : Type} (db : LeaseDB St AV) := {
  tables_of : St -> gmap string (gmap string (gmap string AV));
  item_key : gmap string AV -> string;
  marshalled : ReadWriteLease -> gmap string AV;
  marshal_lease l : MarshalLease l = inl (marshalled l);
  marshalled_key l : item_key (marshalled l) = RwLeaseName l;
  unmarshal_marshalled l l0 : UnmarshalLease (marshalled l) l0 = inl l;
  put_item t item s s' : PutItem_ t item s = (s', None) ->
    tables_of s' = <[t := <[item_key item := item]> (default ∅ (tables_of s !! t))]> (tables_of s);
  put_failed t item s s' e : PutItem_ t item s = (s', Some e) -> tables_of s' = tables_of s;
  scan_items t s s' items : Scan t s = (s', inl items) ->
    tables_of s' = tables_of s /\ exists tb, tables_of s !! t = Some tb /\ items ≡ₚ (map_to_list tb).*2;
  scan_failed t s s' e : Scan t s = (s', inr e) -> tables_of s' = tables_of s
}.

Section Laws.
Context {St AV : Type} {db : LeaseDB St AV} {laws : LeaseDBLaws db}.

(** A row that nothing can be read from. *)
Definition broken (av : gmap string AV) : Prop := forall l0, exists e, UnmarshalLease av l0 = inr e.

(** The rows of the tables are the items of these leases, and broken ones. *)
Definition row_ok (l : option ReadWriteLease) (av : option (gmap string AV)) : Prop :=
  match l, av with
  | Some l, Some av => av = marshalled l
  | Some _, None => False
  | None, Some av => broken av
  | None, None => True
  end.
Definition holds (ts : gmap string (gmap string ReadWriteLease)) (s : St) : Prop :=
  forall t, match ts !! t, tables_of s !! t with
            | Some a, Some b => forall k, row_ok (a !! k) (b !! k)
            | None, None => True
            | _, _ => False
            end.

Lemma not_broken l : ~ broken (marshalled l).
Proof. intros Hb. destruct (Hb zero_lease) as [e He]. by rewrite unmarshal_marshalled in He. Qed.

(** The rows are read in their order unless one is broken. *)
Lemma read_leases_rows (items : list (gmap string AV)) (item : ReadWriteLease) :
  Forall (fun av => broken av \/ exists l, av = marshalled l) items ->
  match read_leases item items with
  | Some leases => items = marshalled <$> leases
  | None => Exists broken items
  end.
Proof.
  intros H. revert item. induction H as [|av items [Hb|[l ->]] _ IH]; intros item; simpl; [done| |].
  - destruct (Hb item) as [e ->]. by left.
  - rewrite unmarshal_marshalled. specialize (IH l). destruct (read_leases l items) as [leases|]; simpl; [by rewrite IH|by right].
Qed.

(** A write that succeeds puts the lease under its name, and one that fails changes nothing. *)
Lemma write_implements (ts : gmap string (gmap string ReadWriteLease)) (s : St) l t : holds ts s ->
  match updatedReadWriteLease l t s with
  | (s', None) => holds (PutItem t l ts) s'
  | (s', Some _) => holds ts s'
  end.
Proof.
  intros H. unfold updatedReadWriteLease. rewrite marshal_lease.
  destruct (PutItem_ t (marshalled l) s) as [s' [e|]] eqn:E; intros u; unfold PutItem.
  - rewrite (put_failed _ _ _ _ _ E). apply H.
  - rewrite (put_item _ _ _ _ E), marshalled_key. specialize (H u). destruct (decide (t = u)) as [->|Hne].
    + rewrite !lookup_insert_eq. intros k. destruct (decide (RwLeaseName l = k)) as [->|Hk].
      * by rewrite !lookup_insert_eq.
      * rewrite !lookup_insert_ne by done. destruct (ts !! u), (tables_of s !! u); simpl; rewrite ?lookup_empty; by try apply H.
    + by rewrite !lookup_insert_ne.
Qed.

Lemma holds_same ts s s' : tables_of s' = tables_of s -> holds ts s -> holds ts s'.
Proof. intros E H t. specialize (H t). by rewrite E. Qed.

(** A read panics exactly when it gets a broken row; otherwise it changes nothing and returns
    the leases of the table, in some order, or an error. *)
Lemma read_implements (ts : gmap string (gmap string ReadWriteLease)) (s : St) : holds ts s ->
  match getReadWriteLease s with
  | None => exists s' items, Scan scanned_table s = (s', inl items) /\ Exists broken items
  | Some (s', r) => holds ts s' /\ scanned ts (match r with inl leases => Some leases | inr _ => None end) /\
      forall s' items, Scan scanned_table s = (s', inl items) -> ~ Exists broken items
  end.
Proof.
  intros H. unfold getReadWriteLease. destruct (Scan scanned_table s) as [s' [items|e]] eqn:E.
  2:{ split_and!; [apply (holds_same _ _ _ (scan_failed _ _ _ _ E) H)|done|done]. }
  apply scan_items in E as (Hs & tb & Ht & Hp). pose proof (H scanned_table) as Hrows. rewrite Ht in Hrows.
  destruct (ts !! scanned_table) as [a|] eqn:Ea; [|done].
  assert (Forall (fun av => broken av \/ exists l, av = marshalled l) items) as Hall.
  { rewrite Hp. apply Forall_forall. intros av ([k v] & -> & Hk%elem_of_map_to_list)%list_elem_of_fmap. specialize (Hrows k).
    rewrite Hk in Hrows. destruct (a !! k); simpl in *; [right; by eexists|by left]. }
  pose proof (read_leases_rows items zero_lease Hall) as Hr. destruct (read_leases zero_lease items) as [leases|]; simpl.
  2:{ by exists s', items. }
  assert (~ Exists broken items) as Hnb.
  { rewrite Hr. intros (av & (l & -> & _)%list_elem_of_fmap & Hb)%Exists_exists. by apply (not_broken l). }
  split_and!; [by apply (holds_same ts s)| |by intros ? ? [= <- <-]]. exists a. split; [done|].
  assert (tb = marshalled <$> a) as ->.
  { apply map_eq. intros k. rewrite lookup_fmap. specialize (Hrows k). destruct (a !! k) as [l|], (tb !! k) as [av|] eqn:Hk;
      simpl in *; [by rewrite Hrows|done| |done].
    destruct Hnb. apply Exists_exists. exists av. split; [|done]. rewrite Hp. apply list_elem_of_fmap.
    exists (k, av). split; [done|]. by apply elem_of_map_to_list. }
  rewrite map_to_list_fmap, <-list_fmap_compose in Hp.
  change (snd ∘ prod_map id marshalled) with (marshalled ∘ (snd : string * ReadWriteLease -> _)) in Hp.
  rewrite list_fmap_compose in Hp. rewrite Hr in Hp. apply Permutation_map_inv in Hp as (leases' & Hl & Hp).
  assert (leases = leases') as ->; [|done]. revert Hl. clear. revert leases'. induction leases as [|l leases IH]; intros [|l' leases'] [=]; [done|].
  f_equal; [|by apply IH]. assert (UnmarshalLease (marshalled l) l = UnmarshalLease (marshalled l') l) as E by congruence.
  rewrite !unmarshal_marshalled in E. congruence.
Qed.

(** Every step over the database is one over the tables; it is that of a failed write only
    if the database has refused one. *)
Lemma db_step_implements b D (ts : gmap string (gmap string ReadWriteLease)) (c c' : db_sys St) :
  (b = true -> forall t item s, (PutItem_ t item s).2 = None) -> holds ts (dbState c) -> db_step D c c' ->
  exists ts', holds ts' (dbState c') /\ dr_step b D (mkSys (dbClock c) ts (dbPods c)) (mkSys (dbClock c') ts' (dbPods c')).
Proof.
  intros Hb H Hs. destruct Hs as [now s ps Hall|now s ps i x Hx Hph Hst|now s ps i x t rr s' r Hx Hph Hc|now s ps i x t l Hx Hph];
    cbn [dbState dbClock dbPods] in *.
  - exists ts. split; [done|by constructor].
  - exists ts. split; [done|by constructor].
  - pose proof (read_implements ts s H) as Hr. unfold check_scan in Hc. destruct (getReadWriteLease s) as [[s1 read]|]; [|done].
    injection Hc as <- <-. destruct Hr as (H1 & Hscan & _). exists ts. split; [done|]. by apply dr_scan.
  - pose proof (write_implements ts s l (TableName (pcfg x)) H) as Hw.
    destruct (updatedReadWriteLease l (TableName (pcfg x)) s) as [s' [e|]] eqn:E; simpl.
    + exists ts. split; [done|]. apply (dr_write_failed _ _ _ _ _ _ _ t l); [|done|done]. destruct b; [|done].
      unfold updatedReadWriteLease in E. rewrite marshal_lease in E. specialize (Hb eq_refl (TableName (pcfg x)) (marshalled l) s).
      by rewrite E in Hb.
    + eexists. split; [exact Hw|]. by apply (dr_write _ _ _ _ _ _ _ t l).
Qed.

Lemma db_run b D (ts : gmap string (gmap string ReadWriteLease)) (c c' : db_sys St) :
  (b = true -> forall t item s, (PutItem_ t item s).2 = None) -> holds ts (dbState c) -> rtc (db_step D) c c' ->
  exists ts', holds ts' (dbState c') /\
    rtc (dr_step b D) (mkSys (dbClock c) ts (dbPods c)) (mkSys (dbClock c') ts' (dbPods c')).
Proof.
  intros Hput H Hr. revert ts H. induction Hr as [c|c c1 c' Hs Hr IH]; intros ts H; [by exists ts|].
  destruct (db_step_implements b D ts c c1 Hput H Hs) as (ts1 & H1 & Hd).
  destruct (IH ts1 H1) as (ts' & H' & Hrun). exists ts'. split; [done|]. by eapply rtc_l.
Qed.


(** The pods of a deployment over a database that accepts their writes: one that two checks
    in a row have let write is the only one. *)
Lemma database_at_most_one_writer (name : string) (D : Z) (ts : gmap string (gmap string ReadWriteLease)) (c c' : db_sys St) :
  (forall t item s, (PutItem_ t item s).2 = None) -> holds ts (dbState c) ->
  dr_inv name D (mkSys (dbClock c) ts (dbPods c)) -> rtc (db_step D) c c' ->
  forall i j x y, dbPods c' !! i = Some x -> dbPods c' !! j = Some y -> may_write x -> may_write y ->
    (2 <= streak x)%nat -> i = j.
Proof.
  intros Hput H Hi Hr i j x y Hx Hy Hmx Hmy Hs.
  destruct (db_run true D ts c c' ltac:(done) H Hr) as (ts' & _ & Hrun). apply (dr_inv_reach name) in Hrun; [|done].
  destruct (di_established _ _ _ Hrun i x Hx Hmx Hs) as (_ & _ & _ & _ & Hoth).
  destruct (decide (j = i)) as [|Hne]; [done|]. by destruct (Hoth j y Hne Hy).
Qed.
End Laws.

(** ** An SDK *)

(** Attributes are texts, numbers or null; an empty text is kept as null. *)
Inductive attribute := AvS (s : string) | AvN (n : Z) | AvNull.
Definition item := gmap string attribute.
Definition text (s : string) : attribute := if is_empty s then AvNull else AvS s.

Definition lease_item (l : ReadWriteLease) : item :=
  {[ "leaseName" := text (RwLeaseName l); "leaseOwner" := text (LeaseOwner l); "updatedTime" := AvN (UpdatedTime l);
     "notes" := text (Notes l) ]}.

(** A field is changed where its attribute is present. *)
Definition read_text (i : item) (name old : string) : string + string :=
  match i !! name with
  | None => inl old
  | Some AvNull => inl ""
  | Some (AvS s) => inl s
  | Some (AvN _) => inr "cannot unmarshal number"
  end.
Definition read_number (i : item) (name : string) (old : Z) : Z + string :=
  match i !! name with
  | None => inl old
  | Some AvNull => inl 0%Z
  | Some (AvN n) => inl n
  | Some (AvS _) => inr "cannot unmarshal string"
  end.
Definition item_lease (i : item) (l : ReadWriteLease) : ReadWriteLease + string :=
  match read_text i "leaseName" (RwLeaseName l), read_text i "leaseOwner" (LeaseOwner l),
        read_number i "updatedTime" (UpdatedTime l), read_text i "notes" (Notes l) with
  | inl name, inl owner, inl time, inl notes => inl (mkReadWriteLease name owner time notes)
  | _, _, _, _ => inr "cannot unmarshal"
  end.

Definition item_name (i : item) : string := match i !! "leaseName" with Some (AvS s) => s | _ => "" end.
Definition item_ignored (i : item) (c : IgnoredIdentityCache) : IgnoredIdentityCache + string :=
  match read_text i "clusterEnvironment" (ClusterEnvironment c) with
  | inl env => inl (mkIgnoredIdentityCache (Enabled c) (All c) env (EnvironmentsByIdentity c))
  | inr e => inr e
  end.

#[local] Instance tables_db : LeaseDB (gmap string (gmap string item)) attribute := {
  PutItem_ t i ts := (<[t := <[item_name i := i]> (default ∅ (ts !! t))]> ts, None);
  Scan t ts := (ts, match ts !! t with Some tb => inl (map_to_list tb).*2 | None => inr "no table" end);
  MarshalLease l := inl (lease_item l);
  UnmarshalLease := item_lease;
  UnmarshalIgnored := item_ignored
}.

Lemma read_text_of (i : item) (name s old : string) : i !! name = Some (text s) -> read_text i name old = inl s.
Proof. intros H. unfold read_text. rewrite H. unfold text. by destruct s. Qed.

#[local] Instance tables_laws : LeaseDBLaws tables_db.
Proof.
  refine {| tables_of := id; item_key := item_name; marshalled := lease_item |}; try done.
  - intros l. unfold item_name. change (lease_item l !! "leaseName") with (Some (text (RwLeaseName l))). unfold text.
    by destruct (RwLeaseName l).
  - intros l l0. unfold UnmarshalLease, tables_db, item_lease, lease_item.
    rewrite !(read_text_of _ _ (RwLeaseName l)), !(read_text_of _ "leaseOwner" (LeaseOwner l)),
      !(read_text_of _ "notes" (Notes l)) by done. by destruct l.
  - by intros t i s s' [= <-].
  - intros t s s' items [= <- H]. unfold id, item in *. split; [done|]. destruct (s !! t) as [tb|] eqn:E; [|done].
    exists tb. split; [done|]. by injection H as <-.
  - by intros t s s' e [= <- _].
Defined.

Definition lease_a : ReadWriteLease := mkReadWriteLease "a" "pod-1" 5 "".
Definition lease_tables : gmap string (gmap string ReadWriteLease) := {[ scanned_table := {[ "a" := lease_a ]} ]}.
Definition item_tables (row : item) : gmap string (gmap string item) := {[ scanned_table := {[ "a" := row ]} ]}.

(** The owner of the lease checks. *)
Definition owner_pod (state : AdmiralState) (last : Z) (n : nat) (ph : phase) : pod :=
  mkPod (mkDynamoDBConfig "a" "pod-1" 15 3 scanned_table) state last n ph.
Definition first_sys : db_sys (gmap string (gmap string item)) :=
  mkDbSys 20 (item_tables (lease_item lease_a)) [owner_pod (mkAdmiralState true false) 0 0 Idle].
Definition last_sys : db_sys (gmap string (gmap string item)) :=
  mkDbSys 20 (item_tables (lease_item (mkReadWriteLease "a" "pod-1" 20 ""))) [owner_pod (mkAdmiralState false true) 20 1 Idle].

Lemma one_check : rtc (db_step 1) first_sys last_sys.
Proof.
  eapply rtc_l; [exact (db_start 1 20 (item_tables (lease_item lease_a)) [owner_pod (mkAdmiralState true false) 0 0 Idle] 0 _ eq_refl eq_refl ltac:(done))|].
  eapply rtc_l; [exact (db_scan 1 20 (item_tables (lease_item lease_a)) [owner_pod (mkAdmiralState true false) 0 0 (Scanning 20)] 0 _ 20
    (Some false) (item_tables (lease_item lease_a)) (mkAdmiralState false true, Some (mkReadWriteLease "a" "pod-1" 20 ""))
    eq_refl eq_refl eq_refl)|].
  apply rtc_once. exact (db_write 1 20 (item_tables (lease_item lease_a)) [owner_pod (mkAdmiralState false true) 20 1
    (Writing 20 (mkReadWriteLease "a" "pod-1" 20 ""))] 0 _ 20 _ eq_refl eq_refl).
Qed.


(** A row whose time is a text: every check panics. *)
Lemma broken_row_panics :
  check_scan (mkDynamoDBConfig "a" "pod-1" 15 3 scanned_table) 20 (Some (Some false)) (mkAdmiralState true false)
    (item_tables (<["updatedTime" := AvS "now"]> (lease_item lease_a))) = None.
Proof. reflexivity. Qed.

(** Because the loop reads into one variable, a row without an attribute gets that of the
    row before it: here the lease of a new row has the owner and the time of another. *)
Lemma attributes_leak :
  read_leases zero_lease [lease_item lease_a; {[ "leaseName" := AvS "b" ]}] =
  Some [lease_a; mkReadWriteLease "b" "pod-1" 5 ""].
Proof. reflexivity. Qed.
