(* ===== verification/Controller.v ===== *)
(** * The event controller: informer events, work queue and retries

    Models [controller/admiral/controller.go].  Every watched kind has a controller:
    the informer's callbacks put events in a work queue, a worker takes them out,
    hands them to the kind's delegator and retries the failed ones.  The delegator
    is the interface [Delegator], which the controller of each kind implements.  How many
    workers there are is in [ControllerRun.v]. *)
From S2P Require Import Prelude GoStrings Config Objects Metadata ServiceCache.
From stdpp Require Import options.

Definition maxRetries := 2.
Definition Processed := "Processed".

(** What [Get] returns for a retry: an object, which may be nil, or the services of a
    namespace. *)
Inductive fetched (Obj : Type) :=
| FetchedObj (o : option Obj)
| FetchedServices (l : list Obj).
Arguments FetchedObj {Obj} _.
Arguments FetchedServices {Obj} _.

(** What the informer delivers: an object, or the tombstone of one. *)
Inductive delivered (A : Type) := Present (obj : A) | Stale (obj : A).
Arguments Present {A} _.
Arguments Stale {A} _.

(** [Delegator], on the state [D] of a kind and the objects [Obj] the informer
    delivers.  [obj_meta] is the cast to [metav1.Object], which fails for the
    tombstone of a deletion the informer missed; [GetCached] and [GetLatest] are
    [Get] with and without [isRetry]. *)
Class Delegator (D Obj : Type) := {
  obj_meta : Obj -> option ObjectMeta;
  is_tombstone : Obj -> bool;
  Added : Obj -> D -> D * error;
  Updated : Obj -> option Obj -> D -> D * error;
  Deleted : Obj -> D -> D * error;
  UpdateProcessItemStatus : Obj -> string -> D -> D * error;
  GetProcessItemStatus : Obj -> D -> string * error;
  GetCached : Obj -> D -> fetched Obj + string;
  GetLatest : Obj -> D -> D * (Obj + string);
  DoesGenerationMatch : Obj -> Obj -> bool * error;
  IsOnlyReplicaCountChanged : Obj -> Obj -> bool * error
}.

Record InformerCacheObj (Obj : Type) := mkInformerCacheObj {
  eventType : EventType;
  eobj : Obj;
  oldObj : option Obj
}.
Arguments mkInformerCacheObj {Obj} _ _ _.
Arguments eventType {Obj} _.
Arguments eobj {Obj} _.
Arguments oldObj {Obj} _.

Section Controller.
Context {D Obj : Type} {dl : Delegator D Obj}.
(** [commonUtil.IsAdmiralReadOnly()]. *)
Context (readOnly : bool).

(** ** Versions *)

Definition getMatchingServiceFromServiceSlice (service : ObjectMeta) (services : list Obj)
    : option ObjectMeta :=
  List.find (fun m => (Namespace m =?s Namespace service) && (Name m =?s Name service))
    (omap obj_meta services).

(** Resource versions are compared as strings. *)
Definition shouldRetry (obj : Obj) (d : D) : bool :=
  match obj_meta obj with
  | None => true
  | Some objMeta =>
      match GetCached obj d with
      | inr _ => true
      | inl objFromCache =>
          let latestObjMeta :=
            match objFromCache with
            | FetchedServices services => getMatchingServiceFromServiceSlice objMeta services
            | FetchedObj None => None
            | FetchedObj (Some o) => obj_meta o
            end in
          match latestObjMeta with
          | None => true
          | Some latest => negb (str_ltb (ResourceVersion objMeta) (ResourceVersion latest))
          end
      end
  end.

(** The object to process and whether to process it. *)
Definition checkIfResourceVersionHasIncreased (old new : Obj) (d : D) : D * (Obj * bool) :=
  match obj_meta old, obj_meta new with
  | Some oldMeta, Some newMeta =>
      if ResourceVersion oldMeta =?s ResourceVersion newMeta then (d, (old, false))
      else if str_ltb (ResourceVersion newMeta) (ResourceVersion oldMeta) then
        let '(d', latest, err, _) :=
          RetryWithBackOff (fun s : D * option Obj =>
            match GetLatest new s.1 with
            | (d', inl o) => ((d', Some o), None)
            | (d', inr e) => ((d', s.2), Some e)
            end) 5 (d, None) in
        match err, latest with
        | Some _, _ => (d', (new, true))
        | None, None => (d', (new, true))
        | None, Some latestObj =>
            match obj_meta latestObj with
            | Some latestMeta =>
                if ResourceVersion oldMeta =?s ResourceVersion latestMeta then (d', (old, false))
                else (d', (latestObj, true))
            | None => (d', (latestObj, true))
            end
        end
      else (d, (new, true))
  | _, _ => (d, (new, true))
  end.

(** ** The callbacks of the informer: the event for the queue, if any *)

Definition AddFuncImpl (obj : Obj) : option (InformerCacheObj Obj) :=
  match obj_meta obj with
  | Some _ => Some (mkInformerCacheObj Add obj None)
  | None => None
  end.

Definition UpdateFuncImpl (old new : Obj) (d : D) : D * option (InformerCacheObj Obj) :=
  match obj_meta new with
  | None => (d, None)
  | Some _ =>
      let status := (GetProcessItemStatus new d).1 in
      if (status =?s Processed) && (DoesGenerationMatch old new).1 then (d, None)
      else if (status =?s Processed) && (IsOnlyReplicaCountChanged old new).1 then (d, None)
      else
        let '(d1, (latestObj, isVersionChanged)) := checkIfResourceVersionHasIncreased old new d in
        if (status =?s NotProcessed) || isVersionChanged then
          (if readOnly then d1 else (UpdateProcessItemStatus latestObj ProcessingInProgress d1).1,
           Some (mkInformerCacheObj Update latestObj (Some old)))
        else (d1, None)
  end.

(** The key of a tombstone is that of the object it stands for. *)
Definition DeleteFuncImpl (obj : Obj) : option (InformerCacheObj Obj) :=
  if negb (is_nil (obj_meta obj)) || is_tombstone obj
  then Some (mkInformerCacheObj Delete obj None) else None.

(** ** The worker *)

Definition item_status (err : error) : string :=
  if readOnly then NotProcessed else match err with None => Processed | Some _ => ProcessingInProgress end.

Definition processItem (it : InformerCacheObj Obj) (d : D) : D * error :=
  let '(d1, err) :=
    match eventType it with
    | Delete => Deleted (eobj it) d
    | Update => Updated (eobj it) (oldObj it) d
    | Add => Added (eobj it) d
    end in
  ((UpdateProcessItemStatus (eobj it) (item_status err) d1).1, err).

(** What becomes of an item taken from the queue with [n] requeues behind it:
    [true] when it is added again. *)
Definition processNextItem (it : InformerCacheObj Obj) (n : nat) (d : D) : D * bool :=
  if bool_decide (0 < n) && negb (shouldRetry (eobj it) d) then (d, false)
  else
    let '(d1, err) := processItem it d in
    match err with
    | None => (d1, false)
    | Some _ =>
        if bool_decide (n < maxRetries) then (d1, shouldRetry (eobj it) d1)
        else ((UpdateProcessItemStatus (eobj it) NotProcessed d1).1, false)
    end.

(** The queue, with the number of requeues of each item; items added with a delay
    may be overtaken, so the worker may get any of them. *)
Inductive work_step : D * list (InformerCacheObj Obj * nat) -> D * list (InformerCacheObj Obj * nat) -> Prop :=
| work_item d q1 it n q2 :
    let r := processNextItem it n d in
    work_step (d, q1 ++ (it, n) :: q2) (r.1, q1 ++ q2 ++ (if r.2 then [(it, S n)] else [])).

End Controller.

(** ** What a delegator promises

    The status of an object that it tracks is the one last recorded. *)
Class DelegatorLaws {D Obj : Type} (dl : Delegator D Obj) := {
  tracked : Obj -> D -> Prop;
  status_recorded : forall o st d, tracked o d ->
    GetProcessItemStatus o (UpdateProcessItemStatus o st d).1 = (st, None);
  tracked_kept : forall o st d, tracked o d -> tracked o (UpdateProcessItemStatus o st d).1
}.

(** ** Lemmas *)
Section Lemmas.
Context {D Obj : Type} {dl : Delegator D Obj} (readOnly : bool).

(** Reading the latest version of an object changes nothing else. *)
Lemma retry_loop_inv {S : Type} (P : S -> Prop) (callback : S -> S * error) :
  (forall s, P s -> P (callback s).1) ->
  forall fuel i sleep err s slept, P s -> P (retry_loop callback fuel i sleep err s slept).1.1.
Proof.
  intros Hc. induction fuel as [|fuel IH]; intros i sleep err s slept Hs; [done|]. simpl.
  pose proof (Hc s Hs) as Hs'. destruct (callback s) as [s' [e|]]; [by apply IH|done].
Qed.

Lemma version_check_inv (P : D -> Prop) old new d :
  (forall o d, P d -> P (GetLatest o d).1) -> P d -> P (checkIfResourceVersionHasIncreased old new d).1.
Proof.
  intros HG Hd. unfold checkIfResourceVersionHasIncreased.
  destruct (obj_meta old) as [om|], (obj_meta new) as [nm|]; try done.
  destruct (_ =?s _); [done|]. destruct (str_ltb _ _); [|done].
  assert (P (RetryWithBackOff (fun s : D * option Obj =>
      match GetLatest new s.1 with
      | (d', inl o) => ((d', Some o), None)
      | (d', inr e) => ((d', s.2), Some e)
      end) 5 (d, None)).1.1.1) as Hr.
  { apply (retry_loop_inv (fun s => P s.1)); [|done]. intros s Hs.
    pose proof (HG new _ Hs) as Hl. by destruct (GetLatest new s.1) as [d' [o|e]]. }
  destruct (RetryWithBackOff _ _ _) as [[[d' latest] err] slept]. simpl in Hr.
  destruct err, latest as [o|]; try done. destruct (obj_meta o); [|done]. by destruct (_ =?s _).
Qed.

Lemma processNextItem_requeue it n d :
  (processNextItem readOnly it n d).2 = true -> n < maxRetries.
Proof.
  unfold processNextItem. destruct (_ && _); [done|].
  destruct (processItem readOnly it d) as [d1 [e|]]; [|done].
  destruct (bool_decide (n < maxRetries)) eqn:E; [|done]. by sdec.
Qed.

(** The attempts an item may still cause. *)
Definition attempts (n : nat) : nat := S (maxRetries - n).

Definition remaining (q : list (InformerCacheObj Obj * nat)) : nat :=
  sum_list_with (fun x => attempts x.2) q.

Lemma remaining_step s s' : work_step readOnly s s' -> remaining s'.2 < remaining s.2.
Proof.
  intros Hs. destruct Hs as [d q1 it n q2 r]. simpl. unfold remaining.
  rewrite !sum_list_with_app. simpl. destruct r.2 eqn:E; simpl; [|unfold attempts; lia].
  apply processNextItem_requeue in E. unfold attempts, maxRetries in *. lia.
Qed.

Lemma queue_run k s s' : nsteps (work_step readOnly) k s s' -> k + remaining s'.2 <= remaining s.2.
Proof.
  induction 1 as [|k s s1 s2 Hs _ IH]; [lia|]. apply remaining_step in Hs. lia.
Qed.

Lemma work_possible d it n q : exists s', work_step readOnly (d, (it, n) :: q) s'.
Proof. eexists. apply (work_item readOnly d [] it n q). Qed.

Lemma queue_empties : forall k s, remaining s.2 <= k ->
  exists d', rtc (work_step readOnly) s (d', []).
Proof.
  induction k as [|k IH]; intros [d q] Hk.
  - destruct q as [|[it n] q]; [by exists d|]. simpl in Hk. unfold remaining, attempts in Hk.
    simpl in Hk. lia.
  - destruct q as [|[it n] q]; [by exists d|]. destruct (work_possible d it n q) as [s' Hs].
    destruct (IH s') as [d' Hr]; [apply remaining_step in Hs; simpl in *; lia|].
    exists d'. by econstructor.
Qed.

Lemma fresh_queue_remaining (evs : list (InformerCacheObj Obj)) :
  remaining (map (fun e => (e, 0)) evs) = 3 * length evs.
Proof. induction evs as [|e evs IH]; [done|]. unfold remaining, attempts, maxRetries in *. simpl in *. lia. Qed.

(** C40: The work queue drains.  Whatever the delegator does with the events, each
    one is handled at most three times: a run over a queue of new events has at most
    three steps per event, a queue that is not empty can go on, and from every
    queue the empty one is reached. *)
Theorem queue_drains (d : D) (evs : list (InformerCacheObj Obj))
    (s : D * list (InformerCacheObj Obj * nat)) (k : nat) :
  nsteps (work_step readOnly) k (d, map (fun e => (e, 0)) evs) s ->
  k <= 3 * length evs /\ (s.2 <> [] -> exists s', work_step readOnly s s') /\
  exists d', rtc (work_step readOnly) s (d', []).
Proof.
  intros Hr. apply queue_run in Hr. simpl in Hr. rewrite fresh_queue_remaining in Hr. split_and!.
  - lia.
  - destruct s as [d' [|[it n] q]]; [done|]. intros _. apply work_possible.
  - by eapply queue_empties.
Qed.

Lemma same_version old new d om nm :
  obj_meta old = Some om -> obj_meta new = Some nm -> ResourceVersion om = ResourceVersion nm ->
  checkIfResourceVersionHasIncreased old new d = (d, (old, false)).
Proof.
  intros Ho Hn Hv. unfold checkIfResourceVersionHasIncreased. rewrite Ho, Hn, Hv. by rewrite seqb_refl.
Qed.

(** A resync: the informer delivers the same version again. *)
Lemma resync_result old new d om nm :
  obj_meta old = Some om -> obj_meta new = Some nm -> ResourceVersion om = ResourceVersion nm ->
  UpdateFuncImpl readOnly old new d =
    if (GetProcessItemStatus new d).1 =?s NotProcessed then
      (if readOnly then d else (UpdateProcessItemStatus old ProcessingInProgress d).1,
       Some (mkInformerCacheObj Update old (Some old)))
    else (d, None).
Proof.
  intros Ho Hn Hv. unfold UpdateFuncImpl. rewrite Hn, (same_version old new d om nm) by done.
  destruct ((GetProcessItemStatus new d).1 =?s NotProcessed) eqn:E.
  - sdec. rewrite E. done.
  - simpl. destruct (_ && (DoesGenerationMatch old new).1); [done|].
    by destruct (_ && (IsOnlyReplicaCountChanged old new).1).
Qed.

(** A resync queues exactly what is not processed, once.  When the informer
    delivers the version it delivered before, the object is queued exactly when its
    recorded status is NotProcessed; and when Admiral may write and the kind tracks
    the object, the next resync of the same version does not queue it again. *)
Theorem resync_queues_once `{!DelegatorLaws dl} (o : Obj) (m : ObjectMeta) (d : D) :
  obj_meta o = Some m ->
  let r := UpdateFuncImpl readOnly o o d in
  (r.2 <> None <-> (GetProcessItemStatus o d).1 = NotProcessed) /\
  (r.2 <> None -> readOnly = false -> tracked o d -> (UpdateFuncImpl readOnly o o r.1).2 = None).
Proof.
  intros Ho r. unfold r. rewrite (resync_result o o d m m) by done.
  destruct ((GetProcessItemStatus o d).1 =?s NotProcessed) eqn:E; sdec; split; try done.
  intros _ Hro Ht. rewrite (resync_result o o _ m m) by done. rewrite Hro. simpl.
  by rewrite status_recorded by done.
Qed.

(** A failed event is not forgotten.  When the last attempt of an event fails and
    the kind tracks the object, the object is left NotProcessed, and any later
    delivery of it by the informer, of whatever version, is queued. *)
Theorem given_up_event_returns `{!DelegatorLaws dl} (it : InformerCacheObj Obj) (m : ObjectMeta) (d : D) :
  obj_meta (eobj it) = Some m -> shouldRetry (eobj it) d = true ->
  (processItem readOnly it d).2 <> None -> tracked (eobj it) (processItem readOnly it d).1 ->
  let r := processNextItem readOnly it maxRetries d in
  r.2 = false /\ GetProcessItemStatus (eobj it) r.1 = (NotProcessed, None) /\
  forall old, exists ev, (UpdateFuncImpl readOnly old (eobj it) r.1).2 = Some ev /\ eventType ev = Update.
Proof.
  intros Hm Hs Herr Ht r. unfold r, processNextItem. rewrite Hs, andb_false_r.
  destruct (processItem readOnly it d) as [d1 [e|]]; [|done]. simpl in *.
  pose proof (status_recorded (eobj it) NotProcessed d1 Ht) as Hst. split_and!; [done|done|].
  intros old. unfold UpdateFuncImpl. rewrite Hm, Hst. simpl.
  destruct (checkIfResourceVersionHasIncreased _ _ _) as [d2 [latest ch]]. simpl. by eexists.
Qed.

End Lemmas.
