(* ===== verification/ControllerRun.v ===== *)
(** * Running a controller, and the ids of its transactions

    [NewController], [Run] and [updateTxId] of [controller/admiral/controller.go], and
    [FetchTxIdOrGenNew], [GetCtxLogger] and [GetSha1] of [controller/common/common.go].
    What a worker does with an event is in [Controller.v]; the informer is client-go's. *)
From S2P Require Import Prelude GoStrings Config Objects Metadata.
From stdpp Require Import options.

(** ** Workers *)

Definition deploymentControllerPrefix := "deployment-ctrl".
Definition rolloutControllerPrefix := "rollouts-ctrl".

(** [Controller], without its delegator, queue and informer. *)
Record controller := mkController { ctlName : string; ctlCluster : string }.

(** The workers that [Run] starts: those of the loop, and the last one, in which it waits;
    without a synced cache it returns. *)
Definition run_workers (p : AdmiralParams) (c : controller) (WaitForCacheSync : bool) : nat :=
  if WaitForCacheSync then
    let concurrency := if contains (ctlName c) deploymentControllerPrefix || contains (ctlName c) rolloutControllerPrefix
                       then DeploymentOrRolloutWorkerConcurrency p else 1%Z in
    Z.to_nat (concurrency - 1) + 1
  else 0.

(** [NewController]: the controller, and the workers of the goroutine of [Run]. *)
Definition NewController_ (p : AdmiralParams) (name clusterEndpoint : string) (WaitForCacheSync : bool) : controller * nat :=
  let controller := mkController name clusterEndpoint in (controller, run_workers p controller WaitForCacheSync).

(** Once its cache has synced a controller has a worker, and more than one only for
    deployments and rollouts, for which it has as many as are configured. *)
Lemma run_workers_spec (p : AdmiralParams) (c : controller) :
  run_workers p c false = 0 /\ 1 <= run_workers p c true /\
  (1 < run_workers p c true ->
     contains (ctlName c) deploymentControllerPrefix = true \/ contains (ctlName c) rolloutControllerPrefix = true) /\
  ((1 <= DeploymentOrRolloutWorkerConcurrency p)%Z ->
     contains (ctlName c) deploymentControllerPrefix = true \/ contains (ctlName c) rolloutControllerPrefix = true ->
     Z.of_nat (run_workers p c true) = DeploymentOrRolloutWorkerConcurrency p).
Proof.
  unfold run_workers.
  destruct (contains (ctlName c) deploymentControllerPrefix), (contains (ctlName c) rolloutControllerPrefix);
    simpl; split_and!; try lia; try (by eauto); intros; try lia; destruct_or?; done.
Qed.

(** ** Transaction ids *)

(** An object is its metadata, or none when it has no accessors. *)
Definition updateTxId (c : controller) (newObj latestObj : option ObjectMeta) (txId : string) : string :=
  match latestObj, newObj with
  | Some lMeta, Some nMeta =>
      if negb (is_empty (ResourceVersion lMeta)) && negb (ResourceVersion nMeta =?s ResourceVersion lMeta)
      then GenerateTxId (Some lMeta) (ctlName c) txId else txId
  | _, _ => txId
  end.

(** The id of the context, or a new one. *)
Definition FetchTxIdOrGenNew (txId : option string) (new_uuid : string) : string := default new_uuid txId.

(** The values of a context that are read here. *)
Record context_values := mkContextValues { cvController : option string; cvCluster : option string; cvTxId : option string }.

Definition GetCtxLogger (ctx : context_values) (new_uuid identity env : string) : list (string * string) :=
  let txId := FetchTxIdOrGenNew (cvTxId ctx) new_uuid in
  match cvController ctx with
  | Some controllerName =>
      match cvCluster ctx with
      | Some triggeringCluster =>
          [("op", "ConfigWriter"); ("triggeringCluster", triggeringCluster); ("identity", identity); ("txId", txId);
           ("controller", controllerName); ("env", env)]
      | None => [("op", "ConfigWriter"); ("identity", identity); ("txId", txId); ("controller", controllerName); ("env", env)]
      end
  | None => [("op", "ConfigWriter"); ("identity", identity); ("txId", txId); ("env", env)]
  end.

(** The id of an object ends with the id it was made of: an event that is updated on its
    way can be followed by its first id. *)
Lemma GenerateTxId_extends meta name id : exists pre, GenerateTxId meta name id = pre +:+ id.
Proof.
  destruct meta as [m|]; [|by exists ""]. unfold GenerateTxId. set (id' := if _ && _ then _ else id).
  assert (H : exists pre, id' = pre +:+ id).
  { unfold id'. destruct (_ && _); [|by exists ""]. exists (mget (Annotations m) IntuitTID +:+ "-"). by rewrite sapp_assoc. }
  clearbody id'. destruct H as [pre ->]. destruct (is_empty (ResourceVersion m)); [by exists pre|].
  exists (ResourceVersion m +:+ "-" +:+ pre). by rewrite !sapp_assoc.
Qed.

Lemma updateTxId_extends c newObj latestObj txId : exists pre, updateTxId c newObj latestObj txId = pre +:+ txId.
Proof.
  unfold updateTxId. destruct latestObj as [l|], newObj as [n|]; try (by exists "").
  destruct (_ && _); [apply GenerateTxId_extends|by exists ""].
Qed.

(** Every logger of a context with an id has this id. *)
Lemma GetCtxLogger_txId ctx new_uuid identity env txId : cvTxId ctx = Some txId ->
  ("txId", txId) ∈ GetCtxLogger ctx new_uuid identity env /\ ("identity", identity) ∈ GetCtxLogger ctx new_uuid identity env.
Proof.
  intros H. unfold GetCtxLogger, FetchTxIdOrGenNew. rewrite H.
  destruct (cvController ctx), (cvCluster ctx); simpl; set_solver.
Qed.

(** ** Digests *)

(** The encoding of gob and the digest in hexadecimal are parameters. *)
Definition GetSha1 {A} (GetBytes : A -> string + string) (sha1_hex : string -> string) (key : A) : string * error :=
  match GetBytes key with
  | inr err => ("", Some err)
  | inl bv => let sha := sha1_hex bv in
              (if Nat.leb 20 (String.length sha) then String.substring 0 20 sha else sha, None)
  end.
