(* ===== verification/ResourceController.v ===== *)
(** * Controllers that keep a cache with statuses

    Most delegators of the event controller have one shape: a cache of the objects with
    their processing statuses, which an event changes before the handler is called.  This
    file has that shape and its laws; [IstioCaches.v] and [ConfigControllers.v] fill it in
    for the kinds. *)
From S2P Require Import Prelude GoStrings Config Objects Metadata ServiceCache Controller.
From stdpp Require Import options.

(** ** A cache of objects with statuses *)

Record status_item (A : Type) := mkStatusItem { si_obj : A; si_status : string }.
Arguments mkStatusItem {A} _ _.
Arguments si_obj {A} _.
Arguments si_status {A} _.

Abbreviation statusCache A := (gmap string (status_item A)).

Section StatusCache.
Context {A : Type}.

Definition cache_put (key : string) (obj : A) (c : statusCache A) : statusCache A :=
  <[key := mkStatusItem obj ProcessingInProgress]> c.

Definition cache_get (key : string) (c : statusCache A) : option A := si_obj <$> c !! key.

Definition cache_status (key : string) (c : statusCache A) : string :=
  match c !! key with Some it => si_status it | None => NotProcessed end.

(** [missing] is the error for a key that is not there. *)
Definition cache_set_status (missing : error) (key status : string) (c : statusCache A) : statusCache A * error :=
  match c !! key with
  | Some it => (<[key := mkStatusItem (si_obj it) status]> c, None)
  | None => (c, missing)
  end.
End StatusCache.

(** ** The controllers *)

(** The cache of a kind of resource, as its controller uses it. *)
Class ResourceCache (A C : Type) := {
  res_meta : A -> ObjectMeta;
  res_put : A -> C -> C;
  res_delete : A -> C -> C;
  res_status : A -> C -> string;
  res_set_status : A -> string -> C -> C * error
}.

(** A controller's state: its cache, and what its handler changes. *)
Record resource_state (C H : Type) := mkResource { res_cache : C; res_handler : H }.
Arguments mkResource {C H} _ _.
Arguments res_cache {C H} _.
Arguments res_handler {C H} _.

Section ResourceControllers.
Context {A C H : Type} {kind : ResourceCache A C}.
(** The handler of the kind, which may read the cache. *)
Context (handler : EventType -> A -> C -> H -> H * error).

Definition not_of_kind : error := Some "type assertion failed, object is not of the type of the kind".

(** [Added], [Updated] and [Deleted]: the cache first, then the handler. *)
Definition resource_event (ev : EventType) (o : delivered A) (s : resource_state C H) : resource_state C H * error :=
  match o with
  | Stale _ => (s, not_of_kind)
  | Present obj =>
      let c := match ev with Delete => res_delete obj (res_cache s) | _ => res_put obj (res_cache s) end in
      let '(h, err) := handler ev obj c (res_handler s) in
      (mkResource c h, err)
  end.

Definition resource_UpdateProcessItemStatus (o : delivered A) (status : string) (s : resource_state C H)
    : resource_state C H * error :=
  match o with
  | Stale _ => (s, not_of_kind)
  | Present obj => let '(c, err) := res_set_status obj status (res_cache s) in (mkResource c (res_handler s), err)
  end.

Definition resource_GetProcessItemStatus (o : delivered A) (s : resource_state C H) : string * error :=
  match o with
  | Stale _ => (NotProcessed, not_of_kind)
  | Present obj => (res_status obj (res_cache s), None)
  end.

(** [Get] with [isRetry] and without. *)
Context (cached : delivered A -> resource_state C H -> fetched (delivered A) + string)
  (latest : delivered A -> resource_state C H -> resource_state C H * (delivered A + string)).

Definition resource_delegator : Delegator (resource_state C H) (delivered A) := {|
  obj_meta o := match o with Present obj => Some (res_meta obj) | Stale _ => None end;
  is_tombstone o := match o with Present _ => false | Stale _ => true end;
  Added := resource_event Add;
  Updated o _ := resource_event Update o;
  Deleted := resource_event Delete;
  UpdateProcessItemStatus := resource_UpdateProcessItemStatus;
  GetProcessItemStatus := resource_GetProcessItemStatus;
  GetCached := cached;
  GetLatest := latest;
  DoesGenerationMatch _ _ := (false, None);
  IsOnlyReplicaCountChanged _ _ := (false, None)
|}.
End ResourceControllers.

(** What the event controllers need of a cache: an object that it holds keeps the
    status it is given. *)
Class ResourceCacheLaws (A C : Type) {kind : ResourceCache A C} := {
  res_holds : A -> C -> Prop;
  res_status_set : forall obj st c, res_holds obj c -> res_status obj (res_set_status obj st c).1 = st;
  res_holds_set : forall obj st c, res_holds obj c -> res_holds obj (res_set_status obj st c).1
}.

(** ** Lemmas *)

Section StatusLemmas.
Context {A : Type}.
Implicit Types (c : statusCache A) (key : string).

Lemma status_set_get missing key st c : is_Some (c !! key) ->
  cache_status key (cache_set_status missing key st c).1 = st /\
  is_Some ((cache_set_status missing key st c).1 !! key).
Proof.
  intros [it Hi]. unfold cache_status, cache_set_status. rewrite Hi. simpl.
  rewrite !lookup_insert_eq. by split.
Qed.

Lemma cache_get_put key (obj : A) c : cache_get key (cache_put key obj c) = Some obj.
Proof. unfold cache_get, cache_put. by rewrite lookup_insert_eq. Qed.

Lemma cache_get_set_status missing key key' st c :
  cache_get key (cache_set_status missing key' st c).1 = cache_get key c.
Proof.
  unfold cache_get, cache_set_status. destruct (c !! key') as [it|] eqn:E; [|done]. simpl.
  destruct (decide (key' = key)) as [->|Hne]; [by rewrite lookup_insert_eq, E|by rewrite lookup_insert_ne].
Qed.
End StatusLemmas.

Section DelegatorLaws.
Context {A C H : Type} {kind : ResourceCache A C} {laws : ResourceCacheLaws A C}.
Context (handler : EventType -> A -> C -> H -> H * error)
  (cached : delivered A -> resource_state C H -> fetched (delivered A) + string)
  (latest : delivered A -> resource_state C H -> resource_state C H * (delivered A + string)).

#[export] Instance resource_laws : DelegatorLaws (resource_delegator handler cached latest).
Proof using laws.
  refine {| tracked o s := exists obj, o = Present obj /\ res_holds obj (res_cache s);
            status_recorded := _; tracked_kept := _ |}.
  - intros o st s (obj & -> & Hh). simpl. pose proof (res_status_set obj st _ Hh) as Hs.
    destruct (res_set_status obj st (res_cache s)) as [c err]. simpl in *. by rewrite Hs.
  - intros o st s (obj & -> & Hh). simpl. pose proof (res_holds_set obj st _ Hh) as Hs.
    destruct (res_set_status obj st (res_cache s)) as [c err]. simpl in *. by exists obj.
Defined.
End DelegatorLaws.


(** The worker's handling of an added or updated object that the cache takes: the cache,
    then the handler once, whose error is the result, then the status that goes with
    it. *)
Section Processing.
Context {A C H : Type} {kind : ResourceCache A C} {laws : ResourceCacheLaws A C}.
Context (handler : EventType -> A -> C -> H -> H * error)
  (cached : delivered A -> resource_state C H -> fetched (delivered A) + string)
  (latest : delivered A -> resource_state C H -> resource_state C H * (delivered A + string)).

Lemma resource_event_processed (readOnly : bool) (ev : EventType) (obj : A) old (s : resource_state C H) :
  ev <> Delete -> res_holds obj (res_put obj (res_cache s)) ->
  let r := processItem (dl := resource_delegator handler cached latest) readOnly
             (mkInformerCacheObj ev (Present obj) old) s in
  let h := handler ev obj (res_put obj (res_cache s)) (res_handler s) in
  r.2 = h.2 /\ res_handler r.1 = h.1 /\ res_status obj (res_cache r.1) = item_status readOnly h.2.
Proof using laws.
  intros Hev Hh r h.
  assert (r = let '(h', err) := h in
    ((resource_UpdateProcessItemStatus (Present obj) (item_status readOnly err)
       (mkResource (res_put obj (res_cache s)) h')).1, err)) as ->.
  { unfold r, h, processItem. destruct ev; [| |done]; simpl; by destruct (handler _ _ _). }
  destruct h as [h' err]. simpl. pose proof (res_status_set obj (item_status readOnly err) _ Hh) as Hs.
  by destruct (res_set_status _ _ _).
Qed.
End Processing.
