(* ===== verification/IstioCaches.v ===== *)
(** * The caches of the Istio resources of a cluster

    Models [controller/istio]: the caches of the service entries, destination rules,
    virtual services and sidecars that the informers deliver ([serviceentry.go],
    [destinationrule.go], [virtualservice.go], [sidecar.go]) and the controllers that keep
    them, as delegators of the event controller. *)
From S2P Require Import Prelude GoStrings Config Objects Metadata ServiceCache Controller ResourceController.
From S2P Require Import VirtualServices.
From stdpp Require Import options.

Definition nothing_to_update (kind : string) (m : ObjectMeta) (message : string) : string :=
  "op=Update type=" +:+ kind +:+ " name=" +:+ Name m +:+ " namespace=" +:+ Namespace m +:+
  " cluster= message=nothing to update, " +:+ message.

(** ** Service entries, by cluster and name *)

Abbreviation seCache := (gmap string (statusCache ServiceEntryObj)).

Definition ServiceEntryCache_getKey (se : ServiceEntryObj) : string := Name (SeMeta se).

Definition ServiceEntryCache_Put (se : ServiceEntryObj) (cluster : string) (c : seCache) : seCache :=
  <[cluster := cache_put (ServiceEntryCache_getKey se) se (default ∅ (c !! cluster))]> c.

Definition ServiceEntryCache_Get (identity cluster : string) (c : seCache) : option ServiceEntryObj :=
  seInCluster ← c !! cluster; cache_get identity seInCluster.

Definition ServiceEntryCache_Delete (se : ServiceEntryObj) (cluster : string) (c : seCache) : seCache :=
  match c !! cluster with
  | Some seInCluster => <[cluster := delete (ServiceEntryCache_getKey se) seInCluster]> c
  | None => c
  end.

Definition GetSEProcessStatus (se : ServiceEntryObj) (cluster : string) (c : seCache) : string :=
  match c !! cluster with
  | Some seInCluster => cache_status (ServiceEntryCache_getKey se) seInCluster
  | None => NotProcessed
  end.

Definition UpdateSEProcessStatus (se : ServiceEntryObj) (cluster status : string) (c : seCache) : seCache * error :=
  let missing := Some (nothing_to_update "ServiceEntry" (SeMeta se) "serviceentry not found in cache") in
  match c !! cluster with
  | Some seInCluster =>
      let '(seInCluster, err) := cache_set_status missing (ServiceEntryCache_getKey se) status seInCluster in
      (<[cluster := seInCluster]> c, err)
  | None => (c, missing)
  end.

(** ** Destination rules, by name and namespace *)

Definition makeKey (str1 str2 : string) : string := str1 +:+ "/" +:+ str2.

Definition DestinationRuleCache_getKey (dr : DestinationRuleObj) : string :=
  makeKey (Name (DrMeta dr)) (Namespace (DrMeta dr)).

Definition DestinationRuleCache_Put (dr : DestinationRuleObj) (c : statusCache DestinationRuleObj)
    : statusCache DestinationRuleObj := cache_put (DestinationRuleCache_getKey dr) dr c.

Definition DestinationRuleCache_Get (identity namespace : string) (c : statusCache DestinationRuleObj)
    : option DestinationRuleObj := cache_get (makeKey identity namespace) c.

Definition DestinationRuleCache_Delete (dr : DestinationRuleObj) (c : statusCache DestinationRuleObj)
    : statusCache DestinationRuleObj := delete (DestinationRuleCache_getKey dr) c.

Definition GetDRProcessStatus (dr : DestinationRuleObj) (c : statusCache DestinationRuleObj) : string :=
  cache_status (DestinationRuleCache_getKey dr) c.

Definition UpdateDRProcessStatus (dr : DestinationRuleObj) (status : string) (c : statusCache DestinationRuleObj)
    : statusCache DestinationRuleObj * error :=
  cache_set_status (Some (nothing_to_update "DestinationRule" (DrMeta dr) "destinationrule not found in cache"))
    (DestinationRuleCache_getKey dr) status c.

(** ** Sidecars, by namespace and name *)

Section Sidecars.
Context (p : AdmiralParams).

Definition sidecar_key (namespace name : string) : string := namespace +:+ "/" +:+ name.
Definition SidecarCache_key (s : SidecarObj) : string := sidecar_key (Namespace (SdMeta s)) (Name (SdMeta s)).

(** The sidecar is not nil; an empty list is nil. *)
Definition SidecarCache_Put (s : SidecarObj) (c : statusCache SidecarObj) : statusCache SidecarObj * error :=
  if negb (IsSidecarCachingEnabled p) then (c, None)
  else if negb (Name (SdMeta s) =?s GetWorkloadSidecarName p) then (c, None)
  else match sdEgress (SdSpec s) with
       | [] => (c, Some "sidecar has no egress")
       | listener :: _ =>
           match elHosts listener with
           | [] => (c, Some "sidecar has no hosts")
           | hosts =>
               if (GetMaxSidecarEgressHostsLimitToCache p <? Z.of_nat (length hosts))%Z then (c, None)
               else (cache_put (SidecarCache_key s) s c, None)
           end
       end.

Definition SidecarCache_Get (sidecarName sidecarNamespace : string) (c : statusCache SidecarObj)
    : option SidecarObj :=
  if is_empty sidecarName || is_empty sidecarNamespace then None
  else cache_get (sidecar_key sidecarNamespace sidecarName) c.

Definition SidecarCache_Delete (s : SidecarObj) (c : statusCache SidecarObj) : statusCache SidecarObj :=
  delete (SidecarCache_key s) c.

Definition GetSidecarProcessStatus (s : SidecarObj) (c : statusCache SidecarObj) : string :=
  cache_status (SidecarCache_key s) c.

Definition UpdateSidecarProcessStatus (s : SidecarObj) (status : string) (c : statusCache SidecarObj)
    : statusCache SidecarObj * error := cache_set_status None (SidecarCache_key s) status c.
End Sidecars.

(** ** Virtual services *)

Definition IsVSRoutingEnabledVirtualService (vs : VirtualServiceObj) : bool :=
  negb (is_nil (mlookup (Labels (VsMeta vs)) VSRoutingLabel)).

Definition IsVSRoutingInClusterVirtualService (vs : VirtualServiceObj) : bool :=
  match mlookup (Labels (VsMeta vs)) VSRoutingType with
  | Some val => val =?s VSRoutingTypeInCluster
  | None => false
  end.

(** [VirtualServiceCache]: the virtual services of the routing, by name.  They are not
    nil. *)
Definition VirtualServiceCache_Put (vs : VirtualServiceObj) (c : statusCache VirtualServiceObj)
    : statusCache VirtualServiceObj :=
  if IsVSRoutingEnabledVirtualService vs then cache_put (Name (VsMeta vs)) vs c else c.

Definition VirtualServiceCache_Get (vsName : string) (c : statusCache VirtualServiceObj)
    : option VirtualServiceObj := cache_get vsName c.

Definition VirtualServiceCache_Delete (vs : VirtualServiceObj) (c : statusCache VirtualServiceObj)
    : statusCache VirtualServiceObj :=
  if IsVSRoutingEnabledVirtualService vs then delete (Name (VsMeta vs)) c else c.

Definition GetVSProcessStatus (vs : VirtualServiceObj) (c : statusCache VirtualServiceObj) : string :=
  cache_status (Name (VsMeta vs)) c.

Definition UpdateVSProcessStatus (vs : VirtualServiceObj) (status : string) (c : statusCache VirtualServiceObj)
    : statusCache VirtualServiceObj * error := cache_set_status None (Name (VsMeta vs)) status c.

(** [HostToRouteDestinationCache]: the destinations of the in-cluster routes. *)
Section Virtual.
Context (p : AdmiralParams).

Definition HostToRouteDestinationCache_Put (vs : VirtualServiceObj) (c : gmap string (list HTTPRouteDestination))
    : gmap string (list HTTPRouteDestination) :=
  if negb (IsVSRoutingInClusterVirtualService vs) then c
  else foldl (fun c r => if has_suffix (hrName r) (GetHostnameSuffix p) then <[hrName r := hrRoute r]> c else c)
         c (vsHttp (VsSpec vs)).

Definition HostToRouteDestinationCache_Get (routeName : string) (c : gmap string (list HTTPRouteDestination))
    : list HTTPRouteDestination := default [] (c !! routeName).

Definition HostToRouteDestinationCache_Delete (vs : VirtualServiceObj) (c : gmap string (list HTTPRouteDestination))
    : gmap string (list HTTPRouteDestination) * error :=
  if negb (IsVSRoutingInClusterVirtualService vs) then (c, None)
  else match vsHttp (VsSpec vs) with
       | [] => (c, Some "failed HostToRouteDestinationCache.Delete as virtualService.Spec.Http is nil")
       | routes => (foldl (fun c r => delete (hrName r) c) c routes, None)
       end.

(** [IdentityVirtualServiceCache]: by identity and name. *)
Abbreviation identityVsCache := (gmap string (gmap string VirtualServiceObj)).

Definition isArgoVS (hosts : list string) : bool := existsb (fun host => has_prefix host "dummy") hosts.

Definition getIdentitiesFromVSHostName (hostName : string) : list string :=
  if is_empty hostName then []
  else
    match removelast (split "." hostName) with
    | _ :: (_ :: rest2) as rest1 =>
        join Sep rest1 :: match rest2 with [] => [] | _ => [join Sep rest2] end
    | _ => []
    end.

Definition IdentityVirtualServiceCache_Get (identity : string) (c : identityVsCache)
    : gmap string VirtualServiceObj := default ∅ (c !! to_lower identity).

(** The identities under which a virtual service is cached or removed, and the error. *)
Definition vs_identities (op : string) (vs : VirtualServiceObj) : list string * error :=
  let namespace := Namespace (VsMeta vs) in
  if is_empty namespace
  then ([], Some ("failed to " +:+ op +:+ " virtualService in IdentityVirtualServiceCache as vs namespace is empty"))
  else if (namespace =?s GetSyncNamespace p) || (namespace =?s NamespaceIstioSystem) then ([], None)
  else if is_empty (Name (VsMeta vs))
  then ([], Some ("failed to " +:+ op +:+ " virtualService in IdentityVirtualServiceCache as vs name is empty"))
  else (map to_lower (match vsHosts (VsSpec vs) with host :: _ => getIdentitiesFromVSHostName host | [] => [] end), None).

Definition IdentityVirtualServiceCache_Put (vs : VirtualServiceObj) (c : identityVsCache) : identityVsCache * error :=
  let '(identities, err) := vs_identities "put" vs in
  if isArgoVS (vsHosts (VsSpec vs)) then (c, err)
  else (foldl (fun c identity => <[identity := <[Name (VsMeta vs) := vs]> (default ∅ (c !! identity))]> c)
          c identities, err).

Definition IdentityVirtualServiceCache_Delete (vs : VirtualServiceObj) (c : identityVsCache)
    : identityVsCache * error :=
  let '(identities, err) := vs_identities "delete" vs in
  (foldl (fun c identity => match c !! identity with
                            | Some vsMap => <[identity := delete (Name (VsMeta vs)) vsMap]> c
                            | None => c
                            end) c identities, err).
End Virtual.

(** ** The controllers *)

#[export] Instance serviceEntry_cache (cluster : string) : ResourceCache ServiceEntryObj seCache := {|
  res_meta := SeMeta;
  res_put se := ServiceEntryCache_Put se cluster;
  res_delete se := ServiceEntryCache_Delete se cluster;
  res_status se := GetSEProcessStatus se cluster;
  res_set_status se := UpdateSEProcessStatus se cluster
|}.

#[export] Instance destinationRule_cache : ResourceCache DestinationRuleObj (statusCache DestinationRuleObj) := {|
  res_meta := DrMeta;
  res_put := DestinationRuleCache_Put;
  res_delete := DestinationRuleCache_Delete;
  res_status := GetDRProcessStatus;
  res_set_status := UpdateDRProcessStatus
|}.

(** The error of [Put] is only logged. *)
#[export] Instance sidecar_cache (p : AdmiralParams) : ResourceCache SidecarObj (statusCache SidecarObj) := {|
  res_meta := SdMeta;
  res_put s c := (SidecarCache_Put p s c).1;
  res_delete := SidecarCache_Delete;
  res_status := GetSidecarProcessStatus;
  res_set_status := UpdateSidecarProcessStatus
|}.

(** The three caches of the virtual services; the errors of the last two are
    dropped. *)
Record vs_caches := mkVsCaches {
  vcByName : statusCache VirtualServiceObj;
  vcByRoute : gmap string (list HTTPRouteDestination);
  vcByIdentity : gmap string (gmap string VirtualServiceObj)
}.

Definition vs_caches_put (p : AdmiralParams) (vs : VirtualServiceObj) (c : vs_caches) : vs_caches :=
  mkVsCaches (VirtualServiceCache_Put vs (vcByName c)) (HostToRouteDestinationCache_Put p vs (vcByRoute c))
    (IdentityVirtualServiceCache_Put p vs (vcByIdentity c)).1.

Definition vs_caches_delete (p : AdmiralParams) (vs : VirtualServiceObj) (c : vs_caches) : vs_caches :=
  mkVsCaches (VirtualServiceCache_Delete vs (vcByName c)) (HostToRouteDestinationCache_Delete vs (vcByRoute c)).1
    (IdentityVirtualServiceCache_Delete p vs (vcByIdentity c)).1.

Definition vs_caches_set_status (vs : VirtualServiceObj) (status : string) (c : vs_caches) : vs_caches * error :=
  let '(byName, err) := UpdateVSProcessStatus vs status (vcByName c) in
  (mkVsCaches byName (vcByRoute c) (vcByIdentity c), err).

#[export] Instance virtualService_cache (p : AdmiralParams) : ResourceCache VirtualServiceObj vs_caches := {|
  res_meta := VsMeta;
  res_put := vs_caches_put p;
  res_delete := vs_caches_delete p;
  res_status vs c := GetVSProcessStatus vs (vcByName c);
  res_set_status := vs_caches_set_status
|}.

(** [Get] has no client, with [isRetry] or without. *)
Definition no_istio_client : string := "istio client is not initialized".
Definition istio_delegator {A C H : Type} {kind : ResourceCache A C} (handler : EventType -> A -> C -> H -> H * error) :=
  resource_delegator handler (fun _ _ => inr no_istio_client) (fun _ s => (s, inr no_istio_client)).

(** The controllers of the four kinds, with their handlers. *)
Definition ServiceEntryDelegator {H} (cluster : string) (handler : EventType -> ServiceEntryObj -> seCache -> H -> H * error)
    : Delegator (resource_state seCache H) (delivered ServiceEntryObj) :=
  istio_delegator (kind := serviceEntry_cache cluster) handler.
Definition DestinationRuleDelegator {H}
    (handler : EventType -> DestinationRuleObj -> statusCache DestinationRuleObj -> H -> H * error)
    : Delegator (resource_state (statusCache DestinationRuleObj) H) (delivered DestinationRuleObj) :=
  istio_delegator handler.
Definition SidecarDelegator {H} (p : AdmiralParams)
    (handler : EventType -> SidecarObj -> statusCache SidecarObj -> H -> H * error)
    : Delegator (resource_state (statusCache SidecarObj) H) (delivered SidecarObj) :=
  istio_delegator (kind := sidecar_cache p) handler.
Definition VirtualServiceDelegator {H} (p : AdmiralParams)
    (handler : EventType -> VirtualServiceObj -> vs_caches -> H -> H * error)
    : Delegator (resource_state vs_caches H) (delivered VirtualServiceObj) :=
  istio_delegator (kind := virtualService_cache p) handler.

(** What the decisions on the routing read of the caches. *)
Definition vs_view (c : vs_caches) : VsController :=
  mkVsController (Some (dom <$> vcByIdentity c)) (Some (si_obj <$> vcByName c)).

(** ** Lemmas *)

#[export] Program Instance serviceEntry_laws cluster : @ResourceCacheLaws _ _ (serviceEntry_cache cluster) := {|
  res_holds se c := is_Some (c !! cluster ≫= fun m => m !! Name (SeMeta se))
|}.
Next Obligation.
  intros cluster se st c Hh. simpl in *. unfold UpdateSEProcessStatus, GetSEProcessStatus.
  destruct (c !! cluster) as [m|]; [|by destruct Hh]. simpl in Hh.
  pose proof (status_set_get (Some (nothing_to_update "ServiceEntry" (SeMeta se) "serviceentry not found in cache"))
    _ st m Hh) as [Hs _].
  unfold ServiceEntryCache_getKey. destruct (cache_set_status _ _ _ _) as [m' err]. simpl in *.
  by rewrite lookup_insert_eq.
Qed.
Next Obligation.
  intros cluster se st c Hh. simpl in *. unfold UpdateSEProcessStatus.
  destruct (c !! cluster) as [m|]; [|by destruct Hh]. simpl in Hh.
  pose proof (status_set_get (Some (nothing_to_update "ServiceEntry" (SeMeta se) "serviceentry not found in cache"))
    _ st m Hh) as [_ Hs].
  unfold ServiceEntryCache_getKey. destruct (cache_set_status _ _ _ _) as [m' err]. simpl in *.
  by rewrite lookup_insert_eq.
Qed.

#[export] Instance destinationRule_laws : ResourceCacheLaws DestinationRuleObj (statusCache DestinationRuleObj) := {|
  res_holds dr c := is_Some (c !! DestinationRuleCache_getKey dr);
  res_status_set dr st c Hh := proj1 (status_set_get _ _ st c Hh);
  res_holds_set dr st c Hh := proj2 (status_set_get _ _ st c Hh)
|}.

#[export] Program Instance sidecar_laws p : @ResourceCacheLaws _ _ (sidecar_cache p) := {|
  res_holds s c := is_Some (c !! SidecarCache_key s)
|}.
Next Obligation. intros p s st c Hh. exact (proj1 (status_set_get None _ st c Hh)). Qed.
Next Obligation. intros p s st c Hh. exact (proj2 (status_set_get None _ st c Hh)). Qed.

#[export] Program Instance virtualService_laws p : @ResourceCacheLaws _ _ (virtualService_cache p) := {|
  res_holds vs c := is_Some (vcByName c !! Name (VsMeta vs))
|}.
Next Obligation.
  intros p vs st c Hh. simpl in *. unfold vs_caches_set_status, UpdateVSProcessStatus, GetVSProcessStatus.
  pose proof (status_set_get None _ st _ Hh) as [Hs _]. by destruct (cache_set_status _ _ _ _).
Qed.
Next Obligation.
  intros p vs st c Hh. simpl in *. unfold vs_caches_set_status, UpdateVSProcessStatus.
  pose proof (status_set_get None _ st _ Hh) as [_ Hs]. by destruct (cache_set_status _ _ _ _).
Qed.

(** ** The cache of the virtual services by identity *)

Inductive vs_event := VsPut (vs : VirtualServiceObj) | VsDelete (vs : VirtualServiceObj).

Definition event_vs (e : vs_event) : VirtualServiceObj := match e with VsPut vs | VsDelete vs => vs end.

Section Identity.
Context (p : AdmiralParams).

Abbreviation identityVsCache := (gmap string (gmap string VirtualServiceObj)).

Definition identity_run (evs : list vs_event) (c : identityVsCache) : identityVsCache :=
  foldl (fun c e => match e with
                    | VsPut vs => (IdentityVirtualServiceCache_Put p vs c).1
                    | VsDelete vs => (IdentityVirtualServiceCache_Delete p vs c).1
                    end) c evs.

(** The virtual services of the cluster after the events, by name. *)
Definition live_run (evs : list vs_event) (m : gmap string VirtualServiceObj) : gmap string VirtualServiceObj :=
  foldl (fun m e => match e with
                    | VsPut vs => <[Name (VsMeta vs) := vs]> m
                    | VsDelete vs => delete (Name (VsMeta vs)) m
                    end) m evs.

(** A virtual service that is not Argo's serves the identity. *)
Definition serves (identity : string) (vs : VirtualServiceObj) : bool :=
  negb (isArgoVS (vsHosts (VsSpec vs))) && str_in identity (vs_identities p "" vs).1.

(** A name stands for one namespace and one list of hosts. *)
Definition same_place (vs vs' : VirtualServiceObj) : Prop :=
  Name (VsMeta vs) = Name (VsMeta vs') ->
  Namespace (VsMeta vs) = Namespace (VsMeta vs') /\ vsHosts (VsSpec vs) = vsHosts (VsSpec vs').

Lemma identities_op op op' vs : (vs_identities p op vs).1 = (vs_identities p op' vs).1.
Proof. unfold vs_identities. repeat (case_match; try done). Qed.

Lemma serves_same identity vs vs' : Name (VsMeta vs) = Name (VsMeta vs') -> same_place vs vs' ->
  serves identity vs = serves identity vs'.
Proof. intros Hn Hp. destruct (Hp Hn) as [Hns Hh]. unfold serves, vs_identities. by rewrite Hn, Hns, Hh. Qed.

(** Both operations change the entry of the name under each identity. *)
Lemma put_fold ids name (vs : VirtualServiceObj) identity n : forall (c : identityVsCache),
  default ∅ (foldl (fun c i => <[i := <[name := vs]> (default ∅ (c !! i))]> c) c ids !! identity) !! n =
  if str_in identity ids && (n =?s name) then Some vs else default ∅ (c !! identity) !! n.
Proof.
  induction ids as [|i ids IH]; intros c; [done|]. cbn [foldl]. rewrite IH. cbn [str_in].
  destruct (n =?s name) eqn:En; sdec; [subst n|].
  - rewrite !andb_true_r. destruct (i =?s identity) eqn:Ei; sdec; simpl.
    + subst i. rewrite lookup_insert_eq. simpl. rewrite lookup_insert_eq. by destruct (str_in identity ids).
    + by rewrite lookup_insert_ne by done.
  - rewrite !andb_false_r. destruct (decide (i = identity)) as [->|Hi].
    + rewrite lookup_insert_eq. simpl. by rewrite lookup_insert_ne by done.
    + by rewrite lookup_insert_ne by done.
Qed.

Lemma delete_fold ids name identity n : forall (c : identityVsCache),
  default ∅ (foldl (fun c i => match c !! i with
                               | Some m => <[i := delete name m]> c
                               | None => c
                               end) c ids !! identity) !! n =
  if str_in identity ids && (n =?s name) then None else default ∅ (c !! identity) !! n.
Proof.
  induction ids as [|i ids IH]; intros c; [done|]. cbn [foldl]. rewrite IH. cbn [str_in].
  destruct (n =?s name) eqn:En; sdec; [subst n|].
  - rewrite !andb_true_r. destruct (i =?s identity) eqn:Ei; sdec; simpl.
    + subst i. destruct (c !! identity) eqn:Ec; simpl.
      * rewrite lookup_insert_eq. simpl. rewrite lookup_delete_eq. by destruct (str_in identity ids).
      * rewrite Ec. simpl. rewrite lookup_empty. by destruct (str_in identity ids).
    + destruct (c !! i); [by rewrite lookup_insert_ne by done|done].
  - rewrite !andb_false_r. destruct (c !! i) as [m|] eqn:Ec; [|done].
    destruct (decide (i = identity)) as [->|Hi].
    + rewrite lookup_insert_eq, Ec. simpl. by rewrite lookup_delete_ne by done.
    + by rewrite lookup_insert_ne by done.
Qed.

Lemma identity_put vs identity n (c : identityVsCache) :
  default ∅ ((IdentityVirtualServiceCache_Put p vs c).1 !! identity) !! n =
  if serves identity vs && (n =?s Name (VsMeta vs)) then Some vs else default ∅ (c !! identity) !! n.
Proof.
  unfold IdentityVirtualServiceCache_Put, serves. rewrite (identities_op "" "put").
  destruct (vs_identities p "put" vs) as [ids err]. simpl. destruct (isArgoVS _); [done|]. simpl.
  apply put_fold.
Qed.

Lemma identity_delete vs identity n (c : identityVsCache) :
  default ∅ ((IdentityVirtualServiceCache_Delete p vs c).1 !! identity) !! n =
  if str_in identity (vs_identities p "" vs).1 && (n =?s Name (VsMeta vs)) then None
  else default ∅ (c !! identity) !! n.
Proof.
  unfold IdentityVirtualServiceCache_Delete. rewrite (identities_op "" "delete").
  destruct (vs_identities p "delete" vs) as [ids err]. simpl. apply delete_fold.
Qed.

Lemma live_from evs n vs :
  live_run evs ∅ !! n = Some vs -> n = Name (VsMeta vs) /\ VsPut vs ∈ evs.
Proof.
  induction evs as [|e evs IH] using rev_ind; [unfold live_run; simpl; by rewrite lookup_empty|].
  unfold live_run in *. rewrite foldl_app. simpl. rewrite elem_of_app. destruct e as [v|v].
  - intros [[<- <-]|[? Hl]]%lookup_insert_Some; [split; [done|right; by left]|].
    destruct (IH Hl). auto.
  - intros [? Hl]%lookup_delete_Some. destruct (IH Hl). auto.
Qed.

(** The cache of the virtual services by identity follows the cluster.  As long as
    a name keeps its namespace and its hosts, after any sequence of additions, updates
    and deletions the cache has under an identity, and under its name, exactly the
    virtual services that the cluster has, that Argo does not manage and whose first
    host is of the identity; those of the sync namespace and of Istio's are not
    there. *)
Theorem identity_vs_cache_spec (evs : list vs_event) (identity name : string) :
  (forall e e', e ∈ evs -> e' ∈ evs -> same_place (event_vs e) (event_vs e')) ->
  IdentityVirtualServiceCache_Get identity (identity_run evs ∅) !! name =
  (live_run evs ∅ !! name ≫= fun vs => if serves (to_lower identity) vs then Some vs else None).
Proof.
  unfold IdentityVirtualServiceCache_Get. generalize (to_lower identity) as id. intros id.
  induction evs as [|e evs IH] using rev_ind; [done|]. intros Hp.
  assert (He : e ∈ evs ++ [e]) by (rewrite elem_of_app; right; by left).
  assert (Hold : forall vs, live_run evs ∅ !! Name (VsMeta (event_vs e)) = Some vs ->
    serves id vs = serves id (event_vs e)).
  { intros vs Hl. destruct (live_from _ _ _ Hl) as [Hn Hin]. apply serves_same; [done|].
    apply (Hp (VsPut vs) e); [|done]. rewrite elem_of_app. by left. }
  specialize (IH ltac:(intros ?? ??; apply Hp; rewrite elem_of_app; by left)).
  unfold identity_run, live_run in *. rewrite !foldl_app. simpl. destruct e as [vs|vs]; simpl in *.
  - rewrite identity_put. destruct (name =?s Name (VsMeta vs)) eqn:En; sdec.
    + subst name. rewrite lookup_insert_eq, andb_true_r. simpl. destruct (serves id vs) eqn:Es; [done|].
      rewrite IH. clear IH. destruct (foldl _ ∅ evs !! _) as [old|] eqn:El; simpl; [by rewrite (Hold _ eq_refl)|done].
    + rewrite andb_false_r, IH. by rewrite lookup_insert_ne by done.
  - rewrite identity_delete. destruct (name =?s Name (VsMeta vs)) eqn:En; sdec.
    + subst name. rewrite lookup_delete_eq, andb_true_r. simpl.
      destruct (str_in id _) eqn:Es; [done|].
      rewrite IH. clear IH. destruct (foldl _ ∅ evs !! _) as [old|] eqn:El; simpl; [|done].
      rewrite (Hold _ eq_refl). unfold serves. by rewrite Es, andb_false_r.
    + rewrite andb_false_r, IH. by rewrite lookup_delete_ne by done.
Qed.
End Identity.

(** *** What the key of the cache leaves out *)

Definition sample_vs (namespace name host : string) : VirtualServiceObj :=
  mkVirtualServiceObj (mkMeta name namespace None None 1 "") (mkVirtualService [host] [] [] [] []).

(** A virtual service whose host moves to another identity stays under the old one,
    also after it is deleted. *)
Lemma moved_vs_stays :
  let c := identity_run (Params.zero_AdmiralParams) [VsPut (sample_vs "ns" "vs" "stage.old.mesh");
    VsPut (sample_vs "ns" "vs" "stage.new.mesh"); VsDelete (sample_vs "ns" "vs" "stage.new.mesh")] ∅ in
  IdentityVirtualServiceCache_Get "old" c !! "vs" = Some (sample_vs "ns" "vs" "stage.old.mesh").
Proof. vm_compute. done. Qed.

(** A sidecar that has lost its hosts keeps its old entry. *)
Lemma stale_sidecar_kept p (s : SidecarObj) (c : statusCache SidecarObj) :
  sdEgress (SdSpec s) = [] -> (SidecarCache_Put p s c).1 = c.
Proof. intros He. unfold SidecarCache_Put. rewrite He. by repeat case_match. Qed.

(** *** The properties at concrete inputs *)

Lemma identity_vs_cache_spec_witness :
  let evs := [VsPut (sample_vs "ns" "vs" "stage.foo.mesh"); VsPut (sample_vs "ns" "gone" "stage.foo.mesh");
              VsDelete (sample_vs "ns" "gone" "stage.foo.mesh")] in
  let p := Params.zero_AdmiralParams in
  IdentityVirtualServiceCache_Get "Foo" (identity_run p evs ∅) !! "vs" =
  (live_run evs ∅ !! "vs" ≫= fun vs => if serves p (to_lower "Foo") vs then Some vs else None).
Proof.
  intros evs p. apply (identity_vs_cache_spec p evs "Foo" "vs"). unfold evs.
  intros e e' He He' Hn. rewrite !elem_of_cons in He, He'.
  destruct He as [->|[->|[->|He]]]; destruct He' as [->|[->|[->|He']]];
    try (by apply elem_of_nil in He); try (by apply elem_of_nil in He'); try done.
Defined.
