(* ===== verification/RoutingRules.v ===== *)
(** * Sidecars and destination rules of the routing

    The writers of [clusters/virtualservice_routing.go] that go with its virtual
    services ([RoutingWriter.v]): the sidecars of the clients
    ([updateClientSidecarWithClusterLocalServices], with [addUpdateSidecar] of
    [clusters/serviceentry.go]), the rules of the cluster-local hosts
    ([addUpdateInClusterDestinationRule], [addUpdateDestinationRuleForSourceIngress]) and
    the pinning of the rules of the global hosts ([performDRPinning]). *)
From S2P Require Import Prelude GoStrings Config Objects Metadata ServiceCache Policies AddressStore.
From S2P Require Import DestinationRules Writers ServiceEntries Caches Dependents World VirtualServices.
From S2P Require Import VsRouting Worker ClusterWriter Controller ResourceController IstioCaches.
From stdpp Require Import options.
Local Open Scope Z_scope.
Local Open Scope world_scope.

(** ** The state: the API servers and the caches of the clusters

    A cache that is missing belongs to a controller that is nil. *)
Record routing_state (St : Type) := mkRouting {
  rs_api : St;
  rs_caches : gmap string RcCaches;
  rs_routes : gmap string (gmap string (list HTTPRouteDestination));
  rs_sidecars : gmap string (statusCache SidecarObj)
}.
Arguments mkRouting {St} _ _ _ _.
Arguments rs_api {St} _.
Arguments rs_caches {St} _.
Arguments rs_routes {St} _.
Arguments rs_sidecars {St} _.
#[export] Instance eta_routing_state St : Settable (routing_state St) := fun s =>
  mkRouting (rs_api s) (rs_caches s) (rs_routes s) (rs_sidecars s).

(** A client, on the state with the caches. *)
Definition on_rs_api {St A} (f : St -> St * A) (s : routing_state St) : routing_state St * A :=
  let '(api, a) := f (rs_api s) in (s <| rs_api := api |>, a).

Definition routing_client {St Obj} (client : KubeClient St Obj) : KubeClient (routing_state St) Obj := {|
  api_create ns o := on_rs_api (api_create ns o);
  api_update ns o := on_rs_api (api_update ns o);
  api_delete ns n := on_rs_api (api_delete ns n);
  api_get ns n := on_rs_api (api_get ns n)
|}.

Section State.
Context {St : Type}.

Definition get_state : W (routing_state St) (routing_state St) := on_api (fun s => (s, s)).
Definition update_state (f : routing_state St -> routing_state St) : W (routing_state St) unit :=
  on_api (fun s => (f s, tt)).

(** [rc.DestinationRuleController.Cache.Get] and [Put]. *)
Definition cached_dr (cluster drName namespace : string) : W (routing_state St) (option DestinationRuleObj) :=
  s <- get_state;;
  match rs_caches s !! cluster with
  | None => wpanic
  | Some c => wret (rcDestinationRules c !! (drName, namespace))
  end.
Definition put_dr (cluster : string) (dr : DestinationRuleObj) : W (routing_state St) unit :=
  update_state (fun s => s <| rs_caches :=
    alter (fun c => c <| rcDestinationRules :=
      <[(Name (DrMeta dr), Namespace (DrMeta dr)) := dr]> (rcDestinationRules c) |>) cluster (rs_caches s) |>).

(** A write through the pointer to a cached sidecar. *)
Definition set_cached_sidecar (cluster : string) (s' : SidecarObj) (key : string) : W (routing_state St) unit :=
  update_state (fun s => s <| rs_sidecars :=
    alter (alter (fun it => mkStatusItem s' (si_status it)) key) cluster (rs_sidecars s) |>).
End State.

(** ** The sidecars of the clients *)

Section Sidecars.
Context {St : Type} (p : AdmiralParams) (readOnly : bool).
(** The clients, by cluster, and [IsInvalid] of an error that is not one of the others. *)
Context (sidecarClients : string -> KubeClient St SidecarObj) (is_invalid : string -> bool).

(** [copySidecar]: the listeners are shared with the original. *)
Definition copySidecar (s : SidecarObj) : Sidecar :=
  mkSidecar (sdWorkloadSelector (SdSpec s)) (sdIngress (SdSpec s)) (sdEgress (SdSpec s)) "".

Definition createSidecarSkeleton (spec : Sidecar) (name namespace : string) : SidecarObj :=
  mkSidecarObj (mkMeta name namespace None None 0 "") spec.

Definition patch_sidecar (obj updated : SidecarObj) : SidecarObj :=
  mkSidecarObj (SdMeta updated <| Annotations := Annotations (SdMeta obj) |>
                  <| Labels := Labels (SdMeta obj) |>) (SdSpec obj).

Definition conflict_or_invalid (err : api_error) : bool :=
  match err with Conflict => true | OtherError msg => is_invalid msg | _ => false end.

Definition retryUpdatingSidecar (cluster : string) (obj after : SidecarObj) (namespace : string)
    (err : api_error) (s : routing_state St) : routing_state St * bool :=
  if conflict_or_invalid err then
    retry_update_loop (client := routing_client (sidecarClients cluster)) namespace namespace
      (Name (SdMeta after)) (patch_sidecar obj) numRetries s
  else (s, false).

(** [exist] after its labels, annotations and spec are replaced. *)
Definition sidecar_after (obj exist' : SidecarObj) : SidecarObj :=
  mkSidecarObj (SdMeta exist' <| Labels := Labels (SdMeta obj) |> <| Annotations := Annotations (SdMeta obj) |>)
    (SdSpec obj).

(** The update of a sidecar, retried; its errors are only logged. *)
Definition send_sidecar (cluster : string) (obj exist' : SidecarObj) (namespace : string)
    : W (routing_state St) unit :=
  if readOnly then wret tt
  else
    err <- on_api (api_update (KubeClient := routing_client (sidecarClients cluster)) namespace obj);;
    match err with
    | None => wret tt
    | Some e => on_api (retryUpdatingSidecar cluster obj (sidecar_after obj exist') namespace e) ;;; wret tt
    end.

(** [addUpdateSidecar] on a cached sidecar. *)
Definition addUpdateSidecar (cluster : string) (obj exist' : SidecarObj) (namespace : string)
    : W (routing_state St) unit :=
  set_cached_sidecar cluster (sidecar_after obj exist') (SidecarCache_key exist') ;;;
  send_sidecar cluster obj exist' namespace.

(** The sidecar with the host added to its first listener; [None] without a listener. *)
Definition sidecar_with_host (host : string) (s : SidecarObj) : option Sidecar :=
  let copy := copySidecar s in
  match sdEgress copy with
  | [] => None
  | listener :: rest =>
      Some (mkSidecar (sdWorkloadSelector copy) (sdIngress copy)
              (mkEgress (elHosts listener ++ [host]) (elOther listener) :: rest) (sdOthers copy))
  end.

Definition add_host_to_sidecar (cluster host clientNamespace : string) : W (routing_state St) unit :=
  s <- get_state;;
  match SidecarCache_Get (GetWorkloadSidecarName p) clientNamespace (default ∅ (rs_sidecars s !! cluster)) with
  | None => wret tt
  | Some cachedSidecar =>
      match sdEgress (SdSpec cachedSidecar) with
      | [] => wret tt
      | listener :: _ =>
          if Nat.eqb (length (elHosts listener)) 0 || str_in host (elHosts listener) then wret tt
          else match sidecar_with_host host cachedSidecar with
               | None => wret tt
               | Some spec =>
                   addUpdateSidecar cluster (createSidecarSkeleton spec (GetWorkloadSidecarName p) clientNamespace)
                     cachedSidecar clientNamespace
               end
      end
  end.

(** The namespaces of the clients; [None] when the sync namespace is among them. *)
Fixpoint client_namespaces (identityNamespace : string) (exportTo : list string) : option (list string) :=
  match exportTo with
  | [] => Some []
  | namespace :: rest =>
      if namespace =?s GetSyncNamespace p then None
      else
        rest ← client_namespaces identityNamespace rest;
        Some (if namespace =?s identityNamespace then rest else namespace :: rest)
  end.

(** The remote controller and the virtual service are not nil. *)
Definition updateClientSidecarWithClusterLocalServices (vs : VirtualServiceObj) (sourceCluster : string)
    (sourceClusterToEventNsCache : gomap) : W (routing_state St) error :=
  if negb (IsSidecarCachingEnabled p) then wret None
  else
    s <- get_state;;
    match rs_sidecars s !! sourceCluster, sourceClusterToEventNsCache with
    | None, _ => wret (Some "sidecarController is nil")
    | _, None => wret (Some "sourceClusterToEventNsCache is nil")
    | Some _, Some _ =>
        let identityNamespace := mget sourceClusterToEventNsCache sourceCluster in
        if is_empty identityNamespace
        then wret (Some ("identityNamespace is empty for sourceCluster " +:+ sourceCluster))
        else
          let newHost := identityNamespace +:+ "/*.svc.cluster.local" in
          match vsExportTo (VsSpec vs) with
          | [] => wret (Some ("exportToNamespaces is nil or empty for virtualService " +:+ Name (VsMeta vs)))
          | exportTo =>
              match client_namespaces identityNamespace exportTo with
              | None => wret None
              | Some namespaces =>
                  witer (add_host_to_sidecar sourceCluster newHost) namespaces ;;; wret None
              end
          end
    end.
End Sidecars.

(** ** The rules of the cluster-local hosts *)

(** [MapOfMaps.Range] with a callback that changes a variable of its closure. *)
Definition MapOfMaps_RangeWith {range : GoRange} {B} (s : ptr) (fn : string -> ptr -> B -> M B) (b : B) : M B :=
  mbnd (deref_tab 2 s) (fun '(l, m) => locking 2 l (mfold (fun kv => fn kv.1 kv.2) (go_range 0 m) b)).

Definition SpiffePrefix := "spiffe://".
Definition RoutingDRSuffix := "routing-dr".
Definition InclusterDRSuffix := "incluster-dr".

Section Rules.
Context {range : GoRange} {St : Type} (p : AdmiralParams).
Context (drClients : string -> KubeClient St DestinationRuleObj).
(** The remote controllers, the pointer [SlowStartConfigCache], and the asset and the
    workload environment of the context, when they are strings. *)
Context (remoteControllers : gmap string RemoteController) (slowStartConfigCache : ptr)
  (assetKey workloadEnvKey : option string).

Definition getIngressDRLoadBalancerPolicy : SimpleLb :=
  let policy := GetIngressLBPolicy p in
  if policy =?s "round_robin" then ROUND_ROBIN
  else if policy =?s "random" then LB_RANDOM
  else if policy =?s "least_request" then LEAST_REQUEST
  else if policy =?s "passthrough" then LB_PASSTHROUGH
  else ROUND_ROBIN.

Definition warmup_seconds (durationStr : string) : Z :=
  if is_empty durationStr then GetDefaultWarmupDurationSecs p
  else match atoi durationStr with
       | (v, None) => v
       | (_, Some _) => GetDefaultWarmupDurationSecs p
       end.

Definition set_warmup (seconds : Z) (tp : DrTrafficPolicy) : DrTrafficPolicy :=
  tp <| drLoadBalancer := option_map (fun lb => lb <| lbWarmupDurationSecs := Some seconds |>)
                            (drLoadBalancer tp) |>.

(** [processSlowStartConfig] returns no error. *)
Definition processSlowStartConfig (assetKey workloadEnvKey : string) (tp : DrTrafficPolicy) : M DrTrafficPolicy :=
  mbnd (MapOfMapOfMaps_Get slowStartConfigCache assetKey) (fun assetConfigMap =>
  match assetConfigMap with
  | None => mret tp
  | Some _ =>
      mbnd (MapOfMaps_RangeWith assetConfigMap (fun _ envConfig warmup =>
        mbnd (Map_CheckIfPresent envConfig workloadEnvKey) (fun found =>
        if (found : bool) then
          mbnd (Map_Get envConfig workloadEnvKey) (fun durationStr => mret (warmup_seconds durationStr))
        else mret warmup)) 0)
        (fun warmup => mret (set_warmup warmup tp))
  end).

Definition routing_traffic_policy (sourceCluster : string) (tls : ClientTLSSettings) : DrTrafficPolicy :=
  mkDrTrafficPolicy (Some tls)
    (Some (mkLoadBalancer getIngressDRLoadBalancerPolicy (Some [])
             (if IsSlowStartEnabledForCluster p sourceCluster
              then Some (GetDefaultWarmupDurationSecs p) else None) (Some false)))
    None None.

Definition slow_start_policy (tp : DrTrafficPolicy) : W (routing_state St) DrTrafficPolicy :=
  if IsTrafficConfigProcessingEnabledForSlowStart p then
    match assetKey, workloadEnvKey with
    | Some asset, Some env =>
        if is_empty env then wret tp else on_heap (processSlowStartConfig asset env tp)
    | _, _ => wret tp
    end
  else wret tp.

(** The rule of a host. *)
Definition routing_dr (name drHost sourceCluster drNameSuffix : string) (exportToNamespaces : list string)
    (tls : ClientTLSSettings) (ccc : option ClientConnectionConfig)
    : W (routing_state St) DestinationRuleObj :=
  tp <- slow_start_policy (routing_traffic_policy sourceCluster tls);;
  match getClientConnectionPoolOverrides p ccc with
  | None => wpanic
  | Some pool =>
      let tp := tp <| drConnectionPool := Some pool |> in
      let tp := if DisableDefaultAutomaticFailover p
                then tp <| drOutlierDetection := Some (mkOutlierDetection (Some 0) (Some 0) None None 0) |>
                else tp in
      let dr := createDestinationRuleSkeleton (mkDestinationRule drHost (Some tp) exportToNamespaces)
                  (name +:+ "-" +:+ drNameSuffix) IstioSystemNamespace in
      wret (dr <| DrMeta := DrMeta dr <| Labels := Some {[ VSRoutingLabel := "enabled" ]} |> |>)
  end.

Definition cluster_drs (cluster : string) : KubeClient (routing_state St) DestinationRuleObj :=
  routing_client (drClients cluster).

(** A rule that is cached as it should be is left alone; one that is written is cached. *)
Definition write_routing_dr (rc : RemoteController) (sourceCluster : string) (newDR : DestinationRuleObj)
    : W (routing_state St) unit :=
  let drName := Name (DrMeta newDR) in
  cached <- cached_dr sourceCluster drName IstioSystemNamespace;;
  if reconcileDestinationRule true cached (DrSpec newDR) then
    existing <- on_api (api_get (KubeClient := cluster_drs sourceCluster) IstioSystemNamespace drName);;
    dependentNamespaces <- dr_namespaces p (ClusterID rc) newDR;;
    err <- on_api (addUpdateDestinationRule (client := cluster_drs sourceCluster) p newDR
                     (match existing with inl dr => Some dr | inr _ => None end) IstioSystemNamespace
                     dependentNamespaces);;
    match err with
    | Some _ => wret tt
    | None => put_dr sourceCluster newDR
    end
  else wret tt.

Definition addUpdateRoutingDestinationRule (drHosts : gmap string string) (sourceCluster drNameSuffix : string)
    (exportToNamespaces : list string) (tls : ClientTLSSettings) (ccc : option ClientConnectionConfig)
    : W (routing_state St) error :=
  match remoteControllers !! sourceCluster with
  | None => wret (Some "remote controller not initialized on this cluster")
  | Some rc =>
      witer (fun '(name, drHost) =>
        newDR <- routing_dr name drHost sourceCluster drNameSuffix exportToNamespaces tls ccc;;
        write_routing_dr rc sourceCluster newDR) (go_range 0 drHosts) ;;;
      wret None
  end.

Definition san_of (sourceIdentity : string) : string :=
  SpiffePrefix +:+ GetSANPrefix p +:+ "/" +:+ sourceIdentity.

(** [clientConnectionConfigCache] is nil when it is missing. *)
Definition addUpdateInClusterDestinationRule (clientConnectionConfigCache : option (identityCache ClientConnectionConfig))
    (sourceClusterToDRHosts : gmap string (gmap string string)) (sourceIdentity cname env : string)
    : W (routing_state St) error :=
  let ccc := cache ← clientConnectionConfigCache; identityCache_GetFromIdentity cache sourceIdentity env in
  if is_empty sourceIdentity then wret (Some "sourceIdentity is empty")
  else if is_empty cname then wret (Some "cname is empty")
  else
    witer (fun '(sourceCluster, drHosts) =>
      exportToNamespaces <- sortedDependentNamespaces p cname sourceCluster true;;
      addUpdateRoutingDestinationRule drHosts sourceCluster InclusterDRSuffix exportToNamespaces
        (mkTls ISTIO_MUTUAL [san_of sourceIdentity]) ccc ;;; wret tt) (go_range 0 sourceClusterToDRHosts) ;;;
    wret None.

Fixpoint ingress_drs (sourceIdentity : string) (drs : list (string * gmap string string))
    : W (routing_state St) error :=
  match drs with
  | [] => wret None
  | (sourceCluster, drHosts) :: rest =>
      if negb (DoVSRoutingForCluster p sourceCluster) then ingress_drs sourceIdentity rest
      else if is_empty sourceIdentity then wret (Some "sourceIdentity is empty")
      else
        addUpdateRoutingDestinationRule drHosts sourceCluster RoutingDRSuffix (GetIngressVSExportToNamespace p)
          (mkTls TLS_DISABLE [san_of sourceIdentity]) None ;;;
        ingress_drs sourceIdentity rest
  end.
Definition addUpdateDestinationRuleForSourceIngress (sourceClusterToDRHosts : gmap string (gmap string string))
    (sourceIdentity : string) : W (routing_state St) error :=
  ingress_drs sourceIdentity (go_range 0 sourceClusterToDRHosts).
End Rules.

(** ** Pinning the rules of the global hosts *)

Section Pinning.
Context {range : GoRange} {St : Type} (p : AdmiralParams) (message : api_error -> string).
Context (drClients : string -> KubeClient St DestinationRuleObj).
Context (remoteControllers : gmap string RemoteController) (routing : gmap string RcRouting)
  (clusterLocalityCache : option (gmap string (gmap string string)))
  (globalTrafficCache : option (identityCache GlobalTrafficPolicy)).
Context (api_list : string -> string -> gmap string string -> routing_state St ->
    routing_state St * (list VirtualServiceObj + api_error))
  (list_on_error : option (list VirtualServiceObj)).

(** The remote registry and its caches are not nil. *)
Definition shouldPerformDRPinning (cname sourceCluster sourceIdentity env : string) : W (routing_state St) bool :=
  match globalTrafficCache with
  | None => wret false
  | Some policies =>
      enabled <- DoVSRoutingInClusterForClusterAndIdentity p message routing api_list list_on_error env
                   sourceCluster sourceIdentity true;;
      if negb enabled then wret false
      else match identityCache_GetFromIdentity policies sourceIdentity env with
           | None => wret false
           | Some _ =>
               s <- get_state;;
               wret (match (c ← rs_caches s !! sourceCluster; rcServiceEntries c !! (cname +:+ "-se")) with
                     | None => false
                     | Some cachedSE => isSEMultiRegion (Some (SeSpec cachedSE))
                     end)
           end
  end.

Definition pinned_dr_name (host env : string) : string :=
  if has_prefix host env then host +:+ "-default-dr" else host +:+ "-dr".

(** The pinned rule, or why there is none. *)
Definition pinned_dr (drName sourceCluster currentLocality : string) (cachedDR : DestinationRuleObj)
    : DestinationRuleObj + string :=
  match drTrafficPolicy (DrSpec cachedDR) with
  | Some tp =>
      if is_nil (drLoadBalancer tp)
      then inr ("skipped pinning DR to remote region as TrafficPolicy or LoadBalancer or LocalityLbSetting is nil for DR "
                +:+ drName +:+ " in cluster " +:+ sourceCluster)
      else match getLocalityLBSettings currentLocality with
           | (_, Some err) =>
               inr ("performDRPinning failed for DR " +:+ drName +:+ " in cluster " +:+ sourceCluster +:+ ": " +:+ err)
           | (l, None) =>
               inl (cachedDR <| DrSpec := DrSpec cachedDR <| drTrafficPolicy := Some (set_locality l tp) |> |>)
           end
  | None =>
      inr ("skipped pinning DR to remote region as TrafficPolicy or LoadBalancer or LocalityLbSetting is nil for DR "
           +:+ drName +:+ " in cluster " +:+ sourceCluster)
  end.

(** The cached rule after [addUpdateDestinationRule] has updated it through its
    pointer. *)
Definition dr_after (new cached : DestinationRuleObj) (dependentNamespaces : list string) : DestinationRuleObj :=
  if is_empty (Name (DrMeta cached)) || is_empty (drHost (DrSpec cached)) then cached
  else
    let obj := new <| DrMeta := annotate_created_by (DrMeta new) |> in
    let spec := DrSpec obj in
    let spec := if EnableExportTo p (drHost spec) && Nat.eqb (length (drExportTo spec)) 0
                   && negb (mget (Labels (DrMeta obj)) VSRoutingLabel =?s "enabled")
                then spec <| drExportTo := dependentNamespaces |> else spec in
    mkDestinationRuleObj (DrMeta cached <| Labels := Labels (DrMeta obj) |>
                            <| Annotations := Annotations (DrMeta obj) |>) spec.

Definition pin_host (rc : RemoteController) (sourceCluster env currentLocality host : string)
    : W (routing_state St) (list string) :=
  if negb (has_suffix host (GetHostnameSuffix p)) then wret []
  else
    let drName := pinned_dr_name host env in
    cached <- cached_dr sourceCluster drName (GetSyncNamespace p);;
    match cached with
    | None => wret ["skipped pinning DR to remote region as no cached DR found with drName " +:+ drName +:+
                    " in cluster " +:+ sourceCluster]
    | Some cachedDR =>
        match pinned_dr drName sourceCluster currentLocality cachedDR with
        | inr err => wret [err]
        | inl newDR =>
            if reconcileDestinationRule true (Some cachedDR) (DrSpec newDR) then
              dependentNamespaces <- dr_namespaces p (ClusterID rc) newDR;;
              put_dr sourceCluster (dr_after newDR cachedDR dependentNamespaces) ;;;
              err <- on_api (addUpdateDestinationRule (client := routing_client (drClients sourceCluster)) p newDR
                               (Some cachedDR) (GetSyncNamespace p) dependentNamespaces);;
              wret (match err with
                    | None => []
                    | Some e => ["performDRPinning failed for DR " +:+ drName +:+ " in cluster " +:+ sourceCluster
                                 +:+ ": " +:+ message e]
                    end)
            else wret []
        end
    end.

Fixpoint pin_hosts (rc : RemoteController) (sourceCluster env currentLocality : string) (hosts : list string)
    : W (routing_state St) (list string) :=
  match hosts with
  | [] => wret []
  | host :: rest =>
      errs <- pin_host rc sourceCluster env currentLocality host;;
      more <- pin_hosts rc sourceCluster env currentLocality rest;;
      wret (errs ++ more)
  end.

(** [errors.Join] puts each error on a line of its own. *)
Definition newline : string := String (Ascii.ascii_of_nat 10) "".
Definition errors_join (errs : list string) : error :=
  match errs with [] => None | _ => Some (join newline errs) end.

Definition performDRPinning (vs : VirtualServiceObj) (env sourceCluster : string) : W (routing_state St) error :=
  match remoteControllers !! sourceCluster with
  | None => wret (Some "remoteController is nil")
  | Some rc =>
      match getClusterRegion p clusterLocalityCache sourceCluster rc with
      | None => wpanic
      | Some (_, Some err) => wret (Some ("getClusterRegion failed due to " +:+ err))
      | Some (currentLocality, None) =>
          errs <- pin_hosts rc sourceCluster env currentLocality (vsHosts (VsSpec vs));;
          wret (errors_join errs)
      end
  end.
End Pinning.

(** ** What the pinning writes *)

Section Pinned.
Context {range : GoRange} {St : Type} (p : AdmiralParams) (message : api_error -> string).
Context (drClients : string -> KubeClient St DestinationRuleObj).
Context (remoteControllers : gmap string RemoteController)
  (clusterLocalityCache : option (gmap string (gmap string string))).

Definition logged_drs (cluster : string) : KubeClient (St * list kube_write) DestinationRuleObj :=
  logged (drClients cluster) DrWrite DrDelete.

(** The region that is not that of the cluster. *)
Definition remote_region (region : string) : string := if region =?s WestLocality then EastLocality else WestLocality.

(** A write that pins the rule that the cache [rules] has for a host of the virtual service:
    of the host of the environment or of an additional one. *)
Definition pins_away (rules : gmap (string * string) DestinationRuleObj) (hosts : list string) (env region : string)
    (w : kube_write) : Prop :=
  exists o host cached tp, w = DrWrite (GetSyncNamespace p) o /\
    host ∈ hosts /\ has_suffix host (GetHostnameSuffix p) = true /\
    let name := host +:+ (if has_prefix host env then "-default-dr" else "-dr") in
    rules !! (name, GetSyncNamespace p) = Some cached /\ Name (DrMeta o) = name /\
    drTrafficPolicy (DrSpec cached) = Some tp /\ drLoadBalancer tp <> None /\ region <> "" /\
    desired_dr (cached <| DrSpec := DrSpec cached
      <| drTrafficPolicy := Some (set_locality (Some [mkDistribute "*" {[ remote_region region := 100 ]}]) tp) |> |>) o.

(** The rules are cached under their names and namespaces. *)
Definition rules_named (rules : gmap (string * string) DestinationRuleObj) : Prop :=
  forall n ns dr, rules !! (n, ns) = Some dr -> Name (DrMeta dr) = n /\ Namespace (DrMeta dr) = ns.

(** Pinned in the same way, the rules have the same contents. *)
Definition pinned_alike (dr dr' : DestinationRuleObj) : Prop :=
  forall tp', drTrafficPolicy (DrSpec dr') = Some tp' -> drLoadBalancer tp' <> None ->
  exists tp, drTrafficPolicy (DrSpec dr) = Some tp /\ drLoadBalancer tp <> None /\
  forall l o, desired_dr (dr' <| DrSpec := DrSpec dr' <| drTrafficPolicy := Some (set_locality l tp') |> |>) o ->
    desired_dr (dr <| DrSpec := DrSpec dr <| drTrafficPolicy := Some (set_locality l tp) |> |>) o.

#[local] Instance pinned_alike_preorder : PreOrder pinned_alike.
Proof using Type.
  split; [intros dr tp; by exists tp|]. intros d1 d2 d3 H1 H2 tp3 E3 L3.
  destruct (H2 tp3 E3 L3) as (tp2 & E2 & L2 & H32). destruct (H1 tp2 E2 L2) as (tp1 & E1 & L1 & H21).
  exists tp1. split_and!; [done|done|]. intros l o Ho. by apply H21, H32.
Qed.

(** The cache has what it had, but for rules that were pinned. *)
Definition rules_pinned (rules rules' : gmap (string * string) DestinationRuleObj) : Prop :=
  rules_named rules -> rules_named rules' /\
  forall k dr', rules' !! k = Some dr' -> exists dr, rules !! k = Some dr /\ pinned_alike dr dr'.

#[local] Instance rules_pinned_preorder : PreOrder rules_pinned.
Proof using Type.
  split; [intros m Hm; split; [done|]; intros k dr ->; by exists dr|]. intros m1 m2 m3 H1 H2 Hm.
  destruct (H1 Hm) as [Hm2 H12]. destruct (H2 Hm2) as [Hm3 H23]. split; [done|]. intros k d3 E3.
  destruct (H23 _ _ E3) as (d2 & E2 & P2). destruct (H12 _ _ E2) as (d1 & E1 & P1). exists d1. split; [done|]. by transitivity d2.
Qed.

Definition rules_of {A} (cluster : string) (s : routing_state A) : gmap (string * string) DestinationRuleObj :=
  match rs_caches s !! cluster with Some c => rcDestinationRules c | None => ∅ end.

Lemma pins_away_before rules rules' hosts env region w :
  rules_named rules -> rules_pinned rules rules' -> pins_away rules' hosts env region w -> pins_away rules hosts env region w.
Proof using Type.
  intros Hn Hp (o & host & c' & tp' & -> & Hh & Hs & Hk & Ho & Htp & Hlb & Hr & Hd).
  destruct (proj2 (Hp Hn) _ _ Hk) as (c & Hc & Ha). destruct (Ha tp' Htp Hlb) as (tp & H1 & H2 & H3).
  exists o, host, c, tp. cbv zeta. repeat (split; [done|]). by apply H3.
Qed.

(** The calls of the API leave the caches alone. *)
Definition api_rel {A} (P : A -> A -> Prop) (s s' : routing_state A) : Prop :=
  rs_caches s' = rs_caches s /\ P (rs_api s) (rs_api s').
#[local] Instance api_rel_preorder {A} (P : A -> A -> Prop) {pre : PreOrder P} : PreOrder (api_rel P).
Proof using Type.
  split; [intros s; by split|]. intros s1 s2 s3 [H1 H2] [H3 H4]. split; [congruence|by etrans].
Qed.

(** A step of the pinning: the cache changes by pinning, and what is written pins its
    rules. *)
Definition pinning (cluster : string) (hosts : list string) (env region : string)
    (s s' : routing_state (St * list kube_write)) : Prop :=
  rules_pinned (rules_of cluster s) (rules_of cluster s') /\
  (rules_named (rules_of cluster s) -> logs (pins_away (rules_of cluster s) hosts env region) (rs_api s) (rs_api s')).

#[local] Instance pinning_preorder cluster hosts env region : PreOrder (pinning cluster hosts env region).
Proof using Type.
  split; [intros s; split; [reflexivity|intros _; reflexivity]|].
  intros s1 s2 s3 [H1 L1] [H2 L2]. split; [by etrans|]. intros Hn.
  destruct (L1 Hn) as (l1 & E1 & F1). destruct (L2 (proj1 (H1 Hn))) as (l2 & E2 & F2).
  exists (l1 ++ l2). rewrite E2, E1, app_assoc. split; [done|]. apply Forall_app. split; [done|].
  eapply Forall_impl; [exact F2|]. intros w. by apply pins_away_before.
Qed.

Lemma pinned_dr_spec drName cluster region cached new :
  pinned_dr drName cluster region cached = inl new ->
  exists tp, drTrafficPolicy (DrSpec cached) = Some tp /\ drLoadBalancer tp <> None /\ region <> "" /\
    new = cached <| DrSpec := DrSpec cached
      <| drTrafficPolicy := Some (set_locality (Some [mkDistribute "*" {[ remote_region region := 100 ]}]) tp) |> |>.
Proof using Type.
  unfold pinned_dr. destruct (drTrafficPolicy (DrSpec cached)) as [tp|]; [|done].
  destruct (drLoadBalancer tp) eqn:El; [|done]. simpl. unfold getLocalityLBSettings.
  destruct (region =?s "") eqn:E; [done|]. intros [= <-]. exists tp. rewrite El. split_and!; [done..| |done].
  by apply seqb_neq in E.
Qed.

Lemma set_locality_twice l l' tp : set_locality l (set_locality l' tp) = set_locality l tp.
Proof using Type. unfold set_locality. destruct tp as [tls [lb|] cp od]; [by destruct lb|done]. Qed.

(** The cached rule after it was written pins to the same contents. *)
Lemma dr_after_alike cached tp l deps :
  drTrafficPolicy (DrSpec cached) = Some tp -> drLoadBalancer tp <> None ->
  let new := cached <| DrSpec := DrSpec cached <| drTrafficPolicy := Some (set_locality l tp) |> |> in
  pinned_alike cached (dr_after p new cached deps) /\ Name (DrMeta (dr_after p new cached deps)) = Name (DrMeta cached) /\
  Namespace (DrMeta (dr_after p new cached deps)) = Namespace (DrMeta cached).
Proof using Type.
  intros Htp Hlb new. unfold dr_after. destruct (_ || _); [done|]. split; [|done].
  intros tp' Htp' _. exists tp. split_and!; [done|done|]. intros l' o (H1 & H2 & H3 & H4 & H5).
  cbv zeta in Htp', H1, H2, H3, H4, H5. simpl in *. destruct (EnableExportTo _ _ && _ && _) eqn:E; simpl in *.
  - apply andb_true_iff in E as [[_ E]%andb_true_iff _]. apply Nat.eqb_eq in E.
    injection Htp' as <-. rewrite set_locality_twice in H2. repeat split; simpl; try done.
    + intros Hne. exfalso. apply Hne. by destruct (drExportTo (DrSpec cached)).
    + by rewrite H5, insert_insert_eq.
  - injection Htp' as <-. rewrite set_locality_twice in H2. repeat split; simpl; try done.
    by rewrite H5, insert_insert_eq.
Qed.

(** A rule of the cache is put back after a change. *)
Lemma put_dr_pinned (cluster : string) (cached dr : DestinationRuleObj) (s : routing_state (St * list kube_write)) c :
  rs_caches s !! cluster = Some c -> rcDestinationRules c !! (Name (DrMeta dr), Namespace (DrMeta dr)) = Some cached ->
  pinned_alike cached dr ->
  rules_pinned (rules_of cluster s) (rules_of cluster (s <| rs_caches :=
    alter (fun c => c <| rcDestinationRules :=
      <[(Name (DrMeta dr), Namespace (DrMeta dr)) := dr]> (rcDestinationRules c) |>) cluster (rs_caches s) |>)).
Proof using Type.
  intros Hc Hcached Ha Hn. unfold rules_of in *. simpl. rewrite lookup_alter_eq, Hc in *. simpl in *. split.
  - intros n ns d H. apply lookup_insert_Some in H as [[[= <- <-] <-]|[_ H]]; [done|by apply Hn].
  - intros k d H. apply lookup_insert_Some in H as [[<- <-]|[_ H]]; [by exists cached|]. by exists d.
Qed.

Context (named : forall cluster, gets_named (drClients cluster) DrMeta).

Lemma logged_named cluster : gets_named (routing_client (logged_drs cluster)) DrMeta.
Proof using named.
  intros ns n s o. simpl. unfold on_rs_api. simpl. pose proof (named cluster ns n (rs_api s).1) as Hn.
  destruct (api_get ns n (rs_api s).1) as [s' r]. simpl in *. by apply Hn.
Qed.

Lemma logged_drs_post (cluster : string) (Q : kube_write -> Prop) :
  client_post (routing_client (logged_drs cluster)) (api_rel (logs Q)) (fun ns o => Q (DrWrite ns o)) (fun ns n => Q (DrDelete ns n)).
Proof using Type.
  pose proof (logged_post (drClients cluster) DrWrite DrDelete Q) as Hc.
  split; intros ns x s; intros; cbn [api_create api_update api_delete api_get routing_client]; unfold on_rs_api.
  - pose proof (post_create _ _ _ _ Hc ns x (rs_api s) H) as Hp. unfold logged_drs. by destruct (api_create ns x (rs_api s)).
  - pose proof (post_update _ _ _ _ Hc ns x (rs_api s) H) as Hp. unfold logged_drs. by destruct (api_update ns x (rs_api s)).
  - pose proof (post_delete _ _ _ _ Hc ns x (rs_api s) H) as Hp. unfold logged_drs. by destruct (api_delete ns x (rs_api s)).
  - pose proof (post_get _ _ _ _ Hc ns x (rs_api s)) as Hp. unfold logged_drs. by destruct (api_get ns x (rs_api s)).
Qed.

Lemma pin_host_post rc cluster env region host hosts :
  host ∈ hosts ->
  api_post (pin_host p message logged_drs rc cluster env region host) (pinning cluster hosts env region).
Proof using named.
  intros Hin w errs w' H. unfold pin_host in H. destruct (has_suffix host _) eqn:Hs; [|by injection H as _ <-]. simpl in H.
  apply wbnd_Some in H as (cached & w1 & Hc & H). unfold cached_dr, wbnd, get_state, on_api in Hc. simpl in Hc.
  destruct (rs_caches (w_api w) !! cluster) as [c|] eqn:Ec; [|done]. injection Hc as Hcached <-.
  destruct cached as [cached|]; [|by injection H as _ <-].
  destruct (pinned_dr _ _ _ cached) as [new|err] eqn:E; [|by injection H as _ <-].
  destruct (reconcileDestinationRule _ _ _); [|by injection H as _ <-].
  apply pinned_dr_spec in E as (tp & Htp & Hlb & Hr & ->). set (new := cached <| DrSpec := _ |>) in H.
  apply wbnd_Some in H as (deps & w2 & H1 & H). apply wbnd_Some in H as (u & w3 & H2 & H). apply wbnd_Some in H as (e & w4 & H3 & H).
  assert (w_api w' = w_api w4) as -> by (by injection H as _ <-). clear H.
  assert (w_api w2 = w_api w) as Ew.
  { assert (api_post (dr_namespaces (St := routing_state (St * list kube_write)) p (ClusterID rc) new) eq) as Hp; [|by apply Hp in H1].
    unfold dr_namespaces. destruct (_ && _ && _); [apply (sortedDependentNamespaces_post eq)|apply (api_post_ret eq)]. }
  destruct (dr_after_alike cached tp (Some [mkDistribute "*" {[ remote_region region := 100 ]}]) deps Htp Hlb) as (Ha & Hname & Hns).
  fold new in Ha, Hname, Hns. set (dr := dr_after p new cached deps) in *.
  set (drName := pinned_dr_name host env) in *.
  assert (rules_named (rules_of cluster (w_api w)) -> Name (DrMeta cached) = drName /\ Namespace (DrMeta cached) = GetSyncNamespace p) as Hkey.
  { unfold rules_of. rewrite Ec. intros Hn. by apply Hn. }
  unfold put_dr, update_state, on_api in H2. injection H2 as _ <-. unfold on_api in H3.
  set (s3 := w_api (w2 <| w_api := _ |>)) in H3. destruct (addUpdateDestinationRule _ _ _ _ _ s3) as [s4 e4] eqn:E4. injection H3 as _ <-.
  change (pinning cluster hosts env region (w_api w) s4).
  assert (rules_named (rules_of cluster (w_api w)) ->
    api_rel (logs (pins_away (rules_of cluster (w_api w)) hosts env region)) s3 s4) as Hcalls.
  { intros Hn. destruct (Hkey Hn) as [Hkn Hkns].
    pose proof (addUpdateDestinationRule_post (api_rel (logs (pins_away (rules_of cluster (w_api w)) hosts env region))) p
      (client := routing_client (logged_drs cluster)) _ _ new (Some cached) (GetSyncNamespace p) deps s3
      (logged_drs_post cluster _)) as Hpost. rewrite E4 in Hpost. apply Hpost.
    intros x Hx Hname'. exists x, host, cached, tp. split; [done|]. split; [done|]. split; [done|]. cbv zeta.
    assert (host +:+ (if has_prefix host env then "-default-dr" else "-dr") = drName) as ->.
    { unfold drName, pinned_dr_name. by destruct (has_prefix _ _). }
    unfold rules_of. rewrite Ec. repeat (split; [done|]). split; [|by repeat (split; [done|])].
    rewrite <- Hkn. apply Hname'; [apply logged_named|]. by intros e' [= <-]. }
  assert (rules_named (rules_of cluster (w_api w)) -> rules_of cluster s4 = rules_of cluster s3) as Hsame.
  { intros Hn. unfold rules_of. by destruct (Hcalls Hn) as [-> _]. }
  split.
  - intros Hn. rewrite (Hsame Hn). destruct (Hkey Hn) as [Hkn Hkns]. unfold s3. simpl. rewrite Ew.
    apply (put_dr_pinned cluster cached dr (w_api w) c); [done| |done|done]. by rewrite Hname, Hns, Hkn, Hkns.
  - intros Hn. destruct (Hcalls Hn) as [_ Hl]. unfold s3 in Hl. simpl in Hl. by rewrite Ew in Hl.
Qed.

(** C15: Pinning moves the clients to the other region.  However the API answers,
    [performDRPinning] writes nothing but the cached rules of the hosts of the virtual
    service with Admiral's suffix, in the sync namespace: for a host of the environment the
    rule that the cache has under the host with the suffix -default-dr, for another one the
    rule with the suffix -dr.  The written rule has this name, and is the cached rule with one
    change: all its traffic goes to us-east-2 from a cluster of us-west-2, and to us-west-2
    from any other one.  The rules are to be cached under their names, and the server to find
    rules under theirs. *)
Theorem pinned_rules_point_away (vs : VirtualServiceObj) (env cluster : string)
    (w w' : world (routing_state (St * list kube_write))) (err : error) :
  rules_named (rules_of cluster (w_api w)) ->
  performDRPinning p message logged_drs remoteControllers clusterLocalityCache vs env cluster w = Some (err, w') ->
  exists written, (rs_api (w_api w')).2 = (rs_api (w_api w)).2 ++ written /\
    forall e, e ∈ written -> exists rc region, remoteControllers !! cluster = Some rc /\
      getClusterRegion p clusterLocalityCache cluster rc = Some (region, None) /\
      pins_away (rules_of cluster (w_api w)) (vsHosts (VsSpec vs)) env region e.
Proof using named.
  intros Hnamed. unfold performDRPinning. destruct (remoteControllers !! cluster) as [rc|].
  2:{ intros [= _ <-]. exists []. rewrite app_nil_r. split; [done|]. by intros e ?%elem_of_nil. }
  destruct (getClusterRegion _ _ _ rc) as [[region [e|]]|] eqn:Er; [| |done].
  { intros [= _ <-]. exists []. rewrite app_nil_r. split; [done|]. by intros e' ?%elem_of_nil. }
  set (P := pinning cluster (vsHosts (VsSpec vs)) env region).
  assert (forall l, (forall h, h ∈ l -> h ∈ vsHosts (VsSpec vs)) ->
    api_post (pin_hosts p message logged_drs rc cluster env region l) P) as Hall.
  { induction l as [|h l IH]; intros Hl; simpl; [apply (api_post_ret P)|].
    apply (api_post_bnd P); [apply pin_host_post, Hl; by left|]. intros errs.
    apply (api_post_bnd P); [apply IH; intros; apply Hl; by right|].
    intros; apply (api_post_ret P). }
  specialize (Hall _ (fun h Hh => Hh)). unfold wbnd. destruct (pin_hosts _ _ _ _ _ _ _ _ w) as [[errs w1]|] eqn:E; [|done].
  intros [= _ <-]. destruct (Hall _ _ _ E) as [_ Hl]. destruct (Hl Hnamed) as (written & Hw & Hf). exists written. split; [done|].
  intros e He. exists rc, region. split_and!; [done|done|]. by eapply Forall_forall.
Qed.
End Pinned.

(** ** Sidecars and warm-up: what is lost *)

(** The written spec has only the fields that [copySidecar] names. *)
Lemma sidecar_fields_dropped host s spec : sidecar_with_host host s = Some spec -> sdOthers spec = "".
Proof. unfold sidecar_with_host. simpl. destruct (sdEgress (SdSpec s)); [done|]. by intros [= <-]. Qed.

(** A client that accepts every call and knows no object. *)
Definition accepting {Obj} : KubeClient unit Obj := {|
  api_create _ _ s := (s, None);
  api_update _ _ s := (s, None);
  api_delete _ _ s := (s, None);
  api_get _ _ s := (s, inr NotFound)
|}.

Definition rules_params : AdmiralParams :=
  Params.zero_AdmiralParams <| Params.EnableSidecarCaching := true |> <| Params.WorkloadSidecarName := "default" |>
    <| Params.HostnameSuffix := "mesh" |> <| Params.SyncNamespace := "sync" |>
    <| Params.DefaultWarmupDurationSecs := 45 |>.

Definition rules_world {St} (s : routing_state St) : world (routing_state St) :=
  mkWorld s (mkHeap ∅ ∅ 0 ∅)
    (mkAdmiralCaches (mkCachePointers None None None None None) None None None None) empty_store ∅.

(** The sidecar of the namespace [client] has one host. *)
Definition client_sidecar : SidecarObj :=
  mkSidecarObj (mkMeta "default" "client" None None 0 "") (mkSidecar "" "" [mkEgress ["./*"] ""] "ALLOW_ANY").
Definition sidecar_world : world (routing_state (unit * list (string * SidecarObj))) :=
  rules_world (mkRouting (tt, []) ∅ ∅ {[ "c1" := {[ "client/default" := mkStatusItem client_sidecar "" ]} ]}).
Definition client_vs : VirtualServiceObj :=
  mkVirtualServiceObj (mkMeta "vs" "istio-system" None None 0 "") (mkVirtualService [] [] [] [] ["client"]).
Definition run_sidecar (readOnly : bool) (w : world (routing_state (unit * list (string * SidecarObj))))
    : option (error * world (routing_state (unit * list (string * SidecarObj)))) :=
  updateClientSidecarWithClusterLocalServices rules_params readOnly (fun _ => recording accepting) (fun _ => false)
    client_vs "c1" (Some {[ "c1" := "ns" ]}) w.
Definition written_sidecars (r : option (error * world (routing_state (unit * list (string * SidecarObj))))) : list (string * SidecarObj) :=
  match r with Some (_, w) => (rs_api (w_api w)).2 | None => [] end.

(** The host is added to the cached sidecar before the write: what a read-only instance
    has seen it does not write once it may. *)
Lemma read_only_sidecar_not_written :
  length (written_sidecars (run_sidecar false sidecar_world)) = 1%nat /\
  written_sidecars (match run_sidecar true sidecar_world with Some (_, w) => run_sidecar false w | None => None end)
    = [].
Proof. split; vm_compute; reflexivity. Qed.

(** An asset with a configuration for another environment only: the warm-up is set to
    nothing. *)
Definition slow_start_heap : heap :=
  mkHeap {[ 2%nat := {[ "e2e" := "30" ]} ]}
    (<[(3, 0)%nat := {[ "asset" := Some 1%nat ]}]> {[ (2, 1)%nat := {[ "prod" := Some 2%nat ]} ]}) 3 ∅.
Lemma slow_start_of_other_environment :
  let tp := routing_traffic_policy rules_params "c1" (mkTls ISTIO_MUTUAL []) in
  match processSlowStartConfig rules_params (Some 0%nat) "asset" "qal" (set_warmup 45 tp) slow_start_heap with
  | Done tp' _ => tp' = set_warmup 0 tp
  | _ => False
  end.
Proof. vm_compute. reflexivity. Qed.

(** ** The property at a concrete input *)

(** The rule of a host in the cluster [c1] of the region us-west-2. *)
Definition pin_dr : DestinationRuleObj :=
  mkDestinationRuleObj (mkMeta "e2e.foo.mesh-default-dr" "sync" None None 0 "")
    (mkDestinationRule "e2e.foo.mesh" (Some (routing_traffic_policy rules_params "c1" (mkTls ISTIO_MUTUAL []))) ["ns"]).
Definition pinning_world : world (routing_state (unit * list kube_write)) :=
  rules_world (mkRouting (tt, [])
    {[ "c1" := mkRcCaches ∅ {[ ("e2e.foo.mesh-default-dr", "sync") := pin_dr ]} ]} ∅ ∅).
Definition pinned_vs : VirtualServiceObj :=
  mkVirtualServiceObj (mkMeta "vs" "istio-system" None None 0 "")
    (mkVirtualService ["e2e.foo.mesh"; "other.example"] [] [] [] ["ns"]).
Definition pinning_run : option (error * world (routing_state (unit * list kube_write))) :=
  performDRPinning rules_params (fun _ => "") (logged_drs (fun _ => accepting))
    {[ "c1" := mkRC "c1" None (Some "us-west-2") ]} None pinned_vs "e2e" "c1" pinning_world.
Definition pinning_after : world (routing_state (unit * list kube_write)) :=
  match pinning_run with Some (_, w) => w | None => pinning_world end.

Lemma pinned_rules_point_away_witness :
  (rs_api (w_api pinning_after)).2 <> [] /\
  exists written, (rs_api (w_api pinning_after)).2 = [] ++ written /\
    forall e, e ∈ written -> exists rc region,
      ({[ "c1" := mkRC "c1" None (Some "us-west-2") ]} : gmap string RemoteController) !! "c1" = Some rc /\
      getClusterRegion rules_params None "c1" rc = Some (region, None) /\
      pins_away rules_params (rules_of "c1" (w_api pinning_world)) (vsHosts (VsSpec pinned_vs)) "e2e" region e.
Proof.
  split; [vm_compute; discriminate|].
  apply (pinned_rules_point_away rules_params (fun _ => "") (fun _ => accepting)
    {[ "c1" := mkRC "c1" None (Some "us-west-2") ]} None (fun _ _ _ _ _ H => ltac:(discriminate H)) pinned_vs "e2e" "c1"
    pinning_world pinning_after None).
  - intros n ns dr. change (rules_of "c1" (w_api pinning_world)) with ({[ ("e2e.foo.mesh-default-dr", "sync") := pin_dr ]} : gmap (string * string) DestinationRuleObj).
    by intros [[= <- <-] <-]%lookup_singleton_Some.
  - vm_compute. reflexivity.
Defined.
