(* ===== verification/RoutingWriter.v ===== *)
(** * Writing the virtual services of the routing

    The writing phase of [clusters/virtualservice_routing.go]: the in-cluster virtual
    services with their merge, their sidecars and the pinning that goes with them
    ([addUpdateInClusterVirtualServices]), those of the ingress
    ([addUpdateVirtualServicesForIngress]), and the rollback
    ([performInVSRoutingRollback]). *)
From S2P Require Import Prelude GoStrings Config Objects Metadata ServiceCache Policies AddressStore.
From S2P Require Import DestinationRules Writers ServiceEntries Caches Dependents World VirtualServices.
From S2P Require Import VsRouting Worker ClusterWriter Controller IstioCaches RoutingRules.
From stdpp Require Import options.
Local Open Scope Z_scope.
Local Open Scope world_scope.

Section Writers.
Context {range : GoRange} {sorting : GoSort} {St : Type} (p : AdmiralParams) (readOnly : bool).
Context (message : api_error -> string) (StringMatch_String : StringMatch -> string)
  (is_invalid : string -> bool) (vs_on_error : option VirtualServiceObj).
Context (vsClients : string -> KubeClient St VirtualServiceObj)
  (drClients : string -> KubeClient St DestinationRuleObj) (sidecarClients : string -> KubeClient St SidecarObj).
Context (remoteControllers : gmap string RemoteController) (routing : gmap string RcRouting)
  (clusterLocalityCache : option (gmap string (gmap string string)))
  (globalTrafficCache : option (identityCache GlobalTrafficPolicy)).
Context (api_list : string -> string -> gmap string string -> St -> St * (list VirtualServiceObj + api_error))
  (list_on_error : option (list VirtualServiceObj)).

Definition routing_list (cluster namespace : string) (labels : gmap string string)
    : routing_state St -> routing_state St * (list VirtualServiceObj + api_error) :=
  on_rs_api (api_list cluster namespace labels).

Definition cluster_vs (cluster : string) : KubeClient (routing_state St) VirtualServiceObj :=
  routing_client (vsClients cluster).

(** ** The in-cluster virtual services *)

Definition incluster_exportTo (vsName sourceCluster sourceIdentity env : string)
    : W (routing_state St) (list string) :=
  if EnableExportTo p vsName then
    enabled <- DoVSRoutingInClusterForClusterAndIdentity p message routing routing_list list_on_error env
                 sourceCluster sourceIdentity false;;
    if (enabled : bool) then sortedDependentNamespaces p vsName sourceCluster true else wret [GetSyncNamespace p]
  else wret [GetSyncNamespace p].

Definition generateVirtualServiceForIncluster (destination : destinations_of)
    (vsName sourceCluster sourceIdentity env : string) : W (routing_state St) (VirtualServiceObj + string) :=
  match incluster_routes StringMatch_String destination sourceIdentity with
  | None => wpanic
  | Some (inr err) => wret (inr err)
  | Some (inl (hosts, routes)) =>
      exportTo <- incluster_exportTo vsName sourceCluster sourceIdentity env;;
      wret (inl (incluster_vs vsName hosts routes exportTo))
  end.

(** A custom virtual service is merged with the one of its environment: that of the event,
    or the cached one. *)
Definition merge_tuple (cache : gmap string VirtualServiceObj) (virtualService : VirtualServiceObj)
    (env sourceIdentity sourceCluster : string) (tuple : string * VirtualServiceObj)
    : W (routing_state St) (list VirtualServiceObj + string) :=
  let '(tupleEnv, customVS) := tuple in
  s <- get_state;;
  let hostRoutes := default ∅ (rs_routes s !! sourceCluster) in
  if tupleEnv =?s env then
    match mergeVS customVS virtualService hostRoutes with
    | inr err => wret (inr err)
    | inl merged =>
        update_state (fun s => s <| rs_routes :=
          <[sourceCluster := HostToRouteDestinationCache_Put p merged hostRoutes]> (rs_routes s) |>) ;;;
        wret (inl [merged])
    end
  else
    let vsName := to_lower (GetCnameVal [tupleEnv; sourceIdentity; GetHostnameSuffix p])
                  +:+ "-" +:+ InclusterVSNameSuffix in
    match cache !! vsName with
    | None => wret (inl [])
    | Some vsFromCache =>
        wret (match mergeVS customVS vsFromCache hostRoutes with
              | inr err => inr err
              | inl merged => inl [merged]
              end)
    end.

Fixpoint merge_tuples (cache : gmap string VirtualServiceObj) (virtualService : VirtualServiceObj)
    (env sourceIdentity sourceCluster : string) (tuples : list (string * VirtualServiceObj))
    : W (routing_state St) (list VirtualServiceObj + string) :=
  match tuples with
  | [] => wret (inl [])
  | tuple :: rest =>
      r <- merge_tuple cache virtualService env sourceIdentity sourceCluster tuple;;
      match r with
      | inr err => wret (inr err)
      | inl merged =>
          r <- merge_tuples cache virtualService env sourceIdentity sourceCluster rest;;
          wret (match r with inr err => inr err | inl more => inl (merged ++ more) end)
      end
  end.

Definition mergeCustomVirtualServices (virtualService : VirtualServiceObj)
    (env sourceIdentity sourceCluster : string) : W (routing_state St) (list VirtualServiceObj + string) :=
  match (rc ← routing !! sourceCluster; VirtualServiceController rc) with
  | None => wret (inr "virtualServiceController is nil")
  | Some vc =>
      match VirtualServiceCache vc with
      | None => wret (inr "virtualServiceController.VirtualServiceCache is nil")
      | Some cache =>
          '(customVirtualServices, err) <-
            getCustomVirtualService p message routing_list list_on_error sourceCluster env sourceIdentity;;
          match err with
          | Some e => wret (inr ("getCustomVirtualService failed due to " +:+ e))
          | None => merge_tuples cache virtualService env sourceIdentity sourceCluster customVirtualServices
          end
      end
  end.

(** The errors of the pinning are only logged. *)
Definition pin_if_required (vs : VirtualServiceObj) (cname sourceCluster sourceIdentity env : string)
    : W (routing_state St) unit :=
  required <- shouldPerformDRPinning p message routing globalTrafficCache routing_list list_on_error
                cname sourceCluster sourceIdentity env;;
  if (required : bool) then
    performDRPinning p message drClients remoteControllers clusterLocalityCache vs env sourceCluster ;;; wret tt
  else wret tt.

(** The virtual service as it is stored, if it is, and the write. *)
Definition write_routing_vs (rc : RemoteController) (sourceCluster : string) (vs : VirtualServiceObj)
    : W (routing_state St) (option api_error) :=
  '(existingVS, _) <- on_api (getExistingVS (client := cluster_vs sourceCluster) vs_on_error (Name (VsMeta vs))
                                IstioSystemNamespace);;
  addUpdateVirtualService (client := cluster_vs sourceCluster) p (ClusterID rc) vs existingVS IstioSystemNamespace.

Definition process_incluster_vs (rc : RemoteController) (cname sourceCluster sourceIdentity env : string)
    (vs : VirtualServiceObj) : W (routing_state St) error :=
  let '(reconcileRequired, _) := doReconcileVirtualService (routing !! sourceCluster) vs httpRoutesComparator in
  if negb reconcileRequired then
    pin_if_required vs cname sourceCluster sourceIdentity env ;;; wret None
  else
    err <- write_routing_vs rc sourceCluster vs;;
    match err with
    | Some e => wret (Some (message e))
    | None => pin_if_required vs cname sourceCluster sourceIdentity env ;;; wret None
    end.

Fixpoint process_incluster_vss (rc : RemoteController) (cname sourceCluster sourceIdentity env : string)
    (vss : list VirtualServiceObj) : W (routing_state St) error :=
  match vss with
  | [] => wret None
  | vs :: rest =>
      err <- process_incluster_vs rc cname sourceCluster sourceIdentity env vs;;
      match err with
      | Some e => wret (Some e)
      | None => process_incluster_vss rc cname sourceCluster sourceIdentity env rest
      end
  end.

(** A cluster of the loop. *)
Definition process_incluster_cluster (rc : RemoteController) (sourceCluster : string)
    (destination : destinations_of) (cname sourceIdentity env : string)
    (sourceClusterToEventNsCache : gomap) : W (routing_state St) error :=
  generated <- generateVirtualServiceForIncluster destination cname sourceCluster sourceIdentity env;;
  match generated with
  | inr err => wret (Some err)
  | inl virtualService =>
      updateClientSidecarWithClusterLocalServices p readOnly sidecarClients is_invalid virtualService sourceCluster
        sourceClusterToEventNsCache ;;;
      merged <- (if IsCustomVSMergeEnabled p
                 then mergeCustomVirtualServices virtualService env sourceIdentity sourceCluster
                 else wret (inl []));;
      match merged with
      | inr err => wret (Some err)
      | inl merged =>
          process_incluster_vss rc cname sourceCluster sourceIdentity env
            (match merged with [] => [virtualService] | _ => merged end)
      end
  end.

Fixpoint incluster_clusters (ds : list (string * destinations_of)) (cname sourceIdentity env : string)
    (sourceClusterToEventNsCache : gomap) : W (routing_state St) error :=
  match ds with
  | [] => wret None
  | (sourceCluster, destination) :: rest =>
      match remoteControllers !! sourceCluster with
      | None => incluster_clusters rest cname sourceIdentity env sourceClusterToEventNsCache
      | Some rc =>
          err <- process_incluster_cluster rc sourceCluster destination cname sourceIdentity env
                   sourceClusterToEventNsCache;;
          match err with
          | Some e => wret (Some e)
          | None => incluster_clusters rest cname sourceIdentity env sourceClusterToEventNsCache
          end
      end
  end.

Definition addUpdateInClusterVirtualServices (sourceClusterToDestinations : gmap string destinations_of)
    (cname sourceIdentity env : string) (sourceClusterToEventNsCache : gomap) : W (routing_state St) error :=
  if is_empty sourceIdentity then wret (Some "identity is empty")
  else if is_empty cname then wret (Some "cname is empty")
  else incluster_clusters (go_range 0 sourceClusterToDestinations) cname sourceIdentity env
         sourceClusterToEventNsCache.

(** ** The virtual services of the ingress *)

Definition process_ingress_vs (rc : RemoteController) (sourceCluster : string) (destination : destinations_of)
    (vsName : string) : W (routing_state St) error :=
  match generateVirtualServiceForIngress p destination vsName with
  | inr err => wret (Some err)
  | inl virtualService =>
      let '(reconcileRequired, _) :=
        doReconcileVirtualService (routing !! sourceCluster) virtualService tlsRoutesComparator in
      if negb reconcileRequired then wret None
      else
        err <- write_routing_vs rc sourceCluster virtualService;;
        wret (option_map message err)
  end.

Fixpoint ingress_clusters (ds : list (string * destinations_of)) (vsName : string) : W (routing_state St) error :=
  match ds with
  | [] => wret None
  | (sourceCluster, destination) :: rest =>
      if negb (DoVSRoutingForCluster p sourceCluster) then ingress_clusters rest vsName
      else match remoteControllers !! sourceCluster with
           | None => ingress_clusters rest vsName
           | Some rc =>
               err <- process_ingress_vs rc sourceCluster destination vsName;;
               match err with
               | Some e => wret (Some e)
               | None => ingress_clusters rest vsName
               end
           end
  end.

Definition addUpdateVirtualServicesForIngress (sourceClusterToDestinations : gmap string destinations_of)
    (vsName : string) : W (routing_state St) error :=
  if is_empty vsName then wret (Some "vsName is empty")
  else ingress_clusters (go_range 0 sourceClusterToDestinations) vsName.

(** ** The rollback *)

Definition update_error (r : option api_error + string) : error :=
  match r with inl e => option_map message e | inr err => Some err end.

Definition hide_vs (vs : VirtualServiceObj) : VirtualServiceObj :=
  vs <| VsSpec := VsSpec vs <| vsExportTo := [GetSyncNamespace p] |> |>.

Fixpoint rollback_all (clusterID : string) (vss : list VirtualServiceObj) : W (routing_state St) (list string) :=
  match vss with
  | [] => wret []
  | virtualService :: rest =>
      r <- on_api (updateVirtualService (client := cluster_vs clusterID) (hide_vs virtualService)
                     IstioSystemNamespace);;
      errs <- rollback_all clusterID rest;;
      wret (match update_error r with
            | None => errs
            | Some err => ("failed to rollback in-cluster virtual service on cluster " +:+ clusterID +:+
                           " due to " +:+ err) :: errs
            end)
  end.

Definition rollback_cluster (clusterID : string) : W (routing_state St) (list string) :=
  r <- on_api (routing_list clusterID IstioSystemNamespace {[ VSRoutingType := VSRoutingTypeInCluster ]});;
  match r with
  | inl vss => rollback_all clusterID vss
  | inr NotFound => wret [message NotFound]
  | inr _ => match list_on_error with Some vss => rollback_all clusterID vss | None => wpanic end
  end.

Definition rollback_identity (clusterID vsname : string) : W (routing_state St) (list string) :=
  let virtualServiceName := vsname +:+ "-" +:+ InclusterVSNameSuffix in
  '(existingVS, err) <- on_api (getExistingVS (client := cluster_vs clusterID) vs_on_error virtualServiceName
                                  IstioSystemNamespace);;
  match err, existingVS with
  | Some e, _ => wret ["error while getting virtualservice " +:+ virtualServiceName +:+
                       ", rollback failed on cluster " +:+ clusterID +:+ " due to " +:+ message e]
  | None, None => wret []
  | None, Some vs =>
      r <- on_api (updateVirtualService (client := cluster_vs clusterID) (hide_vs vs) IstioSystemNamespace);;
      wret (match update_error r with
            | None => []
            | Some err => ["failed rolling back virtualservice " +:+ virtualServiceName +:+ " due to " +:+ err]
            end)
  end.

(** A cluster without a remote controller ends the loop. *)
Fixpoint rollback_clusters (clusters : list string) (sourceIdentity vsname : string) (errs : list string)
    : W (routing_state St) (list string + string) :=
  match clusters with
  | [] => wret (inl errs)
  | clusterID :: rest =>
      match remoteControllers !! clusterID with
      | None => wret (inr ("remote controller not initialized on cluster " +:+ clusterID))
      | Some _ =>
          more <- (if IsVSRoutingInClusterDisabledForCluster p clusterID then rollback_cluster clusterID
                   else if IsVSRoutingInClusterDisabledForIdentity p clusterID sourceIdentity
                   then rollback_identity clusterID vsname else wret []);;
          rollback_clusters rest sourceIdentity vsname (errs ++ more)
      end
  end.

Definition performInVSRoutingRollback (sourceIdentity : string) (sourceClusterToEventNsCache : gomap)
    (vsname : string) : W (routing_state St) error :=
  if is_empty sourceIdentity then wret (Some "source identity is empty")
  else match sourceClusterToEventNsCache with
       | None => wret (Some "sourceClusterToEventNsCache is nil")
       | Some cache =>
           if is_empty vsname then wret (Some "vsname is empty")
           else
             r <- rollback_clusters (go_range 0 cache).*1 sourceIdentity vsname [];;
             wret (match r with
                   | inr err => Some err
                   | inl [] => None
                   | inl errs => Some ("[" +:+ join " " errs +:+ "]")
                   end)
       end.
End Writers.

(** ** When a virtual service is visible to the clients *)

Section Exported.
Context {range : GoRange} {sorting : GoSort} {St : Type} (p : AdmiralParams).
Context (message : api_error -> string) (StringMatch_String : StringMatch -> string)
  (routing : gmap string RcRouting)
  (api_list : string -> string -> gmap string string -> St -> St * (list VirtualServiceObj + api_error))
  (list_on_error : option (list VirtualServiceObj)).

(** C17: An in-cluster virtual service is visible outside of Admiral's own namespace only
    when the routing in the cluster is on: the feature is on for the cluster or the
    identity and off for neither, and no cluster of the identity has a virtual service of
    the identity that Argo does not manage, whose rules the generated one would
    override. *)
Theorem incluster_export_guarded (destination : destinations_of) (vsName cluster identity env : string)
    (w w' : world (routing_state St)) (vs : VirtualServiceObj) :
  generateVirtualServiceForIncluster p message StringMatch_String routing api_list list_on_error destination
    vsName cluster identity env w = Some (inl vs, w') ->
  vsExportTo (VsSpec vs) = [GetSyncNamespace p] \/
  (EnableExportTo p vsName = true /\ GetEnableVSRoutingInCluster p = true /\
   IsVSRoutingInClusterDisabledForCluster p cluster = false /\
   IsVSRoutingInClusterDisabledForIdentity p cluster identity = false /\
   routing_in_cluster_enabled p cluster identity = true /\
   exists l m, MapOfMaps_Get (IdentityClusterCache (pointers (w_caches w))) identity (w_heap w)
       = Done (Some l) (w_heap w) /\
     h_maps (w_heap w) !! l = Some m /\ m <> ∅ /\ forall k c, m !! k = Some c -> no_custom_vs p routing identity c).
Proof.
  unfold generateVirtualServiceForIncluster. destruct (incluster_routes _ _ _) as [[[hosts routes]|err]|]; [|done..].
  unfold wbnd at 1. destruct (incluster_exportTo _ _ _ _ _ _ _ _ _ w) as [[exportTo w1]|] eqn:E; [|done].
  intros [= <- <-]. simpl. unfold incluster_exportTo in E.
  destruct (EnableExportTo p vsName); [|injection E as <- <-; by left].
  unfold wbnd at 1 in E.
  destruct (DoVSRoutingInClusterForClusterAndIdentity _ _ _ _ _ _ _ _ _ w) as [[[|] w2]|] eqn:E1; [| |done].
  - right. split; [done|]. by eapply do_vs_routing_guarded.
  - injection E as <- <-. by left.
Qed.
End Exported.

(** ** The rollback *)

(** What the servers are asked by the rollback, with the namespaces, names and selectors,
    and what they answer: the lists and the virtual services that it is given, the errors,
    and the updates that succeed. *)
Inductive rollback_entry :=
| Listed (cluster namespace : string) (selector : gmap string string) (vss : list VirtualServiceObj)
| ListFailed (cluster namespace : string) (selector : gmap string string) (err : api_error)
| Found (cluster namespace name : string) (vs : VirtualServiceObj)
| GetFailed (cluster namespace name : string) (err : api_error)
| Updated (cluster namespace : string) (vs : VirtualServiceObj).

Section RolledBack.
Context (p : AdmiralParams).

(** The selector of the in-cluster virtual services. *)
Definition incluster_selector : gmap string string := {[ "admiral.io/vs-routing-type" := "incluster" ]}.

(** The virtual service was updated, with this change: only Admiral's namespace sees it. *)
Definition hidden (cluster : string) (vs : VirtualServiceObj) (lg : list rollback_entry) : Prop :=
  Updated cluster "istio-system" (mkVirtualServiceObj (VsMeta vs) (VsSpec vs <| vsExportTo := [GetSyncNamespace p] |>)) ∈ lg.

(** The cluster's rollback did what it should, by the log. *)
Definition rolled_back (sourceIdentity vsname cluster : string) (lg : list rollback_entry) : Prop :=
  let name := vsname +:+ "-incluster-vs" in
  if IsVSRoutingInClusterDisabledForCluster p cluster then
    (exists vss, Listed cluster "istio-system" incluster_selector vss ∈ lg /\ forall vs, vs ∈ vss -> hidden cluster vs lg) \/
    (exists err, err <> NotFound /\ ListFailed cluster "istio-system" incluster_selector err ∈ lg)
  else if IsVSRoutingInClusterDisabledForIdentity p cluster sourceIdentity then
    (exists vs, Found cluster "istio-system" name vs ∈ lg /\ hidden cluster vs lg) \/
    (exists err, err <> NotFound /\ GetFailed cluster "istio-system" name err ∈ lg)
  else True.

(** The log only grows. *)
Lemma rolled_back_app sourceIdentity vsname cluster lg more :
  rolled_back sourceIdentity vsname cluster lg -> rolled_back sourceIdentity vsname cluster (lg ++ more).
Proof.
  unfold rolled_back, hidden. cbv zeta. repeat case_match; [| |done]; setoid_rewrite elem_of_app; naive_solver.
Qed.

End RolledBack.

Section Rollback.
Context {range : GoRange} {St : Type} (p : AdmiralParams) (message : api_error -> string)
  (vs_on_error : option VirtualServiceObj) (vsClients : string -> KubeClient St VirtualServiceObj)
  (remoteControllers : gmap string RemoteController)
  (api_list : string -> string -> gmap string string -> St -> St * (list VirtualServiceObj + api_error))
  (list_on_error : option (list VirtualServiceObj)).

Abbreviation traced := (St * list rollback_entry)%type.

Definition tracing (cluster : string) : KubeClient traced VirtualServiceObj :=
  let client := vsClients cluster in {|
  api_create ns o s := let '(s', e) := api_create ns o s.1 in ((s', s.2), e);
  api_update ns o s := let '(s', e) := api_update ns o s.1 in
    ((s', match e with None => s.2 ++ [Updated cluster ns o] | Some _ => s.2 end), e);
  api_delete ns n s := let '(s', e) := api_delete ns n s.1 in ((s', s.2), e);
  api_get ns n s := let '(s', r) := api_get ns n s.1 in
    ((s', s.2 ++ [match r with inl o => Found cluster ns n o | inr e => GetFailed cluster ns n e end]), r)
|}.

Definition tracing_list (cluster ns : string) (labels : gmap string string) (s : traced)
    : traced * (list VirtualServiceObj + api_error) :=
  let '(s', r) := api_list cluster ns labels s.1 in
  ((s', s.2 ++ [match r with inl vss => Listed cluster ns labels vss | inr e => ListFailed cluster ns labels e end]), r).

Abbreviation entries w := (rs_api (w_api w)).2.
Abbreviation hide := (hide_vs p).

Lemma update_loop_traced cluster vs ns : forall tries last (s : routing_state traced),
  let r := update_vs_loop (client := cluster_vs tracing cluster) tries vs ns last s in
  r.2 = None -> tries <> 0%nat \/ last <> None -> (rs_api r.1).2 = (rs_api s).2 ++ [Updated cluster ns vs].
Proof.
  induction tries as [|tries IH]; intros last s; simpl; [by intros -> [|]|]. unfold on_rs_api. simpl.
  destruct (api_update ns vs (rs_api s).1) as [s2 [e|]]; simpl; [|done].
  intros Hr _. rewrite IH; [done|done|by right].
Qed.

Lemma update_traced cluster vs (w w' : world (routing_state traced)) r :
  on_api (updateVirtualService (client := cluster_vs tracing cluster) vs IstioSystemNamespace) w = Some (r, w') ->
  update_error message r = None -> entries w' = entries w ++ [Updated cluster IstioSystemNamespace vs].
Proof.
  unfold on_api, updateVirtualService. cbn [String.eqb IstioSystemNamespace].
  pose proof (update_loop_traced cluster vs IstioSystemNamespace maxUpdateRetries None (w_api w)) as H.
  destruct (update_vs_loop _ _ _ _ _) as [s e]. intros [= <- <-] He. simpl in *.
  destruct e; [done|]. apply H; [done|by left].
Qed.

Lemma rollback_all_traced cluster vss : forall (w w' : world (routing_state traced)),
  rollback_all p message tracing cluster vss w = Some ([], w') ->
  entries w' = entries w ++ map (fun vs => Updated cluster IstioSystemNamespace (hide vs)) vss.
Proof.
  induction vss as [|vs vss IH]; intros w w'; simpl.
  { intros [= <-]. by rewrite app_nil_r. }
  unfold wbnd. destruct (on_api _ w) as [[r w1]|] eqn:E1; [|done].
  destruct (rollback_all _ _ _ _ vss w1) as [[errs w2]|] eqn:E2; [|done].
  destruct (update_error message r) eqn:Er; [done|]. intros [= -> ->].
  rewrite (IH w1 w' E2), (update_traced _ _ _ _ _ E1 Er), <- app_assoc. done.
Qed.

Definition rollback_step (cluster sourceIdentity vsname : string) : W (routing_state traced) (list string) :=
  if IsVSRoutingInClusterDisabledForCluster p cluster
  then rollback_cluster p message tracing tracing_list list_on_error cluster
  else if IsVSRoutingInClusterDisabledForIdentity p cluster sourceIdentity
  then rollback_identity p message vs_on_error tracing cluster vsname else wret [].

Lemma rollback_step_traced cluster sourceIdentity vsname (w w' : world (routing_state traced)) :
  rollback_step cluster sourceIdentity vsname w = Some ([], w') ->
  (exists more, entries w' = entries w ++ more) /\ rolled_back p sourceIdentity vsname cluster (entries w').
Proof.
  unfold rollback_step, rolled_back, hidden. cbv zeta. destruct (IsVSRoutingInClusterDisabledForCluster p cluster).
  - unfold rollback_cluster, wbnd, on_api at 1, routing_list, on_rs_api, tracing_list.
    destruct (api_list _ _ _ _) as [s1 [vss|e]]; simpl.
    + intros H%rollback_all_traced. simpl in H. rewrite H. split; [by rewrite <- app_assoc; eexists|].
      left. exists vss. rewrite !elem_of_app, list_elem_of_singleton. split; [by auto|].
      intros vs Hvs. unfold hidden. rewrite elem_of_app. right. apply list_elem_of_fmap. by exists vs.
    + destruct e; [| |done|]; destruct list_on_error as [vss|]; try done; intros H%rollback_all_traced; simpl in H;
        rewrite H; (split; [by rewrite <- app_assoc; eexists|]); right; eexists;
        (split; [|by rewrite !elem_of_app, list_elem_of_singleton; left; right]); done.
  - destruct (IsVSRoutingInClusterDisabledForIdentity p cluster sourceIdentity).
    + unfold rollback_identity, wbnd, on_api at 1, getExistingVS. simpl. unfold on_rs_api. simpl.
      set (name := vsname +:+ _). destruct (api_get _ _ _) as [s1 [vs|e]]; simpl.
      * destruct (on_api _ _) as [[r w1]|] eqn:E; [|done]. destruct (update_error message r) eqn:Er; [done|].
        intros [= <-]. rewrite (update_traced _ _ _ _ _ E Er). simpl. split; [by rewrite <- app_assoc; eexists|].
        left. exists vs. rewrite !elem_of_app, !list_elem_of_singleton. auto.
      * intros H. assert (e <> NotFound /\ exists more, entries w' = (rs_api (w_api w)).2 ++ [GetFailed cluster IstioSystemNamespace name e] ++ more)
          as (He & more & Hm).
        { destruct e; try done; (split; [done|]); destruct vs_on_error as [vs|];
            try (injection H as <-; exists []; by rewrite app_nil_r).
          all: destruct (on_api _ _) as [[r w1]|] eqn:E; [|done];
            destruct (update_error message r) eqn:Er; [done|]; injection H as <-;
            rewrite (update_traced _ _ _ _ _ E Er); simpl; rewrite <- app_assoc; by eexists. }
        split; [by eexists|]. right. exists e. split; [done|]. rewrite Hm, !elem_of_app, list_elem_of_singleton. auto.
    + intros [= <-]. split; [exists []; by rewrite app_nil_r|done].
Qed.

Lemma rollback_clusters_traced sourceIdentity vsname clusters : forall errs (w w' : world (routing_state traced)),
  rollback_clusters p message vs_on_error tracing remoteControllers tracing_list list_on_error clusters
    sourceIdentity vsname errs w = Some (inl [], w') ->
  errs = [] /\ (exists more, entries w' = entries w ++ more) /\
  forall cluster, cluster ∈ clusters ->
    is_Some (remoteControllers !! cluster) /\ rolled_back p sourceIdentity vsname cluster (entries w').
Proof.
  induction clusters as [|cluster clusters IH]; intros errs w w'; cbn [rollback_clusters].
  { intros [= -> <-]. split_and!; [done|exists []; by rewrite app_nil_r|by intros ? ?%elem_of_nil]. }
  destruct (remoteControllers !! cluster) eqn:Erc; [|done]. unfold wbnd.
  match goal with |- context[match ?c w with _ => _ end] =>
    change c with (rollback_step cluster sourceIdentity vsname) end.
  destruct (rollback_step _ _ _ w) as [[more w1]|] eqn:E; [|done]. intros H.
  destruct (IH _ _ _ H) as (Herr & (m2 & Hm) & Hall). apply app_eq_nil in Herr as [-> ->].
  apply rollback_step_traced in E as [[m1 Hm1] Hr]. split_and!; [done| |].
  - exists (m1 ++ m2). by rewrite Hm, Hm1, <- app_assoc.
  - intros c [->|Hc]%elem_of_cons; [|by apply Hall]. split; [done|]. rewrite Hm. by apply rolled_back_app.
Qed.

(** C21: A rollback that reports no error has hidden the virtual services.  Every cluster of
    the identity has a remote controller; where the routing is off for the whole cluster,
    the in-cluster virtual services of istio-system were listed by their label, and each that
    the server listed was updated there to be exported to Admiral's own namespace only; where
    it is off for the identity, its virtual service of istio-system was; the exception is a
    server that answered with an error that is not of kind not found, which the code takes for
    an empty answer. *)
Theorem rollback_complete (sourceIdentity vsname : string) (clusters : gmap string string)
    (w w' : world (routing_state traced)) :
  performInVSRoutingRollback p message vs_on_error tracing remoteControllers tracing_list list_on_error
    sourceIdentity (Some clusters) vsname w = Some (None, w') ->
  forall cluster, is_Some (clusters !! cluster) ->
    is_Some (remoteControllers !! cluster) /\ rolled_back p sourceIdentity vsname cluster (entries w').
Proof.
  unfold performInVSRoutingRollback. destruct (is_empty sourceIdentity); [done|].
  destruct (is_empty vsname); [done|]. unfold wbnd.
  destruct (rollback_clusters _ _ _ _ _ _ _ _ _ _ _ w) as [[[[|]|] w1]|] eqn:E; try done.
  intros [= <-] cluster [ns Hc]. apply (rollback_clusters_traced _ _ _ _ _ _ E).
  apply list_elem_of_fmap. exists (cluster, ns). by rewrite go_range_elem.
Qed.
End Rollback.

(** ** Errors of a list are taken for an empty one

    [getAllVirtualServices] returns the error only when it is of kind not found. *)
Definition rollback_params : AdmiralParams :=
  Params.zero_AdmiralParams <| Params.EnableVSRoutingInCluster := true |> <| Params.SyncNamespace := "sync" |>
    <| Params.VSRoutingInClusterDisabledResources := Some {[ "c1" := "*"; "c2" := "foo" ]} |>.

Definition rollback_remotes : gmap string RemoteController :=
  {[ "c1" := mkRC "c1" None None; "c2" := mkRC "c2" None None ]}.

(** The lists of the server fail; the client returns an empty one. *)
Lemma rollback_list_error_lost :
  let w := rules_world (mkRouting tt ∅ ∅ ∅) in
  performInVSRoutingRollback rollback_params (fun _ => "timeout") None (fun _ => accepting) rollback_remotes
    (fun _ _ _ s => (s, inr (OtherError "timeout"))) (Some []) "foo" (Some {[ "c1" := "ns" ]}) "e2e.foo.mesh" w
  = Some (None, w).
Proof. vm_compute. reflexivity. Qed.

(** ** The properties at concrete inputs *)

Definition exported_vs (name : string) : VirtualServiceObj :=
  mkVirtualServiceObj (mkMeta name "istio-system" None None 0 "") (mkVirtualService ["h"] [] [] [] ["client"]).

(** A server that has every virtual service it is asked for and accepts the updates. *)
Definition serving : KubeClient unit VirtualServiceObj := {|
  api_create _ _ s := (s, None);
  api_update _ _ s := (s, None);
  api_delete _ _ s := (s, None);
  api_get _ name s := (s, inl (exported_vs name))
|}.

Definition rollback_world : world (routing_state (unit * list rollback_entry)) :=
  rules_world (mkRouting (tt, []) ∅ ∅ ∅).
Definition rollback_run : option (error * world (routing_state (unit * list rollback_entry))) :=
  performInVSRoutingRollback rollback_params (fun _ => "") None (tracing (fun _ => serving)) rollback_remotes
    (tracing_list (fun _ _ _ s => (s, inl [exported_vs "a"; exported_vs "b"]))) None "foo"
    (Some {[ "c1" := "ns"; "c2" := "ns" ]}) "e2e.foo.mesh" rollback_world.
Definition rollback_after : world (routing_state (unit * list rollback_entry)) :=
  match rollback_run with Some (_, w) => w | None => rollback_world end.

Lemma rollback_complete_witness :
  rolled_back rollback_params "foo" "e2e.foo.mesh" "c1" (rs_api (w_api rollback_after)).2 /\
  rolled_back rollback_params "foo" "e2e.foo.mesh" "c2" (rs_api (w_api rollback_after)).2.
Proof.
  split; eapply (rollback_complete rollback_params (fun _ => "") None (fun _ => serving) rollback_remotes
    (fun _ _ _ s => (s, inl [exported_vs "a"; exported_vs "b"])) None "foo" "e2e.foo.mesh"
    {[ "c1" := "ns"; "c2" := "ns" ]} rollback_world rollback_after); try (vm_compute; reflexivity); by eexists.
Defined.

(** The identity [foo] runs in [c1], its client in the namespace [client]. *)
Definition export_params : AdmiralParams :=
  pin_params <| Params.EnableSWAwareNSCaches := true |> <| Params.ExportToIdentityList := ["*"] |>
    <| Params.ExportToMaxNamespaces := 10 |>.
Definition export_world : world (routing_state unit) :=
  mkWorld (mkRouting tt ∅ ∅ ∅)
    (mkHeap (<[1%nat := {[ "c1" := "c1" ]}]> {[ 4%nat := {[ "client" := "client" ]} ]})
       (<[(2, 0)%nat := {[ "foo" := Some 1%nat ]}]> (<[(3, 2)%nat := {[ "e2e.foo.mesh" := Some 3%nat ]}]>
          {[ (2, 3)%nat := {[ "c1" := Some 4%nat ]} ]})) 5 ∅)
    (mkAdmiralCaches (mkCachePointers None None (Some 0%nat) None (Some 2%nat)) None None None None)
    empty_store ∅.
Definition export_run :=
  generateVirtualServiceForIncluster export_params (fun _ => "") printed pin_routing (fun _ _ _ s => (s, inl [])) None
    {[ "e2e.foo.mesh" := [getRouteDestination "foo.ns.svc.cluster.local" 80 0] ]} "e2e.foo.mesh" "c1" "foo" "e2e"
    export_world.
Definition exported_run_vs : VirtualServiceObj :=
  match export_run with Some (inl vs, _) => vs | _ => exported_vs "" end.

Lemma incluster_export_guarded_witness :
  vsExportTo (VsSpec exported_run_vs) = ["client"] /\
  (vsExportTo (VsSpec exported_run_vs) = [GetSyncNamespace export_params] \/
   (EnableExportTo export_params "e2e.foo.mesh" = true /\ GetEnableVSRoutingInCluster export_params = true /\
    IsVSRoutingInClusterDisabledForCluster export_params "c1" = false /\
    IsVSRoutingInClusterDisabledForIdentity export_params "c1" "foo" = false /\
    routing_in_cluster_enabled export_params "c1" "foo" = true /\
    exists l m, MapOfMaps_Get (IdentityClusterCache (pointers (w_caches export_world))) "foo" (w_heap export_world)
        = Done (Some l) (w_heap export_world) /\
      h_maps (w_heap export_world) !! l = Some m /\ m <> ∅ /\
      forall k c, m !! k = Some c -> no_custom_vs export_params pin_routing "foo" c)).
Proof.
  split; [vm_compute; reflexivity|].
  eapply (incluster_export_guarded export_params (fun _ => "") printed pin_routing (fun _ _ _ s => (s, inl [])) None
    {[ "e2e.foo.mesh" := [getRouteDestination "foo.ns.svc.cluster.local" 80 0] ]} "e2e.foo.mesh" "c1" "foo" "e2e"
    export_world).
  vm_compute. reflexivity.
Defined.
