(* ===== verification/PolicyController.v ===== *)
(** * The controllers of the policies

    Models the delegators of [controller/admiral/globaltraffic.go],
    [outlierdetection.go] and [clientconnectionconfigcontroller.go]: each keeps the
    cache of its kind ([Policies.v]) and hands the events on to the handler.  They
    implement the interface [Delegator] of the event controller, whose theorems
    therefore hold for policies. *)
From S2P Require Import Prelude GoStrings Config Objects Metadata ServiceCache Policies Controller.
From stdpp Require Import options.

Record pc_state (A H : Type) := mkPc { pc_cache : policyCache A; pc_handler : H }.
Arguments mkPc {A H} _ _.
Arguments pc_cache {A H} _.
Arguments pc_handler {A H} _.

Section PolicyControllers.
Context {A H : Type} {kind : PolicyKind A} {ops : PolicyCacheOps A} (p : AdmiralParams).
(** The handler of the kind: its [Added], [Updated] and [Deleted]. *)
Context (handler : EventType -> A -> H -> H * error).
(** The API: the policy of a namespace and name, or an error. *)
Context (api : string -> string -> A + string).

Definition not_a_policy : error := Some "type assertion failed, object is not of the type of the kind".

(** [Added] and [Updated]: the cache, then the handler, as event [ev]. *)
Definition put_and_handle (ev : EventType) (o : delivered A) (s : pc_state A H) : pc_state A H * error :=
  match o with
  | Stale _ => (s, not_a_policy)
  | Present obj =>
      let '(h, err) := handler ev obj (pc_handler s) in
      (mkPc (cache_Put p obj (pc_cache s)) h, err)
  end.

Definition delete_and_handle (obj : A) (s : pc_state A H) : pc_state A H * error :=
  let '(h, err) := handler Delete obj (pc_handler s) in
  (mkPc (policyCache_Delete p obj (pc_cache s)) h, err).

(** [Deleted] of the traffic policies and the client connection configurations. *)
Definition policy_Deleted (o : delivered A) (s : pc_state A H) : pc_state A H * error :=
  match o with Stale _ => (s, not_a_policy) | Present obj => delete_and_handle obj s end.

(** [OutlierDetectionController.Deleted] takes the object out of a tombstone. *)
Definition OutlierDetectionController_Deleted (o : delivered A) (s : pc_state A H) : pc_state A H * error :=
  match o with Stale obj | Present obj => delete_and_handle obj s end.

Definition policy_UpdateProcessItemStatus (o : delivered A) (status : string) (s : pc_state A H)
    : pc_state A H * error :=
  match o with
  | Stale _ => (s, not_a_policy)
  | Present obj =>
      let '(c, err) := policyCache_UpdateStatus p (pc_cache s) obj status in
      (mkPc c (pc_handler s), err)
  end.

Definition policy_GetProcessItemStatus (o : delivered A) (s : pc_state A H) : string * error :=
  match o with
  | Stale _ => (NotProcessed, not_a_policy)
  | Present obj => (policyCache_GetStatus p (pc_cache s) obj, None)
  end.

(** [Get] without [isRetry]. *)
Definition policy_GetLatest (o : delivered A) (s : pc_state A H) : pc_state A H * (delivered A + string) :=
  match o with
  | Stale _ => (s, inr "client is not initialized")
  | Present obj =>
      (s, match api (Namespace (pk_meta obj)) (Name (pk_meta obj)) with
          | inl obj' => inl (Present obj')
          | inr err => inr err
          end)
  end.

(** [Get] of the kinds that do not look at [isRetry]. *)
Definition policy_GetCached (o : delivered A) (s : pc_state A H) : fetched (delivered A) + string :=
  match (policy_GetLatest o s).2 with
  | inl obj => inl (FetchedObj (Some obj))
  | inr err => inr err
  end.

Definition policy_meta (o : delivered A) : option ObjectMeta :=
  match o with Present obj => Some (pk_meta obj) | Stale _ => None end.
Definition policy_tombstone (o : delivered A) : bool :=
  match o with Present _ => false | Stale _ => true end.

(** The delegator with the two methods in which the kinds differ, and the event that an
    update is handed on as. *)
Definition policy_delegator (updated_as : EventType)
    (deleted : delivered A -> pc_state A H -> pc_state A H * error)
    (cached : delivered A -> pc_state A H -> fetched (delivered A) + string)
    : Delegator (pc_state A H) (delivered A) := {|
  obj_meta := policy_meta;
  is_tombstone := policy_tombstone;
  Added := put_and_handle Add;
  Updated o _ := put_and_handle updated_as o;
  Deleted := deleted;
  UpdateProcessItemStatus := policy_UpdateProcessItemStatus;
  GetProcessItemStatus := policy_GetProcessItemStatus;
  GetCached := cached;
  GetLatest := policy_GetLatest;
  DoesGenerationMatch _ _ := (false, None);
  IsOnlyReplicaCountChanged _ _ := (false, None)
|}.

End PolicyControllers.

Section Kinds.
Context {H : Type} (p : AdmiralParams).

(** [GlobalTrafficController.Get] with [isRetry]: the first policy of the key and
    namespace, not the version of the object itself. *)
Definition GlobalTrafficController_GetCached {range : GoRange} {sorting : GoSort}
    (api : string -> string -> GlobalTrafficPolicy + string)
    (o : delivered GlobalTrafficPolicy) (s : pc_state GlobalTrafficPolicy H)
    : fetched (delivered GlobalTrafficPolicy) + string :=
  match o with
  | Stale _ => inr "kubernetes client is not initialized"
  | Present gtp =>
      match SortGtpsByPriorityAndCreationTime p
              (policyCache_Get (pc_cache s) (GetGtpKey p gtp) (Namespace (GtpMeta gtp))) with
      | [] => inr ("no gtps found for identity=" +:+ GetGtpIdentity p gtp +:+ ", namespace=" +:+
                   Namespace (GtpMeta gtp))
      | g :: _ => inl (FetchedObj (Some (Present g)))
      end
  end.

Definition gtp_delegator {range : GoRange} {sorting : GoSort} handler api :=
  policy_delegator (A := GlobalTrafficPolicy) (H := H) p handler api Update
    (policy_Deleted p handler) (GlobalTrafficController_GetCached api).

(** An updated outlier detection is handed on as an added one. *)
Definition od_delegator handler api :=
  policy_delegator (A := OutlierDetectionCrd) (H := H) p handler api Add
    (OutlierDetectionController_Deleted p handler) (policy_GetCached api).

Definition ccc_delegator handler api :=
  policy_delegator (A := ClientConnectionConfig) (H := H) p handler api Update
    (policy_Deleted p handler) (policy_GetCached api).
End Kinds.

(** ** The delegators keep their promise *)
Section Laws.
Context {A H : Type} {kind : PolicyKind A} {ops : PolicyCacheOps A} (p : AdmiralParams).
Context (handler : EventType -> A -> H -> H * error) (api : string -> string -> A + string).
Context (updated_as : EventType) (deleted : delivered A -> pc_state A H -> pc_state A H * error)
  (cached : delivered A -> pc_state A H -> fetched (delivered A) + string).

Definition policy_item_of (obj : A) (c : policyCache A) : option (policy_item A) :=
  cached_item c (pk_key p obj) (Namespace (pk_meta obj)) (Name (pk_meta obj)).

Lemma update_status_item (obj : A) st c it :
  policy_item_of obj c = Some it ->
  (policyCache_UpdateStatus p c obj st).2 = None /\
  policy_item_of obj (policyCache_UpdateStatus p c obj st).1 = Some (mkItem (it_policy it) st).
Proof.
  unfold policy_item_of, policyCache_UpdateStatus, cached_item. intros Hi.
  destruct (c !! pk_key p obj) as [nss|]; [|done]. simpl in Hi.
  destruct (nss !! Namespace (pk_meta obj)) as [items|]; [|done]. simpl in Hi.
  rewrite Hi. simpl. split; [done|]. rewrite lookup_insert_eq. simpl.
  rewrite lookup_insert_eq. simpl. by rewrite lookup_insert_eq.
Qed.

(** A policy is tracked when it is cached. *)
Definition policy_tracked (o : delivered A) (s : pc_state A H) : Prop :=
  exists obj it, o = Present obj /\ policy_item_of obj (pc_cache s) = Some it.

#[export] Instance policy_laws : DelegatorLaws (policy_delegator p handler api updated_as deleted cached).
Proof.
  refine {| tracked := policy_tracked; status_recorded := _; tracked_kept := _ |}.
  - intros o st s (obj & it & -> & Hi). simpl.
    destruct (update_status_item obj st _ it Hi) as [_ Hs].
    destruct (policyCache_UpdateStatus p (pc_cache s) obj st) as [c err]. simpl in *.
    unfold policyCache_GetStatus. unfold policy_item_of in Hs. by rewrite Hs.
  - intros o st s (obj & it & -> & Hi). simpl.
    destruct (update_status_item obj st _ it Hi) as [_ Hs].
    destruct (policyCache_UpdateStatus p (pc_cache s) obj st) as [c err]. simpl in *.
    by eexists _, _.
Defined.
End Laws.

(** ** Properties *)
Section Properties.
Context {A H : Type} {kind : PolicyKind A} {ops : PolicyCacheOps A} {laws : PolicyCacheLaws A}.
Context (p : AdmiralParams) (handler : EventType -> A -> H -> H * error)
  (api : string -> string -> A + string).
Context (updated_as : EventType) (deleted : delivered A -> pc_state A H -> pc_state A H * error)
  (cached : delivered A -> pc_state A H -> fetched (delivered A) + string).

Lemma holds_item c m (obj : A) :
  holds c m -> ShouldIgnoreResource (pk_meta obj) = false ->
  exists it, policy_item_of p obj (cache_Put p obj c) = Some it /\ it_policy it = obj.
Proof using laws.
  intros Hh Hi. pose proof (put_holds p obj c m Hh) as Hp. rewrite Hi in Hp.
  specialize (Hp (pk_key p obj) (Namespace (pk_meta obj)) (Name (pk_meta obj))).
  change (_, (_, _)) with (slot p obj) in Hp. rewrite lookup_insert_eq in Hp.
  unfold policy_item_of. destruct (cached_item _ _ _ _) as [it|]; [|done].
  exists it. split; [done|]. by injection Hp.
Qed.

(** An added or updated policy.  The event controller's worker puts the policy in
    the cache of its kind, calls the handler once, returns the handler's error and
    records the status that goes with it, whatever else the cluster's cache holds. *)
Theorem policy_event_processed (readOnly : bool) (ev : EventType) (obj : A) (old : option (delivered A))
    (s : pc_state A H) (m : livePolicies A) :
  ev <> Delete -> holds (pc_cache s) m -> ShouldIgnoreResource (pk_meta obj) = false ->
  let dl := policy_delegator p handler api updated_as deleted cached in
  let r := processItem (dl := dl) readOnly (mkInformerCacheObj ev (Present obj) old) s in
  let h := handler (match ev with Update => updated_as | _ => Add end) obj (pc_handler s) in
  r.2 = h.2 /\ pc_handler r.1 = h.1 /\
  policy_item_of p obj (pc_cache r.1) = Some (mkItem obj (item_status readOnly h.2)) /\
  holds (pc_cache r.1) (<[slot p obj := obj]> m).
Proof using laws.
  intros Hev Hh Hi dl r h.
  destruct (holds_item _ _ obj Hh Hi) as (it & Hit & Hobj).
  assert (r = let '(h', err) := h in
    ((policy_UpdateProcessItemStatus p (Present obj) (item_status readOnly err)
       (mkPc (cache_Put p obj (pc_cache s)) h')).1, err)) as ->.
  { unfold r, h, processItem. destruct ev; [| |done]; simpl; by destruct (handler _ _ _). }
  destruct h as [h' err]. simpl.
  destruct (update_status_item p obj (item_status readOnly err) _ it Hit) as [_ Hs].
  pose proof (holds_status p _ (<[slot p obj := obj]> m) obj (item_status readOnly err)
    ltac:(pose proof (put_holds p obj _ m Hh) as Hp; rewrite Hi in Hp; exact Hp)) as Hm.
  destruct (policyCache_UpdateStatus _ _ _ _) as [c e]. simpl in *.
  split_and!; [done|done|by rewrite Hs, Hobj|done].
Qed.
End Properties.

(** A traffic policy that is retried is compared with the first policy of its key and
    namespace, which may be another one: here the retry of [mine], whose cached version
    is the one to be retried, is dropped because the preferred policy of the namespace
    has a higher version. *)
Definition versioned_gtp (name version : string) (created : Z) : GlobalTrafficPolicy :=
  mkGTP (sample_meta name created <| ResourceVersion := version |>) [] None.

Lemma gtp_retry_checks_other :
  let dl := gtp_delegator (H := unit) policy_params (fun _ _ h => (h, None)) (fun _ _ => inr "") in
  let s := mkPc (policy_run policy_params
    [PPut (versioned_gtp "mine" "2" 1); PPut (versioned_gtp "other" "3" 2)]) tt in
  shouldRetry (dl := dl) (Present (versioned_gtp "mine" "2" 1)) s = false.
Proof. vm_compute. done. Qed.

(** ** The properties at concrete inputs *)

Lemma policy_event_processed_witness :
  let dl := gtp_delegator (H := nat) policy_params (fun _ _ h => (S h, None)) (fun _ _ => inr "") in
  let r := processItem (dl := dl) false (mkInformerCacheObj Add (Present (sample_gtp "a" 1)) None) (mkPc ∅ 0) in
  r.2 = None /\ pc_handler r.1 = 1 /\
  policy_item_of policy_params (sample_gtp "a" 1) (pc_cache r.1) = Some (mkItem (sample_gtp "a" 1) Processed) /\
  holds (pc_cache r.1) (<[slot policy_params (sample_gtp "a" 1) := sample_gtp "a" 1]> ∅).
Proof.
  apply (policy_event_processed policy_params (fun _ _ h => (S h, None)) (fun _ _ => inr "") Update
    (policy_Deleted policy_params (fun _ _ h => (S h, None)))
    (GlobalTrafficController_GetCached policy_params (fun _ _ => inr "")) false Add (sample_gtp "a" 1) None
    (mkPc ∅ 0) ∅); [discriminate|intros key ns name; reflexivity|vm_compute; reflexivity].
Defined.
