(* ===== verification/DeploymentController.v ===== *)
(** * The deployment controller

    Models [controller/admiral/deployment.go]: the cache of the deployments of a
    cluster by identity and environment, with their processing status, and the
    delegator of deployment events.  The handler the events go on to and the
    Kubernetes API are parameters. *)
From S2P Require Import Prelude GoStrings Config Objects Metadata ServiceCache Controller.
From stdpp Require Import options.

(** ** The cache *)

Record DeploymentItem := mkDeploymentItem { Deployment : option DeploymentObj; DStatus : string }.

Record DeploymentClusterEntry := mkDeploymentClusterEntry {
  Identity : string;
  Deployments : gmap string DeploymentItem
}.

Abbreviation deploymentCache := (gmap string DeploymentClusterEntry).

Section Cache.
Context (p : AdmiralParams).

Definition getKey (d : DeploymentObj) : string := GetDeploymentGlobalIdentifier p d.

(** The item of an identity and an environment. *)
Definition item (c : deploymentCache) (key env : string) : option DeploymentItem :=
  match c !! key with Some dce => Deployments dce !! env | None => None end.

Definition DeploymentCache_Get (c : deploymentCache) (key env : string) : option DeploymentObj :=
  match item c key env with Some dceEnv => Deployment dceEnv | None => None end.

Definition DeploymentCache_List `{!GoRange} (c : deploymentCache) : list DeploymentObj :=
  flat_map (fun kv => omap (fun ei => Deployment ei.2) (go_range 1 (Deployments kv.2))) (go_range 0 c).

Definition GetDeploymentProcessStatus (c : deploymentCache) (d : DeploymentObj) : string :=
  match item c (getKey d) (GetEnv p d) with Some dceEnv => DStatus dceEnv | None => NotProcessed end.

(** An environment without an item gets one without a deployment. *)
Definition UpdateDeploymentProcessStatus (c : deploymentCache) (d : DeploymentObj) (status : string)
    : deploymentCache * error :=
  match c !! getKey d with
  | Some dce =>
      let it := match Deployments dce !! GetEnv p d with
                | Some dceEnv => mkDeploymentItem (Deployment dceEnv) status
                | None => mkDeploymentItem None status
                end in
      (<[Identity dce := mkDeploymentClusterEntry (Identity dce)
           (<[GetEnv p d := it]> (Deployments dce))]> c, None)
  | None => (c, Some ("op=Update type=Deployment name=" +:+ Name (DepMeta d) +:+ " namespace=" +:+
      Namespace (DepMeta d) +:+ " cluster= message=nothing to update, deployment not found in cache"))
  end.

Definition GetByIdentity (c : deploymentCache) (key : string) : option (gmap string DeploymentItem) :=
  match c !! key with Some dce => Some (Deployments dce) | None => None end.

Definition UpdateDeploymentToClusterCache (c : deploymentCache) (key : string) (d : DeploymentObj)
    : deploymentCache :=
  let dce := default (mkDeploymentClusterEntry key ∅) (c !! key) in
  <[Identity dce := mkDeploymentClusterEntry (Identity dce)
      (<[GetEnv p d := mkDeploymentItem (Some d) ProcessingInProgress]> (Deployments dce))]> c.

(** Only the deployment of the same name is removed. *)
Definition DeleteFromDeploymentClusterCache (c : deploymentCache) (key : string) (d : DeploymentObj)
    : deploymentCache :=
  match c !! key with
  | Some dce =>
      match Deployments dce !! GetEnv p d with
      | Some (mkDeploymentItem (Some d') _) =>
          if Name (DepMeta d) =?s Name (DepMeta d')
          then <[key := mkDeploymentClusterEntry (Identity dce) (delete (GetEnv p d) (Deployments dce))]> c
          else c
      | _ => c
      end
  | None => c
  end.
End Cache.

(** ** The delegator *)

Section Delegate.
Context {H : Type} (p : AdmiralParams).
(** [DeploymentHandler]. *)
Context (handler_added handler_deleted : DeploymentObj -> H -> H * error).
(** The Kubernetes API: the annotations of a namespace, [None] for an error, and the
    deployment of a namespace and name. *)
Context (ns_annotations : string -> option gomap)
  (api_deployment : string -> string -> option DeploymentObj).

Record dc_state := mkDc { dc_cache : deploymentCache; dc_handler : H }.

(** What the informer delivers: a deployment, or the tombstone of one. *)
Inductive dep_event_obj := DepObj (d : DeploymentObj) | DepTombstone (d : DeploymentObj).

Definition shouldIgnoreBasedOnLabels (d : DeploymentObj) : bool :=
  let labelSet := label_set p in
  if mget (TLabels (DepTemplate d)) (labelSet.(Params.AdmiralIgnoreLabel)) =?s "true" then true
  else if negb (mget (TAnnotations (DepTemplate d)) (labelSet.(Params.DeploymentAnnotation)) =?s "true")
  then true
  else if mget (Annotations (DepMeta d)) AdmiralIgnoreAnnotation =?s "true" then true
  else match ns_annotations (Namespace (DepMeta d)) with
       | None => false
       | Some ns => mget ns AdmiralIgnoreAnnotation =?s "true"
       end.

Definition type_assertion_failed : error :=
  Some "type assertion failed, object is not of type *v1.Deployment".

Definition HandleAddUpdateDeployment (o : dep_event_obj) (s : dc_state) : dc_state * error :=
  match o with
  | DepTombstone _ => (s, type_assertion_failed)
  | DepObj d =>
      let key := getKey p d in
      if is_empty key then (s, None)
      else if negb (shouldIgnoreBasedOnLabels d) then
        let s := mkDc (UpdateDeploymentToClusterCache p (dc_cache s) key d) (dc_handler s) in
        let '(h, err) := handler_added d (dc_handler s) in
        (mkDc (dc_cache s) h, err)
      else (mkDc (DeleteFromDeploymentClusterCache p (dc_cache s) key d) (dc_handler s), None)
  end.

Definition DeploymentController_Deleted (o : dep_event_obj) (s : dc_state) : dc_state * error :=
  match o with
  | DepTombstone _ => (s, type_assertion_failed)
  | DepObj d =>
      if shouldIgnoreBasedOnLabels d then (s, None)
      else
        let key := getKey p d in
        let '(h, err) := handler_deleted d (dc_handler s) in
        if is_nil err && negb (is_empty key) then
          (mkDc (DeleteFromDeploymentClusterCache p
                   (DeleteFromDeploymentClusterCache p (dc_cache s) key d)
                   (GetDeploymentOriginalIdentifier p d) d) h, err)
        else (mkDc (dc_cache s) h, err)
  end.

Definition DeploymentController_UpdateProcessItemStatus (o : dep_event_obj) (status : string)
    (s : dc_state) : dc_state * error :=
  match o with
  | DepTombstone _ => (s, type_assertion_failed)
  | DepObj d =>
      let '(c, err) := UpdateDeploymentProcessStatus p (dc_cache s) d status in
      (mkDc c (dc_handler s), err)
  end.

Definition DeploymentController_GetProcessItemStatus (o : dep_event_obj) (s : dc_state)
    : string * error :=
  match o with
  | DepTombstone _ => (NotProcessed, type_assertion_failed)
  | DepObj d => (GetDeploymentProcessStatus p (dc_cache s) d, None)
  end.

#[export] Instance PodTemplate_eq_dec : EqDecision PodTemplate.
Proof. solve_decision. Defined.
#[export] Instance LabelSelector_eq_dec : EqDecision LabelSelector.
Proof. solve_decision. Defined.

Definition DeploymentController_DoesGenerationMatch (obj old : dep_event_obj) : bool * error :=
  if negb (DoGenerationCheck p) then (false, None)
  else match obj, old with
       | DepObj n, DepObj o => (bool_decide (DepGeneration n = DepGeneration o), None)
       | _, _ => (false, type_assertion_failed)
       end.

(** The specs are compared without their replica counts. *)
Definition DeploymentController_IsOnlyReplicaCountChanged (obj old : dep_event_obj) : bool * error :=
  if negb (Config.IsOnlyReplicaCountChanged p) then (false, None)
  else match obj, old with
       | DepObj n, DepObj o =>
           (bool_decide (DepTemplate o = DepTemplate n) && bool_decide (DepSelector o = DepSelector n)
            && (DepOtherSpec o =?s DepOtherSpec n), None)
       | _, _ => (false, type_assertion_failed)
       end.

Definition DeploymentController_GetCached (o : dep_event_obj) (s : dc_state)
    : fetched dep_event_obj + string :=
  match o with
  | DepTombstone _ => inr "kubernetes client is not initialized"
  | DepObj d =>
      inl (FetchedObj (option_map DepObj
        (DeploymentCache_Get (dc_cache s) (GetDeploymentGlobalIdentifier p d) (GetEnv p d))))
  end.

Definition DeploymentController_GetLatest (o : dep_event_obj) (s : dc_state)
    : dc_state * (dep_event_obj + string) :=
  match o with
  | DepTombstone _ => (s, inr "kubernetes client is not initialized")
  | DepObj d =>
      (s, match api_deployment (Namespace (DepMeta d)) (Name (DepMeta d)) with
          | Some d' => inl (DepObj d')
          | None => inr "not found"
          end)
  end.

#[export] Instance deployment_delegator : Delegator dc_state dep_event_obj := {|
  obj_meta o := match o with DepObj d => Some (DepMeta d) | DepTombstone _ => None end;
  is_tombstone o := match o with DepObj _ => false | DepTombstone _ => true end;
  Added := HandleAddUpdateDeployment;
  Updated o _ := HandleAddUpdateDeployment o;
  Deleted := DeploymentController_Deleted;
  UpdateProcessItemStatus := DeploymentController_UpdateProcessItemStatus;
  GetProcessItemStatus := DeploymentController_GetProcessItemStatus;
  GetCached := DeploymentController_GetCached;
  GetLatest := DeploymentController_GetLatest;
  DoesGenerationMatch := DeploymentController_DoesGenerationMatch;
  IsOnlyReplicaCountChanged := DeploymentController_IsOnlyReplicaCountChanged
|}.
End Delegate.

(** ** The cache as a map from identity and environment to items *)
Section CacheLemmas.
Context (p : AdmiralParams).

(** Every entry is stored under its identity. *)
Definition ids_ok (c : deploymentCache) : Prop := forall k dce, c !! k = Some dce -> Identity dce = k.

Lemma ids_ok_insert c k m :
  ids_ok c -> ids_ok (<[k := mkDeploymentClusterEntry k m]> c).
Proof. intros Hi k' dce. rewrite lookup_insert_Some. intros [[<- <-]|[_ Hl]]; [done|by apply Hi]. Qed.

Lemma item_insert c k m key env :
  item (<[k := mkDeploymentClusterEntry k m]> c) key env =
    if decide (key = k) then m !! env else item c key env.
Proof.
  unfold item. destruct (decide (key = k)) as [->|Hne].
  - by rewrite lookup_insert_eq.
  - by rewrite lookup_insert_ne.
Qed.

Lemma update_cache_spec c key d :
  ids_ok c -> ids_ok (UpdateDeploymentToClusterCache p c key d) /\
  forall k e, item (UpdateDeploymentToClusterCache p c key d) k e =
    if decide (k = key /\ e = GetEnv p d) then Some (mkDeploymentItem (Some d) ProcessingInProgress)
    else item c k e.
Proof.
  intros Hi. unfold UpdateDeploymentToClusterCache.
  assert (Identity (default (mkDeploymentClusterEntry key ∅) (c !! key)) = key) as ->.
  { destruct (c !! key) as [dce|] eqn:E; [by apply Hi in E|done]. }
  split; [by apply ids_ok_insert|]. intros k e. rewrite item_insert.
  destruct (decide (k = key)) as [->|Hk]; [|rewrite decide_False; [done|naive_solver]].
  destruct (decide (e = GetEnv p d)) as [->|He].
  - rewrite decide_True by done. by rewrite lookup_insert_eq.
  - rewrite decide_False by naive_solver. rewrite lookup_insert_ne by done.
    unfold item. by destruct (c !! key).
Qed.

(** The deployment of the item has the name. *)
Definition has_name (name : string) (it : option DeploymentItem) : bool :=
  match it with
  | Some (mkDeploymentItem (Some d) _) => name =?s Name (DepMeta d)
  | _ => false
  end.

Lemma delete_cache_spec c key d :
  ids_ok c -> ids_ok (DeleteFromDeploymentClusterCache p c key d) /\
  forall k e, item (DeleteFromDeploymentClusterCache p c key d) k e =
    if decide (k = key /\ e = GetEnv p d /\ has_name (Name (DepMeta d)) (item c k e) = true)
    then None else item c k e.
Proof.
  intros Hi. unfold DeleteFromDeploymentClusterCache.
  assert (has_name (Name (DepMeta d)) (item c key (GetEnv p d)) = false ->
    forall k e, item c k e = if decide (k = key /\ e = GetEnv p d /\
      has_name (Name (DepMeta d)) (item c k e) = true) then None else item c k e) as Hsame.
  { intros Hn k e. destruct (decide _) as [(-> & -> & Hh)|]; [congruence|done]. }
  destruct (c !! key) as [dce|] eqn:E.
  2: { split; [done|]. apply Hsame. unfold item. by rewrite E. }
  destruct (Deployments dce !! GetEnv p d) as [[[d'|] st]|] eqn:Ed.
  2,3: split; [done|]; apply Hsame; unfold item; by rewrite E, Ed.
  destruct (Name (DepMeta d) =?s Name (DepMeta d')) eqn:En.
  2: { split; [done|]. apply Hsame. unfold item. by rewrite E, Ed. }
  pose proof (Hi _ _ E) as Hid. rewrite Hid. split; [by apply ids_ok_insert|].
  intros k e. rewrite item_insert. destruct (decide (k = key)) as [->|Hk].
  2: { rewrite decide_False; [done|naive_solver]. }
  destruct (decide (e = GetEnv p d)) as [->|He].
  - rewrite lookup_delete_eq, decide_True; [done|]. unfold item. rewrite E, Ed. done.
  - rewrite lookup_delete_ne by done. rewrite decide_False by naive_solver. unfold item. by rewrite E.
Qed.

Lemma update_status_spec c d status :
  ids_ok c -> is_Some (c !! getKey p d) ->
  let r := UpdateDeploymentProcessStatus p c d status in
  r.2 = None /\ ids_ok r.1 /\ is_Some (r.1 !! getKey p d) /\
  GetDeploymentProcessStatus p r.1 d = status /\
  forall k e, DeploymentCache_Get r.1 k e = DeploymentCache_Get c k e.
Proof.
  intros Hi [dce Hc] r. unfold r, UpdateDeploymentProcessStatus. rewrite Hc, (Hi _ _ Hc).
  cbn [fst snd]. split_and!; [done|by apply ids_ok_insert|by rewrite lookup_insert_eq; eexists| |].
  - unfold GetDeploymentProcessStatus. rewrite item_insert, decide_True by done.
    rewrite lookup_insert_eq. by destruct (Deployments dce !! GetEnv p d).
  - intros k e. unfold DeploymentCache_Get. rewrite item_insert.
    destruct (decide (k = getKey p d)) as [->|]; [|done].
    destruct (decide (e = GetEnv p d)) as [->|He].
    + rewrite lookup_insert_eq. unfold item. rewrite Hc. by destruct (Deployments dce !! GetEnv p d).
    + rewrite lookup_insert_ne by done. unfold item. by rewrite Hc.
Qed.
End CacheLemmas.

(** ** The delegator keeps its promise *)
Section Laws.
Context {H : Type} (p : AdmiralParams).
Context (handler_added handler_deleted : DeploymentObj -> H -> H * error).
Context (ns_annotations : string -> option gomap)
  (api_deployment : string -> string -> option DeploymentObj).

Lemma deployment_status_recorded (o : dep_event_obj) st (s : @dc_state H) d :
  o = DepObj d -> ids_ok (dc_cache s) -> is_Some (dc_cache s !! getKey p d) ->
  DeploymentController_GetProcessItemStatus p o (DeploymentController_UpdateProcessItemStatus p o st s).1
    = (st, None) /\
  ids_ok (dc_cache (DeploymentController_UpdateProcessItemStatus p o st s).1) /\
  is_Some (dc_cache (DeploymentController_UpdateProcessItemStatus p o st s).1 !! getKey p d).
Proof.
  intros -> Hi Hc. simpl.
  destruct (update_status_spec p (dc_cache s) d st Hi Hc) as (He & Hi' & Hs & Hst & _).
  destruct (UpdateDeploymentProcessStatus p (dc_cache s) d st) as [c err]. simpl in *.
  by rewrite Hst.
Qed.

(** An object is tracked when the cache knows its identity. *)
Definition deployment_tracked (o : dep_event_obj) (s : @dc_state H) : Prop :=
  exists d, o = DepObj d /\ ids_ok (dc_cache s) /\ is_Some (dc_cache s !! getKey p d).

#[export] Instance deployment_laws :
  DelegatorLaws (deployment_delegator p handler_added handler_deleted ns_annotations api_deployment).
Proof.
  refine {| tracked := deployment_tracked; status_recorded := _; tracked_kept := _ |}.
  - intros o st s (d & Ho & Hi & Hc). by apply (deployment_status_recorded o st s d).
  - intros o st s (d & Ho & Hi & Hc). exists d.
    by destruct (deployment_status_recorded o st s d Ho Hi Hc) as (_ & ? & ?).
Defined.
End Laws.

(** ** Events *)
Section Events.
Context {H : Type} (p : AdmiralParams) (readOnly : bool).
Context (handler_added handler_deleted : DeploymentObj -> H -> H * error).
Context (ns_annotations : string -> option gomap)
  (api_deployment : string -> string -> option DeploymentObj).

Local Instance delegator : Delegator (@dc_state H) dep_event_obj :=
  deployment_delegator p handler_added handler_deleted ns_annotations api_deployment.

Definition deployment_event (ev : EventType) (d : DeploymentObj) (s : @dc_state H) : @dc_state H * error :=
  processItem readOnly (mkInformerCacheObj ev (DepObj d) None) s.

Lemma status_keeps_get c d st k e :
  ids_ok c -> DeploymentCache_Get (UpdateDeploymentProcessStatus p c d st).1 k e = DeploymentCache_Get c k e.
Proof.
  intros Hi. destruct (c !! getKey p d) as [dce|] eqn:E.
  - by apply (update_status_spec p c d st Hi).
  - unfold UpdateDeploymentProcessStatus. by rewrite E.
Qed.

Lemma event_added d s :
  getKey p d <> "" -> shouldIgnoreBasedOnLabels p ns_annotations d = false ->
  deployment_event Add d s =
    let '(h, err) := handler_added d (dc_handler s) in
    let '(c, _) := UpdateDeploymentProcessStatus p (UpdateDeploymentToClusterCache p (dc_cache s)
                     (getKey p d) d) d (item_status readOnly err) in
    (mkDc c h, err).
Proof.
  intros Hk Hi. unfold deployment_event, processItem. cbn.
  apply is_empty_false in Hk. rewrite Hk, Hi. simpl.
  destruct (handler_added d (dc_handler s)) as [h err]. simpl.
  by destruct (UpdateDeploymentProcessStatus _ _ _ _).
Qed.

Lemma event_ignored d s :
  getKey p d <> "" -> shouldIgnoreBasedOnLabels p ns_annotations d = true ->
  deployment_event Add d s =
    let '(c, _) := UpdateDeploymentProcessStatus p (DeleteFromDeploymentClusterCache p (dc_cache s)
                     (getKey p d) d) d (item_status readOnly None) in
    (mkDc c (dc_handler s), None).
Proof.
  intros Hk Hi. unfold deployment_event, processItem. cbn.
  apply is_empty_false in Hk. rewrite Hk, Hi. simpl.
  by destruct (UpdateDeploymentProcessStatus _ _ _ _).
Qed.

Lemma event_deleted d s :
  getKey p d <> "" -> shouldIgnoreBasedOnLabels p ns_annotations d = false ->
  deployment_event Delete d s =
    let '(h, err) := handler_deleted d (dc_handler s) in
    let c := match err with
             | None => DeleteFromDeploymentClusterCache p (DeleteFromDeploymentClusterCache p (dc_cache s)
                         (getKey p d) d) (GetDeploymentOriginalIdentifier p d) d
             | Some _ => dc_cache s
             end in
    let '(c', _) := UpdateDeploymentProcessStatus p c d (item_status readOnly err) in
    (mkDc c' h, err).
Proof.
  intros Hk Hi. unfold deployment_event, processItem. cbn. unfold DeploymentController_Deleted.
  apply is_empty_false in Hk. rewrite Hk, Hi. simpl.
  destruct (handler_deleted d (dc_handler s)) as [h [e|]]; simpl;
    by destruct (UpdateDeploymentProcessStatus _ _ _ _).
Qed.

(** No deployment of the name is cached at the identity and environment. *)
Definition not_cached (c : deploymentCache) (key env name : string) : Prop :=
  forall d, DeploymentCache_Get c key env = Some d -> Name (DepMeta d) <> name.

Lemma delete_not_cached c key d :
  ids_ok c -> not_cached (DeleteFromDeploymentClusterCache p c key d) key (GetEnv p d) (Name (DepMeta d)).
Proof.
  intros Hi d'. destruct (delete_cache_spec p c key d Hi) as [_ Hd].
  unfold DeploymentCache_Get. rewrite Hd. destruct (decide _) as [|Hn]; [done|].
  intros Hg Hname. apply Hn. split_and!; [done..|].
  destruct (item c key (GetEnv p d)) as [[[d''|] st]|]; simplify_eq/=. by rewrite Hname, seqb_refl.
Qed.

Lemma delete_keeps_not_cached c key d k e name :
  ids_ok c -> not_cached c k e name -> not_cached (DeleteFromDeploymentClusterCache p c key d) k e name.
Proof.
  intros Hi Hn d'. destruct (delete_cache_spec p c key d Hi) as [_ Hd].
  unfold DeploymentCache_Get. rewrite Hd. destruct (decide _); [done|]. apply Hn.
Qed.

Lemma added_spec d s :
  ids_ok (dc_cache s) -> getKey p d <> "" -> shouldIgnoreBasedOnLabels p ns_annotations d = false ->
  let r := deployment_event Add d s in
  r.2 = (handler_added d (dc_handler s)).2 /\
  DeploymentCache_Get (dc_cache r.1) (getKey p d) (GetEnv p d) = Some d /\
  GetDeploymentProcessStatus p (dc_cache r.1) d = item_status readOnly r.2 /\
  forall k e, (k, e) <> (getKey p d, GetEnv p d) ->
    DeploymentCache_Get (dc_cache r.1) k e = DeploymentCache_Get (dc_cache s) k e.
Proof.
  intros Hi Hk Hig r. destruct (update_cache_spec p (dc_cache s) (getKey p d) d Hi) as [Hi' Hu].
  unfold r. rewrite event_added by done. destruct (handler_added d (dc_handler s)) as [h err].
  assert (is_Some (UpdateDeploymentToClusterCache p (dc_cache s) (getKey p d) d !! getKey p d)) as Hs.
  { specialize (Hu (getKey p d) (GetEnv p d)). rewrite decide_True in Hu by done. unfold item in Hu.
    by destruct (UpdateDeploymentToClusterCache p (dc_cache s) (getKey p d) d !! getKey p d). }
  destruct (update_status_spec p _ d (item_status readOnly err) Hi' Hs) as (_ & _ & _ & Hst & Hkeep).
  destruct (UpdateDeploymentProcessStatus _ _ _ _) as [c e0]. cbn [fst snd dc_cache] in *.
  split_and!; [done| |done|].
  - rewrite Hkeep. unfold DeploymentCache_Get. by rewrite Hu, decide_True.
  - intros k e Hne. rewrite Hkeep. unfold DeploymentCache_Get.
    rewrite Hu, decide_False; [done|]. intros [-> ->]. by apply Hne.
Qed.

Lemma added_tracked d s :
  ids_ok (dc_cache s) -> getKey p d <> "" -> shouldIgnoreBasedOnLabels p ns_annotations d = false ->
  deployment_tracked p (DepObj d) (deployment_event Add d s).1.
Proof.
  intros Hi Hk Hig. destruct (update_cache_spec p (dc_cache s) (getKey p d) d Hi) as [Hi' Hu].
  rewrite event_added by done. destruct (handler_added d (dc_handler s)) as [h err].
  assert (is_Some (UpdateDeploymentToClusterCache p (dc_cache s) (getKey p d) d !! getKey p d)) as Hs.
  { specialize (Hu (getKey p d) (GetEnv p d)). rewrite decide_True in Hu by done. unfold item in Hu.
    by destruct (UpdateDeploymentToClusterCache p (dc_cache s) (getKey p d) d !! getKey p d). }
  destruct (update_status_spec p _ d (item_status readOnly err) Hi' Hs) as (_ & Hi2 & Hs2 & _).
  exists d. by destruct (UpdateDeploymentProcessStatus _ _ _ _) as [c e0].
Qed.

Lemma deleted_spec d s :
  ids_ok (dc_cache s) -> getKey p d <> "" -> shouldIgnoreBasedOnLabels p ns_annotations d = false ->
  let r := deployment_event Delete d s in
  if is_nil r.2 then
    not_cached (dc_cache r.1) (getKey p d) (GetEnv p d) (Name (DepMeta d)) /\
    not_cached (dc_cache r.1) (GetDeploymentOriginalIdentifier p d) (GetEnv p d) (Name (DepMeta d))
  else forall k e, DeploymentCache_Get (dc_cache r.1) k e = DeploymentCache_Get (dc_cache s) k e.
Proof.
  intros Hi Hk Hig r. unfold r. rewrite event_deleted by done.
  destruct (handler_deleted d (dc_handler s)) as [h [e|]]; cbv zeta.
  - pose proof (fun k e' => status_keeps_get _ d (item_status readOnly (Some e)) k e' Hi) as Hkeep.
    destruct (UpdateDeploymentProcessStatus _ _ _ _) as [c e0]. exact Hkeep.
  - set (c1 := DeleteFromDeploymentClusterCache p (dc_cache s) (getKey p d) d).
    destruct (delete_cache_spec p (dc_cache s) (getKey p d) d Hi) as [Hi1 _]. fold c1 in Hi1.
    destruct (delete_cache_spec p c1 (GetDeploymentOriginalIdentifier p d) d Hi1) as [Hi2 _].
    pose proof (fun k e' => status_keeps_get _ d (item_status readOnly None) k e' Hi2) as Hkeep.
    destruct (UpdateDeploymentProcessStatus _ _ _ _) as [c e0]. cbn [fst snd dc_cache is_nil] in *.
    split; intros d' Hd'; rewrite Hkeep in Hd'.
    + by apply (delete_keeps_not_cached c1 (GetDeploymentOriginalIdentifier p d) d (getKey p d)
        (GetEnv p d) (Name (DepMeta d)) Hi1 (delete_not_cached _ _ d Hi)).
    + by apply (delete_not_cached c1 (GetDeploymentOriginalIdentifier p d) d Hi1).
Qed.

Lemma ignored_spec d s :
  ids_ok (dc_cache s) -> getKey p d <> "" -> shouldIgnoreBasedOnLabels p ns_annotations d = true ->
  let r := deployment_event Add d s in
  r.2 = None /\ dc_handler r.1 = dc_handler s /\
  not_cached (dc_cache r.1) (getKey p d) (GetEnv p d) (Name (DepMeta d)).
Proof.
  intros Hi Hk Hig r. unfold r. rewrite event_ignored by done.
  destruct (delete_cache_spec p (dc_cache s) (getKey p d) d Hi) as [Hi' _].
  pose proof (status_keeps_get _ d (item_status readOnly None) (getKey p d) (GetEnv p d) Hi') as Hkeep.
  pose proof (delete_not_cached (dc_cache s) (getKey p d) d Hi) as Hn.
  destruct (UpdateDeploymentProcessStatus _ _ _ _) as [c e0]. cbn [fst snd dc_cache dc_handler] in *.
  split_and!; [done|done|]. intros d'. rewrite Hkeep. apply Hn.
Qed.

(** The cache follows the deployments of the cluster.  Handling an added
    deployment that is not ignored hands it to the handler, caches it under its
    identity and environment, leaves what is cached elsewhere alone and records the
    status of the outcome; an ignored one is taken out of the cache without a call
    to the handler; a deleted one is taken out of its identities when the handler
    succeeds, and what is cached is kept when it fails. *)
Theorem deployment_events_spec (d : DeploymentObj) (s : @dc_state H) :
  ids_ok (dc_cache s) -> getKey p d <> "" ->
  let key := getKey p d in let env := GetEnv p d in let name := Name (DepMeta d) in
  let added := deployment_event Add d s in let deleted := deployment_event Delete d s in
  if shouldIgnoreBasedOnLabels p ns_annotations d then
    added.2 = None /\ dc_handler added.1 = dc_handler s /\ not_cached (dc_cache added.1) key env name
  else
    (added.2 = (handler_added d (dc_handler s)).2 /\
     DeploymentCache_Get (dc_cache added.1) key env = Some d /\
     GetDeploymentProcessStatus p (dc_cache added.1) d = item_status readOnly added.2 /\
     forall k e, (k, e) <> (key, env) ->
       DeploymentCache_Get (dc_cache added.1) k e = DeploymentCache_Get (dc_cache s) k e) /\
    (if is_nil deleted.2 then
       not_cached (dc_cache deleted.1) key env name /\
       not_cached (dc_cache deleted.1) (GetDeploymentOriginalIdentifier p d) env name
     else forall k e, DeploymentCache_Get (dc_cache deleted.1) k e = DeploymentCache_Get (dc_cache s) k e).
Proof.
  intros Hi Hk key env name added deleted.
  destruct (shouldIgnoreBasedOnLabels p ns_annotations d) eqn:Hig.
  - by apply ignored_spec.
  - split; [by apply added_spec|by apply deleted_spec].
Qed.

(** A tombstone changes nothing and is an error: the deployment stays cached. *)
Lemma tombstone_not_deleted d s :
  DeploymentController_Deleted p handler_deleted ns_annotations (DepTombstone d) s = (s, type_assertion_failed).
Proof. done. Qed.
End Events.

(** ** Concrete inputs *)

Definition dep_params : AdmiralParams :=
  Params.zero_AdmiralParams <| Params.LabelSetPtr := Some (Params.zero_LabelSet
    <| Params.WorkloadIdentityKey := "identity" |> <| Params.EnvKey := "env" |>
    <| Params.DeploymentAnnotation := "sidecar.istio.io/inject" |>) |>.

Definition sample_deployment (version : string) : DeploymentObj :=
  mkDeployment (mkMeta "foo" "ns" None None 0 version)
    (mkTemplate (Some {[ "identity" := "foo"; "env" := "dev" ]})
       (Some {[ "sidecar.istio.io/inject" := "true" ]})) None None 1 "".

(** A handler that counts its calls and fails the first [n] of them. *)
Definition flaky (n : nat) (d : DeploymentObj) (h : nat) : nat * error :=
  (S h, if bool_decide (h < n) then Some "unavailable" else None).

Definition no_state : @dc_state nat := mkDc ∅ 0.

Definition sample_delegator (n : nat) : Delegator (@dc_state nat) dep_event_obj :=
  deployment_delegator dep_params (flaky n) (flaky n) (fun _ => Some None) (fun _ _ => None).

Lemma deployment_events_spec_witness :
  let added := deployment_event dep_params false (flaky 0) (flaky 0) (fun _ => Some None)
    (fun _ _ => None) Add (sample_deployment "1") no_state in
  added.2 = None /\ DeploymentCache_Get (dc_cache added.1) "foo" "dev" = Some (sample_deployment "1").
Proof.
  pose proof (deployment_events_spec dep_params false (flaky 0) (flaky 0) (fun _ => Some None)
    (fun _ _ => None) (sample_deployment "1") no_state) as H.
  destruct H as [(H1 & H2 & _) _].
  - intros k dce Hk. vm_compute in Hk. discriminate.
  - vm_compute. discriminate.
  - split; [exact H1|exact H2].
Defined.

(** The queue of one event whose handler always fails: three attempts. *)
Lemma queue_drains_witness :
  exists d', rtc (work_step (dl := sample_delegator 9) false)
    (no_state, [(mkInformerCacheObj Add (DepObj (sample_deployment "1")) None, 0)]) (d', []).
Proof.
  pose proof (queue_drains (dl := sample_delegator 9) false no_state
    [mkInformerCacheObj Add (DepObj (sample_deployment "1")) None] _ 0 (nsteps_O _ _)) as (_ & _ & H).
  exact H.
Defined.

(** The state after an event that failed. *)
Definition failed_state : @dc_state nat :=
  (processItem (dl := sample_delegator 9) false
     (mkInformerCacheObj Add (DepObj (sample_deployment "1")) None) no_state).1.

Definition sample_laws (n : nat) : DelegatorLaws (sample_delegator n) :=
  deployment_laws dep_params (flaky n) (flaky n) (fun _ => Some None) (fun _ _ => None).

(** The cache holds the deployment, not processed. *)
Definition unprocessed_state : @dc_state nat :=
  mkDc {[ "foo" := mkDeploymentClusterEntry "foo"
            {[ "dev" := mkDeploymentItem (Some (sample_deployment "1")) NotProcessed ]} ]} 0.

Lemma unprocessed_ids : ids_ok (dc_cache unprocessed_state).
Proof. 
  intros k dce Hk. unfold unprocessed_state, dc_cache in Hk.
  apply lookup_singleton_Some in Hk as [<- <-]. done.
Qed.

Lemma unprocessed_tracked :
  tracked (DelegatorLaws := sample_laws 9) (DepObj (sample_deployment "1")) unprocessed_state.
Proof.
  exists (sample_deployment "1"). split; [done|]. split; [apply unprocessed_ids|].
  by eexists; vm_compute.
Qed.

Lemma resync_queues_once_witness :
  let o := DepObj (sample_deployment "1") in
  let r := UpdateFuncImpl (dl := sample_delegator 9) false o o unprocessed_state in
  r.2 <> None /\ (UpdateFuncImpl (dl := sample_delegator 9) false o o r.1).2 = None.
Proof.
  intros o r.
  destruct (resync_queues_once (dl := sample_delegator 9) false (DelegatorLaws0 := sample_laws 9)
    o _ unprocessed_state eq_refl) as [Hq Hn].
  assert (r.2 <> None) as Hr by (apply Hq; vm_compute; reflexivity).
  split; [exact Hr|]. apply Hn; [exact Hr|reflexivity|exact unprocessed_tracked].
Defined.

Lemma given_up_event_returns_witness :
  let it := mkInformerCacheObj Add (DepObj (sample_deployment "1")) None in
  let r := processNextItem (dl := sample_delegator 9) false it maxRetries unprocessed_state in
  r.2 = false /\ GetProcessItemStatus (Delegator := sample_delegator 9) (eobj it) r.1 = (NotProcessed, None).
Proof.
  intros it r.
  destruct (given_up_event_returns (dl := sample_delegator 9) false (DelegatorLaws0 := sample_laws 9)
    it (DepMeta (sample_deployment "1")) unprocessed_state) as (H1 & H2 & _).
  - reflexivity.
  - vm_compute. reflexivity.
  - vm_compute. discriminate.
  - exact (added_tracked dep_params false (flaky 9) (flaky 9) (fun _ => Some None) (fun _ _ => None)
      (sample_deployment "1") unprocessed_state unprocessed_ids ltac:(vm_compute; discriminate)
      ltac:(vm_compute; reflexivity)).
  - split; [exact H1|exact H2].
Defined.

(** ** Versions are compared as strings *)

(** The cache holds version 10 when the retry of version 9 is due: the stale event is
    retried; with version 9 in the cache, the newer event 10 is dropped as stale. *)
Definition cached_version (v : string) : @dc_state nat :=
  mkDc (UpdateDeploymentToClusterCache dep_params ∅ "foo" (sample_deployment v)) 0.

Lemma version_order_is_lexicographic :
  shouldRetry (dl := sample_delegator 0) (DepObj (sample_deployment "9")) (cached_version "10") = true /\
  shouldRetry (dl := sample_delegator 0) (DepObj (sample_deployment "10")) (cached_version "9") = false.
Proof. split; by vm_compute. Qed.
