(* ===== verification/RolloutController.v ===== *)
(** * The rollout controller

    Models [controller/admiral/rollouts.go]: the cache of the Argo rollouts of a cluster
    by identity and environment, with their processing status, the cache of the virtual
    services that Argo manages for them, which the routing reads
    ([IdentityArgoVSCache] of [VirtualServices.v]), and the delegator of rollout events.
    The handler the events go on to and the Kubernetes API are parameters. *)
From S2P Require Import Prelude GoStrings Config Objects Metadata ServiceCache Controller VirtualServices.
From stdpp Require Import options.

(** ** The cache of the rollouts *)

Record RolloutItem := mkRolloutItem { Rollout : option RolloutObj; RStatus : string }.

Record RolloutClusterEntry := mkRolloutClusterEntry { RIdentity : string; Rollouts : gmap string RolloutItem }.

Abbreviation rolloutCache := (gmap string RolloutClusterEntry).

(** [IdentityArgoVSCache]: the names by identity; a value of the inner map is always
    [true]. *)
Abbreviation argoVsCache := (gmap string (gset string)).

Section Cache.
Context (p : AdmiralParams).

Definition rollout_key (r : RolloutObj) : string := GetRolloutGlobalIdentifier p r.

(** The item of an identity and an environment. *)
Definition rollout_item (c : rolloutCache) (key env : string) : option RolloutItem :=
  match c !! key with Some rce => Rollouts rce !! env | None => None end.

Definition RolloutCache_GetByIdentity (c : rolloutCache) (key : string) : option (gmap string RolloutItem) :=
  match c !! key with Some rce => Some (Rollouts rce) | None => None end.

Definition RolloutCache_Get (c : rolloutCache) (key env : string) : option RolloutObj :=
  match rollout_item c key env with Some rceEnv => Rollout rceEnv | None => None end.

Definition RolloutCache_List `{!GoRange} (c : rolloutCache) : list RolloutObj :=
  flat_map (fun kv => omap (fun ei => Rollout ei.2) (go_range 1 (Rollouts kv.2))) (go_range 0 c).

Definition NewRolloutCache : rolloutCache := ∅.
Definition RolloutCache_Put (c : rolloutCache) (rolloutEntry : RolloutClusterEntry) : rolloutCache :=
  <[RIdentity rolloutEntry := rolloutEntry]> c.
Definition RolloutCache_Delete (c : rolloutCache) (pod : RolloutClusterEntry) : rolloutCache := delete (RIdentity pod) c.

Definition UpdateRolloutToClusterCache (c : rolloutCache) (key : string) (r : RolloutObj) : rolloutCache :=
  let rce := default (mkRolloutClusterEntry key ∅) (c !! key) in
  <[RIdentity rce := mkRolloutClusterEntry (RIdentity rce)
      (<[GetEnvForRollout p r := mkRolloutItem (Some r) ProcessingInProgress]> (Rollouts rce))]> c.

(** Whatever rollout is cached at the identity and environment is removed. *)
Definition DeleteFromRolloutToClusterCache (c : rolloutCache) (key : string) (r : RolloutObj) : rolloutCache :=
  match c !! key with
  | Some rce => <[key := mkRolloutClusterEntry (RIdentity rce) (delete (GetEnvForRollout p r) (Rollouts rce))]> c
  | None => c
  end.

Definition GetRolloutProcessStatus (c : rolloutCache) (r : RolloutObj) : string :=
  match rollout_item c (rollout_key r) (GetEnvForRollout p r) with
  | Some rceEnv => RStatus rceEnv
  | None => NotProcessed
  end.

(** An environment without an item gets one without a rollout. *)
Definition UpdateRolloutProcessStatus (c : rolloutCache) (r : RolloutObj) (status : string)
    : rolloutCache * error :=
  match c !! rollout_key r with
  | Some rce =>
      let it := match Rollouts rce !! GetEnvForRollout p r with
                | Some rceEnv => mkRolloutItem (Rollout rceEnv) status
                | None => mkRolloutItem None status
                end in
      (<[RIdentity rce := mkRolloutClusterEntry (RIdentity rce)
           (<[GetEnvForRollout p r := it]> (Rollouts rce))]> c, None)
  | None => (c, Some ("op=Update type=Rollout name=" +:+ Name (RoMeta r) +:+ " namespace=" +:+
      Namespace (RoMeta r) +:+ " cluster= message=nothing to update, rollout not found in cache"))
  end.

(** ** The virtual services that Argo manages *)

Definition getArgoVSFromRollout (r : RolloutObj) : string :=
  match (c ← Canary (RoStrategy r); tr ← TrafficRouting c; istio ← tr; istio) with
  | Some vs => IstioVSName vs
  | None => ""
  end.

Definition IdentityArgoVSCache_Get (identity : string) (c : argoVsCache) : option (gset string) := c !! identity.

Definition IdentityArgoVSCache_Put (new : RolloutObj) (old : option RolloutObj) (c : argoVsCache) : argoVsCache :=
  let oldArgoVSName := match old with Some o => getArgoVSFromRollout o | None => "" end in
  let identity := GetRolloutGlobalIdentifier p new in
  let argoVSName := getArgoVSFromRollout new in
  let c := if negb (is_empty oldArgoVSName) && negb (oldArgoVSName =?s argoVSName)
           then alter (fun names => names ∖ {[ oldArgoVSName ]}) identity c else c in
  if is_empty argoVSName then c
  else <[identity := {[ argoVSName ]} ∪ default ∅ (c !! identity)]> c.

Definition IdentityArgoVSCache_Delete (r : RolloutObj) (c : argoVsCache) : argoVsCache :=
  alter (fun names => names ∖ {[ getArgoVSFromRollout r ]}) (GetRolloutGlobalIdentifier p r) c.
End Cache.

(** ** The delegator *)

#[export] Instance PodTemplate_eq_decision : EqDecision PodTemplate.
Proof. solve_decision. Defined.
#[export] Instance LabelSelector_eq_decision : EqDecision LabelSelector.
Proof. solve_decision. Defined.
#[export] Instance BlueGreenStrategy_eq_dec : EqDecision BlueGreenStrategy.
Proof. solve_decision. Defined.
#[export] Instance IstioVS_eq_dec : EqDecision IstioVS.
Proof. solve_decision. Defined.
#[export] Instance CanaryStrategy_eq_dec : EqDecision CanaryStrategy.
Proof. solve_decision. Defined.
#[export] Instance RolloutStrategy_eq_dec : EqDecision RolloutStrategy.
Proof. solve_decision. Defined.

Record roc_state (H : Type) := mkRoc { roc_cache : rolloutCache; roc_argo : argoVsCache; roc_handler : H }.
Arguments mkRoc {H} _ _ _.
Arguments roc_cache {H} _.
Arguments roc_argo {H} _.
Arguments roc_handler {H} _.
#[export] Instance eta_roc_state H : Settable (roc_state H) := fun s =>
  mkRoc (roc_cache s) (roc_argo s) (roc_handler s).

Section Delegate.
Context {H : Type} (p : AdmiralParams).
(** [RolloutHandler]; its [Updated] is never called. *)
Context (handler_added handler_deleted : RolloutObj -> H -> H * error).
(** The Kubernetes API: the annotations of a namespace, [None] for an error, and the
    rollouts of a namespace, by name and all of them. *)
Context (ns_annotations : string -> option gomap) (api_rollout : string -> string -> option RolloutObj)
  (api_rollouts : string -> option (list RolloutObj)).

Definition not_a_rollout : error := Some "type assertion failed, object is not of type *argo.Rollout".

Definition shouldIgnoreBasedOnLabelsForRollout (r : RolloutObj) : bool :=
  let labelSet := label_set p in
  if mget (TLabels (RoTemplate r)) (labelSet.(Params.AdmiralIgnoreLabel)) =?s "true" then true
  else if negb (mget (TAnnotations (RoTemplate r)) (labelSet.(Params.DeploymentAnnotation)) =?s "true")
  then true
  else if mget (Annotations (RoMeta r)) AdmiralIgnoreAnnotation =?s "true" then true
  else match ns_annotations (Namespace (RoMeta r)) with
       | None => false
       | Some ns => mget ns AdmiralIgnoreAnnotation =?s "true"
       end.

(** Its error is only logged. *)
Definition populateIdentityArgoVSCache (o : delivered RolloutObj) (old : option (delivered RolloutObj))
    (c : argoVsCache) : argoVsCache :=
  match o, old with
  | Present r, None => IdentityArgoVSCache_Put p r None c
  | Present r, Some (Present r') => IdentityArgoVSCache_Put p r (Some r') c
  | _, _ => c
  end.

Definition HandleAddUpdateRollout (o : delivered RolloutObj) (s : roc_state H) : roc_state H * error :=
  match o with
  | Stale _ => (s, not_a_rollout)
  | Present r =>
      let key := rollout_key p r in
      if is_empty key then (s, None)
      else if negb (shouldIgnoreBasedOnLabelsForRollout r) then
        let s := s <| roc_cache := UpdateRolloutToClusterCache p (roc_cache s) key r |> in
        let '(h, err) := handler_added r (roc_handler s) in
        (s <| roc_handler := h |>, err)
      else (s <| roc_cache := DeleteFromRolloutToClusterCache p (roc_cache s) key r |>, None)
  end.

Definition RolloutController_Added (o : delivered RolloutObj) (s : roc_state H) : roc_state H * error :=
  HandleAddUpdateRollout o (s <| roc_argo := populateIdentityArgoVSCache o None (roc_argo s) |>).

Definition RolloutController_Updated (o : delivered RolloutObj) (old : option (delivered RolloutObj))
    (s : roc_state H) : roc_state H * error :=
  HandleAddUpdateRollout o (s <| roc_argo := populateIdentityArgoVSCache o old (roc_argo s) |>).

Definition RolloutController_Deleted (o : delivered RolloutObj) (s : roc_state H) : roc_state H * error :=
  match o with
  | Stale _ => (s, not_a_rollout)
  | Present r =>
      let s := s <| roc_argo := IdentityArgoVSCache_Delete p r (roc_argo s) |> in
      if shouldIgnoreBasedOnLabelsForRollout r then (s, None)
      else
        let key := rollout_key p r in
        let '(h, err) := handler_deleted r (roc_handler s) in
        let c := if is_nil err && negb (is_empty key) then
                   DeleteFromRolloutToClusterCache p (DeleteFromRolloutToClusterCache p (roc_cache s) key r)
                     (GetRolloutOriginalIdentifier p r) r
                 else roc_cache s in
        (s <| roc_cache := c |> <| roc_handler := h |>, err)
  end.

Definition GetRolloutBySelectorInNamespace (serviceSelector : gomap) (namespace : string)
    : option (list RolloutObj) :=
  match api_rollouts namespace with
  | None => None
  | Some items => Some (List.filter (fun r => IsServiceMatch serviceSelector (RoSelector r)) items)
  end.

Definition RolloutController_UpdateProcessItemStatus (o : delivered RolloutObj) (status : string)
    (s : roc_state H) : roc_state H * error :=
  match o with
  | Stale _ => (s, not_a_rollout)
  | Present r =>
      let '(c, err) := UpdateRolloutProcessStatus p (roc_cache s) r status in (s <| roc_cache := c |>, err)
  end.

Definition RolloutController_GetProcessItemStatus (o : delivered RolloutObj) (s : roc_state H) : string * error :=
  match o with
  | Stale _ => (NotProcessed, not_a_rollout)
  | Present r => (GetRolloutProcessStatus p (roc_cache s) r, None)
  end.

Definition RolloutController_DoesGenerationMatch (obj old : delivered RolloutObj) : bool * error :=
  if negb (DoGenerationCheck p) then (false, None)
  else match obj, old with
       | Present n, Present o => (bool_decide (RoGeneration n = RoGeneration o), None)
       | _, _ => (false, not_a_rollout)
       end.

(** The specs are compared without their replica counts. *)
Definition RolloutController_IsOnlyReplicaCountChanged (obj old : delivered RolloutObj) : bool * error :=
  if negb (Config.IsOnlyReplicaCountChanged p) then (false, None)
  else match obj, old with
       | Present n, Present o =>
           (bool_decide (RoTemplate o = RoTemplate n) && bool_decide (RoSelector o = RoSelector n)
            && bool_decide (RoStrategy o = RoStrategy n) && (RoOtherSpec o =?s RoOtherSpec n), None)
       | _, _ => (false, not_a_rollout)
       end.

(** With [isRetry] the cache is asked for the namespace, not the environment. *)
Definition RolloutController_GetCached (o : delivered RolloutObj) (s : roc_state H)
    : fetched (delivered RolloutObj) + string :=
  match o with
  | Stale _ => inr "rollout client is not initialized"
  | Present r =>
      inl (FetchedObj (option_map Present
        (RolloutCache_Get (roc_cache s) (rollout_key p r) (Namespace (RoMeta r)))))
  end.

Definition RolloutController_GetLatest (o : delivered RolloutObj) (s : roc_state H)
    : roc_state H * (delivered RolloutObj + string) :=
  match o with
  | Stale _ => (s, inr "rollout client is not initialized")
  | Present r =>
      (s, match api_rollout (Namespace (RoMeta r)) (Name (RoMeta r)) with
          | Some r' => inl (Present r')
          | None => inr "not found"
          end)
  end.

#[export] Instance rollout_delegator : Delegator (roc_state H) (delivered RolloutObj) := {|
  obj_meta o := match o with Present r => Some (RoMeta r) | Stale _ => None end;
  is_tombstone o := match o with Present _ => false | Stale _ => true end;
  Added := RolloutController_Added;
  Updated := RolloutController_Updated;
  Deleted := RolloutController_Deleted;
  UpdateProcessItemStatus := RolloutController_UpdateProcessItemStatus;
  GetProcessItemStatus := RolloutController_GetProcessItemStatus;
  GetCached := RolloutController_GetCached;
  GetLatest := RolloutController_GetLatest;
  DoesGenerationMatch := RolloutController_DoesGenerationMatch;
  IsOnlyReplicaCountChanged := RolloutController_IsOnlyReplicaCountChanged
|}.
End Delegate.

(** ** The cache as a map from identity and environment to rollouts *)
Section CacheLemmas.
Context (p : AdmiralParams).

(** Every entry is stored under its identity. *)
Definition rollout_ids_ok (c : rolloutCache) : Prop := forall k rce, c !! k = Some rce -> RIdentity rce = k.

Lemma rollout_ids_insert c k m : rollout_ids_ok c -> rollout_ids_ok (<[k := mkRolloutClusterEntry k m]> c).
Proof. intros Hi k' rce. rewrite lookup_insert_Some. intros [[<- <-]|[_ Hl]]; [done|by apply Hi]. Qed.

Lemma rollout_item_insert c k m key env :
  rollout_item (<[k := mkRolloutClusterEntry k m]> c) key env =
    if decide (key = k) then m !! env else rollout_item c key env.
Proof.
  unfold rollout_item. destruct (decide (key = k)) as [->|Hne]; [by rewrite lookup_insert_eq|].
  by rewrite lookup_insert_ne.
Qed.

Lemma update_rollout_spec c key r :
  rollout_ids_ok c -> rollout_ids_ok (UpdateRolloutToClusterCache p c key r) /\
  forall k e, RolloutCache_Get (UpdateRolloutToClusterCache p c key r) k e =
    if decide ((k, e) = (key, GetEnvForRollout p r)) then Some r else RolloutCache_Get c k e.
Proof.
  intros Hi. unfold UpdateRolloutToClusterCache.
  assert (RIdentity (default (mkRolloutClusterEntry key ∅) (c !! key)) = key) as ->.
  { destruct (c !! key) as [rce|] eqn:E; [by apply Hi in E|done]. }
  split; [by apply rollout_ids_insert|]. intros k e. unfold RolloutCache_Get. rewrite rollout_item_insert.
  destruct (decide (k = key)) as [->|Hk]; [|rewrite decide_False; [done|naive_solver]].
  destruct (decide (e = GetEnvForRollout p r)) as [->|He].
  - by rewrite decide_True, lookup_insert_eq.
  - rewrite decide_False by naive_solver. rewrite lookup_insert_ne by done.
    unfold rollout_item. by destruct (c !! key).
Qed.

Lemma delete_rollout_spec c key r :
  rollout_ids_ok c -> rollout_ids_ok (DeleteFromRolloutToClusterCache p c key r) /\
  forall k e, RolloutCache_Get (DeleteFromRolloutToClusterCache p c key r) k e =
    if decide ((k, e) = (key, GetEnvForRollout p r)) then None else RolloutCache_Get c k e.
Proof.
  intros Hi. unfold DeleteFromRolloutToClusterCache. destruct (c !! key) as [rce|] eqn:E.
  - pose proof (Hi _ _ E) as Hid. rewrite Hid. split; [by apply rollout_ids_insert|].
    intros k e. unfold RolloutCache_Get. rewrite rollout_item_insert.
    destruct (decide (k = key)) as [->|Hk]; [|rewrite decide_False; [done|naive_solver]].
    destruct (decide (e = GetEnvForRollout p r)) as [->|He].
    + by rewrite decide_True, lookup_delete_eq.
    + rewrite decide_False by naive_solver. rewrite lookup_delete_ne by done.
      unfold rollout_item. by rewrite E.
  - split; [done|]. intros k e. destruct (decide _) as [[= -> ->]|]; [|done].
    unfold RolloutCache_Get, rollout_item. by rewrite E.
Qed.

Lemma rollout_status_spec c r status :
  rollout_ids_ok c ->
  rollout_ids_ok (UpdateRolloutProcessStatus p c r status).1 /\
  (is_Some (c !! rollout_key p r) ->
     GetRolloutProcessStatus p (UpdateRolloutProcessStatus p c r status).1 r = status /\
     is_Some ((UpdateRolloutProcessStatus p c r status).1 !! rollout_key p r)) /\
  forall k e, RolloutCache_Get (UpdateRolloutProcessStatus p c r status).1 k e = RolloutCache_Get c k e.
Proof.
  intros Hi. unfold UpdateRolloutProcessStatus. destruct (c !! rollout_key p r) as [rce|] eqn:E; [|by naive_solver].
  rewrite (Hi _ _ E). cbn [fst]. split_and!; [by apply rollout_ids_insert| |].
  - intros _. split; [|by rewrite lookup_insert_eq; eexists].
    unfold GetRolloutProcessStatus. rewrite rollout_item_insert, decide_True by done.
    rewrite lookup_insert_eq. by destruct (Rollouts rce !! GetEnvForRollout p r).
  - intros k e. unfold RolloutCache_Get. rewrite rollout_item_insert.
    destruct (decide (k = rollout_key p r)) as [->|]; [|done].
    destruct (decide (e = GetEnvForRollout p r)) as [->|He].
    + rewrite lookup_insert_eq. unfold rollout_item. rewrite E. by destruct (Rollouts rce !! GetEnvForRollout p r).
    + rewrite lookup_insert_ne by done. unfold rollout_item. by rewrite E.
Qed.
Lemma rollout_refines_put (c : rolloutCache) (m : gmap (string * string) RolloutObj) key r :
  rollout_ids_ok c -> (forall k e, RolloutCache_Get c k e = m !! (k, e)) ->
  rollout_ids_ok (UpdateRolloutToClusterCache p c key r) /\
  forall k e, RolloutCache_Get (UpdateRolloutToClusterCache p c key r) k e =
    <[(key, GetEnvForRollout p r) := r]> m !! (k, e).
Proof.
  intros Hi Hg. destruct (update_rollout_spec c key r Hi) as [Hi' Hu]. split; [done|].
  intros k e. rewrite Hu, lookup_insert, Hg. repeat case_decide; naive_solver.
Qed.

Lemma rollout_refines_delete (c : rolloutCache) (m : gmap (string * string) RolloutObj) key r :
  rollout_ids_ok c -> (forall k e, RolloutCache_Get c k e = m !! (k, e)) ->
  rollout_ids_ok (DeleteFromRolloutToClusterCache p c key r) /\
  forall k e, RolloutCache_Get (DeleteFromRolloutToClusterCache p c key r) k e =
    delete (key, GetEnvForRollout p r) m !! (k, e).
Proof.
  intros Hi Hg. destruct (delete_rollout_spec c key r Hi) as [Hi' Hu]. split; [done|].
  intros k e. rewrite Hu, lookup_delete, Hg. repeat case_decide; naive_solver.
Qed.

End CacheLemmas.

Section Laws.
Context {H : Type} (p : AdmiralParams) (handler_added handler_deleted : RolloutObj -> H -> H * error).
Context (ns_annotations : string -> option gomap) (api_rollout : string -> string -> option RolloutObj).

(** An object is tracked when the cache knows its identity. *)
#[export] Instance rollout_laws :
  DelegatorLaws (rollout_delegator p handler_added handler_deleted ns_annotations api_rollout).
Proof.
  refine {| tracked o s := exists r, o = Present r /\ rollout_ids_ok (roc_cache s) /\
              is_Some (roc_cache s !! rollout_key p r); status_recorded := _; tracked_kept := _ |}.
  - intros o st s (r & -> & Hi & Hs). simpl. destruct (rollout_status_spec p _ r st Hi) as (_ & Hst & _).
    destruct (UpdateRolloutProcessStatus p _ r st) as [c err]. simpl in *. destruct (Hst Hs) as [-> _]. done.
  - intros o st s (r & -> & Hi & Hs). simpl. destruct (rollout_status_spec p _ r st Hi) as (Hi' & Hst & _).
    destruct (UpdateRolloutProcessStatus p _ r st) as [c err]. simpl in *.
    exists r. split_and!; [done..|]. by apply Hst.
Defined.
End Laws.

(** ** The cache refines a map of rollouts *)

Section Refinement.
Context {H : Type} (p : AdmiralParams) (readOnly : bool).
Context (handler_added handler_deleted : RolloutObj -> H -> H * error).
Context (ns_annotations : string -> option gomap) (api_rollout : string -> string -> option RolloutObj).

Definition rollout_event (ev : EventType) (r : RolloutObj) (old : option RolloutObj) (s : roc_state H)
    : roc_state H * error :=
  processItem (dl := rollout_delegator p handler_added handler_deleted ns_annotations api_rollout) readOnly
    (mkInformerCacheObj ev (Present r) (Present <$> old)) s.

(** What the cache promises: the last rollout under an identity and environment that was
    not ignored, until one under them is ignored, or deleted with success. *)
Definition rollout_spec_event (ev : EventType) (r : RolloutObj) (s : gmap (string * string) RolloutObj * H)
    : gmap (string * string) RolloutObj * H :=
  let '(m, h) := s in
  let slot := (rollout_key p r, GetEnvForRollout p r) in
  let ignored := shouldIgnoreBasedOnLabelsForRollout p ns_annotations r in
  match ev with
  | Delete =>
      if ignored then s
      else
        let '(h', err) := handler_deleted r h in
        (if is_nil err && negb (is_empty (rollout_key p r))
         then delete (GetRolloutOriginalIdentifier p r, GetEnvForRollout p r) (delete slot m) else m, h')
  | _ =>
      if is_empty (rollout_key p r) then s
      else if ignored then (delete slot m, h)
      else (<[slot := r]> m, (handler_added r h).1)
  end.

(** The states agree. *)
Definition refines_rollouts (s : roc_state H) (t : gmap (string * string) RolloutObj * H) : Prop :=
  rollout_ids_ok (roc_cache s) /\ roc_handler s = t.2 /\
  forall k e, RolloutCache_Get (roc_cache s) k e = t.1 !! (k, e).

Lemma rollout_refines_status s t r st :
  refines_rollouts s t ->
  refines_rollouts (RolloutController_UpdateProcessItemStatus p (Present r) st s).1 t.
Proof.
  intros (Hi & Hh & Hg). simpl. destruct (rollout_status_spec p _ r st Hi) as (Hi' & _ & Hk).
  destruct (UpdateRolloutProcessStatus p _ r st) as [c err]. simpl in *.
  split_and!; [done..|]. intros k e. by rewrite Hk.
Qed.

Lemma put_event_refines r s s' t :
  refines_rollouts s t -> roc_cache s' = roc_cache s -> roc_handler s' = roc_handler s ->
  refines_rollouts (HandleAddUpdateRollout p handler_added ns_annotations (Present r) s').1
    (rollout_spec_event Add r t).
Proof using Type.
  intros (Hi & Hh & Hg) Hc Hs'. destruct t as [m h]. simpl in Hh, Hg.
  unfold HandleAddUpdateRollout, rollout_spec_event.
  destruct (is_empty (rollout_key p r)); [by unfold refines_rollouts; simpl; rewrite Hc, Hs'|].
  destruct (shouldIgnoreBasedOnLabelsForRollout p ns_annotations r); cbn [negb].
  - simpl. rewrite Hc. destruct (rollout_refines_delete p _ m (rollout_key p r) r Hi Hg).
    unfold refines_rollouts. simpl. by rewrite Hs'.
  - cbv zeta. change (roc_handler (s' <| roc_cache := _ |>)) with (roc_handler s').
    rewrite Hs', Hh. destruct (handler_added r h) as [h' err]. simpl. rewrite Hc.
    destruct (rollout_refines_put p _ m (rollout_key p r) r Hi Hg). by split_and!.
Qed.

Lemma delete_event_refines r s t :
  refines_rollouts s t ->
  refines_rollouts (RolloutController_Deleted p handler_deleted ns_annotations (Present r) s).1
    (rollout_spec_event Delete r t).
Proof using Type.
  intros (Hi & Hh & Hg). destruct t as [m h]. simpl in Hh, Hg.
  unfold RolloutController_Deleted, rollout_spec_event.
  destruct (shouldIgnoreBasedOnLabelsForRollout p ns_annotations r); [by split_and!|].
  simpl. rewrite Hh. destruct (handler_deleted r h) as [h' err]. simpl.
  destruct (is_nil err && negb (is_empty (rollout_key p r))); [|by split_and!].
  destruct (rollout_refines_delete p _ m (rollout_key p r) r Hi Hg) as [Hi1 Hg1].
  destruct (rollout_refines_delete p _ _ (GetRolloutOriginalIdentifier p r) r Hi1 Hg1). by split_and!.
Qed.

Lemma refines_after (x : roc_state H * error) r t :
  refines_rollouts x.1 t ->
  refines_rollouts (let '(d1, err) := x in
    ((RolloutController_UpdateProcessItemStatus p (Present r) (item_status readOnly err) d1).1, err)).1 t.
Proof using Type. destruct x as [d1 err]. apply rollout_refines_status. Qed.

Lemma rollout_event_refines ev r old s t :
  refines_rollouts s t -> refines_rollouts (rollout_event ev r old s).1 (rollout_spec_event ev r t).
Proof using Type.
  intros Hst. destruct ev; apply refines_after.
  - by eapply put_event_refines.
  - by eapply (put_event_refines r s).
  - by apply delete_event_refines.
Qed.

Abbreviation event := (EventType * RolloutObj * option RolloutObj)%type.

Definition rollout_run (evs : list event) (s : roc_state H) : roc_state H :=
  foldl (fun s '(ev, r, old) => (rollout_event ev r old s).1) s evs.
Definition rollout_spec_run (evs : list event) (s : gmap (string * string) RolloutObj * H)
    : gmap (string * string) RolloutObj * H :=
  foldl (fun s '(ev, r, _) => rollout_spec_event ev r s) s evs.

(** C23: The cache of the rollouts refines a map.  After any events, whatever the handler
    answers, what [Get] returns for an identity and an environment is the last rollout
    added or updated under them that was not to be ignored, unless one under them was
    ignored, or deleted with success, since; and the handler has seen exactly the events
    of the rollouts that are not ignored. *)
Theorem rollout_cache_refines (evs : list event) (h : H) (argo : argoVsCache) :
  let s := rollout_run evs (mkRoc ∅ argo h) in
  let t := rollout_spec_run evs (∅, h) in
  roc_handler s = t.2 /\ forall key env, RolloutCache_Get (roc_cache s) key env = t.1 !! (key, env).
Proof.
  assert (forall s t, refines_rollouts s t -> refines_rollouts (rollout_run evs s) (rollout_spec_run evs t)) as Hrun.
  { induction evs as [|[[ev r] old] evs IH]; intros s t Hst; [done|]. simpl.
    by apply IH, rollout_event_refines. }
  intros s t. destruct (Hrun (mkRoc ∅ argo h) (∅, h)) as (_ & Hh & Hg); [|done].
  split_and!; [intros k rce|done|intros k e; unfold RolloutCache_Get, rollout_item]; simpl; by rewrite !lookup_empty.
Qed.
End Refinement.

(** ** The names of Argo's virtual services *)

Section ArgoNames.
Context (p : AdmiralParams).

Definition argo_names (c : argoVsCache) (identity : string) : gset string := default ∅ (c !! identity).

(** [delete(i.cache[identity], name)]. *)
Lemma argo_names_remove (c : argoVsCache) identity name i n :
  n ∈ argo_names (alter (fun names => names ∖ {[ name ]}) identity c) i <->
  n ∈ argo_names c i /\ ~ (i = identity /\ n = name).
Proof.
  unfold argo_names. rewrite lookup_alter. destruct (decide (identity = i)) as [->|Hne].
  - destruct (c !! i) as [names|]; simpl; set_solver.
  - split; [intros Hn; split; [done|by intros [-> _]]|by intros [? _]].
Qed.

Lemma argo_names_add (c : argoVsCache) identity name i n :
  n ∈ argo_names (<[identity := {[ name ]} ∪ argo_names c identity]> c) i <->
  (i = identity /\ n = name) \/ n ∈ argo_names c i.
Proof.
  unfold argo_names at 1. destruct (decide (i = identity)) as [->|Hne].
  - rewrite lookup_insert_eq. simpl. set_solver.
  - rewrite lookup_insert_ne by done. fold (argo_names c i). split; [by right|by intros [[-> _]|?]].
Qed.

Lemma argo_names_put new old c identity n :
  let id := GetRolloutGlobalIdentifier p new in
  let old_name := match old with Some o => getArgoVSFromRollout o | None => "" end in
  n ∈ argo_names (IdentityArgoVSCache_Put p new old c) identity <->
  (identity = id /\ n = getArgoVSFromRollout new /\ n <> "") \/
  (n ∈ argo_names c identity /\
   ~ (identity = id /\ n = old_name /\ n <> "" /\ n <> getArgoVSFromRollout new)).
Proof.
  intros id ov. unfold IdentityArgoVSCache_Put. fold id. fold ov.
  generalize (getArgoVSFromRollout new). intros v. clearbody ov id.
  set (c1 := if negb (is_empty ov) && negb (ov =?s v) then _ else c).
  assert (forall i, n ∈ argo_names c1 i <->
    n ∈ argo_names c i /\ ~ (i = id /\ n = ov /\ n <> "" /\ n <> v)) as Hc1.
  { intros i. subst c1. destruct (is_empty ov) eqn:E1; [apply is_empty_spec in E1|apply is_empty_false in E1].
    { simpl. split; [intros Hn; split; [done|by intros (_ & -> & ? & _)]|by intros [? _]]. }
    destruct (ov =?s v) eqn:E2; [apply seqb_eq in E2|apply seqb_neq in E2]; simpl.
    { split; [intros Hn; split; [done|by intros (_ & -> & _ & ?)]|by intros [? _]]. }
    rewrite argo_names_remove. split; intros [Hn Hr]; (split; [done|]).
    - intros (-> & -> & _). by apply Hr.
    - intros [-> ->]. by apply Hr. }
  clearbody c1. destruct (is_empty v) eqn:Ev; [apply is_empty_spec in Ev as ->|apply is_empty_false in Ev].
  - rewrite Hc1. split; [by right|by intros [(_ & ? & ?)|?]].
  - fold (argo_names c1 id). rewrite argo_names_add, Hc1. split.
    + intros [[-> ->]|?]; [by left|by right].
    + intros [(-> & -> & _)|?]; [by left|by right].
Qed.

Lemma argo_names_delete r c identity n :
  n ∈ argo_names (IdentityArgoVSCache_Delete p r c) identity <->
  n ∈ argo_names c identity /\ ~ (identity = GetRolloutGlobalIdentifier p r /\ n = getArgoVSFromRollout r).
Proof.
  apply argo_names_remove.
Qed.
End ArgoNames.

Section ArgoCache.
Context {H : Type} (p : AdmiralParams) (readOnly : bool).
Context (handler_added handler_deleted : RolloutObj -> H -> H * error).
Context (ns_annotations : string -> option gomap) (api_rollout : string -> string -> option RolloutObj).

Abbreviation rollout_event' := (rollout_event p readOnly handler_added handler_deleted ns_annotations api_rollout).
Abbreviation id := (GetRolloutGlobalIdentifier p).
Abbreviation places := (gmap (string * string) RolloutObj).

Definition rollout_place (r : RolloutObj) : string * string := (Namespace (RoMeta r), Name (RoMeta r)).

(** No other rollout of the identity has the virtual service. *)
Definition unshared (live : places) (r : RolloutObj) : Prop :=
  forall pl r', live !! pl = Some r' -> pl <> rollout_place r -> id r' = id r ->
    getArgoVSFromRollout r <> "" -> getArgoVSFromRollout r' <> getArgoVSFromRollout r.

(** The events of the rollouts of a cluster, as they are handled one by one: an update
    comes with the rollout as it was and keeps the identity. *)
Inductive rollouts_step : places * roc_state H -> places * roc_state H -> Prop :=
| step_added live s r :
    live !! rollout_place r = None -> unshared live r ->
    rollouts_step (live, s) (<[rollout_place r := r]> live, (rollout_event' Add r None s).1)
| step_updated live s r old :
    live !! rollout_place r = Some old -> id old = id r -> unshared live r ->
    rollouts_step (live, s) (<[rollout_place r := r]> live, (rollout_event' Update r (Some old) s).1)
| step_deleted live s r :
    live !! rollout_place r = Some r ->
    rollouts_step (live, s) (delete (rollout_place r) live, (rollout_event' Delete r None s).1).

(** The virtual service is that of a live rollout of the identity. *)
Definition managed (live : places) (identity n : string) : Prop :=
  n <> "" /\ exists pl r, live !! pl = Some r /\ id r = identity /\ getArgoVSFromRollout r = n.

Record argo_inv (st : places * roc_state H) : Prop := {
  argo_places : forall pl r, st.1 !! pl = Some r -> rollout_place r = pl;
  argo_unshared : forall pl r, st.1 !! pl = Some r -> unshared st.1 r;
  argo_exact : forall identity n, n ∈ argo_names (roc_argo st.2) identity <-> managed st.1 identity n
}.

Lemma argo_after (x : roc_state H * error) r :
  roc_argo (let '(d1, err) := x in
    ((RolloutController_UpdateProcessItemStatus p (Present r) (item_status readOnly err) d1).1, err)).1
  = roc_argo x.1.
Proof. destruct x as [d1 err]. simpl. by destruct (UpdateRolloutProcessStatus _ _ _ _). Qed.

Lemma argo_handled r (s : roc_state H) :
  roc_argo (HandleAddUpdateRollout p handler_added ns_annotations (Present r) s).1 = roc_argo s.
Proof. simpl. by repeat case_match. Qed.

(** What an event does to the names. *)
Lemma rollout_event_argo ev r old (s : roc_state H) :
  roc_argo (rollout_event' ev r old s).1 =
    match ev with
    | Delete => IdentityArgoVSCache_Delete p r (roc_argo s)
    | Update => IdentityArgoVSCache_Put p r old (roc_argo s)
    | Add => IdentityArgoVSCache_Put p r None (roc_argo s)
    end.
Proof.
  destruct ev; refine (eq_trans (argo_after _ r) _).
  - apply argo_handled.
  - refine (eq_trans (argo_handled r _) _). by destruct old.
  - simpl. by repeat case_match.
Qed.

Lemma argo_inv_put live (s s' : roc_state H) r old :
  argo_inv (live, s) -> unshared live r ->
  match old with Some o => live !! rollout_place r = Some o /\ id o = id r
  | None => live !! rollout_place r = None end ->
  roc_argo s' = IdentityArgoVSCache_Put p r old (roc_argo s) ->
  argo_inv (<[rollout_place r := r]> live, s').
Proof.
  intros [Hpl Hun Hex] Hr Hold Hs'. cbn [fst snd] in *. split; cbn [fst snd].
  - intros pl r'. rewrite lookup_insert_Some. intros [[<- <-]|[_ ?]]; [done|by apply Hpl].
  - intros pl r' Hl pl' r'' Hl' Hne Hid Hvs. rewrite lookup_insert_Some in Hl, Hl'.
    destruct Hl as [[<- <-]|[Hpl1 Hl]], Hl' as [[<- <-]|[Hpl2 Hl']].
    + done.
    + by apply (Hr pl').
    + intros Heq. apply (Hr pl r' Hl); [done|done|by rewrite Heq|done].
    + by apply (Hun pl r' Hl pl').
  - intros identity n. rewrite Hs', argo_names_put, Hex. unfold managed. split.
    + intros [(-> & -> & Hn)|[(Hn & pl & r' & Hl & <- & <-) Hrem]].
      * split; [done|]. exists (rollout_place r), r. by rewrite lookup_insert_eq.
      * split; [done|]. destruct (decide (pl = rollout_place r)) as [->|Hne].
        2: { exists pl, r'. by rewrite lookup_insert_ne. }
        exists (rollout_place r), r. rewrite lookup_insert_eq.
        destruct old as [o|]; [|congruence]. destruct Hold as [Ho Hid]. rewrite Hl in Ho. injection Ho as <-.
        split_and!; [done|done|].
        destruct (decide (getArgoVSFromRollout r = getArgoVSFromRollout r')) as [|Hne]; [done|].
        exfalso. apply Hrem. by split_and!.
    + intros [Hn (pl & r' & Hl & <- & <-)]. rewrite lookup_insert_Some in Hl.
      destruct Hl as [[<- <-]|[Hne Hl]]; [by left|]. right. split; [split; [done|by exists pl, r']|].
      intros (Hid & Hov & _ & Hvs). destruct old as [o|]; [|done]. destruct Hold as [Ho Hid'].
      apply (Hun _ _ Ho pl r' Hl); [|congruence|congruence|done].
      rewrite (Hpl _ _ Ho). done.
Qed.

Lemma argo_inv_step st st' : rollouts_step st st' -> argo_inv st -> argo_inv st'.
Proof.
  intros [live s r Hl Hr|live s r old Hl Hid Hr|live s r Hl] Hinv.
  - by apply (argo_inv_put live s _ r None); [..|apply rollout_event_argo].
  - by apply (argo_inv_put live s _ r (Some old)); [..|apply rollout_event_argo].
  - destruct Hinv as [Hpl Hun Hex]. cbn [fst snd] in *. split; cbn [fst snd].
    + intros pl r'. rewrite lookup_delete_Some. intros [_ ?]. by apply Hpl.
    + intros pl r' [_ Hl1]%lookup_delete_Some pl' r'' [_ Hl2]%lookup_delete_Some. by apply (Hun pl r').
    + intros identity n. rewrite rollout_event_argo, argo_names_delete, Hex. unfold managed. split.
      * intros [(Hn & pl & r' & Hl' & <- & <-) Hne]. split; [done|]. exists pl, r'.
        split_and!; [|done|done]. apply lookup_delete_Some. split; [|done].
        intros <-. simplify_eq. by apply Hne.
      * intros (Hn & pl & r' & [Hne Hl']%lookup_delete_Some & <- & <-). split; [split; [done|by exists pl, r']|].
        intros [Hid Hvs]. apply (Hun _ _ Hl pl r' Hl'); [done|done|congruence|done].
Qed.

(** C22: The names of Argo's virtual services are exact.  Handling the events of a
    cluster's rollouts, the cache has for an identity the names of the virtual services
    that the identity's live rollouts refer to, and no others: a rename, a removal or a
    deletion leaves no name behind.  Two rollouts of an identity do not share a virtual
    service, and no rollout changes its identity. *)
Theorem argo_vs_cache_exact (h : H) (live : places) (s : roc_state H) (identity n : string) :
  rtc rollouts_step (∅, mkRoc ∅ ∅ h) (live, s) ->
  n ∈ argo_names (roc_argo s) identity <-> managed live identity n.
Proof.
  intros Hrtc. assert (argo_inv (live, s)) as Hinv; [|apply (argo_exact _ Hinv)].
  refine (rtc_ind_r (fun st => argo_inv st) (∅, mkRoc ∅ ∅ h) _ _ (live, s) Hrtc).
  - split; cbn [fst snd roc_argo]; [done..|]. intros identity' n'. unfold argo_names.
    rewrite lookup_empty. unfold managed. split; [set_solver|].
    intros (_ & pl & r & Hl & _). by rewrite lookup_empty in Hl.
  - intros st st' _ Hs. by apply argo_inv_step.
Qed.
End ArgoCache.

(** ** Concrete inputs *)

Definition rollout_params : AdmiralParams :=
  Params.zero_AdmiralParams <| Params.LabelSetPtr := Some (Params.zero_LabelSet
    <| Params.WorkloadIdentityKey := "identity" |> <| Params.EnvKey := "env" |>
    <| Params.DeploymentAnnotation := "sidecar.istio.io/inject" |>) |>.

(** A rollout of the identity [foo] in the environment [dev]. *)
Definition sample_rollout (namespace name vs : string) : RolloutObj :=
  mkRollout (mkMeta name namespace None None 0 "1")
    (mkTemplate (Some {[ "identity" := "foo"; "env" := "dev" ]}) (Some {[ "sidecar.istio.io/inject" := "true" ]}))
    None (mkStrategy None (Some (mkCanary "stable" "canary" (Some (Some (Some (mkIstioVS vs []))))))) None 1 "".

Definition no_rollouts : roc_state nat := mkRoc ∅ ∅ 0.
Definition silent (r : RolloutObj) (h : nat) : nat * error := (S h, None).
Definition sample_event := rollout_event rollout_params false silent silent (fun _ => Some None) (fun _ _ => None).

(** A rollout whose virtual service is renamed. *)
Lemma argo_vs_cache_exact_witness :
  let r := sample_rollout "ns" "r" "vs" in let r' := sample_rollout "ns" "r" "vs2" in
  let s := (sample_event Update r' (Some r) (sample_event Add r None no_rollouts).1).1 in
  "vs2" ∈ argo_names (roc_argo s) "foo" /\ "vs" ∉ argo_names (roc_argo s) "foo".
Proof.
  intros r r' s.
  pose proof (fun n => argo_vs_cache_exact rollout_params false silent silent (fun _ => Some None) (fun _ _ => None)
    0 {[ ("ns", "r") := r' ]} s "foo" n) as Hex.
  assert (rtc (rollouts_step rollout_params false silent silent (fun _ => Some None) (fun _ _ => None))
    (∅, no_rollouts) ({[ ("ns", "r") := r' ]}, s)) as Hrun.
  { eapply rtc_l; [apply (step_added _ _ _ _ _ _ ∅ no_rollouts r); [done|by intros pl r'']|].
    replace {[ ("ns", "r") := r' ]} with (<[rollout_place r' := r']> (<[rollout_place r := r]> (∅ : gmap _ _)))
      by (by rewrite insert_insert_eq).
    apply rtc_once, (step_updated _ _ _ _ _ _ _ _ r' r); [done|done|].
    intros pl r'' [[<- <-]|[_ Hl]]%lookup_insert_Some; [done|by rewrite lookup_empty in Hl]. }
  split.
  - apply (Hex "vs2" Hrun). split; [done|]. by exists ("ns", "r"), r'.
  - intros Hin. apply (Hex "vs" Hrun) in Hin as (_ & pl & r'' & Hl & _ & Hvs).
    apply lookup_singleton_Some in Hl as [_ <-]. discriminate Hvs.
Defined.

(** Two rollouts of an identity and an environment, in two namespaces: the deletion of
    the one that is not cached takes the cached one out; a deployment stays. *)
Lemma rollout_deletion_takes_another :
  let s := (sample_event Add (sample_rollout "b" "r2" "") None
              (sample_event Add (sample_rollout "a" "r1" "") None no_rollouts).1).1 in
  RolloutCache_Get (roc_cache s) "foo" "dev" = Some (sample_rollout "b" "r2" "") /\
  RolloutCache_Get (roc_cache (sample_event Delete (sample_rollout "a" "r1" "") None s).1) "foo" "dev" = None.
Proof. split; by vm_compute. Qed.

(** The retry of a rollout does not find it in the cache, and is never stale. *)
Lemma rollout_retry_not_found :
  let s := (sample_event Add (sample_rollout "ns" "r" "") None no_rollouts).1 in
  is_Some (RolloutCache_Get (roc_cache s) "foo" "dev") /\
  RolloutController_GetCached rollout_params (Present (sample_rollout "ns" "r" "")) s = inl (FetchedObj None).
Proof. split; [by eexists|by vm_compute]. Qed.
