(* ===== verification/ServiceLookup.v ===== *)
(** * The services of a workload

    [clusters/handler.go] and [clusters/util.go]: the service of a deployment, the
    weighted services of a rollout, by its strategy, and all services of a rollout.
    A remote controller whose service controller or cache is nil panics: [None]. *)
From S2P Require Import Prelude GoStrings Config Objects Metadata ServiceCache AddressStore ServiceEntries Writers.
From S2P Require Import Caches Dependents World VirtualServices VsRouting.
From stdpp Require Import options.
Local Open Scope Z_scope.
Local Open Scope world_scope.

Definition RolloutRootServiceSuffix := "root-service".
Definition RolloutActiveServiceSuffix := "active-service".
Definition RolloutStableServiceSuffix := "stable-service".

(** [rc.ServiceController.Cache.Get]. *)
Definition cached_services {range : GoRange} {sorting : GoSort} (rc : RemoteController) (namespace : string)
    : option (list ServiceObj) :=
  match ServiceControllerCache rc with
  | Some (Some s) => Some (ServiceCache_Get s namespace)
  | _ => None
  end.

Section Lookup.
Context {range : GoRange} {sorting : GoSort}.

(** The service matches the selector and has a mesh port. *)
Definition deployment_service (d : DeploymentObj) (svc : ServiceObj) : bool :=
  IsServiceMatch (SvcSelector svc) (DepSelector d) &&
  Nat.ltb 0 (size (default ∅ (GetMeshPortsForDeployments (Some svc) (Some d)))).
Definition rollout_service (r : RolloutObj) (svc : ServiceObj) : bool :=
  IsServiceMatch (SvcSelector svc) (RoSelector r) &&
  Nat.ltb 0 (size (default ∅ (GetMeshPortsForRollout (Some svc) (Some r)))).

Definition has_match_labels (selector : option LabelSelector) : bool :=
  match selector with Some s => negb (is_nil (MatchLabels s)) | None => false end.

(** The deployment is not nil. *)
Definition getServiceForDeployment (rc : RemoteController) (d : DeploymentObj) : option (ServiceObj + string) :=
  let get_error message := "op=Get type=Service name=" +:+ Name (DepMeta d) +:+ " namespace=" +:+
    Namespace (DepMeta d) +:+ " cluster=" +:+ ClusterID rc +:+ " message=" +:+ message in
  if negb (has_match_labels (DepSelector d)) then Some (inr (get_error "no selectors found"))
  else
    services ← cached_services rc (Namespace (DepMeta d));
    let ordered := sort_slice (fun a b => CreationTimestamp (SvcMeta a) <? CreationTimestamp (SvcMeta b)) services in
    Some (match List.find (deployment_service d) ordered with
          | Some matchedService => inl matchedService
          | None => inr (get_error "no matching service instances found")
          end).

Definition GetServiceWithNameMatch (token : string) (services : list ServiceObj)
    (rolloutSelector : option LabelSelector) : string :=
  match rolloutSelector with
  | None => ""
  | Some _ =>
      match List.find (fun svc => (has_suffix (Name (SvcMeta svc)) token || contains (Name (SvcMeta svc)) token)
                                  && IsServiceMatch (SvcSelector svc) rolloutSelector) services with
      | Some svc => Name (SvcMeta svc)
      | None => ""
      end
  end.

(** A map with the one service, weighted. *)
Definition one_service (weight : Z) (svc : ServiceObj) : gmap string WeightedService :=
  {[ Name (SvcMeta svc) := mkWeighted weight svc ]}.

Definition add_service (weight : Z) (svc : ServiceObj) (m : gmap string WeightedService)
    : gmap string WeightedService :=
  <[Name (SvcMeta svc) := mkWeighted weight svc]> m.

Definition GetAllServicesForRollout (rc : RemoteController) (rollout : RolloutObj)
    : option (gmap string WeightedService) :=
  if negb (has_match_labels (RoSelector rollout)) then Some ∅
  else
    services ← cached_services rc (Namespace (RoMeta rollout));
    Some (foldl (fun m svc => if rollout_service rollout svc then add_service 1 svc m else m) ∅ services).

(** ** The weighted services of a rollout *)

(** The route of the virtual service that the weights are taken from. *)
Definition canary_route (virtualServiceRouteName : string) (routes : list HTTPRoute) : option HTTPRoute :=
  if negb (is_empty virtualServiceRouteName)
  then List.find (fun route => hrName route =?s virtualServiceRouteName) routes
  else match routes with [route] => Some route | _ => None end.

Definition route_weights (canaryService stableService : string) (route : HTTPRoute) (weights : gmap string Z)
    : gmap string Z :=
  foldl (fun weights destination =>
    let host := dstHost (rdDestination destination) in
    if ((host =?s canaryService) || (host =?s stableService)) && (0 <? rdWeight destination)
    then <[host := rdWeight destination]> weights else weights) weights (hrRoute route).

(** The services of the weights that match. *)
Definition weighted_services (rollout : RolloutObj) (weights : gmap string Z) (services : list ServiceObj)
    : gmap string WeightedService :=
  foldl (fun m svc =>
    if rollout_service rollout svc then
      match weights !! Name (SvcMeta svc) with Some val => add_service val svc m | None => m end
    else m) ∅ services.

(** The first service of the name that matches. *)
Definition named_service (rollout : RolloutObj) (name : string) (services : list ServiceObj)
    : option (gmap string WeightedService) :=
  match List.find (fun svc => (Name (SvcMeta svc) =?s name) && rollout_service rollout svc) services with
  | Some svc => Some (one_service 1 svc)
  | None => None
  end.

(** The loop at the end: the blue-green services, or the first service that matches. *)
Definition generic_services (rollout : RolloutObj) (active preview : string) (services : list ServiceObj)
    : gmap string WeightedService :=
  let considered := List.filter (fun svc =>
    negb (negb (is_empty active) && negb (Name (SvcMeta svc) =?s active) && negb (Name (SvcMeta svc) =?s preview))
    && rollout_service rollout svc) services in
  match BlueGreen (RoStrategy rollout) with
  | Some _ => foldl (fun m svc => add_service 1 svc m) ∅ considered
  | None => match considered with svc :: _ => one_service 1 svc | [] => ∅ end
  end.

(** The services of a rollout without Istio's traffic routing. *)
Definition plain_canary_services (rollout : RolloutObj) (services : list ServiceObj)
    : option (gmap string WeightedService) :=
  let sName := GetServiceWithNameMatch RolloutRootServiceSuffix services (RoSelector rollout)
               |?| GetServiceWithNameMatch RolloutStableServiceSuffix services (RoSelector rollout) in
  if is_empty sName then None else named_service rollout sName services.

(** [vsClient] reads the virtual services of the cluster; [vs_on_error] is what it
    returns next to an error. *)
Context {St : Type} {vsClient : KubeClient St VirtualServiceObj} (vs_on_error : option VirtualServiceObj).

Definition istioCanaryWeights (rollout : RolloutObj) (canary : CanaryStrategy) (istioVS : option IstioVS)
    : W St (gmap string Z) :=
  let weights := {[ StableService canary := 1 ]} in
  match istioVS with
  | None => wret weights
  | Some ref =>
      if is_empty (IstioVSName ref) then wret weights
      else
        r <- on_api (api_get (Namespace (RoMeta rollout)) (IstioVSName ref));;
        match (match r with inl vs => Some vs | inr _ => vs_on_error end) with
        | None => wret weights
        | Some virtualService =>
            wret (match canary_route (List.hd "" (IstioVSRoutes ref)) (vsHttp (VsSpec virtualService)) with
                  | None => weights
                  | Some route => route_weights (CanaryService canary) (StableService canary) route weights
                  end)
        end
  end.

Definition getServiceForRollout (rc : RemoteController) (rollout : RolloutObj) : W St (gmap string WeightedService) :=
  if negb (has_match_labels (RoSelector rollout)) then wret ∅
  else match cached_services rc (Namespace (RoMeta rollout)) with
  | None => wpanic
  | Some services =>
      match BlueGreen (RoStrategy rollout), Canary (RoStrategy rollout) with
      | None, None => wret ∅
      | Some bg, _ =>
          let active := ActiveService bg
                        |?| GetServiceWithNameMatch RolloutActiveServiceSuffix services (RoSelector rollout) in
          wret (generic_services rollout active (PreviewService bg) services)
      | None, Some canary =>
          match TrafficRouting canary with
          | Some (Some istioVS) =>
              if negb (is_empty (StableService canary)) && negb (is_empty (CanaryService canary)) then
                weights <- istioCanaryWeights rollout canary istioVS;;
                wret (weighted_services rollout weights services)
              else
                wret (default (generic_services rollout "" "" services)
                        (if is_empty (StableService canary) then None
                         else named_service rollout (StableService canary) services))
          | _ =>
              wret (default (generic_services rollout "" "" services) (plain_canary_services rollout services))
          end
      end
  end.
End Lookup.

(** ** What the services of a rollout are *)

Section Lemmas.
Context {range : GoRange} {sorting : GoSort}.
Context (rollout : RolloutObj) (services : list ServiceObj).

(** The service is cached, matches the rollout and is known by its name. *)
Definition chosen (named : string -> Prop) (name : string) (ws : WeightedService) : Prop :=
  name = Name (SvcMeta (wsService ws)) /\ wsService ws ∈ services /\
  rollout_service rollout (wsService ws) = true /\ 0 < wsWeight ws /\ named name.

Definition all_chosen (named : string -> Prop) (m : gmap string WeightedService) : Prop :=
  forall name ws, m !! name = Some ws -> chosen named name ws.

(** The name that the strategy gives, if it gives any. *)
Definition strategy_name (name : string) : Prop :=
  match BlueGreen (RoStrategy rollout), Canary (RoStrategy rollout) with
  | Some bg, _ => is_empty (ActiveService bg) = true \/ name = ActiveService bg \/ name = PreviewService bg
  | None, Some canary =>
      match TrafficRouting canary with
      | Some (Some _) =>
          is_empty (StableService canary) || is_empty (CanaryService canary) = true \/
          name = StableService canary \/ name = CanaryService canary
      | _ => True
      end
  | None, None => False
  end.

Lemma all_chosen_empty named : all_chosen named ∅.
Proof. intros name ws Hl. by rewrite lookup_empty in Hl. Qed.

Lemma all_chosen_weaken (P Q : string -> Prop) m : (forall n, P n -> Q n) -> all_chosen P m -> all_chosen Q m.
Proof. intros HPQ Hm name ws Hl. destruct (Hm _ _ Hl) as (?&?&?&?&?). split_and!; auto. Qed.

Lemma all_chosen_add named weight svc m :
  svc ∈ services -> rollout_service rollout svc = true -> 0 < weight -> named (Name (SvcMeta svc)) ->
  all_chosen named m -> all_chosen named (add_service weight svc m).
Proof.
  intros Hin Hm Hw Hn Ha name ws. unfold add_service. rewrite lookup_insert_Some.
  intros [[<- <-]|[_ Hl]]; [by split_and!|by apply Ha].
Qed.

Lemma all_chosen_one named svc :
  svc ∈ services -> rollout_service rollout svc = true -> named (Name (SvcMeta svc)) ->
  all_chosen named (one_service 1 svc).
Proof. intros ???. apply (all_chosen_add named 1 svc ∅); [done..|apply all_chosen_empty]. Qed.

Lemma all_chosen_foldl named (f : gmap string WeightedService -> ServiceObj -> gmap string WeightedService) l m :
  (forall m svc, svc ∈ services -> svc ∈ l -> all_chosen named m -> all_chosen named (f m svc)) ->
  (forall svc, svc ∈ l -> svc ∈ services) -> all_chosen named m -> all_chosen named (foldl f m l).
Proof.
  revert m. induction l as [|svc l IH]; intros m Hf Hl Hm; [done|]. cbn. apply IH.
  - intros m' svc' Hs Hs'. apply Hf; [done|by apply list_elem_of_further].
  - intros svc' Hs. by apply Hl, list_elem_of_further.
  - apply Hf; [apply Hl| |done]; apply list_elem_of_here.
Qed.

Lemma named_service_chosen name m :
  named_service rollout name services = Some m -> all_chosen (fun n => n = name) m.
Proof.
  unfold named_service. destruct (List.find _ _) as [svc|] eqn:E; [|done]. intros [= <-].
  apply find_some in E as [Hin Hc]. apply andb_true_iff in Hc as [Hn Hm].
  apply all_chosen_one; [by apply list_elem_of_In|done|by apply seqb_eq].
Qed.

Lemma generic_services_chosen active preview :
  all_chosen (fun n => is_empty active = true \/ n = active \/ n = preview)
    (generic_services rollout active preview services).
Proof.
  unfold generic_services. set (P := fun n => is_empty active = true \/ _).
  set (l := List.filter _ services).
  assert (forall svc, svc ∈ l -> svc ∈ services /\ rollout_service rollout svc = true /\ P (Name (SvcMeta svc))) as Hl.
  { intros svc Hs. apply list_elem_of_In, filter_In in Hs as [Hin Hc]. apply andb_true_iff in Hc as [Hn Hm].
    split_and!; [by apply list_elem_of_In|done|]. unfold P. rewrite negb_true_iff in Hn.
    destruct (is_empty active); [by left|]. right. cbn in Hn.
    destruct (Name (SvcMeta svc) =?s active) eqn:Ea; [by left; apply seqb_eq|].
    destruct (Name (SvcMeta svc) =?s preview) eqn:Ep; [by right; apply seqb_eq|done]. }
  destruct (BlueGreen (RoStrategy rollout)).
  - apply all_chosen_foldl; [|intros; by apply Hl|apply all_chosen_empty].
    intros m svc _ (?&?&?)%Hl Hm. by apply all_chosen_add.
  - destruct l as [|svc l']; [apply all_chosen_empty|].
    destruct (Hl svc) as (?&?&?); [apply list_elem_of_here|]. by apply all_chosen_one.
Qed.

Definition positive (weights : gmap string Z) : Prop := map_Forall (fun _ v => 0 < v) weights.

Lemma weighted_services_chosen weights (named : string -> Prop) :
  positive weights -> (forall n, is_Some (weights !! n) -> named n) ->
  all_chosen named (weighted_services rollout weights services).
Proof.
  intros Hp Hn. unfold weighted_services. apply all_chosen_foldl; [|done|apply all_chosen_empty].
  intros m svc Hs _ Hm. destruct (rollout_service rollout svc) eqn:Er; [|done].
  destruct (weights !! Name (SvcMeta svc)) as [v|] eqn:Ew; [|done].
  apply all_chosen_add; [done|done|by eapply Hp|apply Hn; by eexists|done].
Qed.

(** The weights of the route: positive, of the canary and the stable service only. *)
Lemma route_weights_spec canary stable route weights :
  positive weights -> (forall n, is_Some (weights !! n) -> n = stable \/ n = canary) ->
  positive (route_weights canary stable route weights) /\
  (forall n, is_Some (route_weights canary stable route weights !! n) -> n = stable \/ n = canary).
Proof.
  unfold route_weights. revert weights. induction (hrRoute route) as [|d l IH]; intros weights Hp Hn; [done|].
  cbn. apply IH; destruct (_ && _) eqn:E; try done; apply andb_true_iff in E as [Eh Ew].
  - apply map_Forall_insert_2; [lia|done].
  - intros n. rewrite lookup_insert_is_Some'. intros [<-|Hs]; [|by apply Hn].
    apply orb_true_iff in Eh as [E|E]; apply seqb_eq in E; auto.
Qed.

Context {St : Type} {vsClient : KubeClient St VirtualServiceObj} (vs_on_error : option VirtualServiceObj).

Lemma istioCanaryWeights_spec canary ref w weights w' :
  istioCanaryWeights vs_on_error rollout canary ref w = Some (weights, w') ->
  positive weights /\ (forall n, is_Some (weights !! n) -> n = StableService canary \/ n = CanaryService canary).
Proof.
  set (P := fun weights : gmap string Z => positive weights /\
    (forall n, is_Some (weights !! n) -> n = StableService canary \/ n = CanaryService canary)).
  assert (P {[StableService canary := 1]}) as H1.
  { split; [apply map_Forall_singleton; lia|]. intros n [v Hl]. by apply lookup_singleton_Some in Hl as [-> _]; left. }
  unfold istioCanaryWeights, wbnd, wret, on_api.
  destruct ref as [ref|]; [|by intros [= <- _]].
  destruct (is_empty _); [by intros [= <- _]|].
  destruct (api_get _ _ _) as [s [vs|err]]; [|destruct vs_on_error as [vs|]; [|by intros [= <- _]]];
    (destruct (canary_route _ _); intros [= <- _]; [|done]; by apply route_weights_spec; apply H1).
Qed.
End Lemmas.

Section Sound.
Context {range : GoRange} {sorting : GoSort}.
Context {St : Type} {vsClient : KubeClient St VirtualServiceObj} (vs_on_error : option VirtualServiceObj).

(** Every service that [getServiceForRollout] returns for a rollout is a cached
    service of the rollout's namespace, is stored under its own name, matches the
    rollout's selector, has a mesh port and has a positive weight; and it is one that the
    strategy of the rollout names, when the strategy gives names: the active or the
    preview service, or the stable or the canary service.  Without a selector, services
    or a strategy there are none. *)
Theorem rollout_services_sound (rc : RemoteController) (rollout : RolloutObj) (services : list ServiceObj)
    (w w' : world St) (m : gmap string WeightedService) :
  cached_services rc (Namespace (RoMeta rollout)) = Some services ->
  getServiceForRollout vs_on_error rc rollout w = Some (m, w') ->
  all_chosen rollout services (strategy_name rollout) m.
Proof.
  intros Hs. unfold getServiceForRollout, strategy_name. rewrite Hs.
  destruct (negb _); [intros [= <- _]; apply all_chosen_empty|].
  destruct (BlueGreen (RoStrategy rollout)) as [bg|] eqn:Ebg.
  { intros [= <- _]. eapply all_chosen_weaken; [|apply generic_services_chosen]. intros n. cbn. unfold or_else.
    destruct (is_empty (ActiveService bg)) eqn:E; [by left|]. rewrite E. auto. }
  destruct (Canary (RoStrategy rollout)) as [canary|] eqn:Ec; [|intros [= <- _]; apply all_chosen_empty].
  assert (forall P : string -> Prop, (forall n, P n) -> all_chosen rollout services P (generic_services rollout "" "" services)) as Hg.
  { intros P HP. eapply all_chosen_weaken; [|apply generic_services_chosen]. auto. }
  assert (forall (P : string -> Prop) o, (forall n, P n) -> (forall m, o = Some m -> exists Q, all_chosen rollout services Q m) ->
    all_chosen rollout services P (default (generic_services rollout "" "" services) o)) as Hd.
  { intros P [m'|] HP Ho; [|by apply Hg]. destruct (Ho _ eq_refl) as [Q HQ]. by eapply all_chosen_weaken; [|apply HQ]. }
  destruct (TrafficRouting canary) as [[ref|]|].
  2,3: (intros [= <- _]; apply Hd; [done|]; unfold plain_canary_services; intros m'; destruct (is_empty _); [done|];
        intros Hn; eexists; by apply named_service_chosen in Hn).
  destruct (negb (is_empty (StableService canary)) && _) eqn:E.
  - unfold wbnd, wret. destruct (istioCanaryWeights _ _ _ _ _) as [[weights w1]|] eqn:Ew; [|done].
    intros [= <- _]. apply istioCanaryWeights_spec in Ew as [Hp Hn].
    eapply weighted_services_chosen; [done|]. intros n [|]%Hn; auto.
  - intros [= <- _]. apply Hd.
    + intros n. left. by destruct (is_empty (StableService canary)), (is_empty (CanaryService canary)).
    + intros m'. destruct (is_empty _); [done|]. intros Hn. eexists. by apply named_service_chosen in Hn.
Qed.
End Sound.

(** A canary with Istio's traffic routing: the weights are those of its virtual service. *)
Definition canary_rollout : RolloutObj :=
  mkRollout (mkMeta "foo" "ns" None None 0 "1") (mkTemplate None None)
    (Some (mkSelector (Some {[ "app" := "foo" ]})))
    (mkStrategy None (Some (mkCanary "stable" "canary" (Some (Some (Some (mkIstioVS "vs" []))))))) None 1 "".
Definition service_named (name : string) : ServiceObj :=
  mkService (mkMeta name "ns" None None 0 "1") [mkSvcPort "http" 80 (mkIntOrString 80 "") 0] (Some {[ "app" := "foo" ]}) [] [].
Definition canary_cluster : RemoteController :=
  mkRC "c1" (Some (Some (foldl ServiceCache_Put ∅ [service_named "stable"; service_named "canary"; service_named "other"])))
    None.
Definition canary_vs : VirtualServiceObj :=
  mkVirtualServiceObj (mkMeta "vs" "ns" None None 0 "1") (mkVirtualService ["foo.ns"] []
    [mkHTTPRoute "" [] [mkRouteDestination (mkDestination "stable" "" None) 90 None;
                        mkRouteDestination (mkDestination "canary" "" None) 10 None] ""] [] []).
#[local] Instance one_vs : KubeClient unit VirtualServiceObj := {|
  api_create _ _ s := (s, None);
  api_update _ _ s := (s, None);
  api_delete _ _ s := (s, None);
  api_get _ _ s := (s, inl canary_vs)
|}.
Definition canary_world : world unit :=
  mkWorld tt (mkHeap ∅ ∅ 0 ∅) (mkAdmiralCaches (mkCachePointers None None None None None) None None None None)
    empty_store ∅.

Lemma rollout_services_sound_witness :
  let m := {[ "stable" := mkWeighted 90 (service_named "stable"); "canary" := mkWeighted 10 (service_named "canary") ]} in
  all_chosen canary_rollout (default [] (cached_services canary_cluster "ns")) (strategy_name canary_rollout) m.
Proof.
  intros m. apply (rollout_services_sound None canary_cluster canary_rollout _ canary_world canary_world);
    by vm_compute.
Defined.
