(* ===== verification/SeState.v ===== *)
(** * What the processing of an identity works on

    The state of [modifyServiceEntryForNewServiceOrPod] ([clusters/serviceentry.go]) and
    the steps it is made of: the service entries of a deployment or a rollout
    ([createServiceEntryForDeployment], [createServiceEntryForRollout]), the caches of the
    dependents ([updateCnameDependentClusterNamespaceCache]), the sidecars of the local
    clients ([modifySidecarForLocalClusterCommunication], with [SidecarEgressMap] of
    [controller/common/types.go]) and the choice of additional endpoints. *)
From S2P Require Import Prelude GoStrings Config Objects Metadata ServiceCache Policies AddressStore.
From S2P Require Import DestinationRules Writers ServiceEntries Caches Dependents World VirtualServices.
From S2P Require Import VsRouting Worker ClusterWriter Controller ResourceController IstioCaches RoutingRules.
From S2P Require Import RoutingWriter ServiceLookup.
From stdpp Require Import options.
Local Open Scope Z_scope.
Local Open Scope world_scope.

(** ** The sidecars' egress hosts *)

Record SidecarEgress := mkSidecarEgress { egNamespace : string; FQDN : string; CNAMEs : gmap string string }.

(** By identity and namespace.  The map of names is a copy of the caller's. *)
Abbreviation SidecarEgressMap := (gmap string (gmap string SidecarEgress)).

Definition SidecarEgressMap_Put (s : SidecarEgressMap) (identity namespace fqdn : string) (cnames : gmap string string)
    : SidecarEgressMap :=
  <[identity := <[namespace := mkSidecarEgress namespace fqdn cnames]> (default ∅ (s !! identity))]> s.
Definition SidecarEgressMap_Get (s : SidecarEgressMap) (key : string) : option (gmap string SidecarEgress) := s !! key.
Definition SidecarEgressMap_Delete (s : SidecarEgressMap) (key : string) : SidecarEgressMap := delete key s.

(** ** The state *)

(** The API servers, and what the fields of [AdmiralCache] hold that are not on the heap:
    [CnameClusterCache] with the clusters that have a network load balancer,
    [IdentitiesWithAdditionalEndpoints], [DependencyNamespaceCache], the policies in use
    and [DynamoDbEndpointUpdateCache]. *)
Record proc_state (St : Type) := mkProc {
  pc_api : St;
  pc_cnames : AdmiralCache;
  pc_additional : gset string;
  pc_egress : SidecarEgressMap;
  pc_gtps : identityCache GlobalTrafficPolicy;
  pc_ods : identityCache OutlierDetectionCrd;
  pc_cccs : identityCache ClientConnectionConfig;
  pc_shas : gmap string string
}.
Arguments mkProc {St} _ _ _ _ _ _ _ _.
Arguments pc_api {St} _.
Arguments pc_cnames {St} _.
Arguments pc_additional {St} _.
Arguments pc_egress {St} _.
Arguments pc_gtps {St} _.
Arguments pc_ods {St} _.
Arguments pc_cccs {St} _.
Arguments pc_shas {St} _.
#[export] Instance eta_proc_state St : Settable (proc_state St) := fun s =>
  mkProc (pc_api s) (pc_cnames s) (pc_additional s) (pc_egress s) (pc_gtps s) (pc_ods s) (pc_cccs s) (pc_shas s).

(** The state that the routing works on. *)
Abbreviation proc_world St := (routing_state (proc_state St)).

Definition on_pc_api {St A} (f : St -> St * A) (s : proc_state St) : proc_state St * A :=
  let '(api, a) := f (pc_api s) in (s <| pc_api := api |>, a).

Definition proc_client {St Obj} (client : KubeClient St Obj) : KubeClient (proc_state St) Obj := {|
  api_create ns o := on_pc_api (api_create ns o);
  api_update ns o := on_pc_api (api_update ns o);
  api_delete ns n := on_pc_api (api_delete ns n);
  api_get ns n := on_pc_api (api_get ns n)
|}.

Definition proc_configmap {St} (client : ConfigMapClient St) : ConfigMapClient (proc_world St) := {|
  cm_get := on_rs_api (on_pc_api cm_get);
  cm_create := on_rs_api (on_pc_api cm_create);
  cm_update o := on_rs_api (on_pc_api (cm_update o))
|}.

Section State.
Context {St : Type}.
Definition get_proc : W (proc_world St) (proc_state St) := on_api (fun s => (s, rs_api s)).
Definition update_proc (f : proc_state St -> proc_state St) : W (proc_world St) unit :=
  on_api (fun s => (s <| rs_api := f (rs_api s) |>, tt)).
End State.

(** ** The caches of an identity *)

Section Caches.
Context {range : GoRange} {St : Type} (p : AdmiralParams).

Definition UpdateIdentityClusterCache (identity clusterId : string) : W St unit :=
  c <- get_caches;;
  match IdentityClusterCache (pointers c) with
  | None => wret tt
  | Some _ => on_heap (MapOfMaps_Put (IdentityClusterCache (pointers c)) identity clusterId clusterId)
  end.

(** The namespaces of a dependent in a cluster are added to those of the name. *)
Definition put_dependent_namespaces (ps : CachePointers) (dependentId cname clusterId : string) : W St unit :=
  if negb (EnableSWAwareNSCaches p) || is_nil (IdentityClusterNamespaceCache ps) then wret tt
  else
    identityClusterNamespaces <- on_heap (MapOfMapOfMaps_Get (IdentityClusterNamespaceCache ps) dependentId);;
    clusterNamespaces <- (if is_nil identityClusterNamespaces then wret None
                          else on_heap (MapOfMaps_Get identityClusterNamespaces clusterId));;
    namespaceIds <- (if is_nil clusterNamespaces then wret [] else on_heap (Map_GetValues clusterNamespaces));;
    if is_nil (CnameDependentClusterNamespaceCache ps) then wret tt
    else witer (fun namespaceId =>
           on_heap (MapOfMapOfMaps_Put (CnameDependentClusterNamespaceCache ps) cname clusterId namespaceId namespaceId))
         namespaceIds.

(** A cluster of a dependent, unless it is a cluster of the identity itself. *)
Definition put_dependent_cluster (ps : CachePointers) (sourceClusters : gset string)
    (dependentId cname clusterId : string) : W St unit :=
  (if decide (clusterId ∈ sourceClusters)
   then on_heap (MapOfMaps_DeleteMap (CnameDependentClusterCache ps) cname clusterId)
   else on_heap (MapOfMaps_Put (CnameDependentClusterCache ps) cname clusterId clusterId)) ;;;
  put_dependent_namespaces ps dependentId cname clusterId.

Definition put_dependent (ps : CachePointers) (sourceClusters : gset string) (cname dependentId : string) : W St unit :=
  if is_nil (IdentityClusterCache ps) then wret tt
  else
    identityClusters <- on_heap (MapOfMaps_Get (IdentityClusterCache ps) dependentId);;
    clusterIds <- (if is_nil identityClusters then wret [] else on_heap (Map_GetValues identityClusters));;
    if is_nil (CnameDependentClusterCache ps) then wret tt
    else witer (put_dependent_cluster ps sourceClusters dependentId cname) clusterIds.

(** [sourceClusters] are the keys of [clusterResourceTypeServiceMap]. *)
Definition updateCnameDependentClusterNamespaceCache (dependents : gomap) (cname : string)
    (sourceClusters : gset string) : W St unit :=
  match dependents with
  | None => wret tt
  | Some dependents =>
      c <- get_caches;;
      witer (fun kv => put_dependent (pointers c) sourceClusters cname kv.1) (go_range 0 dependents)
  end.
End Caches.

(** ** Additional endpoints *)

Definition doesContainLabel (labels : gmap string string) (allowedLabels : list string) : bool :=
  existsb (fun filter => negb (is_nil (labels !! filter))) allowedLabels.

(** The labels of the deployment of the cluster, or of its rollout. *)
Definition fetchResourceLabel (sourceDeployments : gmap string DeploymentObj) (sourceRollouts : gmap string RolloutObj)
    (cluster : string) : option (gmap string string) :=
  match sourceDeployments !! cluster, sourceRollouts !! cluster with
  | Some d, _ => Some (default ∅ (Labels (DepMeta d)))
  | None, Some r => Some (default ∅ (Labels (RoMeta r)))
  | None, None => None
  end.

Section Endpoints.
Context {range : GoRange} {St : Type} (p : AdmiralParams).

Definition doGenerateAdditionalEndpoints (labels : gmap string string) (identity : string)
    : W (proc_world St) bool :=
  if is_nil (head (GetAdditionalEndpointSuffixes p)) then wret false
  else
    let filters := GetAdditionalEndpointLabelFilters p in
    if str_in "*" filters then wret true
    else if doesContainLabel labels filters
    then update_proc (fun s => s <| pc_additional := {[ identity ]} ∪ pc_additional s |>) ;;; wret true
    else
      c <- get_caches;;
      dependents <- on_heap (MapOfMaps_Get (IdentityDependencyCache c) identity);;
      values <- (if is_nil dependents then wret [] else on_heap (Map_GetValues dependents));;
      s <- get_proc;;
      wret (existsb (fun dependent => bool_decide (dependent ∈ pc_additional s)) values).
End Endpoints.

(** ** Service entries of a workload *)

Section Create.
Context {range : GoRange} {sorting : GoSort} {yaml : Yaml} {St : Type} {addressClient : ConfigMapClient St}.
Context (p : AdmiralParams) (ip_prefix : string).
Context (vs_on_error : option VirtualServiceObj) (vsClients : string -> KubeClient St VirtualServiceObj).

Definition unique_address (fqdn : string) : W (proc_world St) (string * error) :=
  on_addresses (fun '(s, store) => getUniqueAddress (client := proc_configmap addressClient) p ip_prefix fqdn store s).

(** [generateServiceEntry] on the shared cache and the map of the entries. *)
Definition generate_service_entry (event : EventType) (meshPorts : gmap string Z) (globalFqdn : string)
    (rc : RemoteController) (serviceEntries : gmap string ServiceEntry) (address : string) (san : list string)
    (appType : string) : W (proc_world St) (gmap string ServiceEntry) :=
  s <- get_proc;;
  let '(c, serviceEntries, _) := generateServiceEntry p event (pc_cnames s) meshPorts globalFqdn rc serviceEntries
                                   address san appType in
  update_proc (fun s => s <| pc_cnames := c |>) ;;;
  wret serviceEntries.

(** An entry needs a name, and an address unless none are given out. *)
Definition entry_possible (fqdn address : string) : bool :=
  negb (is_empty fqdn) && (DisableIPGeneration p || negb (is_empty address)).

Definition createServiceEntryForDeployment (event : EventType) (rc : RemoteController) (meshPorts : gmap string Z)
    (destDeployment : DeploymentObj) (serviceEntries : gmap string ServiceEntry)
    : W (proc_world St) (gmap string ServiceEntry * error) :=
  let globalFqdn := GetCname p destDeployment (GetWorkloadIdentifier p) (GetHostnameSuffix p) in
  '(address, err) <- unique_address globalFqdn;;
  match err with
  | Some _ => wret (serviceEntries, err)
  | None =>
      if negb (entry_possible globalFqdn address) then wret (serviceEntries, None)
      else
        let san := getSanForDeployment p destDeployment (GetWorkloadIdentifier p) in
        serviceEntries <- generate_service_entry event meshPorts globalFqdn rc serviceEntries address san DeploymentType;;
        wret (serviceEntries, None)
  end.

Definition generateSECanary (event : EventType) (rc : RemoteController) (meshPorts : gmap string Z)
    (serviceEntries : gmap string ServiceEntry) (san : list string) (fqdn : string)
    : W (proc_world St) (gmap string ServiceEntry * error) :=
  '(address, err) <- unique_address fqdn;;
  match err with
  | Some _ => wret (serviceEntries, err)
  | None =>
      if negb (entry_possible fqdn address) then wret (serviceEntries, None)
      else
        serviceEntries <- generate_service_entry event meshPorts fqdn rc serviceEntries address san RolloutType;;
        wret (serviceEntries, None)
  end.

Definition GenerateServiceEntryForCanary (event : EventType) (rc : RemoteController) (meshPorts : gmap string Z)
    (destRollout : RolloutObj) (serviceEntries : gmap string ServiceEntry) (workloadIdentityKey : string)
    (san : list string) : W (proc_world St) (gmap string ServiceEntry * error) :=
  match canary_istio destRollout with
  | None => wret (serviceEntries, None)
  | Some canary =>
      match GetAllServicesForRollout rc destRollout with
      | None => wpanic
      | Some rolloutServices =>
          match rolloutServices !! CanaryService canary with
          | None => wret (serviceEntries, None)
          | Some _ =>
              let canaryGlobalFqdn := CanaryRolloutCanaryPrefix +:+ Sep +:+
                GetCnameForRollout p destRollout workloadIdentityKey (GetHostnameSuffix p) in
              CnameIdentityCache_Store canaryGlobalFqdn (GetRolloutGlobalIdentifier p destRollout) ;;;
              generateSECanary event rc meshPorts serviceEntries san canaryGlobalFqdn
          end
      end
  end.

(** The client of the cluster's virtual services, on the whole state. *)
Definition proc_vs (rc : RemoteController) : KubeClient (proc_world St) VirtualServiceObj :=
  routing_client (proc_client (vsClients (ClusterID rc))).

Definition rollout_services (rc : RemoteController) (rollout : RolloutObj)
    : W (proc_world St) (gmap string WeightedService) :=
  getServiceForRollout (vsClient := proc_vs rc) vs_on_error rc rollout.

(** The entry of the preview service, whose address may come with an error. *)
Definition preview_entry (event : EventType) (rc : RemoteController) (meshPorts : gmap string Z)
    (destRollout : RolloutObj) (serviceEntries : gmap string ServiceEntry) (san : list string)
    : W (proc_world St) (gmap string ServiceEntry) :=
  match BlueGreen (RoStrategy destRollout) with
  | None => wret serviceEntries
  | Some bg =>
      if is_empty (PreviewService bg) then wret serviceEntries
      else
        rolloutServices <- rollout_services rc destRollout;;
        match rolloutServices !! PreviewService bg with
        | None => wret serviceEntries
        | Some _ =>
            let previewGlobalFqdn := BlueGreenRolloutPreviewPrefix +:+ Sep +:+
              GetCnameForRollout p destRollout (GetWorkloadIdentifier p) (GetHostnameSuffix p) in
            CnameIdentityCache_Store previewGlobalFqdn (GetRolloutGlobalIdentifier p destRollout) ;;;
            '(previewAddress, _) <- unique_address previewGlobalFqdn;;
            if entry_possible previewGlobalFqdn previewAddress
            then generate_service_entry event meshPorts previewGlobalFqdn rc serviceEntries previewAddress san RolloutType
            else wret serviceEntries
        end
  end.

Definition createServiceEntryForRollout (event : EventType) (rc : RemoteController) (meshPorts : gmap string Z)
    (destRollout : RolloutObj) (serviceEntries : gmap string ServiceEntry)
    : W (proc_world St) (gmap string ServiceEntry * error) :=
  let globalFqdn := GetCnameForRollout p destRollout (GetWorkloadIdentifier p) (GetHostnameSuffix p) in
  '(address, err) <- unique_address globalFqdn;;
  match err with
  | Some _ => wret (serviceEntries, err)
  | None =>
      if negb (entry_possible globalFqdn address) then wret (serviceEntries, None)
      else
        let san := getSanForRollout p destRollout (GetWorkloadIdentifier p) in
        serviceEntries <- preview_entry event rc meshPorts destRollout serviceEntries san;;
        '(serviceEntries, err) <- GenerateServiceEntryForCanary event rc meshPorts destRollout serviceEntries
                                    (GetWorkloadIdentifier p) san;;
        match err with
        | Some _ => wret (serviceEntries, err)
        | None =>
            serviceEntries <- generate_service_entry event meshPorts globalFqdn rc serviceEntries address san RolloutType;;
            wret (serviceEntries, None)
        end
  end.
End Create.

(** ** Sidecars of the local clients *)

Section Sidecars.
Context {range : GoRange} {St : Type} (p : AdmiralParams) (readOnly : bool).
Context (sidecarClients : string -> KubeClient St SidecarObj) (is_invalid : string -> bool).

(** The hosts that the identity's dependencies need; the key of a host is the host. *)
Definition egress_hosts (sidecarEgress : gmap string SidecarEgress) : gmap string string :=
  foldl (fun hosts ne =>
    let eg := ne.2 in
    let egressHost := egNamespace eg +:+ "/" +:+ FQDN eg in
    foldl (fun hosts kv => let scopedCname := egNamespace eg +:+ "/" +:+ kv.1 in <[scopedCname := scopedCname]> hosts)
      (<[egressHost := egressHost]> hosts) (go_range 1 (CNAMEs eg)))
    ∅ (go_range 0 sidecarEgress).

(** The hosts that the listener does not have yet are appended. *)
Definition add_egress_hosts (egressHosts : gmap string string) (hosts : list string) : list string :=
  foldl (fun hosts kv => if str_in kv.1 hosts then hosts else hosts ++ [kv.1]) hosts (go_range 2 egressHosts).

(** The sidecar controller is nil when the cluster has no cache of sidecars; a nil and an
    empty list of listeners are one. *)
Definition modifySidecarForLocalClusterCommunication (sidecarNamespace sourceIdentity : string)
    (sidecarEgressMap : SidecarEgressMap) (rc : option RemoteController) : W (proc_world St) error :=
  match rc with
  | None => wret (Some "skipped modifying sidecar resource as remoteController object is nil")
  | Some rc =>
      s <- get_state;;
      match SidecarEgressMap_Get sidecarEgressMap sourceIdentity, rs_sidecars s !! ClusterID rc with
      | Some sidecarEgress, Some _ =>
          r <- on_api (api_get (KubeClient := routing_client (proc_client (sidecarClients (ClusterID rc))))
                         sidecarNamespace (GetWorkloadSidecarName p));;
          match r with
          | inr _ => wret None
          | inl sidecar =>
              let spec := copySidecar sidecar in
              match sdEgress spec with
              | [] => wret None
              | listener :: rest =>
                  let hosts := add_egress_hosts (egress_hosts sidecarEgress) (elHosts listener) in
                  let spec := mkSidecar (sdWorkloadSelector spec) (sdIngress spec)
                                (mkEgress hosts (elOther listener) :: rest) (sdOthers spec) in
                  send_sidecar readOnly (fun c => proc_client (sidecarClients c)) is_invalid (ClusterID rc)
                    (createSidecarSkeleton spec (GetWorkloadSidecarName p) sidecarNamespace) sidecar sidecarNamespace ;;;
                  wret None
              end
          end
      | _, _ => wret None
      end
  end.
End Sidecars.
