(* ===== verification/RegistryConfig.v ===== *)
(** * The configuration of an identity in the registry

    The data of [registry/config.go], and the parts of it that a state syncer makes of a
    cluster's services: [getLocality], [getIngressPortName], [parseWeightedService] and
    [parseMigrationService] of [clusters/util.go], and the literals of
    [modifyServiceEntryForNewServiceOrPod].  [GatherServiceEntries.v] and
    [ModifyServiceEntry.v] build the configuration, [IdentityConfigs.v] and
    [ShardHandler.v] are its readers. *)
From S2P Require Import Prelude GoStrings Config Objects Metadata ServiceCache ServiceEntries.
From stdpp Require Import options.
Local Open Scope Z_scope.

(** ** The data; pointers in it are not nil *)

Record RegistryServiceConfig := mkRegistryService {
  rsName : string;
  rsWeight : Z;
  rsPorts : gmap string Z;
  rsSelectors : gomap
}.

Record TypeConfig := mkTypeConfig { tcStrategy : string; tcSelectors : gomap }.

(** The map of services may be nil; the event is empty unless the environment was deleted. *)
Record IdentityConfigEnvironment := mkIdentityEnvironment {
  ieName : string;
  ieNamespace : string;
  ieServiceMap : option (gmap string (list RegistryServiceConfig));
  ieServiceName : string;
  ieTypeConfigs : gmap string TypeConfig;
  iePorts : list ServicePort;
  iePolicy : GlobalTrafficPolicy;
  ieOutlier : OutlierDetectionCrd;
  ieConnection : ClientConnectionConfig;
  ieEvent : option EventType
}.
#[export] Instance eta_IdentityConfigEnvironment : Settable IdentityConfigEnvironment := fun e =>
  mkIdentityEnvironment (ieName e) (ieNamespace e) (ieServiceMap e) (ieServiceName e) (ieTypeConfigs e) (iePorts e)
    (iePolicy e) (ieOutlier e) (ieConnection e) (ieEvent e).

Record IdentityConfigCluster := mkIdentityCluster {
  icName : string;
  icLocality : string;
  icIngressEndpoint : string;
  icIngressPort : string;
  icIngressPortName : string;
  icEnvironment : gmap string IdentityConfigEnvironment
}.
#[export] Instance eta_IdentityConfigCluster : Settable IdentityConfigCluster := fun c =>
  mkIdentityCluster (icName c) (icLocality c) (icIngressEndpoint c) (icIngressPort c) (icIngressPortName c)
    (icEnvironment c).

Record IdentityConfig := mkIdentityConfig {
  IdentityName : string;
  icClusters : gmap string IdentityConfigCluster;
  ClientAssets : gmap string string
}.
#[export] Instance eta_IdentityConfig : Settable IdentityConfig := fun c =>
  mkIdentityConfig (IdentityName c) (icClusters c) (ClientAssets c).

Definition bluegreenStrategy := "bluegreen".
Definition canaryStrategy := "canary".
Definition testServiceKey := "test".
Definition defaultServiceKey := "default".

(** A nil map of services reads as an empty one; the strategies of the types. *)
Definition ieServices (env : IdentityConfigEnvironment) : gmap string (list RegistryServiceConfig) :=
  default ∅ (ieServiceMap env).
Definition ieTypes (env : IdentityConfigEnvironment) : gmap string string := tcStrategy <$> ieTypeConfigs env.

(** The zero values of the policies. *)
Definition zero_meta : ObjectMeta := mkMeta "" "" None None 0 "".
Definition zero_gtp : GlobalTrafficPolicy := mkGTP zero_meta [] None.
Definition zero_od : OutlierDetectionCrd := mkOD zero_meta None None.
Definition zero_ccc : ClientConnectionConfig := mkCCC zero_meta None.

(** ** What is stored for a cluster *)

Definition getLocality (rc : RemoteController) : string := default "" (Locality rc).

Section Cluster.
Context {range : GoRange}.

(** The cluster without its environments and the name of its port. *)
Definition new_config_cluster (clusterId ingressEndpoint : string) (port : Z) (rc : RemoteController)
    : IdentityConfigCluster :=
  mkIdentityCluster clusterId (getLocality rc) ingressEndpoint (itoa port) "" ∅.

(** The environment of a workload of a type, with the selectors of the workload. *)
Definition new_config_environment (env namespace typ : string) (selectors : gomap) : IdentityConfigEnvironment :=
  mkIdentityEnvironment env namespace (Some ∅) "" {[ typ := mkTypeConfig "" selectors ]} [] zero_gtp zero_od zero_ccc
    None.

(** What is left of it when the workload was deleted. *)
Definition deleted_environment (env namespace typ : string) (selectors : gomap) : IdentityConfigEnvironment :=
  mkIdentityEnvironment env namespace None "" {[ typ := mkTypeConfig "" selectors ]} [] zero_gtp zero_od zero_ccc
    (Some Delete).

(** The last protocol of the range. *)
Definition getIngressPortName (meshPorts : gmap string Z) : string := foldl (fun _ kv => kv.1) Http (go_range 5 meshPorts).

(** [TrafficPolicy] and [Ports]; mesh ports are never empty, so that the port is not nil. *)
Definition set_config_policies (meshPorts : gmap string Z) (gtp : option GlobalTrafficPolicy)
    (od : option OutlierDetectionCrd) (ccc : option ClientConnectionConfig) (e : IdentityConfigEnvironment)
    : IdentityConfigEnvironment :=
  e <| iePorts := match getServiceEntryPort meshPorts with Some port => [port] | None => [] end |>
    <| iePolicy := default zero_gtp gtp |> <| ieOutlier := default zero_od od |> <| ieConnection := default zero_ccc ccc |>.

(** [Services[key] = services], which panics on a nil map. *)
Definition set_services (key : string) (services : list RegistryServiceConfig) (e : IdentityConfigEnvironment)
    : option IdentityConfigEnvironment :=
  m ← ieServiceMap e; Some (e <| ieServiceMap := Some (<[key := services]> m) |>).

(** [Type[common.Rollout].Strategy = strategy], which panics without the type. *)
Definition set_strategy (strategy : string) (e : IdentityConfigEnvironment) : option IdentityConfigEnvironment :=
  t ← ieTypeConfigs e !! RolloutType;
  Some (e <| ieTypeConfigs := <[RolloutType := mkTypeConfig strategy (tcSelectors t)]> (ieTypeConfigs e) |>).

Definition registry_service (name : string) (weight : Z) (ports : gmap string Z) (service : ServiceObj)
    : RegistryServiceConfig := mkRegistryService name weight ports (SvcSelector service).

Definition parseWeightedService (weightedServices : gmap string WeightedService) (meshPorts : gmap string Z)
    : list RegistryServiceConfig :=
  flat_map (fun kv => if wsWeight kv.2 <=? 0 then []
                      else [registry_service (Name (SvcMeta (wsService kv.2))) (wsWeight kv.2) meshPorts (wsService kv.2)])
    (go_range 6 weightedServices).

(** [None] is the panic on a service that is missing. *)
Definition parseMigrationService (migrationServices : gmap string ServiceObj) (meshPorts : gmap string (gmap string Z))
    : option (list RegistryServiceConfig) :=
  deployment ← migrationServices !! DeploymentType;
  rollout ← migrationServices !! RolloutType;
  let config typ service := registry_service (Name (SvcMeta service)) 0 (default ∅ (meshPorts !! typ)) service in
  Some [config DeploymentType deployment; config RolloutType rollout].

(** A service of a blue/green strategy, if it is one of the rollout's. *)
Definition set_blue_green_service (key name : string) (weighted : gmap string WeightedService) (rollout : RolloutObj)
    (e : IdentityConfigEnvironment) : option IdentityConfigEnvironment :=
  match weighted !! name with
  | None => Some e
  | Some ws =>
      set_services key [registry_service name 0 (default ∅ (GetMeshPortsForRollout (Some (wsService ws)) (Some rollout)))
                          (wsService ws)] e
  end.
Definition set_blue_green (bg : BlueGreenStrategy) (weighted : gmap string WeightedService) (rollout : RolloutObj)
    (e : IdentityConfigEnvironment) : option IdentityConfigEnvironment :=
  e ← set_blue_green_service defaultServiceKey (ActiveService bg) weighted rollout e;
  e ← set_blue_green_service testServiceKey (PreviewService bg) weighted rollout e;
  set_strategy bluegreenStrategy e.

Definition set_canary (canaryService : string) (meshPorts : gmap string Z) (service : ServiceObj)
    (e : IdentityConfigEnvironment) : option IdentityConfigEnvironment :=
  e ← set_services testServiceKey [registry_service canaryService 0 meshPorts service] e;
  set_strategy canaryStrategy e.

(** The environment of a cluster in the configuration, which has to be there. *)
Definition at_environment (cluster env : string) (f : IdentityConfigEnvironment -> option IdentityConfigEnvironment)
    (config : IdentityConfig) : option IdentityConfig :=
  c ← icClusters config !! cluster;
  e ← icEnvironment c !! env;
  e' ← f e;
  Some (config <| icClusters := <[cluster := c <| icEnvironment := <[env := e']> (icEnvironment c) |>]> (icClusters config) |>).
End Cluster.

#[local] Arguments set_blue_green_service : simpl never.
