(* ===== verification/GatherServiceEntries.v ===== *)
(** * Building the service entries of an identity

    The first half of [modifyServiceEntryForNewServiceOrPod] ([clusters/serviceentry.go]):
    the loop over the clusters that finds the deployments and rollouts of the identity,
    builds their service entries and collects what the second half
    ([ModifyServiceEntry.v]) writes to the clusters. *)
From S2P Require Import Prelude GoStrings Config Objects Metadata ServiceCache Policies AddressStore.
From S2P Require Import DestinationRules Writers ServiceEntries Caches Dependents World VirtualServices.
From S2P Require Import VsRouting StateCheck DeploymentController RolloutController RoutingRules RoutingWriter.
From S2P Require Import ServiceLookup SeState RegistryConfig.
From stdpp Require Import options.
Local Open Scope Z_scope.
Local Open Scope world_scope.

(** What the remote registry has of every cluster; a controller that is missing is nil. *)
Record RemoteRegistry := mkRegistry {
  remoteControllers : gmap string RemoteController;
  DeploymentCaches : gmap string deploymentCache;
  RolloutCaches : gmap string rolloutCache;
  GlobalTrafficCaches : gmap string (policyCache GlobalTrafficPolicy);
  OutlierDetectionCaches : gmap string (policyCache OutlierDetectionCrd);
  ClientConnectionCaches : gmap string (policyCache ClientConnectionConfig);
  RoutingCaches : gmap string RcRouting;
  ClusterLocalityCache : option (gmap string (gmap string string))
}.

(** The values of the context that are read here and further down: those of an event, the
    override of the dependent clusters, and the keys of the slow start. *)
Record proc_ctx := mkProcCtx {
  px_event : event_ctx;
  DependentClusterOverride : option ptr;
  TrafficConfigIdentity : option string;
  TrafficConfigContextWorkloadEnvKey : option string;
  GtpPreferenceRegion : option string
}.
#[export] Instance eta_proc_ctx : Settable proc_ctx := fun c =>
  mkProcCtx (px_event c) (DependentClusterOverride c) (TrafficConfigIdentity c) (TrafficConfigContextWorkloadEnvKey c)
    (GtpPreferenceRegion c).

(** The variables of the function, without those that are only logged.  [deployment],
    [rollout] and [weightedServices] keep their values from one cluster to the next. *)
Record locals := mkLocals {
  deployment : option DeploymentObj;
  rollout : option RolloutObj;
  weightedServices : gmap string WeightedService;
  namespace : string;
  cname : string;
  cnames : gmap string string;
  sourceServices : gmap string (gmap string ServiceObj);
  sourceWeightedServices : gmap string (gmap string WeightedService);
  sourceDeployments : gmap string DeploymentObj;
  sourceRollouts : gmap string RolloutObj;
  appType : gmap string string;
  serviceEntries : gmap string ServiceEntry;
  clustersToDeleteSE : gmap string bool;
  clusterAppDeleteMap : gmap string string;
  clusterDeployRolloutPresent : gmap string (gmap string bool);
  deployRolloutMigration : gmap string bool;
  sourceClusterToEventNsCache : gmap string string;
  gtps : gmap string (list GlobalTrafficPolicy);
  outlierDetections : gmap string (list OutlierDetectionCrd);
  clientConnectionSettings : gmap string (list ClientConnectionConfig);
  registryConfig : gmap string IdentityConfigCluster;  (* its Clusters *)
  modifySEerr : error
}.
#[export] Instance eta_locals : Settable locals := fun v =>
  mkLocals (deployment v) (rollout v) (weightedServices v) (namespace v) (cname v) (cnames v) (sourceServices v)
    (sourceWeightedServices v) (sourceDeployments v) (sourceRollouts v) (appType v) (serviceEntries v)
    (clustersToDeleteSE v) (clusterAppDeleteMap v) (clusterDeployRolloutPresent v) (deployRolloutMigration v)
    (sourceClusterToEventNsCache v) (gtps v) (outlierDetections v) (clientConnectionSettings v) (registryConfig v)
    (modifySEerr v).

Definition no_locals : locals :=
  mkLocals None None ∅ "" "" ∅ ∅ ∅ ∅ ∅ ∅ ∅ ∅ ∅ ∅ ∅ ∅ ∅ ∅ ∅ ∅ None.

Definition put_map {A} (cluster key : string) (a : A) (m : gmap string (gmap string A)) : gmap string (gmap string A) :=
  <[cluster := <[key := a]> (default ∅ (m !! cluster))]> m.

Section Gather.
Context {range : GoRange} {sorting : GoSort} {yaml : Yaml} {St : Type} {addressClient : ConfigMapClient St}.
Context (p : AdmiralParams) (ip_prefix : string).
Context (vs_on_error : option VirtualServiceObj) (vsClients : string -> KubeClient St VirtualServiceObj).
Context (rr : RemoteRegistry).
(** The event, its cluster and resource type, and the identity with its partition and
    without. *)
Context (event : EventType) (env partitionedIdentity sourceIdentity clusterName eventResourceType : string).

Definition is_migrating (v : locals) (cluster : string) : bool := default false (deployRolloutMigration v !! cluster).

(** [registryConfig.Clusters[clusterId].Environment[env] = ...], with the type of the
    workload and its selectors; the cluster was stored before. *)
Definition set_environment (cluster typ : string) (selectors : gomap) (v : locals) : locals :=
  v <| registryConfig := alter (fun c => c <| icEnvironment :=
         <[env := new_config_environment env (namespace v) typ selectors]> (icEnvironment c) |>) cluster (registryConfig v) |>.

(** The workloads that the cluster has; those of a nil controller are the last ones seen. *)
Definition find_workloads (clusterId : string) (v : locals) : locals :=
  v <| deployment := match DeploymentCaches rr !! clusterId with
                     | Some c => DeploymentCache_Get c partitionedIdentity env
                     | None => deployment v
                     end |>
    <| rollout := match RolloutCaches rr !! clusterId with
                  | Some c => RolloutCache_Get c partitionedIdentity env
                  | None => rollout v
                  end |>.

(** The entries of the cluster in the maps, and the migration between the two types. *)
Definition note_cluster (clusterId : string) (rc : RemoteController) (config : IdentityConfigCluster) (v : locals)
    : locals :=
  let id := ClusterID rc in
  let v := v <| registryConfig := <[clusterId := config]> (registryConfig v) |> in
  let v := match deployment v, rollout v with
           | Some _, Some _ =>
               let v := if bool_decide (event = Delete)
                        then v <| clusterAppDeleteMap := <[clusterName := eventResourceType]> (clusterAppDeleteMap v) |>
                        else v in
               v <| appType := <[id := DeploymentType]> (appType v) |>
                 <| deployRolloutMigration := <[id := true]> (deployRolloutMigration v) |>
           | Some _, None => v <| appType := <[id := DeploymentType]> (appType v) |>
           | None, _ => v <| appType := <[id := RolloutType]> (appType v) |>
           end in
  v <| sourceServices := <[id := default ∅ (sourceServices v !! id)]> (sourceServices v) |>
    <| clusterDeployRolloutPresent := <[id := default ∅ (clusterDeployRolloutPresent v !! id)]>
         (clusterDeployRolloutPresent v) |>.

(** What the event makes of the cluster's endpoints. *)
Definition endpoint_event (clusterId id typ : string) (v : locals) : EventType * bool :=
  removeSeEndpoints clusterName event clusterId (is_migrating v id) typ (clusterAppDeleteMap v).

(** The result tells whether the turn of the loop goes on after it. *)
Definition gather_deployment (clusterId : string) (rc : RemoteController) (d : DeploymentObj) (v : locals)
    : W (proc_world St) (locals * bool) :=
  let id := ClusterID rc in
  let v := v <| clusterDeployRolloutPresent := put_map id DeploymentType true (clusterDeployRolloutPresent v) |> in
  match getServiceForDeployment rc d with
  | None => wpanic
  | Some (inr _) => wret (v, false)
  | Some (inl serviceInstance) =>
      let v := v <| sourceServices := put_map id DeploymentType serviceInstance (sourceServices v) |>
                 <| sourceClusterToEventNsCache := <[id := Namespace (DepMeta d)]> (sourceClusterToEventNsCache v) |>
                 <| namespace := Namespace (DepMeta d) |>
                 <| cname := GetCname p d (GetWorkloadIdentifier p) (GetHostnameSuffix p) |>
                 <| sourceDeployments := <[id := d]> (sourceDeployments v) |> in
      if IsPersonaTrafficConfig p then wret (v, false)
      else
        let localMeshPorts := default ∅ (GetMeshPortsForDeployments (Some serviceInstance) (Some d)) in
        let '(eventType, deleteCluster) := endpoint_event clusterId id DeploymentType v in
        let v := v <| clustersToDeleteSE := <[clusterId := deleteCluster]> (clustersToDeleteSE v) |> in
        '(entries, err) <- createServiceEntryForDeployment p ip_prefix eventType rc localMeshPorts d (serviceEntries v);;
        wret (set_environment clusterId DeploymentType (DepSelector d ≫= MatchLabels)
                (v <| serviceEntries := entries |> <| modifySEerr := AppendError (modifySEerr v) err |>), true)
  end.

Definition gather_rollout (clusterId : string) (rc : RemoteController) (r : RolloutObj) (v : locals)
    : W (proc_world St) (locals * bool) :=
  let id := ClusterID rc in
  let name := GetCnameForRollout p r (GetWorkloadIdentifier p) (GetHostnameSuffix p) in
  let v := v <| clusterDeployRolloutPresent := put_map id RolloutType true (clusterDeployRolloutPresent v) |>
             <| cname := name |> <| cnames := <[name := "1"]> (cnames v) |>
             <| sourceRollouts := <[id := r]> (sourceRollouts v) |> <| namespace := Namespace (RoMeta r) |> in
  if IsPersonaTrafficConfig p then wret (v, false)
  else
    services <- rollout_services vs_on_error vsClients rc r;;
    let v := v <| weightedServices := services |> in
    match go_range 3 services with
    | [] => wret (v, false)
    | (_, sInstance) :: _ =>
        let serviceInstance := wsService sInstance in
        let v := v <| sourceServices := put_map id RolloutType serviceInstance (sourceServices v) |>
                   <| sourceClusterToEventNsCache := <[id := Namespace (RoMeta r)]> (sourceClusterToEventNsCache v) |> in
        let localMeshPorts := default ∅ (GetMeshPortsForRollout (Some serviceInstance) (Some r)) in
        let '(eventType, deleteCluster) := endpoint_event clusterId id RolloutType v in
        let v := v <| clustersToDeleteSE := <[clusterId := deleteCluster]> (clustersToDeleteSE v) |> in
        '(entries, err) <- createServiceEntryForRollout p ip_prefix vs_on_error vsClients eventType rc localMeshPorts r
                             (serviceEntries v);;
        wret (set_environment clusterId RolloutType (RoSelector r ≫= MatchLabels)
                (v <| serviceEntries := entries |> <| modifySEerr := AppendError (modifySEerr v) err |>), true)
    end.

(** The error is logged. *)
Definition populateClientConnectionConfigCache (cache : option (policyCache ClientConnectionConfig))
    (ClusterID identityKey namespace : string) (clientConnectionSettings : gmap string (list ClientConnectionConfig))
    : gmap string (list ClientConnectionConfig) * error :=
  match cache with
  | None => (clientConnectionSettings, Some "clientConnectionSettings controller is not initialized")
  | Some c =>
      match policyCache_Get c identityKey namespace with
      | [] => (clientConnectionSettings, Some "clientConnectionSettings not found in controller cache")
      | l => (<[ClusterID := l]> clientConnectionSettings, None)
      end
  end.

(** The policies of the namespace; a cluster without a controller of global traffic
    policies panics. *)
Definition gather_policies (clusterId id : string) (v : locals) : W (proc_world St) locals :=
  match GlobalTrafficCaches rr !! clusterId with
  | None => wpanic
  | Some c =>
      let found {A} (l : list A) (m : gmap string (list A)) := if is_nil (head l) then m else <[id := l]> m in
      let identityKey := ConstructKeyWithEnvAndIdentity env sourceIdentity in
      let v := v <| gtps := found (policyCache_Get c (ConstructKeyWithEnvAndIdentity env partitionedIdentity) (namespace v))
                              (gtps v) |> in
      let v := match OutlierDetectionCaches rr !! clusterId with
               | Some c => v <| outlierDetections := found (policyCache_Get c identityKey (namespace v)) (outlierDetections v) |>
               | None => v
               end in
      wret (if IsClientConnectionConfigProcessingEnabled p
            then v <| clientConnectionSettings :=
                   (populateClientConnectionConfigCache (ClientConnectionCaches rr !! clusterId) id identityKey (namespace v)
                      (clientConnectionSettings v)).1 |>
            else v)
  end.

(** The end of the turn. *)
Definition gather_caches (clusterId : string) (rc : RemoteController) (v : locals) : W (proc_world St) locals :=
  let id := ClusterID rc in
  update_proc (fun s => s <| pc_cnames := put_cname_cluster (pc_cnames s) (cname v) id |>) ;;;
  CnameIdentityCache_Store (cname v) partitionedIdentity ;;;
  let v := v <| sourceWeightedServices := <[id := weightedServices v]> (sourceWeightedServices v) |> in
  if IsPersonaTrafficConfig p then wret v else gather_policies clusterId id v.

(** A part of the turn that may leave it with [continue]. *)
Definition and_then {A} (o : option A) (f : A -> locals -> W (proc_world St) (locals * bool))
    (c : W (proc_world St) (locals * bool)) : W (proc_world St) (locals * bool) :=
  '(v, go_on) <- c;;
  match o, go_on with Some a, true => f a v | _, _ => wret (v, go_on) end.

Definition gather_cluster (clusterId : string) (v : locals) : W (proc_world St) locals :=
  match remoteControllers rr !! clusterId with
  | None => wret v
  | Some rc =>
      let v := find_workloads clusterId v in
      if is_nil (deployment v) && is_nil (rollout v) then wret v
      else
        s <- get_proc;;
        let '(ingressEndpoint, port, _) := getOverwrittenLoadBalancer p (Some (ServiceControllerCache rc)) clusterName
                                             (NLBEnabledCluster (pc_cnames s)) in
        let v := note_cluster clusterId rc (new_config_cluster clusterId ingressEndpoint port rc) v in
        let '(d, r) := (deployment v, rollout v) in
        UpdateIdentityClusterCache partitionedIdentity (ClusterID rc) ;;;
        '(v, go_on) <- and_then r (gather_rollout clusterId rc) (and_then d (gather_deployment clusterId rc) (wret (v, true)));;
        if (go_on : bool) then gather_caches clusterId rc v else wret v
  end.

Fixpoint gather_clusters (clusters : list string) (v : locals) : W (proc_world St) locals :=
  match clusters with
  | [] => wret v
  | clusterId :: rest => v <- gather_cluster clusterId v;; gather_clusters rest v
  end.
End Gather.

(** ** The endpoints of an identity of deployments *)

#[local] Arguments note_cluster : simpl never.
#[local] Arguments find_workloads : simpl never.
#[local] Arguments getOverwrittenLoadBalancer : simpl never.

Section Deployments.
Context {range : GoRange} {sorting : GoSort} {yaml : Yaml} {St : Type} {addressClient : ConfigMapClient St}.
Context (p : AdmiralParams) (ip_prefix : string).
Context (vs_on_error : option VirtualServiceObj) (vsClients : string -> KubeClient St VirtualServiceObj).
Context (rr : RemoteRegistry).
Context (event : EventType) (env identity sourceIdentity clusterName eventResourceType : string).

(** The deployment that the identity has in a cluster, with its service: the cluster and the
    ports. *)
Definition deployed (cluster : string) : option (DeploymentObj * (RemoteController * gmap string Z)) :=
  rc ← remoteControllers rr !! cluster;
  c ← DeploymentCaches rr !! cluster;
  d ← DeploymentCache_Get c identity env;
  r ← getServiceForDeployment rc d;
  match r with
  | inl service => Some (d, (rc, default ∅ (GetMeshPortsForDeployments (Some service) (Some d))))
  | inr _ => None
  end.

(** The event removes the endpoint of the cluster. *)
Definition removes (cluster : string) : bool := bool_decide (event = Delete) && (clusterName =?s cluster).

(** The endpoints that the identity should have: one for each cluster that it runs in,
    without the one that an event of deletion is about. *)
Definition deployed_endpoints (c : AdmiralCache) (clusters : list string) : list WorkloadEntry :=
  flat_map (fun cluster => match deployed cluster with
    | Some (_, (rc, ports)) => if removes cluster then [] else [cluster_endpoint p c rc ports DeploymentType]
    | None => []
    end) clusters.

(** Nothing but deployments, each cluster with its controllers, and one name for all. *)
Record deployments_only (name : string) (clusters : list string) : Prop := {
  do_controllers : forall c rc, c ∈ clusters -> remoteControllers rr !! c = Some rc -> ClusterID rc = c;
  do_deployments : forall c, c ∈ clusters -> is_Some (DeploymentCaches rr !! c);
  do_rollouts : forall c cache, c ∈ clusters -> RolloutCaches rr !! c = Some cache -> RolloutCache_Get cache identity env = None;
  do_named : name <> "";
  do_name : forall c d x, c ∈ clusters -> deployed c = Some (d, x) ->
    GetCname p d (GetWorkloadIdentifier p) (GetHostnameSuffix p) = name
}.

Context (Hip : DisableIPGeneration p = true) (Hpersona : IsPersonaTrafficConfig p = false).

Definition nlbs (w : world (proc_world St)) : list string := NLBEnabledCluster (pc_cnames (rs_api (w_api w))).

Lemma unique_address_disabled fqdn (w : world (proc_world St)) r w' :
  unique_address p ip_prefix fqdn w = Some (r, w') -> r.2 = None /\ w_api w' = w_api w.
Proof using Hip.
  unfold unique_address, on_addresses, getUniqueAddress, unique_address_loop, maxRetries, GetLocalAddressForSe.
  destruct (negb (is_empty (default "" _))) eqn:E; cbn.
  - rewrite E. cbn. by intros [= <- <-].
  - rewrite Hip. cbn. by intros [= <- <-].
Qed.

Lemma create_deployment_entry ev rc ports d es (w : world (proc_world St)) es' err w' :
  let name := GetCname p d (GetWorkloadIdentifier p) (GetHostnameSuffix p) in
  name <> "" ->
  createServiceEntryForDeployment p ip_prefix ev rc ports d es w = Some ((es', err), w') ->
  err = None /\ nlbs w' = nlbs w /\
  exists address san, es' = (generateServiceEntry p ev (pc_cnames (rs_api (w_api w))) ports name rc es address san
                               DeploymentType).1.2.
Proof using Hip.
  intros name Hn. unfold createServiceEntryForDeployment. fold name.
  intros ([address e] & w1 & E1 & H)%wbnd_Some. apply unique_address_disabled in E1 as [E Ew]. cbn in E, H. subst e.
  unfold entry_possible in H. rewrite Hip in H.
  destruct (is_empty name) eqn:En; [by destruct name|]. cbn in H.
  injection H as <- <- <-. split; [done|]. split; [unfold nlbs; cbn; by rewrite Ew|].
  exists address, (getSanForDeployment p d (GetWorkloadIdentifier p)). by rewrite <- Ew.
Qed.

Lemma UpdateIdentityClusterCache_api i c (w w' : world (proc_world St)) u :
  UpdateIdentityClusterCache i c w = Some (u, w') -> w_api w' = w_api w.
Proof using.
  unfold UpdateIdentityClusterCache, wbnd, get_caches, wret, on_heap.
  destruct (IdentityClusterCache _); [|by intros [= _ <-]]. destruct (MapOfMaps_Put _ _ _ _ _); [|done..].
  by intros [= _ <-].
Qed.

Lemma endpoint_event_spec cluster v :
  deployRolloutMigration v = ∅ ->
  exists ev, (endpoint_event event clusterName cluster cluster DeploymentType v).1 = (if removes cluster then Delete else ev)
    /\ ev <> Delete.
Proof using.
  intros Hm. unfold endpoint_event, is_migrating, removes, removeSeEndpoints. rewrite Hm, lookup_empty. cbn.
  destruct event; cbn; [by exists Add|by exists Update|]. destruct (clusterName =?s cluster); by exists Update.
Qed.

(** What a turn of the loop leaves of the variables. *)
Definition only_deployments (v : locals) : Prop := rollout v = None /\ deployRolloutMigration v = ∅.

Lemma gather_policies_keeps cluster id v w v' (w' : world (proc_world St)) :
  gather_policies p rr env identity sourceIdentity cluster id v w = Some (v', w') ->
  w' = w /\ serviceEntries v' = serviceEntries v /\ (only_deployments v -> only_deployments v').
Proof using.
  unfold gather_policies. destruct (GlobalTrafficCaches rr !! cluster); [|done]. intros [= <- <-].
  split; [done|]. by destruct (OutlierDetectionCaches rr !! cluster), (IsClientConnectionConfigProcessingEnabled p).
Qed.

Lemma gather_caches_keeps cluster rc v w v' (w' : world (proc_world St)) :
  gather_caches p rr env identity sourceIdentity cluster rc v w = Some (v', w') ->
  nlbs w' = nlbs w /\ serviceEntries v' = serviceEntries v /\ (only_deployments v -> only_deployments v').
Proof using Hpersona.
  unfold gather_caches. intros (u & w1 & E1 & H)%wbnd_Some. apply wbnd_Some in H as (u2 & w2 & E2 & H).
  rewrite Hpersona in H. apply gather_policies_keeps in H as (-> & -> & Hk).
  injection E1 as _ <-. unfold CnameIdentityCache_Store in E2. destruct (CnameIdentityCache _); [|done].
  injection E2 as _ <-. split_and!; [done|done|]. intros Ho. apply Hk, Ho.
Qed.

Lemma gather_deployment_spec cluster rc d v w v' go_on (w' : world (proc_world St)) :
  remoteControllers rr !! cluster = Some rc -> ClusterID rc = cluster ->
  (c ← DeploymentCaches rr !! cluster; DeploymentCache_Get c identity env) = Some d ->
  (is_Some (deployed cluster) -> GetCname p d (GetWorkloadIdentifier p) (GetHostnameSuffix p) <> "") ->
  only_deployments v ->
  gather_deployment p ip_prefix event env clusterName cluster rc d v w = Some ((v', go_on), w') ->
  nlbs w' = nlbs w /\ only_deployments v' /\
  match deployed cluster with
  | None => serviceEntries v' = serviceEntries v
  | Some (d', (rc', ports)) => d' = d /\ rc' = rc /\ exists ev address san, ev <> Delete /\
      serviceEntries v' = (generateServiceEntry p (if removes cluster then Delete else ev) (pc_cnames (rs_api (w_api w)))
        ports (GetCname p d (GetWorkloadIdentifier p) (GetHostnameSuffix p)) rc (serviceEntries v) address san
        DeploymentType).1.2
  end.
Proof using Hip Hpersona.
  intros Hrc Hid Hd Hn Ho. unfold gather_deployment, deployed in *. rewrite Hrc in *. cbn in *.
  destruct (DeploymentCaches rr !! cluster) as [c|]; [|done]. cbn in *. rewrite Hd in *. cbn in *.
  destruct (getServiceForDeployment rc d) as [[service|e]|]; [|by intros [= <- _ <-]|done]. cbn in *.
  rewrite Hpersona, Hid. set (v1 := v <| clusterDeployRolloutPresent := _ |> <| sourceServices := _ |>
    <| sourceClusterToEventNsCache := _ |> <| namespace := _ |> <| cname := _ |> <| sourceDeployments := _ |>).
  destruct (endpoint_event_spec cluster v1) as (ev & Hev & Hne); [apply Ho|].
  destruct (endpoint_event _ _ _ _ _ v1) as [eventType del]. cbn in Hev.
  intros ([es err] & w1 & E1 & H)%wbnd_Some. injection H as <- _ <-.
  apply create_deployment_entry in E1 as (-> & Hw & address & san & ->); [|by apply Hn].
  split_and!; [done|done|done|done|]. exists ev, address, san. split; [done|]. by rewrite <- Hev.
Qed.

Lemma gather_cluster_spec name clusters cluster v w v' (w' : world (proc_world St)) :
  deployments_only name clusters -> cluster ∈ clusters -> only_deployments v ->
  gather_cluster p ip_prefix vs_on_error vsClients rr event env identity sourceIdentity clusterName eventResourceType
    cluster v w = Some (v', w') ->
  nlbs w' = nlbs w /\ only_deployments v' /\
  match deployed cluster with
  | None => serviceEntries v' = serviceEntries v
  | Some (d, (rc, ports)) => ClusterID rc = cluster /\ exists c ev address san, NLBEnabledCluster c = nlbs w /\ ev <> Delete /\
      serviceEntries v' = (generateServiceEntry p (if removes cluster then Delete else ev) c ports name rc
        (serviceEntries v) address san DeploymentType).1.2
  end.
Proof using Hip Hpersona.
  intros Hd Hin Ho. unfold gather_cluster.
  destruct (remoteControllers rr !! cluster) as [rc|] eqn:Hrc; [|intros [= <- <-]; unfold deployed; by rewrite Hrc].
  pose proof (do_controllers _ _ Hd _ _ Hin Hrc) as Hid.
  destruct (do_deployments _ _ Hd _ Hin) as [cache Hcache].
  set (v1 := find_workloads rr env identity cluster v).
  assert (rollout v1 = None) as Hr.
  { unfold v1, find_workloads. cbn. destruct (RolloutCaches rr !! cluster) as [rs|] eqn:E; [|apply Ho].
    by eapply (do_rollouts _ _ Hd). }
  assert (only_deployments v1) as Ho1 by (split; [done|apply Ho]).
  assert (deployment v1 = DeploymentCache_Get cache identity env) as Hdep.
  { unfold v1, find_workloads. cbn. by rewrite Hcache. }
  assert (serviceEntries v1 = serviceEntries v) as Hs1 by done. clearbody v1.
  rewrite Hr, Hdep. cbn. destruct (DeploymentCache_Get cache identity env) as [d|] eqn:Eg; cbn.
  2:{ intros [= <- <-]. unfold deployed. rewrite Hrc. cbn. rewrite Hcache. cbn. by rewrite Eg. }
  assert (w <| w_api := w_api w |> = w) as -> by by destruct w.
  destruct (getOverwrittenLoadBalancer _ _ _ _) as [[ingressEndpoint port] lbe].
  set (v2 := note_cluster event clusterName eventResourceType cluster rc _ v1).
  assert (only_deployments v2 /\ serviceEntries v2 = serviceEntries v /\ rollout v2 = None /\ deployment v2 = Some d)
    as (Ho2 & Hs2 & Hr2 & Hd2).
  { destruct Ho1 as [_ Hm]. unfold v2, note_cluster, only_deployments. cbn. rewrite Hdep, Hr. done. }
  rewrite Hr2, Hd2. cbn. intros (u & w1 & E1 & H)%wbnd_Some. apply UpdateIdentityClusterCache_api in E1.
  apply wbnd_Some in H as ([v3 go_on] & w3 & E3 & H).
  apply wbnd_Some in E3 as ([v4 go_on'] & w4 & E4 & E3).
  apply wbnd_Some in E4 as ([v5 go_on5] & w5 & E5 & E4). injection E5 as <- <- <-.
  apply gather_deployment_spec in E4 as (Hw4 & Ho4 & Hs4); [|done|done|by rewrite Hcache| |done].
  2:{ intros [[d' x] Hx]. assert (d' = d) as -> .
      { unfold deployed in Hx. rewrite Hrc in Hx. cbn in Hx. rewrite Hcache in Hx. cbn in Hx. rewrite Eg in Hx. cbn in Hx.
        destruct (getServiceForDeployment rc d) as [[]|]; cbn in Hx; congruence. }
      rewrite (do_name _ _ Hd _ _ _ Hin Hx). apply (do_named _ _ Hd). }
  injection E3 as <- <- <-.
  assert (nlbs w' = nlbs w4 /\ serviceEntries v' = serviceEntries v4 /\ only_deployments v') as (Hw' & Hs' & Ho').
  { destruct go_on'; [|by injection H as <- <-]. apply gather_caches_keeps in H as (? & ? & Hk). auto. }
  assert (nlbs w1 = nlbs w) as Hw1 by by unfold nlbs; rewrite E1.
  split_and!; [congruence|done|].
  destruct (deployed cluster) as [[d' [rc' ports]]|] eqn:Ed; [|congruence].
  destruct Hs4 as (-> & -> & ev & address & san & Hev & Hs4). split; [done|].
  exists (pc_cnames (rs_api (w_api w1))), ev, address, san. split; [done|]. split; [done|].
  by rewrite Hs', Hs4, (do_name _ _ Hd _ _ _ Hin Ed), Hs2.
Qed.

Definition entry_endpoints (es : gmap string ServiceEntry) (name : string) : list WorkloadEntry :=
  match es !! name with Some se => seEndpoints se | None => [] end.

(** The addresses of the ingresses of the clusters. *)
Definition deployed_addresses (nlb : list string) (clusters : list string) : list string :=
  flat_map (fun cluster => match deployed cluster with
    | Some (_, (rc, _)) => [lb_address p nlb rc]
    | None => []
    end) clusters.

Lemma apply_event_fresh ev ep eps :
  weAddress ep ∉ map weAddress eps ->
  apply_endpoint_event ev ep eps = eps ++ (if decide (ev = Delete) then [] else [ep]).
Proof using.
  intros Hn. destruct ev; cbn.
  1,2: destruct (existsb _ _) eqn:E; [|done]; exfalso; apply Hn; apply existsb_exists in E as (ep' & Hin & He);
       apply seqb_eq in He; rewrite <- He; by apply list_elem_of_In, in_map.
  rewrite app_nil_r. induction eps as [|ep' eps IH]; [done|]. cbn in *. apply not_elem_of_cons in Hn as [Hne Hn].
  rewrite bool_decide_false by congruence. cbn. by rewrite IH.
Qed.

Lemma generated_endpoints ev c ports name rc es address san :
  lb_address p (NLBEnabledCluster c) rc ∉ map weAddress (entry_endpoints es name) ->
  let es' := (generateServiceEntry p ev c ports name rc es address san DeploymentType).1.2 in
  entry_endpoints es' name = entry_endpoints es name ++
    (if decide (ev = Delete) then [] else [cluster_endpoint p c rc ports DeploymentType]) /\
  forall k, k <> name -> es' !! k = es !! k.
Proof using.
  intros Hn es'. unfold es', generateServiceEntry. cbn. split.
  - unfold entry_endpoints at 1. rewrite lookup_insert_eq. cbn.
    assert (seEndpoints (default (new_service_entry p ports name address san) (es !! name)) = entry_endpoints es name)
      as -> by by unfold entry_endpoints; destruct (es !! name).
    rewrite apply_event_fresh; [by rewrite (cluster_endpoint_nlb p _ _ c)|]. by rewrite cluster_endpoint_address.
  - intros k Hk. by rewrite lookup_insert_ne.
Qed.

Lemma gather_clusters_endpoints name clusters c : forall l v w v' (w' : world (proc_world St)),
  deployments_only name clusters -> (forall x, x ∈ l -> x ∈ clusters) -> only_deployments v ->
  NLBEnabledCluster c = nlbs w ->
  NoDup (map weAddress (entry_endpoints (serviceEntries v) name) ++ deployed_addresses (nlbs w) l) ->
  gather_clusters p ip_prefix vs_on_error vsClients rr event env identity sourceIdentity clusterName eventResourceType
    l v w = Some (v', w') ->
  entry_endpoints (serviceEntries v') name = entry_endpoints (serviceEntries v) name ++ deployed_endpoints c l /\
  forall k, k <> name -> serviceEntries v' !! k = serviceEntries v !! k.
Proof using Hip Hpersona.
  induction l as [|x l IH]; intros v w v' w' Hd Hl Ho Hc Hnd H; cbn in H.
  { injection H as <- <-. by rewrite app_nil_r. }
  apply wbnd_Some in H as (v1 & w1 & E1 & H).
  eapply gather_cluster_spec in E1 as (Hw1 & Ho1 & Hs1); [|done|apply Hl, list_elem_of_here|done].
  cbn in Hnd |- *.
  destruct (deployed x) as [[d [rc ports]]|] eqn:Ex.
  - destruct Hs1 as (Hid & c' & ev & address & san & Hc' & Hev & Hs1). cbn in Hnd.
    apply NoDup_app in Hnd as (Hnd1 & Hdis & Hnd2). apply NoDup_cons in Hnd2 as [Hnx Hnd2].
    destruct (generated_endpoints (if removes x then Delete else ev) c' ports name rc (serviceEntries v) address san)
      as [He Hk].
    { rewrite Hc'. intros Hin. apply (Hdis _ Hin). apply list_elem_of_here. }
    rewrite <- Hs1 in He, Hk.
    assert (entry_endpoints (serviceEntries v1) name = entry_endpoints (serviceEntries v) name ++
      (if removes x then [] else [cluster_endpoint p c rc ports DeploymentType])) as He'.
    { rewrite He. f_equal. destruct (removes x); [by rewrite decide_True|]. rewrite decide_False by done.
      by rewrite (cluster_endpoint_nlb p _ c' c) by congruence. }
    eapply IH in H as [Heq Hks]; [|done|intros; apply Hl, list_elem_of_further; done|done|congruence|].
    + split; [by rewrite Heq, He', <- app_assoc|]. intros k Hne. by rewrite Hks, Hk.
    + rewrite He', Hw1, map_app, <- app_assoc. apply NoDup_app. split_and!; [done| |].
      * intros a Ha. destruct (removes x); cbn.
        -- intros Ha'. apply (Hdis _ Ha). by apply list_elem_of_further.
        -- rewrite cluster_endpoint_address, Hc. apply Hdis, Ha.
      * destruct (removes x); cbn; [done|]. rewrite cluster_endpoint_address, Hc. by apply NoDup_cons.
  - eapply IH in H as [Heq Hks]; [|done|intros; apply Hl, list_elem_of_further; done|done|congruence|].
    + rewrite Heq, Hs1. split; [done|]. intros k Hne. by rewrite Hks, Hs1.
    + by rewrite Hs1, Hw1.
Qed.

(** C4: The service entry of an identity that has deployments and no rollouts, all with one
    name, in clusters with distinct ingress addresses, without address generation and outside of
    the TrafficConfig persona: after the loop over the clusters
    the only entry is that of the name, and its endpoints are the ingresses of the clusters
    that have the deployment with a service, in the order of the loop, all but that of the
    cluster where the deployment was deleted.  Clusters without a remote controller, a
    deployment or a matching service have none, whatever else is cached. *)
Theorem endpoints_of_deployments name clusters (c : AdmiralCache) g (w w' : world (proc_world St)) :
  deployments_only name clusters -> NLBEnabledCluster c = nlbs w -> NoDup (deployed_addresses (nlbs w) clusters) ->
  gather_clusters p ip_prefix vs_on_error vsClients rr event env identity sourceIdentity clusterName eventResourceType
    clusters no_locals w = Some (g, w') ->
  entry_endpoints (serviceEntries g) name = deployed_endpoints c clusters /\
  forall k, k <> name -> serviceEntries g !! k = None.
Proof using Hip Hpersona.
  intros Hd Hc Hnd H. eapply gather_clusters_endpoints in H as [He Hk]; [|done|done|done|done|done].
  split; [exact He|]. intros k Hne. by rewrite Hk.
Qed.
End Deployments.

(** ** The property at a concrete input *)

(** The identity [foo] has its deployment in three clusters; [c3] has no service for it, and
    that of [c2] is deleted. *)
Definition spread_params : AdmiralParams :=
  gw_params <| Params.DisableIPGeneration := true |> <| Params.HostnameSuffix := "mesh" |>
    <| Params.LabelSetPtr := Some (Params.zero_LabelSet <| Params.GatewayApp := "gw" |>
         <| Params.WorkloadIdentityKey := "identity" |> <| Params.EnvKey := "env" |>) |>.
Definition spread_deployment : DeploymentObj :=
  mkDeployment (mkMeta "foo" "ns" None None 0 "1")
    (mkTemplate (Some {[ "identity" := "foo"; "env" := "dev" ]}) None) (Some (mkSelector (Some {[ "app" := "foo" ]})))
    None 1 "".
Definition spread_cluster (id lb : string) (service : bool) : RemoteController :=
  mkRC id (Some (Some (foldl ServiceCache_Put ∅
    (gateway_service lb :: if service then [service_named "foo"] else [])))) (Some "us-west-2").
Definition spread_registry : RemoteRegistry :=
  let cs := ["c1"; "c2"; "c3"] in
  let dc := {[ "foo" := mkDeploymentClusterEntry "foo" {[ "dev" := mkDeploymentItem (Some spread_deployment) "" ]} ]} in
  mkRegistry {[ "c1" := spread_cluster "c1" "lb1" true; "c2" := spread_cluster "c2" "lb2" true;
                "c3" := spread_cluster "c3" "lb3" false ]}
    {[ "c1" := dc; "c2" := dc; "c3" := dc ]} ∅ {[ "c1" := ∅; "c2" := ∅ ]} ∅ ∅ ∅ None.
#[local] Instance no_configmap : ConfigMapClient unit := {|
  cm_get s := (s, inr "not found");
  cm_create s := (s, inr "not found");
  cm_update _ s := (s, None)
|}.
#[local] Instance no_vs : KubeClient unit VirtualServiceObj := {|
  api_create _ _ s := (s, None);
  api_update _ _ s := (s, None);
  api_delete _ _ s := (s, None);
  api_get _ _ s := (s, inr NotFound)
|}.
Definition spread_world : world (proc_world unit) :=
  mkWorld (mkRouting (mkProc tt (mkAdmiralCache ∅ []) ∅ ∅ ∅ ∅ ∅ ∅) ∅ ∅ ∅) (mkHeap ∅ ∅ 0 ∅)
    (mkAdmiralCaches (mkCachePointers None (Some ∅) None None None) None None None None) empty_store ∅.
Definition spread_run : option (locals * world (proc_world unit)) :=
  gather_clusters spread_params "240.0" None (fun _ => no_vs) spread_registry Delete "dev" "foo" "foo" "c2"
    DeploymentType ["c1"; "c2"; "c3"] no_locals spread_world.

(** The conditions, as a computation. *)
Definition spread_ok (cluster : string) : bool :=
  match remoteControllers spread_registry !! cluster with Some rc => ClusterID rc =?s cluster | None => true end &&
  negb (is_nil (DeploymentCaches spread_registry !! cluster)) &&
  match deployed spread_registry "dev" "foo" cluster with
  | Some (d, _) => GetCname spread_params d (GetWorkloadIdentifier spread_params) (GetHostnameSuffix spread_params)
                   =?s "dev.foo.mesh"
  | None => true
  end.

Lemma spread_deployments_only :
  deployments_only spread_params spread_registry "dev" "foo" "dev.foo.mesh" ["c1"; "c2"; "c3"].
Proof.
  assert (forall c, c ∈ ["c1"; "c2"; "c3"] -> spread_ok c = true) as Hok.
  { apply Forall_forall. repeat constructor. }
  split; [| |done|done|]; intros c; intros; specialize (Hok c ltac:(assumption)); unfold spread_ok in Hok;
    rewrite !andb_true_iff in Hok; destruct Hok as [[H1 H2] H3].
  - match goal with H : remoteControllers _ !! _ = _ |- _ => rewrite H in H1 end. by apply seqb_eq.
  - destruct (DeploymentCaches spread_registry !! c) eqn:E; [by eexists|done].
  - match goal with H : deployed _ _ _ _ = _ |- _ => rewrite H in H3 end. by apply seqb_eq.
Qed.

Lemma endpoints_of_deployments_witness :
  let g := default no_locals (option_map fst spread_run) in
  map weAddress (entry_endpoints (serviceEntries g) "dev.foo.mesh") = ["lb1"] /\
  entry_endpoints (serviceEntries g) "dev.foo.mesh" =
    deployed_endpoints spread_params spread_registry Delete "dev" "foo" "c2" (mkAdmiralCache ∅ []) ["c1"; "c2"; "c3"].
Proof.
  intros g. split; [vm_compute; reflexivity|].
  apply (endpoints_of_deployments spread_params "240.0" None (fun _ => no_vs) spread_registry Delete "dev" "foo" "foo"
    "c2" DeploymentType eq_refl eq_refl "dev.foo.mesh" ["c1"; "c2"; "c3"] (mkAdmiralCache ∅ []) g spread_world
    (match spread_run with Some (_, w) => w | None => spread_world end)).
  - apply spread_deployments_only.
  - reflexivity.
  - apply (bool_decide_eq_true_1 _). vm_compute. reflexivity.
  - vm_compute. reflexivity.
Defined.
