(* ===== verification/ModifyServiceEntry.v ===== *)
(** * Processing an identity

    [modifyServiceEntryForNewServiceOrPod] of [clusters/serviceentry.go]: the checks before
    the processing, the service entries and policies of the identity
    ([GatherServiceEntries.v]), their writes to the source clusters with the cluster's own
    endpoint replaced by the local name of the service, the virtual services and rules of
    the routing, and the writes to the dependent clusters.  The writer of the entries is the
    interface [ConfigWriter], as in the code. *)
From S2P Require Import Prelude GoStrings Config Objects Metadata ServiceCache Policies AddressStore.
From S2P Require Import DestinationRules Writers ServiceEntries Caches Dependents World VirtualServices.
From S2P Require Import VsRouting Worker ClusterWriter StateCheck DeploymentController RolloutController.
From S2P Require Import RoutingRules RoutingWriter ServiceLookup SeState RegistryConfig GatherServiceEntries.
From stdpp Require Import options.
Local Open Scope Z_scope.
Local Open Scope world_scope.

(** [ConfigWriter]: the clusters, the entries, whether additional endpoints are generated,
    whether the clusters are source clusters, the identity, its environment and the namespace
    of the event.  The writer works on copies of the entries. *)
Class ConfigWriter (X : Type) := {
  AddServiceEntriesWithDr : proc_ctx -> gmap string string -> gmap string ServiceEntry -> bool -> bool ->
    string -> string -> string -> W X error
}.

(** ** The variables of the loop over the source clusters *)

(** [entries] are the service entries, whose endpoints are rewritten in place; the other
    fields are the variables that outlive a turn of the loop. *)
Record sources := mkSources {
  entries : gmap string ServiceEntry;
  names : gmap string string;  (* cnames *)
  isAdditionalEndpointGenerationEnabled : bool;
  configuration : IdentityConfig;  (* registryConfig *)
  sourceClusterToDestinations : gmap string destinations_of;
  sourceClusterToInClusterDestinations : gmap string destinations_of;
  sourceClusterToDRHosts : gmap string (gmap string string);
  errors : error
}.
#[export] Instance eta_sources : Settable sources := fun v =>
  mkSources (entries v) (names v) (isAdditionalEndpointGenerationEnabled v) (configuration v)
    (sourceClusterToDestinations v) (sourceClusterToInClusterDestinations v) (sourceClusterToDRHosts v) (errors v).

Definition add_error (err : error) (v : sources) : sources := v <| errors := AppendError (errors v) err |>.

(** An endpoint of an entry. *)
Definition endpoint (entries : gmap string ServiceEntry) (key : string) (i : nat) : option WorkloadEntry :=
  se ← entries !! key; seEndpoints se !! i.
Definition set_endpoint (key : string) (i : nat) (ep : WorkloadEntry) (entries : gmap string ServiceEntry)
    : gmap string ServiceEntry :=
  alter (fun se => se <| seEndpoints := <[i := ep]> (seEndpoints se) |>) key entries.
Definition update_endpoint (key : string) (i : nat) (ep : WorkloadEntry) (v : sources) : sources :=
  v <| entries := set_endpoint key i ep (entries v) |>.

Section Process.
Context {range : GoRange} {sorting : GoSort} {yaml : Yaml} {St : Type} {addressClient : ConfigMapClient St}.
Context {writer : ConfigWriter (proc_world St)} {db : WorkloadDb St}.
Context (p : AdmiralParams) (readOnly : bool).
(** The text and the kind of an API error, and what the clients return next to one; the
    printing of a match; the clients; the digest of a workload record. *)
Context (message : api_error -> string) (StringMatch_String : StringMatch -> string)
  (is_invalid : string -> bool) (vs_on_error : option VirtualServiceObj).
Context (vsClients : string -> KubeClient St VirtualServiceObj)
  (drClients : string -> KubeClient St DestinationRuleObj) (sidecarClients : string -> KubeClient St SidecarObj).
Context (api_list : string -> string -> gmap string string -> St -> St * (list VirtualServiceObj + api_error))
  (list_on_error : option (list VirtualServiceObj)).
Context (ip_prefix : string) (calculateShasum : WorkloadData -> string) (database : bool).
Context (rr : RemoteRegistry) (slowStartConfigCache : ptr).
Context (event : EventType) (env : string) (ctx : proc_ctx).

Section Identity.
(** The identity with its partition and without; the variables that were gathered; the
    dependents. *)
Context (partitionedIdentity sourceIdentity clusterName eventResourceType : string).
Context (g : locals) (dependents : gmap string string).

(** ** A source cluster *)

Section Cluster.
Context (sourceCluster : string) (rc : RemoteController) (eventNamespace : string).
Context (services : gmap string ServiceObj) (service : ServiceObj).
Context (meshPorts : gmap string Z) (meshDeployAndRolloutPorts : gmap string (gmap string Z)).
Context (localFqdn clusterIngress : string).

(** The cluster of the loop's turn as the only one, and an entry as the only one. *)
Definition write_entry (key : string) (se : ServiceEntry) (v : sources) : W (proc_world St) sources :=
  err <- AddServiceEntriesWithDr ctx {[ sourceCluster := sourceCluster ]} {[ key := se ]}
           (isAdditionalEndpointGenerationEnabled v) true partitionedIdentity env eventNamespace;;
  wret (add_error err v).

Definition write_current (key : string) (v : sources) : W (proc_world St) sources :=
  match entries v !! key with Some se => write_entry key se v | None => wret v end.

(** The entry is written with the endpoint rewritten, and the endpoint is put back for the
    next cluster. *)
Definition write_localized (key : string) (i : nat) (local : WorkloadEntry) (oldPorts : gmap string Z)
    (v : sources) : W (proc_world St) sources :=
  v <- write_current key (update_endpoint key i local v);;
  wret (update_endpoint key i (local <| weAddress := clusterIngress |> <| wePorts := oldPorts |>) v).

(** The state syncer stores the services in the configuration of the identity instead. *)
Definition sync (f : IdentityConfigEnvironment -> option IdentityConfigEnvironment) (v : sources)
    : W (proc_world St) sources :=
  match at_environment sourceCluster env f (configuration v) with
  | None => wpanic
  | Some config => wret (v <| configuration := config |>)
  end.

Definition weighted : gmap string WeightedService := default ∅ (sourceWeightedServices g !! sourceCluster).

(** The strategy and the ports are those of the last rollout that was found. *)
Definition sync_blue_green : sources -> W (proc_world St) sources :=
  sync (fun e => r ← rollout g; bg ← BlueGreen (RoStrategy r); set_blue_green bg weighted r e).

Definition process_blue_green (key : string) (i : nat) (ep : WorkloadEntry) (r : RolloutObj) (v : sources)
    : W (proc_world St) sources :=
  match updateEndpointsForBlueGreen p r weighted (names v) ep key with
  | None => wpanic
  | Some (ep', cnames', _) =>
      let v := v <| names := cnames' |> in
      if IsAdmiralStateSyncerMode p then sync_blue_green (update_endpoint key i ep' v)
      else write_localized key i ep' (wePorts ep) v
  end.

Definition process_canary (key : string) (i : nat) (ep : WorkloadEntry) (canary : CanaryStrategy) (v : sources)
    : W (proc_world St) sources :=
  if IsAdmiralStateSyncerMode p then sync (set_canary (CanaryService canary) meshPorts service) v
  else
    let fqdn := CanaryService canary +:+ Sep +:+ Namespace (SvcMeta service) +:+ GetLocalDomainSuffix p in
    write_localized key i (ep <| weAddress := fqdn |> <| wePorts := meshPorts |>) (wePorts ep) v.

Definition process_weighted (key : string) (v : sources) : W (proc_world St) sources :=
  match entries v !! key with
  | None => wret v
  | Some serviceEntry =>
      let se := updateEndpointsForWeightedServices p serviceEntry weighted clusterIngress meshPorts in
      if IsAdmiralStateSyncerMode p
      then sync (set_services defaultServiceKey (parseWeightedService weighted meshPorts)) v
      else write_entry key se v
  end.

(** The result tells whether the loop over the endpoints goes on. *)
Definition process_migration (key : string) (v : sources) : W (proc_world St) (sources * bool) :=
  match entries v !! key with
  | None => wret (v, true)
  | Some serviceEntry =>
      let '(se, _, err) := UpdateEndpointsForDeployToRolloutMigration p services serviceEntry meshDeployAndRolloutPorts
                             clusterIngress (clusterAppDeleteMap g) sourceCluster (clusterDeployRolloutPresent g) in
      match err with
      | Some _ => wret (add_error err v, false)
      | None =>
          if IsAdmiralStateSyncerMode p then
            v <- sync (fun e => l ← parseMigrationService services meshDeployAndRolloutPorts;
                                set_services defaultServiceKey l e) v;;
            wret (v, true)
          else v <- write_entry key se v;; wret (v, true)
      end
  end.

Definition process_regular (key : string) (i : nat) (ep : WorkloadEntry) (v : sources) : W (proc_world St) sources :=
  if IsAdmiralStateSyncerMode p
  then sync (set_services defaultServiceKey [registry_service localFqdn 0 meshPorts service]) v
  else write_localized key i (ep <| weAddress := localFqdn |> <| wePorts := meshPorts |>) (wePorts ep) v.

Definition is_migrating_here : bool := is_migrating g sourceCluster.

(** The cluster's own endpoint of an entry. *)
Definition process_own_endpoint (key : string) (i : nat) (ep : WorkloadEntry) (v : sources)
    : W (proc_world St) (sources * bool) :=
  let go_on c := (v <- c;; wret (v, true)) in
  match sourceRollouts g !! sourceCluster with
  | Some r =>
      match blue_green r, canary_istio r with
      | Some _, _ => go_on (process_blue_green key i ep r v)
      | None, Some canary =>
          if has_prefix key CanaryRolloutCanaryPrefix then go_on (process_canary key i ep canary v)
          else if Nat.ltb 1 (size weighted) then go_on (process_weighted key v)
          else if is_migrating_here then process_migration key v
          else go_on (process_regular key i ep v)
      | None, None =>
          if Nat.ltb 1 (size weighted) then go_on (process_weighted key v)
          else if is_migrating_here then process_migration key v
          else go_on (process_regular key i ep v)
      end
  | None =>
      if Nat.ltb 1 (size weighted) then go_on (process_weighted key v)
      else if is_migrating_here then process_migration key v
      else go_on (process_regular key i ep v)
  end.

(** The endpoint with the ingress address of the cluster, or with none. *)
Fixpoint process_endpoints (key : string) (indices : list nat) (v : sources) : W (proc_world St) sources :=
  match indices with
  | [] => wret v
  | i :: rest =>
      match endpoint (entries v) key i with
      | Some ep =>
          if (weAddress ep =?s clusterIngress) || is_empty (weAddress ep) then
            '(v, go_on) <- process_own_endpoint key i ep v;;
            if (go_on : bool) then process_endpoints key rest v else wret v
          else process_endpoints key rest v
      | None => process_endpoints key rest v
      end
  end.

(** An entry without endpoints, or with the cluster's own one removed, is written as it
    is; the state syncer notes the deletion. *)
Definition process_entry (key : string) (v : sources) : W (proc_world St) sources :=
  match entries v !! key with
  | None => wret v
  | Some serviceEntry =>
      let removed := is_nil (head (seEndpoints serviceEntry)) ||
        (negb is_migrating_here && default false (clustersToDeleteSE g !! sourceCluster)) in
      if removed && IsAdmiralStateSyncerMode p then
        sync (fun _ => Some (deleted_environment env (namespace g) eventResourceType (SvcSelector service))) v
      else
        v <- (if removed then write_entry key serviceEntry v else wret v);;
        process_endpoints key (seq 0 (length (seEndpoints serviceEntry))) v
  end.

Fixpoint process_entries (keys : list string) (v : sources) : W (proc_world St) sources :=
  match keys with
  | [] => wret v
  | key :: rest => v <- process_entry key v;; process_entries rest v
  end.

(** ** The destinations of the routing *)

(** What the copy of the destinations for the routing in the cluster has after the pass for
    the ingress: the two maps share the lists, so the weights that the pass sets are seen in
    those that it did not replace. *)
Definition shared_destinations (globalTrafficPolicy : option GlobalTrafficPolicy) (locality : string)
    (destinations : destinations_of) : destinations_of :=
  let replaced := match globalTrafficPolicy with
                  | Some gtp => getDestinationsForGTPDNSPrefixes gtp destinations env locality false
                  | None => ∅
                  end in
  map_imap (fun host rds => if is_nil (replaced !! host) then addWeightsToRouteDestinations destinations !! host
                            else Some rds) destinations.

Definition discover_destinations (v : sources) : W (proc_world St) sources :=
  match getClusterRegion p (ClusterLocalityCache rr) sourceCluster rc with
  | None => wpanic
  | Some (locality, _) =>
      match getAllVSRouteDestinationsByCluster p (Some services) (Some meshDeployAndRolloutPorts)
              (sourceWeightedServices g !! sourceCluster) (sourceRollouts g !! sourceCluster)
              (sourceDeployments g !! sourceCluster) (default "" (clusterAppDeleteMap g !! sourceCluster)) with
      | inr err => wret (add_error (Some err) v)
      | inl destinations =>
          if Nat.eqb (size destinations) 0 then wret v
          else
            s <- get_state;;
            let gtp := identityCache_GetFromIdentity (pc_gtps (rs_api s)) sourceIdentity env in
            let caches := rs_caches s !! sourceCluster in
            let ingress := processGTPAndAddWeightsByCluster p caches gtp env locality destinations false (cname g)
                             sourceCluster in
            let incluster := processGTPAndAddWeightsByCluster p caches gtp env locality
                               (shared_destinations gtp locality destinations) true (cname g) sourceCluster in
            let host := eventNamespace +:+ DotLocalDomainSuffix in
            wret (v <| sourceClusterToDRHosts :=
                       <[sourceCluster := {[ host := "*." +:+ host ]}]> (sourceClusterToDRHosts v) |>
                    <| sourceClusterToDestinations := <[sourceCluster := ingress]> (sourceClusterToDestinations v) |>
                    <| sourceClusterToInClusterDestinations :=
                         <[sourceCluster := incluster]> (sourceClusterToInClusterDestinations v) |>)
      end
  end.

(** The sidecars of the cluster and the hosts that those of the dependents need. *)
Definition process_sidecars (v : sources) : W (proc_world St) unit :=
  (if GetWorkloadSidecarUpdate p =?s "enabled" then
     s <- get_proc;;
     modifySidecarForLocalClusterCommunication p readOnly sidecarClients is_invalid (Namespace (SvcMeta service))
       sourceIdentity (pc_egress s) (Some rc) ;;; wret tt
   else wret tt) ;;;
  witer (fun kv => update_proc (fun s => s <| pc_egress :=
    SidecarEgressMap_Put (pc_egress s) kv.2 (Namespace (SvcMeta service)) localFqdn (names v) |>))
    (go_range 1 dependents).
End Cluster.

(** ** The loop over the source clusters *)

(** The ports of the cluster's workloads, and those of each type. *)
Definition source_ports (sourceCluster : string) (services : gmap string ServiceObj)
    : gmap string Z * gmap string (gmap string Z) :=
  let no_ports := {[ DeploymentType := ∅; RolloutType := ∅ ]} in
  let of_rollout := default ∅ (GetMeshPortsForRollout (services !! RolloutType) (sourceRollouts g !! sourceCluster)) in
  match sourceDeployments g !! sourceCluster with
  | Some d =>
      let of_deployment := default ∅ (GetMeshPortsForDeployments (services !! DeploymentType) (Some d)) in
      let no_ports := if is_migrating g sourceCluster then <[RolloutType := of_rollout]> no_ports else no_ports in
      (of_deployment, <[DeploymentType := of_deployment]> no_ports)
  | None => (of_rollout, <[RolloutType := of_rollout]> no_ports)
  end.

(** The name of the port, the ports and the policies in use; the environment of the cluster
    has to be there. *)
Definition sync_policies (sourceCluster : string) (meshPorts : gmap string Z) (v : sources) : W (proc_world St) sources :=
  s <- get_proc;;
  let v := v <| configuration := configuration v <| icClusters :=
             alter (fun c => c <| icIngressPortName := getIngressPortName meshPorts |>) sourceCluster
               (icClusters (configuration v)) |> |> in
  sync sourceCluster (fun e => Some (set_config_policies meshPorts
    (identityCache_GetFromIdentity (pc_gtps s) sourceIdentity env)
    (identityCache_GetFromIdentity (pc_ods s) sourceIdentity env)
    (identityCache_GetFromIdentity (pc_cccs s) sourceIdentity env) e)) v.

Definition additional_endpoints (sourceCluster : string) (v : sources) : W (proc_world St) sources :=
  match fetchResourceLabel (sourceDeployments g) (sourceRollouts g) sourceCluster with
  | None => wret v
  | Some labels =>
      enabled <- doGenerateAdditionalEndpoints p labels partitionedIdentity;;
      wret (v <| isAdditionalEndpointGenerationEnabled := enabled |>)
  end.

(** A cluster without the service of its type is left alone; the result tells whether an
    entry was processed for it. *)
Definition process_source (sourceCluster : string) (v : sources) : W (proc_world St) sources :=
  let eventNamespace := default "" (sourceClusterToEventNsCache g !! sourceCluster) in
  let services := default ∅ (sourceServices g !! sourceCluster) in
  v <- additional_endpoints sourceCluster v;;
  match services !! default "" (appType g !! sourceCluster) with
  | None => wret v
  | Some service =>
      match remoteControllers rr !! sourceCluster with
      | None => wpanic
      | Some rc =>
          let localFqdn := if is_migrating g sourceCluster then "" else local_fqdn p service in
          let '(meshPorts, meshDeployAndRolloutPorts) := source_ports sourceCluster services in
          v <- sync_policies sourceCluster meshPorts v;;
          s <- get_proc;;
          let '(clusterIngress, _, _) := getOverwrittenLoadBalancer p (Some (ServiceControllerCache rc)) clusterName
                                           (NLBEnabledCluster (pc_cnames s)) in
          v <- process_entries sourceCluster eventNamespace services service meshPorts meshDeployAndRolloutPorts
                 localFqdn clusterIngress (go_range 2 (entries v)).*1 v;;
          if IsAdmiralStateSyncerMode p
          then wret (v <| configuration := configuration v <| ClientAssets := dependents |> |>)
          else
            process_sidecars rc service localFqdn v ;;;
            discover_destinations sourceCluster rc eventNamespace services meshDeployAndRolloutPorts v
      end
  end.

Fixpoint process_sources (clusters : list string) (v : sources) : W (proc_world St) sources :=
  match clusters with
  | [] => wret v
  | cluster :: rest => v <- process_source cluster v;; process_sources rest v
  end.

(** ** The routing *)

Definition lifted {Obj} (clients : string -> KubeClient St Obj) (cluster : string) : KubeClient (proc_state St) Obj :=
  proc_client (clients cluster).

Definition lifted_list (cluster ns : string) (labels : gmap string string)
    : proc_state St -> proc_state St * (list VirtualServiceObj + api_error) :=
  on_pc_api (api_list cluster ns labels).

Definition write_ingress (v : sources) : W (proc_world St) sources :=
  err <- addUpdateVirtualServicesForIngress p message vs_on_error (lifted vsClients) (remoteControllers rr)
           (RoutingCaches rr) (sourceClusterToDestinations v) (cname g);;
  match err with
  | Some _ => wret (add_error err v)
  | None =>
      err <- addUpdateDestinationRuleForSourceIngress p (lifted drClients) (remoteControllers rr) slowStartConfigCache
               (TrafficConfigIdentity ctx) (TrafficConfigContextWorkloadEnvKey ctx) (sourceClusterToDRHosts v)
               sourceIdentity;;
      wret (add_error err v)
  end.

(** The error of the rollback is only logged. *)
Definition rollback : W (proc_world St) unit :=
  if ShouldInClusterVSRoutingPerformRollback p then
    performInVSRoutingRollback p message vs_on_error (lifted vsClients) (remoteControllers rr) lifted_list list_on_error
      sourceIdentity (Some (sourceClusterToEventNsCache g)) (cname g) ;;; wret tt
  else wret tt.

Definition write_incluster (v : sources) : W (proc_world St) sources :=
  s <- get_proc;;
  err <- addUpdateInClusterVirtualServices p readOnly message StringMatch_String is_invalid vs_on_error
           (lifted vsClients) (lifted drClients) (lifted sidecarClients) (remoteControllers rr) (RoutingCaches rr)
           (ClusterLocalityCache rr) (Some (pc_gtps s)) lifted_list list_on_error
           (sourceClusterToInClusterDestinations v) (cname g) sourceIdentity env (Some (sourceClusterToEventNsCache g));;
  match err with
  | Some _ => wret (add_error err v)
  | None =>
      s <- get_proc;;
      err <- addUpdateInClusterDestinationRule p (lifted drClients) (remoteControllers rr) slowStartConfigCache
               (TrafficConfigIdentity ctx) (TrafficConfigContextWorkloadEnvKey ctx) (Some (pc_cccs s))
               (sourceClusterToDRHosts v) sourceIdentity (cname g) env;;
      wret (add_error err v)
  end.

(** ** The dependent clusters *)

(** The clusters of the override, if there is one with values. *)
Definition override_clusters : W (proc_world St) (option ptr) :=
  match DependentClusterOverride ctx with
  | Some (Some o) =>
      values <- on_heap (Map_GetValues (Some o));;
      wret (if is_nil (head values) then None else Some (Some o))
  | _ => wret None
  end.

Definition dependent_targets (override : option ptr) (dependentClusters : gmap string string)
    : W (proc_world St) (gmap string string) :=
  match override with
  | None => wret dependentClusters
  | Some o =>
      on_heap (Map_RangeWith o (fun k v clusters =>
        mret (if is_nil (sourceServices g !! k) then <[k := v]> clusters else clusters)) ∅)
  end.

Definition write_dependents (override : option ptr) (dependentClusters : gmap string string) (v : sources)
    : W (proc_world St) sources :=
  clusters <- dependent_targets override dependentClusters;;
  err <- AddServiceEntriesWithDr ctx clusters (entries v) (isAdditionalEndpointGenerationEnabled v) false
           partitionedIdentity env "";;
  wret (add_error err v).
End Identity.

(** ** The whole *)

(** The policies in use, from those that were gathered; the result is the region that is
    preferred. *)
Definition update_policies (partitionedIdentity sourceIdentity : string) (g : locals)
    : W (proc_world St) (string * error) :=
  s <- get_proc;;
  let '(wst, cache, (region, err)) :=
    updateGlobalGtpCacheAndGetGtpPreferenceRegion p calculateShasum database partitionedIdentity env (gtps g)
      (pc_gtps s) (pc_api s, pc_shas s) in
  update_proc (fun s => s <| pc_api := wst.1 |> <| pc_shas := wst.2 |> <| pc_gtps := cache |>
    <| pc_ods := updateGlobalOutlierDetectionCache p sourceIdentity env (outlierDetections g) (pc_ods s) |>
    <| pc_cccs := (updateGlobalClientConnectionConfigCache p sourceIdentity env (clientConnectionSettings g)
                     (pc_cccs s)).1 |>) ;;;
  wret (region, err).

(** The clusters of the dependents, once the caches of the name are up to date. *)
Definition dependent_clusters_of (g : locals) (dependents : gomap) : W (proc_world St) (gmap string string) :=
  updateCnameDependentClusterNamespaceCache p dependents (cname g) (dom (sourceServices g)) ;;;
  c <- get_caches;;
  if is_nil (CnameDependentClusterCache (pointers c)) then wret ∅
  else
    clusters <- on_heap (MapOfMaps_Get (CnameDependentClusterCache (pointers c)) (cname g));;
    if is_nil clusters then wret ∅
    else copy <- on_heap (Map_Copy clusters);; wret (default ∅ copy).

(** The persona of the traffic configuration only looks at the additional endpoints. *)
Definition traffic_config_persona (partitionedIdentity : string) (g : locals) : W (proc_world St) unit :=
  witer (fun kv =>
    match fetchResourceLabel (sourceDeployments g) (sourceRollouts g) kv.1 with
    | None => wret tt
    | Some labels => doGenerateAdditionalEndpoints p labels partitionedIdentity ;;; wret tt
    end) (go_range 4 (sourceServices g)).

(** The writes of an identity whose entries and policies are known; [err] is the error so
    far. *)
Definition write_identity (partitionedIdentity sourceIdentity clusterName eventResourceType : string) (g : locals)
    (dependents : gomap) (override : option ptr) (dependentClusters : gmap string string) (err : error)
    : W (proc_world St) (gmap string ServiceEntry * error) :=
  match orderSourceClusters p (ClusterLocalityCache rr) (remoteControllers rr) (GtpPreferenceRegion ctx)
          (sourceServices g) with
  | None => wpanic
  | Some sourceClusterKeys =>
      v <- process_sources partitionedIdentity sourceIdentity clusterName eventResourceType g (default ∅ dependents)
             sourceClusterKeys
             (mkSources (serviceEntries g) (cnames g) false (mkIdentityConfig sourceIdentity (registryConfig g) ∅) ∅ ∅ ∅ err);;
      v <- write_ingress sourceIdentity g v;;
      rollback sourceIdentity g ;;;
      v <- write_incluster sourceIdentity g v;;
      v <- write_dependents partitionedIdentity g override dependentClusters v;;
      wret (entries v, errors v)
  end.
End Process.

Section Modify.
Context {range : GoRange} {sorting : GoSort} {yaml : Yaml} {St : Type} {addressClient : ConfigMapClient St}.
Context {writer : ConfigWriter (proc_world St)} {db : WorkloadDb St}.
Context (p : AdmiralParams) (readOnly : bool).
Context (message : api_error -> string) (StringMatch_String : StringMatch -> string)
  (is_invalid : string -> bool) (vs_on_error : option VirtualServiceObj).
Context (vsClients : string -> KubeClient St VirtualServiceObj)
  (drClients : string -> KubeClient St DestinationRuleObj) (sidecarClients : string -> KubeClient St SidecarObj).
Context (api_list : string -> string -> gmap string string -> St -> St * (list VirtualServiceObj + api_error))
  (list_on_error : option (list VirtualServiceObj)).
Context (ip_prefix : string) (calculateShasum : WorkloadData -> string) (database : bool).
Context (rr : RemoteRegistry) (slowStartConfigCache : ptr).
(** [ServiceEntrySuspender], and the start of the registry and the time of the warm-up
    check. *)
Context (suspended : string -> string -> bool) (startTime now : Z).
Context (ctx : proc_ctx) (event : EventType) (env : string).

(** The identity's deployments and rollouts and what is written for them. *)
Definition process_identity (identity sourceIdentity clusterName eventResourceType : string)
    : W (proc_world St) (option (gmap string ServiceEntry) * error) :=
  let ctx := ctx <| TrafficConfigIdentity := Some identity |> in
  override <- override_clusters ctx;;
  g <- gather_clusters p ip_prefix vs_on_error vsClients rr event env identity sourceIdentity clusterName
         eventResourceType (go_range 0 (remoteControllers rr)).*1 no_locals;;
  c <- get_caches;;
  dependents <- on_heap (mbnd (MapOfMaps_Get (IdentityDependencyCache c) identity) Map_Copy);;
  let g := g <| cname := trim_space (cname g) |> in
  if is_empty (cname g)
  then wret (None, AppendError (modifySEerr g) (Some "skipped processing as cname is empty"))
  else
    dependentClusters <- dependent_clusters_of p g dependents;;
    if IsPersonaTrafficConfig p then traffic_config_persona p identity g ;;; wret (None, None)
    else
      '(region, err) <- update_policies p calculateShasum database env identity sourceIdentity g;;
      '(entries, err) <- write_identity p readOnly message StringMatch_String is_invalid vs_on_error vsClients drClients
                           sidecarClients api_list list_on_error rr slowStartConfigCache env
                           (ctx <| GtpPreferenceRegion := Some region |>) identity sourceIdentity clusterName
                           eventResourceType g dependents override dependentClusters
                           (AppendError (modifySEerr g) err);;
      wret (Some entries, err).

Definition modifyServiceEntryForNewServiceOrPod (identity : string)
    : W (proc_world St) (option (gmap string ServiceEntry) * error) :=
  sourceIdentity <- getNonPartitionedIdentity p identity;;
  if suspended sourceIdentity env then wret (None, None)
  else if readOnly then wret (None, None)
  else if IsCacheWarmupTime p startTime now && negb (IsPersonaTrafficConfig p) then
    wret (None, Some ("task=" +:+ event_name event +:+ " name=" +:+ env +:+ " namespace=" +:+ sourceIdentity +:+
      " cluster= message=processing skipped during cache warm up state for env=" +:+ env +:+
      " identity=" +:+ sourceIdentity))
  else
    match ctxClusterName (px_event ctx), ctxEventResourceType (px_event ctx) with
    | Some clusterName, Some eventResourceType => process_identity identity sourceIdentity clusterName eventResourceType
    | _, _ => wret (None, None)
    end.
End Modify.
