(* ===== verification/LocalEntries.v ===== *)
(** * What the clusters are sent

    Properties of [modifyServiceEntryForNewServiceOrPod] ([ModifyServiceEntry.v]): what the
    writer of the service entries is called with, and that the entries are put back after
    every source cluster. *)
From S2P Require Import Prelude GoStrings Config Objects Metadata ServiceCache Policies AddressStore.
From S2P Require Import DestinationRules Writers ServiceEntries Caches Dependents World VirtualServices.
From S2P Require Import VsRouting Worker ClusterWriter StateCheck DeploymentController RolloutController.
From S2P Require Import RoutingRules RoutingWriter ServiceLookup SeState RegistryConfig GatherServiceEntries ModifyServiceEntry.
From stdpp Require Import options.
Local Open Scope Z_scope.
Local Open Scope world_scope.

(** ** Runs that keep a relation of the states *)

Section Steps.
Context {X : Type} (P : world X -> world X -> Prop) {pre : PreOrder P}.

(** A run that returns relates the states and has a result of the kind. *)
Definition steps {A} (R : A -> Prop) (c : W X A) : Prop := forall w a w', c w = Some (a, w') -> P w w' /\ R a.

Lemma steps_ret {A} (R : A -> Prop) a : R a -> steps R (wret a).
Proof using pre. intros HR w a' w' [= <- <-]. done. Qed.
Lemma steps_panic {A} (R : A -> Prop) : steps R wpanic.
Proof. done. Qed.
Lemma steps_bnd {A B} (R1 : A -> Prop) (R : B -> Prop) (c : W X A) (k : A -> W X B) :
  steps R1 c -> (forall a, R1 a -> steps R (k a)) -> steps R (wbnd c k).
Proof using pre.
  intros Hc Hk w b w' H. unfold wbnd in H. destruct (c w) as [[a w1]|] eqn:E; [|done].
  destruct (Hc _ _ _ E) as [HP HR]. destruct (Hk a HR _ _ _ H) as [HP' HR']. split; [by transitivity w1|done].
Qed.
Lemma steps_weaken {A} (R R' : A -> Prop) c : (forall a, R a -> R' a) -> steps R c -> steps R' c.
Proof. intros HR Hc w a w' H. destruct (Hc _ _ _ H). auto. Qed.
End Steps.

(** ** Endpoints *)

(** The endpoint without its labels. *)
Definition unlabelled (ep : WorkloadEntry) : WorkloadEntry := ep <| weLabels := None |>.

(** The name that a service has in its cluster. *)
Definition cluster_name (p : AdmiralParams) (service namespace : string) : string :=
  service +:+ "." +:+ namespace +:+ GetLocalDomainSuffix p.

(** The local names of a source cluster: those of its services, of its weighted services, and
    of the canary service of its rollout, which is in the namespace of the service. *)
Inductive is_local (p : AdmiralParams) (g : locals) (cluster address : string) : Prop :=
| local_service kind svc :
    default ∅ (sourceServices g !! cluster) !! kind = Some svc ->
    address = cluster_name p (Name (SvcMeta svc)) (Namespace (SvcMeta svc)) -> is_local p g cluster address
| local_weighted key ws :
    default ∅ (sourceWeightedServices g !! cluster) !! key = Some ws ->
    address = cluster_name p (Name (SvcMeta (wsService ws))) (Namespace (SvcMeta (wsService ws))) -> is_local p g cluster address
| local_canary r canary svc :
    sourceRollouts g !! cluster = Some r -> Canary (RoStrategy r) = Some canary ->
    default ∅ (sourceServices g !! cluster) !! default "" (appType g !! cluster) = Some svc ->
    address = cluster_name p (CanaryService canary) (Namespace (SvcMeta svc)) -> is_local p g cluster address.

(** The entry keeps the endpoints of the other clusters, and its own ones are those of the
    base or local. *)
Definition local_version (local : string -> Prop) (clusterIngress : string) (base se : ServiceEntry) : Prop :=
  (forall ep, ep ∈ seEndpoints base -> weAddress ep <> clusterIngress ->
     exists ep', ep' ∈ seEndpoints se /\ unlabelled ep' = unlabelled ep) /\
  (forall ep', ep' ∈ seEndpoints se ->
     (exists ep, ep ∈ seEndpoints base /\ unlabelled ep' = unlabelled ep) \/ local (weAddress ep')) /\
  se = base <| seEndpoints := seEndpoints se |>.

(** Every endpoint of the entries has an address. *)
Definition addressed (entries : gmap string ServiceEntry) : Prop :=
  forall key se, entries !! key = Some se -> Forall (fun ep => is_empty (weAddress ep) = false) (seEndpoints se).

Section Endpoints.
Context (p : AdmiralParams) (names : string -> Prop) (clusterIngress : string).

Lemma local_version_refl se : local_version names clusterIngress se se.
Proof. split_and!; [eauto|eauto|by destruct se]. Qed.

(** One endpoint with the ingress address is rewritten. *)
Lemma local_version_insert se i ep local :
  seEndpoints se !! i = Some ep -> weAddress ep = clusterIngress ->
  names (weAddress local) \/ local = ep ->
  local_version names clusterIngress se (se <| seEndpoints := <[i := local]> (seEndpoints se) |>).
Proof.
  intros Hi Ha Hl. split_and!; [| |done]; cbn.
  - intros ep0 Hin Hne. exists ep0. split; [|done]. apply list_elem_of_lookup in Hin as [j Hj].
    apply list_elem_of_lookup. exists j. rewrite list_lookup_insert_ne; [done|]. intros ->. congruence.
  - intros ep' Hin. apply list_elem_of_lookup in Hin as [j Hj]. apply list_lookup_insert_Some in Hj.
    destruct Hj as [(-> & <- & _)|[_ Hj]].
    + destruct Hl as [Hl|Hl]; [by right|]. subst local. left. eauto using list_elem_of_lookup_2.
    + left. eauto using list_elem_of_lookup_2.
Qed.

Lemma local_version_weighted {range : GoRange} se weights meshPorts :
  Forall (fun ep => is_empty (weAddress ep) = false) (seEndpoints se) ->
  (forall key ws, weights !! key = Some ws -> names (local_fqdn p (wsService ws))) ->
  local_version names clusterIngress se (updateEndpointsForWeightedServices p se weights clusterIngress meshPorts).
Proof.
  intros Hse Hnames. unfold updateEndpointsForWeightedServices. destruct (last _) as [own|]; [|apply local_version_refl].
  split_and!; [| |done]; cbn.
  - intros ep Hin Hne. exists ep. split; [|done]. apply elem_of_app. left. apply list_elem_of_In, filter_In.
    split; [by apply list_elem_of_In|]. unfold is_ingress.
    rewrite Forall_forall in Hse. specialize (Hse _ Hin). apply seqb_neq in Hne. rewrite Hne.
    destruct (weAddress ep =?s "") eqn:E; [|done]. apply seqb_eq in E. by rewrite E in Hse.
  - intros ep' Hin. apply elem_of_app in Hin as [Hin|Hin].
    + left. exists ep'. split; [|done]. apply list_elem_of_In, filter_In in Hin as [Hin _]. by apply list_elem_of_In.
    + right. apply list_elem_of_fmap in Hin as ([key ws] & -> & Hin). apply list_elem_of_In, filter_In in Hin as [Hin _].
      apply list_elem_of_In, go_range_elem in Hin. by eapply Hnames.
Qed.

Lemma local_version_migrated services se meshPorts deleted cluster present se' svcs :
  UpdateEndpointsForDeployToRolloutMigration p services se meshPorts clusterIngress deleted cluster present =
    (se', svcs, None) ->
  (forall kind svc, services !! kind = Some svc -> names (local_fqdn p svc)) ->
  local_version names clusterIngress se se'.
Proof.
  unfold UpdateEndpointsForDeployToRolloutMigration.
  destruct (services !! DeploymentType) as [d|] eqn:Ed; [|done]. destruct (services !! RolloutType) as [r|] eqn:Er; [|done].
  intros [= <- _] Hnames. split_and!; [| |done]; cbn.
  - intros ep Hin Hne. eexists. rewrite list_elem_of_In, in_concat. split.
    + eexists. split; [apply in_map, in_map, list_elem_of_In, Hin|].
      unfold migrate_endpoint. apply seqb_neq in Hne. rewrite Hne. by left.
    + done.
  - intros ep'. rewrite list_elem_of_In, in_concat. intros (l & Hl & Hin).
    rewrite map_map in Hl. apply in_map_iff in Hl as (ep & <- & Hep). unfold migrate_endpoint in Hin.
    destruct (weAddress ep =?s clusterIngress).
    + right. destruct (_ && _), (_ && _) in Hin; cbn in Hin; naive_solver eauto using Hnames.
    + left. exists ep. split; [by apply list_elem_of_In|]. destruct Hin as [<-|[]]. done.
Qed.
End Endpoints.

(** ** The calls of the writer *)

Record writer_call := mkCall {
  wc_ctx : proc_ctx;
  wc_clusters : gmap string string;
  wc_entries : gmap string ServiceEntry;
  wc_additional : bool;
  wc_source : bool;
  wc_identity : string;
  wc_env : string;
  wc_namespace : string
}.

(** The writer that logs its calls, and fails as [f] says. *)
Definition tracing_writer {St} (f : writer_call -> error) : ConfigWriter (proc_world (St * list writer_call)) := {|
  AddServiceEntriesWithDr ctx clusters entries additional source identity env namespace :=
    let call := mkCall ctx clusters entries additional source identity env namespace in
    on_api (fun s =>
      (s <| rs_api := (rs_api s) <| pc_api := ((pc_api (rs_api s)).1, (pc_api (rs_api s)).2 ++ [call]) |> |>, f call))
|}.

Definition calls {St} (w : world (proc_world (St * list writer_call))) : list writer_call :=
  (pc_api (rs_api (w_api w))).2.

(** The log grows by calls of a kind. *)
Definition calls_of {St} (Q : writer_call -> Prop) (w w' : world (proc_world (St * list writer_call))) : Prop :=
  exists new, calls w' = calls w ++ new /\ Forall Q new.

#[export] Instance calls_of_preorder {St} Q : PreOrder (@calls_of St Q).
Proof.
  split.
  - intros w. exists []. by rewrite app_nil_r.
  - intros w1 w2 w3 (l1 & E1 & H1) (l2 & E2 & H2). exists (l1 ++ l2).
    by rewrite E2, E1, app_assoc, Forall_app.
Qed.

(** ** The entries of a source cluster *)

Section Entries.
Context {range : GoRange} {St : Type} {writer : ConfigWriter (proc_world St)}.
Context (P : world (proc_world St) -> world (proc_world St) -> Prop) {pre : PreOrder P}.
Context (p : AdmiralParams) (ctx : proc_ctx) (env partitionedIdentity eventResourceType : string) (g : locals).
Context (sourceCluster eventNamespace : string) (services : gmap string ServiceObj) (service : ServiceObj).
Context (meshPorts : gmap string Z) (meshDeployAndRolloutPorts : gmap string (gmap string Z)).
Context (localFqdn clusterIngress : string).
Context (base : gmap string ServiceEntry).

(** The call for a source cluster: the cluster alone, with a local version of one of the
    entries. *)
Definition source_call (call : writer_call) : Prop :=
  wc_ctx call = ctx /\ wc_clusters call = {[ sourceCluster := sourceCluster ]} /\ wc_source call = true /\
  wc_identity call = partitionedIdentity /\ wc_env call = env /\ wc_namespace call = eventNamespace /\
  exists key b se, base !! key = Some b /\ wc_entries call = {[ key := se ]} /\
    local_version (is_local p g sourceCluster) clusterIngress b se.

Context (Hwriter : forall call, source_call call ->
  steps P (fun _ => True) (AddServiceEntriesWithDr (wc_ctx call) (wc_clusters call) (wc_entries call)
    (wc_additional call) (wc_source call) (wc_identity call) (wc_env call) (wc_namespace call))).
Context (Hbase : addressed base) (Hmode : IsAdmiralStateSyncerMode p = false)
  (Hservices : services = default ∅ (sourceServices g !! sourceCluster))
  (Hservice : services !! default "" (appType g !! sourceCluster) = Some service)
  (Hlocal : is_migrating g sourceCluster = false -> localFqdn = local_fqdn p service).

(** The entries are those of the start. *)
Definition kept (v : sources) : Prop := entries v = base.

Lemma write_entry_steps key b se v :
  base !! key = Some b -> local_version (is_local p g sourceCluster) clusterIngress b se ->
  steps P (fun v' => entries v' = entries v)
    (write_entry env ctx partitionedIdentity sourceCluster eventNamespace key se v).
Proof using pre Hwriter.
  intros Hb Hl. apply (steps_bnd P (fun _ => True)).
  - refine (Hwriter (mkCall ctx {[ sourceCluster := sourceCluster ]} {[ key := se ]}
      (isAdditionalEndpointGenerationEnabled v) true partitionedIdentity env eventNamespace) _).
    split_and!; eauto 10.
  - intros err _. by apply steps_ret.
Qed.

(** An endpoint that is put back leaves the entries as they were. *)
Lemma set_endpoint_put_back key i local (b : ServiceEntry) ep :
  base !! key = Some b -> seEndpoints b !! i = Some ep ->
  set_endpoint key i ep (set_endpoint key i local base) = base.
Proof using.
  intros Hb Hi. apply map_eq. intros k. unfold set_endpoint.
  destruct (decide (k = key)) as [->|Hk]; [|by rewrite !lookup_alter_ne by done].
  rewrite !lookup_alter_eq, Hb. cbn. f_equal.
  destruct b as [h a po lo re eps ex su]. cbn in *. f_equal.
  by rewrite list_insert_insert_eq, list_insert_id.
Qed.

Lemma write_localized_steps key i b ep local v :
  kept v -> base !! key = Some b -> seEndpoints b !! i = Some ep -> weAddress ep = clusterIngress ->
  local <| weAddress := clusterIngress |> <| wePorts := wePorts ep |> = ep ->
  is_local p g sourceCluster (weAddress local) \/ local = ep ->
  steps P kept (write_localized env ctx partitionedIdentity sourceCluster eventNamespace clusterIngress key i local
                  (wePorts ep) v).
Proof using pre Hwriter.
  intros Hk Hb Hi Ha Hback Hl. unfold write_localized.
  apply (steps_bnd P (fun v' => entries v' = set_endpoint key i local base)).
  - unfold write_current.
    assert (entries (update_endpoint key i local v) !! key
            = Some (b <| seEndpoints := <[i := local]> (seEndpoints b) |>)) as ->.
    { cbn. unfold set_endpoint. rewrite lookup_alter_eq, Hk, Hb. done. }
    eapply steps_weaken; [|eapply write_entry_steps; [done|by eapply local_version_insert]].
    intros v' ->. cbn. by rewrite Hk.
  - intros v' Hv'. apply steps_ret; [done|]. unfold kept. cbn. rewrite Hv', Hback. by eapply set_endpoint_put_back.
Qed.

Lemma weighted_local key ws :
  weighted g sourceCluster !! key = Some ws -> is_local p g sourceCluster (local_fqdn p (wsService ws)).
Proof using. intros H. by eapply local_weighted. Qed.

Lemma blue_green_endpoint r cnames ep key ep' cnames' ws :
  updateEndpointsForBlueGreen p r (weighted g sourceCluster) cnames ep key = Some (ep', cnames', ws) ->
  ep' <| weAddress := weAddress ep |> <| wePorts := wePorts ep |> = ep /\
  (is_local p g sourceCluster (weAddress ep') \/ ep' = ep).
Proof using.
  assert (ep <| weAddress := weAddress ep |> <| wePorts := wePorts ep |> = ep) as Hep by by destruct ep.
  unfold updateEndpointsForBlueGreen. destruct (BlueGreen _) as [bg|]; [|done]. cbn. intros [= H].
  revert H. unfold localize.
  destruct (has_prefix _ _), (weighted g sourceCluster !! PreviewService bg) eqn:Epv,
    (weighted g sourceCluster !! ActiveService bg) eqn:Eac; intros [= <- _ _];
    cbn; split; try done; try (by right); left; by eapply weighted_local.
Qed.

Lemma process_own_steps key i b ep v :
  kept v -> base !! key = Some b -> seEndpoints b !! i = Some ep -> weAddress ep = clusterIngress ->
  steps P (fun r => kept r.1)
    (process_own_endpoint p env ctx partitionedIdentity g sourceCluster eventNamespace services service meshPorts
       meshDeployAndRolloutPorts localFqdn clusterIngress key i ep v).
Proof using pre Hwriter Hbase Hmode Hlocal Hservices Hservice.
  intros Hk Hb Hi Ha.
  assert (forall c, steps P kept c -> steps P (fun r => kept r.1) (v <- c;; wret (v, true))) as Hgo.
  { intros c Hc. apply (steps_bnd P kept); [done|]. intros v' Hv'. by apply steps_ret. }
  assert (forall a, ep <| weAddress := a |> <| wePorts := meshPorts |> <| weAddress := clusterIngress |>
                      <| wePorts := wePorts ep |> = ep) as Hput.
  { intros a. rewrite <- Ha. by destruct ep. }
  assert (entries v !! key = Some b) as Hv by by rewrite Hk.
  assert (steps P (fun r => kept r.1)
    (if Nat.ltb 1 (size (weighted g sourceCluster)) then
       v <- process_weighted p env ctx partitionedIdentity g sourceCluster eventNamespace meshPorts clusterIngress key v;;
       wret (v, true)
     else if is_migrating_here g sourceCluster then
       process_migration p env ctx partitionedIdentity g sourceCluster eventNamespace services
         meshDeployAndRolloutPorts clusterIngress key v
     else v <- process_regular p env ctx partitionedIdentity sourceCluster eventNamespace service meshPorts localFqdn
                 clusterIngress key i ep v;; wret (v, true))) as Hrest.
  { destruct (Nat.ltb _ _); [|destruct (is_migrating_here _ _) eqn:Em].
    - apply Hgo. unfold process_weighted. rewrite Hv, Hmode.
      eapply steps_weaken; [|eapply write_entry_steps; [done|apply local_version_weighted; [by eapply Hbase|] ]].
      + intros v' Hv'. unfold kept. by rewrite Hv'.
      + apply weighted_local.
    - unfold process_migration. rewrite Hv. destruct (UpdateEndpointsForDeployToRolloutMigration _ _ _ _ _ _ _ _)
        as [[se svcs] [err|]] eqn:E; [by apply steps_ret|]. rewrite Hmode. apply Hgo.
      eapply steps_weaken; [|eapply write_entry_steps; [done|eapply local_version_migrated; [done|] ]].
      + intros v' Hv'. unfold kept. by rewrite Hv'.
      + intros kind svc Hs. rewrite Hservices in Hs. by eapply local_service.
    - apply Hgo. unfold process_regular. rewrite Hmode. eapply write_localized_steps; try done.
      left. cbn. rewrite Hlocal by (unfold is_migrating_here in Em; done).
      rewrite Hservices in Hservice. by eapply local_service. }
  unfold process_own_endpoint. destruct (sourceRollouts g !! sourceCluster) as [r|] eqn:Er; [|apply Hrest].
  destruct (blue_green r) eqn:Ebg.
  - apply Hgo. unfold process_blue_green. destruct (updateEndpointsForBlueGreen _ _ _ _ _ _) as [[[ep' cn] ws]|] eqn:E;
      [|apply steps_panic]. rewrite Hmode. apply blue_green_endpoint in E as [Hback Hl].
    eapply write_localized_steps; try done. by rewrite <- Ha.
  - destruct (canary_istio r) as [canary|] eqn:Ecan; [|apply Hrest]. destruct (has_prefix _ _); [|apply Hrest].
    apply Hgo. unfold process_canary. rewrite Hmode. eapply write_localized_steps; try done.
    left. rewrite Hservices in Hservice. eapply local_canary; [exact Er| |exact Hservice|reflexivity].
    unfold canary_istio in Ecan. destruct (Canary _) as [c|]; [|done].
    destruct (TrafficRouting c) as [[t|]|]; [|done..]. destruct (is_empty _); congruence.
Qed.

Lemma process_endpoints_steps key indices b v :
  kept v -> base !! key = Some b ->
  steps P kept
    (process_endpoints p env ctx partitionedIdentity g sourceCluster eventNamespace services service meshPorts
       meshDeployAndRolloutPorts localFqdn clusterIngress key indices v).
Proof using pre Hwriter Hbase Hmode Hlocal Hservices Hservice.
  intros Hk Hb. revert v Hk. induction indices as [|i indices IH]; intros v Hk; [by apply steps_ret|]. cbn.
  unfold endpoint. rewrite Hk, Hb. cbn. destruct (seEndpoints b !! i) as [ep|] eqn:Ei; [|by apply IH].
  destruct (_ || _) eqn:Eo; [|by apply IH].
  apply (steps_bnd P (fun r => kept r.1)).
  - eapply process_own_steps; [done..|]. apply orb_true_iff in Eo as [E|E]; [by apply seqb_eq|].
    specialize (Hbase _ _ Hb). rewrite Forall_lookup in Hbase. specialize (Hbase _ _ Ei). cbn in Hbase. congruence.
  - intros [v' []] Hv'; [by apply IH|by apply steps_ret].
Qed.

Lemma process_entry_steps key v :
  kept v ->
  steps P kept
    (process_entry p env ctx partitionedIdentity eventResourceType g sourceCluster eventNamespace services service
       meshPorts meshDeployAndRolloutPorts localFqdn clusterIngress key v).
Proof using pre Hwriter Hbase Hmode Hlocal Hservices Hservice.
  intros Hk. unfold process_entry. rewrite Hk. destruct (base !! key) as [b|] eqn:Hb; [|by apply steps_ret].
  rewrite Hmode, andb_false_r. apply (steps_bnd P kept).
  - destruct (_ || _); [|by apply steps_ret].
    eapply steps_weaken; [|eapply write_entry_steps; [done|apply local_version_refl]].
    intros v' Hv'. unfold kept. by rewrite Hv'.
  - intros v' Hv'. by eapply process_endpoints_steps.
Qed.

Lemma process_entries_steps keys v :
  kept v ->
  steps P kept
    (process_entries p env ctx partitionedIdentity eventResourceType g sourceCluster eventNamespace services service
       meshPorts meshDeployAndRolloutPorts localFqdn clusterIngress keys v).
Proof using pre Hwriter Hbase Hmode Hlocal Hservices Hservice.
  revert v. induction keys as [|key keys IH]; intros v Hk; [by apply steps_ret|]. cbn.
  apply (steps_bnd P kept); [by apply process_entry_steps|]. intros v' Hv'. by apply IH.
Qed.
End Entries.

(** ** The source clusters *)

(** A client that leaves the log alone. *)
Definition unlogged {St Obj} (client : KubeClient St Obj) : KubeClient (St * list writer_call) Obj :=
  let on_fst {A} (f : St -> St * A) (s : St * list writer_call) := let '(s', a) := f s.1 in ((s', s.2), a) in {|
  api_create ns o := on_fst (api_create ns o);
  api_update ns o := on_fst (api_update ns o);
  api_delete ns n := on_fst (api_delete ns n);
  api_get ns n := on_fst (api_get ns n)
|}.

(** The API and the clusters of the names are the same. *)
Definition keeps_api {St} (s s' : proc_world St) : Prop :=
  pc_api (rs_api s') = pc_api (rs_api s) /\ pc_cnames (rs_api s') = pc_cnames (rs_api s).

#[export] Instance keeps_api_preorder {St} : PreOrder (@keeps_api St).
Proof. split; [done|]. intros s1 s2 s3 [??] [??]. split; congruence. Qed.

Lemma get_proc_keeps {St} : api_post (@get_proc St) keeps_api.
Proof. apply api_post_api. intros s. reflexivity. Qed.

Lemma doGenerateAdditionalEndpoints_keeps {range : GoRange} {St} p labels identity :
  api_post (@doGenerateAdditionalEndpoints range St p labels identity) keeps_api.
Proof.
  unfold doGenerateAdditionalEndpoints. destruct (is_nil _); [by apply (api_post_ret keeps_api)|].
  destruct (str_in _ _); [by apply (api_post_ret keeps_api)|]. destruct (doesContainLabel _ _).
  - apply (api_post_bnd keeps_api); [by apply api_post_api|]. intros. by apply (api_post_ret keeps_api).
  - repeat (apply (api_post_bnd keeps_api);
      [try by (apply (api_post_heap keeps_api) || apply (api_post_caches keeps_api) || apply get_proc_keeps)|intros]).
    + destruct (is_nil _); [by apply (api_post_ret keeps_api)|by apply (api_post_heap keeps_api)].
    + by apply (api_post_ret keeps_api).
Qed.

(** The log and the clusters of the names are the same. *)
Definition quiet {St} (s s' : proc_world (St * list writer_call)) : Prop :=
  pc_cnames (rs_api s') = pc_cnames (rs_api s) /\ (pc_api (rs_api s')).2 = (pc_api (rs_api s)).2.

#[export] Instance quiet_preorder {St} : PreOrder (@quiet St).
Proof. split; [done|]. intros s1 s2 s3 [??] [??]. split; congruence. Qed.

(** The log grows by calls of a kind, and the clusters of the names are the same. *)
Definition grows_by {St} (Q : writer_call -> Prop) (w w' : world (proc_world (St * list writer_call))) : Prop :=
  pc_cnames (rs_api (w_api w')) = pc_cnames (rs_api (w_api w)) /\ calls_of Q w w'.

#[export] Instance grows_by_preorder {St} Q : PreOrder (@grows_by St Q).
Proof.
  split; [split; [done|reflexivity]|]. intros w1 w2 w3 [? H1] [? H2]. split; [congruence|]. by transitivity w2.
Qed.

Section Quiet.
Context {range : GoRange} {St : Type}.
Abbreviation X := (proc_world (St * list writer_call)).

Lemma quiet_steps {A} Q (c : W X A) : api_post c quiet -> steps (grows_by Q) (fun _ => True) c.
Proof.
  intros Hc w a w' H. destruct (Hc _ _ _ H) as [E1 E2]. split; [|done]. split; [done|]. exists [].
  by rewrite app_nil_r.
Qed.

Lemma unlogged_post {Obj} (client : KubeClient St Obj) :
  client_post (routing_client (proc_client (unlogged client))) quiet (fun _ _ => True) (fun _ _ => True).
Proof.
  assert (forall A (f : St -> St * A) s,
    quiet s (on_rs_api (on_pc_api (fun s => let '(s', a) := f s.1 in ((s', s.2), a))) s).1) as Hf.
  { intros A f s. unfold on_rs_api, on_pc_api. by destruct (f (pc_api (rs_api s)).1). }
  split; intros; apply Hf.
Qed.

Lemma get_proc_quiet : api_post (@get_proc (St * list writer_call)) quiet.
Proof. apply api_post_api. intros s. reflexivity. Qed.

Lemma update_proc_quiet (f : proc_state (St * list writer_call) -> proc_state (St * list writer_call)) :
  (forall s, pc_cnames (f s) = pc_cnames s /\ pc_api (f s) = pc_api s) -> api_post (update_proc f) quiet.
Proof. intros Hf. apply api_post_api. intros s. destruct (Hf (rs_api s)) as [E1 E2]. split; cbn; congruence. Qed.

Lemma doGenerateAdditionalEndpoints_quiet p labels identity :
  api_post (@doGenerateAdditionalEndpoints range (St * list writer_call) p labels identity) quiet.
Proof.
  intros w a w' H. destruct (doGenerateAdditionalEndpoints_keeps _ _ _ _ _ _ H) as [E1 E2]. split; congruence.
Qed.

Lemma send_sidecar_quiet readOnly (clients : string -> KubeClient St SidecarObj) is_invalid cluster obj old ns :
  api_post (send_sidecar readOnly (fun c => proc_client (unlogged (clients c))) is_invalid cluster obj old ns) quiet.
Proof.
  unfold send_sidecar. destruct readOnly; [by apply (api_post_ret quiet)|].
  apply (api_post_bnd quiet); [|].
  - apply api_post_api. intros s. by apply (post_update _ _ _ _ (unlogged_post (clients cluster))).
  - intros [e|]; [|by apply (api_post_ret quiet)]. apply (api_post_bnd quiet); [|intros; by apply (api_post_ret quiet)].
    apply api_post_api. intros s. unfold retryUpdatingSidecar. destruct (conflict_or_invalid _ _); [|reflexivity].
    by apply (retry_loop_post quiet _ _ (unlogged_post (clients cluster))).
Qed.

Lemma modifySidecar_quiet p readOnly (clients : string -> KubeClient St SidecarObj) is_invalid ns identity egress rc :
  api_post (modifySidecarForLocalClusterCommunication p readOnly (fun c => unlogged (clients c)) is_invalid ns identity
              egress rc) quiet.
Proof.
  unfold modifySidecarForLocalClusterCommunication. destruct rc as [rc|]; [|by apply (api_post_ret quiet)].
  apply (api_post_bnd quiet); [by apply api_post_api|]. intros s.
  destruct (SidecarEgressMap_Get _ _); [|by apply (api_post_ret quiet)].
  destruct (rs_sidecars s !! _); [|by apply (api_post_ret quiet)].
  apply (api_post_bnd quiet); [|].
  - apply api_post_api. intros s'. apply (post_get _ _ _ _ (unlogged_post (clients (ClusterID rc)))).
  - intros [sidecar|]; [|by apply (api_post_ret quiet)]. cbn. destruct (sdEgress _); [by apply (api_post_ret quiet)|].
    apply (api_post_bnd quiet); [apply send_sidecar_quiet|]. intros. by apply (api_post_ret quiet).
Qed.
End Quiet.

Section Sources.
Context {range : GoRange} {sorting : GoSort} {St : Type} (f : writer_call -> error).
Context (p : AdmiralParams) (readOnly : bool) (is_invalid : string -> bool)
  (sidecarClients : string -> KubeClient St SidecarObj).
Context (rr : RemoteRegistry) (env : string) (ctx : proc_ctx).
Context (partitionedIdentity sourceIdentity clusterName eventResourceType : string).
Context (g : locals) (dependents : gmap string string).

#[local] Instance tracing : ConfigWriter (proc_world (St * list writer_call)) := tracing_writer f.

(** The ingress address that stands for a cluster's own endpoint. *)
Definition ingress_of (nlbs : list string) (cluster : string) : string :=
  match remoteControllers rr !! cluster with
  | Some rc => (getOverwrittenLoadBalancer p (Some (ServiceControllerCache rc)) clusterName nlbs).1.1
  | None => ""
  end.

(** A call for one of the source clusters. *)
Definition call_for (nlbs : list string) (base : gmap string ServiceEntry) (clusters : list string)
    (call : writer_call) : Prop :=
  exists cluster, cluster ∈ clusters /\
    source_call p ctx env partitionedIdentity g cluster (default "" (sourceClusterToEventNsCache g !! cluster))
      (ingress_of nlbs cluster) base call.

Abbreviation run_source :=
  (@process_source range sorting (St * list writer_call) tracing p readOnly is_invalid
     (fun c => unlogged (sidecarClients c)) rr env ctx partitionedIdentity sourceIdentity clusterName eventResourceType
     g dependents).
Abbreviation run_sources :=
  (@process_sources range sorting (St * list writer_call) tracing p readOnly is_invalid
     (fun c => unlogged (sidecarClients c)) rr env ctx partitionedIdentity sourceIdentity clusterName eventResourceType
     g dependents).

Lemma discover_steps Q cluster rc ns services ports v :
  steps (grows_by Q) (fun v' => entries v' = entries v)
    (@discover_destinations range sorting (St * list writer_call) p rr env sourceIdentity g cluster rc ns services ports v).
Proof.
  unfold discover_destinations. destruct (getClusterRegion _ _ _ _) as [[region err]|]; [|apply steps_panic].
  destruct (getAllVSRouteDestinationsByCluster _ _ _ _ _ _ _) as [ds|e]; [|by apply (steps_ret (grows_by Q))].
  destruct (Nat.eqb _ _); [by apply (steps_ret (grows_by Q))|].
  apply (steps_bnd (grows_by Q) (fun _ => True)); [apply quiet_steps, api_post_api; intros s; reflexivity|].
  intros s _. by apply (steps_ret (grows_by Q)).
Qed.

Lemma process_sidecars_quiet rc service localFqdn v :
  api_post (@process_sidecars range (St * list writer_call) p readOnly is_invalid (fun c => unlogged (sidecarClients c))
              sourceIdentity dependents rc service localFqdn v) quiet.
Proof.
  unfold process_sidecars. apply (api_post_bnd quiet).
  - destruct (_ =?s _); [|by apply (api_post_ret quiet)]. apply (api_post_bnd quiet); [apply get_proc_quiet|]. intros s.
    apply (api_post_bnd quiet); [apply modifySidecar_quiet|]. intros. by apply (api_post_ret quiet).
  - intros _. apply (api_post_iter quiet). intros kv. by apply update_proc_quiet.
Qed.

Lemma tracing_steps Q call : Q call ->
  steps (grows_by (St := St) Q) (fun _ => True) (AddServiceEntriesWithDr (wc_ctx call) (wc_clusters call) (wc_entries call)
    (wc_additional call) (wc_source call) (wc_identity call) (wc_env call) (wc_namespace call)).
Proof.
  intros HQ w e w' H. cbn in H. unfold on_api in H. injection H as <- <-. split; [|done]. split; [done|].
  exists [call]. split; [|by apply Forall_singleton]. by destruct call.
Qed.

Lemma sync_policies_steps Q cluster meshPorts v :
  steps (grows_by Q) (fun v' => entries v' = entries v)
    (@sync_policies range (St * list writer_call) env sourceIdentity cluster meshPorts v).
Proof.
  apply (steps_bnd (grows_by Q) (fun _ => True)); [apply quiet_steps, get_proc_quiet|]. intros s _. unfold sync.
  destruct (at_environment _ _ _ _); [by apply (steps_ret (grows_by Q))|apply steps_panic].
Qed.

Lemma process_source_steps cluster v w v' w' :
  addressed (entries v) -> IsAdmiralStateSyncerMode p = false ->
  run_source cluster v w = Some (v', w') ->
  entries v' = entries v /\
  grows_by (call_for (NLBEnabledCluster (pc_cnames (rs_api (w_api w)))) (entries v) [cluster]) w w'.
Proof.
  intros Ha Hm. unfold process_source. set (Q := call_for _ _ _).
  intros (v1 & w1 & E1 & H)%wbnd_Some.
  assert (steps (grows_by Q) (fun v' => entries v' = entries v)
    (@additional_endpoints range (St * list writer_call) p partitionedIdentity g cluster v)) as Hadd.
  { unfold additional_endpoints. destruct (fetchResourceLabel _ _ _); [|by apply (steps_ret (grows_by Q))].
    apply (steps_bnd (grows_by Q) (fun _ => True)); [apply quiet_steps, doGenerateAdditionalEndpoints_quiet|].
    intros b _. by apply (steps_ret (grows_by Q)). }
  destruct (Hadd _ _ _ E1) as [HP0 Hv0].
  destruct (_ !! default "" _) as [service|] eqn:Esvc; [|by injection H as <- <-].
  destruct (remoteControllers rr !! cluster) as [rc|] eqn:Erc; [|done].
  destruct (source_ports _ _ _) as [meshPorts ports].
  apply wbnd_Some in H as (v0 & w0 & E0 & H). destruct (sync_policies_steps Q _ _ _ _ _ _ E0) as [HP0' Hv0'].
  assert (grows_by Q w w0) as HP1 by by etrans. assert (entries v0 = entries v) as Hv1 by congruence.
  apply wbnd_Some in H as (s & w2 & E2 & H). injection E2 as Es <-.
  set (w2 := w0 <| w_api := w_api w0 |>) in H. assert (grows_by Q w w2) as HP2.
  { etrans; [exact HP1|]. split; [done|]. exists []. by rewrite app_nil_r. }
  destruct (getOverwrittenLoadBalancer _ _ _ _) as [[ci port] err] eqn:Elb.
  assert (ci = ingress_of (NLBEnabledCluster (pc_cnames (rs_api (w_api w)))) cluster) as Hci.
  { unfold ingress_of. rewrite Erc. destruct HP1 as [<- _]. rewrite <- Es in Elb. by rewrite Elb. }
  assert (forall c : W (proc_world (St * list writer_call)) sources, steps (grows_by Q) (fun v' => entries v' = entries v) c ->
    c w2 = Some (v', w') -> entries v' = entries v /\ grows_by Q w w') as Hdone.
  { intros c Hc E. destruct (Hc _ _ _ E) as [HP ?]. split; [done|]. by etrans. }
  eapply Hdone, H. apply (steps_bnd (grows_by Q) (fun v' => entries v' = entries v)).
  - eapply (process_entries_steps (grows_by Q)); [|exact Ha|done|reflexivity|exact Esvc| |exact Hv1].
    + intros call Hcall. apply tracing_steps. exists cluster. split; [apply list_elem_of_here|]. by rewrite <- Hci.
    + by intros ->.
  - intros v2 Hv2. rewrite Hm. apply (steps_bnd (grows_by Q) (fun _ => True)); [apply quiet_steps, process_sidecars_quiet|].
    intros _ _. rewrite <- Hv2. apply discover_steps.
Qed.

Lemma call_for_weaken nlbs base l l' call :
  (forall c, c ∈ l -> c ∈ l') -> call_for nlbs base l call -> call_for nlbs base l' call.
Proof. intros Hl (c & Hc & H). exists c. auto. Qed.

End Sources.

(** ** The property at a concrete input *)

(** The identity [foo] runs in [c1] and [c2]; the loop is at [c1]. *)
Definition foo_deployment : DeploymentObj :=
  mkDeployment (mkMeta "foo" "ns" None None 0 "1") (mkTemplate None None)
    (Some (mkSelector (Some {[ "app" := "foo" ]}))) None 1 "".
Definition foo_endpoint (address locality : string) : WorkloadEntry :=
  mkWorkloadEntry address {[ "http" := 15443 ]} (endpoint_labels "deployment") locality 0.
Definition foo_entry (own : string) : ServiceEntry :=
  mkServiceEntry ["dev.foo.mesh"] [] [] MESH_INTERNAL DNS
    [foo_endpoint own "us-west-2"; foo_endpoint "lb2" "us-east-2"] [] [].
Definition foo_locals (own : string) : locals :=
  no_locals <| sourceServices := {[ "c1" := {[ DeploymentType := service_named "foo" ]} ]} |>
    <| sourceDeployments := {[ "c1" := foo_deployment ]} |> <| appType := {[ "c1" := DeploymentType ]} |>
    <| sourceClusterToEventNsCache := {[ "c1" := "ns" ]} |> <| cname := "dev.foo.mesh" |>
    <| serviceEntries := {[ "dev.foo.mesh" := foo_entry own ]} |>
    <| namespace := "ns" |>
    <| registryConfig := {[ "c1" := mkIdentityCluster "c1" "us-west-2" "lb1" "15443" ""
         {[ "dev" := new_config_environment "dev" "ns" DeploymentType (Some {[ "app" := "foo" ]}) ]} ]} |>.
Definition foo_sources (own : string) : sources :=
  mkSources (serviceEntries (foo_locals own)) ∅ false (mkIdentityConfig "foo" (registryConfig (foo_locals own)) ∅) ∅ ∅ ∅ None.
Definition foo_params : AdmiralParams := gw_params <| Params.NLBIngressLabel := "nlb" |>.

(** [c1] has a gateway and a network load balancer. *)
Definition nlb_service : ServiceObj :=
  mkService (mkMeta "nlb" NamespaceIstioSystem (Some {[ "app" := "nlb" ]}) None 0 "")
    [mkSvcPort "mtls" 15443 (mkIntOrString 15443 "") 0] None [] [mkLbIngress "nlb1" ""].
Definition foo_controller : RemoteController :=
  mkRC "c1" (Some (Some (ServiceCache_Put (ServiceCache_Put ∅ (gateway_service "lb1")) nlb_service))) (Some "us-west-2").
Definition foo_registry : RemoteRegistry := mkRegistry {[ "c1" := foo_controller ]} ∅ ∅ ∅ ∅ ∅ ∅ None.
Definition foo_world (nlbs : list string) : world (proc_world (unit * list writer_call)) :=
  mkWorld (mkRouting (mkProc (tt, []) (mkAdmiralCache ∅ nlbs) ∅ ∅ ∅ ∅ ∅ ∅) ∅ ∅ ∅) (mkHeap ∅ ∅ 0 ∅)
    (mkAdmiralCaches (mkCachePointers None None None None None) None None None None) empty_store ∅.

Definition foo_ctx : proc_ctx := mkProcCtx (mkCtx (Some "c1") (Some DeploymentType) (Some Update) None) None None None None.
#[local] Instance silent_sidecars : KubeClient unit SidecarObj := {|
  api_create _ _ s := (s, None);
  api_update _ _ s := (s, None);
  api_delete _ _ s := (s, None);
  api_get _ _ s := (s, inr NotFound)
|}.

(** The loop over [c1], for an event of the cluster [eventCluster]. *)
Definition run_foo (eventCluster own : string) (nlbs : list string) :
    option (sources * world (proc_world (unit * list writer_call))) :=
  process_sources (writer := tracing_writer (fun _ => None)) foo_params false (fun _ => false)
    (fun _ => unlogged silent_sidecars) foo_registry "dev" foo_ctx "foo" "foo" eventCluster DeploymentType
    (foo_locals own) ∅ ["c1"] (foo_sources own) (foo_world nlbs).
Definition foo_after (eventCluster own : string) (nlbs : list string) : world (proc_world (unit * list writer_call)) :=
  match run_foo eventCluster own nlbs with Some (_, w) => w | None => foo_world nlbs end.
Definition sent_endpoints (eventCluster own : string) (nlbs : list string) : list (list string) :=
  map (fun call => flat_map (fun kv => map weAddress (seEndpoints kv.2)) (map_to_list (wc_entries call)))
    (calls (foo_after eventCluster own nlbs)).


(** The network load balancer of [c1] is in its endpoint, but the loop compares it with the
    load balancer for the cluster of the event: after an event of [c2], the cluster gets no
    entry with its local names. *)
Lemma nlb_endpoint_not_localized :
  sent_endpoints "c1" "nlb1" ["c1"] = [["foo.ns.svc.cluster.local"; "lb2"]] /\
  weAddress (cluster_endpoint foo_params (mkAdmiralCache ∅ ["c1"]) foo_controller ∅ DeploymentType) = "nlb1" /\
  sent_endpoints "c2" "nlb1" ["c1"] = [].
Proof. vm_compute. done. Qed.
