(* ===== verification/ConfigControllers.v ===== *)
(** * The controllers of the configuration

    [controller/admiral/dependency.go], [trafficconfig.go], [shard.go], [node.go] and
    [routingpolicy.go]: the caches of the dependencies, traffic configurations and shards,
    which have the shape of [ResourceController.v], the locality of the nodes, and the
    routing policies, which no controller keeps. *)
From S2P Require Import Prelude GoStrings Config Objects Metadata ServiceCache Controller ResourceController.
From stdpp Require Import options.

(** [LogCacheFormat] for an item that is not there. *)
Definition not_cached (kind : string) (m : ObjectMeta) (what : string) : error :=
  Some ("op=Update type=" +:+ kind +:+ " name=" +:+ Name m +:+ " namespace=" +:+ Namespace m +:+
    " cluster= message=nothing to update, " +:+ what +:+ " not found in cache").

(** ** Dependencies, by source *)

Definition depCache_getKey (dep : DependencyObj) : string := DpSource dep.
Definition depCache_Put (dep : DependencyObj) (c : statusCache DependencyObj) : statusCache DependencyObj :=
  cache_put (depCache_getKey dep) dep c.
Definition depCache_Get (identity : string) (c : statusCache DependencyObj) : option DependencyObj :=
  cache_get identity c.
Definition depCache_Delete (dep : DependencyObj) (c : statusCache DependencyObj) : statusCache DependencyObj :=
  delete (depCache_getKey dep) c.
Definition GetDependencyProcessStatus (dep : DependencyObj) (c : statusCache DependencyObj) : string :=
  cache_status (depCache_getKey dep) c.
Definition UpdateDependencyProcessStatus (dep : DependencyObj) (status : string) (c : statusCache DependencyObj)
    : statusCache DependencyObj * error :=
  cache_set_status (not_cached "Dependency" (DpMeta dep) "dependency") (depCache_getKey dep) status c.

#[export] Instance dependency_cache : ResourceCache DependencyObj (statusCache DependencyObj) := {|
  res_meta := DpMeta;
  res_put := depCache_Put;
  res_delete := depCache_Delete;
  res_status := GetDependencyProcessStatus;
  res_set_status := UpdateDependencyProcessStatus
|}.

(** ** Traffic configurations, by name *)

Definition trafficConfigCache_getKey (tc : TrafficConfigObj) : string := Name (TcMeta tc).
Definition trafficConfigCache_Put (tc : TrafficConfigObj) (c : statusCache TrafficConfigObj)
    : statusCache TrafficConfigObj := cache_put (trafficConfigCache_getKey tc) tc c.
Definition trafficConfigCache_Get (identity : string) (c : statusCache TrafficConfigObj) : option TrafficConfigObj :=
  cache_get identity c.
Definition trafficConfigCache_Delete (tc : TrafficConfigObj) (c : statusCache TrafficConfigObj)
    : statusCache TrafficConfigObj := delete (trafficConfigCache_getKey tc) c.
Definition GetTrafficConfigProcessStatus (tc : TrafficConfigObj) (c : statusCache TrafficConfigObj) : string :=
  cache_status (trafficConfigCache_getKey tc) c.
Definition UpdateTrafficConfigProcessStatus (tc : TrafficConfigObj) (status : string) (c : statusCache TrafficConfigObj)
    : statusCache TrafficConfigObj * error :=
  cache_set_status (not_cached "TrafficConfig" (TcMeta tc) "traffic config") (trafficConfigCache_getKey tc) status c.

#[export] Instance trafficConfig_cache : ResourceCache TrafficConfigObj (statusCache TrafficConfigObj) := {|
  res_meta := TcMeta;
  res_put := trafficConfigCache_Put;
  res_delete := trafficConfigCache_Delete;
  res_status := GetTrafficConfigProcessStatus;
  res_set_status := UpdateTrafficConfigProcessStatus
|}.

(** ** Shards, by name *)

(** [admiral-api]'s shard, of a kind that the controller does not look into. *)
Section Shards.
Context {Shard : Type} (shard_meta : Shard -> ObjectMeta).

Definition shardCache_getKey (shard : Shard) : string := Name (shard_meta shard).
Definition shardCache_Get (key : string) (c : statusCache Shard) : option Shard := cache_get key c.
Definition GetShardProcessStatus (shard : Shard) (c : statusCache Shard) : string :=
  cache_status (shardCache_getKey shard) c.
Definition UpdateShardProcessStatus (shard : Shard) (status : string) (c : statusCache Shard)
    : statusCache Shard * error :=
  cache_set_status (not_cached "Shard" (shard_meta shard) "shard") (shardCache_getKey shard) status c.
Definition UpdateShardToClusterCache (key : string) (shard : Shard) (c : statusCache Shard) : statusCache Shard :=
  cache_put key shard c.
Definition DeleteFromShardClusterCache (key : string) (shard : Shard) (c : statusCache Shard) : statusCache Shard :=
  match cache_get key c with
  | Some s => if Name (shard_meta s) =?s Name (shard_meta shard) then delete key c else c
  | None => c
  end.

(** The cache of [HandleAddUpdateShard] and [Deleted]. *)
Definition put_shard (shard : Shard) (c : statusCache Shard) : statusCache Shard :=
  let key := shardCache_getKey shard in
  if is_empty key then c else UpdateShardToClusterCache key shard c.
Definition delete_shard (shard : Shard) (c : statusCache Shard) : statusCache Shard :=
  let key := shardCache_getKey shard in
  if is_empty key then c else DeleteFromShardClusterCache key shard c.

Definition shard_cache : ResourceCache Shard (statusCache Shard) := {|
  res_meta := shard_meta;
  res_put := put_shard;
  res_delete := delete_shard;
  res_status := GetShardProcessStatus;
  res_set_status := UpdateShardProcessStatus
|}.
End Shards.

(** ** The controllers *)

(** [Get] with [isRetry], which reads the cache by name, and without, which asks the
    API. *)
Section Controllers.
Context {A : Type} {kind : ResourceCache A (statusCache A)} {H : Type}.
Context (handler : EventType -> A -> statusCache A -> H -> H * error)
  (api : string -> string -> option A).

Definition no_crd_client : string := "crd client is not initialized".

Definition cached_by_name (o : delivered A) (s : resource_state (statusCache A) H) : fetched (delivered A) + string :=
  match o with
  | Stale _ => inr no_crd_client
  | Present obj => inl (FetchedObj (Present <$> cache_get (Name (res_meta obj)) (res_cache s)))
  end.

Definition latest_of_api (o : delivered A) (s : resource_state (statusCache A) H)
    : resource_state (statusCache A) H * (delivered A + string) :=
  match o with
  | Stale _ => (s, inr no_crd_client)
  | Present obj =>
      (s, match api (Namespace (res_meta obj)) (Name (res_meta obj)) with
          | Some latest => inl (Present latest)
          | None => inr "not found"
          end)
  end.

Definition config_delegator : Delegator (resource_state (statusCache A) H) (delivered A) :=
  resource_delegator handler cached_by_name latest_of_api.
End Controllers.

Definition DependencyDelegator {H} (handler : EventType -> DependencyObj -> statusCache DependencyObj -> H -> H * error)
    (api : string -> string -> option DependencyObj) := config_delegator handler api.
Definition TrafficConfigDelegator {H}
    (handler : EventType -> TrafficConfigObj -> statusCache TrafficConfigObj -> H -> H * error)
    (api : string -> string -> option TrafficConfigObj) := config_delegator handler api.
(** An update is handled as an addition. *)
Definition ShardDelegator {Shard H} (shard_meta : Shard -> ObjectMeta)
    (handler_added handler_deleted : Shard -> H -> H * error) (api : string -> string -> option Shard) :=
  config_delegator (kind := shard_cache shard_meta)
    (fun ev shard _ => match ev with Delete => handler_deleted shard | _ => handler_added shard end) api.

(** *** Nodes: the region of the last one that has any *)

Record NodeObj := mkNode { NodeMeta : ObjectMeta }.

Definition process_node (o : delivered NodeObj) : string * error :=
  match o with
  | Stale _ => ("", Some "type assertion failed, object is not of type *v1.Node")
  | Present node => (GetNodeLocality (Labels (NodeMeta node)), None)
  end.

(** The state is [Locality]. *)
Definition NodeController_Added (o : delivered NodeObj) (locality : option string) : option string * error :=
  let '(region, err) := process_node o in
  match err with
  | Some _ => (locality, err)
  | None => if is_empty region then (locality, None) else (Some region, None)
  end.

#[export] Instance node_delegator : Delegator (option string) (delivered NodeObj) := {|
  obj_meta o := match o with Present node => Some (NodeMeta node) | Stale _ => None end;
  is_tombstone o := match o with Present _ => false | Stale _ => true end;
  Added := NodeController_Added;
  Updated o _ := NodeController_Added o;
  Deleted _ locality := (locality, None);
  UpdateProcessItemStatus _ _ locality := (locality, None);
  GetProcessItemStatus _ _ := (NotProcessed, None);
  GetCached _ _ := inr "kubernetes client is not initialized";
  GetLatest _ locality := (locality, inr "kubernetes client is not initialized");
  DoesGenerationMatch _ _ := (false, None);
  IsOnlyReplicaCountChanged _ _ := (false, None)
|}.

(** *** Routing policies: the errors of an addition and an update are dropped *)
Section RoutingPolicies.
Context {H : Type}.
Context (handler_added handler_deleted : RoutingPolicyObj -> H -> H * error)
  (handler_updated : RoutingPolicyObj -> option RoutingPolicyObj -> H -> H * error).

Definition not_a_routing_policy : error := Some "type assertion failed, object is not of type *v1.RoutingPolicy".

Definition RoutingPolicyController_Added (o : delivered RoutingPolicyObj) (h : H) : H * error :=
  match o with
  | Stale _ => (h, not_a_routing_policy)
  | Present rp => ((handler_added rp h).1, None)
  end.

Definition RoutingPolicyController_Updated (o : delivered RoutingPolicyObj) (old : option (delivered RoutingPolicyObj))
    (h : H) : H * error :=
  match o with
  | Stale _ => (h, not_a_routing_policy)
  | Present rp =>
      ((handler_updated rp (match old with Some (Present oldRP) => Some oldRP | _ => None end) h).1, None)
  end.

Definition RoutingPolicyController_Deleted (o : delivered RoutingPolicyObj) (h : H) : H * error :=
  match o with
  | Stale _ => (h, not_a_routing_policy)
  | Present rp => handler_deleted rp h
  end.

#[export] Instance routing_policy_delegator : Delegator H (delivered RoutingPolicyObj) := {|
  obj_meta o := match o with Present rp => Some (RpMeta rp) | Stale _ => None end;
  is_tombstone o := match o with Present _ => false | Stale _ => true end;
  Added := RoutingPolicyController_Added;
  Updated := RoutingPolicyController_Updated;
  Deleted := RoutingPolicyController_Deleted;
  UpdateProcessItemStatus _ _ h := (h, None);
  GetProcessItemStatus _ _ := (NotProcessed, None);
  GetCached _ _ := inr no_crd_client;
  GetLatest _ h := (h, inr no_crd_client);
  DoesGenerationMatch _ _ := (false, None);
  IsOnlyReplicaCountChanged _ _ := (false, None)
|}.
End RoutingPolicies.

(** ** Lemmas *)

(** What the three caches share: an item is stored under the key of its object. *)
Class KeyedCache (A : Type) {kind : ResourceCache A (statusCache A)} := {
  item_key : A -> string;
  put_keyed : forall obj (c : statusCache A), res_put obj c = c \/ res_put obj c = cache_put (item_key obj) obj c;
  delete_keyed : forall obj (c : statusCache A), res_delete obj c = c \/ res_delete obj c = delete (item_key obj) c;
  status_keyed : forall obj, exists missing, forall st (c : statusCache A),
    res_set_status obj st c = cache_set_status missing (item_key obj) st c;
  status_read : forall obj (c : statusCache A), res_status obj c = cache_status (item_key obj) c
}.

#[export] Program Instance dependency_keyed : KeyedCache DependencyObj := {| item_key := depCache_getKey |}.
Solve All Obligations with try (by right); try (intros; by eexists); done.
#[export] Program Instance trafficConfig_keyed : KeyedCache TrafficConfigObj := {| item_key := trafficConfigCache_getKey |}.
Solve All Obligations with try (by right); try (intros; by eexists); done.
#[export] Program Instance shard_keyed {Shard} (shard_meta : Shard -> ObjectMeta) :
  KeyedCache (kind := shard_cache shard_meta) Shard := {| item_key := shardCache_getKey shard_meta |}.
Next Obligation. intros. simpl. unfold put_shard. destruct (is_empty _); [by left|by right]. Qed.
Next Obligation.
  intros. simpl. unfold delete_shard, DeleteFromShardClusterCache. destruct (is_empty _); [by left|].
  destruct (cache_get _ _); [|by left]. destruct (_ =?s _); [by right|by left].
Qed.
Next Obligation. intros. by eexists. Qed.
Next Obligation. done. Qed.

Section Keyed.
Context {A : Type} {kind : ResourceCache A (statusCache A)} {keyed : KeyedCache A}.

(** The laws of the event controller's caches follow. *)
#[export] Program Instance keyed_laws : ResourceCacheLaws A (statusCache A) :=
  {| res_holds obj c := is_Some (c !! item_key obj) |}.
Next Obligation.
  intros obj st c Hh. simpl in *. rewrite status_read. destruct (status_keyed obj) as [missing ->].
  by apply status_set_get.
Qed.
Next Obligation.
  intros obj st c Hh. simpl in *. destruct (status_keyed obj) as [missing ->]. by apply status_set_get.
Qed.

Definition statuses : list string := [ProcessingInProgress; Processed; NotProcessed].

(** An item: stored under its key, with a status that there is. *)
Definition well_keyed (c : statusCache A) : Prop :=
  map_Forall (fun k it => item_key (si_obj it) = k /\ si_status it ∈ statuses) c.

Lemma well_keyed_put obj c : well_keyed c -> well_keyed (res_put obj c).
Proof.
  intros Hc. destruct (put_keyed obj c) as [-> | ->]; [done|]. apply map_Forall_insert_2; [|done].
  split; [done|]. by left.
Qed.

Lemma well_keyed_delete obj c : well_keyed c -> well_keyed (res_delete obj c).
Proof. intros Hc. destruct (delete_keyed obj c) as [-> | ->]; [done|]. by apply map_Forall_delete. Qed.

Lemma well_keyed_status obj st c : st ∈ statuses -> well_keyed c -> well_keyed (res_set_status obj st c).1.
Proof.
  intros Hst Hc. destruct (status_keyed obj) as [missing ->]. unfold cache_set_status.
  destruct (c !! item_key obj) as [it|] eqn:E; [|done]. apply map_Forall_insert_2; [|done].
  split; [|done]. by apply Hc in E as [E _].
Qed.
End Keyed.

Lemma item_status_ok readOnly err : item_status readOnly err ∈ statuses.
Proof. unfold item_status, statuses. destruct readOnly, err; set_solver. Qed.

(** ** The event controller on a kind of configuration *)
Section Runs.
Context {A : Type} {kind : ResourceCache A (statusCache A)} {keyed : KeyedCache A} {H : Type}.
Context (readOnly : bool) (handler : EventType -> A -> statusCache A -> H -> H * error)
  (api : string -> string -> option A).

Local Instance delegator : Delegator (resource_state (statusCache A) H) (delivered A) := config_delegator handler api.

Abbreviation config_state := (resource_state (statusCache A) H * list (InformerCacheObj (delivered A) * nat))%type.

(** What may happen: the informer delivers an object, or the worker takes one. *)
Inductive controller_step : config_state -> config_state -> Prop :=
| informer_added o d q :
    controller_step (d, q) (d, q ++ match AddFuncImpl o with Some it => [(it, 0%nat)] | None => [] end)
| informer_updated old new d q :
    let r := UpdateFuncImpl readOnly old new d in
    controller_step (d, q) (r.1, q ++ match r.2 with Some it => [(it, 0%nat)] | None => [] end)
| informer_deleted o d q :
    controller_step (d, q) (d, q ++ match DeleteFuncImpl o with Some it => [(it, 0%nat)] | None => [] end)
| worker s s' : work_step readOnly s s' -> controller_step s s'.

Definition state_keyed (d : resource_state (statusCache A) H) : Prop := well_keyed (res_cache d).

Lemma status_update_keyed o st d : st ∈ statuses -> state_keyed d -> state_keyed (UpdateProcessItemStatus o st d).1.
Proof.
  intros Hst Hd. destruct o as [obj|obj]; [|done]. simpl.
  pose proof (well_keyed_status obj st _ Hst Hd) as Hk. by destruct (res_set_status _ _ _).
Qed.

Lemma event_keyed ev o d : state_keyed d -> state_keyed (resource_event handler ev o d).1.
Proof.
  intros Hd. destruct o as [obj|obj]; [|done]. simpl.
  destruct (handler _ _ _ _). simpl.
  destruct ev; simpl; [by apply well_keyed_put..|by apply well_keyed_delete].
Qed.

Lemma process_item_keyed it d : state_keyed d -> state_keyed (processItem readOnly it d).1.
Proof.
  intros Hd. unfold processItem.
  assert (state_keyed (resource_event handler (eventType it) (eobj it) d).1) as He by (by apply event_keyed).
  destruct (eventType it); simpl; destruct (resource_event _ _ _ _) as [d1 err];
    by apply status_update_keyed; [apply item_status_ok|].
Qed.

Lemma process_next_keyed it n d : state_keyed d -> state_keyed (processNextItem readOnly it n d).1.
Proof.
  intros Hd. unfold processNextItem. destruct (_ && _); [done|].
  pose proof (process_item_keyed it d Hd) as Hp. destruct (processItem readOnly it d) as [d1 [e|]]; [|done].
  destruct (bool_decide _); [done|]. by apply status_update_keyed; [unfold statuses; set_solver|].
Qed.

Lemma update_func_keyed old new d : state_keyed d -> state_keyed (UpdateFuncImpl readOnly old new d).1.
Proof.
  intros Hd. unfold UpdateFuncImpl. destruct (obj_meta new); [|done].
  cbv zeta. do 2 (match goal with |- state_keyed (if ?b then _ else _).1 => destruct b; [done|] end).
  assert (state_keyed (checkIfResourceVersionHasIncreased old new d).1) as Hv.
  { apply (version_check_inv state_keyed); [|done]. intros o' d' Hd'. by destruct o'. }
  destruct (checkIfResourceVersionHasIncreased old new d) as [d1 [latest changed]]. simpl in Hv.
  destruct (_ || _); [|done]. destruct readOnly; [done|]. simpl.
  by apply status_update_keyed; [unfold statuses; set_solver|].
Qed.

Lemma step_keyed s s' : controller_step s s' -> state_keyed s.1 -> state_keyed s'.1.
Proof.
  intros [o d q|old new d q r|o d q|s1 s2 [d q1 it n q2 r]] Hd; simpl in *;
    [done|by apply update_func_keyed|done|by apply process_next_keyed].
Qed.

Lemma reachable_keyed h s : rtc controller_step (mkResource ∅ h, []) s -> state_keyed s.1.
Proof.
  intros Hs. remember (mkResource ∅ h, []) as s0 eqn:E0.
  assert (state_keyed s0.1) as H0 by (subst; by apply map_Forall_empty). clear E0.
  induction Hs as [|s1 s2 s3 Hs _ IH]; [done|]. apply IH. by eapply step_keyed.
Qed.
End Runs.

(** What a kind's caches promise, whatever happens. *)
Definition promises_well_keyed {A} {kind : ResourceCache A (statusCache A)} (item_key : A -> string) : Prop :=
  forall H readOnly (handler : EventType -> A -> statusCache A -> H -> H * error) api h s key it,
    rtc (controller_step readOnly handler api) (mkResource ∅ h, []) s ->
    res_cache s.1 !! key = Some it ->
    item_key (si_obj it) = key /\ (si_status it = ProcessingInProgress \/ si_status it = Processed \/ si_status it = NotProcessed).

(** Whatever the informers deliver and however the worker gets to it, every dependency
    that is cached is cached under its source, every traffic configuration and shard under
    its name, with one of the three statuses; so a lookup never returns the dependency of
    another identity. *)
Theorem config_caches_well_keyed :
  promises_well_keyed depCache_getKey /\ promises_well_keyed trafficConfigCache_getKey /\
  (forall Shard (shard_meta : Shard -> ObjectMeta),
     promises_well_keyed (kind := shard_cache shard_meta) (shardCache_getKey shard_meta)) /\
  forall H readOnly (handler : EventType -> DependencyObj -> statusCache DependencyObj -> H -> H * error) api h s identity dep,
    rtc (controller_step readOnly handler api) (mkResource ∅ h, []) s ->
    depCache_Get identity (res_cache s.1) = Some dep -> DpSource dep = identity.
Proof.
  assert (forall A kind (keyed : @KeyedCache A kind), promises_well_keyed (@item_key A kind keyed)) as Hall.
  { intros A kind keyed H readOnly handler api h s key it Hs Hit.
    destruct (reachable_keyed readOnly handler api h s Hs key it Hit) as [Hk Hst].
    split; [done|]. unfold statuses in Hst. set_solver. }
  split_and!; [apply (Hall _ _ dependency_keyed)|apply (Hall _ _ trafficConfig_keyed)| |].
  - intros Shard shard_meta. apply (Hall _ _ (shard_keyed shard_meta)).
  - intros H readOnly handler api h s identity dep Hs Hg. unfold depCache_Get, cache_get in Hg.
    destruct (res_cache s.1 !! identity) as [it|] eqn:E; [|done]. injection Hg as <-.
    by apply (Hall _ _ dependency_keyed H readOnly handler api h s identity it Hs) in E as [? _].
Qed.

(** The dependency of a name that is not its source is looked up under the name: a newer
    version of it that was processed meanwhile is not seen, and the old one is processed
    again. *)
Lemma dependency_retried_over_newer {H} (handler : EventType -> DependencyObj -> statusCache DependencyObj -> H -> H * error)
    api (old new : DependencyObj) (h : H) :
  DpSource new = DpSource old -> Name (DpMeta old) <> DpSource old ->
  shouldRetry (dl := DependencyDelegator handler api) (Present old) (mkResource (depCache_Put new ∅) h) = true.
Proof.
  intros Hs Hn. unfold shouldRetry. simpl. unfold cache_get, depCache_Put, depCache_getKey, cache_put.
  rewrite lookup_insert_ne by congruence. by rewrite lookup_empty.
Qed.

(** *** A dependency that is added and processed *)
Definition sample_dependency : DependencyObj := mkDependency (mkMeta "foo-dep" "ns" None None 0 "1") "foo" ["bar"].
Definition quiet_handler : EventType -> DependencyObj -> statusCache DependencyObj -> unit -> unit * error :=
  fun _ _ _ h => (h, None).
Definition added_dependency : resource_state (statusCache DependencyObj) unit * list (InformerCacheObj (delivered DependencyObj) * nat) :=
  (mkResource {[ "foo" := mkStatusItem sample_dependency Processed ]} tt, []).

Lemma config_caches_well_keyed_witness :
  rtc (controller_step false quiet_handler (fun _ _ => None)) (mkResource ∅ tt, []) added_dependency /\
  depCache_getKey sample_dependency = "foo".
Proof.
  assert (rtc (controller_step false quiet_handler (fun _ _ => None)) (mkResource ∅ tt, []) added_dependency) as Hr.
  { eapply rtc_l; [apply (informer_added _ _ _ (Present sample_dependency))|]. simpl.
    eapply rtc_l; [apply worker, (work_item _ _ [] _ _ [])|]. change (rtc (controller_step false quiet_handler (fun _ _ => None)) added_dependency added_dependency). done. }
  split; [done|].
  destruct config_caches_well_keyed as (_ & _ & _ & Hd).
  by apply (Hd _ _ _ _ _ _ "foo" sample_dependency Hr).
Defined.
