(* ===== verification/ClientControllers.v ===== *)
(** * The controllers of mesh clients without ingress

    [controller/admiral/job.go], [vertex.go] and [monovertex.go]: jobs and the vertices of
    pipelines are only discovered as clients of other identities.  The three controllers
    keep, per identity and namespace, one object with its status; they differ in how they
    read the metadata of the pods. *)
From S2P Require Import Prelude GoStrings Config Objects Metadata ServiceCache Controller ConfigControllers.
From stdpp Require Import options.

(** [common.K8sObject]. *)
Record K8sObject := mkK8sObject {
  koName : string;
  koNamespace : string;
  koType : string;
  koAnnotations : gomap;
  koLabels : gomap;
  koStatus : string
}.
#[export] Instance eta_K8sObject : Settable K8sObject := fun o =>
  mkK8sObject (koName o) (koNamespace o) (koType o) (koAnnotations o) (koLabels o) (koStatus o).

(** A job, vertex or mono vertex: [clPods] is the metadata of its pods, annotations and
    labels, which a vertex may lack. *)
Inductive client_kind := Job | Vertex | MonoVertex.
Record ClientObj := mkClient {
  clMeta : ObjectMeta;
  clPods : option (gomap * gomap);
  clGeneration : Z
}.

Definition kind_name (k : client_kind) : string :=
  match k with Job => "job" | Vertex => "vertex" | MonoVertex => "monovertex" end.

(** ** The cache *)

Record ClientEntry := mkClientEntry { clIdentity : string; clObjects : gmap string K8sObject }.
Abbreviation clientCache := (gmap string ClientEntry).

Section Cache.
Context (p : AdmiralParams) (k : client_kind).

(** [getK8sObjectFromJob], [...Vertex] and [...MonoVertex]. *)
Definition getK8sObject (obj : ClientObj) : K8sObject :=
  let '(annotations, labels) := default (Some ∅, Some ∅) (clPods obj) in
  mkK8sObject (Name (clMeta obj)) (Namespace (clMeta obj)) (kind_name k) annotations labels NotProcessed.

Definition client_identity (o : K8sObject) : string := GetGlobalIdentifier p (koAnnotations o) (koLabels o).

(** [Put], whose result is the object it was given, with the write to its status that
    follows: the cache has the pointer only when the object was new there. *)
Definition clientCache_Put (o : K8sObject) (status : string) (c : clientCache) : clientCache :=
  let identity := client_identity o in
  match c !! identity with
  | None => <[identity := mkClientEntry identity {[ koNamespace o := o <| koStatus := status |> ]}]> c
  | Some existing =>
      match clObjects existing !! koNamespace o with
      | None => <[identity := mkClientEntry (clIdentity existing)
                    (<[koNamespace o := o <| koStatus := status |>]> (clObjects existing))]> c
      | Some _ => c
      end
  end.

Definition clientCache_Get (key namespace : string) (c : clientCache) : option K8sObject :=
  match c !! key with Some entry => clObjects entry !! namespace | None => None end.

Definition GetClientProcessStatus (obj : ClientObj) (c : clientCache) : string :=
  match clientCache_Get (client_identity (getK8sObject obj)) (Namespace (clMeta obj)) c with
  | Some o => koStatus o
  | None => NotProcessed
  end.

(** A namespace without an object gets this one. *)
Definition UpdateClientProcessStatus (obj : ClientObj) (status : string) (c : clientCache) : clientCache * error :=
  let o := getK8sObject obj in
  match c !! client_identity o with
  | Some entry =>
      let o' := default o (clObjects entry !! Namespace (clMeta obj)) <| koStatus := status |> in
      (<[clIdentity entry := mkClientEntry (clIdentity entry) (<[Namespace (clMeta obj) := o']> (clObjects entry))]> c, None)
  | None => (c, not_cached (kind_name k) (clMeta obj) (kind_name k))
  end.
End Cache.

(** ** The delegator *)

Record client_state (H : Type) := mkClientState { cs_cache : clientCache; cs_handler : H }.
Arguments mkClientState {H} _ _.
Arguments cs_cache {H} _.
Arguments cs_handler {H} _.

Section Delegate.
Context {H : Type} (p : AdmiralParams) (k : client_kind).
(** [ClientDiscoveryHandler.Added], and the API. *)
Context (handler_added : K8sObject -> H -> H * error) (api : string -> string -> option ClientObj).

Definition not_a_client : error := Some "failed to covert informer object".

(** The pods' metadata allow the client to be discovered. *)
Definition is_client (obj : ClientObj) : bool :=
  match clPods obj with Some (annotations, labels) => negb (ShouldIgnore p annotations labels) | None => false end.

(** [addUpdateJob], [addUpdateVertex] and [addUpdateMonoVertex]. *)
Definition addUpdateClient (o : delivered ClientObj) (s : client_state H) : client_state H * error :=
  match o with
  | Stale _ => (s, not_a_client)
  | Present obj =>
      if is_client obj then
        let k8sObj := getK8sObject k obj in
        let '(h, err) := handler_added (k8sObj <| koStatus := ProcessingInProgress |>) (cs_handler s) in
        (mkClientState (clientCache_Put p k8sObj ProcessingInProgress (cs_cache s)) h, err)
      else (s, None)
  end.

Definition Client_DoesGenerationMatch (obj old : delivered ClientObj) : bool * error :=
  if negb (DoGenerationCheck p) then (false, None)
  else match obj, old with
       | Present n, Present o => (bool_decide (clGeneration n = clGeneration o), None)
       | _, _ => (false, not_a_client)
       end.

Definition Client_UpdateProcessItemStatus (o : delivered ClientObj) (status : string) (s : client_state H)
    : client_state H * error :=
  match o with
  | Stale _ => (s, not_a_client)
  | Present obj =>
      let '(c, err) := UpdateClientProcessStatus p k obj status (cs_cache s) in (mkClientState c (cs_handler s), err)
  end.

Definition Client_GetProcessItemStatus (o : delivered ClientObj) (s : client_state H) : string * error :=
  match o with
  | Stale _ => (NotProcessed, not_a_client)
  | Present obj => (GetClientProcessStatus p k obj (cs_cache s), None)
  end.

(** With [isRetry] the cache is asked, but its objects are not objects of the API, so the
    controller finds none. *)
Definition Client_GetCached (o : delivered ClientObj) (s : client_state H) : fetched (delivered ClientObj) + string :=
  match o with
  | Stale _ => inr "kubernetes client is not initialized"
  | Present obj =>
      match clientCache_Get (client_identity p (getK8sObject k obj)) (Namespace (clMeta obj)) (cs_cache s) with
      | Some _ | None => inl (FetchedObj None)
      end
  end.

Definition Client_GetLatest (o : delivered ClientObj) (s : client_state H)
    : client_state H * (delivered ClientObj + string) :=
  match o with
  | Stale _ => (s, inr "kubernetes client is not initialized")
  | Present obj =>
      (s, match api (Namespace (clMeta obj)) (Name (clMeta obj)) with
          | Some latest => inl (Present latest)
          | None => inr "not found"
          end)
  end.

#[export] Instance client_delegator : Delegator (client_state H) (delivered ClientObj) := {|
  obj_meta o := match o with Present obj => Some (clMeta obj) | Stale _ => None end;
  is_tombstone o := match o with Present _ => false | Stale _ => true end;
  Added := addUpdateClient;
  Updated _ _ s := (s, None);
  Deleted _ s := (s, None);
  UpdateProcessItemStatus := Client_UpdateProcessItemStatus;
  GetProcessItemStatus := Client_GetProcessItemStatus;
  GetCached := Client_GetCached;
  GetLatest := Client_GetLatest;
  DoesGenerationMatch := Client_DoesGenerationMatch;
  IsOnlyReplicaCountChanged _ _ := (false, None)
|}.
End Delegate.

(** ** The three kinds *)

(** The methods of a cache. *)
Record client_cache := mkClientCache {
  cc_object : ClientObj -> K8sObject;
  cc_put : K8sObject -> string -> clientCache -> clientCache;
  cc_get : string -> string -> clientCache -> option K8sObject;
  cc_status : ClientObj -> clientCache -> string;
  cc_set_status : ClientObj -> string -> clientCache -> clientCache * error
}.
Definition kind_cache (p : AdmiralParams) (k : client_kind) : client_cache :=
  mkClientCache (getK8sObject k) (clientCache_Put p) clientCache_Get (GetClientProcessStatus p k)
    (UpdateClientProcessStatus p k).
Definition jobCache (p : AdmiralParams) : client_cache := kind_cache p Job.
Definition vertexCache (p : AdmiralParams) : client_cache := kind_cache p Vertex.
Definition monoVertexCache (p : AdmiralParams) : client_cache := kind_cache p MonoVertex.

Section Kinds.
Context {H : Type} (p : AdmiralParams).
Context (handler_added : K8sObject -> H -> H * error) (api : string -> string -> option ClientObj).

Definition JobDelegator : Delegator (client_state H) (delivered ClientObj) := client_delegator p Job handler_added api.
Definition VertexDelegator : Delegator (client_state H) (delivered ClientObj) := client_delegator p Vertex handler_added api.
Definition MonoVertexDelegator : Delegator (client_state H) (delivered ClientObj) :=
  client_delegator p MonoVertex handler_added api.
End Kinds.

(** ** The cache as a map from identity and namespace to the first object *)
Section CacheLemmas.
Context (p : AdmiralParams) (k : client_kind).
Implicit Types (c : clientCache).

(** Every entry is stored under its identity. *)
Definition client_ids_ok c : Prop := forall id e, c !! id = Some e -> clIdentity e = id.

(** An object without its status. *)
Definition no_status (o : K8sObject) : K8sObject := o <| koStatus := NotProcessed |>.

(** The cache stands for a map of objects and a set of identities. *)
Definition represents c (m : gmap (string * string) K8sObject) (ids : gset string) : Prop :=
  client_ids_ok c /\ (forall id, is_Some (c !! id) <-> id ∈ ids) /\
  forall id ns, no_status <$> clientCache_Get id ns c = m !! (id, ns).

(** An entry is added or changed at a namespace. *)
Lemma represents_insert c m ids id ns (o o' : K8sObject) e :
  represents c m ids -> no_status o = o' ->
  clObjects e = <[ns := o]> (match c !! id with Some e0 => clObjects e0 | None => ∅ end) -> clIdentity e = id ->
  represents (<[id := e]> c) (<[(id, ns) := o']> m) ({[id]} ∪ ids).
Proof.
  intros (Hi & Hk & Hg) <- Ho Hid. split_and!.
  - intros id' e'. rewrite lookup_insert_Some. intros [[<- <-]|[_ He]]; [done|by apply Hi].
  - intros id'. rewrite elem_of_union, elem_of_singleton. destruct (decide (id = id')) as [<-|Hne].
    + rewrite lookup_insert_eq. split; [by left|by eexists].
    + rewrite lookup_insert_ne, Hk by done. split; [by right|intros [->|]; done].
  - intros id' ns'. unfold clientCache_Get. destruct (decide (id = id')) as [<-|Hne].
    + rewrite lookup_insert_eq, Ho. destruct (decide (ns = ns')) as [<-|Hns].
      * by rewrite !lookup_insert_eq.
      * rewrite !lookup_insert_ne by congruence. rewrite <- Hg. unfold clientCache_Get.
        by destruct (c !! id).
    + rewrite !lookup_insert_ne by congruence. by rewrite <- Hg.
Qed.

Lemma represents_put c m ids o st :
  represents c m ids -> no_status o = o ->
  represents (clientCache_Put p o st c)
    (match m !! (client_identity p o, koNamespace o) with
     | Some _ => m | None => <[(client_identity p o, koNamespace o) := o]> m end)
    ({[client_identity p o]} ∪ ids).
Proof.
  intros HR Ho. pose proof HR as (Hi & Hk & Hg). unfold clientCache_Put.
  rewrite <- Hg. unfold clientCache_Get. destruct (c !! client_identity p o) as [e|] eqn:E; simpl.
  - destruct (clObjects e !! koNamespace o) as [o'|] eqn:E'; simpl.
    + replace ({[client_identity p o]} ∪ ids) with ids; [done|].
      assert (client_identity p o ∈ ids) by (apply Hk; by eexists). set_solver.
    + apply (represents_insert _ _ _ _ _ (o <| koStatus := st |>)); [done..|by rewrite E|exact (Hi _ _ E)].
  - apply (represents_insert _ _ _ _ _ (o <| koStatus := st |>)); [done..| |done]. by rewrite E.
Qed.

Lemma represents_status c m ids obj st :
  represents c m ids ->
  let o := getK8sObject k obj in
  represents (UpdateClientProcessStatus p k obj st c).1
    (if bool_decide (client_identity p o ∈ ids) then
       match m !! (client_identity p o, Namespace (clMeta obj)) with
       | Some _ => m | None => <[(client_identity p o, Namespace (clMeta obj)) := no_status o]> m end
     else m) ids.
Proof.
  intros HR o. pose proof HR as (Hi & Hk & Hg). unfold UpdateClientProcessStatus. fold o.
  destruct (c !! client_identity p o) as [e|] eqn:E; simpl.
  - assert (client_identity p o ∈ ids) as Hin by (apply Hk; by eexists).
    rewrite bool_decide_true by done. pose proof (Hi _ _ E) as Hid. rewrite Hid at 1.
    replace ids with ({[client_identity p o]} ∪ ids) by set_solver.
    set (o1 := default o (clObjects e !! Namespace (clMeta obj)) <| koStatus := st |>).
    assert (represents (<[client_identity p o := mkClientEntry (clIdentity e) (<[Namespace (clMeta obj) := o1]> (clObjects e))]> c)
      (<[(client_identity p o, Namespace (clMeta obj)) := no_status o1]> m) ({[client_identity p o]} ∪ ids)) as HR'.
    { apply (represents_insert _ _ _ _ _ o1); [done..|by rewrite E|done]. }
    pose proof (Hg (client_identity p o) (Namespace (clMeta obj))) as Hm. unfold clientCache_Get in Hm. rewrite E in Hm.
    destruct (clObjects e !! Namespace (clMeta obj)) as [o0|] eqn:E0; simpl in Hm; rewrite <- Hm; simpl in *.
    + replace m with (<[(client_identity p o, Namespace (clMeta obj)) := no_status o1]> m); [done|].
      apply insert_id. by rewrite <- Hm.
    + done.
  - rewrite bool_decide_false; [done|]. rewrite <- Hk, E. by intros [? ?].
Qed.
End CacheLemmas.

Section Laws.
Context {H : Type} (p : AdmiralParams) (k : client_kind) (handler_added : K8sObject -> H -> H * error)
  (api : string -> string -> option ClientObj).

Lemma client_status_spec c obj st :
  client_ids_ok c -> is_Some (c !! client_identity p (getK8sObject k obj)) ->
  let c' := (UpdateClientProcessStatus p k obj st c).1 in
  GetClientProcessStatus p k obj c' = st /\ client_ids_ok c' /\ is_Some (c' !! client_identity p (getK8sObject k obj)).
Proof using Type.
  intros Hi [e E] c'. unfold c', UpdateClientProcessStatus, GetClientProcessStatus, clientCache_Get.
  rewrite E. simpl. rewrite (Hi _ _ E). split_and!.
  - rewrite lookup_insert_eq. simpl. by rewrite lookup_insert_eq.
  - intros id e'. rewrite lookup_insert_Some. intros [[<- <-]|[_ He]]; [done|by apply Hi].
  - rewrite lookup_insert_eq. by eexists.
Qed.

(** A client is tracked when the cache knows its identity. *)
#[export] Instance client_laws : DelegatorLaws (client_delegator p k handler_added api).
Proof.
  refine {| tracked o s := exists obj, o = Present obj /\ client_ids_ok (cs_cache s) /\
              is_Some (cs_cache s !! client_identity p (getK8sObject k obj)); status_recorded := _; tracked_kept := _ |}.
  - intros o st s (obj & -> & Hi & Hs). simpl. destruct (client_status_spec _ obj st Hi Hs) as (Hst & _).
    destruct (UpdateClientProcessStatus _ _ _ _ _) as [c err]. simpl in *. by rewrite Hst.
  - intros o st s (obj & -> & Hi & Hs). simpl. destruct (client_status_spec _ obj st Hi Hs) as (_ & Hi' & Hs').
    destruct (UpdateClientProcessStatus _ _ _ _ _) as [c err]. simpl in *. by exists obj.
Defined.

Definition client_event (readOnly : bool) (s : client_state H) (e : EventType * ClientObj) : client_state H :=
  (processItem (dl := client_delegator p k handler_added api) readOnly
     (mkInformerCacheObj e.1 (Present e.2) None) s).1.

(** What the cache promises: the first object of an identity and namespace, from when a
    client of the identity has been discovered; the handler gets every added client. *)
Definition client_spec_event (t : gmap (string * string) K8sObject * gset string * H) (e : EventType * ClientObj)
    : gmap (string * string) K8sObject * gset string * H :=
  let '(m, ids, h) := t in
  let o := getK8sObject k e.2 in
  let id := client_identity p o in
  let first m := match m !! (id, koNamespace o) with Some _ => m | None => <[(id, koNamespace o) := o]> m end in
  match e.1 with
  | Add =>
      if is_client p e.2
      then (first m, {[id]} ∪ ids, (handler_added (o <| koStatus := ProcessingInProgress |>) h).1)
      else (if bool_decide (id ∈ ids) then first m else m, ids, h)
  | _ => (if bool_decide (id ∈ ids) then first m else m, ids, h)
  end.

Lemma fresh_no_status obj : no_status (getK8sObject k obj) = getK8sObject k obj.
Proof using Type. unfold getK8sObject. by destruct (default _ _). Qed.
Lemma object_namespace obj : koNamespace (getK8sObject k obj) = Namespace (clMeta obj).
Proof using Type. unfold getK8sObject. by destruct (default _ _). Qed.

Lemma client_event_refines readOnly s e m ids :
  represents (cs_cache s) m ids ->
  let t := client_spec_event (m, ids, cs_handler s) e in
  represents (cs_cache (client_event readOnly s e)) t.1.1 t.1.2 /\ cs_handler (client_event readOnly s e) = t.2.
Proof.
  intros HR. destruct e as [ev obj]. unfold client_event, client_spec_event, processItem. simpl.
  pose proof (fun m ids st c => represents_status p k c m ids obj st) as Hs. simpl in Hs.
  rewrite fresh_no_status in Hs. rewrite object_namespace.
  assert (represents (cs_cache (Client_UpdateProcessItemStatus p k (Present obj) (item_status readOnly None) s).1)
    (if bool_decide (client_identity p (getK8sObject k obj) ∈ ids)
     then match m !! (client_identity p (getK8sObject k obj), Namespace (clMeta obj)) with
          | Some _ => m
          | None => <[(client_identity p (getK8sObject k obj), Namespace (clMeta obj)) := getK8sObject k obj]> m
          end
     else m) ids /\ cs_handler (Client_UpdateProcessItemStatus p k (Present obj) (item_status readOnly None) s).1 = cs_handler s) as Hn.
  { specialize (Hs m ids (item_status readOnly None) (cs_cache s) HR). simpl.
    by destruct (UpdateClientProcessStatus _ _ _ _ _). }
  destruct ev; [|exact Hn|exact Hn]. unfold addUpdateClient. destruct (is_client p obj); [|exact Hn].
  destruct (handler_added _ _) as [h err]. simpl.
  pose proof (represents_put p _ _ _ _ ProcessingInProgress HR (fresh_no_status obj)) as HP.
  rewrite object_namespace in HP. specialize (Hs _ _ (item_status readOnly err) _ HP).
  destruct (UpdateClientProcessStatus _ _ _ _ _) as [c err']. simpl in *. split; [|done].
  rewrite bool_decide_true in Hs by set_solver.
  destruct (m !! (client_identity p (getK8sObject k obj), Namespace (clMeta obj))) as [o0|] eqn:E.
  - by rewrite E in Hs.
  - by rewrite lookup_insert_eq in Hs.
Qed.

(** The cache of the jobs, and that of the vertices and of the mono vertices, refines a
    map from identity and namespace to the first object found there: after any events, a
    lookup returns this object, whatever came for the slot later, and the handler has run
    once for each client that was added. *)
Theorem client_cache_refines readOnly h events :
  let s := foldl (client_event readOnly) (mkClientState ∅ h) events in
  let t := foldl client_spec_event (∅, ∅, h) events in
  (forall id ns, no_status <$> clientCache_Get id ns (cs_cache s) = t.1.1 !! (id, ns)) /\
  (forall id, is_Some (cs_cache s !! id) <-> id ∈ t.1.2) /\ cs_handler s = t.2.
Proof.
  intros s t. assert (represents (cs_cache s) t.1.1 t.1.2 /\ cs_handler s = t.2) as [(Hi & Hk & Hg) Hh]; [|done].
  unfold s, t. assert (forall s0 m ids, represents (cs_cache s0) m ids ->
    represents (cs_cache (foldl (client_event readOnly) s0 events))
      (foldl client_spec_event (m, ids, cs_handler s0) events).1.1
      (foldl client_spec_event (m, ids, cs_handler s0) events).1.2 /\
    cs_handler (foldl (client_event readOnly) s0 events) = (foldl client_spec_event (m, ids, cs_handler s0) events).2) as Hall.
  { induction events as [|e events IH]; intros s0 m ids HR; [by split|]. cbn [foldl].
    destruct (client_event_refines readOnly s0 e m ids HR) as [HR' Hh].
    destruct (client_spec_event (m, ids, cs_handler s0) e) as [[m' ids'] h']. cbn [fst snd] in *.
    subst h'. by apply IH. }
  apply (Hall (mkClientState ∅ h)). split_and!; [done| |done].
  intros id. simpl. rewrite lookup_empty. split; [by intros [? ?]|set_solver].
Qed.
End Laws.

(** A second job of an identity in a namespace has no status of its own: once the first is
    processed, it counts as processed too. *)
Lemma second_job_counts_as_processed p k (ns name1 name2 : string) pods :
  let job name := mkClient (mkMeta name ns None None 0 "1") (Some pods) 1 in
  is_client p (job name1) = true ->
  let s := client_event (H := unit) p k (fun _ h => (h, None)) (fun _ _ => None) false (mkClientState ∅ tt) (Add, job name1) in
  GetClientProcessStatus p k (job name2) (cs_cache s) = Processed.
Proof.
  intros job Hc s. unfold s, client_event, processItem. simpl. rewrite Hc. simpl.
  unfold UpdateClientProcessStatus, clientCache_Put, GetClientProcessStatus, clientCache_Get. simpl.
  destruct pods as [annotations labels]. unfold client_identity, getK8sObject. simpl.
  rewrite lookup_empty. simpl. rewrite !lookup_insert_eq. simpl. rewrite lookup_insert_eq. simpl.
  by rewrite !lookup_insert_eq.
Qed.
