(* ===== verification/WorkloadHandlers.v ===== *)
(** * Events of deployments, rollouts and services

    [clusters/deployment_handler.go], [clusters/rollout_handler.go] and
    [clusters/service_handler.go]: an event of a workload is registered, cached and
    processed as an event of its identity ([ModifyServiceEntry.v]); an event of a service
    becomes events of the workloads it selects.  The [ServiceController] of
    [controller/admiral/service.go], whose cache ([ServiceCache.v]) the service handler
    changes while it runs, is here as a delegator. *)
From S2P Require Import Prelude GoStrings Config Objects Metadata ServiceCache Policies AddressStore.
From S2P Require Import ServiceEntries Caches Dependents World Controller ResourceController ConfigControllers ClientControllers.
From S2P Require Import DeploymentController RolloutController StateCheck SeState.
From stdpp Require Import options.
Local Open Scope world_scope.

(** ** The state *)

(** The rest of the state, and the cache of the cluster's [ServiceController]. *)
Record svc_state (X : Type) := mkSvcState { sv_rest : X; sv_services : serviceCache }.
Arguments mkSvcState {X} _ _.
Arguments sv_rest {X} _.
Arguments sv_services {X} _.
#[export] Instance eta_svc_state X : Settable (svc_state X) := fun s => mkSvcState (sv_rest s) (sv_services s).

Definition on_rest {X A} (c : W X A) : W (svc_state X) A := fun w =>
  match c (mkWorld (sv_rest (w_api w)) (w_heap w) (w_caches w) (w_addresses w) (w_se_cache w)) with
  | Some (a, w') =>
      Some (a, mkWorld (mkSvcState (w_api w') (sv_services (w_api w))) (w_heap w') (w_caches w')
                 (w_addresses w') (w_se_cache w'))
  | None => None
  end.

Definition get_services {X} : W (svc_state X) serviceCache := on_api (fun s => (s, sv_services s)).
Definition delete_service {X} (svc : ServiceObj) : W (svc_state X) unit :=
  on_api (fun s => (s <| sv_services := ServiceCache_Delete (sv_services s) svc |>, tt)).

(** ** The registry *)

(** The objects that the registry hosts. *)
Inductive hosted :=
| HDeployment (d : DeploymentObj)
| HRollout (r : RolloutObj)
| HService (svc : ServiceObj)
| HClient (o : K8sObject).

(** The part of [RegistryClient] that the handlers call: cluster, namespace, name,
    identity, kind and transaction; for a gateway the cluster, the service, its hostname
    and the transaction. *)
Class HostingRegistry (X : Type) := {
  PutHostingData : string -> string -> string -> string -> string -> string -> hosted -> W X error;
  DeleteHostingData : string -> string -> string -> string -> string -> string -> W X error;
  PutClusterGateway : string -> string -> string -> string -> W X error
}.

(** ** The handlers *)

(** What the two kinds of workload differ in. *)
Record workload := mkWorkload {
  wl_object : hosted;
  wl_meta : ObjectMeta;
  wl_kind : string;           (* "deployment" *)
  wl_globalIdentifier : string;
  wl_originalIdentifier : string;
  wl_partition : string;
  wl_env : string;
  wl_selector : option LabelSelector;
  wl_ports : ServiceObj -> gmap string Z  (* the mesh ports of a service for it *)
}.

Definition of_deployment (p : AdmiralParams) (d : DeploymentObj) : workload :=
  mkWorkload (HDeployment d) (DepMeta d) DeploymentType (GetDeploymentGlobalIdentifier p d)
    (GetDeploymentOriginalIdentifier p d) (GetDeploymentIdentityPartition p d) (GetEnv p d) (DepSelector d)
    (fun svc => default ∅ (GetMeshPortsForDeployments (Some svc) (Some d))).

Definition of_rollout (p : AdmiralParams) (r : RolloutObj) : workload :=
  mkWorkload (HRollout r) (RoMeta r) RolloutType (GetRolloutGlobalIdentifier p r)
    (GetRolloutOriginalIdentifier p r) (GetRolloutIdentityPartition p r) (GetEnvForRollout p r) (RoSelector r)
    (fun svc => default ∅ (GetMeshPortsForRollout (Some svc) (Some r))).

(** The workload matches the service, which has a mesh port for it. *)
Definition workload_service `{!GoRange} (wl : workload) (service : ServiceObj) : bool :=
  IsServiceMatch (SvcSelector service) (wl_selector wl) && Nat.ltb 0 (size (wl_ports wl service)).

(** [checkIfThereAreMultipleMatchingServices]; a namespace that is not in the cache is
    nil, one without services is not. *)
Definition matched_services `{!GoRange, !GoSort} (wl : workload) (services : serviceCache) (ns : string) : gset string :=
  list_to_set (map (fun service => Name (SvcMeta service))
    (List.filter (workload_service wl) (ServiceCache_Get services ns))).

Definition checkIfThereAreMultipleMatchingServices `{!GoRange, !GoSort} (svc : ServiceObj) (services : serviceCache)
    (wl : workload) : bool + string :=
  if is_nil (services !! Namespace (SvcMeta svc))
  then inr "service to be deleted does not exist in the cache"
  else
    let matchedServices := matched_services wl services (Namespace (SvcMeta svc)) in
    inl (Nat.ltb 1 (size matchedServices) || bool_decide (Name (SvcMeta svc) ∉ matchedServices)).

Section Handlers.
Context {range : GoRange} {sorting : GoSort} {X : Type} {reg : HostingRegistry X} (p : AdmiralParams).
(** [registry] is [RegistryClient != nil]. *)
Context (registry : bool).
(** [modifyServiceEntryForNewServiceOrPod], which reads the cluster's services, and
    [processClientDependencyRecord] for an identity, a cluster and a namespace. *)
Context (modifySE : serviceCache -> event_ctx -> EventType -> string -> string -> W X error)
  (processClientDependencyRecord : serviceCache -> event_ctx -> string -> string -> string -> W X error).

(** [callRegistryForDeployment], [...Rollout] and [...Service]: the error is only logged.
    A context without transaction panics. *)
Definition callRegistry (ctx : event_ctx) (event : EventType) (globalIdentifier clusterName kind : string)
    (m : ObjectMeta) (obj : hosted) : W X error :=
  if IsAdmiralStateSyncerMode p && IsStateSyncerCluster p clusterName && registry then
    match ctxTxId ctx with
    | None => wpanic
    | Some txId =>
        match event with
        | Add | Update => PutHostingData clusterName (Namespace m) (Name m) globalIdentifier kind txId obj
        | Delete => DeleteHostingData clusterName (Namespace m) (Name m) globalIdentifier kind txId
        end
    end
  else wret None.

(** The caches of the identity; those that are nil are passed over. *)
Definition update_identity_caches (id originalIdentifier partition namespace clusterName : string) : W X unit :=
  c <- get_caches;;
  UpdateIdentityClusterCache id clusterName ;;;
  if EnableSWAwareNSCaches p then
    (match IdentityClusterNamespaceCache (pointers c) with
     | None => wret tt
     | Some _ => on_heap (MapOfMapOfMaps_Put (IdentityClusterNamespaceCache (pointers c)) id clusterName namespace namespace)
     end) ;;;
    (if is_nil (PartitionIdentityCache c) || is_empty partition then wret tt
     else on_heap (Map_Put (PartitionIdentityCache c) id originalIdentifier))
  else wret tt.

(** [HandleEventForDeployment] and [HandleEventForRollout]; the error of a processing whose
    client records were processed without one is its own. *)
Definition handle_workload_event (ctx : event_ctx) (event : EventType) (wl : workload) (clusterName : string)
    : W (svc_state X) error :=
  let id := wl_globalIdentifier wl in
  if is_empty id then wret None
  else
    let ctx := ctx <| ctxClusterName := Some clusterName |> <| ctxEventResourceType := Some (wl_kind wl) |> in
    on_rest (callRegistry ctx event id clusterName (wl_kind wl) (wl_meta wl) (wl_object wl)) ;;;
    on_rest (update_identity_caches id (wl_originalIdentifier wl) (wl_partition wl) (Namespace (wl_meta wl)) clusterName) ;;;
    services <- get_services;;
    err <- on_rest (modifySE services ctx event (wl_env wl) id);;
    if ClientInitiatedProcessingEnabledForControllers p then
      depProcessErr <- on_rest (processClientDependencyRecord services ctx id clusterName (Namespace (wl_meta wl)));;
      wret (if is_nil depProcessErr then err else AppendError err depProcessErr)
    else wret err.

Definition HandleEventForDeployment (ctx : event_ctx) (event : EventType) (obj : DeploymentObj) (clusterName : string)
    : W (svc_state X) error :=
  handle_workload_event ctx event (of_deployment p obj) clusterName.

Definition HandleEventForRollout (ctx : event_ctx) (event : EventType) (obj : RolloutObj) (clusterName : string)
    : W (svc_state X) error :=
  handle_workload_event ctx event (of_rollout p obj) clusterName.

Definition wrapped (op kind name cluster : string) (err : error) : error :=
  match err with None => None | Some e => Some (log_error op kind name cluster e) end.

(** The handlers of the controllers: a rollout's update is not handled, a deployment has no
    handler of updates. *)
Definition DeploymentHandler_event (event : EventType) (ctx : event_ctx) (obj : DeploymentObj) (clusterID : string)
    : W (svc_state X) error :=
  err <- HandleEventForDeployment ctx event obj clusterID;;
  wret (wrapped (event_name event) "Deployment" (Name (DepMeta obj)) clusterID err).
Definition RolloutHandler_event (event : EventType) (ctx : event_ctx) (obj : RolloutObj) (clusterID : string)
    : W (svc_state X) error :=
  match event with
  | Update => wret None
  | _ =>
      err <- HandleEventForRollout ctx event obj clusterID;;
      wret (wrapped (event_name event) "Rollout" (Name (RoMeta obj)) clusterID err)
  end.

(** ** Discovered clients *)

Section Discovery.
(** Read-only mode, the start of the registry and the time of the warm-up check; the
    cluster's workloads; the dependencies and their handler. *)
Context (readOnly : bool) (startTime now : Z).
Context (workloads : option (option deploymentCache * option rolloutCache)).
Context (dependencies : statusCache DependencyObj) (dependency_added : event_ctx -> DependencyObj -> W X error).

Definition in_namespace (namespace : string) (m : option ObjectMeta) : bool :=
  match m with Some m => Namespace m =?s namespace | None => false end.

(** A cluster without one of the controllers panics. *)
Definition DeploymentOrRolloutExistsInNamespace (globalIdentifier namespace : string) : option bool :=
  match workloads with
  | None => Some false
  | Some (dc, roc) =>
      deployments ← dc;
      if existsb (fun kv => in_namespace namespace (DepMeta <$> Deployment kv.2))
           (go_range 0 (default ∅ (GetByIdentity deployments globalIdentifier)))
      then Some true
      else
        rollouts ← roc;
        Some (existsb (fun kv => in_namespace namespace (RoMeta <$> Rollout kv.2))
                (go_range 1 (default ∅ (RolloutCache_GetByIdentity rollouts globalIdentifier))))
  end.

(** The service entries that a client needs are those of its dependency, unless a workload
    of the namespace gets them already. *)
Definition HandleEventForClientDiscovery (ctx : event_ctx) (event : EventType) (obj : K8sObject) (clusterName : string)
    : W X error :=
  let id := GetGlobalIdentifier p (koAnnotations obj) (koLabels obj) in
  if is_empty id then wret None
  else
    let ctx := ctx <| ctxClusterName := Some clusterName |> <| ctxEventResourceType := Some (koType obj) |> in
    callRegistry ctx event id clusterName (koType obj) (mkMeta (koName obj) (koNamespace obj) None None 0 "") (HClient obj) ;;;
    update_identity_caches id (GetOriginalIdentifier p (koAnnotations obj) (koLabels obj))
      (GetIdentityPartition p (koAnnotations obj) (koLabels obj)) (koNamespace obj) clusterName ;;;
    if readOnly then wret None
    else if IsCacheWarmupTime p startTime now then
      wret (Some ("task=" +:+ event_name event +:+ " name=" +:+ koName obj +:+ " namespace=" +:+ koNamespace obj +:+
        " cluster=" +:+ clusterName +:+ " message=processing skipped during cache warm up state for env= identity=" +:+ id))
    else
      match DeploymentOrRolloutExistsInNamespace id (koNamespace obj) with
      | None => wpanic
      | Some true => wret None
      | Some false =>
          match depCache_Get id dependencies with
          | None => wret None
          | Some depRecord =>
              err <- dependency_added ctx depRecord;;
              wret (if is_nil err then None
                    else Some ("op=Process type=" +:+ koType obj +:+ " name=" +:+ koName obj +:+ " namespace=" +:+
                      koNamespace obj +:+ " cluster=" +:+ clusterName +:+ " message=Error processing client discovery"))
          end
      end.

Definition ClientDiscoveryHandler_Added (ctx : event_ctx) (obj : K8sObject) (clusterID : string) : W X error :=
  err <- HandleEventForClientDiscovery ctx Add obj clusterID;;
  wret (wrapped "Add" "Job" (koName obj) clusterID err).
End Discovery.

(** ** Events of services *)

Section Service.
Context (svc : ServiceObj) (clusterName : string).

(** A turn of the loop: the type of the event and the context that later turns see, and the
    error; [None] is the [continue]. *)
Definition service_turn (ctx : event_ctx) (eventType : EventType) (wl : workload)
    : W (svc_state X) (event_ctx * EventType * error) :=
  on_rest (callRegistry ctx eventType (wl_globalIdentifier wl) clusterName "Service" (SvcMeta svc) (HService svc)) ;;;
  services <- get_services;;
  let handle ctx eventType :=
    err <- handle_workload_event ctx eventType wl clusterName;; wret (ctx, eventType, err) in
  match eventType with
  | Delete =>
      match checkIfThereAreMultipleMatchingServices svc services wl with
      | inr err => wret (ctx, eventType, Some err)
      | inl true => delete_service svc ;;; handle (ctx <| ctxEventType := Some Update |>) Update
      | inl false => handle ctx Delete
      end
  | _ => handle ctx eventType
  end.

Fixpoint service_loop (ctx : event_ctx) (eventType : EventType) (allErrors : error) (l : list workload)
    : W (svc_state X) error :=
  match l with
  | [] => wret allErrors
  | wl :: rest =>
      '(ctx, eventType, err) <- service_turn ctx eventType wl;;
      service_loop ctx eventType (if is_nil err then allErrors else AppendError allErrors err) rest
  end.

Definition is_gateway_service : bool :=
  IsIstioIngressGatewayService (Some svc) (label_set p).(Params.GatewayApp) ||
  IsIstioIngressGatewayService (Some svc) p.(Params.NLBIngressLabel).

(** The registry client, the load balancer and the transaction are used unchecked; the
    error is only logged. *)
Definition put_gateway (ctx : event_ctx) : W X unit :=
  if IsAdmiralStateSyncerMode p && IsStateSyncerCluster p clusterName then
    match registry, SvcIngress svc, ctxTxId ctx with
    | true, lb :: _, Some txId =>
        PutClusterGateway clusterName (Name (SvcMeta svc)) (ingressHostname lb) txId ;;; wret tt
    | _, _, _ => wpanic
    end
  else wret tt.

(** [handleServiceEventForDeployment] and [...ForRollout], with the workloads that the
    controller has cached and those of the namespace that match the selector. *)
Definition handle_service_event (ctx : event_ctx) (listed selected : list workload) : W (svc_state X) error :=
  match ctxEventType ctx with
  | None => wret (Some "type assertion failed, <nil> is not of type string")
  | Some eventType =>
      if is_gateway_service then on_rest (put_gateway ctx) ;;; service_loop ctx Update None listed
      else service_loop ctx eventType None selected
  end.
End Service.
End Handlers.

(** ** The workloads of a service *)

(** [DeploymentController.GetDeploymentBySelectorInNamespace]; [None] is an error of the API. *)
Definition GetDeploymentBySelectorInNamespace `{!GoRange} (api_deployments : string -> option (list DeploymentObj))
    (serviceSelector : gomap) (namespace : string) : option (list DeploymentObj) :=
  match api_deployments namespace with
  | None => None
  | Some items => Some (List.filter (fun d => IsServiceMatch serviceSelector (DepSelector d)) items)
  end.

(** What the handler reads of a [RemoteController]: the caches of its two controllers of
    workloads and the lists of the API, and whether it has a service controller. *)
Record workload_controllers := mkWorkloadControllers {
  wc_deployments : option (deploymentCache * (string -> option (list DeploymentObj)));
  wc_rollouts : option (rolloutCache * (string -> option (list RolloutObj)));
  wc_services : bool
}.

Section Services.
Context {range : GoRange} {sorting : GoSort} {X : Type} {reg : HostingRegistry X} (p : AdmiralParams).
Context (registry : bool).
Context (modifySE : serviceCache -> event_ctx -> EventType -> string -> string -> W X error)
  (processClientDependencyRecord : serviceCache -> event_ctx -> string -> string -> string -> W X error).

Definition handleServiceEventForDeployment (ctx : event_ctx) (svc : ServiceObj) (clusterName : string)
    (deployController : deploymentCache * (string -> option (list DeploymentObj))) : W (svc_state X) error :=
  handle_service_event p registry modifySE processClientDependencyRecord svc clusterName ctx
    (map (of_deployment p) (DeploymentCache_List deployController.1))
    (map (of_deployment p)
       (default [] (GetDeploymentBySelectorInNamespace deployController.2 (SvcSelector svc) (Namespace (SvcMeta svc))))).

Definition handleServiceEventForRollout (ctx : event_ctx) (svc : ServiceObj) (clusterName : string)
    (rolloutController : rolloutCache * (string -> option (list RolloutObj))) : W (svc_state X) error :=
  handle_service_event p registry modifySE processClientDependencyRecord svc clusterName ctx
    (map (of_rollout p) (RolloutCache_List rolloutController.1))
    (map (of_rollout p)
       (default [] (GetRolloutBySelectorInNamespace rolloutController.2 (SvcSelector svc) (Namespace (SvcMeta svc))))).

Definition handleEventForService (ctx : event_ctx) (svc : ServiceObj) (rc : option workload_controllers)
    (clusterName : string) : W (svc_state X) error :=
  match SvcSelector svc, rc with
  | None, _ => wret (Some ("selector missing on service=" +:+ Name (SvcMeta svc) +:+ " in namespace=" +:+
      Namespace (SvcMeta svc) +:+ " cluster=" +:+ clusterName))
  | _, None => wret (Some ("could not find the remote controller for cluster=" +:+ clusterName))
  | Some _, Some rc =>
      e1 <- match wc_deployments rc, wc_services rc with
            | Some dc, true => handleServiceEventForDeployment ctx svc clusterName dc
            | _, _ => wret None
            end;;
      e2 <- match wc_rollouts rc, wc_services rc with
            | Some roc, true => if p.(Params.ArgoRolloutsEnabled)
                                then handleServiceEventForRollout ctx svc clusterName roc else wret None
            | _, _ => wret None
            end;;
      let collected := if is_nil e1 then None else AppendError None e1 in
      wret (if is_nil e2 then collected else AppendError collected e2)
  end.

(** [ServiceHandler]: the type of the event is put into the context. *)
Definition ServiceHandler_event (event : EventType) (ctx : event_ctx) (obj : ServiceObj)
    (rc : option workload_controllers) (clusterID : string) : W (svc_state X) error :=
  err <- handleEventForService (ctx <| ctxEventType := Some event |>) obj rc clusterID;;
  wret (wrapped (event_name event) "Service" (Name (SvcMeta obj)) clusterID err).
End Services.

(** ** The controller of the services *)

(** The state: the cache and what the handler changes besides. *)
Section Controller.
Context {range : GoRange} {sorting : GoSort} {H : Type}.
(** [ServiceHandler], which may change the cache, and the API: the service of a namespace
    and name. *)
Context (handler : EventType -> ServiceObj -> serviceCache * H -> (serviceCache * H) * error)
  (api_service : string -> string -> option ServiceObj).

Definition not_a_service : error := Some "type assertion failed, object is not of type *v1.Service".

Definition ServiceController_event (ev : EventType) (o : delivered ServiceObj) (s : serviceCache * H)
    : (serviceCache * H) * error :=
  match o, ev with
  | Stale _, _ => (s, not_a_service)
  | Present service, Delete =>
      let '((c, h), err) := handler Delete service s in
      ((if is_nil err then ServiceCache_Delete c service else c, h), err)
  | Present service, _ => handler ev service (ServiceCache_Put s.1 service, s.2)
  end.

Definition ServiceController_UpdateProcessItemStatus (o : delivered ServiceObj) (status : string)
    (s : serviceCache * H) : (serviceCache * H) * error :=
  match o with
  | Stale _ => (s, not_a_service)
  | Present service => let '(c, err) := UpdateSvcProcessStatus s.1 service status in ((c, s.2), err)
  end.

Definition ServiceController_GetProcessItemStatus (o : delivered ServiceObj) (s : serviceCache * H)
    : string * error :=
  match o with
  | Stale _ => (NotProcessed, not_a_service)
  | Present service => (GetSvcProcessStatus s.1 service, None)
  end.

Definition no_kubernetes_client : string := "kubernetes client is not initialized".

(** With [isRetry] all services of the namespace. *)
Definition ServiceController_GetCached (o : delivered ServiceObj) (s : serviceCache * H)
    : fetched (delivered ServiceObj) + string :=
  match o with
  | Stale _ => inr no_kubernetes_client
  | Present service => inl (FetchedServices (map Present (ServiceCache_Get s.1 (Namespace (SvcMeta service)))))
  end.

Definition ServiceController_GetLatest (o : delivered ServiceObj) (s : serviceCache * H)
    : (serviceCache * H) * (delivered ServiceObj + string) :=
  match o with
  | Stale _ => (s, inr no_kubernetes_client)
  | Present service =>
      (s, match api_service (Namespace (SvcMeta service)) (Name (SvcMeta service)) with
          | Some latest => inl (Present latest)
          | None => inr "not found"
          end)
  end.

#[export] Instance service_delegator : Delegator (serviceCache * H) (delivered ServiceObj) := {|
  obj_meta o := match o with Present service => Some (SvcMeta service) | Stale _ => None end;
  is_tombstone o := match o with Present _ => false | Stale _ => true end;
  Added := ServiceController_event Add;
  Updated o _ := ServiceController_event Update o;
  Deleted := ServiceController_event Delete;
  UpdateProcessItemStatus := ServiceController_UpdateProcessItemStatus;
  GetProcessItemStatus := ServiceController_GetProcessItemStatus;
  GetCached := ServiceController_GetCached;
  GetLatest := ServiceController_GetLatest;
  DoesGenerationMatch _ _ := (false, None);
  IsOnlyReplicaCountChanged _ _ := (false, None)
|}.

(** A service is tracked when the cache has it. *)
#[export] Instance service_laws : DelegatorLaws service_delegator.
Proof.
  refine {| tracked o s := exists service, o = Present service /\ is_Some (cache_item s.1 service);
            status_recorded := _; tracked_kept := _ |}.
  - intros o st [c h] (service & -> & [it Hi]). simpl in *.
    unfold UpdateSvcProcessStatus, GetSvcProcessStatus, cache_item, getKey in *.
    destruct (c !! _) as [e|]; [|done]. simpl in *. destruct (Service e !! _) as [m|]; [|done]. simpl in *.
    rewrite Hi. simpl. do 3 (rewrite lookup_insert_eq; simpl). done.
  - intros o st [c h] (service & -> & [it Hi]). simpl in *. exists service. split; [done|].
    unfold UpdateSvcProcessStatus, cache_item, getKey in *.
    destruct (c !! _) as [e|]; [|done]. simpl in *. destruct (Service e !! _) as [m|]; [|done]. simpl in *.
    rewrite Hi. simpl. do 3 (rewrite lookup_insert_eq; simpl). by eexists.
Defined.
End Controller.

(** ** Deletions *)

(** The service is cached, matches the workload, and no other cached service does. *)
Definition sole_service `{!GoRange, !GoSort} (svc : ServiceObj) (wl : workload) (c : serviceCache) : Prop :=
  let services := ServiceCache_Get c (Namespace (SvcMeta svc)) in
  (exists service, service ∈ services /\ workload_service wl service = true /\
     Name (SvcMeta service) = Name (SvcMeta svc)) /\
  forall service, service ∈ services -> workload_service wl service = true ->
    Name (SvcMeta service) = Name (SvcMeta svc).

Section CheckLemmas.
Context {range : GoRange} {sorting : GoSort} (svc : ServiceObj) (wl : workload) (c : serviceCache).

Lemma matched_services_elem name :
  name ∈ matched_services wl c (Namespace (SvcMeta svc)) <->
  exists service, service ∈ ServiceCache_Get c (Namespace (SvcMeta svc)) /\
    workload_service wl service = true /\ Name (SvcMeta service) = name.
Proof.
  unfold matched_services. rewrite elem_of_list_to_set, list_elem_of_fmap. split.
  - intros (s & -> & Hs). rewrite list_elem_of_In, filter_In, <- list_elem_of_In in Hs. naive_solver.
  - intros (s & Hs & Hm & <-). exists s. split; [done|].
    rewrite list_elem_of_In, filter_In, <- list_elem_of_In. done.
Qed.

Lemma single_iff (names : gset string) n : Nat.ltb 1 (size names) || bool_decide (n ∉ names) = false <->
  n ∈ names /\ forall n', n' ∈ names -> n' = n.
Proof.
  rewrite orb_false_iff, bool_decide_eq_false, Nat.ltb_ge. split.
  - intros [Hs Hn]. apply dec_stable in Hn. split; [done|]. intros n' Hn'.
    assert (size names <> 0) by (intros H0%size_empty_inv; set_solver).
    apply (size_singleton_inv names); [lia|done..].
  - intros [Hn Hall]. replace names with ({[n]} : gset string) by set_solver.
    rewrite size_singleton. split; [lia|set_solver].
Qed.

Lemma check_services_spec :
  checkIfThereAreMultipleMatchingServices svc c wl = inl false <-> sole_service svc wl c.
Proof.
  unfold checkIfThereAreMultipleMatchingServices, sole_service. cbv zeta.
  setoid_rewrite <- matched_services_elem.
  assert ((forall service, service ∈ ServiceCache_Get c (Namespace (SvcMeta svc)) ->
             workload_service wl service = true -> Name (SvcMeta service) = Name (SvcMeta svc)) <->
          forall n, n ∈ matched_services wl c (Namespace (SvcMeta svc)) -> n = Name (SvcMeta svc)) as ->.
  { split; [|intros H s Hs Hm; apply H, matched_services_elem; eauto].
    intros H n (s & Hs & Hm & <-)%matched_services_elem. by apply H. }
  rewrite <- single_iff. destruct (is_nil (c !! Namespace (SvcMeta svc))) eqn:E; [|split; [by intros [= ?]|by intros ->]].
  split; [done|]. rewrite single_iff, matched_services_elem. intros [(s & Hs & _) _].
  unfold ServiceCache_Get in Hs. destruct (c !! _); [done|]. by apply elem_of_nil in Hs.
Qed.
End CheckLemmas.

Section Deletion.
Context {range : GoRange} {sorting : GoSort} {X : Type} {reg : HostingRegistry X} (p : AdmiralParams).
Context (registry : bool).
Context (processClientDependencyRecord : serviceCache -> event_ctx -> string -> string -> string -> W X error).

Lemma on_rest_services {A} (c : W X A) w a w' :
  on_rest c w = Some (a, w') -> sv_services (w_api w') = sv_services (w_api w).
Proof. unfold on_rest. destruct (c _) as [[a' w1]|]; [|done]. by intros [= <- <-]. Qed.

Lemma on_rest_ext {A} (c c' : W X A) w : (forall w', c w' = c' w') -> on_rest c w = on_rest c' w.
Proof. intros Hc. unfold on_rest. by rewrite Hc. Qed.

Context (svc : ServiceObj) (clusterName : string).
(** Two ways to process identities that are the same except for deletions. *)
Context (modifySE modifySE' : serviceCache -> event_ctx -> EventType -> string -> string -> W X error).

(** A deletion that a workload of the list may cause. *)
Definition deletion_allowed (l : list workload) (c : serviceCache) (env identity : string) : Prop :=
  is_gateway_service p svc = false /\
  exists wl, wl ∈ l /\ wl_env wl = env /\ wl_globalIdentifier wl = identity /\ sole_service svc wl c.

Lemma handle_agrees ctx ev wl w :
  (forall ctx' w', modifySE (sv_services (w_api w)) ctx' ev (wl_env wl) (wl_globalIdentifier wl) w' =
                   modifySE' (sv_services (w_api w)) ctx' ev (wl_env wl) (wl_globalIdentifier wl) w') ->
  handle_workload_event p registry modifySE processClientDependencyRecord ctx ev wl clusterName w =
  handle_workload_event p registry modifySE' processClientDependencyRecord ctx ev wl clusterName w.
Proof.
  intros Ha. unfold handle_workload_event. destruct (is_empty _); [done|].
  apply wbnd_ext; [done|]. intros _ w1 H1%on_rest_services.
  apply wbnd_ext; [done|]. intros _ w2 H2%on_rest_services.
  apply wbnd_ext; [done|]. intros c w3 [= <- <-].
  apply wbnd_ext; [|done]. apply on_rest_ext. intros w'. rewrite H2, H1. apply Ha.
Qed.

(** A deletion after a turn was one before it. *)
Lemma turn_event ctx ev wl w ctx' err w' :
  service_turn p registry modifySE processClientDependencyRecord svc clusterName ctx ev wl w =
    Some ((ctx', Delete, err), w') -> ev = Delete.
Proof.
  unfold service_turn. intros (? & ? & _ & H)%wbnd_Some. apply wbnd_Some in H as (c & w1 & _ & H).
  destruct ev; [by apply wbnd_Some in H as (? & ? & _ & [=])..|done].
Qed.

(** The turn's call is the same under both, and so is the loop. *)
Lemma turn_agrees l ctx ev wl w :
  wl ∈ l -> (ev = Delete -> is_gateway_service p svc = false) ->
  (forall c ctx' ev' env identity w', (ev' = Delete -> deletion_allowed l c env identity) ->
     modifySE c ctx' ev' env identity w' = modifySE' c ctx' ev' env identity w') ->
  service_turn p registry modifySE processClientDependencyRecord svc clusterName ctx ev wl w =
  service_turn p registry modifySE' processClientDependencyRecord svc clusterName ctx ev wl w.
Proof.
  intros Hl Hg Ha. unfold service_turn. apply wbnd_ext; [done|]. intros _ w1 _.
  apply wbnd_ext; [done|]. intros c w2 [= <- <-].
  assert (forall ctx ev w2, (ev = Delete -> deletion_allowed l (sv_services (w_api w2)) (wl_env wl) (wl_globalIdentifier wl)) ->
    wbnd (handle_workload_event p registry modifySE processClientDependencyRecord ctx ev wl clusterName)
      (fun err => wret (ctx, ev, err)) w2 =
    wbnd (handle_workload_event p registry modifySE' processClientDependencyRecord ctx ev wl clusterName)
      (fun err => wret (ctx, ev, err)) w2) as Hh.
  { intros ctx0 ev0 w0 H0. apply wbnd_ext; [|done]. apply handle_agrees. intros. by apply Ha. }
  destruct ev; [by apply Hh..|].
  destruct (checkIfThereAreMultipleMatchingServices svc _ wl) as [[]|err] eqn:E; [|apply Hh|done].
  - apply wbnd_ext; [done|]. intros _ w2 _. by apply Hh.
  - intros _. split; [by apply Hg|]. exists wl. split_and!; [done..|]. cbn. by apply check_services_spec in E.
Qed.

Lemma loop_agrees l ctx ev err l' w :
  (forall wl, wl ∈ l' -> wl ∈ l) -> (ev = Delete -> is_gateway_service p svc = false) ->
  (forall c ctx' ev' env identity w', (ev' = Delete -> deletion_allowed l c env identity) ->
     modifySE c ctx' ev' env identity w' = modifySE' c ctx' ev' env identity w') ->
  service_loop p registry modifySE processClientDependencyRecord svc clusterName ctx ev err l' w =
  service_loop p registry modifySE' processClientDependencyRecord svc clusterName ctx ev err l' w.
Proof.
  intros Hl Hg Ha. revert ctx ev err w Hg. induction l' as [|wl l' IH]; intros ctx ev err w Hg; [done|].
  cbn [service_loop]. apply wbnd_ext; [apply (turn_agrees l); [apply Hl; set_solver|done..]|].
  intros [[ctx1 ev1] e1] w1 Hw. apply IH; [intros; apply Hl; set_solver|].
  intros ->. apply Hg. by apply turn_event in Hw.
Qed.
End Deletion.

Section Safety.
Context {range : GoRange} {sorting : GoSort} {X : Type} {reg : HostingRegistry X} (p : AdmiralParams).
Context (registry : bool).
Context (processClientDependencyRecord : serviceCache -> event_ctx -> string -> string -> string -> W X error).

(** The workloads of the namespace that the service selects. *)
Definition selected_workloads (svc : ServiceObj) (rc : workload_controllers) : list workload :=
  match wc_deployments rc with
  | Some dc => map (of_deployment p)
      (default [] (GetDeploymentBySelectorInNamespace dc.2 (SvcSelector svc) (Namespace (SvcMeta svc))))
  | None => []
  end ++
  match wc_rollouts rc with
  | Some roc => map (of_rollout p)
      (default [] (GetRolloutBySelectorInNamespace roc.2 (SvcSelector svc) (Namespace (SvcMeta svc))))
  | None => []
  end.

Lemma service_event_agrees modifySE modifySE' svc clusterName l ctx listed selected w :
  (forall wl, wl ∈ selected -> wl ∈ l) ->
  (forall c ctx' ev' env identity w', (ev' = Delete -> deletion_allowed p svc l c env identity) ->
     modifySE c ctx' ev' env identity w' = modifySE' c ctx' ev' env identity w') ->
  handle_service_event p registry modifySE processClientDependencyRecord svc clusterName ctx listed selected w =
  handle_service_event p registry modifySE' processClientDependencyRecord svc clusterName ctx listed selected w.
Proof.
  intros Hl Ha. unfold handle_service_event. destruct (ctxEventType ctx) as [ev|]; [|done].
  destruct (is_gateway_service p svc) eqn:G.
  - apply wbnd_ext; [done|]. intros _ w1 _. apply (loop_agrees p registry processClientDependencyRecord svc
      clusterName modifySE modifySE' listed); [done..|]. intros c ctx' ev' env id w' Hd. apply Ha.
    intros ->. destruct (Hd eq_refl) as [? _]. congruence.
  - by apply (loop_agrees p registry processClientDependencyRecord svc clusterName modifySE modifySE' l).
Qed.

(** An event of a service, its deletion included, is processed as the deletion of an
    identity only for a workload that the service selects and for which it is the only
    matching cached service of the namespace, and never for an ingress gateway: how
    deletions of anything else would be processed makes no difference. *)
Theorem service_deletion_safe (modifySE modifySE' : serviceCache -> event_ctx -> EventType -> string -> string -> W X error)
    event ctx svc rc clusterID w :
  (forall c ctx' ev env identity w',
     (ev = Delete -> is_gateway_service p svc = false /\
        exists wl, wl ∈ default [] (selected_workloads svc <$> rc) /\ wl_env wl = env /\
          wl_globalIdentifier wl = identity /\ sole_service svc wl c) ->
     modifySE c ctx' ev env identity w' = modifySE' c ctx' ev env identity w') ->
  ServiceHandler_event p registry modifySE processClientDependencyRecord event ctx svc rc clusterID w =
  ServiceHandler_event p registry modifySE' processClientDependencyRecord event ctx svc rc clusterID w.
Proof.
  intros Ha. unfold ServiceHandler_event. apply wbnd_ext; [|done].
  unfold handleEventForService. destruct (SvcSelector svc) as [sel|] eqn:Hs; [|done].
  destruct rc as [rc|]; [|done]. simpl in Ha. unfold selected_workloads in Ha.
  apply wbnd_ext; [|intros e1 w1 _; apply wbnd_ext; [|done]].
  - destruct (wc_deployments rc) as [dc|]; [|done]. destruct (wc_services rc); [|done].
    eapply service_event_agrees; [|apply Ha]. intros wl ?. apply elem_of_app. by left.
  - destruct (wc_rollouts rc) as [roc|]; [|done]. destruct (wc_services rc), (p.(Params.ArgoRolloutsEnabled)); [|done..].
    eapply service_event_agrees; [|apply Ha]. intros wl ?. apply elem_of_app. by right.
Qed.
End Safety.

(** *** A deployment with two services, which lose it and keep it *)

(** What is processed is recorded. *)
Definition record_processing (c : serviceCache) (ctx : event_ctx) (ev : EventType) (env identity : string)
    : W (list (EventType * string)) error :=
  on_api (fun log => (log ++ [(ev, identity)], None)).

#[export] Instance no_hosting_registry : HostingRegistry (list (EventType * string)) := {|
  PutHostingData _ _ _ _ _ _ _ := wret None;
  DeleteHostingData _ _ _ _ _ _ := wret None;
  PutClusterGateway _ _ _ _ := wret None
|}.

Definition shop_params : AdmiralParams :=
  Params.zero_AdmiralParams <| Params.LabelSetPtr := Some (Params.zero_LabelSet
    <| Params.GatewayApp := "gw" |> <| Params.WorkloadIdentityKey := "identity" |> <| Params.EnvKey := "env" |>) |>.
Definition shop_service (name : string) (selector : gmap string string) : ServiceObj :=
  mkService (mkMeta name "ns" None None 0 "1") [mkSvcPort "http" 80 (mkIntOrString 80 "") 0] (Some selector) [] [].
Definition shop : ServiceObj := shop_service "all" {[ "app" := "shop" ]}.
Definition shop_v1 : ServiceObj := shop_service "v1" {[ "app" := "shop"; "version" := "v1" ]}.
Definition shop_deployment (identity version : string) : DeploymentObj :=
  mkDeployment (mkMeta identity "ns" None None 0 "1")
    (mkTemplate (Some {[ "identity" := identity; "env" := "dev" ]}) None)
    (Some (mkSelector (Some {[ "app" := "shop"; "version" := version ]}))) None 1 "".
Definition shop_cluster (deployments : list DeploymentObj) : workload_controllers :=
  mkWorkloadControllers (Some (∅, fun _ => Some deployments)) None true.
Definition shop_world (services : list ServiceObj) : world (svc_state (list (EventType * string))) :=
  mkWorld (mkSvcState [] (foldl ServiceCache_Put ∅ services)) (mkHeap ∅ ∅ 0 ∅)
    (mkAdmiralCaches (mkCachePointers None None None None None) None None None None) empty_store ∅.
Definition delete_shop (modifySE : serviceCache -> event_ctx -> EventType -> string -> string -> W (list (EventType * string)) error)
    (deployments : list DeploymentObj) (services : list ServiceObj) : W (svc_state (list (EventType * string))) error :=
  ServiceHandler_event shop_params true modifySE (fun _ _ _ _ _ => wret None) Delete (mkCtx None None None (Some "tx"))
    shop (Some (shop_cluster deployments)) "c1".
Definition processed {A} (r : option (A * world (svc_state (list (EventType * string))))) : list (EventType * string) :=
  match r with Some (_, w) => sv_rest (w_api w) | None => [] end.

(** A processing that panics on every deletion but that of the last service of [foo]. *)
Definition foo_only (c : serviceCache) (ctx : event_ctx) (ev : EventType) (env identity : string)
    : W (list (EventType * string)) error :=
  match ev, checkIfThereAreMultipleMatchingServices shop c (of_deployment shop_params (shop_deployment "foo" "v1")) with
  | Delete, inl false => record_processing c ctx ev env identity
  | Delete, _ => wpanic
  | _, _ => record_processing c ctx ev env identity
  end.

Lemma shop_selected p svc ds wl :
  wl ∈ selected_workloads p svc (shop_cluster ds) -> exists d, d ∈ ds /\ wl = of_deployment p d.
Proof.
  unfold selected_workloads, GetDeploymentBySelectorInNamespace. simpl. rewrite app_nil_r.
  intros (d & -> & Hd)%list_elem_of_fmap. exists d. split; [|done].
  rewrite list_elem_of_In, filter_In in Hd. destruct Hd. by apply list_elem_of_In.
Qed.

Lemma service_deletion_safe_witness :
  let run services := delete_shop record_processing [shop_deployment "foo" "v1"] services (shop_world services) in
  processed (run [shop]) = [(Delete, "foo")] /\ processed (run [shop; shop_v1]) = [(Update, "foo")] /\
  forall services, run services = delete_shop foo_only [shop_deployment "foo" "v1"] services (shop_world services).
Proof.
  intros run. split; [vm_compute; reflexivity|]. split; [vm_compute; reflexivity|].
  intros services. unfold run, delete_shop. apply service_deletion_safe.
  intros c ctx ev env identity w Hd. unfold foo_only. destruct ev; [done..|].
  destruct (Hd eq_refl) as (_ & wl & Hwl & _ & _ & Hs).
  apply shop_selected in Hwl as (d & Hd' & ->).
  apply list_elem_of_singleton in Hd' as ->. apply check_services_spec in Hs. by rewrite Hs.
Defined.

(** The deletion of the service of two deployments: whether that of [bar] is deleted too
    depends on their order, as the event stays an update after [foo]'s. *)
Lemma update_carries_over :
  let foo := shop_deployment "foo" "v1" in
  let bar := shop_deployment "bar" "v2" in
  let run l := delete_shop record_processing l [shop; shop_v1] (shop_world [shop; shop_v1]) in
  processed (run [bar; foo]) = [(Delete, "bar"); (Update, "foo")] /\
  processed (run [foo; bar]) = [(Update, "foo"); (Update, "bar")].
Proof. split; vm_compute; reflexivity. Qed.
