(* ===== verification/DependencyProcessing.v ===== *)
(** * Processing the dependencies of an identity

    [clusters/dependency_handler.go], the end of [clusters/util.go] and the destinations
    that [clusters/types.go] remembers: a dependency record, or a workload of a client,
    has the service entries of the destinations written to the client's clusters.  The
    processing of a destination ([ModifyServiceEntry.v]) is a parameter. *)
From S2P Require Import Prelude GoStrings Config Objects Metadata ServiceCache Policies AddressStore.
From S2P Require Import Caches Dependents World Controller DeploymentController RolloutController.
From S2P Require Import ServiceEntries WorkloadHandlers GatherServiceEntries.
From stdpp Require Import options.
Local Open Scope Z_scope.
Local Open Scope world_scope.

(** ** The state *)

(** The rest of the state, and [AdmiralCache.SourceToDestinations]. *)
Record dep_state (X : Type) := mkDepState { dp_rest : X; sourceDestinations : gmap string (list string) }.
Arguments mkDepState {X} _ _.
Arguments dp_rest {X} _.
Arguments sourceDestinations {X} _.
#[export] Instance eta_dep_state X : Settable (dep_state X) := fun s => mkDepState (dp_rest s) (sourceDestinations s).

(** A record without destinations changes nothing. *)
Definition sourceToDestinations_put (dep : DependencyObj) (m : gmap string (list string)) : gmap string (list string) :=
  if is_empty (DpSource dep) then m
  else match DpDestinations dep with [] => m | ds => <[DpSource dep := ds]> m end.

Definition sourceToDestinations_Get (key : string) (m : gmap string (list string)) : list string :=
  default [] (m !! key).

(** [IsCacheWarmupTimeForDependency]; durations are 64 bits wide. *)
Definition int64 (z : Z) : Z := (z + 2 ^ 63) mod 2 ^ 64 - 2 ^ 63.
Definition IsCacheWarmupTimeForDependency (p : AdmiralParams) (startTime now : Z) : bool :=
  bool_decide (now - startTime < int64 (p.(Params.CacheReconcileDuration) * DependencyWarmupMultiplier p)).

Definition ServicesGatewayIdentity := "Intuit.platform.servicesgateway.servicesgateway".

Section Processing.
Context {range : GoRange} {X : Type} (p : AdmiralParams) (rr : RemoteRegistry).
(** [modifyServiceEntryForNewServiceOrPod]. *)
Context (modifySE : proc_ctx -> EventType -> string -> string -> W (dep_state X) error).

Definition get_destinations (source : string) : W (dep_state X) (list string) :=
  on_api (fun s => (s, sourceToDestinations_Get source (sourceDestinations s))).

(** The clusters that the cache has for an identity. *)
Definition clusters_of (identity : string) : W (dep_state X) ptr :=
  c <- get_caches;; on_heap (MapOfMaps_Get (IdentityClusterCache (pointers c)) identity).

Definition isIdentityMeshEnabled (identity : string) : W (dep_state X) bool :=
  c <- clusters_of identity;; wret (negb (is_nil c)).

Definition updateIdentityDependencyCache (sourceIdentity : string) (dr : DependencyObj) : W (dep_state X) unit :=
  c <- get_caches;;
  witer (fun dIdentity => on_heap (MapOfMaps_Put (IdentityDependencyCache c) dIdentity sourceIdentity sourceIdentity))
    (DpDestinations dr).

(** ** What is processed *)

Fixpoint wfilter {A} (f : A -> W (dep_state X) bool) (l : list A) : W (dep_state X) (list A) :=
  match l with
  | [] => wret []
  | a :: l' => b <- f a;; r <- wfilter f l';; wret (if b : bool then a :: r else r)
  end.

(** For an update only the destinations that are not stored yet; whether any destination
    is not in the mesh. *)
Definition getDestinationsToBeProcessed (eventType : EventType) (updatedDependency : DependencyObj)
    : W (dep_state X) (list string * bool) :=
  existingDestination <- get_destinations (DpSource updatedDependency);;
  nonMesh <- wfilter (fun d => b <- isIdentityMeshEnabled d;; wret (negb b)) (DpDestinations updatedDependency);;
  wret (List.filter (fun d => negb (match eventType with Update => str_in d existingDestination | _ => false end))
          (DpDestinations updatedDependency),
        match nonMesh with [] => false | _ => true end).

(** For a client's workload: the destinations in the mesh, and without [bypass] those that
    have not been processed for its namespace. *)
Definition getDestinationsToBeProcessedForClientInitiatedProcessing (globalIdentifier clusterName clientNs : string)
    (bypass : bool) : W (dep_state X) (list string) :=
  actualServerIdentities <- get_destinations globalIdentifier;;
  c <- get_caches;;
  processedClientClusters <- on_heap (MapOfMapOfMaps_Get (ClientClusterNamespaceServerCache c) clusterName);;
  meshServerIdentities <- wfilter isIdentityMeshEnabled actualServerIdentities;;
  destinationsToBeProcessed <-
    (if bypass || is_nil processedClientClusters then wret meshServerIdentities
     else
       processedClientNamespaces <- on_heap (MapOfMaps_Get processedClientClusters clientNs);;
       if is_nil processedClientNamespaces then wret meshServerIdentities
       else wfilter (fun id => v <- on_heap (Map_Get processedClientNamespaces id);; wret (is_empty v))
              meshServerIdentities);;
  wret (dedup_adj (sort_strings destinationsToBeProcessed)).

(** ** The processing of destinations *)

Section Destinations.
(** [source] is what the caller names the source; the dependent clusters that the
    processing is limited to. *)
Context (ctx : proc_ctx) (eventType : EventType) (hasNonMeshDestination : bool) (sourceClusters : ptr) (source : string).

Definition skipped (destinationIdentity : string) : bool :=
  (contains (to_lower destinationIdentity) (to_lower ServicesGatewayIdentity) && negb hasNonMeshDestination)
  || equal_fold source destinationIdentity.

Definition destination_ctx (cluster typ : string) : proc_ctx :=
  ctx <| px_event := px_event ctx <| ctxClusterName := Some cluster |> <| ctxEventResourceType := Some typ |> |>
      <| DependentClusterOverride := Some sourceClusters |>.

(** The environments of a cluster's workloads of the destination, in a turn of the loop. *)
Fixpoint process_environments (cluster typ destinationIdentity : string) (envs : list string) (errors : error)
    : W (dep_state X) error :=
  match envs with
  | [] => wret errors
  | env :: rest =>
      err <- modifySE (destination_ctx cluster typ) eventType env destinationIdentity;;
      process_environments cluster typ destinationIdentity rest
        (if is_nil err then errors else AppendError errors err)
  end.

Definition deployment_envs (cluster destinationIdentity : string) : list string :=
  match DeploymentCaches rr !! cluster with
  | Some c => (go_range 0 (default ∅ (GetByIdentity c destinationIdentity))).*1
  | None => []
  end.
Definition rollout_envs (cluster destinationIdentity : string) : list string :=
  match RolloutCaches rr !! cluster with
  | Some c => (go_range 0 (default ∅ (RolloutCache_GetByIdentity c destinationIdentity))).*1
  | None => []
  end.

(** Rollouts only when the cluster has no deployment of the destination. *)
Definition process_cluster (destinationIdentity cluster : string) (errors : error) : W (dep_state X) error :=
  if is_nil (remoteControllers rr !! cluster)
  then wret (AppendError errors (Some ("no remote controller found in cache for cluster " +:+ cluster)))
  else
    match deployment_envs cluster destinationIdentity, rollout_envs cluster destinationIdentity with
    | [], [] => wret errors
    | [], envs => process_environments cluster RolloutType destinationIdentity envs errors
    | envs, _ => process_environments cluster DeploymentType destinationIdentity envs errors
    end.

Fixpoint process_clusters (destinationIdentity : string) (clusters : list string) (errors : error)
    : W (dep_state X) error :=
  match clusters with
  | [] => wret errors
  | cluster :: rest =>
      errors <- process_cluster destinationIdentity cluster errors;;
      process_clusters destinationIdentity rest errors
  end.

(** The log of a destination without clusters reads the source clusters. *)
Definition process_destination (destinationIdentity : string) (errors : error) : W (dep_state X) error :=
  if skipped destinationIdentity then wret errors
  else
    clusters <- clusters_of destinationIdentity;;
    n <- (if is_nil clusters then wret 0%nat else on_heap (Map_Len clusters));;
    if Nat.eqb n 0 then on_heap (Map_GetValues sourceClusters) ;;; wret errors
    else ids <- on_heap (Map_GetValues clusters);; process_clusters destinationIdentity ids errors.

Fixpoint process_destinations (destinations : list string) (errors : error) : W (dep_state X) error :=
  match destinations with
  | [] => wret errors
  | d :: rest => errors <- process_destination d errors;; process_destinations rest errors
  end.

Definition processDestinationsForSourceIdentity (destinations : list string) : W (dep_state X) error :=
  process_destinations destinations None.
End Destinations.

(** ** The handlers *)

(** The start of the registry and the time of the warm-up check. *)
Context (startTime now : Z).

(** The workloads of a client; the clusters of its destinations' dependents are not
    limited to any: the override is an empty map. *)
Definition processClientDependencyRecord (ctx : proc_ctx) (globalIdentifier clusterName clientNs : string) (bypass : bool)
    : W (dep_state X) error :=
  if IsCacheWarmupTimeForDependency p startTime now then wret None
  else
    destinationsToBeProcessed <-
      getDestinationsToBeProcessedForClientInitiatedProcessing globalIdentifier clusterName clientNs bypass;;
    match destinationsToBeProcessed with
    | [] => wret None
    | _ =>
        sourceClusters <- on_heap NewMap;;
        err <- processDestinationsForSourceIdentity ctx Update true sourceClusters globalIdentifier
                 destinationsToBeProcessed;;
        wret (match err with
              | None => None
              | Some e => Some ("failed to perform client initiated processing for " +:+ globalIdentifier +:+
                  ", got error: " +:+ e)
              end)
    end.

(** [ProcessDestinationService.Process]; the source is named by the record's name. *)
Definition ProcessDestinationService_Process (ctx : proc_ctx) (dependency : DependencyObj) (eventType : EventType)
    : W (dep_state X) error :=
  if IsCacheWarmupTimeForDependency p startTime now then wret None
  else if negb (IsDependencyProcessingEnabled p) then wret None
  else
    '(destinations, hasNonMeshDestination) <- getDestinationsToBeProcessed eventType dependency;;
    sourceClusters <- clusters_of (DpSource dependency);;
    if is_nil sourceClusters then wret None
    else processDestinationsForSourceIdentity ctx eventType hasNonMeshDestination sourceClusters
           (Name (DpMeta dependency)) destinations.

(** [RoutingPolicyProcessor.ProcessDependency], whose error is only logged. *)
Context (ProcessDependency : proc_ctx -> EventType -> DependencyObj -> W (dep_state X) error).

Definition store_destinations (obj : DependencyObj) : W (dep_state X) unit :=
  on_api (fun s => (s <| sourceDestinations := sourceToDestinations_put obj (sourceDestinations s) |>, tt)).

Definition HandleDependencyRecord (ctx : proc_ctx) (obj : DependencyObj) (eventType : EventType)
    : W (dep_state X) error :=
  if is_empty (DpSource obj) then wret None
  else
    updateIdentityDependencyCache (DpSource obj) obj ;;;
    err <- ProcessDestinationService_Process ctx obj eventType;;
    match err with
    | Some _ => wret (AppendError None err)
    | None => ProcessDependency ctx eventType obj ;;; store_destinations obj ;;; wret None
    end.

(** [DependencyHandler]: a deletion is not handled. *)
Definition DependencyHandler_event (event : EventType) (ctx : proc_ctx) (obj : DependencyObj)
    : W (dep_state X) error :=
  match event with Delete => wret None | _ => HandleDependencyRecord ctx obj event end.
End Processing.

(** ** Lemmas *)

Section Lemmas.
Context {range : GoRange} {X : Type}.

Lemma on_heap_read {A} (c : M A) a (w : world (dep_state X)) :
  c (w_heap w) = Done a (w_heap w) -> on_heap c w = Some (a, w).
Proof. intros Hc. unfold on_heap. rewrite Hc. by destruct w. Qed.

Lemma wbnd_run {A B} (c : W (dep_state X) A) (k : A -> W (dep_state X) B) a w :
  c w = Some (a, w) -> wbnd c k w = k a w.
Proof. unfold wbnd. by intros ->. Qed.

Lemma wfilter_run {A} (f : A -> W (dep_state X) bool) (g : A -> bool) l w :
  (forall a, a ∈ l -> f a w = Some (g a, w)) -> wfilter f l w = Some (List.filter g l, w).
Proof.
  induction l as [|a l IH]; intros Hf; [done|]. simpl.
  rewrite (wbnd_run _ _ (g a)) by (apply Hf; left). rewrite (wbnd_run _ _ (List.filter g l)); [done|].
  apply IH. intros a' Ha'. apply Hf. by right.
Qed.

(** The caches that the readers use are there, and no lock is held. *)
Record caches_ready (w : world (dep_state X)) (icc ccns : nat) : Prop := {
  cr_wf : wf (w_heap w);
  cr_free : h_locked (w_heap w) = ∅;
  cr_icc : IdentityClusterCache (pointers (w_caches w)) = Some icc;
  cr_icc_alloc : allocated 2 (w_heap w) icc;
  cr_ccns : ClientClusterNamespaceServerCache (w_caches w) = Some ccns;
  cr_ccns_alloc : allocated 3 (w_heap w) ccns
}.

(** The identity is in the mesh: some cluster is known for it. *)
Definition mesh_enabled (w : world (dep_state X)) (identity : string) : bool :=
  negb (is_nil (child 2 (w_heap w) (IdentityClusterCache (pointers (w_caches w))) identity)).

Lemma clusters_of_run w icc identity :
  IdentityClusterCache (pointers (w_caches w)) = Some icc -> h_locked (w_heap w) = ∅ -> allocated 2 (w_heap w) icc ->
  clusters_of (X := X) identity w = Some (child 2 (w_heap w) (Some icc) identity, w).
Proof.
  intros Hi Hf Ha. unfold clusters_of, get_caches, wbnd. rewrite Hi.
  apply on_heap_read. by apply mom_Get_run.
Qed.

Lemma mesh_enabled_run w icc identity :
  IdentityClusterCache (pointers (w_caches w)) = Some icc -> h_locked (w_heap w) = ∅ -> allocated 2 (w_heap w) icc ->
  isIdentityMeshEnabled (X := X) identity w = Some (mesh_enabled w identity, w).
Proof.
  intros Hi Hf Ha. unfold isIdentityMeshEnabled. rewrite (wbnd_run _ _ _ _ (clusters_of_run w icc identity Hi Hf Ha)).
  unfold mesh_enabled. by rewrite Hi.
Qed.

(** The destinations that are left for a client. *)
Definition unprocessed (w : world (dep_state X)) (ccns : nat) (cluster ns : string) (bypass : bool) (d : string) : bool :=
  bypass || is_empty (read 3 (w_heap w) (Some ccns) [cluster; ns] d).

Lemma filter_all {A} (f : A -> bool) l : (forall a, f a = true) -> List.filter f l = l.
Proof. intros Hf. induction l as [|a l IH]; [done|]. simpl. by rewrite Hf, IH. Qed.

Lemma client_destinations_run w icc ccns id cluster ns bypass :
  caches_ready w icc ccns ->
  getDestinationsToBeProcessedForClientInitiatedProcessing id cluster ns bypass w =
    Some (dedup_adj (sort_strings (List.filter (unprocessed w ccns cluster ns bypass)
            (List.filter (mesh_enabled w) (sourceToDestinations_Get id (sourceDestinations (w_api w)))))), w).
Proof.
  intros [Hw Hf Hi Hia Hc Hca]. unfold getDestinationsToBeProcessedForClientInitiatedProcessing.
  rewrite (wbnd_run _ _ (sourceToDestinations_Get id (sourceDestinations (w_api w)))) by by destruct w.
  rewrite (wbnd_run _ _ (w_caches w)), Hc by done.
  rewrite (wbnd_run _ _ (child 3 (w_heap w) (Some ccns) cluster)) by (apply on_heap_read; by apply momom_Get_run).
  rewrite (wbnd_run _ _ _ _ (wfilter_run _ (mesh_enabled w) _ _ (fun a _ => mesh_enabled_run w icc a Hi Hf Hia))).
  set (mesh := List.filter (mesh_enabled w) _).
  rewrite (wbnd_run _ _ (List.filter (unprocessed w ccns cluster ns bypass) mesh)); [done|].
  unfold unprocessed, read. destruct bypass; [by rewrite filter_all|]. cbn [orb resolve Init.Nat.pred].
  pose proof (child_valid 3 (w_heap w) (Some ccns) cluster Hw) as Hv.
  destruct (child 3 (w_heap w) (Some ccns) cluster) as [l2|]; [|by rewrite filter_all]. cbn [is_nil].
  rewrite (wbnd_run _ _ (child 2 (w_heap w) (Some l2) ns)) by (apply on_heap_read; by apply mom_Get_run).
  pose proof (child_valid 2 (w_heap w) (Some l2) ns Hw) as Hv1.
  destruct (child 2 (w_heap w) (Some l2) ns) as [l1|]; [|by rewrite filter_all]. cbn [is_nil].
  apply wfilter_run. intros d _. rewrite (wbnd_run _ _ (default "" (map_of (w_heap w) (Some l1) !! d))).
  - by rewrite entry_map_of.
  - apply on_heap_read. by apply map_Get_run.
Qed.
End Lemmas.

(** ** What is left for a client *)

(** When a workload of a client is processed, the destinations to process are exactly
    those of its dependency record that are in the mesh and, unless all are asked for,
    have not been processed for its cluster and namespace; each comes once, in order, and
    the caches are only read. *)
Theorem client_destinations_spec {range : GoRange} {X} (w : world (dep_state X)) icc ccns id cluster ns bypass :
  caches_ready w icc ccns ->
  exists l,
    getDestinationsToBeProcessedForClientInitiatedProcessing id cluster ns bypass w = Some (l, w) /\
    NoDup l /\ sorted_by str_ltb l /\
    forall d, d ∈ l <->
      d ∈ sourceToDestinations_Get id (sourceDestinations (w_api w)) /\
      child 2 (w_heap w) (Some icc) d <> None /\
      (bypass = true \/ read 3 (w_heap w) (Some ccns) [cluster; ns] d = "").
Proof.
  intros Hr. eexists. split; [by eapply client_destinations_run|].
  split; [apply dedup_sort_NoDup|]. split; [apply dedup_sort_sorted|]. intros d.
  rewrite dedup_sort_elem, !list_elem_of_In, !filter_In, <- list_elem_of_In.
  unfold mesh_enabled, unprocessed. rewrite (cr_icc _ _ _ Hr), orb_true_iff, is_empty_spec.
  assert (negb (is_nil (child 2 (w_heap w) (Some icc) d)) = true <-> child 2 (w_heap w) (Some icc) d <> None) as ->;
    [by destruct (child _ _ _ _)|tauto].
Qed.

(** ** What a dependency's update processes *)
Section Incremental.
Context {range : GoRange} {X : Type} (p : AdmiralParams) (rr : RemoteRegistry).

(** The workloads of the destination in a known cluster: its deployments, or its rollouts
    when the cluster has no deployment of it. *)
Definition deployed_there (cluster typ env identity : string) : Prop :=
  is_Some (remoteControllers rr !! cluster) /\
  (typ = DeploymentType /\ env ∈ deployment_envs rr cluster identity \/
   typ = RolloutType /\ deployment_envs rr cluster identity = [] /\ env ∈ rollout_envs rr cluster identity).

Context (modifySE modifySE' : proc_ctx -> EventType -> string -> string -> W (dep_state X) error).

Section Agree.
Context (ctx : proc_ctx) (ev : EventType) (nonMesh : bool) (sc : ptr) (source : string) (wanted : string -> Prop).
Context (Ha : forall cluster typ env identity w', wanted identity -> equal_fold source identity = false ->
  deployed_there cluster typ env identity ->
  let ctx' := destination_ctx ctx sc cluster typ in
  modifySE ctx' ev env identity w' = modifySE' ctx' ev env identity w').

Lemma environments_agree cluster typ identity envs errors w :
  wanted identity -> equal_fold source identity = false ->
  (forall env, env ∈ envs -> deployed_there cluster typ env identity) ->
  process_environments modifySE ctx ev sc cluster typ identity envs errors w =
  process_environments modifySE' ctx ev sc cluster typ identity envs errors w.
Proof using Ha.
  intros Hw Hs. revert errors w. induction envs as [|env envs IH]; intros errors w Hd; [done|]. simpl.
  apply wbnd_ext; [apply (Ha cluster typ env identity); [done..|]; apply Hd; by left|]. intros err w1 _. apply IH. intros e He. apply Hd. by right.
Qed.

Lemma cluster_agrees identity cluster errors w :
  wanted identity -> equal_fold source identity = false ->
  process_cluster rr modifySE ctx ev sc identity cluster errors w =
  process_cluster rr modifySE' ctx ev sc identity cluster errors w.
Proof using Ha.
  intros Hw Hs. unfold process_cluster. destruct (remoteControllers rr !! cluster) as [rc|] eqn:Hc; [|done]. cbn [is_nil].
  destruct (deployment_envs rr cluster identity) as [|d ds] eqn:Hd.
  - destruct (rollout_envs rr cluster identity) as [|r rs] eqn:Hr; [done|]. apply environments_agree; [done..|].
    intros env He. split; [by eexists|]. right. by rewrite Hd, Hr.
  - assert (forall env, env ∈ d :: ds -> deployed_there cluster DeploymentType env identity) as He.
    { intros env He. split; [by eexists|]. left. by rewrite Hd. }
    destruct (rollout_envs rr cluster identity); by apply environments_agree.
Qed.

Lemma destinations_agree ds errors w :
  (forall d, d ∈ ds -> wanted d) ->
  process_destinations rr modifySE ctx ev nonMesh sc source ds errors w =
  process_destinations rr modifySE' ctx ev nonMesh sc source ds errors w.
Proof using Ha.
  intros Hd. revert errors w. induction ds as [|d ds IH]; intros errors w; [done|]. simpl.
  apply wbnd_ext; [|intros e w1 _; apply IH; intros; apply Hd; by right].
  assert (wanted d) as Hw by (apply Hd; by left).
  unfold process_destination. destruct (skipped nonMesh source d) eqn:Hs; [done|].
  apply orb_false_iff in Hs as [_ Hs]. apply wbnd_ext; [done|]. intros c w1 _.
  apply wbnd_ext; [done|]. intros n w2 _. destruct (Nat.eqb n 0); [done|].
  apply wbnd_ext; [done|]. intros ids w3 _. clear -Hw Hs Ha. revert errors w3.
  induction ids as [|i ids IH]; intros errors w; [done|]. simpl.
  apply wbnd_ext; [by apply cluster_agrees|]. intros e w1 _. apply IH.
Qed.
End Agree.

Context (startTime now : Z) (ProcessDependency : proc_ctx -> EventType -> DependencyObj -> W (dep_state X) error).

Lemma dependency_cache_keeps source dep : api_post (updateIdentityDependencyCache (X := X) source dep) eq.
Proof using Type.
  unfold updateIdentityDependencyCache. apply (api_post_bnd eq); [apply (api_post_caches eq)|]. intros c.
  apply (api_post_iter eq). intros d. apply (api_post_heap eq).
Qed.

(** What is left to process of a record. *)
Definition to_process (obj : DependencyObj) (ev : EventType) (stored : gmap string (list string)) (d : string) : Prop :=
  d ∈ DpDestinations obj /\ (ev = Update -> d ∉ sourceToDestinations_Get (DpSource obj) stored).

Lemma difference_elem ev obj (w : world (dep_state X)) l b w' :
  getDestinationsToBeProcessed ev obj w = Some ((l, b), w') ->
  forall d, d ∈ l -> to_process obj ev (sourceDestinations (w_api w)) d.
Proof using Type.
  unfold getDestinationsToBeProcessed. intros (ex & w1 & [= <- _] & H)%wbnd_Some.
  apply wbnd_Some in H as (n & w2 & _ & [= <- _ _]). intros d.
  rewrite list_elem_of_In, filter_In, <- list_elem_of_In. intros [Hd Hn]. split; [done|]. intros ->.
  by apply negb_true_iff, str_in_false in Hn.
Qed.

(** Reading the clusters of an identity, and asking whether it has some, change nothing. *)
Lemma clusters_of_read identity (w w' : world (dep_state X)) q :
  clusters_of identity w = Some (q, w') -> w' = w /\ q = child 2 (w_heap w) (IdentityClusterCache (pointers (w_caches w))) identity.
Proof using Type.
  unfold clusters_of, wbnd, get_caches, on_heap, MapOfMaps_Get, mbnd, deref_tab, child.
  destruct (IdentityClusterCache _) as [l|]; [|done]. destruct (bool_decide _); [done|].
  destruct (h_tabs (w_heap w) !! (2%nat, l)); [|done]. intros [= <- <-]. by destruct w.
Qed.

Lemma non_mesh_read l (w w' : world (dep_state X)) r :
  wfilter (fun d => b <- isIdentityMeshEnabled d;; wret (negb b)) l w = Some (r, w') -> w' = w.
Proof using Type.
  revert w r. induction l as [|d l IH]; intros w r; [by intros [= _ <-]|]. cbn [wfilter].
  intros (b & w1 & (b' & w2 & (c & w3 & [-> _]%clusters_of_read & [= _ <-])%wbnd_Some & [= _ <-])%wbnd_Some & H)%wbnd_Some.
  apply wbnd_Some in H as (l' & w4 & H & [= _ <-]). by apply IH in H.
Qed.

Lemma difference_keeps ev obj (w w' : world (dep_state X)) r :
  getDestinationsToBeProcessed ev obj w = Some (r, w') -> w' = w.
Proof using Type.
  unfold getDestinationsToBeProcessed. intros (ex & w1 & [= _ <-] & H)%wbnd_Some.
  apply wbnd_Some in H as (n & w2 & ->%non_mesh_read & [= _ <-]). by destruct w.
Qed.

(** The clusters of the source of a record, when it is handled in [w]: the identity cluster
    cache is read after the source was noted with its destinations. *)
Definition source_clusters (obj : DependencyObj) (w : world (dep_state X)) (sc : nat) : Prop :=
  exists w1, updateIdentityDependencyCache (DpSource obj) obj w = Some (tt, w1) /\
    child 2 (w_heap w1) (IdentityClusterCache (pointers (w_caches w1))) (DpSource obj) = Some sc.

(** C24: A dependency record has nothing processed but its own destinations - for an update
    those that are not stored for the source yet - and of these none that has the record's
    own name; each in a known cluster, for an environment of a workload that it has of the
    destination: a deployment, or a rollout if it has no deployment of it; in the context of
    the record, limited to the clusters that the identity cluster cache has for the source:
    how anything else would be processed makes no difference. *)
Theorem dependency_processing_sound ctx ev obj (w : world (dep_state X)) :
  (forall cluster typ env identity sc w',
     to_process obj ev (sourceDestinations (w_api w)) identity ->
     equal_fold (Name (DpMeta obj)) identity = false ->
     deployed_there cluster typ env identity ->
     source_clusters obj w sc ->
     let ctx' := ctx <| px_event := px_event ctx <| ctxClusterName := Some cluster |> <| ctxEventResourceType := Some typ |> |>
                     <| DependentClusterOverride := Some (Some sc) |> in
     modifySE ctx' ev env identity w' = modifySE' ctx' ev env identity w') ->
  DependencyHandler_event p rr modifySE startTime now ProcessDependency ev ctx obj w =
  DependencyHandler_event p rr modifySE' startTime now ProcessDependency ev ctx obj w.
Proof.
  intros Ha. assert (forall ev', ev' = ev ->
    HandleDependencyRecord p rr modifySE startTime now ProcessDependency ctx obj ev' w =
    HandleDependencyRecord p rr modifySE' startTime now ProcessDependency ctx obj ev' w) as Hh;
    [intros ? ->|destruct ev; [by apply Hh..|done]].
  unfold HandleDependencyRecord. destruct (is_empty (DpSource obj)); [done|].
  apply wbnd_ext; [done|]. intros [] w1 Hw1. pose proof (dependency_cache_keeps _ _ _ _ _ Hw1) as Hapi. rewrite Hapi in Ha.
  apply wbnd_ext; [|done]. unfold ProcessDestinationService_Process.
  destruct (IsCacheWarmupTimeForDependency p startTime now); [done|].
  destruct (negb (IsDependencyProcessingEnabled p)); [done|].
  apply wbnd_ext; [done|]. intros [ds nonMesh] w2 Hds. pose proof (difference_keeps _ _ _ _ _ Hds) as ->.
  apply wbnd_ext; [done|]. intros [sc|] w3 Hsc; [|done]. apply clusters_of_read in Hsc as [-> Hsc].
  apply (destinations_agree ctx ev nonMesh (Some sc) _ (to_process obj ev (sourceDestinations (w_api w1)))).
  - intros cluster typ env identity w' Hw Hs Hd. apply (Ha cluster typ env identity sc); [done..|]. by exists w1.
  - by apply (difference_elem _ _ _ _ _ _ Hds).
Qed.
End Incremental.

(** *** A record with a destination that is stored and one that is new *)

Definition mesh_params : AdmiralParams :=
  Params.zero_AdmiralParams <| Params.EnableDependencyProcessing := true |> <| Params.CacheReconcileDuration := 100 |>
    <| Params.DependencyWarmupMultiplier := 2 |>.
Definition mesh_deployments : deploymentCache :=
  let one id := mkDeploymentClusterEntry id {[ "dev" := mkDeploymentItem (Some (shop_deployment id "v1")) "" ]} in
  {[ "foo" := one "foo"; "bar" := one "bar"; "baz" := one "baz" ]}.
Definition mesh_registry : RemoteRegistry :=
  mkRegistry {[ "c1" := mkRC "c1" None None ]} {[ "c1" := mesh_deployments ]} ∅ ∅ ∅ ∅ ∅ None.
Definition mesh_world (stored : gmap string (list string)) : world (dep_state (list string)) :=
  mkWorld (mkDepState [] stored)
    (mkHeap {[ 1%nat := {[ "c1" := "c1" ]} ]}
       {[ (2%nat, 0%nat) := {[ "foo" := Some 1%nat; "bar" := Some 1%nat; "baz" := Some 1%nat ]}; (2%nat, 2%nat) := ∅;
          (3%nat, 3%nat) := ∅ ]} 4 ∅)
    (mkAdmiralCaches (mkCachePointers None None (Some 0%nat) None None) None None (Some 3%nat) (Some 2%nat)) empty_store ∅.
Definition record_identity (ctx : proc_ctx) (ev : EventType) (env identity : string) : W (dep_state (list string)) error :=
  on_api (fun s => (s <| dp_rest := dp_rest s ++ [identity] |>, None)).
Definition only_baz (ctx : proc_ctx) (ev : EventType) (env identity : string) : W (dep_state (list string)) error :=
  if identity =?s "baz" then record_identity ctx ev env identity else wpanic.
Definition no_ctx : proc_ctx := mkProcCtx (mkCtx None None None (Some "tx")) None None None None.
Definition mesh_event (modifySE : proc_ctx -> EventType -> string -> string -> W (dep_state (list string)) error)
    (now : Z) (ev : EventType) (obj : DependencyObj) : W (dep_state (list string)) error :=
  DependencyHandler_event mesh_params mesh_registry modifySE 0 now (fun _ _ _ => wret None) ev no_ctx obj.
Definition foo_depends (name : string) (on : list string) : DependencyObj :=
  mkDependency (mkMeta name "admiral" None None 0 "1") "foo" on.
Definition identities {A} (r : option (A * world (dep_state (list string)))) : list string :=
  match r with Some (_, w) => dp_rest (w_api w) | None => [] end.
Definition stored {A} (r : option (A * world (dep_state (list string)))) : gmap string (list string) :=
  match r with Some (_, w) => sourceDestinations (w_api w) | None => ∅ end.

Lemma dependency_processing_sound_witness :
  let w := mesh_world {[ "foo" := ["bar"] ]} in
  let obj := foo_depends "foo" ["bar"; "baz"] in
  identities (mesh_event record_identity 1000 Update obj w) = ["baz"] /\
  mesh_event record_identity 1000 Update obj w = mesh_event only_baz 1000 Update obj w.
Proof.
  intros w obj. split; [vm_compute; reflexivity|].
  apply dependency_processing_sound. intros cluster typ env identity sc w' [Hd Hn] _ _ _.
  specialize (Hn eq_refl). unfold only_baz.
  assert (identity = "bar" \/ identity = "baz") as [-> | ->]; [|exfalso; apply Hn|done].
  - simpl in Hd. rewrite !elem_of_cons, elem_of_nil in Hd. tauto.
  - apply (bool_decide_eq_true_1 _). vm_compute. reflexivity.
Defined.

Lemma mesh_world_ready stored : caches_ready (mesh_world stored) 0 3.
Proof.
  split; [apply wfb_sound; vm_compute; reflexivity|reflexivity|reflexivity| |reflexivity|];
    unfold allocated; simpl; by eexists.
Qed.

Lemma client_destinations_spec_witness :
  let w := mesh_world {[ "foo" := ["baz"; "qux"; "bar"; "baz"] ]} in
  exists l, getDestinationsToBeProcessedForClientInitiatedProcessing "foo" "c1" "ns" false w = Some (l, w) /\
    l = ["bar"; "baz"].
Proof.
  intros w. destruct (client_destinations_spec w 0 3 "foo" "c1" "ns" false) as (l & Hl & _).
  - apply mesh_world_ready.
  - exists l. split; [exact Hl|].
    assert (bool_decide (option_map fst (getDestinationsToBeProcessedForClientInitiatedProcessing "foo" "c1" "ns" false w)
              = Some ["bar"; "baz"]) = true) as Hb by (vm_compute; reflexivity).
    apply bool_decide_eq_true_1 in Hb. rewrite Hl in Hb. by injection Hb.
Defined.

(** A record that comes during the warm-up is stored without being processed, and an
    update after it processes nothing of it. *)
Lemma warm_up_forgets_destinations :
  let obj := foo_depends "foo" ["bar"; "baz"] in
  let first := mesh_event record_identity 100 Add obj (mesh_world ∅) in
  identities first = [] /\ stored first !! "foo" = Some ["bar"; "baz"] /\
  identities (mesh_event record_identity 1000 Update obj (mesh_world (stored first))) = [].
Proof. split_and!; vm_compute; reflexivity. Qed.

(** The source is recognised as a destination of its own by the record's name. *)
Lemma own_destination_by_name :
  identities (mesh_event record_identity 1000 Add (foo_depends "foo" ["foo"]) (mesh_world ∅)) = [] /\
  identities (mesh_event record_identity 1000 Add (foo_depends "foo-dependency" ["foo"]) (mesh_world ∅)) = ["foo"].
Proof. split; vm_compute; reflexivity. Qed.

(** An update that removes all destinations leaves those that were stored. *)
Lemma removed_destinations_stay :
  stored (mesh_event record_identity 1000 Update (foo_depends "foo" []) (mesh_world {[ "foo" := ["bar"] ]})) !! "foo"
    = Some ["bar"].
Proof. vm_compute. reflexivity. Qed.
