(* ===== verification/TrafficConfig.v ===== *)
(** * Traffic configurations

    [clusters/trafficconfig_handler.go]: the slow start of an asset's workload
    environments is cached for the destination rules, which are then written again.  The
    processing of an identity ([ModifyServiceEntry.v]) is a parameter. *)
From Stdlib Require Import SpecFloat.
From S2P Require Import Prelude GoStrings GoStd Config Objects Metadata Policies AddressStore.
From S2P Require Import Caches Dependents World StateCheck GatherServiceEntries ClusterWriter.
From stdpp Require Import options.
Local Open Scope Z_scope.
Local Open Scope world_scope.

(** [int64(duration.Seconds())]: the seconds as a double, truncated towards zero; a
    duration is a number of nanoseconds of 64 bits. *)
Definition float64_add := SFadd 53 1024.
Definition duration_seconds (d : Z) : spec_float :=
  float64_add (float64_of_Z (Z.quot d 1000000000)) (float64_div (float64_of_Z (Z.rem d 1000000000)) (float64_of_Z 1000000000)).
Definition int64_of_float (x : spec_float) : Z :=
  match x with
  | S754_finite s m e =>
      let v := if 0 <=? e then Zpos m * 2 ^ e else Zpos m / 2 ^ (- e) in if s then - v else v
  | _ => 0
  end.

Section Handler.
Context {range : GoRange} {X : Type} (p : AdmiralParams) (startTime now : Z).
(** [AdmiralCache.SlowStartConfigCache], the text of a duration's error, and
    [modifyServiceEntryForNewServiceOrPod]. *)
Context (slowStartConfigCache : ptr) (duration_error : string -> string).
Context (modifySE : proc_ctx -> EventType -> string -> string -> W X error).

Definition getTrafficConfigLabel (labels : gomap) (key : string) : string := mget labels key.
Definition asset_alias (obj : TrafficConfigObj) : string := getTrafficConfigLabel (Labels (TcMeta obj)) "asset".
Definition asset_env (obj : TrafficConfigObj) : string := getTrafficConfigLabel (Labels (TcMeta obj)) "env".

(** [SlowStartConfigCache.Get(assetAlias).Get(assetEnv)]. *)
Definition cached_slow_start (assetAlias assetEnv : string) : W X ptr :=
  on_heap (mbnd (MapOfMapOfMaps_Get slowStartConfigCache assetAlias) (fun envs => MapOfMaps_Get envs assetEnv)).

(** An environment of a slow start. *)
Definition put_slow_start (obj : TrafficConfigObj) (eventType : EventType) (seconds : Z) (workloadEnv : string) : W X unit :=
  match eventType with
  | Delete => c <- cached_slow_start (asset_alias obj) (asset_env obj);; on_heap (Map_Put c workloadEnv "")
  | _ =>
      on_heap (MapOfMapOfMaps_Put slowStartConfigCache (asset_alias obj) (asset_env obj) workloadEnv
                 (if mget (Annotations (TcMeta obj)) "isSlowStartDisabled" =?s "true" then "" else itoa seconds))
  end.

(** The slow starts in turn; the first duration that is none ends the loop. *)
Fixpoint put_slow_starts (obj : TrafficConfigObj) (eventType : EventType) (configs : list SlowStartConfig)
    : W X error :=
  match configs with
  | [] => wret None
  | c :: rest =>
      match ParseDuration (Duration c) with
      | None => wret (Some (duration_error (Duration c)))
      | Some d =>
          witer (put_slow_start obj eventType (int64_of_float (duration_seconds d))) (WorkloadEnvSelectors c) ;;;
          put_slow_starts obj eventType rest
      end
  end.

(** The environments that the configuration no longer names; they are blanked under the
    environment's label, not the asset's. *)
Definition blank_missing (obj : TrafficConfigObj) (selected : list string) (cached : ptr) : W X unit :=
  on_heap (Map_Range cached (fun cachedEnv _ =>
    if str_in cachedEnv selected then mret tt
    else MapOfMapOfMaps_Put slowStartConfigCache (asset_env obj) (asset_env obj) cachedEnv "")).

Definition populateCaches (obj : TrafficConfigObj) (eventType : EventType) : W X (ptr * error) :=
  match TcEdgeService obj with
  | None => wpanic
  | Some None => wret (None, None)
  | Some (Some slowStartConfigs) =>
      err <- put_slow_starts obj eventType slowStartConfigs;;
      match err with
      | Some _ => wret (None, err)
      | None =>
          cached <- cached_slow_start (asset_alias obj) (asset_env obj);;
          (if is_nil cached then wret tt
           else blank_missing obj (flat_map WorkloadEnvSelectors slowStartConfigs) cached) ;;;
          wret (cached, None)
      end
  end.

(** A cached environment: its identity is processed for the first of its clusters; a blank
    slow start is forgotten once that has succeeded. *)
Definition handle_workload_env (ctx : proc_ctx) (obj : TrafficConfigObj) (eventType : EventType)
    (cachedWorkloadEnv : string) : W X unit :=
  c <- get_caches;;
  sourceClusters <- on_heap (mbnd (MapOfMaps_Get (IdentityClusterCache (pointers c)) (asset_alias obj)) Map_GetValues);;
  match sourceClusters with
  | [] => wret tt
  | sourceCluster :: _ =>
      let ctx := ctx <| px_event := px_event ctx <| ctxClusterName := Some sourceCluster |> |>
                     <| TrafficConfigContextWorkloadEnvKey := Some cachedWorkloadEnv |> in
      err <- modifySE ctx eventType cachedWorkloadEnv (asset_alias obj);;
      match err with
      | Some _ => wret tt
      | None =>
          cached <- cached_slow_start (asset_alias obj) (asset_env obj);;
          value <- on_heap (Map_Get cached cachedWorkloadEnv);;
          if is_empty value then
            cached <- cached_slow_start (asset_alias obj) (asset_env obj);;
            on_heap (Map_Delete cached cachedWorkloadEnv)
          else wret tt
      end
  end.

(** A nil map of slow starts panics. *)
Definition HandleTrafficConfigRecord (ctx : proc_ctx) (obj : TrafficConfigObj) (eventType : EventType)
    (slowStartConfigs : ptr) : W X error :=
  let ctx := ctx <| px_event := px_event ctx <| ctxEventResourceType := Some "TrafficConfig" |> |> in
  if IsCacheWarmupTime p startTime now then wret None
  else if negb (IsTrafficConfigProcessingEnabledForSlowStart p) then wret None
  else
    keys <- on_heap (Map_GetKeys slowStartConfigs);;
    witer (handle_workload_env ctx obj eventType) keys ;;; wret None.

(** [TrafficConfigHandler]: a deletion is handled as an update. *)
Definition TrafficConfigHandler_event (event : EventType) (ctx : proc_ctx) (obj : TrafficConfigObj) : W X error :=
  '(slowStartConfigs, err) <- populateCaches obj event;;
  match err with
  | Some _ => wret err
  | None => HandleTrafficConfigRecord ctx obj (match event with Delete => Update | _ => event end) slowStartConfigs
  end.
End Handler.

(** ** Configurations of an asset *)

(** The asset [foo] with environment [prod] runs in a cluster; the slow start cache has the
    map at [(3, 3)]. *)
Definition slow_params : AdmiralParams :=
  Params.zero_AdmiralParams <| Params.EnableTrafficConfigProcessingForSlowStart := true |>.
Definition slow_config (asset env : string) (configs : option (list SlowStartConfig)) : TrafficConfigObj :=
  mkTrafficConfig (mkMeta "foo-tc" "admiral" (Some {[ "asset" := asset; "env" := env ]}) None 0 "1") (Some configs).
Definition slow_world : world (list (string * string)) :=
  mkWorld []
    (mkHeap {[ 1%nat := {[ "c1" := "c1" ]} ]}
       {[ (2%nat, 0%nat) := {[ "foo" := Some 1%nat ]}; (3%nat, 3%nat) := ∅ ]} 4 ∅)
    (mkAdmiralCaches (mkCachePointers None None (Some 0%nat) None None) None None None None) empty_store ∅.
Definition record_env (ctx : proc_ctx) (ev : EventType) (env identity : string) : W (list (string * string)) error :=
  on_api (fun log => (log ++ [(identity, env)], None)).
Definition slow_event (ev : EventType) (obj : TrafficConfigObj) : W (list (string * string)) error :=
  TrafficConfigHandler_event slow_params 0 1000 (Some 3%nat) (fun d => "time: invalid duration " +:+ d) record_env ev
    (mkProcCtx (mkCtx None None None None) None None None None) obj.
(** The slow start of an environment, and what was processed. *)
Definition slow_start {A} (asset env workloadEnv : string) (r : option (A * world (list (string * string)))) : option string :=
  match r with
  | Some (_, w) => entry (w_heap w) (resolve 3 (w_heap w) (Some 3%nat) [asset; env]) workloadEnv
  | None => None
  end.
Definition processed_envs {A} (r : option (A * world (list (string * string)))) : option (list (string * string)) :=
  match r with Some (_, w) => Some (w_api w) | None => None end.

Lemma slow_start_example :
  let r := slow_event Add (slow_config "foo" "prod" (Some [mkSlowStartConfig ["prod"] "1m30.9s"; mkSlowStartConfig ["e2e"] "60s"])) slow_world in
  slow_start "foo" "prod" "prod" r = Some "90" /\ slow_start "foo" "prod" "e2e" r = Some "60" /\
  processed_envs r = Some [("foo", "e2e"); ("foo", "prod")].
Proof. split_and!; vm_compute; reflexivity. Qed.

(** An environment that an update drops keeps its slow start: it is blanked under the
    environment's name instead of the asset's. *)
Lemma dropped_slow_start_stays :
  let both := Some [mkSlowStartConfig ["prod"; "e2e"] "60s"] in
  let r := (_ <- slow_event Add (slow_config "foo" "prod" both);;
            slow_event Update (slow_config "foo" "prod" (Some [mkSlowStartConfig ["prod"] "60s"]))) slow_world in
  slow_start "foo" "prod" "e2e" r = Some "60" /\ slow_start "prod" "prod" "e2e" r = Some "".
Proof. split; vm_compute; reflexivity. Qed.

(** The map that is ranged over is the one that is written when the asset is named like its
    environment: the handler waits for its own lock. *)
Lemma asset_named_like_its_environment :
  (_ <- slow_event Add (slow_config "prod" "prod" (Some [mkSlowStartConfig ["a"] "60s"]));;
   slow_event Update (slow_config "prod" "prod" (Some [mkSlowStartConfig ["b"] "60s"])))
    (slow_world <| w_heap := w_heap slow_world <| h_tabs :=
       <[(2%nat, 0%nat) := {[ "prod" := Some 1%nat ]}]> (h_tabs (w_heap slow_world)) |> |>) = None.
Proof. vm_compute. reflexivity. Qed.

(** A configuration without a slow start panics, and so does one whose asset has no
    cluster. *)
Lemma no_slow_start_panics :
  slow_event Add (slow_config "foo" "prod" None) slow_world = None /\
  slow_event Add (slow_config "bar" "prod" (Some [mkSlowStartConfig ["prod"] "60s"])) slow_world = None.
Proof. split; vm_compute; reflexivity. Qed.
