(* ===== verification/IdentityConfigs.v ===== *)
(** * Service entries from the registry

    [clusters/configwriter.go]: in operator mode the service entries of an identity for a
    client cluster are built from the identity's configuration in the registry
    ([registry/config.go]) instead of the workloads.  What the registry returns is a
    parameter. *)
From S2P Require Import Prelude GoStrings Config Objects Metadata ServiceEntries RegistryConfig.
From stdpp Require Import options.
Local Open Scope Z_scope.

Definition canaryPrefix := "canary".
Definition previewPrefix := "preview".

(** The text of the error of [strconv.ParseInt]. *)
Definition quoted (s : string) : string :=
  String (Ascii.ascii_of_nat 34) s +:+ String (Ascii.ascii_of_nat 34) "".
Definition parse_int_error (s : string) (e : num_error) : string :=
  "strconv.ParseInt: parsing " +:+ quoted s +:+ ": " +:+
  match e with ErrSyntax => "invalid syntax" | ErrRange => "value out of range" end.

(** [WorkloadEntrySorted.Less]. *)
Definition workload_entry_less (a b : WorkloadEntry) : bool := str_ltb (weAddress a) (weAddress b).

Abbreviation entries_by_env := (gmap string (gmap string ServiceEntry)).

Section Build.
Context {range : GoRange} {sorting : GoSort} (p : AdmiralParams).
(** [GetIdentityConfigByIdentityName]. *)
Context (registry_config : string -> IdentityConfig * error).

Definition getMeshHosts (identity : string) (env : IdentityConfigEnvironment) : list string :=
  let host prefix := GetCnameVal [prefix; to_lower identity; GetHostnameSuffix p] in
  host (ieName env) ::
  match ieTypes env !! RolloutType with
  | Some strategy =>
      (if strategy =?s bluegreenStrategy then [host previewPrefix] else []) ++
      (if strategy =?s canaryStrategy then [host canaryPrefix] else [])
  | None => []
  end.

Definition tls_label : gomap := Some {[ "security.istio.io/tlsMode" := "istio" ]}.

Fixpoint ingress_loop (clusters : list (string * IdentityConfigCluster)) (m : gmap string WorkloadEntry)
    : gmap string WorkloadEntry * error :=
  match clusters with
  | [] => (m, None)
  | (_, cluster) :: rest =>
      match atoi (icIngressPort cluster) with
      | (_, Some e) => (m, Some (parse_int_error (icIngressPort cluster) e))
      | (portNumber, None) =>
          ingress_loop rest (<[icName cluster :=
            mkWorkloadEntry (icIngressEndpoint cluster) {[ icIngressPortName cluster := uint32 portNumber ]}
              tls_label (icLocality cluster) 0]> m)
      end
  end.
Definition getIngressEndpoints (clusters : gmap string IdentityConfigCluster) : gmap string WorkloadEntry * error :=
  ingress_loop (go_range 0 clusters) ∅.

(** The local endpoint of a service. *)
Definition service_endpoint (ep : WorkloadEntry) (env : IdentityConfigEnvironment) (s : RegistryServiceConfig) : WorkloadEntry :=
  ep <| weAddress := rsName s +:+ Sep +:+ ieNamespace env +:+ GetLocalDomainSuffix p |> <| wePorts := rsPorts s |>.
Definition registry_endpoint (ep : WorkloadEntry) (env : IdentityConfigEnvironment) (s : RegistryServiceConfig) : WorkloadEntry :=
  if 0 <? rsWeight s then service_endpoint ep env s <| weWeight := uint32 (rsWeight s) |>
  else service_endpoint ep env s.

(** The endpoints in the client cluster; a list of test services that is empty but not nil
    panics. *)
Definition local_endpoints (ep : WorkloadEntry) (host : string) (env : IdentityConfigEnvironment)
    : option (list WorkloadEntry) :=
  if has_prefix host canaryPrefix || has_prefix host previewPrefix then
    match ieServices env !! testServiceKey with
    | None => Some []
    | Some [] => None
    | Some (s :: _) => Some [service_endpoint ep env s]
    end
  else Some (map (registry_endpoint ep env) (default [] (ieServices env !! defaultServiceKey)) ++
             map (registry_endpoint ep env)
               (List.filter (fun s => 0 <? rsWeight s) (default [] (ieServices env !! testServiceKey)))).

(** The endpoints of the cluster are there, as in the only caller; [None] is a panic. *)
Definition getServiceEntryEndpoints (clientCluster serverCluster host : string) (ingressEndpoints : gmap string WorkloadEntry)
    (env : IdentityConfigEnvironment) : option (list WorkloadEntry * error) :=
  if is_nil (ieServiceMap env)
  then Some ([], Some ("services are nil for identityConfigEnvironment " +:+ ieName env))
  else
  endpoint ← ingressEndpoints !! serverCluster;
  let ep := endpoint <| weLabels := Some (<["security.istio.io/tlsMode" := "istio"]> (default ∅ (weLabels endpoint))) |> in
  endpoints ← if clientCluster =?s serverCluster then local_endpoints ep host env else Some [ep];
  Some (sort_slice workload_entry_less endpoints, None).

(** *** The namespaces of the clients *)

Definition client_namespaces (clientCluster : string) (config : IdentityConfig) : list string :=
  flat_map (fun kc => if clientCluster =?s icName kc.2
                      then map (fun ke => ieNamespace ke.2) (go_range 1 (icEnvironment kc.2)) else [])
    (go_range 0 (icClusters config)).

Fixpoint export_loop (clientCluster : string) (assets : list (string * string)) (acc : list string)
    : list string * error :=
  match assets with
  | [] => (acc, None)
  | (clientAsset, _) :: rest =>
      match registry_config clientAsset with
      | (_, Some err) => (acc, Some err)
      | (config, None) => export_loop clientCluster rest (acc ++ client_namespaces clientCluster config)
      end
  end.

(** The list without duplicates is computed, but the one with them returned. *)
Definition getExportTo (clientCluster : string) (isServerOnClientCluster : bool) (clientAssets : gmap string string)
    : list string * error :=
  match export_loop clientCluster (go_range 2 clientAssets) [] with
  | (ns, Some err) => (ns, Some err)
  | (ns, None) =>
      let ns := if isServerOnClientCluster then ns ++ [NamespaceIstioSystem] else ns in
      let ns := if GetExportToMaxNamespaces p <? Z.of_nat (length ns) then ["*"] else ns in
      (sort_strings ns, None)
  end.

(** *** The entries *)

(** A loop that a step may end: [inr None] is a panic, [inr (Some err)] a return. *)
Fixpoint until {A S : Type} (f : A -> S -> S + option error) (l : list A) (s : S) : S + option error :=
  match l with
  | [] => inl s
  | a :: l' => match f a s with inl s' => until f l' s' | inr e => inr e end
  end.

Section Config.
Context (clientCluster identity : string) (ingressEndpoints : gmap string WorkloadEntry) (dependentNamespaces : list string).

Definition new_entry (host : string) (env : IdentityConfigEnvironment) (endpoints : list WorkloadEntry) : ServiceEntry :=
  mkServiceEntry [host] [] (iePorts env) MESH_INTERNAL DNS endpoints dependentNamespaces
    [SpiffePrefix +:+ GetSANPrefix p +:+ Slash +:+ identity].

Definition sort_endpoints (se : ServiceEntry) : ServiceEntry :=
  se <| seEndpoints := sort_slice workload_entry_less (seEndpoints se) |>.

(** The environment's map is replaced by one with only this host. *)
Definition build_host (serverCluster : string) (env : IdentityConfigEnvironment) (host : string) (seMap : entries_by_env)
    : entries_by_env + option error :=
  match getServiceEntryEndpoints clientCluster serverCluster host ingressEndpoints env with
  | None => inr None
  | Some ([], err) => inr (Some err)
  | Some (_, Some err) => inr (Some (Some err))
  | Some (endpoints, None) =>
      let tmpSe := match seMap !! ieName env ≫= (fun m => m !! host) with
                   | None => new_entry host env endpoints
                   | Some se => se <| seEndpoints := seEndpoints se ++ endpoints |>
                   end in
      inl (<[ieName env := {[ host := sort_endpoints tmpSe ]}]> seMap)
  end.

Definition build_environment (serverCluster : string) (env : IdentityConfigEnvironment) (seMap : entries_by_env)
    : entries_by_env + option error :=
  if Nat.eqb (size (ieServices env)) 0 then
    inr (Some (Some ("there were no services for the asset in namespace " +:+ ieNamespace env +:+ " on cluster " +:+
      serverCluster)))
  else until (build_host serverCluster env) (getMeshHosts identity env) seMap.

Definition build_cluster (kc : string * IdentityConfigCluster) (seMap : entries_by_env) : entries_by_env + option error :=
  until (fun ke => build_environment (icName kc.2) ke.2) (go_range 1 (icEnvironment kc.2)) seMap.
End Config.

(** [None] is a panic. *)
Definition BuildServiceEntriesFromIdentityConfig (clientCluster : string) (config : IdentityConfig)
    : option (list ServiceEntry * error) :=
  let identity := IdentityName config in
  match getIngressEndpoints (icClusters config) with
  | (_, Some err) => Some ([], Some err)
  | (ingressEndpoints, None) =>
      if Nat.eqb (size ingressEndpoints) 0 then Some ([], None)
      else
        let isServerOnClientCluster := negb (is_nil (ingressEndpoints !! clientCluster)) in
        match getExportTo clientCluster isServerOnClientCluster (ClientAssets config) with
        | (_, Some err) => Some ([], Some err)
        | (dependentNamespaces, None) =>
            match until (build_cluster clientCluster identity ingressEndpoints dependentNamespaces)
                    (go_range 0 (icClusters config)) ∅ with
            | inr None => None
            | inr (Some err) => Some ([], err)
            | inl seMap => Some (flat_map (fun em => (go_range 3 em.2).*2) (go_range 2 seMap), None)
            end
        end
  end.
End Build.

(** ** Lemmas *)

Lemma until_inv {A S} (P : list A -> S -> Prop) (f : A -> S -> S + option error) l s :
  (forall l1 a l2 s, l = l1 ++ a :: l2 -> P l1 s -> exists s', f a s = inl s' /\ P (l1 ++ [a]) s') ->
  P [] s -> exists s', until f l s = inl s' /\ P l s'.
Proof.
  intros Hf H0.
  assert (forall l2 l1 s, l = l1 ++ l2 -> P l1 s -> exists s', until f l2 s = inl s' /\ P l s') as Hall.
  { induction l2 as [|a l2 IH]; intros l1 s0 Hl HP; [exists s0; by rewrite app_nil_r in Hl; subst|].
    destruct (Hf l1 a l2 s0 Hl HP) as (s1 & Hs & HP'). simpl. rewrite Hs. apply (IH (l1 ++ [a])); [|done].
    by rewrite <- app_assoc. }
  by apply (Hall l []).
Qed.

Section Entries.
Context {range : GoRange} {sorting : GoSort} (p : AdmiralParams).
Context (clientCluster : string) (config : IdentityConfig) (ingress : gmap string WorkloadEntry) (exportTo : list string).
Notation identity := (IdentityName config).

(** The host of an environment. *)
Definition env_host (e : string) : string := GetCnameVal [e; to_lower identity; GetHostnameSuffix p].

Definition ingress_of (cluster : IdentityConfigCluster) : WorkloadEntry :=
  mkWorkloadEntry (icIngressEndpoint cluster) {[ icIngressPortName cluster := uint32 (atoi (icIngressPort cluster)).1 ]}
    tls_label (icLocality cluster) 0.

(** The endpoints that an environment of a cluster contributes: its services at home, with
    the test services that have a weight, and the cluster's ingress elsewhere. *)
Definition contributed (ce : IdentityConfigCluster * IdentityConfigEnvironment) : list WorkloadEntry :=
  let '(cluster, env) := ce in
  if clientCluster =?s icName cluster then
    map (registry_endpoint p (ingress_of cluster) env) (default [] (ieServices env !! defaultServiceKey)) ++
    map (registry_endpoint p (ingress_of cluster) env)
      (List.filter (fun s => 0 <? rsWeight s) (default [] (ieServices env !! testServiceKey)))
  else [ingress_of cluster].

(** A cluster under its name with a port that is a number; an environment under its name
    with a service, of a deployment or a rollout without test endpoint. *)
Definition plain_environment (e : string) (env : IdentityConfigEnvironment) : Prop :=
  ieName env = e /\ default [] (ieServices env !! defaultServiceKey) <> [] /\
  ieTypes env !! RolloutType <> Some bluegreenStrategy /\ ieTypes env !! RolloutType <> Some canaryStrategy /\
  has_prefix (env_host e) canaryPrefix = false /\ has_prefix (env_host e) previewPrefix = false.
Definition plain_cluster (k : string) (cluster : IdentityConfigCluster) : Prop :=
  icName cluster = k /\ (atoi (icIngressPort cluster)).2 = None /\
  map_Forall plain_environment (icEnvironment cluster).

Lemma ingress_loop_spec l m :
  NoDup l.*1 -> (forall k c, (k, c) ∈ l -> plain_cluster k c) ->
  exists m', ingress_loop l m = (m', None) /\ (forall k c, (k, c) ∈ l -> m' !! k = Some (ingress_of c)) /\
    forall k, k ∉ l.*1 -> m' !! k = m !! k.
Proof using Type.
  revert m. induction l as [|[k c] l IH]; intros m Hn Hp; [by exists m; split_and!; [|intros ?? ?%elem_of_nil|]|].
  apply NoDup_cons in Hn as [Hk Hn]. destruct (Hp k c) as (Hname & Hport & _); [by left|]. simpl.
  destruct (atoi (icIngressPort c)) as [n e] eqn:Ea. simpl in Hport. subst e.
  destruct (IH (<[icName c := mkWorkloadEntry (icIngressEndpoint c) {[ icIngressPortName c := uint32 n ]} tls_label (icLocality c) 0]> m))
    as (m' & Hl & Hin & Hout); [done|intros; apply Hp; by right|].
  exists m'. split; [done|]. subst k. split.
  - intros k' c' [[= -> ->]|Hin']%elem_of_cons; [|by apply Hin].
    rewrite Hout, lookup_insert_eq by done. unfold ingress_of. by rewrite Ea.
  - intros k' Hk'. apply not_elem_of_cons in Hk' as [Hne Hk']. rewrite Hout by done. by rewrite lookup_insert_ne.
Qed.

(** The pairs of an environment. *)
Definition pairs_of (e : string) (l : list (IdentityConfigCluster * IdentityConfigEnvironment)) :=
  List.filter (fun ce => ieName ce.2 =?s e) l.

Definition entry_for (e : string) (ces : list (IdentityConfigCluster * IdentityConfigEnvironment)) (se : ServiceEntry) : Prop :=
  seHosts se = [env_host e] /\ seEndpoints se ≡ₚ flat_map contributed ces /\
  sorted_by workload_entry_less (seEndpoints se) /\ seExportTo se = exportTo.

Definition built (l : list (IdentityConfigCluster * IdentityConfigEnvironment)) (m : entries_by_env) : Prop :=
  forall e, match m !! e with
            | None => pairs_of e l = []
            | Some em => pairs_of e l <> [] /\ exists se, em = {[ env_host e := se ]} /\ entry_for e (pairs_of e l) se
            end.

Lemma less_weak l : strict_weak_on workload_entry_less l.
Proof using Type.
  apply (key_less_strict_weak weAddress).
Qed.

Lemma endpoints_of_pair cluster env e k :
  ingress !! k = Some (ingress_of cluster) -> plain_cluster k cluster -> plain_environment e env ->
  exists eps, getServiceEntryEndpoints p clientCluster k (env_host e) ingress env = Some (eps, None) /\
    eps <> [] /\ eps ≡ₚ contributed (cluster, env) /\ sorted_by workload_entry_less eps.
Proof using Type.
  intros Hi (Hname & _ & _) (_ & Hsv & _ & _ & Hp1 & Hp2). unfold getServiceEntryEndpoints, contributed.
  destruct (ieServiceMap env) eqn:Em; [|unfold ieServices in Hsv; by rewrite Em in Hsv]. rewrite Hi, Hname. simpl.
  assert ((ingress_of cluster) <| weLabels := Some (<["security.istio.io/tlsMode" := "istio"]> {[ "security.istio.io/tlsMode" := "istio" ]}) |>
    = ingress_of cluster) as Hl. { unfold ingress_of, tls_label. simpl. by rewrite insert_singleton_eq. }
  rewrite Hl. destruct (clientCluster =?s k).
  - unfold local_endpoints. rewrite Hp1, Hp2. simpl. eexists. split; [done|].
    split_and!; [|by rewrite sort_slice_perm|apply sort_slice_sorted, less_weak].
    intros Hn. apply (f_equal length) in Hn. rewrite sort_slice_perm, length_app, length_map in Hn.
    destruct (default [] (ieServices env !! defaultServiceKey)); [done|simpl in Hn; lia].
  - eexists. split; [done|]. split_and!; [|by rewrite sort_slice_perm|apply sort_slice_sorted, less_weak].
    intros Hn. apply (f_equal length) in Hn. by rewrite sort_slice_perm in Hn.
Qed.

Lemma plain_hosts e env : plain_environment e env -> getMeshHosts p identity env = [env_host e].
Proof using Type.
  intros (He & _ & Hb & Hc & _). unfold getMeshHosts. rewrite He. f_equal.
  destruct (ieTypes env !! RolloutType) as [st|]; [|done].
  destruct (st =?s bluegreenStrategy) eqn:E1; [sdec; by subst|]. by destruct (st =?s canaryStrategy) eqn:E2; [sdec; by subst|].
Qed.

Lemma pairs_of_snoc e l ce : pairs_of e (l ++ [ce]) = pairs_of e l ++ (if ieName ce.2 =?s e then [ce] else []).
Proof using Type. unfold pairs_of. rewrite List.filter_app. simpl. by destruct (_ =?s e). Qed.

(** An environment of a cluster is added to what is built. *)
Lemma build_environment_step l m cluster env e k :
  ingress !! k = Some (ingress_of cluster) -> plain_cluster k cluster -> plain_environment e env -> built l m ->
  exists m', build_environment p clientCluster identity ingress exportTo k env m = inl m' /\ built (l ++ [(cluster, env)]) m'.
Proof using Type.
  intros Hi Hc He Hb. pose proof He as (Hname & Hsv & _). unfold build_environment.
  assert (Nat.eqb (size (ieServices env)) 0 = false) as ->.
  { apply Nat.eqb_neq. intros Hz%map_size_empty_inv. by rewrite Hz, lookup_empty in Hsv. }
  rewrite (plain_hosts _ _ He). simpl. unfold build_host.
  destruct (endpoints_of_pair _ _ _ _ Hi Hc He) as (eps & -> & Hne & Hperm & _).
  destruct eps as [|ep eps]; [done|]. rewrite Hname. eexists. split; [done|].
  intros e'. rewrite pairs_of_snoc. cbn [snd]. rewrite Hname. destruct (decide (e = e')) as [<-|Hee].
  - rewrite lookup_insert_eq, seqb_refl. split; [by destruct (pairs_of e l)|].
    eexists. split; [done|]. specialize (Hb e). destruct (m !! e) as [em|]; simpl.
    + destruct Hb as (_ & se & -> & Hh & Hp & _ & Hx). rewrite lookup_singleton_eq.
      unfold entry_for, sort_endpoints. simpl. split_and!; [done| |apply sort_slice_sorted, less_weak|done].
      rewrite sort_slice_perm, flat_map_app, Hp. simpl. by rewrite app_nil_r, Hperm.
    + rewrite Hb. unfold entry_for, sort_endpoints, new_entry. simpl.
      split_and!; [done| |apply sort_slice_sorted, less_weak|done]. rewrite sort_slice_perm. by rewrite app_nil_r, Hperm.
  - rewrite lookup_insert_ne by done. rewrite (proj2 (seqb_neq e e')) by done. rewrite app_nil_r. apply Hb.
Qed.

(** The pairs that a list of clusters has. *)
Definition cluster_pairs (kc : string * IdentityConfigCluster) : list (IdentityConfigCluster * IdentityConfigEnvironment) :=
  map (fun ke => (kc.2, ke.2)) (go_range 1 (icEnvironment kc.2)).

Lemma build_cluster_step l m k cluster :
  ingress !! k = Some (ingress_of cluster) -> plain_cluster k cluster -> built l m ->
  exists m', build_cluster p clientCluster identity ingress exportTo (k, cluster) m = inl m' /\
    built (l ++ cluster_pairs (k, cluster)) m'.
Proof using Type.
  intros Hi Hc Hb. pose proof Hc as (Hname & _ & Henv). unfold build_cluster. cbn [snd]. rewrite Hname.
  apply (until_inv (fun done m => built (l ++ map (fun ke => (cluster, ke.2)) done) m)); [|by rewrite app_nil_r].
  intros l1 [e env] l2 m0 Hl HP. rewrite map_app, app_assoc. apply (build_environment_step _ _ _ _ e); [done..| |done].
  apply (Henv e). apply (go_range_elem 1). cbn [snd] in *. rewrite Hl. set_solver.
Qed.

Lemma build_clusters m :
  map_Forall plain_cluster (icClusters config) -> (forall k c, icClusters config !! k = Some c -> ingress !! k = Some (ingress_of c)) ->
  m = ∅ -> exists m', until (build_cluster p clientCluster identity ingress exportTo) (go_range 0 (icClusters config)) m = inl m' /\
    built (flat_map cluster_pairs (go_range 0 (icClusters config))) m'.
Proof using Type.
  intros Hp Hi ->. apply (until_inv (fun done m => built (flat_map cluster_pairs done) m)).
  - intros l1 [k c] l2 m0 Hl HP. assert (icClusters config !! k = Some c) as Hk.
    { apply (go_range_elem 0). rewrite Hl. set_solver. }
    rewrite flat_map_app. simpl. rewrite app_nil_r. apply build_cluster_step; [by apply Hi|by apply Hp|done].
  - intros e. by rewrite lookup_empty.
Qed.

(** What the clusters contribute to an environment. *)
Definition environment_endpoints (e : string) : list WorkloadEntry :=
  flat_map (fun kc => match icEnvironment kc.2 !! e with Some env => contributed (kc.2, env) | None => [] end)
    (map_to_list (icClusters config)).

Lemma keyed_filter e (m : gmap string IdentityConfigEnvironment) :
  map_Forall plain_environment m ->
  List.filter (fun ke : string * IdentityConfigEnvironment => ieName ke.2 =?s e) (go_range 1 m) =
    match m !! e with Some env => [(e, env)] | None => [] end.
Proof using Type.
  intros Hm. set (l := List.filter _ _).
  assert (NoDup l) as Hn. { apply NoDup_ListNoDup, List.NoDup_filter, NoDup_ListNoDup, NoDup_fmap_1 with fst, go_range_fst_NoDup. }
  assert (forall k env, (k, env) ∈ l <-> k = e /\ m !! e = Some env) as Hl.
  { intros k env. unfold l. rewrite list_elem_of_In, filter_In, <- list_elem_of_In, go_range_elem. simpl. rewrite seqb_eq. split.
    - intros [Hk <-]. pose proof (Hm _ _ Hk) as (Hname & _). by subst k.
    - intros [-> Hk]. split; [done|]. by pose proof (Hm _ _ Hk) as (Hname & _). }
  clearbody l. destruct (m !! e) as [env|].
  - symmetry. apply Permutation_singleton_l. symmetry. apply NoDup_Permutation; [done|apply NoDup_singleton|].
    intros [k env']. rewrite Hl, list_elem_of_singleton. naive_solver.
  - apply elem_of_nil_inv. intros [k env']. rewrite Hl. naive_solver.
Qed.

Lemma pairs_of_clusters e :
  map_Forall plain_cluster (icClusters config) ->
  flat_map contributed (pairs_of e (flat_map cluster_pairs (go_range 0 (icClusters config)))) ≡ₚ environment_endpoints e /\
  (pairs_of e (flat_map cluster_pairs (go_range 0 (icClusters config))) <> [] <->
   exists k c, icClusters config !! k = Some c /\ is_Some (icEnvironment c !! e)).
Proof using Type.
  intros Hp. unfold environment_endpoints. rewrite <- (go_range_perm _ 0).
  assert (forall k c, (k, c) ∈ go_range 0 (icClusters config) <-> icClusters config !! k = Some c) as Hl
    by (intros; apply go_range_elem).
  assert (forall k c, (k, c) ∈ go_range 0 (icClusters config) -> map_Forall plain_environment (icEnvironment c)) as Hq.
  { intros k c Hk. apply Hl in Hk. by apply (Hp k c) in Hk as (_ & _ & ?). }
  setoid_rewrite <- Hl. clear Hl. revert Hq. generalize (go_range 0 (icClusters config)) as l.
  induction l as [|[k c] l IH]; intros Hq.
  - split; [done|]. split; [done|]. by intros (k & c & ?%elem_of_nil & _).
  - destruct IH as [IH1 IH2]; [intros; apply (Hq k0); by right|]. simpl. unfold pairs_of, cluster_pairs in *.
    rewrite List.filter_app. cbn [snd].
    assert (List.filter (fun ce : IdentityConfigCluster * IdentityConfigEnvironment => ieName ce.2 =?s e)
              (map (fun ke => (c, ke.2)) (go_range 1 (icEnvironment c)))
            = map (fun ke => (c, ke.2)) (match icEnvironment c !! e with Some env => [(e, env)] | None => [] end)) as ->.
    { rewrite <- (keyed_filter e); [|apply (Hq k); by left].
      generalize (go_range 1 (icEnvironment c)) as l'. induction l' as [|[e' env'] l' IHl]; [done|]. simpl.
      destruct (_ =?s e); simpl; by rewrite IHl. }
    rewrite flat_map_app. split; [rewrite IH1; by destruct (icEnvironment c !! e); simpl; rewrite ?app_nil_r|].
    destruct (icEnvironment c !! e) as [env|] eqn:E; simpl.
    + split; [intros _|done]. exists k, c. split; [by left|by rewrite E; eexists].
    + rewrite IH2. split; [intros (k' & c' & Hk & He); exists k', c'; split; [by right|done]|].
      intros (k' & c' & [[= -> ->]|Hk]%elem_of_cons & He); [by rewrite E in He; destruct He|by exists k', c'].
Qed.

Lemma env_host_inj e1 e2 : env_host e1 = env_host e2 -> e1 = e2.
Proof using Type. unfold env_host, GetCnameVal. simpl. apply sapp_inj_r. Qed.
End Entries.

Lemma go_range_singleton `{!GoRange} {A} i k (a : A) : go_range i {[ k := a ]} = [(k, a)].
Proof.
  symmetry. apply Permutation_singleton_l. by rewrite go_range_perm, map_to_list_singleton.
Qed.

Section Config.
Context {range : GoRange} {sorting : GoSort} (p : AdmiralParams) (registry_config : string -> IdentityConfig * error).

Lemma export_loop_ok c assets acc :
  (forall a v, (a, v) ∈ assets -> (registry_config a).2 = None) ->
  exists ns, export_loop registry_config c assets acc = (ns, None).
Proof using Type.
  revert acc. induction assets as [|[a v] assets IH]; intros acc Ha; [by eexists|]. simpl.
  pose proof (Ha a v ltac:(by left)) as He. destruct (registry_config a) as [cfg [err|]]; [done|].
  apply IH. intros a' v' Hin. apply (Ha a' v'). by right.
Qed.

Lemma getExportTo_ok c isServer assets :
  (forall asset, is_Some (assets !! asset) -> (registry_config asset).2 = None) ->
  exists ns, getExportTo p registry_config c isServer assets = (ns, None).
Proof using Type.
  intros Hc. unfold getExportTo. destruct (export_loop_ok c (go_range 2 assets) []) as [ns ->]; [|by eexists].
  intros a v Ha%go_range_elem. apply Hc. by eexists.
Qed.

(** Every cluster has its ingress, and no other has one. *)
Lemma ingress_of_clusters clientCluster config :
  map_Forall (plain_cluster p config) (icClusters config) -> icClusters config <> ∅ ->
  exists ing, getIngressEndpoints (icClusters config) = (ing, None) /\ Nat.eqb (size ing) 0 = false /\
    (forall k c, icClusters config !! k = Some c -> ing !! k = Some (ingress_of c)) /\
    is_nil (ing !! clientCluster) = is_nil (icClusters config !! clientCluster).
Proof using Type.
  intros Hp Hne. unfold getIngressEndpoints.
  destruct (ingress_loop_spec p config (go_range 0 (icClusters config)) ∅) as (ing & -> & Hin & Hout).
  { apply go_range_fst_NoDup. } { intros k c Hk%go_range_elem. by apply Hp. }
  assert (forall k c, icClusters config !! k = Some c -> ing !! k = Some (ingress_of c)) as Hi.
  { intros k c Hk. apply Hin. by apply go_range_elem. }
  exists ing. split_and!; [done| |done|].
  - apply Nat.eqb_neq. intros Hz%map_size_empty_inv. apply map_choose in Hne as (k & c & Hk). apply Hi in Hk.
    by rewrite Hz in Hk.
  - destruct (icClusters config !! clientCluster) as [c|] eqn:E; [by rewrite (Hi _ _ E)|]. rewrite Hout; [done|].
    intros ([k c] & -> & Hk%go_range_elem)%list_elem_of_fmap. simpl in E. by rewrite E in Hk.
Qed.

Section Built.
Context (clientCluster : string) (config : IdentityConfig) (ns : list string).
Context (l : list (IdentityConfigCluster * IdentityConfigEnvironment)) (m : entries_by_env)
  (Hb : built p clientCluster config ns l m).

(** The entries that are returned. *)
Definition entries_of : list ServiceEntry := flat_map (fun em => (go_range 3 em.2).*2) (go_range 2 m).

Lemma entries_of_elem se : se ∈ entries_of <-> exists e, m !! e = Some {[ env_host p config e := se ]}.
Proof using Hb.
  unfold entries_of. rewrite list_elem_of_In, in_flat_map. setoid_rewrite <- list_elem_of_In. split.
  - intros ([e em] & Hem%go_range_elem & Hse). specialize (Hb e). rewrite Hem in Hb.
    destruct Hb as (_ & se' & -> & _). exists e. simpl in Hse.
    apply list_elem_of_fmap in Hse as ([h se''] & -> & Hh%go_range_elem). simpl.
    by apply lookup_singleton_Some in Hh as [_ <-].
  - intros [e He]. exists (e, {[ env_host p config e := se ]}). split; [by apply go_range_elem|].
    apply list_elem_of_fmap. exists (env_host p config e, se). split; [done|]. apply go_range_elem, lookup_singleton_eq.
Qed.

Lemma built_entry e se :
  m !! e = Some {[ env_host p config e := se ]} -> entry_for p clientCluster config ns e (pairs_of e l) se.
Proof using Hb.
  intros He. specialize (Hb e). rewrite He in Hb. destruct Hb as (_ & se' & Heq & Hf).
  apply (f_equal (.!! env_host p config e)) in Heq. rewrite !lookup_singleton_eq in Heq. by injection Heq as ->.
Qed.

Lemma entries_of_hosts : map seHosts entries_of = map (fun em => [env_host p config em.1]) (go_range 2 m).
Proof using Hb.
  unfold entries_of. assert (forall e em, (e, em) ∈ go_range 2 m -> exists se, em = {[ env_host p config e := se ]} /\
    seHosts se = [env_host p config e]) as Hem.
  { intros e em Hem%go_range_elem. specialize (Hb e). rewrite Hem in Hb.
    destruct Hb as (_ & se & -> & Hh & _). by exists se. }
  revert Hem. generalize (go_range 2 m) as l'. induction l' as [|[e em] l' IH]; intros Hem; [done|]. simpl.
  destruct (Hem e em) as (se & -> & Hh); [by left|]. rewrite go_range_singleton. simpl. rewrite Hh. f_equal.
  apply IH. intros e' em' ?. apply Hem. by right.
Qed.

Lemma entries_of_NoDup : NoDup (map seHosts entries_of).
Proof using Hb.
  rewrite entries_of_hosts.
  assert (forall l' : list (string * gmap string ServiceEntry), map (fun em => [env_host p config em.1]) l' =
    (fun e => [env_host p config e]) <$> l'.*1) as -> by (intros; symmetry; apply map_map).
  apply (NoDup_fmap_2_strong _); [|apply go_range_fst_NoDup].
  intros e1 e2 _ _ [= H]. by apply env_host_inj in H.
Qed.

Lemma entries_of_env e :
  (exists se, se ∈ entries_of /\ seHosts se = [env_host p config e]) <-> pairs_of e l <> [].
Proof using Hb.
  split.
  - intros (se & [e' He']%entries_of_elem & Hh). destruct (built_entry _ _ He') as (Hh' & _). rewrite Hh in Hh'.
    injection Hh' as Hh'. apply env_host_inj in Hh' as <-. specialize (Hb e). rewrite He' in Hb. by destruct Hb.
  - intros Hpairs. pose proof (Hb e) as He. destruct (m !! e) as [em|] eqn:E; [|done].
    destruct He as (_ & se & -> & Hh & _). exists se. split; [|done]. apply entries_of_elem. by exists e.
Qed.
End Built.

End Config.

(** *** An identity in two clusters *)

Definition reg_params : AdmiralParams :=
  Params.zero_AdmiralParams <| Params.HostnameSuffix := "mesh" |> <| Params.ExportToMaxNamespaces := 10 |>
    <| Params.SANPrefix := "prefix" |>.
Definition reg_service (name : string) (weight : Z) : RegistryServiceConfig := mkRegistryService name weight {[ "http" := 8080 ]} None.
Definition reg_env (name : string) (services : gmap string (list RegistryServiceConfig)) (types : gmap string string)
    : IdentityConfigEnvironment :=
  mkIdentityEnvironment name ("ns-" +:+ name) (Some services) "svc" ((fun s => mkTypeConfig s None) <$> types)
    [mkServicePort 80 "http" "http"] zero_gtp zero_od zero_ccc None.
Definition reg_cluster (name : string) (envs : list IdentityConfigEnvironment) : IdentityConfigCluster :=
  mkIdentityCluster name "us-west-2" ("lb." +:+ name) "15443" "http" (list_to_map (map (fun e => (ieName e, e)) envs)).
Definition reg_config (name : string) (clusters : list IdentityConfigCluster) (clients : list string) : IdentityConfig :=
  mkIdentityConfig name (list_to_map (map (fun c => (icName c, c)) clusters)) (list_to_map (map (fun c => (c, c)) clients)).
Definition dev : IdentityConfigEnvironment :=
  reg_env "dev" {[ "default" := [reg_service "stable" 25]; "test" := [reg_service "desired" 75; reg_service "idle" 0] ]} ∅.
Definition foo_config : IdentityConfig :=
  reg_config "Foo" [reg_cluster "c1" [dev]; reg_cluster "c2" [dev; reg_env "qal" {[ "default" := [reg_service "root" 0] ]} ∅]] ["bar"].
(** The client [bar] has two environments in [c1], in the same namespace. *)
Definition bar_config : IdentityConfig :=
  reg_config "bar" [reg_cluster "c1" [dev; mkIdentityEnvironment "dev2" "ns-dev" None "svc" ∅ [] zero_gtp zero_od zero_ccc None]] [].
Definition reg_registry (identity : string) : IdentityConfig * error :=
  if identity =?s "bar" then (bar_config, None) else (foo_config, Some "not found").

(** Hosts, and the addresses with their weights. *)
Definition entries_view (r : option (list ServiceEntry * error)) : option (list (list string * list (string * Z)) * error) :=
  match r with
  | Some (ses, err) =>
      Some (map (fun se => (seHosts se, map (fun ep => (weAddress ep, weWeight ep)) (seEndpoints se))) ses, err)
  | None => None
  end.

Definition plain_environmentb (p : AdmiralParams) (config : IdentityConfig) (ke : string * IdentityConfigEnvironment) : bool :=
  let '(e, env) := ke in
  (ieName env =?s e) && negb (Nat.eqb (length (default [] (ieServices env !! defaultServiceKey))) 0) &&
  bool_decide (ieTypes env !! RolloutType <> Some bluegreenStrategy) && bool_decide (ieTypes env !! RolloutType <> Some canaryStrategy) &&
  negb (has_prefix (env_host p config e) canaryPrefix) && negb (has_prefix (env_host p config e) previewPrefix).
Definition plain_clusterb (p : AdmiralParams) (config : IdentityConfig) (kc : string * IdentityConfigCluster) : bool :=
  let '(k, c) := kc in
  (icName c =?s k) && is_nil (atoi (icIngressPort c)).2 &&
  forallb (plain_environmentb p config) (map_to_list (icEnvironment c)).

Lemma plain_clusters_sound p config :
  forallb (plain_clusterb p config) (map_to_list (icClusters config)) = true ->
  map_Forall (plain_cluster p config) (icClusters config).
Proof.
  rewrite forallb_forall. intros Hb k c Hk. specialize (Hb (k, c)).
  rewrite <- list_elem_of_In, elem_of_map_to_list in Hb. specialize (Hb Hk). simpl in Hb.
  rewrite !andb_true_iff, seqb_eq, forallb_forall in Hb. destruct Hb as [[Hn Hp] He].
  split_and!; [done|by destruct (atoi _).2|]. intros e env Henv. specialize (He (e, env)).
  rewrite <- list_elem_of_In, elem_of_map_to_list in He. specialize (He Henv). simpl in He.
  rewrite !andb_true_iff, seqb_eq, !bool_decide_eq_true, !negb_true_iff in He.
  destruct He as [[[[[H1 H2] H3] H4] H5] H6]. split_and!; try done. by intros Hd; rewrite Hd in H2.
Qed.


(** A canary rollout: the entry of the canary host replaces that of the environment. *)
Lemma canary_replaces_environment :
  entries_view (BuildServiceEntriesFromIdentityConfig reg_params reg_registry "c1"
    (reg_config "Foo" [reg_cluster "c1" [reg_env "dev" {[ "default" := [reg_service "stable" 0]; "test" := [reg_service "desired" 0] ]}
       {[ "rollout" := "canary" ]}]] [])) =
  Some ([(["canary.foo.mesh"], [("desired.ns-dev.svc.cluster.local", 0)])], None).
Proof. vm_compute. reflexivity. Qed.

(** One environment without a default service at home: no entry is built for the others
    either, and no error reported. *)
Lemma one_environment_without_service :
  BuildServiceEntriesFromIdentityConfig reg_params reg_registry "c1"
    (reg_config "Foo" [reg_cluster "c1" [dev; reg_env "qal" {[ "test" := [reg_service "desired" 0] ]} ∅]] []) = Some ([], None).
Proof. vm_compute. reflexivity. Qed.

(** The namespaces of the clients are not made unique. *)
Lemma exported_twice :
  getExportTo reg_params reg_registry "c1" true (ClientAssets foo_config) = (["istio-system"; "ns-dev"; "ns-dev"], None).
Proof. vm_compute. reflexivity. Qed.
