(* ===== verification/RegistrySamples.v ===== *)
(** * The sample configurations of the registry

    [registry/testutils.go] has the configurations that the unit tests of the config writer
    use; what [BuildServiceEntriesFromIdentityConfig] of [IdentityConfigs.v] gives for them
    is what [clusters/configwriter_test.go] expects. *)
From S2P Require Import Prelude GoStrings Config Objects Metadata ServiceEntries RegistryConfig IdentityConfigs.
From stdpp Require Import options.
Local Open Scope Z_scope.

(** ** The samples *)

Definition app_selectors : gomap := Some {[ "app" := "app1" ]}.
Definition sample_meta (name env identity : string) : ObjectMeta :=
  mkMeta name "" (Some {[ "identity" := identity ]}) (Some {[ "env" := env ]}) 0 "".

Definition sample_connection (env identity : string) : ClientConnectionConfig :=
  mkCCC (sample_meta "sampleCCC" env identity) (Some (mkCccPool (Some (mkCccHttp 1000 5 "")) None)).
Definition sample_policy (env identity : string) : GlobalTrafficPolicy :=
  mkGTP (sample_meta "sampleGTP" env identity)
    [mkTrafficPolicy "" TOPOLOGY [mkTrafficGroup "us-west-2" 50; mkTrafficGroup "us-east-2" 50] "testDnsPrefix"
       (Some (mkOutlierConfig 0 5 5))] None.
Definition sample_outlier (env identity : string) : OutlierDetectionCrd :=
  mkOD (sample_meta "sampleOD" env identity) (Some (mkOutlierConfig 0 10 10)) None.

Definition GetSampleIdentityConfigEnvironment (env namespace identity : string) : IdentityConfigEnvironment :=
  mkIdentityEnvironment env namespace
    (Some {[ "default" := [mkRegistryService "app-1-spk-root-service" 0 {[ "http" := 8090 ]} app_selectors] ]})
    "app-1-spk-root-service" {[ "rollout" := mkTypeConfig "" app_selectors ]}
    [mkServicePort 80 "http" "http"]
    (sample_policy env identity) (sample_outlier env identity) (sample_connection env identity) None.

Definition sample_environments (f : IdentityConfigEnvironment -> IdentityConfigEnvironment) (identity : string)
    : gmap string IdentityConfigEnvironment :=
  {[ "prf" := f (GetSampleIdentityConfigEnvironment "prf" "ns-1-usw2-prf" identity);
     "e2e" := f (GetSampleIdentityConfigEnvironment "e2e" "ns-1-usw2-e2e" identity);
     "qal" := f (GetSampleIdentityConfigEnvironment "qal" "ns-1-usw2-qal" identity) ]}.

Definition sample_cluster1 (environments : gmap string IdentityConfigEnvironment) : IdentityConfigCluster :=
  mkIdentityCluster "cluster1" "us-west-2" "abc-elb.us-west-2.elb.amazonaws.com." "15443" "http" environments.
Definition sample_cluster2 (environments : gmap string IdentityConfigEnvironment) : IdentityConfigCluster :=
  mkIdentityCluster "cluster2" "us-east-2" "def-elb.us-east-2.elb.amazonaws.com." "15443" "http" environments.

Definition sample_assets : gmap string string := {[ "sample" := "sample" ]}.

Definition GetSampleIdentityConfig (identity : string) : IdentityConfig :=
  mkIdentityConfig identity {[ "cluster1" := sample_cluster1 (sample_environments id identity) ]} sample_assets.

(** The clusters share their environments, which are only read. *)
Definition GetSampleIdentityConfigWithRemoteEndpoints (identity : string) : IdentityConfig :=
  let environments := sample_environments id identity in
  mkIdentityConfig identity {[ "cluster1" := sample_cluster1 environments; "cluster2" := sample_cluster2 environments ]}
    sample_assets.

Definition deploy_selectors : gomap := Some {[ "deploy-app" := "app1" ]}.
Definition migration_services : gmap string (list RegistryServiceConfig) :=
  {[ "default" := [mkRegistryService "app-1-spk-deploy-service" 0 {[ "http" := 8090 ]} deploy_selectors;
                   mkRegistryService "app-1-spk-root-service" 0 {[ "http" := 8090 ]} app_selectors] ]}.
Definition migration (e : IdentityConfigEnvironment) : IdentityConfigEnvironment :=
  e <| ieTypeConfigs := <["rollout" := mkTypeConfig "" app_selectors]>
         (<["deployment" := mkTypeConfig "" deploy_selectors]> (ieTypeConfigs e)) |>
    <| ieServiceMap := Some migration_services |>.

Definition GetSampleIdentityConfigWithRolloutAndDeployment (identity : string) : IdentityConfig :=
  mkIdentityConfig identity
    {[ "cluster1" := sample_cluster1 (sample_environments migration identity);
       "cluster2" := sample_cluster2 (sample_environments id identity) ]} sample_assets.

(** ** The unit tests *)

(** [admiralParamsForConfigWriterTests], as far as it is read. *)
Definition test_params : AdmiralParams :=
  Params.zero_AdmiralParams
    <| Params.LabelSetPtr := Some (Params.zero_LabelSet
         <| Params.GatewayApp := "gatewayapp" |> <| Params.WorkloadIdentityKey := "identity" |>
         <| Params.PriorityKey := "priority" |> <| Params.EnvKey := "env" |>
         <| Params.AdmiralCRDIdentityLabel := "identity" |>) |>
    <| Params.EnableSAN := true |> <| Params.SANPrefix := "prefix" |> <| Params.HostnameSuffix := "mesh" |>
    <| Params.SyncNamespace := "ns" |> <| Params.ExportToMaxNamespaces := 35 |>
    <| Params.EnableAbsoluteFQDN := true |> <| Params.EnableAbsoluteFQDNForLocalEndpoints := true |>
    <| Params.AdmiralOperatorMode := true |>.

(** The registry knows the client [sample]. *)
Definition test_registry (identity : string) : IdentityConfig * error :=
  if identity =?s "sample" then (GetSampleIdentityConfig identity, None)
  else (mkIdentityConfig "" ∅ ∅, Some "not found").

Definition entry_less (a b : ServiceEntry) : bool := str_ltb (default "" (head (seHosts a))) (default "" (head (seHosts b))).

Definition built (config : IdentityConfig) : option (list ServiceEntry * error) :=
  BuildServiceEntriesFromIdentityConfig test_params test_registry "cluster1" config.
(** The entries in the order of their hosts. *)
Definition sorted_entries (r : option (list ServiceEntry * error)) : option (list ServiceEntry * error) :=
  (fun '(l, err) => (sort_slice entry_less l, err)) <$> r.

(** The entries that the tests make by hand. *)
Definition local_entry (service ns : string) : WorkloadEntry :=
  mkWorkloadEntry (service +:+ "." +:+ ns +:+ ".svc.cluster.local.") {[ "http" := 8090 ]} tls_label "us-west-2" 0.
Definition remote_entry : WorkloadEntry :=
  mkWorkloadEntry "def-elb.us-east-2.elb.amazonaws.com." {[ "http" := 15443 ]} tls_label "us-east-2" 0.
Definition mock_entry (env : string) (endpoints : list WorkloadEntry) : ServiceEntry :=
  mkServiceEntry [env +:+ ".sample.mesh"] [] [mkServicePort 80 "http" "http"] MESH_INTERNAL DNS endpoints
    ["istio-system"; "ns-1-usw2-e2e"; "ns-1-usw2-prf"; "ns-1-usw2-qal"] ["spiffe://prefix/sample"].
Definition mock_entries (endpoints : string -> list WorkloadEntry) : list ServiceEntry :=
  map (fun env => mock_entry env (endpoints ("ns-1-usw2-" +:+ env))) ["e2e"; "prf"; "qal"].

Lemma sample_local :
  sorted_entries (built (GetSampleIdentityConfig "sample")) =
  Some (mock_entries (fun ns => [local_entry "app-1-spk-root-service" ns]), None).
Proof. vm_compute. reflexivity. Qed.

Lemma sample_remote :
  sorted_entries (built (GetSampleIdentityConfigWithRemoteEndpoints "sample")) =
  Some (mock_entries (fun ns => [local_entry "app-1-spk-root-service" ns; remote_entry]), None).
Proof. vm_compute. reflexivity. Qed.

(** A rollout and a deployment in a namespace: the entry has both services, in the order of
    the addresses. *)
Lemma sample_migration :
  sorted_entries (built (GetSampleIdentityConfigWithRolloutAndDeployment "sample")) =
  Some (mock_entries (fun ns => [local_entry "app-1-spk-deploy-service" ns; local_entry "app-1-spk-root-service" ns; remote_entry]), None).
Proof. vm_compute. reflexivity. Qed.

(** No clusters; a client that the registry does not know; an environment without
    services. *)
Definition no_clusters_config : IdentityConfig := GetSampleIdentityConfig "sample" <| icClusters := ∅ |>.
Definition unknown_client_config : IdentityConfig :=
  GetSampleIdentityConfig "sample" <| ClientAssets := <["fake" := "fake"]> sample_assets |>.
Definition no_services_config : IdentityConfig :=
  GetSampleIdentityConfig "sample"
    <| icClusters := {[ "cluster1" := sample_cluster1 (alter (fun e => e <| ieServiceMap := Some ∅ |>) "e2e"
                                                          (sample_environments id "sample")) ]} |>.

Lemma sample_errors :
  built no_clusters_config = Some ([], None) /\
  (exists e, built unknown_client_config = Some ([], Some e)) /\
  (exists e, built no_services_config = Some ([], Some e)).
Proof. split_and!; [vm_compute; reflexivity|eexists; vm_compute; reflexivity|eexists; vm_compute; reflexivity]. Qed.
