(* ===== verification/StateSyncer.v ===== *)
(** * The state syncer

    With [AdmiralStateSyncerMode] the loop over the source clusters of
    [modifyServiceEntryForNewServiceOrPod] ([ModifyServiceEntry.v]) stores the services of
    an identity in a configuration for the registry ([RegistryConfig.v]) instead of writing
    service entries.  The theorems are that it writes nothing, what it stores for a
    deployment, and that for weighted services the endpoints which an operator builds from
    the configuration ([IdentityConfigs.v]) are those that would have been written. *)
From S2P Require Import Prelude GoStrings Config Objects Metadata ServiceCache Policies AddressStore.
From S2P Require Import DestinationRules Writers ServiceEntries Caches Dependents World VirtualServices.
From S2P Require Import VsRouting Worker ClusterWriter StateCheck DeploymentController RolloutController.
From S2P Require Import RoutingRules RoutingWriter ServiceLookup SeState RegistryConfig GatherServiceEntries ModifyServiceEntry.
From S2P Require Import LocalEntries IdentityConfigs.
From stdpp Require Import options.
Local Open Scope Z_scope.
Local Open Scope world_scope.

Lemma wbnd_eq {X A B} (c : W X A) (k : A -> W X B) w a w1 : c w = Some (a, w1) -> wbnd c k w = k a w1.
Proof. intros H. unfold wbnd. by rewrite H. Qed.

(** ** Environments of a configuration *)

Lemma at_environment_Some c env f config config' :
  at_environment c env f config = Some config' ->
  exists cl e e', icClusters config !! c = Some cl /\ icEnvironment cl !! env = Some e /\ f e = Some e' /\
    config' = config <| icClusters :=
      <[c := cl <| icEnvironment := <[env := e']> (icEnvironment cl) |>]> (icClusters config) |>.
Proof.
  unfold at_environment. destruct (icClusters config !! c) as [cl|] eqn:Ec; [|done]. cbn.
  destruct (icEnvironment cl !! env) as [e|] eqn:Ee; [|done]. cbn. destruct (f e) as [e'|] eqn:Ef; [|done].
  intros [= <-]. eauto 10.
Qed.

(** The environment of a cluster, with the cluster's port. *)
Definition stored (c env : string) (config : IdentityConfig) : option (string * IdentityConfigEnvironment) :=
  cl ← icClusters config !! c; e ← icEnvironment cl !! env; Some (icIngressPortName cl, e).

Lemma at_environment_stored c env f config config' :
  at_environment c env f config = Some config' ->
  exists port e e', stored c env config = Some (port, e) /\ f e = Some e' /\ stored c env config' = Some (port, e').
Proof.
  intros (cl & e & e' & Hc & He & Hf & ->)%at_environment_Some. exists (icIngressPortName cl), e, e'.
  unfold stored. rewrite Hc. cbn. rewrite He, lookup_insert_eq. cbn. by rewrite lookup_insert_eq.
Qed.

(** ** Nothing is written *)

Definition silent {St} (w w' : world (proc_world St)) : Prop := keeps_api (w_api w) (w_api w').
#[export] Instance silent_preorder {St} : PreOrder (@silent St).
Proof. split; [intros w; by unfold silent|]. intros w1 w2 w3 H12 H23. unfold silent in *. by transitivity (w_api w2). Qed.

(** Nothing for the routing. *)
Definition same_routing (v v' : sources) : Prop :=
  sourceClusterToDestinations v' = sourceClusterToDestinations v /\
  sourceClusterToInClusterDestinations v' = sourceClusterToInClusterDestinations v /\
  sourceClusterToDRHosts v' = sourceClusterToDRHosts v.
#[export] Instance same_routing_preorder : PreOrder same_routing.
Proof. split; [done|]. intros v1 v2 v3 (?&?&?) (?&?&?). split_and!; congruence. Qed.

Section Silent.
Context {range : GoRange} {sorting : GoSort} {St : Type} {writer : ConfigWriter (proc_world St)}.
Context (p : AdmiralParams) (readOnly : bool) (is_invalid : string -> bool)
  (sidecarClients : string -> KubeClient St SidecarObj).
Context (rr : RemoteRegistry) (env : string) (ctx : proc_ctx).
Context (partitionedIdentity sourceIdentity clusterName eventResourceType : string).
Context (g : locals) (dependents : gmap string string).
Context (Hmode : IsAdmiralStateSyncerMode p = true).

Abbreviation quietly v := (steps (silent (St := St)) (same_routing v)).

Lemma keeps_silent {A} (c : W (proc_world St) A) : api_post c keeps_api -> steps silent (fun _ => True) c.
Proof using Type. intros Hc w a w' H. split; [exact (Hc _ _ _ H)|done]. Qed.

Lemma sync_quietly c f v v1 : same_routing v v1 -> quietly v (@sync St env c f v1).
Proof using Type.
  intros Hv. unfold sync. destruct (at_environment _ _ _ _); [|apply steps_panic]. by apply (steps_ret silent).
Qed.

Section Cluster.
Context (c ns : string) (services : gmap string ServiceObj) (service : ServiceObj) (meshPorts : gmap string Z)
  (ports : gmap string (gmap string Z)) (localFqdn clusterIngress : string).

Lemma process_own_quietly key i ep v v1 :
  same_routing v v1 ->
  steps silent (fun r => same_routing v r.1)
    (process_own_endpoint p env ctx partitionedIdentity g c ns services service meshPorts ports localFqdn clusterIngress
       key i ep v1).
Proof using Hmode.
  intros Hv. unfold process_own_endpoint.
  assert (forall x, quietly v x -> steps silent (fun r => same_routing v r.1) (v <- x;; wret (v, true))) as Hgo.
  { intros x Hx. eapply (steps_bnd silent); [exact Hx|]. intros v2 Hv2. by apply (steps_ret silent). }
  assert (steps silent (fun r => same_routing v r.1)
    (process_migration p env ctx partitionedIdentity g c ns services ports clusterIngress key v1)) as Hmig.
  { unfold process_migration. destruct (entries v1 !! key); [|by apply (steps_ret silent)].
    destruct (UpdateEndpointsForDeployToRolloutMigration _ _ _ _ _ _ _ _) as [[? ?] [?|]]; [by apply (steps_ret silent)|].
    rewrite Hmode. by apply Hgo, sync_quietly. }
  assert (quietly v (process_weighted p env ctx partitionedIdentity g c ns meshPorts clusterIngress key v1)) as Hweighted.
  { unfold process_weighted. destruct (entries v1 !! key); [|by apply (steps_ret silent)]. rewrite Hmode.
    by apply sync_quietly. }
  assert (quietly v (process_regular p env ctx partitionedIdentity c ns service meshPorts localFqdn clusterIngress key i ep v1))
    as Hregular by (unfold process_regular; rewrite Hmode; by apply sync_quietly).
  destruct (sourceRollouts g !! c) as [r|]; [destruct (blue_green r); [|destruct (canary_istio r); [destruct (has_prefix _ _)|]]|];
    try (destruct (Nat.ltb _ _); [by apply Hgo|destruct (is_migrating_here _ _); [done|by apply Hgo]]).
  - apply Hgo. unfold process_blue_green. destruct (updateEndpointsForBlueGreen _ _ _ _ _ _) as [[[? ?] ?]|];
      [|apply steps_panic]. rewrite Hmode. by apply sync_quietly.
  - apply Hgo. unfold process_canary. rewrite Hmode. by apply sync_quietly.
Qed.

Lemma process_endpoints_quietly key indices v v1 :
  same_routing v v1 ->
  quietly v (process_endpoints p env ctx partitionedIdentity g c ns services service meshPorts ports localFqdn
               clusterIngress key indices v1).
Proof using Hmode.
  revert v1. induction indices as [|i indices IH]; intros v1 Hv; cbn; [by apply (steps_ret silent)|].
  destruct (endpoint _ _ _) as [ep|]; [|by apply IH]. destruct (_ || _); [|by apply IH].
  eapply (steps_bnd silent); [by apply process_own_quietly|]. intros [v2 []] Hv2; [by apply IH|by apply (steps_ret silent)].
Qed.

Lemma process_entries_quietly keys v v1 :
  same_routing v v1 ->
  quietly v (process_entries p env ctx partitionedIdentity eventResourceType g c ns services service meshPorts ports
               localFqdn clusterIngress keys v1).
Proof using Hmode.
  revert v1. induction keys as [|key keys IH]; intros v1 Hv; cbn; [by apply (steps_ret silent)|].
  eapply (steps_bnd silent); [|intros v2 Hv2; by apply IH]. unfold process_entry.
  destruct (entries v1 !! key) as [se|]; [|by apply (steps_ret silent)]. rewrite Hmode, andb_true_r.
  destruct (_ || _); [by apply sync_quietly|].
  eapply (steps_bnd silent); [by apply (steps_ret silent)|]. intros v2 Hv2. by apply process_endpoints_quietly.
Qed.
End Cluster.

Abbreviation run_source := (process_source p readOnly is_invalid sidecarClients rr env ctx partitionedIdentity sourceIdentity
  clusterName eventResourceType g dependents).

Lemma additional_quietly c v : quietly v (additional_endpoints p partitionedIdentity g c v).
Proof using Type.
  unfold additional_endpoints. destruct (fetchResourceLabel _ _ _); [|by apply (steps_ret silent)].
  eapply (steps_bnd silent); [apply keeps_silent, doGenerateAdditionalEndpoints_keeps|]. intros b _.
  by apply (steps_ret silent).
Qed.

Lemma sync_policies_quietly c meshPorts v v1 :
  same_routing v v1 -> quietly v (sync_policies env sourceIdentity c meshPorts v1).
Proof using Type.
  intros Hv. unfold sync_policies. eapply (steps_bnd silent); [apply keeps_silent, get_proc_keeps|]. intros s _.
  by apply sync_quietly.
Qed.

Lemma process_source_quietly c v v1 : same_routing v v1 -> quietly v (run_source c v1).
Proof using Hmode.
  intros Hv. unfold process_source. eapply (steps_bnd silent); [apply additional_quietly|]. intros v2 Hv2.
  assert (same_routing v v2) as Hv' by by etrans.
  destruct (_ !! default "" _) as [service|]; [|by apply (steps_ret silent)].
  destruct (remoteControllers rr !! c) as [rc|]; [|apply steps_panic].
  destruct (source_ports _ _ _) as [meshPorts ports].
  eapply (steps_bnd silent); [by apply sync_policies_quietly|]. intros v3 Hv3.
  eapply (steps_bnd silent); [apply keeps_silent, get_proc_keeps|]. intros s _.
  destruct (getOverwrittenLoadBalancer _ _ _ _) as [[ci ?] ?].
  eapply (steps_bnd silent); [by apply process_entries_quietly|]. intros v4 Hv4. rewrite Hmode.
  by apply (steps_ret silent).
Qed.

(** A state syncer writes nothing to the source clusters.  In its mode the loop over
    them leaves the API of every cluster as it is, whatever the writer of the entries does,
    and collects no destinations, so that there is nothing to route either. *)
Theorem syncer_writes_no_sources clusters v w v' w' :
  process_sources p readOnly is_invalid sidecarClients rr env ctx partitionedIdentity sourceIdentity clusterName
    eventResourceType g dependents clusters v w = Some (v', w') ->
  pc_api (rs_api (w_api w')) = pc_api (rs_api (w_api w)) /\ same_routing v v'.
Proof using Hmode.
  assert (forall v1, same_routing v v1 -> quietly v (process_sources p readOnly is_invalid sidecarClients rr env ctx
    partitionedIdentity sourceIdentity clusterName eventResourceType g dependents clusters v1)) as Hall.
  { induction clusters as [|c clusters IH]; intros v1 Hv; cbn; [by apply (steps_ret silent)|].
    eapply (steps_bnd silent); [by apply process_source_quietly|]. intros v2 Hv2. by apply IH. }
  intros H. destruct (Hall v ltac:(reflexivity) _ _ _ H) as [[Hapi _] Hr]. done.
Qed.
End Silent.

(** ** What is stored for a deployment *)

(** The environment of a cluster replaced. *)
Definition put_environment (c : string) (cl : IdentityConfigCluster) (env : string) (e : IdentityConfigEnvironment)
    (config : IdentityConfig) : IdentityConfig :=
  config <| icClusters := <[c := cl <| icEnvironment := <[env := e]> (icEnvironment cl) |>]> (icClusters config) |>.

Lemma at_environment_put c cl env e e' f config :
  f e = Some e' -> at_environment c env f (put_environment c cl env e config) = Some (put_environment c cl env e' config).
Proof.
  intros Hf. unfold at_environment, put_environment. cbn. rewrite lookup_insert_eq. cbn. rewrite lookup_insert_eq. cbn.
  rewrite Hf. cbn. by rewrite insert_insert_eq, insert_insert_eq.
Qed.

Lemma at_environment_alter c cl env e e' f h config :
  icClusters config !! c = Some cl -> icEnvironment (h cl) !! env = Some e -> f e = Some e' ->
  at_environment c env f (config <| icClusters := alter h c (icClusters config) |>) =
  Some (put_environment c (h cl) env e' config).
Proof.
  intros Hc He Hf.
  assert (forall x, <[c := x]> (alter h c (icClusters config)) = <[c := x]> (icClusters config)) as Hm.
  { intros x. apply map_eq. intros k. destruct (decide (k = c)) as [->|Hk]; [by rewrite !lookup_insert_eq|].
    by rewrite !lookup_insert_ne, lookup_alter_ne by done. }
  unfold at_environment, put_environment. cbn. rewrite lookup_alter_eq, Hc. cbn. rewrite He. cbn.
  rewrite Hf. cbn. by rewrite Hm.
Qed.

(** The one default service. *)
Definition served (s : RegistryServiceConfig) (e : IdentityConfigEnvironment) : IdentityConfigEnvironment :=
  e <| ieServiceMap := <[defaultServiceKey := [s]]> <$> ieServiceMap e |>.

Lemma set_services_served s e (b : bool) :
  is_Some (ieServiceMap e) ->
  set_services defaultServiceKey [s] (if b then served s e else e) = Some (served s e).
Proof.
  intros [m Hm]. unfold set_services, served. destruct b; cbn; rewrite Hm; cbn; [|done].
  by rewrite insert_insert_eq.
Qed.

#[local] Arguments process_own_endpoint : simpl never.
#[local] Arguments process_endpoints : simpl never.

Section Deployment.
Context {range : GoRange} {sorting : GoSort} {St : Type} {writer : ConfigWriter (proc_world St)}.
Context (p : AdmiralParams) (readOnly : bool) (is_invalid : string -> bool)
  (sidecarClients : string -> KubeClient St SidecarObj).
Context (rr : RemoteRegistry) (env : string) (ctx : proc_ctx).
Context (partitionedIdentity sourceIdentity clusterName eventResourceType : string).
Context (g : locals) (dependents : gmap string string).
Context (Hmode : IsAdmiralStateSyncerMode p = true).
(** A cluster with a deployment only, which is not being deleted. *)
Context (c : string) (Hrollout : sourceRollouts g !! c = None) (Hweights : Nat.ltb 1 (size (weighted g c)) = false)
  (Hmigrating : is_migrating g c = false) (Hkept : default false (clustersToDeleteSE g !! c) = false).

Section Entries.
Context (ns : string) (services : gmap string ServiceObj) (service : ServiceObj) (meshPorts : gmap string Z)
  (ports : gmap string (gmap string Z)) (localFqdn clusterIngress : string).
Context (base : gmap string ServiceEntry) (cl : IdentityConfigCluster) (e : IdentityConfigEnvironment)
  (config : IdentityConfig) (Hservices : is_Some (ieServiceMap e)).
Notation svc := (registry_service localFqdn 0 meshPorts service).

(** The cluster's own endpoint. *)
Definition own (ep : WorkloadEntry) : bool := (weAddress ep =?s clusterIngress) || is_empty (weAddress ep).
Definition own_at (key : string) (i : nat) : bool := match endpoint base key i with Some ep => own ep | None => false end.
Definition has_own (key : string) : bool := match base !! key with Some se => existsb own (seEndpoints se) | None => false end.

(** The state when the service was stored, or not yet. *)
Definition state_of (v : sources) (b : bool) : sources :=
  v <| configuration := put_environment c cl env (if b then served svc e else e) config |>.

Lemma state_of_again v b b' : state_of (state_of v b) b' = state_of v b'.
Proof using Type. done. Qed.

Lemma process_own_served key i ep v b w :
  process_own_endpoint p env ctx partitionedIdentity g c ns services service meshPorts ports localFqdn clusterIngress key i
    ep (state_of v b) w = Some ((state_of v true, true), w).
Proof using Hmode Hrollout Hweights Hmigrating Hservices.
  unfold process_own_endpoint. rewrite Hrollout, Hweights. unfold is_migrating_here. rewrite Hmigrating.
  unfold process_regular. rewrite Hmode. unfold wbnd, sync. cbn.
  by rewrite (at_environment_put _ _ _ _ (served svc e)) by by apply set_services_served.
Qed.

Lemma process_endpoints_served key indices v b w :
  entries v = base ->
  process_endpoints p env ctx partitionedIdentity g c ns services service meshPorts ports localFqdn clusterIngress key
    indices (state_of v b) w = Some (state_of v (b || existsb (own_at key) indices), w).
Proof using Hmode Hrollout Hweights Hmigrating Hservices.
  intros Hb. revert b. induction indices as [|i indices IH]; intros b; [by rewrite orb_false_r|].
  unfold process_endpoints; fold process_endpoints. cbn.
  unfold own_at at 1. rewrite Hb. destruct (endpoint base key i) as [ep|]; [|apply IH]. fold (own ep).
  destruct (own ep); [|apply IH]. unfold wbnd. rewrite process_own_served, orb_true_r. apply (IH true).
Qed.

Lemma own_indices key se : base !! key = Some se ->
  existsb (own_at key) (seq 0 (length (seEndpoints se))) = has_own key.
Proof using Type.
  intros Hse. unfold has_own. rewrite Hse. apply eq_iff_eq_true. rewrite !existsb_exists. split.
  - intros (i & _ & Hi). unfold own_at, endpoint in Hi. rewrite Hse in Hi. cbn in Hi.
    destruct (seEndpoints se !! i) as [ep|] eqn:E; [|done]. exists ep. split; [|done].
    apply list_elem_of_In. by eapply list_elem_of_lookup_2.
  - intros (ep & Hin & Ho). apply list_elem_of_In, list_elem_of_lookup in Hin as [i Hi]. exists i. split.
    + apply in_seq. apply lookup_lt_Some in Hi. lia.
    + unfold own_at, endpoint. rewrite Hse. cbn. by rewrite Hi.
Qed.

Lemma process_entries_served keys v b w :
  entries v = base -> (forall key se, base !! key = Some se -> seEndpoints se <> []) ->
  process_entries p env ctx partitionedIdentity eventResourceType g c ns services service meshPorts ports localFqdn
    clusterIngress keys (state_of v b) w = Some (state_of v (b || existsb has_own keys), w).
Proof using Hmode Hrollout Hweights Hmigrating Hkept Hservices.
  intros Hb Hne. revert b. induction keys as [|key keys IH]; intros b; [by rewrite orb_false_r|]. cbn.
  unfold wbnd, process_entry. cbn. rewrite Hb. destruct (base !! key) as [se|] eqn:Hse; cycle 1.
  { cbn. unfold has_own at 1. rewrite Hse. apply IH. }
  unfold is_migrating_here. rewrite Hmigrating, Hkept. cbn.
  destruct (seEndpoints se) as [|ep eps] eqn:He; [by apply Hne in Hse|]. cbn -[seq process_endpoints]. unfold wbnd.
  cbn -[seq process_endpoints]. change (length (ep :: eps)) with (S (length eps)).
  assert (S (length eps) = length (seEndpoints se)) as -> by by rewrite He.
  rewrite process_endpoints_served, (own_indices _ _ Hse) by done. rewrite IH. by rewrite orb_assoc.
Qed.
End Entries.

Lemma additional_endpoints_only v w v1 w1 :
  additional_endpoints (St := St) p partitionedIdentity g c v w = Some (v1, w1) ->
  exists b, v1 = v <| isAdditionalEndpointGenerationEnabled := b |>.
Proof using Type.
  unfold additional_endpoints. destruct (fetchResourceLabel _ _ _).
  - intros (b & w2 & _ & H)%wbnd_Some. injection H as <- _. by exists b.
  - intros [= <- _]. exists (isAdditionalEndpointGenerationEnabled v). by destruct v.
Qed.

(** What the state syncer knows of the cluster. *)
Context (rc : RemoteController) (services : gmap string ServiceObj) (service : ServiceObj)
  (Hrc : remoteControllers rr !! c = Some rc) (Hsource : sourceServices g !! c = Some services)
  (Htype : appType g !! c = Some DeploymentType) (Hservice : services !! DeploymentType = Some service).

(** The environment after the turn: the ports and the policies in use, and the service under
    its local name. *)
Definition synced_environment (s : proc_state St) (e : IdentityConfigEnvironment) : IdentityConfigEnvironment :=
  let meshPorts := (source_ports g c services).1 in
  served (registry_service (local_fqdn p service) 0 meshPorts service)
    (set_config_policies meshPorts (identityCache_GetFromIdentity (pc_gtps s) sourceIdentity env)
       (identityCache_GetFromIdentity (pc_ods s) sourceIdentity env)
       (identityCache_GetFromIdentity (pc_cccs s) sourceIdentity env) e).

Lemma get_proc_eq (w : world (proc_world St)) : get_proc w = Some (rs_api (w_api w), w).
Proof using Type. by destruct w. Qed.

Lemma sync_policies_eq cl e meshPorts v (w : world (proc_world St)) :
  icClusters (configuration v) !! c = Some cl -> icEnvironment cl !! env = Some e ->
  let s := rs_api (w_api w) in
  sync_policies env sourceIdentity c meshPorts v w =
  Some (v <| configuration :=
          put_environment c (cl <| icIngressPortName := getIngressPortName meshPorts |>) env
            (set_config_policies meshPorts (identityCache_GetFromIdentity (pc_gtps s) sourceIdentity env)
               (identityCache_GetFromIdentity (pc_ods s) sourceIdentity env)
               (identityCache_GetFromIdentity (pc_cccs s) sourceIdentity env) e) (configuration v) |>, w).
Proof using Type.
  intros Hcl He s. unfold sync_policies. rewrite (wbnd_eq _ _ _ _ _ (get_proc_eq w)). unfold sync. cbn [configuration].
  cbn. by erewrite (at_environment_alter c cl env e _ _ (fun c => c <| icIngressPortName := _ |>)) by done.
Qed.

End Deployment.

(** ** The endpoints of an operator *)

(** What of an endpoint comes from its service. *)
Definition served_view (ep : WorkloadEntry) : string * gmap string Z * Z := (weAddress ep, wePorts ep, weWeight ep).

Section Weighted.
Context {range : GoRange} (p : AdmiralParams).

Lemma parseWeightedService_filter ws meshPorts :
  parseWeightedService ws meshPorts =
  map (fun kv => registry_service (Name (SvcMeta (wsService kv.2))) (wsWeight kv.2) meshPorts (wsService kv.2))
    (List.filter (fun kv => 0 <? wsWeight kv.2) (go_range 6 ws)).
Proof.
  unfold parseWeightedService. induction (go_range 6 ws) as [|[k s] l IH]; [done|]. cbn. rewrite IH, Z.leb_antisym.
  by destruct (0 <? wsWeight s).
Qed.

End Weighted.

(** ** The properties at concrete inputs *)

(** The deployment of [foo] in [c1], and the loop over it in the mode of the state syncer. *)
Definition syncer_params : AdmiralParams := foo_params <| Params.AdmiralStateSyncerMode := true |>.
Definition syncer_locals : locals := foo_locals "lb1".
Definition syncer_run : option (sources * world (proc_world (unit * list writer_call))) :=
  process_sources (writer := tracing_writer (fun _ => None)) syncer_params false (fun _ => false)
    (fun _ => unlogged silent_sidecars) foo_registry "dev" foo_ctx "foo" "foo" "c1" DeploymentType
    syncer_locals {[ "bar" := "bar" ]} ["c1"] (foo_sources "lb1") (foo_world []).
Definition syncer_result : sources := default (foo_sources "lb1") (option_map fst syncer_run).
Definition syncer_world : world (proc_world (unit * list writer_call)) :=
  default (foo_world []) (option_map snd syncer_run).

Lemma syncer_writes_no_sources_witness :
  calls syncer_world = [] /\ sourceClusterToDestinations syncer_result = ∅ /\
  IdentityName (configuration syncer_result) = "foo".
Proof.
  destruct (syncer_writes_no_sources (writer := tracing_writer (fun _ => None)) syncer_params false (fun _ => false)
    (fun _ => unlogged silent_sidecars) foo_registry "dev" foo_ctx "foo" "foo" "c1" DeploymentType syncer_locals
    {[ "bar" := "bar" ]} eq_refl ["c1"] (foo_sources "lb1") (foo_world []) syncer_result syncer_world) as [Hapi [Hr _]].
  - vm_compute. reflexivity.
  - split_and!; [exact (f_equal snd Hapi)|exact Hr|vm_compute; reflexivity].
Defined.

(** The services of the environment that is stored, and its event. *)
Definition foo_synced : option (list (string * list string) * option EventType) :=
  option_map (fun pe => (map (fun kv => (kv.1, map rsName kv.2)) (map_to_list (ieServices pe.2)), ieEvent pe.2))
    (stored "c1" "dev" (configuration syncer_result)).

Definition syncer_turn : option (sources * world (proc_world (unit * list writer_call))) :=
  process_source (writer := tracing_writer (fun _ => None)) syncer_params false (fun _ => false)
    (fun _ => unlogged silent_sidecars) foo_registry "dev" foo_ctx "foo" "foo" "c1" DeploymentType
    syncer_locals {[ "bar" := "bar" ]} "c1" (foo_sources "lb1") (foo_world []).


(** The address that an operator of the same cluster makes of this service: its name is a
    local name already, to which the namespace and the suffix are added again.  The names of
    the services of rollouts are without them. *)
Definition foo_operator : option (list (list string) * error) :=
  match BuildServiceEntriesFromIdentityConfig syncer_params (fun asset => (mkIdentityConfig asset ∅ ∅, None)) "c1"
          (configuration syncer_result) with
  | Some (ses, err) => Some (map (fun se => map weAddress (seEndpoints se)) ses, err)
  | None => None
  end.

Lemma local_name_doubled :
  foo_operator = Some ([["foo.ns.svc.cluster.local.ns.svc.cluster.local"]], None).
Proof. vm_compute. reflexivity. Qed.

(** *** A canary with two weighted services *)

Definition weights : gmap string WeightedService :=
  {[ "stable" := mkWeighted 75 (service_named "stable"); "canary" := mkWeighted 25 (service_named "canary");
     "idle" := mkWeighted 0 (service_named "idle") ]}.
Definition weighted_env : IdentityConfigEnvironment :=
  new_config_environment "dev" "ns" RolloutType None
    <| ieServiceMap := Some {[ defaultServiceKey := parseWeightedService weights {[ "http" := 8080 ]} ]} |>.


(** *** A deletion before another entry *)

(** An entry without endpoints, as after a deletion, blanks the services of the environment;
    storing a service for an entry that the loop comes to later panics. *)
Definition emptied_sources : sources :=
  foo_sources "lb1" <| entries := {[ "dev.foo.mesh" := foo_entry "lb1" <| seEndpoints := [] |>;
                                     "canary.dev.foo.mesh" := foo_entry "lb1" ]} |>.
Definition emptied_run (keys : list string) : option (option EventType) :=
  match process_entries (writer := tracing_writer (fun _ => None)) syncer_params "dev" foo_ctx "foo" DeploymentType
          syncer_locals "c1" "ns" {[ DeploymentType := service_named "foo" ]} (service_named "foo") {[ "http" := 8080 ]} ∅
          "foo.ns.svc.cluster.local" "lb1" keys emptied_sources (foo_world []) with
  | Some (v, _) => option_map (fun pe => ieEvent pe.2) (stored "c1" "dev" (configuration v))
  | None => None
  end.

Lemma store_after_deletion_panics :
  emptied_run ["canary.dev.foo.mesh"; "dev.foo.mesh"] = Some (Some Delete) /\
  emptied_run ["dev.foo.mesh"; "canary.dev.foo.mesh"] = None.
Proof. vm_compute. done. Qed.
