(* ===== verification/VirtualServiceSync.v ===== *)
(** * Custom virtual services

    The handler of [clusters/virtualservice_handler.go]: a virtual service that is not
    Admiral's is copied to the clusters that depend on its host, or to all of them, unless
    a rollout or the merge of custom virtual services takes it.  The goroutines of a
    synchronization are a step relation, as they share the variable of its result. *)
From S2P Require Import Prelude GoStrings Config Objects Metadata ServiceCache Policies AddressStore Writers.
From S2P Require Import Caches Dependents World VirtualServices Controller DeploymentController RolloutController.
From S2P Require Import ServiceEntries VsRouting SeState GatherServiceEntries.
From stdpp Require Import options.
Local Open Scope world_scope.

(** ** [clusters/handler.go] *)

Definition NamespaceKubeSystem := "kube-system".

Definition ShouldProcessVSCreatedBy (p : AdmiralParams) (vs : VirtualServiceObj) : bool :=
  let vsCreatedBy := GetProcessVSCreatedBy p in
  if is_empty vsCreatedBy then false
  else match mlookup (Labels (VsMeta vs)) CreatedBy with
       | None => false
       | Some createdBy => createdBy =?s vsCreatedBy
       end.

(** The last condition of the source gives the same result either way. *)
Definition IgnoreIstioResource (p : AdmiralParams) (exportTo : list string) (annotations : gomap) (namespace : string)
    : bool :=
  if mget annotations AdmiralIgnoreAnnotation =?s "true" then true
  else if (namespace =?s NamespaceIstioSystem) || (namespace =?s NamespaceKubeSystem) || (namespace =?s GetSyncNamespace p)
  then true
  else match exportTo with [] => false | _ => negb (str_in "*" exportTo) end.

Definition matchRolloutCanaryStrategy (rolloutStrategy : RolloutStrategy) (virtualServiceName : string) : bool :=
  match Canary rolloutStrategy with
  | Some canary =>
      match TrafficRouting canary with
      | Some (Some (Some vs)) => IstioVSName vs =?s virtualServiceName
      | _ => false
      end
  | None => false
  end.

Definition toUpperFirst (s : string) : string :=
  match s with "" => "" | String a s' => to_upper (String a "") +:+ s' end.

(** The expression ["dial tcp: lookup(.*): no such host"]; its dot is no line break.  The
    rest of a line after the first ["dial tcp: lookup"] has all that follow. *)
Definition line_break : Ascii.ascii := "010"%char.
Fixpoint after (sub s : string) : option string :=
  match cut_prefix s sub with
  | Some rest => Some rest
  | None => match s with "" => None | String _ s' => after sub s' end
  end.
Definition isDeadCluster (err : error) : bool :=
  match err with
  | None => false
  | Some e => existsb (fun line => match after "dial tcp: lookup" line with
                                   | Some rest => contains rest ": no such host"
                                   | None => false
                                   end) (split line_break e)
  end.

Definition vs_type := "VirtualService".

Section Sync.
Context {range : GoRange} {X : Type} (p : AdmiralParams) (rr : RemoteRegistry).
(** The client of a cluster, the text of an API error, and the object that a client returns
    next to an error. *)
Context (vsClients : string -> KubeClient X VirtualServiceObj) (message : api_error -> string)
  (vs_on_error : option VirtualServiceObj).

Definition vs_controller (cluster : string) : option VsController :=
  RoutingCaches rr !! cluster ≫= VirtualServiceController.

(** ** A cluster *)

(** The destinations in the cluster become those of the virtual service's host; one
    without hosts panics. *)
Definition mesh_host (host : string) (d : Destination) : Destination :=
  if has_suffix (dstHost d) DotLocalDomainSuffix then mkDestination host (dstSubset d) (dstPort d) else d.
Definition http_to_mesh (host : string) (r : HTTPRoute) : HTTPRoute :=
  r <| hrRoute := map (fun rd => rd <| rdDestination := mesh_host host (rdDestination rd) |>) (hrRoute r) |>.
Definition tls_to_mesh (host : string) (r : TLSRoute) : TLSRoute :=
  r <| trRoute := map (fun td => mkTlsDestination (mesh_host host (tdDestination td)) (tdWeight td)) (trRoute r) |>.
Definition local_destinations (vs : VirtualService) : bool :=
  existsb (fun r => existsb (fun rd => has_suffix (dstHost (rdDestination rd)) DotLocalDomainSuffix) (hrRoute r)) (vsHttp vs) ||
  existsb (fun r => existsb (fun td => has_suffix (dstHost (tdDestination td)) DotLocalDomainSuffix) (trRoute r)) (vsTls vs).
Definition to_mesh (vs : VirtualServiceObj) : option VirtualServiceObj :=
  let spec := VsSpec vs in
  match vsHosts spec with
  | host :: _ =>
      Some (vs <| VsSpec := spec <| vsHttp := map (http_to_mesh host) (vsHttp spec) |>
                                 <| vsTls := map (tls_to_mesh host) (vsTls spec) |> |>)
  | [] => if local_destinations spec then None else Some vs
  end.

(** The deletion under the old name is a best effort. *)
Definition delete_synced (cluster vSName syncNamespace oldName : string) : W X error :=
  on_api (@api_delete _ _ (vsClients cluster) syncNamespace oldName) ;;;
  err <- on_api (@deleteVirtualService _ (vsClients cluster) vSName syncNamespace);;
  wret (match err with
        | None | Some IsVSAlreadyDeletedErr => None
        | Some (VSApiError e) =>
            if isDeadCluster (Some (message e)) then None
            else Some (log_error "Delete" vs_type vSName cluster (message e))
        end).

Definition write_synced (rewrite : VirtualServiceObj -> option VirtualServiceObj) (cluster : string)
    (virtualService : VirtualServiceObj) (syncNamespace vSName : string) : W X error :=
  let oldVSname := Name (VsMeta virtualService) in
  let virtualService := virtualService <| VsMeta := VsMeta virtualService <| Name := vSName |> |> in
  r <- on_api (@api_get _ _ (vsClients cluster) syncNamespace vSName);;
  let exist := match r with inl vs => Some vs | inr NotFound => None | inr _ => vs_on_error end in
  if isDeadCluster (match r with inl _ => None | inr e => Some (message e) end) then wret None
  else match rewrite virtualService with
       | None => wpanic
       | Some virtualService =>
           err <- @addUpdateVirtualService range X (vsClients cluster) p cluster virtualService exist syncNamespace;;
           on_api (@api_delete _ _ (vsClients cluster) syncNamespace oldVSname) ;;;
           wret (message <$> err)
       end.

(** [syncVirtualServiceToDependentCluster] and [syncVirtualServiceToRemoteCluster]. *)
Definition sync_to_cluster (rewrite : VirtualServiceObj -> option VirtualServiceObj) (missing cluster : string)
    (virtualService : VirtualServiceObj) (event : EventType) (syncNamespace vSName : string) : W X error :=
  if is_nil (GatherServiceEntries.remoteControllers rr !! cluster)
  then wret (Some (log_message "Event" vs_type vSName cluster missing))
  else if is_nil (vs_controller cluster)
  then wret (Some (log_message "Event" vs_type vSName cluster "VirtualService controller not initialized for cluster"))
  else match event with
       | Delete => delete_synced cluster vSName syncNamespace (Name (VsMeta virtualService))
       | _ => write_synced rewrite cluster virtualService syncNamespace vSName
       end.

Definition syncVirtualServiceToDependentCluster (cluster : string) :=
  sync_to_cluster to_mesh "dependent controller not initialized for cluster" cluster.
Definition syncVirtualServiceToRemoteCluster (cluster : string) :=
  sync_to_cluster Some "remote controller not initialized for cluster" cluster.

(** ** All clusters

    [syncVirtualServicesToAllDependentClusters] and [...RemoteClusters]: a goroutine for
    each cluster.  A body is one step, and so are the reading and the writing of
    [allClusterErrors], which no lock protects. *)
Inductive goroutine := Started | Failed (err : string) | Appending (err : string) (old : error) | Finished.
Record sync_state := mkSync {
  sy_routines : list goroutine;
  allClusterErrors : error;
  sy_world : world X
}.

Section All.
Context (body : string -> W X error) (clusters : list string).

Definition sync_start (w : world X) : sync_state := mkSync (map (fun _ => Started) clusters) None w.

Definition after_body (err : error) : goroutine :=
  match err with None => Finished | Some e => Failed e end.

Inductive sync_step : sync_state -> sync_state -> Prop :=
| StepBody gs errs w i cluster err w' :
    gs !! i = Some Started -> clusters !! i = Some cluster -> body cluster w = Some (err, w') ->
    sync_step (mkSync gs errs w) (mkSync (<[i := after_body err]> gs) errs w')
| StepRead gs errs w i err :
    gs !! i = Some (Failed err) ->
    sync_step (mkSync gs errs w) (mkSync (<[i := Appending err errs]> gs) errs w)
| StepWrite gs errs w i err old :
    gs !! i = Some (Appending err old) ->
    sync_step (mkSync gs errs w) (mkSync (<[i := Finished]> gs) (AppendError old (Some err)) w).

(** [wg.Wait()] returns. *)
Definition sync_done (s : sync_state) : Prop := Forall (eq Finished) (sy_routines s).

(** What a synchronization can return and leave behind; nothing starts without a name for
    the copies. *)
Inductive sync_all (sourceCluster vSName : string) (w : world X) : error -> world X -> Prop :=
| SyncUnnamed :
    vSName = "" ->
    sync_all sourceCluster vSName w
      (Some (log_message "Event" vs_type "" sourceCluster "VirtualService generated name is empty")) w
| SyncWaited s :
    vSName <> "" -> rtc sync_step (sync_start w) s -> sync_done s ->
    sync_all sourceCluster vSName w (allClusterErrors s) (sy_world s).
End All.

(** The goroutines have deep copies of the virtual service. *)
Definition syncVirtualServicesToAllDependentClusters (clusters : list string) (virtualService : VirtualServiceObj)
    (event : EventType) (sourceCluster syncNamespace vSName : string) : world X -> error -> world X -> Prop :=
  sync_all (fun cluster => syncVirtualServiceToDependentCluster cluster virtualService event syncNamespace vSName)
    clusters sourceCluster vSName.
Definition syncVirtualServicesToAllRemoteClusters (clusters : list string) (virtualService : VirtualServiceObj)
    (event : EventType) (sourceCluster syncNamespace vSName : string) : world X -> error -> world X -> Prop :=
  sync_all (fun cluster => syncVirtualServiceToRemoteCluster cluster virtualService event syncNamespace vSName)
    clusters sourceCluster vSName.
End Sync.

(** ** The events of virtual services *)

Section Handler.
Context {range : GoRange} {X : Type} {reg : CustomDataRegistry X VirtualServiceObj} (p : AdmiralParams)
  (rr : RemoteRegistry).
(** Read-only mode, [RegistryClient != nil], the text of an API error, and
    [AdmiralCache.CnameClusterCache]. *)
Context (readOnly registry : bool) (message : api_error -> string) (CnameClusterCache : gmap string (gmap string string)).
(** The list of the rollouts of a cluster's namespace, and the handlers of workload events
    ([WorkloadHandlers.v]). *)
Context (list_rollouts : string -> string -> X -> X * (list RolloutObj + api_error)).
Context (HandleEventForRollout : event_ctx -> EventType -> RolloutObj -> string -> W X error)
  (HandleEventForDeployment : event_ctx -> EventType -> DeploymentObj -> string -> W X error).

(** The workload of an identity, or of the identity with a capital letter. *)
Definition cached_workload {A} (get : string -> string -> option A) (identity env : string) : option A :=
  match get identity env with Some a => Some a | None => get (toUpperFirst identity) env end.

(** The errors of the handlers are dropped. *)
Definition processVirtualService (ctx : event_ctx) (virtualService : VirtualServiceObj) (cluster : string) : W X error :=
  let m := VsMeta virtualService in
  if is_nil (GatherServiceEntries.remoteControllers rr !! cluster)
  then wret (Some ("remote controller for cluster " +:+ cluster +:+ " not found"))
  else match Labels m with
  | None => wret (Some ("virtualservice labels is nil on virtual service " +:+ Name m))
  | Some labels =>
      let identity := default "" (labels !! CreatedFor) in
      if is_empty identity
      then wret (Some ("virtualservice identity is empty in " +:+ CreatedFor +:+ " label for virtual service " +:+ Name m))
      else match Annotations m with
      | None => wret (Some ("virtualservice annotations is nil on virtual service " +:+ Name m))
      | Some annotations =>
          let envs := default "" (annotations !! CreatedForEnv) in
          if is_empty envs
          then wret (Some ("virtualservice environment is empty in " +:+ CreatedForEnv +:+
                           " annotations for virtualservice " +:+ Name m))
          else
            let env := hd "" (split "_"%char envs) in
            (match RolloutCaches rr !! cluster ≫= (fun c => cached_workload (RolloutCache_Get c) identity env) with
             | Some rollout => HandleEventForRollout ctx Update rollout cluster ;;; wret tt
             | None => wret tt
             end) ;;;
            (match DeploymentCaches rr !! cluster ≫= (fun c => cached_workload (DeploymentCache_Get c) identity env) with
             | Some deployment => HandleEventForDeployment ctx Update deployment cluster ;;; wret tt
             | None => wret tt
             end) ;;;
            wret None
      end
  end.

Fixpoint update_canaries (ctx : event_ctx) (vsName cluster : string) (rollouts : list RolloutObj) (found : bool)
    (allErrors : error) : W X (bool * error) :=
  match rollouts with
  | [] => wret (found, allErrors)
  | rollout :: rest =>
      if matchRolloutCanaryStrategy (RoStrategy rollout) vsName then
        err <- HandleEventForRollout ctx Update rollout cluster;;
        update_canaries ctx vsName cluster rest true
          (match err with
           | None => allErrors
           | Some e => AppendError allErrors (Some (log_message "Event" "Rollout" (Name (RoMeta rollout)) cluster e))
           end)
      else update_canaries ctx vsName cluster rest found allErrors
  end.

(** Whether a rollout of the namespace has the virtual service as its canary's. *)
Definition handleVirtualServiceEventForRollout (ctx : event_ctx) (virtualService : VirtualServiceObj) (clusterID : string)
    : W X (bool * error) :=
  let m := VsMeta virtualService in
  let failed msg := wret (false, Some (log_message "Event" vs_type (Name m) clusterID msg)) in
  if is_nil (GatherServiceEntries.remoteControllers rr !! clusterID)
  then failed "remote controller not initialized for cluster"
  else if is_nil (RolloutCaches rr !! clusterID)
  then failed "argo rollout controller not initialized for cluster"
  else
    rollouts <- on_api (list_rollouts clusterID (Namespace m));;
    match rollouts with
    | inr err => wret (false, Some (log_message "Get" "Rollout" ("Error finding rollouts in namespace=" +:+ Namespace m)
                                      clusterID (message err)))
    | inl items => update_canaries ctx (Name m) clusterID items false None
    end.

Definition callRegistryForVirtualService (ctx : event_ctx) (event : EventType) (clusterName : string)
    (vs : VirtualServiceObj) (vsName : string) : W X error :=
  if IsAdmiralStateSyncerMode p && IsStateSyncerCluster p clusterName && registry then
    match ctxTxId ctx with
    | None => wpanic
    | Some txId =>
        let ns := Namespace (VsMeta vs) in
        err <- on_api (match event with
                       | Add | Update => PutCustomData clusterName ns vsName vs_type txId vs
                       | Delete => DeleteCustomData clusterName ns vsName vs_type txId
                       end);;
        wret (match err with
              | None => None
              | Some e => Some (log_message (event_name event) vs_type vsName clusterName
                                  ("failed to " +:+ event_name event +:+ " VirtualService with err: " +:+ e))
              end)
    end
  else wret None.

(** The fields of a [VirtualServiceHandler]; a synchronization has the clusters, the
    virtual service, the event, the source cluster, the namespace and the name of the
    copies. *)
Abbreviation sync_resource := (list string -> VirtualServiceObj -> EventType -> string -> string -> string -> W X error).
Record VirtualServiceHandler := mkVsHandler {
  vhClusterID : string;
  vhUpdateResource : event_ctx -> VirtualServiceObj -> string -> W X (bool * error);
  vhSyncForDependentClusters : sync_resource;
  vhSyncForAllClusters : sync_resource;
  vhProcessVirtualService : event_ctx -> VirtualServiceObj -> string -> W X error
}.

Definition NewVirtualServiceHandler (clusterID : string) (syncDependents syncAll : sync_resource)
    : VirtualServiceHandler + string :=
  if is_empty clusterID then inr "clusterID is empty, cannot initialize VirtualServiceHandler"
  else inl (mkVsHandler clusterID handleVirtualServiceEventForRollout syncDependents syncAll processVirtualService).

Definition dependent_clusters_of (host : string) : W X (list string) :=
  c <- get_caches;;
  dependents <- on_heap (MapOfMaps_Get (CnameDependentClusterCache (pointers c)) host);;
  on_heap (Map_CopyJustValues dependents).

(** Without dependents of the host the virtual service goes to all clusters. *)
Definition sync_event (vh : VirtualServiceHandler) (ctx : event_ctx) (virtualService : VirtualServiceObj)
    (event : EventType) (host : string) : W X error :=
  let vSName := GenerateUniqueNameForVS (Namespace (VsMeta virtualService)) (Name (VsMeta virtualService)) in
  dependentClusters <- dependent_clusters_of host;;
  match dependentClusters with
  | _ :: _ =>
      let sourceClusters := (go_range 1 (default ∅ (CnameClusterCache !! host))).*2 in
      vhSyncForDependentClusters vh (dependentClusters ++ sourceClusters) virtualService event (vhClusterID vh)
        (GetSyncNamespace p) vSName ;;;
      wret None
  | [] =>
      err <- vhSyncForAllClusters vh (go_range 2 (GatherServiceEntries.remoteControllers rr)).*1 virtualService event
               (vhClusterID vh) (GetSyncNamespace p) vSName;;
      if is_nil err then
        callRegistryForVirtualService ctx event (vhClusterID vh) virtualService vSName ;;; wret None
      else wret None
  end.

Definition handleVirtualServiceEvent (vh : VirtualServiceHandler) (ctx : event_ctx) (virtualService : VirtualServiceObj)
    (event : EventType) : W X error :=
  if is_empty (GetSyncNamespace p) then wret (Some "expected valid value for sync namespace, got empty")
  else if ShouldProcessVSCreatedBy p virtualService
  then vhProcessVirtualService vh ctx virtualService (vhClusterID vh) ;;; wret None
  else
    let hosts := vsHosts (VsSpec virtualService) in
    if Nat.ltb 1 (length hosts) then wret None
    else
      '(isRolloutCanaryVS, err) <- (if GetArgoRolloutsEnabled p
                                    then vhUpdateResource vh ctx virtualService (vhClusterID vh)
                                    else wret (false, None));;
      match err with
      | Some _ => wret err
      | None =>
          if isRolloutCanaryVS : bool then wret None
          else match hosts with
               | [] => wret None
               | host :: _ => sync_event vh ctx virtualService event host
               end
      end.

(** [Added], [Updated] and [Deleted]. *)
Definition VirtualServiceHandler_event (vh : VirtualServiceHandler) (ctx : event_ctx) (obj : VirtualServiceObj)
    (event : EventType) : W X error :=
  if readOnly then wret None
  else if IgnoreIstioResource p (vsExportTo (VsSpec obj)) (Annotations (VsMeta obj)) (Namespace (VsMeta obj)) &&
          negb (ShouldProcessVSCreatedBy p obj)
  then wret None
  else handleVirtualServiceEvent vh ctx obj event.
End Handler.

(** ** The goroutines *)

(** The clusters one after the other; the errors in their order. *)
Fixpoint run_in_order {X} (body : string -> W X error) (order : list string) : W X (list error) :=
  match order with
  | [] => wret []
  | cluster :: rest => err <- body cluster;; errs <- run_in_order body rest;; wret (err :: errs)
  end.

Lemma run_in_order_snoc {X} (body : string -> W X error) order cluster w errs w1 err w2 :
  run_in_order body order w = Some (errs, w1) -> body cluster w1 = Some (err, w2) ->
  run_in_order body (order ++ [cluster]) w = Some (errs ++ [err], w2).
Proof.
  revert w errs. induction order as [|c order IH]; intros w errs; simpl.
  - intros [= <- <-] Hb. unfold wbnd. by rewrite Hb.
  - intros (e & w' & Hc & (es & w'' & Hr & [= <- <-])%wbnd_Some)%wbnd_Some Hb. unfold wbnd at 1. rewrite Hc.
    unfold wbnd. by rewrite (IH _ _ Hr Hb).
Qed.

Section Goroutines.
Context {X : Type} (body : string -> W X error) (clusters : list string) (w0 : world X).

Definition failing (g : goroutine) : bool :=
  match g with Failed _ | Appending _ _ => true | _ => false end.
Definition some_failing (gs : list goroutine) : Prop := exists i g, gs !! i = Some g /\ failing g = true.

(** The goroutines of the clusters in [order] have run their bodies. *)
Record sync_inv (s : sync_state) : Prop := {
  si_length : length (sy_routines s) = length clusters;
  si_runs : exists order outs,
    NoDup order /\ (forall i, i ∈ order <-> exists g, sy_routines s !! i = Some g /\ g <> Started) /\
    run_in_order body (omap (clusters !!.) order) w0 = Some (outs, sy_world s) /\
    (Exists is_Some outs <-> is_Some (allClusterErrors s) \/ some_failing (sy_routines s))
}.

Lemma started_start i g : map (fun _ => Started) clusters !! i = Some g -> g = Started.
Proof using Type. intros (? & -> & _)%list_lookup_fmap_Some. done. Qed.

Lemma sync_inv_start : sync_inv (sync_start clusters w0).
Proof using Type.
  split; [by apply length_map|]. exists [], []. split_and!; [apply NoDup_nil_2| |done|].
  - intros i. split; [by intros ?%elem_of_nil|]. by intros (g & Hg%started_start & Hn).
  - split; [by intros ?%Exists_nil|]. intros [[? ?]|(i & g & Hg%started_start & Hf)]; [done|by subst].
Qed.

Lemma some_failing_insert (gs : list goroutine) (i : nat) (g g' : goroutine) :
  gs !! i = Some g -> (some_failing (<[i := g']> gs) <-> failing g' = true \/ exists j h, j <> i /\ gs !! j = Some h /\ failing h = true).
Proof using Type.
  intros Hi. pose proof (lookup_lt_Some _ _ _ Hi) as Hlt. unfold some_failing. split.
  - intros (j & h & Hj & Hf). destruct (decide (i = j)) as [<-|Hne].
    + rewrite list_lookup_insert_eq in Hj by done. injection Hj as <-. by left.
    + rewrite list_lookup_insert_ne in Hj by done. right. by exists j, h.
  - intros [Hf|(j & h & Hne & Hj & Hf)].
    + exists i, g'. by rewrite list_lookup_insert_eq.
    + exists j, h. by rewrite list_lookup_insert_ne.
Qed.

Lemma some_failing_here (gs : list goroutine) (i : nat) (g : goroutine) :
  gs !! i = Some g -> (some_failing gs <-> failing g = true \/ exists j h, j <> i /\ gs !! j = Some h /\ failing h = true).
Proof using Type. intros Hi. rewrite <- (list_insert_id gs i g Hi) at 1. by apply (some_failing_insert gs i g g). Qed.

(** The indices of the goroutines that have started. *)
Lemma running_insert (gs : list goroutine) (i j : nat) (g g' : goroutine) :
  gs !! i = Some g -> g' <> Started ->
  (exists h, <[i := g']> gs !! j = Some h /\ h <> Started) <-> j = i \/ exists h, gs !! j = Some h /\ h <> Started.
Proof using Type.
  intros Hi Hg'. destruct (decide (i = j)) as [<-|Hne].
  - rewrite list_lookup_insert_eq by (by eapply lookup_lt_Some). split; [by left|]. intros _. by exists g'.
  - rewrite list_lookup_insert_ne by done. split; [by right|]. by intros [->|?].
Qed.

(** A goroutine that has run its body goes on. *)
Lemma sync_inv_later gs errs w errs' i g g' :
  sync_inv (mkSync gs errs w) -> gs !! i = Some g -> failing g = true -> g' <> Started ->
  (is_Some errs' \/ failing g' = true) -> (is_Some errs -> is_Some errs') ->
  sync_inv (mkSync (<[i := g']> gs) errs' w).
Proof using Type.
  intros [Hl (order & outs & Hn & Ho & Hr & He)] Hi Hg Hg' H1 H2. simpl in *.
  split; simpl; [by rewrite length_insert|]. exists order, outs. split_and!; [done| |done|].
  - intros j. rewrite Ho, (running_insert gs i j g) by done. split; [by right|]. intros [->|?]; [|done].
    exists g. by destruct g.
  - rewrite He, (some_failing_insert gs i g), (some_failing_here gs i g) by done. tauto.
Qed.

Lemma sync_inv_step s s' : sync_inv s -> sync_step body clusters s s' -> sync_inv s'.
Proof using Type.
  intros Hinv Hs. destruct Hs as [gs errs w i cluster err w' Hi Hc Hb|gs errs w i err Hi|gs errs w i err old Hi].
  - destruct Hinv as [Hl (order & outs & Hn & Ho & Hr & He)]. simpl in *.
    assert (i ∉ order) as Hnew. { rewrite Ho. by intros (g & Hg & Hne); rewrite Hi in Hg; injection Hg as <-. }
    split; simpl; [by rewrite length_insert|]. exists (order ++ [i]), (outs ++ [err]). split_and!.
    + apply NoDup_app. split_and!; [done|set_solver|apply NoDup_singleton].
    + intros j. rewrite elem_of_app, list_elem_of_singleton, Ho, (running_insert gs i j Started); [tauto|done|by destruct err].
    + rewrite omap_app. simpl. rewrite Hc. simpl. by eapply run_in_order_snoc.
    + rewrite Exists_app, Exists_cons, Exists_nil, He, (some_failing_insert gs i Started), (some_failing_here gs i Started) by done.
      destruct err; simpl; [|assert (~ is_Some (@None string)) by by intros [? ?]];
        assert (is_Some (Some "")) by (by eexists); assert (forall s : string, is_Some (Some s)) by (by eexists); intuition done.
  - apply (sync_inv_later gs errs w errs i (Failed err)); eauto.
  - apply (sync_inv_later gs errs w _ i (Appending err old)); eauto; [left|]; by destruct old; eexists.
Qed.

Lemma sync_inv_reach s : rtc (sync_step body clusters) (sync_start clusters w0) s -> sync_inv s.
Proof using Type.
  intros H. remember (sync_start clusters w0) as s0 eqn:E. assert (sync_inv s0) as Hi by (subst; apply sync_inv_start).
  clear E. induction H; [done|]. by eauto using sync_inv_step.
Qed.

(** The steps that a goroutine has left. *)
Definition routine_steps (g : goroutine) : nat :=
  match g with Started => 3 | Failed _ => 2 | Appending _ _ => 1 | Finished => 0 end.
Definition steps_left (s : sync_state (X := X)) : nat := sum_list_with routine_steps (sy_routines s).

Lemma steps_left_insert (gs : list goroutine) (i : nat) (g g' : goroutine) :
  gs !! i = Some g -> (routine_steps g' < routine_steps g)%nat ->
  (sum_list_with routine_steps (<[i := g']> gs) < sum_list_with routine_steps gs)%nat.
Proof using Type.
  revert i. induction gs as [|h gs IH]; intros [|i]; simpl; [done..| |].
  - intros [= ->]. lia.
  - intros Hi Hlt. specialize (IH i Hi Hlt). lia.
Qed.

Lemma steps_left_step s s' : sync_step body clusters s s' -> (steps_left s' < steps_left s)%nat.
Proof using Type.
  intros Hs. destruct Hs as [gs errs w i cluster err w' Hi _ _|gs errs w i err Hi|gs errs w i err old Hi];
    unfold steps_left; simpl; eapply steps_left_insert; [done|destruct err|done| |done|]; simpl; lia.
Qed.

(** Only a body that panics keeps a goroutine from going on. *)
Lemma sync_progress s :
  sync_inv s ->
  sync_done s \/ (exists s', sync_step body clusters s s') \/
  exists i cluster, sy_routines s !! i = Some Started /\ clusters !! i = Some cluster /\ body cluster (sy_world s) = None.
Proof using Type.
  intros [Hl _]. destruct (decide (Forall (fun g => routine_steps g = 0%nat) (sy_routines s))) as [Hd|Hd].
  { left. eapply Forall_impl; [exact Hd|]. by intros []. }
  right. apply not_Forall_Exists, Exists_exists in Hd as (g & [i Hi]%list_elem_of_lookup & Hg); [|intros ?; apply _].
  destruct s as [gs errs w]. simpl in *. destruct g as [|err|err old|]; [| | |done].
  - pose proof (lookup_lt_Some _ _ _ Hi) as Hlt. rewrite Hl in Hlt. apply lookup_lt_is_Some in Hlt as [cluster Hc].
    destruct (body cluster w) as [[err w']|] eqn:E; [|right; by exists i, cluster].
    left. eexists. by eapply StepBody.
  - left. eexists. by eapply StepRead.
  - left. eexists. by eapply StepWrite.
Qed.

Lemma steps_bounded n s : nsteps (sync_step body clusters) n (sync_start clusters w0) s -> (n <= 3 * length clusters)%nat.
Proof using Type.
  assert (forall s0, nsteps (sync_step body clusters) n s0 s -> (n + steps_left s <= steps_left s0)%nat) as Hn.
  { intros s0 H. induction H as [|n s0 s1 s2 Hs _ IH]; [lia|]. apply steps_left_step in Hs. lia. }
  intros H%Hn. change (steps_left (sync_start clusters w0)) with (sum_list_with routine_steps (map (fun _ => Started) clusters)) in H.
  assert (forall l : list string, sum_list_with routine_steps (map (fun _ => Started) l) = (3 * length l)%nat) as Hs.
  { induction l as [|c l IH]; simpl in *; lia. }
  rewrite Hs in H. lia.
Qed.

Lemma omap_seq : omap (clusters !!.) (seq 0 (length clusters)) = clusters.
Proof using Type.
  clear. generalize clusters as l. induction l as [|c l IH] using rev_ind; [done|].
  rewrite length_app, seq_app, omap_app. simpl. rewrite list_lookup_middle by done. f_equal.
  etrans; [|exact IH]. apply list_omap_ext, Forall2_same_length_lookup_2; [done|].
  intros i x y Hx Hy. rewrite Hx in Hy. injection Hy as <-. apply lookup_seq in Hx as [-> ?]. by rewrite lookup_app_l by lia.
Qed.

(** When all are done, the order has every cluster once. *)
Lemma sync_finished s :
  sync_inv s -> sync_done s ->
  exists order outs, order ≡ₚ clusters /\ run_in_order body order w0 = Some (outs, sy_world s) /\
    (allClusterErrors s = None <-> Forall (eq None) outs).
Proof using Type.
  intros [Hl (order & outs & Hn & Ho & Hr & He)] Hd. unfold sync_done in Hd. rewrite Forall_lookup in Hd.
  exists (omap (clusters !!.) order), outs. split_and!; [|done|].
  - assert (omap (clusters !!.) order ≡ₚ omap (clusters !!.) (seq 0 (length clusters))) as Hp; [|by rewrite omap_seq in Hp].
    apply omap_Permutation, NoDup_Permutation; [done|apply NoDup_seq|].
    intros i. rewrite Ho, elem_of_seq, <- Hl. split.
    + intros (g & Hg & _). apply lookup_lt_Some in Hg. lia.
    + intros [_ [g Hg]%lookup_lt_is_Some]. exists g. split; [done|]. by rewrite <- (Hd _ _ Hg).
  - assert (~ some_failing (sy_routines s)) as Hf. { intros (i & g & Hg & Hx). by rewrite <- (Hd _ _ Hg) in Hx. }
    assert (Forall (eq None) outs <-> ~ Exists is_Some outs) as ->.
    { rewrite Exists_exists, Forall_forall. split; [intros H (o & Ho' & Hs); by rewrite <- (H o Ho') in Hs|].
      intros H [e|] Ho'; [|done]. destruct H. by exists (Some e). }
    rewrite He, eq_None_not_Some. tauto.
Qed.

(** Whatever a synchronization returns, it has done the clusters one after the other, each
    once, or nothing. *)
Lemma sync_all_in_order sourceCluster vSName err w :
  sync_all body clusters sourceCluster vSName w0 err w ->
  vSName = "" /\ is_Some err /\ w = w0 \/
  exists order outs, order ≡ₚ clusters /\ run_in_order body order w0 = Some (outs, w) /\ (err = None <-> Forall (eq None) outs).
Proof using Type.
  intros [|s _ Hs Hd]; [by left; eauto|]. right. by apply sync_finished; [apply sync_inv_reach|].
Qed.

(** It returns when no body panics. *)
Lemma sync_all_returns sourceCluster vSName :
  (forall cluster w, is_Some (body cluster w)) -> exists err w, sync_all body clusters sourceCluster vSName w0 err w.
Proof using Type.
  intros Hb. destruct (decide (vSName = "")) as [He|Hne]; [do 2 eexists; by apply SyncUnnamed|].
  assert (forall n s, (steps_left s < n)%nat -> rtc (sync_step body clusters) (sync_start clusters w0) s ->
    exists s', rtc (sync_step body clusters) (sync_start clusters w0) s' /\ sync_done s') as Hgo.
  { intros n. induction n as [|n IH]; intros s Hn Hs; [lia|].
    destruct (sync_progress s) as [Hd|[[s' Hs']|(i & c & _ & _ & Hp)]];
      [by apply sync_inv_reach|by exists s| |by destruct (Hb c (sy_world s)) as [? ?]; congruence].
    apply (IH s'); [apply steps_left_step in Hs'; lia|by eapply rtc_r]. }
  destruct (Hgo _ _ (Nat.lt_succ_diag_r _) (rtc_refl _ _)) as (s & Hs & Hd).
  exists (allClusterErrors s), (sy_world s). by apply SyncWaited.
Qed.
End Goroutines.

Section Result.
Context {range : GoRange} {X : Type} (p : AdmiralParams) (rr : RemoteRegistry).
Context (vsClients : string -> KubeClient X VirtualServiceObj) (message : api_error -> string)
  (vs_on_error : option VirtualServiceObj).

(** C12: the goroutines of a synchronization, for the dependent clusters or for all, end
    after at most three steps each and nothing but a panic keeps them from it, whatever
    the schedule; then they have written to the clusters as if one after the other, each
    once, and although they share the variable of the result without a lock, it is nil
    exactly when no cluster failed. *)
Theorem vs_sync_result (dependent : bool) (clusters : list string) (vs : VirtualServiceObj) (event : EventType)
    (syncNamespace vSName : string) (w : world X) (n : nat) (s : sync_state) :
  let body cluster :=
    if dependent
    then syncVirtualServiceToDependentCluster p rr vsClients message vs_on_error cluster vs event syncNamespace vSName
    else syncVirtualServiceToRemoteCluster p rr vsClients message vs_on_error cluster vs event syncNamespace vSName in
  nsteps (sync_step body clusters) n (sync_start clusters w) s ->
  (n <= 3 * length clusters)%nat /\
  (sync_done s \/ (exists s', sync_step body clusters s s') \/
   exists i cluster, sy_routines s !! i = Some Started /\ clusters !! i = Some cluster /\ body cluster (sy_world s) = None) /\
  (sync_done s -> exists order outs, order ≡ₚ clusters /\ run_in_order body order w = Some (outs, sy_world s) /\
     (allClusterErrors s = None <-> Forall (eq None) outs)).
Proof using Type.
  intros body Hn. split; [by eapply steps_bounded|].
  assert (sync_inv body clusters w s) as Hi by (apply sync_inv_reach; by eapply rtc_nsteps_2).
  split; [by eapply sync_progress|]. by apply sync_finished.
Qed.
End Result.

(** *** Two clusters that no controller is known for *)

Definition sync_params : AdmiralParams := Params.zero_AdmiralParams.
Definition no_clusters : RemoteRegistry := mkRegistry ∅ ∅ ∅ ∅ ∅ ∅ ∅ None.
#[local] Instance silent_vs : KubeClient unit VirtualServiceObj := {|
  api_create _ _ s := (s, None); api_update _ _ s := (s, None); api_delete _ _ s := (s, None);
  api_get _ _ s := (s, inr NotFound) |}.
Definition empty_world {X} (x : X) : world X :=
  mkWorld x (mkHeap ∅ ∅ 0 ∅) (mkAdmiralCaches (mkCachePointers None None None None None) None None None None) empty_store ∅.
Definition some_vs (namespace name host : string) : VirtualServiceObj :=
  mkVirtualServiceObj (mkMeta name namespace None None 0 "") (mkVirtualService [host] [] [] [] []).

Definition missing_text (cluster : string) : string :=
  "op=Event type=VirtualService name=ns-foo cluster=" +:+ cluster +:+ " message=remote controller not initialized for cluster".
Definition missing_body (cluster : string) : W unit error :=
  syncVirtualServiceToRemoteCluster sync_params no_clusters (fun _ => silent_vs) (fun _ => "") None cluster
    (some_vs "ns" "foo" "foo.mesh") Add "sync" "ns-foo".

(** Both goroutines read the variable before one of them writes it. *)
Lemma racing_run :
  nsteps (sync_step missing_body ["c1"; "c2"]) 6 (sync_start ["c1"; "c2"] (empty_world tt))
    (mkSync [Finished; Finished] (Some (missing_text "c2")) (empty_world tt)).
Proof.
  eapply nsteps_l; [apply (StepBody _ _ _ _ _ 0 "c1" (Some (missing_text "c1")) (empty_world tt)); reflexivity|].
  eapply nsteps_l; [apply (StepBody _ _ _ _ _ 1 "c2" (Some (missing_text "c2")) (empty_world tt)); reflexivity|].
  eapply nsteps_l; [apply (StepRead _ _ _ _ _ 0 (missing_text "c1")); reflexivity|].
  eapply nsteps_l; [apply (StepRead _ _ _ _ _ 1 (missing_text "c2")); reflexivity|].
  eapply nsteps_l; [apply (StepWrite _ _ _ _ _ 0 (missing_text "c1") None); reflexivity|].
  apply nsteps_once. exact (StepWrite missing_body ["c1"; "c2"] [Finished; Appending (missing_text "c2") None]
    (Some (missing_text "c1")) (empty_world tt) 1 (missing_text "c2") None eq_refl).
Qed.

Lemma vs_sync_result_witness :
  exists s, sync_done s /\ exists order outs, order ≡ₚ ["c1"; "c2"] /\
    run_in_order missing_body order (empty_world tt) = Some (outs, sy_world s) /\ (allClusterErrors s = None <-> Forall (eq None) outs).
Proof.
  destruct (vs_sync_result sync_params no_clusters (fun _ => silent_vs) (fun _ => "") None false ["c1"; "c2"]
    (some_vs "ns" "foo" "foo.mesh") Add "sync" "ns-foo" (empty_world tt) 6 _ racing_run) as (_ & _ & Hr).
  eexists. split; [|apply Hr]; by repeat constructor.
Defined.

(** The variable of the errors is shared without a lock: an error can get lost. *)
Lemma sync_error_lost :
  exists s, rtc (sync_step missing_body ["c1"; "c2"]) (sync_start ["c1"; "c2"] (empty_world tt)) s /\ sync_done s /\
    fst <$> run_in_order missing_body ["c1"; "c2"] (empty_world tt) = Some [Some (missing_text "c1"); Some (missing_text "c2")] /\
    allClusterErrors s = Some (missing_text "c2").
Proof.
  eexists. split; [eapply rtc_nsteps_2, racing_run|]. split_and!; [by repeat constructor|reflexivity..].
Qed.

(** ** Clusters with working API servers

    A dead cluster's host cannot be looked up. *)
Abbreviation vs_store := (cluster_objects VirtualServiceObj).
Definition no_such_host : string := "dial tcp: lookup api.cluster on 10.0.0.1:53: no such host".

Section Store.
Context {range : GoRange} (p : AdmiralParams) (rr : RemoteRegistry) (dead : string -> bool).

Definition store_vs (cluster : string) : KubeClient vs_store VirtualServiceObj :=
  cluster_client (fun vs => Name (VsMeta vs)) dead (OtherError no_such_host) cluster.

Definition store_message (e : api_error) : string :=
  match e with OtherError m => m | NotFound => "not found" | AlreadyExists => "already exists" | Conflict => "conflict" end.

(** Objects are stored under their names. *)
Definition store_ok (s : vs_store) : Prop := forall c ns n o, s !! (c, ns, n) = Some o -> Name (VsMeta o) = n.

Lemma store_delete cluster ns name s :
  dead cluster = false -> (@api_delete _ _ (store_vs cluster) ns name s).1 = delete (cluster, ns, name) s.
Proof using Type.
  intros Hd. simpl. rewrite Hd. destruct (s !! (cluster, ns, name)) eqn:E; [done|]. by rewrite delete_id.
Qed.

(** The namespaces of the dependents are computed, if they are. *)
Definition exports_ok {Y} (host : string) (w : world Y) : Prop :=
  EnableExportTo p host = false \/
  caches_ok (w_heap w) (pointers (w_caches w)) /\ CnameDependentClusterNamespaceCache (pointers (w_caches w)) <> None.

(** What is stored of a copy: up to the namespaces it is exported to. *)
Definition copy_of (new stored : VirtualServiceObj) : Prop :=
  Labels (VsMeta stored) = Labels (VsMeta (vs_copy p new)) /\
  Annotations (VsMeta stored) = Annotations (VsMeta (vs_copy p new)) /\
  Name (VsMeta stored) = Name (VsMeta new) /\
  VsSpec stored = VsSpec new <| vsExportTo := vsExportTo (VsSpec stored) |>.

Lemma write_vs_store cluster new copy ns s :
  dead cluster = false -> store_ok s -> Name (VsMeta copy) = Name (VsMeta new) -> copy_of new copy ->
  exists stored, write_vs (client := store_vs cluster) copy (s !! (cluster, ns, Name (VsMeta new))) ns s =
    (<[(cluster, ns, Name (VsMeta new)) := stored]> s, None) /\ copy_of new stored.
Proof using Type.
  intros Hd Hs Hn (Hl & Ha & Hm & Hsp). unfold write_vs.
  destruct (s !! (cluster, ns, Name (VsMeta new))) as [e|] eqn:E.
  - unfold update_existing_vs. simpl. rewrite Hd, (Hs _ _ _ _ E), E. eexists. split; [done|].
    split_and!; simpl; [done..|by eapply Hs|done].
  - simpl. rewrite Hd, Hn, E. eexists. split; [done|]. by split_and!.
Qed.

Lemma add_update_store (cluster ns host : string) (hosts : list string) (new : VirtualServiceObj) (w : world vs_store) :
  dead cluster = false -> store_ok (w_api w) -> vsHosts (VsSpec new) = host :: hosts -> exports_ok host w ->
  exists w' stored,
    addUpdateVirtualService (client := store_vs cluster) p cluster new (w_api w !! (cluster, ns, Name (VsMeta new))) ns w
      = Some (None, w') /\
    w_api w' = <[(cluster, ns, Name (VsMeta new)) := stored]> (w_api w) /\ copy_of new stored.
Proof using Type.
  intros Hd Hs Hh Hx. unfold addUpdateVirtualService.
  assert (vsHosts (VsSpec (vs_copy p new)) = host :: hosts) as -> by done.
  assert (forall copy w1, w_api w1 = w_api w -> Name (VsMeta copy) = Name (VsMeta new) -> copy_of new copy ->
    exists w' stored, on_api (write_vs (client := store_vs cluster) copy (w_api w !! (cluster, ns, Name (VsMeta new))) ns) w1
      = Some (None, w') /\ w_api w' = <[(cluster, ns, Name (VsMeta new)) := stored]> (w_api w) /\ copy_of new stored) as Hw.
  { intros copy w1 Hw1 Hn Hc. destruct (write_vs_store cluster new copy ns (w_api w) Hd Hs Hn Hc) as (stored & Hr & Hst).
    unfold on_api. rewrite Hw1, Hr. by eexists _, stored. }
  destruct (EnableExportTo p host && _) eqn:Ex.
  - apply andb_true_iff in Ex as [Ex _]. destruct Hx as [Hx|[Hok Hp]]; [by rewrite Ex in Hx|].
    destruct (CnameDependentClusterNamespaceCache (pointers (w_caches w))) as [l|] eqn:El; [|done].
    destruct (get_sorted_run p _ l _ host cluster false Hok El) as (h' & Hr & _).
    unfold sortedDependentNamespaces, wbnd, get_caches, on_heap. rewrite Hr. cbn [wret].
    apply Hw; by repeat split.
  - unfold wbnd, wret. apply Hw; repeat split. by destruct new as [m []].
Qed.

Lemma on_api_store {A} (f : vs_store -> vs_store * A) (w : world vs_store) :
  on_api f w = Some ((f (w_api w)).2, w <| w_api := (f (w_api w)).1 |>).
Proof using Type. unfold on_api. by destruct (f (w_api w)). Qed.

Lemma dead_message : isDeadCluster (Some no_such_host) = true.
Proof using Type. vm_compute. reflexivity. Qed.

Lemma delete_synced_store (cluster vSName ns old : string) (w : world vs_store) :
  vSName <> old ->
  exists w', delete_synced store_vs store_message cluster vSName ns old w = Some (None, w') /\
    if dead cluster then w_api w' = w_api w
    else exists k, (k = vSName \/ (w_api w !! (cluster, ns, vSName) = None /\ k = to_lower vSName)) /\
           w_api w' = delete (cluster, ns, k) (delete (cluster, ns, old) (w_api w)).
Proof using Type.
  intros Hne. unfold delete_synced, wbnd. rewrite !on_api_store. cbn [w_api].
  destruct (dead cluster) eqn:Hd.
  - unfold deleteVirtualService. simpl. rewrite Hd. by eexists.
  - rewrite (store_delete _ _ _ _ Hd). set (s := delete (cluster, ns, old) (w_api w)).
    unfold deleteVirtualService. simpl. rewrite Hd.
    destruct (s !! (cluster, ns, vSName)) eqn:E; simpl; [eexists; split; [done|]; exists vSName; by split; [left|]|].
    assert (w_api w !! (cluster, ns, vSName) = None) as Hn by (by rewrite <- E; unfold s; rewrite lookup_delete_ne by congruence).
    destruct (s !! (cluster, ns, to_lower vSName)) eqn:E2; simpl; eexists; (split; [done|]).
    + exists (to_lower vSName). by split; [right|].
    + exists vSName. split; [by left|]. by rewrite delete_id.
Qed.

Lemma write_synced_store (cluster vSName ns host : string) (hosts : list string) (vs new : VirtualServiceObj)
    (w : world vs_store) :
  store_ok (w_api w) -> vsHosts (VsSpec new) = host :: hosts -> exports_ok host w -> vSName <> Name (VsMeta vs) ->
  Name (VsMeta new) = vSName -> to_mesh (vs <| VsMeta := VsMeta vs <| Name := vSName |> |>) = Some new ->
  exists w', write_synced p store_vs store_message None to_mesh cluster vs ns vSName w = Some (None, w') /\
    if dead cluster then w_api w' = w_api w
    else exists stored, copy_of new stored /\
           w_api w' = <[(cluster, ns, vSName) := stored]> (delete (cluster, ns, Name (VsMeta vs)) (w_api w)).
Proof using Type.
  intros Hs Hh Hx Hne Hname Hnew. unfold write_synced, wbnd at 1. rewrite on_api_store.
  cbn [api_get store_vs cluster_client fst snd]. destruct (dead cluster) eqn:Hd; cbn [fst snd];
    [cbn [store_message]; rewrite dead_message; by eexists|].
  assert (isDeadCluster (match match w_api w !! (cluster, ns, vSName) with Some o => inl o | None => inr NotFound end with
                         | inl _ => None | inr e => Some (store_message e) end) = false) as ->
    by (by destruct (w_api w !! (cluster, ns, vSName))).
  rewrite Hnew. subst vSName.
  destruct (add_update_store cluster ns host hosts new w Hd Hs Hh Hx) as (w1 & stored & Hr & Hw1 & Hc).
  assert (match match w_api w !! (cluster, ns, Name (VsMeta new)) with Some o => inl o | None => inr NotFound end with
          | inl vs0 => Some vs0 | inr NotFound => None | inr _ => None end = w_api w !! (cluster, ns, Name (VsMeta new))) as Hex
    by (by destruct (w_api w !! (cluster, ns, Name (VsMeta new)))).
  unfold wbnd at 1.
  replace (w <| w_api := w_api w |>) with w by (by destruct w).
  rewrite Hex, Hr. unfold wbnd. rewrite on_api_store. cbn [w_api]. eexists. split; [done|].
  exists stored. split; [done|]. pose proof (store_delete cluster ns (Name (VsMeta vs)) (w_api w1) Hd) as Hdel.
  cbn [wret w_api] in *. etrans; [exact Hdel|]. rewrite Hw1. apply delete_insert_ne. congruence.
Qed.

Definition http_destinations (vs : VirtualService) : list Destination :=
  flat_map (fun r => map rdDestination (hrRoute r)) (vsHttp vs).

Lemma to_mesh_spec vs host hosts :
  vsHosts (VsSpec vs) = host :: hosts ->
  exists new, to_mesh vs = Some new /\ VsMeta new = VsMeta vs /\ vsHosts (VsSpec new) = host :: hosts /\
    forall d, d ∈ http_destinations (VsSpec new) -> has_suffix (dstHost d) DotLocalDomainSuffix = true -> dstHost d = host.
Proof using Type.
  intros Hh. unfold to_mesh. rewrite Hh. eexists. split_and!; [done..|]. unfold http_destinations. simpl. intros d.
  rewrite list_elem_of_In, in_flat_map.
  intros (r & (r' & <- & _)%in_map_iff & (rd & <- & Hrd)%in_map_iff). simpl in Hrd. apply in_map_iff in Hrd as (rd' & <- & _).
  simpl. unfold mesh_host. destruct (has_suffix (dstHost (rdDestination rd')) _) eqn:E; [done|]. by rewrite E.
Qed.

Lemma http_of_copy new stored : copy_of new stored -> http_destinations (VsSpec stored) = http_destinations (VsSpec new).
Proof using Type. intros (_ & _ & _ & ->). done. Qed.

(** C11: a virtual service that is copied to a cluster with a working server.  A live
    cluster has afterwards, under the generated name, a copy with Admiral's annotation and
    without the ignored labels, in which the local destinations of the routes are replaced
    by the host; what was under the name of the original, in Admiral's namespace, is gone,
    and everything else is as before.  For a deletion both names are gone.  A dead cluster
    is passed over.  In each case there is no error. *)
Theorem custom_vs_copied (cluster syncNamespace vSName host : string) (hosts : list string) (vs : VirtualServiceObj)
    (event : EventType) (w : world vs_store) :
  is_Some (GatherServiceEntries.remoteControllers rr !! cluster) -> is_Some (vs_controller rr cluster) ->
  store_ok (w_api w) -> vsHosts (VsSpec vs) = host :: hosts -> exports_ok host w -> vSName <> Name (VsMeta vs) ->
  exists w',
    syncVirtualServiceToDependentCluster p rr store_vs store_message None cluster vs event syncNamespace vSName w =
      Some (None, w') /\
    let others s := delete (cluster, syncNamespace, Name (VsMeta vs)) s in
    if dead cluster then w_api w' = w_api w
    else match event with
         | Delete => exists k, (k = vSName \/ (w_api w !! (cluster, syncNamespace, vSName) = None /\ k = to_lower vSName)) /\
                       w_api w' = delete (cluster, syncNamespace, k) (others (w_api w))
         | _ => exists new stored, to_mesh (vs <| VsMeta := VsMeta vs <| Name := vSName |> |>) = Some new /\
                  copy_of new stored /\
                  (forall d, d ∈ http_destinations (VsSpec stored) -> has_suffix (dstHost d) DotLocalDomainSuffix = true ->
                     dstHost d = host) /\
                  w_api w' = <[(cluster, syncNamespace, vSName) := stored]> (others (w_api w))
         end.
Proof using Type.
  intros [rc Hrc] [vc Hvc] Hs Hh Hx Hne. unfold syncVirtualServiceToDependentCluster, sync_to_cluster. rewrite Hrc, Hvc.
  destruct (to_mesh_spec (vs <| VsMeta := VsMeta vs <| Name := vSName |> |>) host hosts) as (new & Hnew & Hm & Hhn & Hd); [done|].
  assert (Name (VsMeta new) = vSName) as Hname by by rewrite Hm.
  destruct (write_synced_store cluster vSName syncNamespace host hosts vs new w) as (w' & Hw & Hs'); [by rewrite ?Hhn..|].
  destruct event; [| |by apply delete_synced_store];
    (exists w'; split; [done|]; destruct (dead cluster); [done|]; destruct Hs' as (stored & Hc & ->);
     exists new, stored; split_and!; try done; by rewrite (http_of_copy _ _ Hc)).
Qed.
End Store.

(** *** A virtual service that has the name of one of Admiral's *)

Definition live_registry : RemoteRegistry :=
  mkRegistry {[ "c1" := mkRC "c1" None (Some "us-west-2") ]} ∅ ∅ ∅ ∅ ∅ {[ "c1" := mkRcRouting (Some (mkVsController None None)) None ]} None.
Definition generated_vs : VirtualServiceObj :=
  mkVirtualServiceObj (mkMeta "foo.mesh-vs" "sync" None (Some {[ created_by_key := "admiral" ]}) 0 "")
    (mkVirtualService ["foo.mesh"] [] [] [] []).
Definition namesake : VirtualServiceObj :=
  mkVirtualServiceObj (mkMeta "foo.mesh-vs" "ns" None None 0 "")
    (mkVirtualService ["bar.mesh"] [] [mkHTTPRoute "r" [] [mkRouteDestination (mkDestination "bar.ns.svc.cluster.local" "" None) 100 None] ""] [] []).
Definition namesake_store : vs_store := {[ ("c1", "sync", "foo.mesh-vs") := generated_vs ]}.
Definition sync_namesake (event : EventType) : option (error * world vs_store) :=
  syncVirtualServiceToDependentCluster sync_params live_registry (store_vs (fun _ => false)) store_message None "c1" namesake
    event "sync" "ns-foo.mesh-vs" (empty_world namesake_store).

Lemma custom_vs_copied_witness :
  exists w' new stored, sync_namesake Add = Some (None, w') /\ copy_of sync_params new stored /\
    map dstHost (http_destinations (VsSpec stored)) = ["bar.mesh"] /\
    w_api w' !! ("c1", "sync", "ns-foo.mesh-vs") = Some stored.
Proof.
  destruct (custom_vs_copied sync_params live_registry (fun _ => false) "c1" "sync" "ns-foo.mesh-vs" "bar.mesh" [] namesake
    Add (empty_world namesake_store)) as (w' & Hr & new & stored & Hnew & Hc & _ & Hw).
  - by eexists.
  - by eexists.
  - intros c ns n o Hk. unfold namesake_store in Hk. simpl in Hk. apply lookup_singleton_Some in Hk as [[= <- <- <-] <-]. done.
  - done.
  - by left.
  - done.
  - exists w', new, stored. split_and!; [exact Hr|exact Hc| |rewrite Hw; by apply lookup_insert_eq].
    rewrite (http_of_copy _ _ _ Hc). injection Hnew as <-. reflexivity.
Defined.

(** What Admiral generated under the name is deleted with the copies of the old scheme of
    names. *)
Lemma namesake_deleted :
  (fun r => w_api r.2 !! ("c1", "sync", "foo.mesh-vs")) <$> sync_namesake Add = Some None.
Proof. vm_compute. reflexivity. Qed.

(** ** What is synchronized *)

Section Guard.
Context {range : GoRange} {X : Type} {reg : CustomDataRegistry X VirtualServiceObj} (p : AdmiralParams)
  (rr : RemoteRegistry) (readOnly registry : bool) (CnameClusterCache : gmap string (gmap string string)).

(** A virtual service with one host, that is nobody's to ignore, is not merged, and is not
    the canary's of a rollout. *)
Definition to_be_synced (vh : VirtualServiceHandler (X := X)) (ctx : event_ctx) (vs : VirtualServiceObj) (w : world X) : Prop :=
  readOnly = false /\ IgnoreIstioResource p (vsExportTo (VsSpec vs)) (Annotations (VsMeta vs)) (Namespace (VsMeta vs)) = false /\
  ShouldProcessVSCreatedBy p vs = false /\ length (vsHosts (VsSpec vs)) = 1%nat /\ GetSyncNamespace p <> "" /\
  (GetArgoRolloutsEnabled p = true -> exists w1, vhUpdateResource vh ctx vs (vhClusterID vh) w = Some ((false, None), w1)).

(** A virtual service is synchronized only when Admiral may write, it is nobody's to
    ignore, is not one that is merged, has a single host, and no rollout has it as its
    canary's; under the generated name in Admiral's namespace, and to all clusters only if
    no cluster depends on the host: how anything else would be synchronized makes no
    difference. *)
Theorem vs_sync_guarded (vh vh' : VirtualServiceHandler) (ctx : event_ctx) (vs : VirtualServiceObj) (event : EventType) (w : world X) :
  let name := GenerateUniqueNameForVS (Namespace (VsMeta vs)) (Name (VsMeta vs)) in
  let synced sync clusters := sync clusters vs event (vhClusterID vh) (GetSyncNamespace p) name in
  vhClusterID vh' = vhClusterID vh -> vhUpdateResource vh' = vhUpdateResource vh ->
  vhProcessVirtualService vh' = vhProcessVirtualService vh ->
  (to_be_synced vh ctx vs w -> forall clusters w', clusters <> [] ->
     synced (vhSyncForDependentClusters vh) clusters w' = synced (vhSyncForDependentClusters vh') clusters w') ->
  (to_be_synced vh ctx vs w -> forall host w1 w', vsHosts (VsSpec vs) = [host] -> dependent_clusters_of host w1 = Some ([], w') ->
     let clusters := (go_range 2 (GatherServiceEntries.remoteControllers rr)).*1 in
     synced (vhSyncForAllClusters vh) clusters w' = synced (vhSyncForAllClusters vh') clusters w') ->
  VirtualServiceHandler_event p rr readOnly registry CnameClusterCache vh ctx vs event w =
  VirtualServiceHandler_event p rr readOnly registry CnameClusterCache vh' ctx vs event w.
Proof using Type.
  intros name synced Hid Hup Hpr Hdep Hall. unfold VirtualServiceHandler_event.
  destruct readOnly eqn:Hro; [done|].
  destruct (IgnoreIstioResource _ _ _ _ && _) eqn:Hig; [done|]. unfold handleVirtualServiceEvent.
  destruct (is_empty (GetSyncNamespace p)) eqn:Hns; [done|]. rewrite Hpr, Hid.
  destruct (ShouldProcessVSCreatedBy p vs) eqn:Hsp; [done|]. rewrite andb_true_r in Hig.
  destruct (Nat.ltb 1 _) eqn:Hlen; [done|]. rewrite Hup. apply wbnd_ext; [done|].
  intros [canary err] w1 Hw1. destruct err as [|]; [done|]. destruct canary; [done|].
  destruct (vsHosts (VsSpec vs)) as [|host [|]] eqn:Hh; [done| |done].
  assert (to_be_synced vh ctx vs w) as Hok.
  { split_and!; [done..|by rewrite Hh|by apply is_empty_false|]. intros Ha. rewrite Ha in Hw1. by exists w1. }
  unfold sync_event. rewrite Hid. apply wbnd_ext; [done|]. intros [|d ds] w2 Hw2.
  - apply wbnd_ext; [|done]. by eapply (Hall Hok).
  - apply wbnd_ext; [|done]. by apply (Hdep Hok).
Qed.
End Guard.

(** A virtual service in Admiral's own namespace is ignored. *)
#[local] Instance no_data : CustomDataRegistry unit VirtualServiceObj := {|
  PutCustomData _ _ _ _ _ _ s := (s, None); DeleteCustomData _ _ _ _ _ s := (s, None) |}.
Definition panicking_handler : VirtualServiceHandler (X := unit) :=
  mkVsHandler "c1" (fun _ _ _ => wret (false, None)) (fun _ _ _ _ _ _ => wpanic) (fun _ _ _ _ _ _ => wpanic) (fun _ _ _ => wret None).
Definition quiet_handler : VirtualServiceHandler (X := unit) :=
  mkVsHandler "c1" (fun _ _ _ => wret (false, None)) (fun _ _ _ _ _ _ => wret None) (fun _ _ _ _ _ _ => wret None) (fun _ _ _ => wret None).
Definition sync_ns_params : AdmiralParams := sync_params <| Params.SyncNamespace := "sync" |>.

Lemma vs_sync_guarded_witness :
  VirtualServiceHandler_event sync_ns_params no_clusters false false ∅ panicking_handler (mkCtx None None None None)
    (some_vs "sync" "foo" "foo.mesh") Add (empty_world tt) = Some (None, empty_world tt).
Proof.
  etrans; [apply (vs_sync_guarded sync_ns_params no_clusters false false ∅ panicking_handler quiet_handler)|reflexivity];
    [done..| |]; intros (_ & Hig & _); discriminate Hig.
Defined.
