(* ===== verification/DestinationRuleSync.v ===== *)
(** * Custom destination rules

    The handler of [clusters/destinationrule_handler.go]: a destination rule that is not
    to be ignored is copied, under its own name, to Admiral's namespace of the clusters
    that depend on its host, or of all clusters. *)
From S2P Require Import Prelude GoStrings Config Objects Metadata ServiceCache Policies AddressStore Writers.
From S2P Require Import Caches Dependents World VirtualServices Controller DeploymentController RolloutController.
From S2P Require Import ServiceEntries SeDrSet ClusterWriter GatherServiceEntries VirtualServiceSync.
From stdpp Require Import options.
Local Open Scope world_scope.

Definition dr_type := "DestinationRule".

Section Events.
Context {range : GoRange} {X : Type} (p : AdmiralParams) (rr : RemoteRegistry) (readOnly : bool).
(** The clusters with a controller of destination rules, the client of a cluster, and the
    object that a client returns next to an error. *)
Context (dr_controller : string -> bool) (drClients : string -> KubeClient X DestinationRuleObj)
  (dr_on_error : option DestinationRuleObj).

(** A failing deletion is only logged. *)
Definition delete_rule (obj : DestinationRuleObj) (cluster : string) : W X unit :=
  on_api (@api_delete _ _ (drClients cluster) (GetSyncNamespace p) (Name (DrMeta obj))) ;;; wret tt.

(** So is a failing write. *)
Definition copy_rule (obj : DestinationRuleObj) (cluster : string) (rc : RemoteController) : W X unit :=
  r <- on_api (@api_get _ _ (drClients cluster) (GetSyncNamespace p) (Name (DrMeta obj)));;
  let old := match r with inl o => Some o | inr _ => dr_on_error end in
  dependentNamespaces <- dr_namespaces p (ClusterID rc) obj;;
  on_api (@addUpdateDestinationRule _ (drClients cluster) p obj old (GetSyncNamespace p) dependentNamespaces) ;;;
  wret tt.

(** A cluster of either loop; an error ends the loop.  [copies] says whether the cluster
    gets a copy. *)
Definition rule_to_cluster (copies : bool) (event : EventType) (obj : DestinationRuleObj) (cluster : string) : W X error :=
  match remoteControllers rr !! cluster with
  | None => wret (Some (log_message "Event" dr_type (Name (DrMeta obj)) cluster "remote controller not initialized for cluster"))
  | Some rc =>
      if negb (dr_controller cluster)
      then wret (Some (log_message "Event" dr_type (Name (DrMeta obj)) cluster "DestinationRule controller not initialized for cluster"))
      else
        (match event with
         | Delete => delete_rule obj cluster
         | _ => if copies then copy_rule obj cluster rc
                else on_api (@api_get _ _ (drClients cluster) (GetSyncNamespace p) (Name (DrMeta obj))) ;;; wret tt
         end) ;;;
        wret None
  end.

Fixpoint rule_to_clusters (copies : string -> bool) (event : EventType) (obj : DestinationRuleObj) (clusters : list string)
    : W X error :=
  match clusters with
  | [] => wret None
  | cluster :: rest =>
      err <- rule_to_cluster (copies cluster) event obj cluster;;
      match err with
      | Some _ => wret err
      | None => rule_to_clusters copies event obj rest
      end
  end.

(** The dependents and the cluster itself, or all others. *)
Definition handleDestinationRuleEvent (clusterId : string) (event : EventType) (obj : DestinationRuleObj) : W X error :=
  c <- get_caches;;
  dependents <- on_heap (mbnd (MapOfMaps_Get (CnameDependentClusterCache (pointers c)) (drHost (DrSpec obj))) Map_Copy);;
  let dependents := default ∅ dependents in
  let others cluster := negb (cluster =?s clusterId) in
  if Nat.ltb 0 (size dependents)
  then rule_to_clusters others event obj (go_range 1 (<[clusterId := clusterId]> dependents)).*2
  else rule_to_clusters (fun _ => true) event obj (List.filter others (go_range 0 (remoteControllers rr)).*1).

(** [Added], [Updated] and [Deleted]. *)
Definition DestinationRuleHandler_event (clusterId : string) (event : EventType) (obj : DestinationRuleObj) : W X error :=
  if readOnly then wret None
  else if IgnoreIstioResource p (drExportTo (DrSpec obj)) (Annotations (DrMeta obj)) (Namespace (DrMeta obj)) then wret None
  else handleDestinationRuleEvent clusterId event obj.
End Events.

(** ** Clusters with working API servers *)

Abbreviation dr_store := (cluster_objects DestinationRuleObj).

Section Store.
Context {range : GoRange} (p : AdmiralParams) (rr : RemoteRegistry) (dr_controller : string -> bool) (dead : string -> bool).

Definition store_dr (cluster : string) : KubeClient dr_store DestinationRuleObj :=
  cluster_client (fun dr => Name (DrMeta dr)) dead (OtherError no_such_host) cluster.

Definition dr_store_ok (s : dr_store) : Prop := forall c ns n o, s !! (c, ns, n) = Some o -> Name (DrMeta o) = n.

(** What is stored of a rule. *)
Definition rule_copy (obj stored : DestinationRuleObj) : Prop := desired_dr obj stored /\ Name (DrMeta stored) = Name (DrMeta obj).

Lemma update_rule_store cluster ns obj new old s :
  dead cluster = false -> dr_store_ok s -> s !! (cluster, ns, Name (DrMeta obj)) = Some old -> rule_copy obj new ->
  exists stored, update_existing_dr (client := store_dr cluster) new old ns s =
    (<[(cluster, ns, Name (DrMeta obj)) := stored]> s, None) /\ rule_copy obj stored.
Proof using Type.
  intros Hd Hs E [(Hh & Ht & Hx & Hl & Ha) Hn]. unfold update_existing_dr. simpl. rewrite Hd, (Hs _ _ _ _ E), E.
  eexists. split; [done|]. repeat split; simpl; try done. by eapply Hs.
Qed.

Lemma add_rule_store cluster ns obj deps s :
  dead cluster = false -> dr_store_ok s ->
  exists stored, addUpdateDestinationRule (client := store_dr cluster) p obj (s !! (cluster, ns, Name (DrMeta obj))) ns deps s =
    (<[(cluster, ns, Name (DrMeta obj)) := stored]> s, None) /\ rule_copy obj stored.
Proof using Type.
  intros Hd Hs. unfold addUpdateDestinationRule. set (new := if _ && _ && _ then _ else _).
  assert (rule_copy obj new) as Hc.
  { unfold new. destruct (EnableExportTo _ _ && _ && _) eqn:E; [|done].
    apply andb_true_iff in E as [[_ E]%andb_true_iff _]. apply Nat.eqb_eq in E.
    repeat split. intros Hne. exfalso. apply Hne. simpl in E. by destruct (drExportTo (DrSpec obj)). }
  clearbody new. assert (Name (DrMeta new) = Name (DrMeta obj)) as Hn by apply Hc.
  destruct (s !! (cluster, ns, Name (DrMeta obj))) as [old|] eqn:E.
  - destruct (is_empty (Name (DrMeta old)) || is_empty (drHost (DrSpec old))); [|by apply update_rule_store].
    simpl. rewrite Hd, Hn, E. simpl. rewrite ?Hd, ?E. simpl. apply (update_rule_store _ _ _ _ old); [done..|].
    by destruct Hc as [(? & ? & ? & ? & ?) ?].
  - simpl. rewrite Hd, Hn, E. eexists. split; [done|]. by destruct Hc as [(? & ? & ? & ? & ?) ?].
Qed.

(** The namespaces of the clients are computed without an effect that matters. *)
Lemma namespaces_run {X} clusterID (obj : DestinationRuleObj) (w : world X) :
  exports_ok p (drHost (DrSpec obj)) w ->
  exists ns w1, dr_namespaces p clusterID obj w = Some (ns, w1) /\ w_api w1 = w_api w /\ exports_ok p (drHost (DrSpec obj)) w1.
Proof using Type.
  intros Hx. unfold dr_namespaces. destruct (EnableExportTo p _ && _ && _) eqn:E; [|by eexists [], w].
  apply andb_true_iff in E as [[Ex _]%andb_true_iff _]. destruct Hx as [Hx|[Hok Hp] ]; [by rewrite Ex in Hx|].
  destruct (CnameDependentClusterNamespaceCache (pointers (w_caches w))) as [l|] eqn:El; [|done].
  destruct (get_sorted_run p _ l _ (drHost (DrSpec obj)) clusterID false Hok El) as (h' & Hr & Hwf & Hu & _ & Ha & _ & _).
  unfold sortedDependentNamespaces, wbnd, get_caches, on_heap. rewrite Hr. eexists _, _. split_and!; [done..|].
  right. simpl. split; [|by rewrite El]. destruct Hok as [_ _ H3 H2 H3'].
  assert (forall d q, valid d (w_heap w) q -> valid d h' q) as Hv by (by intros d [q|] Hq; [apply Ha|]).
  split; [done|done|by apply Hv..].
Qed.

Abbreviation sync_ns := (GetSyncNamespace p).

(** What the clusters of [l] have after the event; nothing else is changed. *)
Definition rules_after (copies : string -> bool) (event : EventType) (obj : DestinationRuleObj) (l : list string) (s s' : dr_store) : Prop :=
  (forall c, c ∈ l -> dead c = false ->
     match event with
     | Delete => s' !! (c, sync_ns, Name (DrMeta obj)) = None
     | _ => copies c = true -> exists stored, s' !! (c, sync_ns, Name (DrMeta obj)) = Some stored /\ rule_copy obj stored
     end) /\
  (forall c ns n, ~ (c ∈ l /\ dead c = false /\ ns = sync_ns /\ n = Name (DrMeta obj) /\ (event = Delete \/ copies c = true)) ->
     s' !! (c, ns, n) = s !! (c, ns, n)).

Lemma rules_after_ok copies event obj l s s' : rules_after copies event obj l s s' -> dr_store_ok s -> dr_store_ok s'.
Proof using Type.
  intros [H1 H2] Hs c ns n o Ho.
  destruct (decide (c ∈ l /\ dead c = false /\ ns = sync_ns /\ n = Name (DrMeta obj) /\ (event = Delete \/ copies c = true))) as [Hd|Hd];
    [|rewrite H2 in Ho by done; by eapply Hs].
  destruct Hd as (Hc & Hd & -> & -> & Hor). specialize (H1 c Hc Hd). destruct event; [| |by rewrite Ho in H1].
  all: destruct Hor as [|Hor]; [done|]; destruct (H1 Hor) as (st & Hst & _ & Hn); rewrite Ho in Hst; by injection Hst as ->.
Qed.

(** What happens to one cluster. *)
Definition rule_effect (copies : bool) (event : EventType) (obj : DestinationRuleObj) (c : string) (s s' : dr_store) : Prop :=
  let k := (c, sync_ns, Name (DrMeta obj)) in
  if dead c then s' = s
  else match event with
       | Delete => s' = delete k s
       | _ => if copies then exists stored, rule_copy obj stored /\ s' = <[k := stored]> s else s' = s
       end.

Lemma delete_rule_store (obj : DestinationRuleObj) (c : string) (w : world dr_store) :
  exists s', delete_rule p store_dr obj c w = Some (tt, w <| w_api := s' |>) /\
    s' = if dead c then w_api w else delete (c, sync_ns, Name (DrMeta obj)) (w_api w).
Proof using Type.
  unfold delete_rule, wbnd, on_api. simpl. destruct (dead c); [by eexists|].
  destruct (w_api w !! (c, sync_ns, Name (DrMeta obj))) eqn:E; eexists; (split; [done|]); [done|]. by rewrite delete_id.
Qed.

Lemma copy_rule_store (obj : DestinationRuleObj) (c : string) (rc : RemoteController) (w : world dr_store) :
  dr_store_ok (w_api w) -> exports_ok p (drHost (DrSpec obj)) w ->
  exists w', copy_rule p store_dr None obj c rc w = Some (tt, w') /\ exports_ok p (drHost (DrSpec obj)) w' /\
    if dead c then w_api w' = w_api w
    else exists stored, rule_copy obj stored /\ w_api w' = <[(c, sync_ns, Name (DrMeta obj)) := stored]> (w_api w).
Proof using Type.
  intros Hs Hx. unfold copy_rule, wbnd at 1, on_api at 1. cbn [api_get store_dr cluster_client].
  set (r := if dead c then _ else _). assert (exists x, r = (w_api w, x) /\
    (dead c = false -> match x with inl o => Some o | inr _ => None end = w_api w !! (c, sync_ns, Name (DrMeta obj)))) as (x & -> & Hold).
  { unfold r. destruct (dead c); [by eexists|]. eexists. split; [done|]. by destruct (w_api w !! _). }
  replace (w <| w_api := w_api w |>) with w by (by destruct w). unfold wbnd at 1.
  destruct (namespaces_run (ClusterID rc) obj w Hx) as (ns & w1 & -> & Hw1 & Hx1). unfold wbnd, on_api. rewrite Hw1. destruct (dead c) eqn:Hd.
  - assert (forall old, exists e, addUpdateDestinationRule (client := store_dr c) p obj old sync_ns ns (w_api w) = (w_api w, e)) as Ha.
    { intros old. unfold addUpdateDestinationRule. destruct old as [e|]; [|simpl; rewrite Hd; by eexists].
      destruct (is_empty _ || _); simpl; rewrite ?Hd; [by eexists|]. unfold update_existing_dr, retryUpdatingDR, retry_update. simpl.
      rewrite Hd. by eexists. }
    destruct (Ha match x with inl o => Some o | inr _ => None end) as [e ->]. simpl. eexists. by split_and!.
  - rewrite (Hold eq_refl). destruct (add_rule_store c sync_ns obj ns (w_api w) Hd Hs) as (stored & -> & Hc).
    simpl. eexists. split_and!; [done|done|]. by exists stored.
Qed.

Lemma rule_to_cluster_store (copies : bool) (event : EventType) (obj : DestinationRuleObj) (c : string) (w : world dr_store) :
  is_Some (remoteControllers rr !! c) -> dr_controller c = true -> dr_store_ok (w_api w) -> exports_ok p (drHost (DrSpec obj)) w ->
  exists w', rule_to_cluster p rr dr_controller store_dr None copies event obj c w = Some (None, w') /\
    exports_ok p (drHost (DrSpec obj)) w' /\ rule_effect copies event obj c (w_api w) (w_api w').
Proof using Type.
  intros [rc Hrc] Hdc Hs Hx. unfold rule_to_cluster, rule_effect. rewrite Hrc, Hdc. cbn [negb].
  assert (forall (w1 : world dr_store), wbnd (delete_rule p store_dr obj c) (fun _ => wret (None : error)) w1 =
    match delete_rule p store_dr obj c w1 with Some (_, w2) => Some (None, w2) | None => None end) as Hbd by done.
  destruct event.
  3: { rewrite Hbd. destruct (delete_rule_store obj c w) as (s' & -> & ->). eexists. split_and!; [done|done|].
       simpl. by destruct (dead c). }
  all: destruct copies;
    [unfold wbnd; destruct (copy_rule_store obj c rc w Hs Hx) as (w' & -> & Hx' & He); by eexists|].
  all: unfold wbnd, on_api; simpl; destruct (dead c); eexists; by split_and!.
Qed.

Lemma rule_effect_after copies event obj c s s' :
  rule_effect (copies c) event obj c s s' -> rules_after copies event obj [c] s s'.
Proof using Type.
  unfold rule_effect. intros He. split.
  - intros c' ->%list_elem_of_singleton Hd. rewrite Hd in He.
    destruct event; [| |subst; apply lookup_delete_eq]; intros Hc; rewrite Hc in He;
      destruct He as (st & Hst & ->); exists st; by rewrite lookup_insert_eq.
  - intros c' ns n Hn. destruct (dead c) eqn:Hd; [by subst|].
    assert ((event = Delete \/ copies c = true) -> (c, sync_ns, Name (DrMeta obj)) <> (c', ns, n)) as Hne.
    { intros Hor [= <- <- <-]. apply Hn. split_and!; [by apply list_elem_of_singleton|done..]. }
    destruct event; [| |subst; rewrite lookup_delete_ne; [done|apply Hne; by left]].
    all: destruct (copies c); [|by subst]; destruct He as (st & _ & ->); rewrite lookup_insert_ne; [done|apply Hne; by right].
Qed.

Lemma rules_after_cons copies event obj c l s s1 s' :
  rules_after copies event obj [c] s s1 -> rules_after copies event obj l s1 s' -> rules_after copies event obj (c :: l) s s'.
Proof using Type.
  intros [H1 H2] [H3 H4]. split.
  - intros c' Hc Hd. destruct (decide (c' ∈ l)) as [Hl|Hl]; [by apply H3|].
    apply elem_of_cons in Hc as [->|]; [|done]. assert (c ∈ [c]) as Hin by by apply list_elem_of_singleton.
    specialize (H1 c Hin Hd). rewrite H4; [done|]. by intros [? _].
  - intros c' ns n Hn. rewrite H4, H2; [done| |].
    + intros ([-> | []%elem_of_nil]%elem_of_cons & Hr). apply Hn. split; [|done]. by apply list_elem_of_here.
    + intros (Hc & Hr). apply Hn. split; [|done]. by apply list_elem_of_further.
Qed.

(** The cluster has a remote controller with a controller of destination rules. *)
Definition ready (c : string) : Prop := is_Some (remoteControllers rr !! c) /\ dr_controller c = true.

Lemma rule_to_cluster_not_ready (copies : bool) (event : EventType) (obj : DestinationRuleObj) (c : string) (w : world dr_store) :
  ~ ready c -> exists e, rule_to_cluster p rr dr_controller store_dr None copies event obj c w = Some (Some e, w).
Proof using Type.
  intros Hn. unfold rule_to_cluster. destruct (remoteControllers rr !! c) as [rc|] eqn:E; [|by eexists].
  destruct (dr_controller c) eqn:Ed; [|by eexists]. exfalso. apply Hn. unfold ready. by rewrite E, Ed.
Qed.

(** The loop goes as far as the first cluster that is not ready, if there is one. *)
Lemma rule_to_clusters_store copies event (obj : DestinationRuleObj) : forall (l : list string) (w : world dr_store),
  dr_store_ok (w_api w) -> exports_ok p (drHost (DrSpec obj)) w ->
  exists err w' reached rest, rule_to_clusters p rr dr_controller store_dr None copies event obj l w = Some (err, w') /\
    (l = reached ++ rest)%list /\ (forall c, c ∈ reached -> ready c) /\
    match err with None => rest = [] | Some _ => exists c, head rest = Some c /\ ~ ready c end /\
    rules_after copies event obj reached (w_api w) (w_api w').
Proof using Type.
  induction l as [|c l IH]; intros w Hs Hx.
  { exists None, w, [], []. split_and!; [done|done|by intros ? ?%elem_of_nil|done|]. split; [by intros ? ?%elem_of_nil|done]. }
  assert ({ready c} + {~ ready c}) as [[Hrc Hdc]|Hn].
  { unfold ready. destruct (remoteControllers rr !! c), (dr_controller c); (by left) || (right; by intros [[] ?]). }
  - destruct (rule_to_cluster_store (copies c) event obj c w Hrc Hdc Hs Hx) as (w1 & Hr & Hx1 & He).
    apply rule_effect_after in He.
    destruct (IH w1) as (err & w' & reached & rest & Hr' & -> & Hall & Herr & Ha); [by eapply rules_after_ok|done|].
    exists err, w', (c :: reached), rest. split_and!; [|done| |done|by eapply rules_after_cons].
    + cbn [rule_to_clusters]. unfold wbnd. by rewrite Hr.
    + intros c' [->|Hin]%elem_of_cons; [by split|by apply Hall].
  - destruct (rule_to_cluster_not_ready (copies c) event obj c w Hn) as [e He].
    exists (Some e), w, [], (c :: l). split_and!; [|done|by intros ? ?%elem_of_nil|by exists c|split; [by intros ? ?%elem_of_nil|done] ].
    cbn [rule_to_clusters]. unfold wbnd. by rewrite He.
Qed.

(** The clusters that an event in [clusterId] concerns, given the dependents of the host. *)
Definition concerned (clusterId : string) (dependents : gmap string string) (c : string) : Prop :=
  if Nat.ltb 0 (size dependents) then exists k, <[clusterId := clusterId]> dependents !! k = Some c
  else is_Some (remoteControllers rr !! c) /\ c <> clusterId.

(** What an event in [clusterId] has done to the clusters of [reached], and that nothing
    else is changed. *)
Definition copied_in (clusterId : string) (event : EventType) (obj : DestinationRuleObj) (reached : list string) (s s' : dr_store) : Prop :=
  (forall c, c ∈ reached -> dead c = false ->
     match event with
     | Delete => s' !! (c, sync_ns, Name (DrMeta obj)) = None
     | _ => c <> clusterId -> exists stored, s' !! (c, sync_ns, Name (DrMeta obj)) = Some stored /\ rule_copy obj stored
     end) /\
  (forall c ns n, ~ (c ∈ reached /\ dead c = false /\ ns = sync_ns /\ n = Name (DrMeta obj) /\ (event = Delete \/ c <> clusterId)) ->
     s' !! (c, ns, n) = s !! (c, ns, n)).

(** The clusters that the handler goes over: those that the event concerns. *)
Lemma handler_clusters (clusterId : string) (event : EventType) (obj : DestinationRuleObj) (dependents : gomap) (w : world dr_store) :
  mbnd (MapOfMaps_Get (CnameDependentClusterCache (pointers (w_caches w))) (drHost (DrSpec obj))) Map_Copy (w_heap w) =
    Done dependents (w_heap w) ->
  exists copies l, handleDestinationRuleEvent p rr dr_controller store_dr None clusterId event obj w =
      rule_to_clusters p rr dr_controller store_dr None copies event obj l w /\
    (forall c, c ∈ l <-> concerned clusterId (default ∅ dependents) c) /\
    (forall c, c ∈ l -> copies c = true <-> c <> clusterId).
Proof using Type.
  intros Hdep. unfold handleDestinationRuleEvent, concerned.
  unfold wbnd at 1, get_caches, wbnd at 1, on_heap. rewrite Hdep. replace (w <| w_heap := w_heap w |>) with w by (by destruct w).
  assert (forall c, negb (c =?s clusterId) = true <-> c <> clusterId) as Hne by (intros c; by rewrite negb_true_iff, seqb_neq).
  destruct (Nat.ltb 0 (size (default ∅ dependents))).
  - eexists _, _. split; [reflexivity|]. split; [|intros c _; apply Hne]. intros c. rewrite list_elem_of_fmap.
    split; [intros ([k v] & -> & Hk); apply go_range_elem in Hk; by exists k|].
    intros [k Hk]. exists (k, c). split; [done|]. by apply go_range_elem.
  - eexists _, _. split; [reflexivity|].
    assert (forall c, c ∈ List.filter (fun cluster => negb (cluster =?s clusterId)) (go_range 0 (remoteControllers rr)).*1 <->
      is_Some (remoteControllers rr !! c) /\ c <> clusterId) as Hl; [|split; [exact Hl|by intros c [_ ?]%Hl] ].
    intros c. rewrite list_elem_of_In, filter_In, <- list_elem_of_In, Hne, list_elem_of_fmap.
    split; [intros (([k v] & -> & Hk) & Hn); apply go_range_elem in Hk; split; [by eexists|done] |].
    intros ([rc Hk] & Hn). split; [|done]. exists (c, rc). split; [done|]. by apply go_range_elem.
Qed.

End Store.

(** ** Two clusters *)

Definition dr_registry : RemoteRegistry :=
  mkRegistry {[ "c1" := mkRC "c1" None None; "c2" := mkRC "c2" None None ]} ∅ ∅ ∅ ∅ ∅ ∅ None.
Definition some_rule (namespace host : string) : DestinationRuleObj :=
  mkDestinationRuleObj (mkMeta "rule" namespace None None 0 "") (mkDestinationRule host None []).
(** [dependents] of [foo.mesh]. *)
Definition dr_world (dependents : gmap string string) (s : dr_store) : world dr_store :=
  mkWorld s (mkHeap {[ 1%nat := dependents ]} {[ (2%nat, 2%nat) := {[ "foo.mesh" := Some 1%nat ]} ]} 3 ∅)
    (mkAdmiralCaches (mkCachePointers (Some 2%nat) None None None None) None None None None) empty_store ∅.
Definition dr_params : AdmiralParams := sync_params <| Params.SyncNamespace := "sync" |>.
Definition dr_event (clusterId : string) (event : EventType) (obj : DestinationRuleObj) (w : world dr_store) :
    option (error * world dr_store) :=
  DestinationRuleHandler_event dr_params dr_registry false (fun _ => true) (store_dr (fun _ => false)) None clusterId event obj w.
Definition rules_in (r : option (error * world dr_store)) : option (list (string * string)) :=
  (fun r => map (fun kv => (kv.1.1.1, drHost (DrSpec kv.2))) (map_to_list (w_api r.2))) <$> r.

Definition one_dependent : gmap string string := {[ "c2" := "c2" ]}.


(** A copy is stored under the name of the original: two rules of that name, in different
    namespaces, are one copy, and the deletion of one of them deletes it. *)
Lemma namesake_rules_collide :
  let first := dr_event "c1" Add (some_rule "ns1" "foo.mesh") (dr_world {[ "c2" := "c2" ]} ∅) in
  let second := r ← first; dr_event "c1" Add (some_rule "ns2" "bar.mesh") r.2 in
  rules_in first = Some [("c2", "foo.mesh")] /\ rules_in second = Some [("c2", "bar.mesh")] /\
  rules_in (r ← second; dr_event "c1" Delete (some_rule "ns2" "bar.mesh") r.2) = Some [].
Proof. cbv zeta. split_and!; vm_compute; reflexivity. Qed.

(** A rule that was copied to all clusters stays in those that do not depend on the host
    once others do. *)
Lemma copies_of_independents_stay :
  let first := dr_event "c1" Add (some_rule "ns" "foo.mesh") (dr_world ∅ ∅) in
  rules_in first = Some [("c2", "foo.mesh")] /\
  rules_in (r ← first; dr_event "c1" Delete (some_rule "ns" "foo.mesh") (dr_world {[ "c1" := "c1" ]} (w_api r.2))) =
    Some [("c2", "foo.mesh")].
Proof. cbv zeta. split; vm_compute; reflexivity. Qed.
