(* ===== verification/RoutingPolicies.v ===== *)
(** * Routing policies and their envoy filters

    [clusters/routingpolicy_handler.go] and [clusters/envoyfilter.go]: a routing policy of
    an identity becomes an envoy filter for each dependent of the identity, in each cluster
    that has the dependent and for each version of the proxies; the filters of a policy
    are remembered for its deletion. *)
From S2P Require Import Prelude GoStrings Config Objects Metadata ServiceCache Policies AddressStore Writers.
From S2P Require Import Caches Dependents World Controller DeploymentController RolloutController.
From S2P Require Import ServiceEntries WorkloadHandlers GatherServiceEntries DependencyProcessing.
From stdpp Require Import options.
Local Open Scope world_scope.

(** ** The state *)

(** [RoutingPolicyCache], by identity, environment and name, and
    [RoutingPolicyFilterCache], by the key of the policy, cluster and filter name; its
    values are namespaces. *)
Abbreviation policies_by_env := (gmap string (gmap string RoutingPolicyObj)).
Abbreviation filters_by_cluster := (gmap string (gmap string string)).
Record rp_state (X : Type) := mkRpState {
  rp_api : X;
  RoutingPolicyCache : gmap string policies_by_env;
  RoutingPolicyFilterCache : gmap string filters_by_cluster
}.
Arguments mkRpState {X} _ _ _.
Arguments rp_api {X} _.
Arguments RoutingPolicyCache {X} _.
Arguments RoutingPolicyFilterCache {X} _.
#[export] Instance eta_rp_state X : Settable (rp_state X) := fun s =>
  mkRpState (rp_api s) (RoutingPolicyCache s) (RoutingPolicyFilterCache s).

Definition RoutingPolicyCache_GetForIdentity `{!GoRange} (identity : string) (c : gmap string policies_by_env)
    : list RoutingPolicyObj :=
  flat_map (fun em => (go_range 1 em.2).*2) (go_range 0 (default ∅ (c !! identity))).

Definition RoutingPolicyCache_Get (identity env name : string) (c : gmap string policies_by_env) : option RoutingPolicyObj :=
  c !! identity ≫= fun m => m !! env ≫= fun m' => m' !! name.

(** A policy is not nil. *)
Definition RoutingPolicyCache_Put (identity env name : string) (rp : RoutingPolicyObj) (c : gmap string policies_by_env)
    : gmap string policies_by_env :=
  let byEnv := default ∅ (c !! identity) in
  <[identity := <[env := <[name := rp]> (default ∅ (byEnv !! env))]> byEnv]> c.

Definition RoutingPolicyCache_Delete (p : AdmiralParams) (readOnly : bool) (identity env name : string)
    (c : gmap string policies_by_env) : gmap string policies_by_env :=
  if readOnly then c
  else if GetEnableRoutingPolicy p then
    match RoutingPolicyCache_Get identity env name c with
    | None => c
    | Some _ =>
        alter (fun byEnv =>
          let policies := delete name (default ∅ (byEnv !! env)) in
          if Nat.eqb (size policies) 0 then delete env byEnv else <[env := policies]> byEnv) identity c
    end
  else c.

Definition routingPolicyFilterCache_Put (identityEnvKey clusterId filterName filterNamespace : string)
    (c : gmap string filters_by_cluster) : gmap string filters_by_cluster :=
  let byCluster := default ∅ (c !! identityEnvKey) in
  <[identityEnvKey := <[clusterId := <[filterName := filterNamespace]> (default ∅ (byCluster !! clusterId))]> byCluster]> c.

Definition routingPolicyFilterCache_Get (identityEnvKey : string) (c : gmap string filters_by_cluster) : filters_by_cluster :=
  default ∅ (c !! identityEnvKey).

Definition routingPolicyFilterCache_Delete (p : AdmiralParams) (readOnly : bool) (identityEnvKey : string)
    (c : gmap string filters_by_cluster) : gmap string filters_by_cluster :=
  if readOnly then c else if GetEnableRoutingPolicy p then delete identityEnvKey c else c.

(** ** The filter *)

Definition WASMPath := "wasmPath".
Definition WasmPathValue := "/etc/istio/extensions/dynamicrouter.wasm".
Definition hostsKey := "hosts: ".
Definition pluginKey := "plugin: ".
Definition AssetAlias := "assetAlias".
Definition nl : string := String (Ascii.ascii_of_nat 10) "".
Definition associated_name := "associated-routing-policy-name".
Definition associated_identity := "associated-routing-policy-identity".

Definition getEnvoyFilterNamespace : string := NamespaceIstioSystem.

Definition getHosts (rp : RoutingPolicyObj) : string :=
  hostsKey +:+ trim_suffix (foldl (fun hosts host => hosts +:+ host +:+ ",") "" (RpHosts rp)) ",".
Definition getPlugin (rp : RoutingPolicyObj) : string := pluginKey +:+ RpPlugin rp.

Section Filter.
Context {range : GoRange} (p : AdmiralParams).

Definition GetWorkloadSelectorLabels (assetAlias : string) : gmap string string :=
  let '(partition, originalAssetAlias) :=
    if IsAGateway p assetAlias then GetPartitionAndOriginalIdentifierFromPartitionedIdentifier p assetAlias else ("", "") in
  if negb (is_empty partition) && negb (is_empty originalAssetAlias)
  then <[AssetAlias := originalAssetAlias]> {[ GetPartitionIdentifier p := partition ]}
  else {[ AssetAlias := assetAlias ]}.

Definition getEnvoyFilterSpec (workloadSelectorLabels : gmap string string) (filterName : string) (typedConfig : pb_value)
    (filterContext subfilter insertPosition filterVersion : string) : EnvoyFilter :=
  mkEnvoyFilter workloadSelectorLabels "HTTP_FILTER" filterContext
    ("^" +:+ replace_all filterVersion "." "\." +:+ ".*") "envoy.filters.network.http_connection_manager" subfilter
    insertPosition filterName typedConfig.

(** The lines of the configuration, and the path of the plugin. *)
Definition config_lines (rp : RoutingPolicyObj) : string * string :=
  foldl (fun '(config, wasmPath) '(key, val) =>
    if key =?s WASMPath then (config, WasmPathValue) else (config +:+ key +:+ ": " +:+ val +:+ nl, wasmPath))
    ("", "") (go_range 0 (RpConfig rp)).

Definition constructEnvoyFilterStruct (rp : RoutingPolicyObj) (workloadSelectorLabels : gmap string string)
    (filterVersion filterName : string) : EnvoyFilter :=
  let '(config, wasmPath) := config_lines rp in
  let additional := GetEnvoyFilterAdditionalConfig p in
  let config := if is_empty additional then config else config +:+ additional +:+ nl in
  let config := config +:+ getHosts rp +:+ nl +:+ getPlugin rp in
  let configuration := PbStruct [("@type", PbString "type.googleapis.com/google.protobuf.StringValue"); ("value", PbString config)] in
  let vmConfig := PbStruct [("runtime", PbString "envoy.wasm.runtime.v8"); ("vm_id", PbString filterName);
    ("code", PbStruct [("local", PbStruct [("filename", PbString wasmPath)])])] in
  let typedConfigValue := PbStruct [("config", PbStruct [("configuration", configuration); ("vm_config", vmConfig)])] in
  let typedConfig := PbStruct [("@type", PbString "type.googleapis.com/udpa.type.v1.TypedStruct");
    ("type_url", PbString "type.googleapis.com/envoy.extensions.filters.http.wasm.v3.Wasm"); ("value", typedConfigValue)] in
  getEnvoyFilterSpec workloadSelectorLabels "dynamicRoutingFilterPatch" typedConfig "SIDECAR_OUTBOUND"
    "envoy.filters.http.router" "INSERT_BEFORE" filterVersion.

Definition envoy_filter_name (rp : RoutingPolicyObj) (nameSha dependentSha version : string) : string :=
  to_lower (RpPlugin rp) +:+ "-dr-" +:+ nameSha +:+ "-" +:+ dependentSha +:+ "-" +:+ version.

Definition envoy_filter (rp : RoutingPolicyObj) (filterNamespace envoyFilterName dependent version : string) : EnvoyFilterObj :=
  mkEnvoyFilterObj
    (mkMeta envoyFilterName filterNamespace None
       (Some (<[associated_name := Name (RpMeta rp)]> {[ associated_identity := GetRoutingPolicyIdentity p rp ]})) 0 "")
    (constructEnvoyFilterStruct rp (GetWorkloadSelectorLabels dependent) version envoyFilterName).

(** The key of the filters of a policy. *)
Definition filter_key (rp : RoutingPolicyObj) : string :=
  Name (RpMeta rp) +:+ GetRoutingPolicyIdentity p rp +:+ GetRoutingPolicyEnv p rp.
End Filter.

(** ** Processing *)

Section Processing.
Context {range : GoRange} {X : Type} {reg : CustomDataRegistry X RoutingPolicyObj} (p : AdmiralParams) (rr : RemoteRegistry).
(** The client of a cluster, the text of an API error, [common.GetSha1], read-only mode and
    [RegistryClient != nil]; the start of the registry and the time of the warm-up check. *)
Context (efClients : string -> KubeClient X EnvoyFilterObj) (message : api_error -> string)
  (getSha1 : string -> string + string) (readOnly registry : bool) (startTime now : Z).

Abbreviation state := (dep_state (rp_state X)).

Definition on_policies {A} (f : rp_state X -> rp_state X * A) : W state A :=
  on_api (fun s => let '(r, a) := f (dp_rest s) in (s <| dp_rest := r |>, a)).
Definition on_filters {A} (f : X -> X * A) : W state A :=
  on_policies (fun s => let '(x, a) := f (rp_api s) in (s <| rp_api := x |>, a)).
Definition change_policies (f : rp_state X -> rp_state X) : W state unit := on_policies (fun s => (f s, tt)).

(** The errors of the cluster, the last first. *)
Definition prepend_error (err2 : option api_error) (err : error) : error :=
  match err2 with None => err | Some e => AppendError (Some (message e)) err end.

Definition write_filter (clusterID : string) (envoyfilter : EnvoyFilterObj) (eventType : EventType) (err : error) : W state error :=
  let m := EfMeta envoyfilter in
  match eventType with
  | Delete => wret err
  | _ =>
      r <- on_filters (@api_get _ _ (efClients clusterID) (Namespace m) (Name m));;
      match r with
      | inr NotFound =>
          err2 <- on_filters (@api_create _ _ (efClients clusterID) (Namespace m) envoyfilter);; wret (prepend_error err2 err)
      | inl filter =>
          err2 <- on_filters (@api_update _ _ (efClients clusterID) (Namespace m)
                                (envoyfilter <| EfMeta := m <| ResourceVersion := ResourceVersion (EfMeta filter) |> |>));;
          wret (prepend_error err2 err)
      | inr err1 => wret (prepend_error (Some err1) err)
      end
  end.

Fixpoint write_versions (clusterID : string) (rp : RoutingPolicyObj) (eventType : EventType) (dependent nameSha dependentSha : string)
    (versions : list string) (err : error) : W state error :=
  match versions with
  | [] => wret err
  | version :: rest =>
      let filterNamespace := getEnvoyFilterNamespace in
      let envoyFilterName := envoy_filter_name rp nameSha dependentSha version in
      change_policies (fun s => s <| RoutingPolicyFilterCache :=
        routingPolicyFilterCache_Put (filter_key p rp) clusterID envoyFilterName filterNamespace (RoutingPolicyFilterCache s) |>) ;;;
      err <- write_filter clusterID (envoy_filter p rp filterNamespace envoyFilterName dependent version) eventType err;;
      write_versions clusterID rp eventType dependent nameSha dependentSha rest err
  end.

(** The list of the filters is not used by the caller. *)
Definition createOrUpdateEnvoyFilter (clusterID : string) (rp : RoutingPolicyObj) (eventType : EventType)
    (workloadIdentityKey : string) : W state error :=
  match getSha1 (Name (RpMeta rp) +:+ GetRoutingPolicyEnv p rp +:+ GetRoutingPolicyIdentity p rp) with
  | inr err => wret (Some err)
  | inl routingPolicyNameSha =>
      match getSha1 workloadIdentityKey with
      | inr err => wret (Some err)
      | inl dependentIdentitySha =>
          match GetEnvoyFilterVersion p with
          | [] => wret (Some "envoy filter version not supplied")
          | versions => write_versions clusterID rp eventType workloadIdentityKey routingPolicyNameSha dependentIdentitySha versions None
          end
      end
  end.

Fixpoint process_dependents (eventType : EventType) (rp : RoutingPolicyObj) (clusterID : string) (dependents : list string)
    (err : error) : W state error :=
  match dependents with
  | [] => wret err
  | dependent :: rest =>
      clusters <- clusters_of dependent;;
      m <- on_heap (Map_Copy clusters);;
      match mlookup m clusterID with
      | None => process_dependents eventType rp clusterID rest err
      | Some _ =>
          err1 <- createOrUpdateEnvoyFilter clusterID rp eventType dependent;;
          process_dependents eventType rp clusterID rest (AppendError err err1)
      end
  end.

Fixpoint process_clusters (eventType : EventType) (rp : RoutingPolicyObj) (dependents : gomap) (rcs : list RemoteController)
    (err : error) : W state error :=
  match rcs with
  | [] => wret err
  | rc :: rest =>
      if DoRoutingPolicyForCluster p (ClusterID rc) then
        err <- process_dependents eventType rp (ClusterID rc) (go_range 1 (default ∅ dependents)).*2 err;;
        process_clusters eventType rp dependents rest err
      else process_clusters eventType rp dependents rest err
  end.

Definition ProcessAddOrUpdate (eventType : EventType) (newRP : RoutingPolicyObj) (dependents : gomap) : W state error :=
  process_clusters eventType newRP dependents (go_range 0 (GatherServiceEntries.remoteControllers rr)).*2 None.

(** The first error ends it. *)
Fixpoint process_policies (eventType : EventType) (destination source : string) (policies : list RoutingPolicyObj)
    : W state error :=
  match policies with
  | [] => wret None
  | rp :: rest =>
      err <- ProcessAddOrUpdate eventType rp (Some {[ destination := source ]});;
      if is_nil err then process_policies eventType destination source rest else wret err
  end.
Fixpoint process_destinations (eventType : EventType) (source : string) (destinations : list string) : W state error :=
  match destinations with
  | [] => wret None
  | destination :: rest =>
      policies <- on_policies (fun s => (s, RoutingPolicyCache_GetForIdentity destination (RoutingPolicyCache s)));;
      err <- process_policies eventType destination source policies;;
      if is_nil err then process_destinations eventType source rest else wret err
  end.
Definition ProcessDependency (eventType : EventType) (dependency : DependencyObj) : W state error :=
  if IsCacheWarmupTimeForDependency p startTime now then wret None
  else if negb (IsDependencyProcessingEnabled p) then wret None
  else
    '(newDestinations, _) <- getDestinationsToBeProcessed eventType dependency;;
    process_destinations eventType (DpSource dependency) newDestinations.

(** ** Deletion *)

Fixpoint delete_filters (clusterID : string) (filters : list (string * string)) (err : error) : W state error :=
  match filters with
  | [] => wret err
  | (filter, filterNs) :: rest =>
      err1 <- on_filters (@api_delete _ _ (efClients clusterID) filterNs filter);;
      delete_filters clusterID rest (AppendError err (message <$> err1))
  end.
Fixpoint delete_in_clusters (clusterIdFilterMap : filters_by_cluster) (rcs : list RemoteController) (err : error) : W state error :=
  match rcs with
  | [] => wret err
  | rc :: rest =>
      err <- (if DoRoutingPolicyForCluster p (ClusterID rc)
              then delete_filters (ClusterID rc) (go_range 1 (default ∅ (clusterIdFilterMap !! ClusterID rc))) err
              else wret err);;
      delete_in_clusters clusterIdFilterMap rest err
  end.

Definition RoutingPolicyService_Delete (rp : RoutingPolicyObj) : W state error :=
  let identity := GetRoutingPolicyIdentity p rp in
  let key := filter_key p rp in
  clusterIdFilterMap <- on_policies (fun s => (s, routingPolicyFilterCache_Get key (RoutingPolicyFilterCache s)));;
  err <- delete_in_clusters clusterIdFilterMap (go_range 0 (GatherServiceEntries.remoteControllers rr)).*2 None;;
  (if is_nil err then
     change_policies (fun s =>
       s <| RoutingPolicyCache := RoutingPolicyCache_Delete p readOnly identity (GetRoutingPolicyEnv p rp) (Name (RpMeta rp)) (RoutingPolicyCache s) |>
         <| RoutingPolicyFilterCache := routingPolicyFilterCache_Delete p readOnly key (RoutingPolicyFilterCache s) |>)
   else wret tt) ;;;
  wret err.

(** ** Events *)

(** Policies are not registered in the state syncer's mode without a transaction. *)
Definition callRegistryForRoutingPolicy (ctx : event_ctx) (event : EventType) (clusterName : string) (rp : RoutingPolicyObj)
    : W state error :=
  if IsAdmiralStateSyncerMode p && IsStateSyncerCluster p clusterName && registry then
    match ctxTxId ctx with
    | None => wpanic
    | Some txId =>
        let m := RpMeta rp in
        err <- on_filters (match event with
                           | Add | Update => PutCustomData clusterName (Namespace m) (Name m) "RoutingPolicy" txId rp
                           | Delete => DeleteCustomData clusterName (Namespace m) (Name m) "RoutingPolicy" txId
                           end);;
        wret (match err with
              | None => None
              | Some e => Some (log_message (event_name event) "RoutingPolicy" (Name m) clusterName
                                  ("failed to " +:+ event_name event +:+ " RoutingPolicy with err: " +:+ e))
              end)
    end
  else wret None.

(** Nil for a policy without identity. *)
Definition getDependents (rp : RoutingPolicyObj) : W state gomap :=
  let sourceIdentity := GetRoutingPolicyIdentity p rp in
  if is_empty sourceIdentity then wret None
  else
    c <- get_caches;;
    dependents <- on_heap (MapOfMaps_Get (IdentityDependencyCache c) sourceIdentity);;
    on_heap (Map_Copy dependents).

Definition cache_policy (rp : RoutingPolicyObj) : W state unit :=
  change_policies (fun s => s <| RoutingPolicyCache :=
    RoutingPolicyCache_Put (GetRoutingPolicyIdentity p rp) (GetRoutingPolicyEnv p rp) (Name (RpMeta rp)) rp (RoutingPolicyCache s) |>).

Definition RoutingPolicyHandler_Deleted (ctx : event_ctx) (clusterID : string) (rp : RoutingPolicyObj) : W state error :=
  err <- RoutingPolicyService_Delete rp;;
  callRegistryForRoutingPolicy ctx Delete clusterID rp ;;;
  wret err.

(** [Added] and [Updated]: an update of a policy that is to be ignored is its deletion. *)
Definition put_policy (ctx : event_ctx) (event : EventType) (clusterID : string) (rp : RoutingPolicyObj) : W state error :=
  cache_policy rp ;;;
  if readOnly then wret None
  else if negb (GetEnableRoutingPolicy p) then wret None
  else if ShouldIgnoreResource (RpMeta rp) then
    match event with
    | Update => RoutingPolicyHandler_Deleted ctx clusterID rp ;;; wret None
    | _ => wret None
    end
  else
    dependents <- getDependents rp;;
    if Nat.eqb (mlen dependents) 0 then wret None
    else
      err <- ProcessAddOrUpdate event rp dependents;;
      if is_nil err then callRegistryForRoutingPolicy ctx event clusterID rp ;;; wret None
      else wret err.

Definition RoutingPolicyHandler_event (event : EventType) (ctx : event_ctx) (clusterID : string) (rp : RoutingPolicyObj)
    : W state error :=
  match event with
  | Delete => RoutingPolicyHandler_Deleted ctx clusterID rp
  | _ => put_policy ctx event clusterID rp
  end.
End Processing.

(** ** What is remembered of the filters *)

Section Tracked.
Context {range : GoRange} {reg : CustomDataRegistry (cluster_objects EnvoyFilterObj) RoutingPolicyObj} (p : AdmiralParams)
  (rr : RemoteRegistry) (dead : string -> bool) (dead_error : api_error).
Context (message : api_error -> string) (getSha1 : string -> string + string) (readOnly registry : bool) (startTime now : Z).
(** The registry does not write to the clusters. *)
Context (registry_keeps : forall c ns n k tx rp s, (PutCustomData c ns n k tx rp s).1 = s /\ (DeleteCustomData c ns n k tx s).1 = s).

Definition ef_client (cluster : string) : KubeClient (cluster_objects EnvoyFilterObj) EnvoyFilterObj :=
  cluster_client (fun ef => Name (EfMeta ef)) dead dead_error cluster.
Abbreviation filters_state := (rp_state (cluster_objects EnvoyFilterObj)).
Abbreviation rp_world := (world (dep_state filters_state)).

Definition remembered (key cluster name namespace : string) (s : filters_state) : Prop :=
  exists m m', RoutingPolicyFilterCache s !! key = Some m /\ m !! cluster = Some m' /\ m' !! name = Some namespace.

(** The name and the identity of the policy that a filter was made for. *)
Definition made_for (ef : EnvoyFilterObj) (name identity : string) : Prop :=
  mlookup (Annotations (EfMeta ef)) associated_name = Some name /\
  mlookup (Annotations (EfMeta ef)) associated_identity = Some identity.

Definition has_cluster (cluster : string) : Prop :=
  DoRoutingPolicyForCluster p cluster = true /\
  exists k rc, GatherServiceEntries.remoteControllers rr !! k = Some rc /\ ClusterID rc = cluster.

(** Each filter in a cluster is remembered under the key of a policy that it was made
    for. *)
Definition tracked (s : filters_state) : Prop :=
  forall cluster ns n ef, rp_api s !! (cluster, ns, n) = Some ef ->
    has_cluster cluster /\ exists name identity env, made_for ef name identity /\
      remembered (name +:+ identity +:+ env) cluster n ns s.

Lemma remembered_put (key c n ns key' c' n' ns' : string) (s : filters_state) :
  remembered key c n ns s -> (key = key' /\ c = c' /\ n = n' -> ns = ns') ->
  remembered key c n ns (s <| RoutingPolicyFilterCache := routingPolicyFilterCache_Put key' c' n' ns' (RoutingPolicyFilterCache s) |>).
Proof using Type.
  intros (m & m' & Hm & Hm' & Hn) Heq. unfold remembered, routingPolicyFilterCache_Put. simpl.
  destruct (decide (key = key')) as [<-|Hk]; [|by exists m, m'; rewrite lookup_insert_ne].
  rewrite Hm. simpl. eexists _. rewrite lookup_insert_eq.
  destruct (decide (c = c')) as [<-|Hc]; [|by exists m'; rewrite lookup_insert_ne].
  rewrite Hm'. simpl. eexists. split; [done|]. rewrite lookup_insert_eq. split; [done|].
  destruct (decide (n = n')) as [<-|Hne]; [|by rewrite lookup_insert_ne]. rewrite lookup_insert_eq. f_equal. symmetry. by apply Heq.
Qed.

Lemma remembered_new (key c n ns : string) (s : filters_state) :
  remembered key c n ns (s <| RoutingPolicyFilterCache := routingPolicyFilterCache_Put key c n ns (RoutingPolicyFilterCache s) |>).
Proof using Type. eexists _, _. simpl. split; [apply lookup_insert_eq|]. split; [apply lookup_insert_eq|apply lookup_insert_eq]. Qed.

(** All filters are in one namespace. *)
Definition in_namespace (s : filters_state) : Prop :=
  forall key cluster n ns, remembered key cluster n ns s -> ns = getEnvoyFilterNamespace.
Definition ok (s : filters_state) : Prop := tracked s /\ in_namespace s.

Lemma ok_put (key c n : string) (s : filters_state) :
  ok s -> ok (s <| RoutingPolicyFilterCache := routingPolicyFilterCache_Put key c n getEnvoyFilterNamespace (RoutingPolicyFilterCache s) |>).
Proof using Type.
  intros [Ht Hn]. split.
  - intros cl ns n' ef Hef. destruct (Ht _ _ _ _ Hef) as (Hc & name & id & env & Hm & Hr). split; [done|].
    exists name, id, env. split; [done|]. apply remembered_put; [done|]. intros _. by eapply Hn.
  - intros key' cl n' ns (m & m' & Hm & Hm' & Hk). simpl in Hm. unfold routingPolicyFilterCache_Put in Hm.
    destruct (decide (key' = key)) as [->|Hne]; [|rewrite lookup_insert_ne in Hm by done; eapply Hn; by exists m, m'].
    rewrite lookup_insert_eq in Hm. injection Hm as <-.
    destruct (decide (cl = c)) as [->|Hne].
    + rewrite lookup_insert_eq in Hm'. injection Hm' as <-. destruct (decide (n' = n)) as [->|Hne].
      * rewrite lookup_insert_eq in Hk. by injection Hk as <-.
      * rewrite lookup_insert_ne in Hk by done. destruct (RoutingPolicyFilterCache s !! key) as [m|] eqn:Em; simpl in *; [|by rewrite lookup_empty in Hk].
        destruct (m !! c) as [m'|] eqn:Em'; simpl in *; [|done]. eapply Hn. by exists m, m'.
    + rewrite lookup_insert_ne in Hm' by done. destruct (RoutingPolicyFilterCache s !! key) as [m|] eqn:Em; simpl in *; [|done].
      eapply Hn. by exists m, m'.
Qed.

(** *** Filters are written only when they are remembered *)

(** What the calls that add filters keep. *)
Definition keeps (s s' : dep_state filters_state) : Prop :=
  ok (dp_rest s) -> ok (dp_rest s').
#[local] Instance keeps_pre : PreOrder keeps.
Proof using Type. split; [by intros s H|by intros s s' s'' H H' Ho; apply H', H]. Qed.

(** A write of filter [n] while it is remembered. *)
Definition keeps_of (key c n : string) (s s' : dep_state filters_state) : Prop :=
  RoutingPolicyFilterCache (dp_rest s') = RoutingPolicyFilterCache (dp_rest s) /\
  (remembered key c n getEnvoyFilterNamespace (dp_rest s) -> ok (dp_rest s) -> ok (dp_rest s')).
#[local] Instance keeps_of_pre (key c n : string) : PreOrder (keeps_of key c n).
Proof using Type.
  split; [by intros s|]. intros s s' s'' [E H] [E' H']. split; [by rewrite E'|]. intros Hr Ho. apply H'; [|by apply H].
  destruct Hr as (m & m' & Hm). exists m, m'. by rewrite E.
Qed.

(** Objects written over the stored ones. *)
Lemma ok_store (key c n : string) (name id env : string) (ef : EnvoyFilterObj) (s : filters_state) :
  has_cluster c -> made_for ef name id -> key = name +:+ id +:+ env -> remembered key c n getEnvoyFilterNamespace s ->
  ok s -> ok (s <| rp_api := <[(c, getEnvoyFilterNamespace, n) := ef]> (rp_api s) |>).
Proof using Type.
  intros Hc Hm -> Hr [Ht Hn]. split; [|exact Hn]. intros c' ns' n' ef' H. simpl in H.
  destruct (decide ((c', ns', n') = (c, getEnvoyFilterNamespace, n))) as [E|E].
  - injection E as -> -> ->. rewrite lookup_insert_eq in H. injection H as <-. split; [done|]. by exists name, id, env.
  - rewrite lookup_insert_ne in H by done. exact (Ht _ _ _ _ H).
Qed.

Lemma on_filters_keeps {A} (key c n : string) (f : cluster_objects EnvoyFilterObj -> cluster_objects EnvoyFilterObj * A) :
  (forall s : filters_state, remembered key c n getEnvoyFilterNamespace s -> ok s -> ok (s <| rp_api := (f (rp_api s)).1 |>)) ->
  api_post (on_filters f) (keeps_of key c n).
Proof using Type.
  intros Hf. apply api_post_api. intros s. specialize (Hf (dp_rest s)). destruct (f (rp_api (dp_rest s))) as [x a].
  split; [done|]. exact Hf.
Qed.

Lemma ok_same (s : filters_state) : ok s -> ok (s <| rp_api := rp_api s |>).
Proof using Type. by intros H. Qed.

Lemma write_filter_keeps (c key name id env : string) (ef : EnvoyFilterObj) (ev : EventType) (err : error) :
  has_cluster c -> made_for ef name id -> key = name +:+ id +:+ env -> Namespace (EfMeta ef) = getEnvoyFilterNamespace ->
  api_post (write_filter ef_client message c ef ev err) (keeps_of key c (Name (EfMeta ef))).
Proof using Type.
  intros Hc Hm Hkey Hns. destruct ev; unfold write_filter; [| |apply api_post_ret, _]; rewrite Hns;
    (apply api_post_bnd; [apply _| |]).
  1,3: apply on_filters_keeps; intros s _ Ho; cbn; by destruct (dead c).
  all: intros [old|[]]; try (apply api_post_ret, _); (apply api_post_bnd; [apply _| |intros err2; apply api_post_ret, _]);
    apply on_filters_keeps; intros s Hr Ho; cbn; (destruct (dead c); [by apply ok_same|]);
    (destruct (rp_api s !! _); try by apply ok_same); by eapply ok_store.
Qed.

Lemma write_versions_keeps (c : string) (rp : RoutingPolicyObj) (ev : EventType) (dependent sha sha' : string) versions (err : error) :
  has_cluster c -> api_post (write_versions p ef_client message c rp ev dependent sha sha' versions err) keeps.
Proof using Type.
  intros Hc. revert err. induction versions as [|v vs IH]; intros err; [apply api_post_ret, _|].
  intros w e w' H. cbn [write_versions] in H. apply wbnd_Some in H as ([] & w1 & Hput & H).
  apply wbnd_Some in H as (err1 & w2 & Hw & H). apply IH in H. etransitivity; [|exact H].
  injection Hput as <-. intros Ho. eapply (write_filter_keeps c (filter_key p rp)) in Hw; [|done|by split; vm_compute|done|done].
  apply Hw; [apply remembered_new|]. by apply ok_put.
Qed.

Lemma create_or_update_keeps (c : string) (rp : RoutingPolicyObj) (ev : EventType) (dependent : string) :
  has_cluster c -> api_post (createOrUpdateEnvoyFilter p ef_client message getSha1 c rp ev dependent) keeps.
Proof using Type.
  intros Hc. unfold createOrUpdateEnvoyFilter. destruct (getSha1 _); [|apply api_post_ret, _].
  destruct (getSha1 _); [|apply api_post_ret, _]. destruct (GetEnvoyFilterVersion p); [apply api_post_ret, _|].
  by apply write_versions_keeps.
Qed.

Lemma clusters_of_keeps identity : api_post (clusters_of (X := filters_state) identity) keeps.
Proof using Type. apply api_post_bnd; [apply _|apply api_post_caches, _|]. intros c. apply api_post_heap, _. Qed.

Lemma process_dependents_keeps (c : string) (rp : RoutingPolicyObj) (ev : EventType) dependents (err : error) :
  has_cluster c -> api_post (process_dependents p ef_client message getSha1 ev rp c dependents err) keeps.
Proof using Type.
  intros Hc. revert err. induction dependents as [|d ds IH]; intros err; [apply api_post_ret, _|]. cbn [process_dependents].
  apply api_post_bnd; [apply _|apply clusters_of_keeps|]. intros cs.
  apply api_post_bnd; [apply _|apply api_post_heap, _|]. intros m. destruct (mlookup m c); [|apply IH].
  apply api_post_bnd; [apply _|by apply create_or_update_keeps|]. intros err1. apply IH.
Qed.

Lemma process_clusters_keeps (rp : RoutingPolicyObj) (ev : EventType) dependents rcs (err : error) :
  Forall (fun rc => exists k, GatherServiceEntries.remoteControllers rr !! k = Some rc) rcs ->
  api_post (process_clusters p ef_client message getSha1 ev rp dependents rcs err) keeps.
Proof using Type.
  intros Hrcs. revert err. induction Hrcs as [|rc rcs [k Hk] _ IH]; intros err; [apply api_post_ret, _|]. cbn [process_clusters].
  destruct (DoRoutingPolicyForCluster p (ClusterID rc)) eqn:E; [|apply IH].
  apply api_post_bnd; [apply _|apply process_dependents_keeps; split; [done|by exists k, rc]|]. intros err1. apply IH.
Qed.

Lemma all_controllers : Forall (fun rc => exists k, GatherServiceEntries.remoteControllers rr !! k = Some rc)
  (go_range 0 (GatherServiceEntries.remoteControllers rr)).*2.
Proof using Type.
  apply Forall_forall. intros rc Hrc. apply list_elem_of_fmap in Hrc as ([k rc'] & -> & Hrc).
  exists k. by apply go_range_elem in Hrc.
Qed.

Lemma add_or_update_keeps (ev : EventType) (rp : RoutingPolicyObj) (dependents : gomap) :
  api_post (ProcessAddOrUpdate p rr ef_client message getSha1 ev rp dependents) keeps.
Proof using Type. apply process_clusters_keeps, all_controllers. Qed.

Lemma process_destinations_keeps (ev : EventType) (source : string) destinations :
  api_post (process_destinations p rr ef_client message getSha1 ev source destinations) keeps.
Proof using Type.
  induction destinations as [|d ds IH]; [apply api_post_ret, _|]. cbn [process_destinations].
  apply api_post_bnd; [apply _|apply api_post_api; by intros [] |]. intros policies.
  apply api_post_bnd; [apply _| |intros err; destruct (is_nil err); [apply IH|apply api_post_ret, _] ].
  induction policies as [|rp rps IHp]; [apply api_post_ret, _|]. cbn [process_policies].
  apply api_post_bnd; [apply _|apply add_or_update_keeps|]. intros err. destruct (is_nil err); [apply IHp|apply api_post_ret, _].
Qed.

Lemma wfilter_keeps {A} (f : A -> W (dep_state filters_state) bool) l : (forall a, api_post (f a) keeps) -> api_post (wfilter f l) keeps.
Proof using Type.
  intros Hf. induction l as [|a l IH]; [apply api_post_ret, _|]. cbn [wfilter].
  apply api_post_bnd; [apply _|apply Hf|]. intros b. apply api_post_bnd; [apply _|apply IH|]. intros r. apply api_post_ret, _.
Qed.

Lemma process_dependency_keeps (ev : EventType) (dep : DependencyObj) :
  api_post (ProcessDependency p rr ef_client message getSha1 startTime now ev dep) keeps.
Proof using Type.
  unfold ProcessDependency. destruct (IsCacheWarmupTimeForDependency _ _ _); [apply api_post_ret, _|].
  destruct (negb _); [apply api_post_ret, _|]. apply api_post_bnd; [apply _| |intros [ds b]; apply process_destinations_keeps].
  unfold getDestinationsToBeProcessed. apply api_post_bnd; [apply _|by apply api_post_api|]. intros ex.
  apply api_post_bnd; [apply _| |intros r; apply api_post_ret, _]. apply wfilter_keeps. intros d.
  apply api_post_bnd; [apply _| |intros b; apply api_post_ret, _].
  apply api_post_bnd; [apply _|apply clusters_of_keeps|intros q; apply api_post_ret, _].
Qed.

(** *** Deletions *)

(** The store shrinks, the caches stay. *)
Definition fewer (s s' : dep_state filters_state) : Prop :=
  RoutingPolicyFilterCache (dp_rest s') = RoutingPolicyFilterCache (dp_rest s) /\
  rp_api (dp_rest s') ⊆ rp_api (dp_rest s).
#[local] Instance fewer_pre : PreOrder fewer.
Proof using Type.
  split; [by intros s|]. intros s s' s'' [E H] [E' H']. split; [by rewrite E'|by etransitivity].
Qed.

Lemma fewer_gone (s s' : dep_state filters_state) (c ns n : string) :
  fewer s s' -> rp_api (dp_rest s) !! (c, ns, n) = None -> rp_api (dp_rest s') !! (c, ns, n) = None.
Proof using Type. intros [_ Hs] Hn. by eapply lookup_weaken_None. Qed.

Lemma AppendError_None (e1 e2 : error) : AppendError e1 e2 = None -> e1 = None /\ e2 = None.
Proof using Type. destruct e1, e2; by simpl. Qed.

Lemma delete_filters_spec (c : string) (filters : list (string * string)) (err err' : error) (w w' : rp_world) :
  delete_filters ef_client message c filters err w = Some (err', w') ->
  fewer (w_api w) (w_api w') /\
  (err' = None -> err = None /\ forall n ns, (n, ns) ∈ filters -> rp_api (dp_rest (w_api w')) !! (c, ns, n) = None).
Proof using Type.
  revert err w. induction filters as [|[n ns] fs IH]; intros err w H.
  { injection H as <- <-. split; [reflexivity|]. intros ->. split; [done|]. intros n ns Hin. by apply elem_of_nil in Hin. }
  cbn [delete_filters] in H. apply wbnd_Some in H as (err1 & w1 & Hd & H). apply IH in H as [Hf Herr].
  assert (fewer (w_api w) (w_api w1) /\ (err1 = None -> rp_api (dp_rest (w_api w1)) !! (c, ns, n) = None)) as [Hf1 Hd1].
  { unfold on_filters, on_policies, on_api, ef_client in Hd. cbn in Hd.
    destruct (dead c); [injection Hd as <- <-; split; [by split|done] |].
    destruct (rp_api (dp_rest (w_api w)) !! (c, ns, n)) eqn:E; injection Hd as <- <-; (split; [split; [done|cbn] |]); try done.
    - apply delete_subseteq.
    - intros _. apply lookup_delete_eq. }
  split; [by etransitivity|]. intros Hn. apply Herr in Hn as [Happ Hgone]. apply AppendError_None in Happ as [-> He1].
  split; [done|]. intros n' ns' Hin. apply elem_of_cons in Hin as [[= -> ->]|Hin]; [|by apply Hgone].
  apply (fewer_gone (w_api w1)); [done|]. apply Hd1. by destruct err1.
Qed.

Lemma delete_in_clusters_spec (m : filters_by_cluster) (rcs : list RemoteController) (err err' : error) (w w' : rp_world) :
  delete_in_clusters p ef_client message m rcs err w = Some (err', w') ->
  fewer (w_api w) (w_api w') /\
  (err' = None -> err = None /\
     forall rc n ns, rc ∈ rcs -> DoRoutingPolicyForCluster p (ClusterID rc) = true ->
       default ∅ (m !! ClusterID rc) !! n = Some ns -> rp_api (dp_rest (w_api w')) !! (ClusterID rc, ns, n) = None).
Proof using Type.
  revert err w. induction rcs as [|rc rcs IH]; intros err w H.
  { injection H as <- <-. split; [reflexivity|]. intros ->. split; [done|]. intros rc n ns Hin. by apply elem_of_nil in Hin. }
  cbn [delete_in_clusters] in H. apply wbnd_Some in H as (err1 & w1 & Hd & H). apply IH in H as [Hf Herr].
  destruct (DoRoutingPolicyForCluster p (ClusterID rc)) eqn:E.
  - apply delete_filters_spec in Hd as [Hf1 Hd1]. split; [by etransitivity|]. intros Hn. apply Herr in Hn as [-> Hgone].
    destruct (Hd1 eq_refl) as [-> Hd]. split; [done|]. intros rc' n ns Hin Hdo Hl.
    apply elem_of_cons in Hin as [->|Hin]; [|by apply Hgone]. apply (fewer_gone (w_api w1)); [done|].
    apply Hd, go_range_elem, Hl.
  - injection Hd as <- <-. split; [done|]. intros Hn. apply Herr in Hn as [-> Hgone]. split; [done|].
    intros rc' n ns Hin Hdo Hl. apply elem_of_cons in Hin as [->|Hin]; [by rewrite E in Hdo|by apply Hgone].
Qed.

(** What the caches forget of a deleted policy. *)
Definition forget (rp : RoutingPolicyObj) (s : filters_state) : filters_state :=
  s <| RoutingPolicyCache := RoutingPolicyCache_Delete p readOnly (GetRoutingPolicyIdentity p rp) (GetRoutingPolicyEnv p rp)
         (Name (RpMeta rp)) (RoutingPolicyCache s) |>
    <| RoutingPolicyFilterCache := routingPolicyFilterCache_Delete p readOnly (filter_key p rp) (RoutingPolicyFilterCache s) |>.

Lemma remembered_forget (rp : RoutingPolicyObj) (key c n ns : string) (s : filters_state) :
  (key <> filter_key p rp -> remembered key c n ns s -> remembered key c n ns (forget rp s)) /\
  (remembered key c n ns (forget rp s) -> remembered key c n ns s).
Proof using Type.
  unfold remembered, forget. cbn. unfold routingPolicyFilterCache_Delete.
  destruct readOnly; [done|]. destruct (GetEnableRoutingPolicy p); [|done]. split.
  - intros Hne (m & m' & Hm & Hr). exists m, m'. by rewrite lookup_delete_ne.
  - intros (m & m' & Hm & Hr). apply lookup_delete_Some in Hm as [_ Hm]. by exists m, m'.
Qed.

Lemma ok_fewer (s s' : dep_state filters_state) : fewer s s' -> ok (dp_rest s) -> ok (dp_rest s').
Proof using Type.
  intros [Hc Hsub] [Ht Hn]. split.
  - intros c ns n ef Hef. eapply lookup_weaken in Hef; [|exact Hsub].
    destruct (Ht _ _ _ _ Hef) as (Hhc & name & id & env & Hmf & m & m' & Hr).
    split; [done|]. exists name, id, env. split; [done|]. exists m, m'. by rewrite Hc.
  - intros key c n ns (m & m' & Hr). rewrite Hc in Hr. apply (Hn key c n ns). by exists m, m'.
Qed.

(** A filter for a policy is remembered under another key than [key]. *)
Definition elsewhere (key : string) (s : filters_state) (c ns n : string) (ef : EnvoyFilterObj) : Prop :=
  exists name id env, name +:+ id +:+ env <> key /\ made_for ef name id /\ remembered (name +:+ id +:+ env) c n ns s.

Lemma left_elsewhere (key : string) (s : filters_state) :
  ok s ->
  (forall rc n ns, rc ∈ (go_range 0 (GatherServiceEntries.remoteControllers rr)).*2 ->
     DoRoutingPolicyForCluster p (ClusterID rc) = true ->
     default ∅ (routingPolicyFilterCache_Get key (RoutingPolicyFilterCache s) !! ClusterID rc) !! n = Some ns ->
     rp_api s !! (ClusterID rc, ns, n) = None) ->
  forall c ns n ef, rp_api s !! (c, ns, n) = Some ef -> elsewhere key s c ns n ef.
Proof using Type.
  intros [Ht _] Hg c ns n ef Hef. destruct (Ht _ _ _ _ Hef) as ([Hdo (k & rc & Hk & <-)] & name & id & env & Hmf & Hr).
  exists name, id, env. split; [|done]. intros Hkey. destruct Hr as (m & m' & Hm & Hm' & Hns). rewrite Hkey in Hm.
  enough (rp_api s !! (ClusterID rc, ns, n) = None) by congruence.
  apply (Hg rc n ns); [|done|unfold routingPolicyFilterCache_Get; rewrite Hm; simpl; by rewrite Hm'].
  apply list_elem_of_fmap. exists (k, rc). split; [done|]. by apply go_range_elem.
Qed.

(** The service's deletion; the filters of the policy are gone unless it failed. *)
Lemma service_delete_ok (rp : RoutingPolicyObj) (err : error) (w w' : rp_world) :
  RoutingPolicyService_Delete p rr ef_client message readOnly rp w = Some (err, w') -> ok (dp_rest (w_api w)) ->
  ok (dp_rest (w_api w')) /\
  (err = None -> forall c ns n ef, rp_api (dp_rest (w_api w')) !! (c, ns, n) = Some ef ->
    elsewhere (filter_key p rp) (dp_rest (w_api w')) c ns n ef).
Proof using Type.
  unfold RoutingPolicyService_Delete. intros H Hok. apply wbnd_Some in H as (m & w1 & Hm & H). injection Hm as <- <-.
  apply wbnd_Some in H as (err1 & w2 & Hd & H). apply delete_in_clusters_spec in Hd as [Hf Hgone].
  assert (Hf' : fewer (w_api w) (w_api w2)) by (destruct Hf; by split).
  pose proof (ok_fewer _ _ Hf' Hok) as Hok2. destruct err1 as [e|]; simpl in H.
  { injection H as <- <-. by split. }
  destruct (Hgone eq_refl) as [_ Hg].
  assert (Hleft : forall c ns n ef, rp_api (dp_rest (w_api w2)) !! (c, ns, n) = Some ef ->
    elsewhere (filter_key p rp) (forget rp (dp_rest (w_api w2))) c ns n ef).
  { intros c ns n ef Hef. destruct (left_elsewhere (filter_key p rp) (dp_rest (w_api w2)) Hok2) with (2 := Hef)
      as (name & id & env & Hne & Hmf & Hr).
    - destruct Hf' as [-> _]. exact Hg.
    - exists name, id, env. split; [done|]. split; [done|]. by apply remembered_forget. }
  injection H as <- <-. cbn. split; [split|by intros _].
  - intros c ns n ef Hef. destruct (proj1 Hok2 _ _ _ _ Hef) as [Hhc _]. split; [done|].
    destruct (Hleft _ _ _ _ Hef) as (name & id & env & _ & Hr). by exists name, id, env.
  - intros key c n ns Hr. apply (proj2 Hok2 key c n ns). by apply (proj2 (remembered_forget rp key c n ns _)).
Qed.

(** *** Events *)

(** The registry changes nothing here. *)
Lemma registry_same (ctx : event_ctx) (ev : EventType) (c : string) (rp : RoutingPolicyObj) :
  api_post (callRegistryForRoutingPolicy p registry ctx ev c rp) eq.
Proof using registry_keeps.
  unfold callRegistryForRoutingPolicy. destruct (_ && _); [|apply api_post_ret, _]. destruct (ctxTxId ctx) as [tx|]; [|done].
  apply api_post_bnd; [apply _| |intros r; apply api_post_ret, _]. apply api_post_api. intros s.
  destruct (registry_keeps c (Namespace (RpMeta rp)) (Name (RpMeta rp)) "RoutingPolicy" tx rp (rp_api (dp_rest s))) as [Hp Hd].
  destruct s as [ [] ]. destruct ev; simpl in *; [destruct (PutCustomData _ _ _ _ _ _ _)..|destruct (DeleteCustomData _ _ _ _ _ _)]; simpl in *; by subst.
Qed.

Lemma deleted_ok (ctx : event_ctx) (c : string) (rp : RoutingPolicyObj) (err : error) (w w' : rp_world) :
  RoutingPolicyHandler_Deleted p rr ef_client message readOnly registry ctx c rp w = Some (err, w') -> ok (dp_rest (w_api w)) ->
  ok (dp_rest (w_api w')) /\
  (err = None -> forall c ns n ef, rp_api (dp_rest (w_api w')) !! (c, ns, n) = Some ef ->
    elsewhere (filter_key p rp) (dp_rest (w_api w')) c ns n ef).
Proof using registry_keeps.
  unfold RoutingPolicyHandler_Deleted. intros H Hok. apply wbnd_Some in H as (err1 & w1 & Hd & H).
  apply wbnd_Some in H as (r & w2 & Hr & H). injection H as <- <-. apply registry_same in Hr. rewrite <- Hr.
  by eapply service_delete_ok.
Qed.

Lemma event_keeps (ev : EventType) (ctx : event_ctx) (c : string) (rp : RoutingPolicyObj) :
  api_post (RoutingPolicyHandler_event p rr ef_client message getSha1 readOnly registry ev ctx c rp) keeps.
Proof using registry_keeps.
  assert (Hdel : api_post (RoutingPolicyHandler_Deleted p rr ef_client message readOnly registry ctx c rp) keeps).
  { intros w err w' H Hok. by eapply deleted_ok. }
  assert (Hput : api_post (put_policy p rr ef_client message getSha1 readOnly registry ctx ev c rp) keeps); [|by destruct ev].
  unfold put_policy. apply api_post_bnd; [apply _|apply api_post_api; by intros s Ho|]. intros []. destruct readOnly; [apply api_post_ret, _|].
  destruct (negb _); [apply api_post_ret, _|]. destruct (ShouldIgnoreResource _).
  { destruct ev; try apply api_post_ret, _. apply api_post_bnd; [apply _|done|]. intros r. apply api_post_ret, _. }
  apply api_post_bnd; [apply _| |intros ds].
  - unfold getDependents. destruct (is_empty _); [apply api_post_ret, _|]. apply api_post_bnd; [apply _|apply api_post_caches, _|].
    intros cs. apply api_post_bnd; [apply _|apply api_post_heap, _|intros q; apply api_post_heap, _].
  - destruct (Nat.eqb _ _); [apply api_post_ret, _|]. apply api_post_bnd; [apply _|apply add_or_update_keeps|]. intros err.
    destruct (is_nil err); [|apply api_post_ret, _]. apply api_post_bnd; [apply _| |intros r; apply api_post_ret, _].
    intros w r w' H Hok. apply registry_same in H. by rewrite <- H.
Qed.

(** What the handlers of routing policies and of dependencies reach; the others change the
    caches of the world as they like. *)
Inductive policies_reachable : rp_world -> Prop :=
| policies_start w : RoutingPolicyFilterCache (dp_rest (w_api w)) = ∅ -> rp_api (dp_rest (w_api w)) = ∅ -> policies_reachable w
| policies_event ev ctx c rp err w w' :
    policies_reachable w -> RoutingPolicyHandler_event p rr ef_client message getSha1 readOnly registry ev ctx c rp w = Some (err, w') ->
    policies_reachable w'
| policies_dependency ev dep err w w' :
    policies_reachable w -> ProcessDependency p rr ef_client message getSha1 startTime now ev dep w = Some (err, w') ->
    policies_reachable w'
| policies_other w w' : policies_reachable w -> dp_rest (w_api w') = dp_rest (w_api w) -> policies_reachable w'.

Lemma reachable_ok (w : rp_world) : policies_reachable w -> ok (dp_rest (w_api w)).
Proof using registry_keeps.
  induction 1 as [w Hc Ha|ev ctx c rp err w w' _ IH H|ev dep err w w' _ IH H|w w' _ IH H].
  - split; [intros c ns n ef Hef; by rewrite Ha in Hef|]. intros key c n ns (m & m' & Hm & _). by rewrite Hc in Hm.
  - by apply event_keeps in H; apply H.
  - by apply process_dependency_keeps in H; apply H.
  - by rewrite H.
Qed.

Lemma made_for_unique (ef : EnvoyFilterObj) (name id name' id' : string) :
  made_for ef name id -> made_for ef name' id' -> name' = name /\ id' = id.
Proof using Type. intros [H1 H2] [H3 H4]. split; congruence. Qed.

(** C7: Deletion is complete.  When the handler of a deleted policy returns no error, a
    filter that was made for the policy's name and identity and is still in a cluster
    belongs to another environment of the policy, under whose key it is remembered, so
    that the deletion there will find it. *)
Theorem policy_deletion_complete (ctx : event_ctx) (clusterID : string) (rp : RoutingPolicyObj) (w w' : rp_world) :
  policies_reachable w ->
  RoutingPolicyHandler_Deleted p rr ef_client message readOnly registry ctx clusterID rp w = Some (None, w') ->
  forall cluster ns n ef, rp_api (dp_rest (w_api w')) !! (cluster, ns, n) = Some ef ->
    made_for ef (Name (RpMeta rp)) (GetRoutingPolicyIdentity p rp) ->
    exists env, env <> GetRoutingPolicyEnv p rp /\
      remembered (Name (RpMeta rp) +:+ GetRoutingPolicyIdentity p rp +:+ env) cluster n ns (dp_rest (w_api w')).
Proof using registry_keeps.
  intros Hw H c ns n ef Hef Hmf. apply reachable_ok in Hw. destruct (deleted_ok _ _ _ _ _ _ H Hw) as [_ Hleft].
  destruct (Hleft eq_refl _ _ _ _ Hef) as (name & id & env & Hne & Hmf' & Hr).
  destruct (made_for_unique _ _ _ _ _ Hmf Hmf') as [-> ->]. exists env. split; [|done]. intros ->. by apply Hne.
Qed.
End Tracked.

(** ** Policies of [bar], on which [foo] depends *)

Definition policy_params : AdmiralParams :=
  Params.zero_AdmiralParams <| Params.EnableRoutingPolicy := true |> <| Params.RoutingPolicyClusters := ["c1"] |>
    <| Params.EnvoyFilterVersion := "1.17" |>
    <| Params.LabelSetPtr := Some (Params.zero_LabelSet <| Params.WorkloadIdentityKey := "identity" |> <| Params.EnvKey := "env" |>) |>.
Definition policy_registry : RemoteRegistry := mkRegistry {[ "c1" := mkRC "c1" None None ]} ∅ ∅ ∅ ∅ ∅ ∅ None.
Definition policy_world : world (dep_state (rp_state (cluster_objects EnvoyFilterObj))) :=
  mkWorld (mkDepState (mkRpState ∅ ∅ ∅) ∅)
    (mkHeap {[ 1%nat := {[ "c1" := "c1" ]}; 4%nat := {[ "foo" := "foo" ]} ]}
       {[ (2%nat, 0%nat) := {[ "foo" := Some 1%nat ]}; (2%nat, 2%nat) := {[ "bar" := Some 4%nat; "ar" := Some 4%nat ]} ]} 5 ∅)
    (mkAdmiralCaches (mkCachePointers None None (Some 0%nat) None None) None None None (Some 2%nat)) empty_store ∅.
Definition policy_of (name identity env plugin : string) : RoutingPolicyObj :=
  mkRoutingPolicy (mkMeta name "ns" (Some {[ GetRoutingPolicyLabel policy_params := identity; "env" := env ]}) None 0 "1")
    plugin ["bar.mesh"] {[ "wasmPath" := "x" ]}.
#[local] Instance silent_registry : CustomDataRegistry (cluster_objects EnvoyFilterObj) RoutingPolicyObj := {|
  PutCustomData _ _ _ _ _ _ s := (s, None);
  DeleteCustomData _ _ _ _ _ s := (s, None)
|}.
Definition policy_ctx : event_ctx := mkCtx None None None (Some "tx").
Definition policy_event (readOnly : bool) (ev : EventType) (rp : RoutingPolicyObj) : W (dep_state (rp_state (cluster_objects EnvoyFilterObj))) error :=
  RoutingPolicyHandler_event policy_params policy_registry (ef_client (fun _ => false) (OtherError "down")) (fun _ => "not found")
    inl readOnly false ev policy_ctx "c1" rp.
Definition filter_names {A} (r : option (A * world (dep_state (rp_state (cluster_objects EnvoyFilterObj))))) : list string :=
  match r with Some (_, w) => (map_to_list (rp_api (dp_rest (w_api w)))).*1.*2 | None => ["panic"] end.
Definition result_of {St A} (r : option (A * world St)) : option A := fst <$> r.

Definition both_policies : W (dep_state (rp_state (cluster_objects EnvoyFilterObj))) error :=
  policy_event false Add (policy_of "rp" "bar" "qal" "Route") ;;; policy_event false Add (policy_of "rp" "bar" "e2e" "Route").

Lemma both_policies_added : filter_names (both_policies policy_world) =
  ["route-dr-rpe2ebar-foo-1.17"; "route-dr-rpqalbar-foo-1.17"].
Proof. vm_compute. reflexivity. Qed.

Abbreviation policy_state := (world (dep_state (rp_state (cluster_objects EnvoyFilterObj)))).
Definition after {A} (c : W (dep_state (rp_state (cluster_objects EnvoyFilterObj))) A) (w : policy_state) : policy_state :=
  match c w with Some (_, w') => w' | None => w end.
Abbreviation policy_reached := (policies_reachable policy_params policy_registry (fun _ => false) (OtherError "down")
  (fun _ => "not found") inl false false 0 1000).

Lemma policy_step (ev : EventType) (rp : RoutingPolicyObj) (w : policy_state) :
  policy_reached w -> policy_reached (after (policy_event false ev rp) w).
Proof.
  intros Hw. unfold after. destruct (policy_event false ev rp w) as [[err w']|] eqn:E; [|done].
  exact (policies_event _ _ _ _ _ _ _ _ _ _ ev policy_ctx "c1" rp err w w' Hw E).
Qed.

Lemma after_None {A} (c : W (dep_state (rp_state (cluster_objects EnvoyFilterObj))) (option A)) (w : policy_state) :
  result_of (c w) = Some None -> c w = Some (None, after c w).
Proof. unfold result_of, after. destruct (c w) as [[[a|] w']|]; by simpl. Qed.

Lemma policy_deletion_complete_witness :
  let rp := policy_of "rp" "bar" "qal" "Route" in
  let rp' := policy_of "rp" "bar" "e2e" "Route" in
  let w := after (policy_event false Add rp') (after (policy_event false Add rp) policy_world) in
  let w' := after (policy_event false Delete rp) w in
  let ef := envoy_filter policy_params rp' "istio-system" "route-dr-rpe2ebar-foo-1.17" "foo" "1.17" in
  policy_reached w /\
  rp_api (dp_rest (w_api w')) !! ("c1", "istio-system", "route-dr-rpe2ebar-foo-1.17") = Some ef /\
  exists env, env <> "qal" /\
    remembered ("rp" +:+ "bar" +:+ env) "c1" "route-dr-rpe2ebar-foo-1.17" "istio-system" (dp_rest (w_api w')).
Proof.
  intros rp rp' w w' ef.
  assert (Hw : policy_reached w) by (do 2 apply policy_step; by apply policies_start).
  assert (Hd : result_of (policy_event false Delete rp w) = Some None) by (vm_compute; reflexivity).
  apply (after_None (policy_event false Delete rp) w) in Hd.
  assert (Hef : rp_api (dp_rest (w_api w')) !! ("c1", "istio-system", "route-dr-rpe2ebar-foo-1.17") = Some ef)
    by (vm_compute; reflexivity).
  split; [exact Hw|]. split; [exact Hef|].
  exact (policy_deletion_complete policy_params policy_registry (fun _ => false) (OtherError "down") (fun _ => "not found")
    inl false false 0 1000 (fun _ _ _ _ _ _ _ => conj eq_refl eq_refl) policy_ctx "c1" rp w w' Hw Hd "c1" "istio-system"
    "route-dr-rpe2ebar-foo-1.17" ef Hef (conj eq_refl eq_refl)).
Defined.

(** The key of a policy's filters joins its name, identity and environment: two policies
    may have one key, and the deletion of one then deletes the filters of the other. *)
Lemma filter_key_shared :
  let rp := policy_of "rp" "bar" "qal" "Route" in
  let rp' := policy_of "rpb" "ar" "qal" "Route" in
  let w := after (policy_event false Add rp' ;;; policy_event false Add rp) policy_world in
  filter_key policy_params rp = filter_key policy_params rp' /\
  filter_names (Some (tt, w)) = ["route-dr-rpqalbar-foo-1.17"; "route-dr-rpbqalar-foo-1.17"] /\
  filter_names (policy_event false Delete rp w) = [].
Proof. vm_compute. done. Qed.

(** In read-only mode filters are deleted, and then deleted again with an error: the
    caches keep them. *)
Lemma read_only_deletes :
  let rp := policy_of "rp" "bar" "qal" "Route" in
  let w := after (policy_event false Add rp) policy_world in
  let c := policy_event true Delete rp in
  filter_names (c w) = [] /\ result_of (c w) = Some None /\ result_of (c (after c w)) = Some (Some "not found").
Proof. vm_compute. done. Qed.

(** A filter that is no longer in its cluster makes each deletion of the policy fail. *)
Lemma missing_filter_blocks_deletion :
  let rp := policy_of "rp" "bar" "qal" "Route" in
  let w := after (policy_event false Add rp) policy_world in
  let missing := w <| w_api := w_api w <| dp_rest := dp_rest (w_api w) <| rp_api := ∅ |> |> |> in
  let c := policy_event false Delete rp in
  result_of (c missing) = Some (Some "not found") /\
  result_of (c (after c missing)) = Some (Some "not found") /\
  size (RoutingPolicyCache (dp_rest (w_api (after c missing)))) = 1%nat /\
  RoutingPolicyCache_Get "bar" "qal" "rp" (RoutingPolicyCache (dp_rest (w_api (after c missing)))) = Some rp.
Proof. vm_compute. done. Qed.

(** The plugin is in the name of a filter: when it changes, the filter of the old plugin
    stays in the cluster. *)
Lemma old_plugin_stays :
  filter_names ((policy_event false Add (policy_of "rp" "bar" "qal" "Route") ;;;
                 policy_event false Update (policy_of "rp" "bar" "qal" "Other")) policy_world) =
  ["other-dr-rpqalbar-foo-1.17"; "route-dr-rpqalbar-foo-1.17"].
Proof. vm_compute. reflexivity. Qed.

(** An update to another identity leaves the filter of the old one: [oldRP] is not used. *)
Lemma relabelled_routing_policy_stays :
  let old := policy_of "rp" "bar" "qal" "Route" in
  let new := policy_of "rp" "ar" "qal" "Route" in
  filter_names ((policy_event false Add old ;;; policy_event false Update new ;;; policy_event false Delete new) policy_world) =
  ["route-dr-rpqalbar-foo-1.17"].
Proof. vm_compute. reflexivity. Qed.
