(* ===== verification/Clusters.v ===== *)
(** * Clusters: secrets and remote controllers

    [controller/secret/secretcontroller.go] and [clusters/registry.go]: a secret holds the
    kubeconfigs of clusters; for each of them Admiral starts the controllers of the kinds it
    watches there, under one stop channel, and closes it when the secret is deleted or the
    API server of the cluster changes.  The constructors of the controllers are those of
    [controller/admiral] and [controller/istio]. *)
From S2P Require Import Prelude GoStrings Config Objects Metadata ServiceCache Policies Controller DeploymentController.
From S2P Require Import RolloutController ResourceController IstioCaches ConfigControllers ClientControllers.
From stdpp Require Import options.
Local Open Scope Z_scope.

(** ** The constructors of the controllers *)

(** An informer that was started: the name of its controller, the API server, the stop
    channel and the period of its resync. *)
Record started := mkStarted { st_name : string; st_host : string; st_stop : nat; st_resync : Z }.

(** [rest.Config] and [loader.ClientLoader]: the errors of the clients.  [istio_NewForConfig]
    is [versioned.NewForConfig] of the Istio client. *)
Class ClientLoader (Config : Type) := {
  Host : Config -> string;
  LoadAdmiralClientFromConfig : Config -> error;
  LoadIstioClientFromConfig : Config -> error;
  LoadArgoClientFromConfig : Config -> error;
  LoadKubeClientFromConfig : Config -> error;
  LoadNumaflowClientFromConfig : Config -> error;
  istio_NewForConfig : Config -> error;
  LoadKubeClientFromPath : string -> error;
  LoadAdmiralClientFromPath : string -> error;
  LoadAdmiralApiClientFromPath : string -> error
}.

(** What is started before an error stays started. *)
Definition C (A : Type) : Type := list started -> list started * (A + string).
Definition cret {A} (a : A) : C A := fun l => (l, inl a).
Definition cbnd {A B} (c : C A) (k : A -> C B) : C B := fun l =>
  match c l with (l', inl a) => k a l' | (l', inr e) => (l', inr e) end.
Declare Scope start_scope.
Notation "x <- c ;; k" := (cbnd c (fun x => k)) (at level 80, c at next level, right associativity) : start_scope.
Notation "c ;;; k" := (cbnd c (fun _ => k)) (at level 80, right associativity) : start_scope.
Local Open Scope start_scope.

(** [fmt.Errorf(message, err)] *)
Definition failing_with {A} (message : string) (c : C A) : C A := fun l =>
  match c l with (l', inr e) => (l', inr (message +:+ e)) | r => r end.
Definition loaded (err : error) : C unit := fun l => (l, match err with None => inl tt | Some e => inr e end).

(** The informer runs until the channel is closed. *)
Definition NewController (name clusterEndpoint : string) (stopCh : nat) (resyncPeriod : Z) : C unit := fun l =>
  (l ++ [mkStarted name clusterEndpoint stopCh resyncPeriod], inl tt).

(** A new job, vertex or monovertex cache. *)
Definition NewClientCache : clientCache := ∅.

Section Constructors.
Context {Config : Type} {loader : ClientLoader Config} (p : AdmiralParams).
Context (stopCh : nat) (config : Config) (resyncPeriod : Z).

Definition NewServiceController : C serviceCache :=
  failing_with "failed to create ingress service controller k8s client: " (loaded (LoadKubeClientFromConfig config)) ;;;
  NewController "service-ctrl" (Host config) stopCh resyncPeriod ;;; cret ∅.

Definition NewClientConnectionConfigController : C (policyCache ClientConnectionConfig) :=
  failing_with "failed to create clientconnectionsettings controller crd client: " (loaded (LoadAdmiralClientFromConfig config)) ;;;
  NewController "clientconnectionsettings-ctrl" (Host config) stopCh resyncPeriod ;;; cret ∅.

Definition NewGlobalTrafficController : C (policyCache GlobalTrafficPolicy) :=
  failing_with "failed to create global traffic controller crd client: " (loaded (LoadAdmiralClientFromConfig config)) ;;;
  NewController GTPCtrl (Host config) stopCh resyncPeriod ;;; cret ∅.

Definition NewOutlierDetectionController : C (policyCache OutlierDetectionCrd) :=
  failing_with "failed to create outlier detection controller crd client: " (loaded (LoadAdmiralClientFromConfig config)) ;;;
  NewController "od-ctrl" (Host config) stopCh resyncPeriod ;;; cret ∅.

(** The state of the node controller is the locality, nil at first. *)
Definition NewNodeController : C (option string) :=
  failing_with "failed to create dependency controller k8s client: " (loaded (LoadKubeClientFromConfig config)) ;;;
  NewController "node-ctrl" (Host config) stopCh resyncPeriod ;;; cret None.

(** The controller of routing policies has no cache. *)
Definition NewRoutingPoliciesController : C unit :=
  failing_with "failed to create routing policy controller k8s client: " (loaded (LoadKubeClientFromConfig config)) ;;;
  failing_with "failed to create routing policy controller crd client: " (loaded (LoadAdmiralClientFromConfig config)) ;;;
  failing_with "failed to create destination rule controller k8s client: " (loaded (istio_NewForConfig config)) ;;;
  NewController "rp-ctrl" (Host config) stopCh resyncPeriod.

Definition NewDeploymentController : C deploymentCache :=
  failing_with "failed to create deployment controller k8s client: " (loaded (LoadKubeClientFromConfig config)) ;;;
  NewController "deployment-ctrl" (Host config) stopCh resyncPeriod ;;; cret ∅.

Definition NewRolloutsController : C (rolloutCache * argoVsCache) :=
  failing_with "failed to create rollouts controller argo client: " (loaded (LoadArgoClientFromConfig config)) ;;;
  failing_with "failed to create rollouts controller k8s client: " (loaded (LoadKubeClientFromConfig config)) ;;;
  NewController "rollouts-ctrl" (Host config) stopCh resyncPeriod ;;; cret (∅, ∅).

Definition NewJobController : C clientCache :=
  failing_with "failed to create dependency controller k8s client: " (loaded (LoadKubeClientFromConfig config)) ;;;
  NewController "job-ctrl" (Host config) stopCh resyncPeriod ;;; cret NewClientCache.
Definition NewVertexController : C clientCache :=
  failing_with "failed to create dependency controller k8s client: " (loaded (LoadNumaflowClientFromConfig config)) ;;;
  NewController "vertex-ctrl" (Host config) stopCh resyncPeriod ;;; cret NewClientCache.
Definition NewMonoVertexController : C clientCache :=
  failing_with "failed to create dependency controller k8s client: " (loaded (LoadNumaflowClientFromConfig config)) ;;;
  NewController "monoVertex-ctrl" (Host config) stopCh resyncPeriod ;;; cret NewClientCache.

Definition NewServiceEntryController : C seCache :=
  failing_with "failed to create service entry k8s client: " (loaded (LoadIstioClientFromConfig config)) ;;;
  NewController "serviceentry-ctrl" (Host config) stopCh resyncPeriod ;;; cret ∅.
Definition NewDestinationRuleController : C (statusCache DestinationRuleObj) :=
  failing_with "failed to create destination rule controller k8s client: " (loaded (LoadIstioClientFromConfig config)) ;;;
  NewController "destinationrule-ctrl" (Host config) stopCh resyncPeriod ;;; cret ∅.
Definition NewVirtualServiceController : C vs_caches :=
  failing_with "failed to create virtual service controller k8s client: " (loaded (LoadIstioClientFromConfig config)) ;;;
  NewController "virtualservice-ctrl" (Host config) stopCh resyncPeriod ;;; cret (mkVsCaches ∅ ∅ ∅).
Definition NewSidecarController : C (statusCache SidecarObj) :=
  failing_with "failed to create sidecar controller k8s client: " (loaded (LoadIstioClientFromConfig config)) ;;;
  NewController "sidecar-ctrl" (Host config) stopCh resyncPeriod ;;; cret ∅.
End Constructors.

(** The controllers of Admiral's own cluster; they run until the context is done. *)
Section OwnCluster.
Context {Config : Type} {loader : ClientLoader Config} (p : AdmiralParams).
Context (stopCh : nat) (configPath namespace : string) (resyncPeriod : Z).

Definition NewDependencyController : C (statusCache DependencyObj) :=
  failing_with "failed to create dependency controller k8s client: " (loaded (LoadKubeClientFromPath configPath)) ;;;
  failing_with "failed to create dependency controller crd client: " (loaded (LoadAdmiralClientFromPath configPath)) ;;;
  NewController ("dependency-ctrl" +:+ "-" +:+ namespace) "" stopCh resyncPeriod ;;; cret ∅.

Definition NewTrafficConfigController : C (statusCache TrafficConfigObj) :=
  failing_with "failed to create traffic config controller k8s client: " (loaded (LoadKubeClientFromPath configPath)) ;;;
  failing_with "failed to create traffic config controller crd client: " (loaded (LoadAdmiralClientFromPath configPath)) ;;;
  NewController ("trafficconfig-ctrl-" +:+ namespace) "" stopCh resyncPeriod ;;; cret ∅.

(** The type of the shards is another module's. *)
Definition NewShardController {Shard} : C (statusCache Shard) :=
  failing_with "failed to create shard controller k8s client: " (loaded (LoadKubeClientFromPath configPath)) ;;;
  failing_with "failed to create shard controller crd client: " (loaded (LoadAdmiralApiClientFromPath configPath)) ;;;
  NewController "shard-ctrl" "" stopCh resyncPeriod ;;; cret ∅.

(** The namespace of the config map and the prefix of the addresses. *)
Definition NewConfigMapController (seIPPrefix : string) : C (string * string) :=
  loaded (LoadKubeClientFromPath (GetKubeconfigPath p)) ;;;
  cret (GetSyncNamespace p, seIPPrefix).
End OwnCluster.

(** ** The controllers of a cluster *)

(** [RemoteController], each controller with its caches; nil for one that is not
    started. *)
Record remote_controller := mkRemoteController {
  rcClusterID : string;
  rcApiServer : string;
  rcStartTime : Z;
  rcService : option serviceCache;
  rcClientConnectionConfig : option (policyCache ClientConnectionConfig);
  rcGlobalTraffic : option (policyCache GlobalTrafficPolicy);
  rcOutlierDetection : option (policyCache OutlierDetectionCrd);
  rcNode : option (option string);
  rcRoutingPolicy : option unit;
  rcDeployment : option deploymentCache;
  rcRollout : option (rolloutCache * argoVsCache);
  rcJob : option clientCache;
  rcVertex : option clientCache;
  rcMonoVertex : option clientCache;
  rcServiceEntry : option seCache;
  rcDestinationRule : option (statusCache DestinationRuleObj);
  rcVirtualService : option vs_caches;
  rcSidecar : option (statusCache SidecarObj);
  rcStop : nat
}.

Section Cluster.
Context {Config : Type} {loader : ClientLoader Config} (p : AdmiralParams) (argoRolloutsEnabled : bool).

Definition some_if {A} (b : bool) (c : C A) : C (option A) := if b then a <- c;; cret (Some a) else cret None.

(** The handler of virtual services needs a cluster name; its registry is not nil. *)
Definition NewVirtualServiceHandler (clusterID : string) : C unit :=
  loaded (if is_empty clusterID then Some "clusterID is empty, cannot initialize VirtualServiceHandler" else None).

(** A list of clusters that is empty enables all. *)
Definition cluster_enabled (clusters : list string) (clusterID : string) : bool :=
  match clusters with [] => true | _ => str_in clusterID clusters end.

Definition start_controllers (clientConfig : Config) (clusterID : string) (resyncPeriod : Z * Z) (startTime : Z) (stop : nat)
    : C remote_controller :=
  let operator := IsAdmiralOperatorMode p in
  let (universal, seAndDr) := resyncPeriod in
  let init {A} name (c : C A) : C A := failing_with ("error with " +:+ name +:+ " initialization, err: ") c in
  service <- some_if (negb operator) (init "ServiceController" (NewServiceController stop clientConfig 0));;
  ccc <- some_if (negb operator && IsClientConnectionConfigProcessingEnabled p)
    (init "ClientConnectionsConfigController" (NewClientConnectionConfigController stop clientConfig 0));;
  gtp <- some_if (negb operator) (init "GlobalTrafficController" (NewGlobalTrafficController stop clientConfig 0));;
  od <- some_if (negb operator) (init "OutlierDetectionController" (NewOutlierDetectionController stop clientConfig 0));;
  node <- some_if (negb operator) (init "NodeController controller" (NewNodeController stop clientConfig universal));;
  rp <- some_if (negb operator) (init "RoutingPoliciesController" (NewRoutingPoliciesController stop clientConfig 0));;
  deployment <- some_if (negb operator) (init "DeploymentController" (NewDeploymentController stop clientConfig universal));;
  rollout <- some_if (negb operator && argoRolloutsEnabled)
    (init "RolloutController" (NewRolloutsController stop clientConfig universal));;
  let discovery := negb operator && IsClientDiscoveryEnabled p in
  job <- some_if (discovery && cluster_enabled (GetClientDiscoveryClustersForJobs p) clusterID)
    (init "JobController" (NewJobController stop clientConfig 0));;
  let numaflow := discovery && cluster_enabled (GetClientDiscoveryClustersForNumaflow p) clusterID in
  vertex <- some_if numaflow (init "VertexController" (NewVertexController stop clientConfig 0));;
  mono <- some_if numaflow (init "MonoVertexController" (NewMonoVertexController stop clientConfig 0));;
  se <- init "ServiceEntryController" (NewServiceEntryController stop clientConfig seAndDr);;
  dr <- init "DestinationRuleController" (NewDestinationRuleController stop clientConfig seAndDr);;
  failing_with "error initializing VirtualServiceHandler: " (NewVirtualServiceHandler clusterID) ;;;
  vs <- init "VirtualServiceController" (NewVirtualServiceController stop clientConfig 0);;
  sidecar <- init "SidecarController" (NewSidecarController stop clientConfig 0);;
  cret (mkRemoteController clusterID (Host clientConfig) startTime service ccc gtp od node rp deployment rollout job vertex mono
          (Some se) (Some dr) (Some vs) (Some sidecar) stop).
End Cluster.

(** ** The registry and the store of clusters *)

(** [RemoteClusters]: the secret of each cluster.  [channels]: the number of stop channels
    made, the first of them being that of the context. *)
Record clusters := mkClusters {
  RemoteClusters : gmap string string;
  remoteControllers : gmap string remote_controller;
  informers : list started;
  channels : nat;
  closed : gset nat;
  remoteClustersMetric : nat
}.
#[export] Instance eta_clusters : Settable clusters := fun s =>
  mkClusters (RemoteClusters s) (remoteControllers s) (informers s) (channels s) (closed s) (remoteClustersMetric s).

Definition newClustersStore : gmap string string := ∅.
Definition no_clusters : clusters := mkClusters newClustersStore ∅ [] 1 ∅ 0.

(** [None] is a panic. *)
Definition Reg (A : Type) : Type := clusters -> option (A * clusters).
Definition sret {A} (a : A) : Reg A := fun s => Some (a, s).
Definition sbnd {A B} (c : Reg A) (k : A -> Reg B) : Reg B := fun s =>
  match c s with Some (a, s') => k a s' | None => None end.
Definition modify (f : clusters -> clusters) : Reg unit := fun s => Some (tt, f s).
Declare Scope clusters_scope.
Notation "x <- c ;; k" := (sbnd c (fun x => k)) (at level 80, c at next level, right associativity) : clusters_scope.
Notation "c ;;; k" := (sbnd c (fun _ => k)) (at level 80, right associativity) : clusters_scope.
Local Close Scope start_scope.
Local Open Scope clusters_scope.

Definition GetRemoteController (clusterId : string) : Reg (option remote_controller) := fun s =>
  Some (remoteControllers s !! clusterId, s).
Definition PutRemoteController (clusterId : string) (rc : remote_controller) : Reg unit :=
  modify (fun s => s <| remoteControllers := <[clusterId := rc]> (remoteControllers s) |>).
Definition DeleteRemoteController (clusterId : string) : Reg unit :=
  modify (fun s => s <| remoteControllers := delete clusterId (remoteControllers s) |>).

Definition make_channel : Reg nat := fun s => Some (channels s, s <| channels := S (channels s) |>).
(** The second time it panics. *)
Definition close (stop : nat) : Reg unit := fun s =>
  if decide (stop ∈ closed s) then None else Some (tt, s <| closed := {[ stop ]} ∪ closed s |>).

Section Registry.
Context {range : GoRange} {Config : Type} {loader : ClientLoader Config} (p : AdmiralParams) (argoRolloutsEnabled : bool).
(** The time when a channel is made. *)
Context (clock : nat -> Z).

Definition GetClusterIds : Reg (list string) := fun s => Some ((go_range 0 (remoteControllers s)).*1, s).

(** The context is done. *)
Fixpoint close_all (stops : list nat) : Reg unit :=
  match stops with
  | [] => sret tt
  | stop :: rest => close stop ;;; close_all rest
  end.
Definition shutdown : Reg unit := fun s =>
  close_all (rcStop <$> (go_range 0 (remoteControllers s)).*2) s.

Definition run_start {A} (c : C A) : Reg (A + string) := fun s =>
  let '(l, r) := c (informers s) in Some (r, s <| informers := l |>).

Definition createCacheController (clientConfig : Config) (clusterID : string) (resyncPeriod : Z * Z) : Reg error :=
  stop <- make_channel;;
  r <- run_start (start_controllers p argoRolloutsEnabled clientConfig clusterID resyncPeriod (clock stop) stop);;
  match r with
  | inr err => sret (Some err)
  | inl rc => PutRemoteController clusterID rc ;;; sret None
  end.

Definition deleteCacheController (clusterID : string) : Reg error :=
  controller <- GetRemoteController clusterID;;
  match controller with Some rc => close (rcStop rc) | None => sret tt end ;;;
  DeleteRemoteController clusterID ;;;
  sret None.

(** The controller is dereferenced. *)
Definition updateCacheController (clientConfig : Config) (clusterID : string) (resyncPeriod : Z * Z) : Reg error :=
  controller <- GetRemoteController clusterID;;
  match controller with
  | None => fun _ => None
  | Some rc =>
      if Host clientConfig =?s rcApiServer rc then sret None
      else
        err <- deleteCacheController clusterID;;
        match err with
        | Some e => sret (Some e)
        | None => createCacheController clientConfig clusterID resyncPeriod
        end
  end.
End Registry.

(** ** The secret controller *)

Definition secret_maxRetries := 5%nat.
Definition AdmiralProfileDefault := "default".
Definition SecretShardKey := "shard".

(** [corev1.Secret] *)
Record SecretObj := mkSecret { ScMeta : ObjectMeta; ScData : gmap string string }.

(** The resolver that takes the secret for the kubeconfig. *)
Definition DefaultResolver_FetchKubeConfig (secretName kubeConfig : string) : string + string := inl kubeConfig.
Definition DefaultResolver_DeleteClusterFromCache (clusterName : string) : error := None.

(** The resolver of [NewController]; without one the controller is nil. *)
Definition secret_resolver (admiralProfile : string) : option (string -> string -> string + string) :=
  if admiralProfile =?s AdmiralProfileDefault then Some DefaultResolver_FetchKubeConfig else None.

Definition getShardNameFromClusterSecret (p : AdmiralParams) (secret : option SecretObj) : string * error :=
  if negb (IsAdmiralStateSyncerMode p) then ("", None)
  else match secret with
  | None => ("", Some "nil secret passed")
  | Some s =>
      if Nat.eqb (mlen (Annotations (ScMeta s))) 0
      then ("", Some ("no annotations found on secret=" +:+ Name (ScMeta s)))
      else match mlookup (Annotations (ScMeta s)) SecretShardKey with
      | Some shard => (shard, None)
      | None => ("", Some "shard not found")
      end
  end.

Section Secrets.
Context {range : GoRange} {ApiConfig Config : Type} (p : AdmiralParams).
(** The callbacks; [LoadKubeConfig] and [ClientConfig] are client-go's. *)
Context (addCallback updateCallback : Config -> string -> Z * Z -> Reg error) (removeCallback : string -> Reg error).
Context (FetchKubeConfig : string -> string -> string + string).
Context (LoadKubeConfig : string -> ApiConfig + string) (ClientConfig : ApiConfig -> Config + string).

Definition createRemoteCluster (kubeConfig clusterID : string) : Config + string :=
  if is_empty kubeConfig then inr "kubeconfig is empty"
  else match FetchKubeConfig clusterID kubeConfig with
  | inr _ => inr "kubeconfig cannot be fetched"
  | inl kubeConfig =>
      match LoadKubeConfig kubeConfig with
      | inr _ => inr "clusterConfig cannot be loaded"
      | inl clusterConfig =>
          match ClientConfig clusterConfig with
          | inr _ => inr "restConfig cannot be built"
          | inl restConfig => inl restConfig
          end
      end
  end.

Definition register (clusterID secretName : string) : Reg unit :=
  modify (fun s => s <| RemoteClusters := <[clusterID := secretName]> (RemoteClusters s) |>).

(** A cluster of the secret; errors are logged. *)
Definition add_member (secretName clusterID kubeConfig : string) : Reg unit := fun s =>
  match RemoteClusters s !! clusterID with
  | None =>
      match createRemoteCluster kubeConfig clusterID with
      | inr _ => Some (tt, s)
      | inl restConfig =>
          (register clusterID secretName ;;;
           addCallback restConfig clusterID (GetResyncIntervals p) ;;;
           sret tt) s
      end
  | Some prev =>
      if negb (prev =?s secretName) then Some (tt, s)
      else match createRemoteCluster kubeConfig clusterID with
      | inr _ => Some (tt, s)
      | inl restConfig =>
          (register clusterID secretName ;;;
           updateCallback restConfig clusterID (GetResyncIntervals p) ;;;
           sret tt) s
      end
  end.
Fixpoint add_members (secretName : string) (data : list (string * string)) : Reg unit :=
  match data with
  | [] => sret tt
  | (clusterID, kubeConfig) :: rest => add_member secretName clusterID kubeConfig ;;; add_members secretName rest
  end.
Definition set_metric : Reg unit := modify (fun s => s <| remoteClustersMetric := size (RemoteClusters s) |>).
Definition addMemberCluster (secretName : string) (s : SecretObj) : Reg unit :=
  add_members secretName (go_range 0 (ScData s)) ;;; set_metric.

Fixpoint delete_members (secretName : string) (remote : list (string * string)) : Reg unit :=
  match remote with
  | [] => sret tt
  | (clusterID, cluster) :: rest =>
      (if cluster =?s secretName then
         removeCallback clusterID ;;;
         modify (fun s => s <| RemoteClusters := delete clusterID (RemoteClusters s) |>)
       else sret tt) ;;;
      delete_members secretName rest
  end.
Definition deleteMemberCluster (secretName : string) : Reg unit := fun s =>
  (delete_members secretName (go_range 0 (RemoteClusters s)) ;;; set_metric) s.

(** [indexer]: what the informer's store has for a key, or its error. *)
Definition secret_processItem (indexer : string -> option SecretObj + string) (secretName : string) : Reg error :=
  match indexer secretName with
  | inr err => sret (Some ("error fetching object " +:+ secretName +:+ " error: " +:+ err))
  | inl (Some secret) => addMemberCluster secretName secret ;;; sret None
  | inl None => deleteMemberCluster secretName ;;; sret None
  end.

(** [requeues]: how often the key was put back; whether it is put back again. *)
Definition secret_processNextItem (indexer : string -> option SecretObj + string) (secretName : string) (requeues : nat) : Reg bool :=
  err <- secret_processItem indexer secretName;;
  sret (match err with None => false | Some _ => Nat.ltb requeues secret_maxRetries end).
End Secrets.

(** The controller with the callbacks of the registry, as [createSecretController] starts
    it; a profile without resolver gives a nil controller, and running it panics. *)
Definition secret_event {range : GoRange} {ApiConfig Config} {loader : ClientLoader Config} (p : AdmiralParams)
    (argoRolloutsEnabled : bool) (clock : nat -> Z) (LoadKubeConfig : string -> ApiConfig + string)
    (ClientConfig : ApiConfig -> Config + string) (indexer : string -> option SecretObj + string) (secretName : string) (requeues : nat) : Reg bool :=
  match secret_resolver (GetAdmiralProfile p) with
  | None => fun _ => None
  | Some fetch =>
      secret_processNextItem p (createCacheController p argoRolloutsEnabled clock) (updateCacheController p argoRolloutsEnabled clock)
        deleteCacheController fetch LoadKubeConfig ClientConfig indexer secretName requeues
  end.

(** ** Starting controllers *)

Section Starting.
Context {Config : Type} {loader : ClientLoader Config} (p : AdmiralParams) (argo : bool).

(** [c] starts informers of one cluster under one channel, and what it returns has
    [Q]. *)
Definition starts {A} (stop : nat) (host : string) (c : C A) (Q : A -> Prop) : Prop :=
  forall l, (exists k, (c l).1 = l ++ k /\ Forall (fun st => st_stop st = stop /\ st_host st = host) k) /\
    match (c l).2 with inl a => Q a | inr _ => True end.
Definition succeeds {A} (c : C A) : Prop := forall l, exists a, (c l).2 = inl a.

Lemma starts_ret {A} stop host (a : A) (Q : A -> Prop) : Q a -> starts stop host (cret a) Q.
Proof using Type. intros Ha l. split; [|done]. exists []. by rewrite app_nil_r. Qed.

Lemma starts_bnd {A B} stop host (c : C A) (k : A -> C B) (P : A -> Prop) (Q : B -> Prop) :
  starts stop host c P -> (forall a, P a -> starts stop host (k a) Q) -> starts stop host (cbnd c k) Q.
Proof using Type.
  intros Hc Hk l. unfold cbnd. destruct (Hc l) as [(k1 & E & F) HP]. destruct (c l) as [l1 [a|e]]; simpl in *; [|by split; [exists k1|] ].
  destruct (Hk a HP l1) as [(k2 & E2 & F2) HQ]. split; [|done]. exists (k1 ++ k2). rewrite E2, E, app_assoc.
  split; [done|]. by apply Forall_app.
Qed.

Lemma starts_failing {A} stop host message (c : C A) (Q : A -> Prop) :
  starts stop host c Q -> starts stop host (failing_with message c) Q.
Proof using Type. intros Hc l. unfold failing_with. specialize (Hc l). destruct (c l) as [l1 [a|e] ]; [done|by destruct Hc]. Qed.

Lemma starts_loaded stop host err : starts stop host (loaded err) (fun _ => True).
Proof using Type. intros l. split; [|by destruct err]. exists []. by rewrite app_nil_r. Qed.

Lemma starts_controller stop host name resync : starts stop host (NewController name host stop resync) (fun _ => True).
Proof using Type. intros l. split; [|done]. exists [mkStarted name host stop resync]. split; [done|by repeat constructor]. Qed.

Lemma starts_some_if {A} stop host b (c : C A) :
  starts stop host c (fun _ => True) -> starts stop host (some_if b c) (fun _ => True).
Proof using Type.
  intros Hc. destruct b; [|by apply starts_ret]. apply (starts_bnd _ _ _ _ (fun _ => True)); [done|]. intros a _. by apply starts_ret.
Qed.

(** A start without error appends informers with these names. *)
Definition appends {A} (names : list string) (c : C A) : Prop :=
  forall l a, (c l).2 = inl a -> exists k, (c l).1 = l ++ k /\ st_name <$> k = names.

Lemma appends_ret {A} (a : A) : appends [] (cret a).
Proof using Type. intros l a' _. exists []. by rewrite app_nil_r. Qed.
Lemma appends_bnd {A B} names names' (c : C A) (k : A -> C B) :
  appends names c -> (forall a, appends names' (k a)) -> appends (names ++ names') (cbnd c k).
Proof using Type.
  intros Hc Hk l b. unfold cbnd. specialize (Hc l). destruct (c l) as [l1 [a|e]]; [|done]. intros H.
  destruct (Hc a eq_refl) as (k1 & E1 & N1). destruct (Hk a l1 b H) as (k2 & E2 & N2). simpl in E1. subst l1.
  exists (k1 ++ k2). by rewrite E2, app_assoc, fmap_app, N1, N2.
Qed.
Lemma appends_failing {A} names message (c : C A) : appends names c -> appends names (failing_with message c).
Proof using Type. intros Hc l a. unfold failing_with. specialize (Hc l). destruct (c l) as [l1 [a'|e]]; [apply Hc|done]. Qed.
Lemma appends_loaded err : appends [] (loaded err).
Proof using Type. intros l a _. exists []. by rewrite app_nil_r. Qed.
Lemma appends_some_if {A} (b : bool) name (c : C A) : appends [name] c -> appends (if b then [name] else []) (some_if b c).
Proof using Type.
  intros Hc. destruct b; [|apply appends_ret]. apply (appends_bnd [name] []); [done|]. intros a. apply appends_ret.
Qed.
(** A client, and then the controller of that name. *)
Lemma appends_controller {A} name host stop resync message (err : error) (a : A) :
  appends [name] (cbnd (failing_with message (loaded err)) (fun _ : unit => cbnd (NewController name host stop resync) (fun _ => cret a))).
Proof using Type.
  apply (appends_bnd [] [name]); [apply appends_failing, appends_loaded|]. intros _.
  apply (appends_bnd [name] []); [|intros; apply appends_ret].
  intros l b _. by exists [mkStarted name host stop resync].
Qed.

Lemma succeeds_ret {A} (a : A) : succeeds (cret a).
Proof using Type. intros l. by exists a. Qed.
Lemma succeeds_bnd {A B} (c : C A) (k : A -> C B) : succeeds c -> (forall a, succeeds (k a)) -> succeeds (cbnd c k).
Proof using Type.
  intros Hc Hk l. unfold cbnd. destruct (Hc l) as [a Ha]. destruct (c l) as [l1 r]. simpl in Ha. subst r. apply Hk.
Qed.
Lemma succeeds_failing {A} message (c : C A) : succeeds c -> succeeds (failing_with message c).
Proof using Type. intros Hc l. unfold failing_with. destruct (Hc l) as [a Ha]. exists a. by destruct (c l) as [l1 []]. Qed.
Lemma succeeds_loaded err : err = None -> succeeds (loaded err).
Proof using Type. intros -> l. by exists tt. Qed.
Lemma succeeds_some_if {A} b (c : C A) : succeeds c -> succeeds (some_if b c).
Proof using Type.
  intros Hc. destruct b; [|apply succeeds_ret]. apply succeeds_bnd; [done|]. intros a. apply succeeds_ret.
Qed.

(** All clients of a cluster can be made, and it has a name. *)
Definition available (config : Config) (clusterID : string) : Prop :=
  LoadAdmiralClientFromConfig config = None /\ LoadIstioClientFromConfig config = None /\
  LoadArgoClientFromConfig config = None /\ LoadKubeClientFromConfig config = None /\
  LoadNumaflowClientFromConfig config = None /\ istio_NewForConfig config = None /\ clusterID <> "".

Lemma start_controllers_starts (config : Config) clusterID resync time stop :
  starts stop (Host config) (start_controllers p argo config clusterID resync time stop)
    (fun rc => rcClusterID rc = clusterID /\ rcApiServer rc = Host config /\ rcStop rc = stop).
Proof using Type.
  destruct resync as [u s]. unfold start_controllers.
  repeat (eapply (starts_bnd _ _ _ _ (fun _ => True)); [|intros ? _]); try (by apply starts_ret);
    try apply starts_some_if; try apply starts_failing; try apply starts_loaded;
    repeat (eapply (starts_bnd _ _ _ _ (fun _ => True)); [|intros ? _]); try (by apply starts_ret);
    try apply starts_failing; try apply starts_loaded; apply starts_controller.
Qed.

Lemma start_controllers_succeeds (config : Config) clusterID resync time stop :
  available config clusterID -> succeeds (start_controllers p argo config clusterID resync time stop).
Proof using Type.
  intros (H1 & H2 & H3 & H4 & H5 & H6 & Hid). destruct resync as [u s]. unfold start_controllers.
  repeat (apply succeeds_bnd; [|intros ?]); try apply succeeds_ret; try apply succeeds_some_if; try apply succeeds_failing;
    try apply succeeds_loaded; repeat (apply succeeds_bnd; [|intros ?]); try apply succeeds_ret; try apply succeeds_failing;
    try (by apply succeeds_loaded); try (intros l; by exists tt).
  by apply is_empty_false in Hid as ->.
Qed.

(** The controllers that a cluster is to have. *)
Definition controllers_of (clusterID : string) : list string :=
  let when (b : bool) (name : string) := if b then [name] else [] in
  let traffic := negb (IsAdmiralOperatorMode p) in
  let job := traffic && IsClientDiscoveryEnabled p && cluster_enabled (GetClientDiscoveryClustersForJobs p) clusterID in
  let numaflow := traffic && IsClientDiscoveryEnabled p && cluster_enabled (GetClientDiscoveryClustersForNumaflow p) clusterID in
  when traffic "service-ctrl" ++
  when (traffic && IsClientConnectionConfigProcessingEnabled p) "clientconnectionsettings-ctrl" ++
  when traffic "gtp-ctrl" ++ when traffic "od-ctrl" ++ when traffic "node-ctrl" ++ when traffic "rp-ctrl" ++
  when traffic "deployment-ctrl" ++ when (traffic && argo) "rollouts-ctrl" ++
  when job "job-ctrl" ++ when numaflow "vertex-ctrl" ++ when numaflow "monoVertex-ctrl" ++
  ["serviceentry-ctrl"; "destinationrule-ctrl"; "virtualservice-ctrl"; "sidecar-ctrl"].

Lemma start_controllers_appends (config : Config) clusterID resync time stop :
  appends (controllers_of clusterID) (start_controllers p argo config clusterID resync time stop).
Proof using Type.
  destruct resync as [u s]. unfold start_controllers, controllers_of.
  repeat match goal with
  | |- appends (_ ++ _) (cbnd _ _) => apply appends_bnd; [apply appends_some_if, appends_failing|intros ?]
  end; try apply appends_controller.
  - apply (appends_bnd [] ["rp-ctrl"]); [apply appends_failing, appends_loaded|intros _].
    apply (appends_bnd [] ["rp-ctrl"]); [apply appends_failing, appends_loaded|intros _].
    apply (appends_bnd [] ["rp-ctrl"]); [apply appends_failing, appends_loaded|intros _].
    intros l x _. by eexists [_].
  - apply appends_bnd with (names := []); [apply appends_failing, appends_loaded|intros _].
    apply appends_controller.
  - apply (appends_bnd ["serviceentry-ctrl"] ["destinationrule-ctrl"; "virtualservice-ctrl"; "sidecar-ctrl"]);
      [apply appends_failing, appends_controller|intros ?].
    apply (appends_bnd ["destinationrule-ctrl"] ["virtualservice-ctrl"; "sidecar-ctrl"]);
      [apply appends_failing, appends_controller|intros ?].
    apply (appends_bnd [] ["virtualservice-ctrl"; "sidecar-ctrl"]); [apply appends_failing, appends_loaded|intros _].
    apply (appends_bnd ["virtualservice-ctrl"] ["sidecar-ctrl"]); [apply appends_failing, appends_controller|intros ?].
    apply (appends_bnd ["sidecar-ctrl"] []); [apply appends_failing, appends_controller|intros ?]. apply appends_ret.
Qed.
End Starting.

(** ** The invariant *)

(** Each controller of the registry is of a registered cluster, runs under an open channel
    of its own, and its service entries are watched at its API server. *)
Record clusters_ok (s : clusters) : Prop := {
  ok_controller : forall (c : string) rc, remoteControllers s !! c = Some rc ->
    rcClusterID rc = c /\ (rcStop rc < channels s)%nat /\ rcStop rc ∉ closed s /\ is_Some (RemoteClusters s !! c);
  ok_distinct : forall (c c' : string) rc rc', remoteControllers s !! c = Some rc -> remoteControllers s !! c' = Some rc' ->
    rcStop rc = rcStop rc' -> c = c';
  ok_closed : forall n, n ∈ closed s -> (n < channels s)%nat;
  ok_informers : forall st, st ∈ informers s -> (st_stop st < channels s)%nat
}.

(** The informers that were started under a channel. *)
Definition under (stop : nat) (s : clusters) : list started := filter (fun st => st_stop st = stop) (informers s).

(** The cluster has the same secret, the same controllers, and these run the same
    informers. *)
Definition same_at (c : string) (s s' : clusters) : Prop :=
  RemoteClusters s' !! c = RemoteClusters s !! c /\ remoteControllers s' !! c = remoteControllers s !! c /\
  forall rc, remoteControllers s !! c = Some rc -> under (rcStop rc) s' = under (rcStop rc) s.
#[export] Instance same_at_pre c : PreOrder (same_at c).
Proof.
  split; [done|]. intros s s' s'' (H1 & H2 & H3) (H4 & H5 & H6). split; [congruence|]. split; [congruence|].
  intros rc Hrc. rewrite H6 by congruence. by apply H3.
Qed.

(** Channels are only made, and nothing is started any more under those there are. *)
Definition older_kept (s s' : clusters) : Prop :=
  (channels s <= channels s')%nat /\ forall n, (n < channels s)%nat -> under n s' = under n s.
#[export] Instance older_kept_pre : PreOrder older_kept.
Proof.
  split; [done|]. intros s s' s'' [H1 H2] [H3 H4]. split; [lia|]. intros n Hn. rewrite H4 by lia. by apply H2.
Qed.

Lemma no_clusters_ok : clusters_ok no_clusters.
Proof. split; [done..|set_solver|set_solver]. Qed.

Lemma ok_more (s s' : clusters) : clusters_ok s ->
  remoteControllers s' = remoteControllers s -> closed s' = closed s -> channels s' = channels s -> informers s' = informers s ->
  (forall c : string, is_Some (remoteControllers s !! c) -> is_Some (RemoteClusters s' !! c)) -> clusters_ok s'.
Proof.
  intros [H1 H2 H3 H4] E1 E2 E3 E4 Hr. split; rewrite ?E1, ?E2, ?E3, ?E4; [|done..].
  intros c rc Hc. destruct (H1 c rc Hc) as (? & ? & ? & _). split_and!; [done..|]. apply Hr. by exists rc.
Qed.

Lemma delete_controller_spec (c : string) (s : clusters) :
  clusters_ok s ->
  exists s', deleteCacheController c s = Some (None, s') /\ clusters_ok s' /\ RemoteClusters s' = RemoteClusters s /\
    remoteControllers s' = delete c (remoteControllers s) /\
    (forall rc, remoteControllers s !! c = Some rc -> rcStop rc ∈ closed s') /\ closed s ⊆ closed s' /\
    older_kept s s'.
Proof.
  intros [Hc Hd Hcl Hi]. unfold deleteCacheController, sbnd, GetRemoteController.
  destruct (remoteControllers s !! c) as [rc|] eqn:E.
  - destruct (Hc _ _ E) as (Hid & Hlt & Hopen & Hreg). unfold close. rewrite decide_False by done.
    eexists. split; [reflexivity|]. split; [|split_and!; simpl; [done|done|set_solver|set_solver|done] ].
    split; simpl; [| | |done].
    + intros c' rc' H. apply lookup_delete_Some in H as [Hne H]. destruct (Hc _ _ H) as (? & ? & ? & ?).
      split_and!; [done..| |done]. rewrite not_elem_of_union, not_elem_of_singleton. split; [|done].
      intros E'. apply Hne. symmetry. by eapply Hd.
    + intros c1 c2 rc1 rc2 H1 H2. apply lookup_delete_Some in H1 as [_ H1]. apply lookup_delete_Some in H2 as [_ H2]. by eapply Hd.
    + intros n [->%elem_of_singleton|Hn]%elem_of_union; [done|by apply Hcl].
  - eexists. split; [reflexivity|]. split; [|by split_and!].
    apply (ok_more s); [by split|simpl; by apply delete_id|done..|]. intros c' [rc' H]. simpl. by eapply Hc.
Qed.

Section Ops.
Context {range : GoRange} {Config : Type} {loader : ClientLoader Config} (p : AdmiralParams) (argo : bool) (clock : nat -> Z).

(** The cluster has controllers that were started since [s]: those it is to have, each for
    the API server of [config]. *)
Definition started_anew (config : Config) (c : string) (s s' : clusters) : Prop :=
  exists rc, remoteControllers s' !! c = Some rc /\ rcClusterID rc = c /\ rcApiServer rc = Host config /\
    (channels s <= rcStop rc)%nat /\
    st_name <$> under (rcStop rc) s' = controllers_of p argo c /\
    Forall (fun st => st_host st = Host config) (under (rcStop rc) s').

Lemma started_anew_before (config : Config) (c : string) (s s1 s' : clusters) :
  (channels s <= channels s1)%nat -> started_anew config c s1 s' -> started_anew config c s s'.
Proof using Type. intros H (rc & ? & ? & ? & ? & ? & ?). exists rc. split_and!; [done..|lia|done|done]. Qed.

Lemma under_none n (l : list started) : (forall st, st ∈ l -> (st_stop st < n)%nat) -> filter (fun st => st_stop st = n) l = [].
Proof using Type.
  induction l as [|st l IH]; intros H; [done|]. rewrite filter_cons_False.
  - apply IH. intros st' Hin. apply H. by right.
  - specialize (H st (list_elem_of_here _ _)). lia.
Qed.
Lemma under_all n (l : list started) : Forall (fun st => st_stop st = n) l -> filter (fun st => st_stop st = n) l = l.
Proof using Type. induction 1 as [|st l <- _ IH]; [done|]. rewrite filter_cons_True by done. by rewrite IH. Qed.
Lemma under_other n m (l : list started) :
  Forall (fun st => st_stop st = n) l -> m <> n -> filter (fun st => st_stop st = m) l = [].
Proof using Type. intros H Hne. induction H as [|st l <- _ IH]; [done|]. by rewrite filter_cons_False. Qed.

Lemma create_spec (config : Config) (c : string) resync (s : clusters) :
  clusters_ok s -> remoteControllers s !! c = None -> is_Some (RemoteClusters s !! c) ->
  exists err s', createCacheController p argo clock config c resync s = Some (err, s') /\ clusters_ok s' /\
    RemoteClusters s' = RemoteClusters s /\ closed s' = closed s /\
    (forall c', c' <> c -> remoteControllers s' !! c' = remoteControllers s !! c') /\
    (available config c -> err = None) /\
    (err = None -> started_anew config c s s') /\
    (err <> None -> remoteControllers s' !! c = None) /\ older_kept s s'.
Proof using Type.
  intros [Hc Hd Hcl Hi] Hnew Hreg. unfold createCacheController, sbnd, make_channel, run_start. simpl.
  destruct (start_controllers_starts p argo config c resync (clock (channels s)) (channels s) (informers s)) as [(k & Ek & Fk) Hrc].
  pose proof (start_controllers_appends p argo config c resync (clock (channels s)) (channels s) (informers s)) as Hnames.
  pose proof (start_controllers_succeeds p argo config c resync (clock (channels s)) (channels s)) as Hsucc.
  destruct (start_controllers _ _ _ _ _ _ _ (informers s)) as [l r] eqn:Est. simpl in Ek, Hnames. subst l.
  assert (Hk : Forall (fun st => st_stop st = channels s) k) by (eapply Forall_impl; [exact Fk|by intros ? []]).
  assert (Hold : forall s', channels s' = S (channels s) -> informers s' = informers s ++ k -> older_kept s s').
  { intros s' Hch Hin. split; [lia|]. intros n Hn. unfold under. rewrite Hin, filter_app, (under_other _ n k Hk) by lia.
    by rewrite app_nil_r. }
  assert (Hi' : forall st, st ∈ informers s ++ k -> (st_stop st < S (channels s))%nat).
  { intros st [Hst|Hst]%elem_of_app; [by apply Hi in Hst; lia|]. rewrite Forall_forall in Fk. destruct (Fk st Hst) as [-> _]. lia. }
  destruct r as [rc|e]; simpl in Hrc.
  - destruct Hrc as (Hid & Hhost & Hstop). eexists None, _. split; [reflexivity|].
    split; [|split_and!; simpl; [done|done|by intros; rewrite lookup_insert_ne|done| |done|by apply Hold] ].
    + split; simpl; [| |by intros n Hn; apply Hcl in Hn; lia|done].
      * intros c' rc' H. apply lookup_insert_Some in H as [[<- <-]|[Hne H]].
        -- split_and!; [done|lia| |done]. rewrite Hstop. intros Hn. apply Hcl in Hn. lia.
        -- destruct (Hc _ _ H) as (? & ? & ? & ?). split_and!; [done|lia|done..].
      * intros c1 c2 rc1 rc2 H1 H2 E. apply lookup_insert_Some in H1 as [[<- <-]|[Hne1 H1]];
          apply lookup_insert_Some in H2 as [[<- <-]|[Hne2 H2]]; [done| | |by eapply Hd].
        -- apply Hc in H2 as (_ & H2 & _). lia.
        -- apply Hc in H1 as (_ & H1 & _). lia.
    + intros _. exists rc. unfold under. simpl. rewrite lookup_insert_eq, Hstop, filter_app, (under_none _ (informers s)), (under_all _ k)
        by done. destruct (Hnames rc eq_refl) as (k' & <-%app_inv_head & Hn).
      split_and!; [done..|lia|done|]. eapply Forall_impl; [exact Fk|by intros ? []].
  - eexists (Some e), _. split; [reflexivity|].
    split; [|split_and!; simpl; [done|done|done| |done|done|by apply Hold] ].
    + split; simpl; [|done|by intros n Hn; apply Hcl in Hn; lia|done].
      intros c' rc' H. destruct (Hc _ _ H) as (? & ? & ? & ?). split_and!; [done|lia|done..].
    + intros Ha. destruct (Hsucc Ha (informers s)) as [a Ha']. by rewrite Est in Ha'.
Qed.
End Ops.

(** ** Processing a deleted secret *)

Definition changes_only (c : string) (s s' : clusters) : Prop := forall c', c' <> c -> same_at c' s s'.

(** Two maps that agree at a cluster give the same cluster, if what was started before
    stays. *)
Lemma same_at_kept (c : string) (s s' : clusters) : clusters_ok s -> older_kept s s' ->
  RemoteClusters s' !! c = RemoteClusters s !! c -> remoteControllers s' !! c = remoteControllers s !! c -> same_at c s s'.
Proof. intros Hok [_ Ho] H1 H2. split_and!; [done..|]. intros rc Hrc. by apply Ho, (ok_controller s Hok _ _ Hrc). Qed.

Lemma metric_ok (s : clusters) (n : nat) : clusters_ok s -> clusters_ok (s <| remoteClustersMetric := n |>).
Proof. intros Hok. apply (ok_more s); [done..|]. intros c [rc Hrc]. simpl. by eapply Hok. Qed.



Abbreviation remove := (delete_members deleteCacheController).

(** What a deletion leaves of a cluster of the secret: nothing, and its channel closed. *)
Definition gone (c : string) (s s' : clusters) : Prop :=
  RemoteClusters s' !! c = None /\ remoteControllers s' !! c = None /\
  forall rc, remoteControllers s !! c = Some rc -> rcStop rc ∈ closed s'.

Lemma delete_member_spec (c : string) (s : clusters) :
  clusters_ok s ->
  exists s', sbnd (deleteCacheController c) (fun _ => modify (fun s => s <| RemoteClusters := delete c (RemoteClusters s) |>)) s = Some (tt, s') /\
    clusters_ok s' /\ changes_only c s s' /\ gone c s s' /\ closed s ⊆ closed s'.
Proof.
  intros Hok. destruct (delete_controller_spec c s Hok) as (s1 & E & Hok1 & Hr & Hc & Hcl & Hsub & Hold).
  unfold sbnd. rewrite E. eexists. split; [reflexivity|]. split_and!.
  - apply (ok_more s1); [done..|]. intros c' [rc H]. simpl. rewrite Hc in H. apply lookup_delete_Some in H as [Hne H].
    rewrite Hr, lookup_delete_ne by done. by eapply Hok.
  - intros c' Hne. apply same_at_kept; [done|exact Hold|..]; simpl; rewrite ?Hr, ?Hc; by apply lookup_delete_ne.
  - split; [|split; [|done] ]; simpl; rewrite ?Hr, ?Hc; apply lookup_delete_eq.
  - done.
Qed.

Lemma delete_members_spec (secretName : string) (remote : list (string * string)) (s : clusters) :
  clusters_ok s -> NoDup remote.*1 ->
  exists s', remove secretName remote s = Some (tt, s') /\ clusters_ok s' /\ closed s ⊆ closed s' /\
    forall c : string, if decide ((c, secretName) ∈ remote) then gone c s s' else same_at c s s'.
Proof.
  revert s. induction remote as [|[c owner] remote IH]; intros s Hok Hnd.
  { exists s. split_and!; [done..|]. intros c. rewrite decide_False by apply not_elem_of_nil. done. }
  cbn [fmap list_fmap] in Hnd. apply NoDup_cons in Hnd as [Hnin Hnd]. simpl in Hnin. cbn [delete_members].
  assert (Hc : forall o, (c, o) ∉ remote) by (intros o Hin; apply Hnin, list_elem_of_fmap; by exists (c, o)).
  destruct (owner =?s secretName) eqn:Eo.
  - apply seqb_eq in Eo as ->. destruct (delete_member_spec c s Hok) as (s1 & E & Hok1 & Ho1 & Hg1 & Hsub1).
    destruct (IH s1 Hok1 Hnd) as (s2 & E2 & Hok2 & Hsub2 & Hall). exists s2. unfold sbnd at 1. rewrite E.
    split_and!; [done|done|set_solver|]. intros c'. destruct (decide (c' = c)) as [->|Hne].
    + rewrite decide_True by apply list_elem_of_here. specialize (Hall c). rewrite decide_False in Hall by done.
      destruct Hall as (Hr2 & Hc2 & _), Hg1 as (H1 & H2 & H3). split_and!; [congruence..|]. intros rc Hrc. by apply Hsub2, H3.
    + specialize (Hall c'). destruct (Ho1 c' Hne) as (Hr & Hcc & _).
      rewrite (decide_ext _ ((c', secretName) ∈ remote)) by (rewrite elem_of_cons; naive_solver).
      destruct (decide _); [unfold gone in *; by rewrite <- Hcc|]. etransitivity; [|exact Hall]. by apply Ho1.
  - apply seqb_neq in Eo. unfold sbnd at 1. simpl.
    destruct (IH s Hok Hnd) as (s2 & E2 & Hok2 & Hsub2 & Hall). exists s2. split_and!; [done..|]. intros c'.
    rewrite (decide_ext _ ((c', secretName) ∈ remote)); [apply Hall|]. rewrite elem_of_cons. naive_solver.
Qed.

(** ** Processing a secret *)

Section Secret.
Context {range : GoRange} {ApiConfig Config : Type} {loader : ClientLoader Config} (p : AdmiralParams) (argo : bool).
Context (clock : nat -> Z) (fetch : string -> string -> string + string).
Context (LoadKubeConfig : string -> ApiConfig + string) (ClientConfig : ApiConfig -> Config + string).

Abbreviation build kubeConfig clusterID := (createRemoteCluster fetch LoadKubeConfig ClientConfig kubeConfig clusterID).
Abbreviation add := (createCacheController p argo clock).
Abbreviation update := (updateCacheController p argo clock).
Abbreviation member := (add_member p add update fetch LoadKubeConfig ClientConfig).
Abbreviation members := (add_members p add update fetch LoadKubeConfig ClientConfig).

(** The cluster belongs to the secret, or to none. *)
Definition may_have (secretName : string) (s : clusters) (c : string) : Prop :=
  RemoteClusters s !! c = None \/ RemoteClusters s !! c = Some secretName.

(** The controllers of the cluster are those of [config]: the ones it has if these watch
    the same API server, and otherwise new ones. *)
Definition current (config : Config) (c : string) (s s' : clusters) : Prop :=
  match remoteControllers s !! c with
  | Some old =>
      if Host config =?s rcApiServer old
      then remoteControllers s' !! c = Some old /\ under (rcStop old) s' = under (rcStop old) s
      else started_anew p argo config c s s'
  | None => started_anew p argo config c s s'
  end.

Lemma current_controller (config : Config) (c : string) (s s' : clusters) :
  current config c s s' -> exists rc, remoteControllers s' !! c = Some rc /\ rcApiServer rc = Host config.
Proof using Type.
  unfold current. intros H. assert (Hnew : started_anew p argo config c s s' ->
    exists rc, remoteControllers s' !! c = Some rc /\ rcApiServer rc = Host config).
  { intros (rc & ? & _ & ? & _). by exists rc. }
  destruct (remoteControllers s !! c) as [old|]; [|by apply Hnew]. destruct (_ =?s _) eqn:E; [|by apply Hnew].
  apply seqb_eq in E. exists old. by split; [apply H|].
Qed.

(** What the processing of the secret [secretName] makes of cluster [c] with its
    [kubeConfig]. *)
Definition outcome (secretName c kubeConfig : string) (s s' : clusters) : Prop :=
  (~ may_have secretName s c -> same_at c s s') /\
  (forall err, build kubeConfig c = inr err -> same_at c s s') /\
  (forall config, may_have secretName s c -> build kubeConfig c = inl config ->
     RemoteClusters s' !! c = Some secretName /\
     (available config c -> current config c s s')).

(** Its cluster was registered, but its controllers were not started. *)
Definition half_added (secretName c kubeConfig : string) (s : clusters) : Prop :=
  RemoteClusters s !! c = Some secretName /\ remoteControllers s !! c = None /\ exists config, build kubeConfig c = inl config.

Lemma same_at_outcome (secretName c kubeConfig : string) (s s' : clusters) :
  same_at c s s' -> (~ may_have secretName s c \/ exists err, build kubeConfig c = inr err) -> outcome secretName c kubeConfig s s'.
Proof using Type. intros Hs Hor. split_and!; [done..|]. intros config Hm Hb. destruct Hor as [H|[err H] ]; [done|congruence]. Qed.

Lemma built_outcome (secretName c kubeConfig : string) (config : Config) (s s' : clusters) :
  may_have secretName s c -> build kubeConfig c = inl config -> RemoteClusters s' !! c = Some secretName ->
  (available config c -> current config c s s') ->
  outcome secretName c kubeConfig s s'.
Proof using Type. intros Hm Hb Hr Ha. split_and!; [done|by rewrite Hb|]. intros cfg _. rewrite Hb. by intros [= <-]. Qed.

Lemma register_ok (c secretName : string) (s : clusters) :
  clusters_ok s -> clusters_ok (s <| RemoteClusters := <[c := secretName]> (RemoteClusters s) |>).
Proof using Type.
  intros Hok. apply (ok_more s); [done..|]. intros c' [rc Hrc]. simpl. destruct (decide (c' = c)) as [->|Hne].
  - by rewrite lookup_insert_eq.
  - rewrite lookup_insert_ne by done. by eapply Hok.
Qed.

Lemma update_spec (config : Config) (c : string) resync (s : clusters) rc :
  clusters_ok s -> remoteControllers s !! c = Some rc ->
  exists err s', update config c resync s = Some (err, s') /\ clusters_ok s' /\ RemoteClusters s' = RemoteClusters s /\
    (forall c', c' <> c -> remoteControllers s' !! c' = remoteControllers s !! c') /\
    (available config c -> current config c s s') /\ older_kept s s'.
Proof using Type.
  intros Hok Hrc. unfold updateCacheController, sbnd, GetRemoteController, current. rewrite Hrc.
  destruct (Host config =?s rcApiServer rc) eqn:Eh; [exists None, s; by split_and!|].
  destruct (delete_controller_spec c s Hok) as (s1 & -> & Hok1 & Hr1 & Hc1 & _ & _ & Hold1).
  destruct (create_spec p argo clock config c resync s1 Hok1) as (err & s2 & -> & Hok2 & Hr2 & _ & Ho2 & Hav & Hn & _ & Hold2).
  { rewrite Hc1. apply lookup_delete_eq. }
  { rewrite Hr1. by eapply Hok. }
  exists err, s2. split_and!; [done..|by rewrite Hr2| | |by etransitivity].
  - intros c' Hne. rewrite Ho2, Hc1 by done. by apply lookup_delete_ne.
  - intros Ha. eapply started_anew_before; [apply Hold1|by apply Hn, Hav].
Qed.

Lemma add_member_spec (secretName c kubeConfig : string) (s : clusters) :
  clusters_ok s ->
  (member secretName c kubeConfig s = None <-> half_added secretName c kubeConfig s) /\
  forall u s', member secretName c kubeConfig s = Some (u, s') ->
    clusters_ok s' /\ older_kept s s' /\ changes_only c s s' /\ outcome secretName c kubeConfig s s'.
Proof using Type.
  intros Hok. unfold add_member, half_added. destruct (RemoteClusters s !! c) as [prev|] eqn:Er.
  - destruct (prev =?s secretName) eqn:Ep; simpl.
    2: { apply seqb_neq in Ep. split; [split; [done|intros ([= H] & _); congruence] |]. intros u s' [= _ <-].
         split; [done|]. split; [done|]. split; [by intros c' _|]. apply same_at_outcome; [done|]. left.
         intros [H|H]; rewrite Er in H; congruence. }
    apply seqb_eq in Ep as ->. destruct (build kubeConfig c) as [config|e] eqn:Eb.
    2: { split; [split; [done|by intros (_ & _ & [cfg ?])] |]. intros u s' [= _ <-].
         split; [done|]. split; [done|]. split; [by intros c' _|]. apply same_at_outcome; [done|]. right. by exists e. }
    unfold sbnd, register, modify. set (s1 := s <| RemoteClusters := _ |>).
    assert (Hok1 : clusters_ok s1) by by apply register_ok.
    destruct (remoteControllers s !! c) as [rc|] eqn:Ec.
    + destruct (update_spec config c (GetResyncIntervals p) s1 rc Hok1 Ec) as (err & s2 & -> & Hok2 & Hr & Ho & Hav & Hold).
      split; [split; [done|by intros (_ & ? & _)] |]. intros u s' [= _ <-]. split; [done|]. split; [exact Hold|]. split.
      * intros c' Hne. apply same_at_kept; [done|exact Hold| |by rewrite Ho]. rewrite Hr. simpl. by rewrite lookup_insert_ne.
      * apply (built_outcome _ _ _ config); [by right|done|rewrite Hr; apply lookup_insert_eq|done].
    + split; [split; [by eauto|]|].
      * intros _. unfold updateCacheController, sbnd, GetRemoteController. simpl. by rewrite Ec.
      * intros u s'. unfold updateCacheController, sbnd, GetRemoteController. simpl. by rewrite Ec.
  - destruct (build kubeConfig c) as [config|e] eqn:Eb.
    2: { split; [split; [done|by intros (? & _)] |]. intros u s' [= _ <-].
         split; [done|]. split; [done|]. split; [by intros c' _|]. apply same_at_outcome; [done|]. right. by exists e. }
    unfold sbnd, register, modify. set (s1 := s <| RemoteClusters := _ |>).
    assert (Hok1 : clusters_ok s1) by by apply register_ok.
    assert (Ec : remoteControllers s1 !! c = None).
    { destruct (remoteControllers s1 !! c) as [rc|] eqn:E; [|done]. apply (ok_controller s Hok) in E as (_ & _ & _ & [x Hx]). congruence. }
    destruct (create_spec p argo clock config c (GetResyncIntervals p) s1 Hok1 Ec)
      as (err & s2 & -> & Hok2 & Hr & _ & Ho & Hav & Hn & _ & Hold).
    { simpl. by rewrite lookup_insert_eq. }
    split; [split; [done|by intros (? & _)] |]. intros u s' [= _ <-]. split; [done|]. split; [exact Hold|]. split.
    + intros c' Hne. apply same_at_kept; [done|exact Hold| |by rewrite Ho]. rewrite Hr. simpl. by rewrite lookup_insert_ne.
    + apply (built_outcome _ _ _ config); [by left|done|rewrite Hr; apply lookup_insert_eq|].
      intros Ha. unfold current. change (remoteControllers s !! c) with (remoteControllers s1 !! c). rewrite Ec. by apply Hn, Hav.
Qed.

Lemma outcome_before (secretName c kubeConfig : string) (s s1 s2 : clusters) :
  older_kept s s1 -> same_at c s s1 -> outcome secretName c kubeConfig s1 s2 -> outcome secretName c kubeConfig s s2.
Proof using Type.
  intros [Hle _] Hs (H1 & H2 & H3). assert (Hm : may_have secretName s1 c <-> may_have secretName s c).
  { unfold may_have. by destruct Hs as (-> & _). }
  split_and!; [intros Hn; etransitivity; [exact Hs|]; by apply H1; rewrite Hm|intros err He; etransitivity; [exact Hs|by eapply H2]|].
  intros config Hmay Hb. destruct (H3 config) as [Hr Ha]; [by apply Hm|done|]. split; [done|]. intros Hav. specialize (Ha Hav).
  unfold current in *. destruct Hs as (_ & Hc & Hu). rewrite Hc in Ha. destruct (remoteControllers s !! c) as [old|]; [|by eapply started_anew_before].
  destruct (_ =?s _); [|by eapply started_anew_before]. by rewrite <- Hu.
Qed.

Lemma outcome_after (secretName c kubeConfig : string) (s s1 s2 : clusters) :
  outcome secretName c kubeConfig s s1 -> same_at c s1 s2 -> outcome secretName c kubeConfig s s2.
Proof using Type.
  intros (H1 & H2 & H3) Hs.
  split_and!; [intros Hn; etransitivity; [by apply H1|done]|intros err He; etransitivity; [by eapply H2|done]|].
  intros config Hmay Hb. destruct (H3 config Hmay Hb) as [Hr Ha]. destruct Hs as (Hr' & Hc & Hu). split; [congruence|].
  intros Hav. specialize (Ha Hav). assert (Hnew : started_anew p argo config c s s1 -> started_anew p argo config c s s2).
  { intros (rc & Hrc & Hrest). exists rc. rewrite Hc, (Hu rc Hrc). by split. }
  unfold current in *. destruct (remoteControllers s !! c) as [old|]; [|by apply Hnew].
  destruct (_ =?s _); [|by apply Hnew]. destruct Ha as [Ho Hold]. by rewrite Hc, (Hu old Ho).
Qed.

Lemma add_members_spec (secretName : string) (data : list (string * string)) (s : clusters) :
  clusters_ok s -> NoDup data.*1 ->
  (members secretName data s = None <-> exists c kc, (c, kc) ∈ data /\ half_added secretName c kc s) /\
  forall u s', members secretName data s = Some (u, s') ->
    clusters_ok s' /\ (forall c : string, c ∉ data.*1 -> same_at c s s') /\
    forall c kc, (c, kc) ∈ data -> outcome secretName c kc s s'.
Proof using Type.
  revert s. induction data as [|[c kc] data IH]; intros s Hok Hnd.
  { split; [split; [done|by intros (c & kc & Hin & _); apply elem_of_nil in Hin]|]. intros u s' [= _ <-].
    split_and!; [done|done|]. intros c kc Hin. by apply elem_of_nil in Hin. }
  cbn [fmap list_fmap] in Hnd. apply NoDup_cons in Hnd as [Hnin Hnd]. simpl in Hnin. cbn [add_members].
  destruct (add_member_spec secretName c kc s Hok) as [Hpanic Hrun]. unfold sbnd at 1 2.
  destruct (member secretName c kc s) as [[u1 s1]|] eqn:E.
  2: { split; [|done]. split; [|done]. intros _. exists c, kc. split; [apply list_elem_of_here|by apply Hpanic]. }
  destruct (Hrun _ _ eq_refl) as (Hok1 & Hold1 & Ho1 & Hout1). destruct (IH s1 Hok1 Hnd) as [IHp IHr].
  assert (Hne : forall c' kc', (c', kc') ∈ data -> c' <> c).
  { intros c' kc' Hin ->. apply Hnin. apply list_elem_of_fmap. by exists (c, kc'). }
  assert (Hsame : forall c' kc', (c', kc') ∈ data -> same_at c' s s1) by (intros c' kc' Hin; by eapply Ho1, Hne).
  assert (Hhalf : forall c' kc', (c', kc') ∈ data -> half_added secretName c' kc' s <-> half_added secretName c' kc' s1).
  { intros c' kc' Hin. destruct (Hsame _ _ Hin) as (Hr & Hc & _). unfold half_added. by rewrite Hr, Hc. }
  split.
  - rewrite IHp. split.
    + intros (c' & kc' & Hin & Hh). exists c', kc'. split; [by apply list_elem_of_further|by apply (Hhalf _ _ Hin)].
    + intros (c' & kc' & Hin & Hh). apply elem_of_cons in Hin as [[= -> ->]|Hin]; [by apply Hpanic in Hh|].
      exists c', kc'. split; [done|by apply (Hhalf _ _ Hin)].
  - intros u s' H. destruct (IHr _ _ H) as (Hok2 & Ho2 & Hout2). split; [done|]. split.
    + intros c' Hnot. cbn [fmap list_fmap] in Hnot. rewrite not_elem_of_cons in Hnot. destruct Hnot as [Hn1 Hn2].
      etransitivity; [by apply Ho1|by apply Ho2].
    + intros c' kc' Hin. apply elem_of_cons in Hin as [[= -> ->]|Hin].
      * eapply outcome_after; [done|by apply Ho2].
      * eapply outcome_before; [done|by eapply Hsame|by apply Hout2].
Qed.
End Secret.

(** ** What the secret controller promises *)

Section Events.
Context {range : GoRange} {ApiConfig Config : Type} (p : AdmiralParams) (argo : bool) (clock : nat -> Z).

(** Each event may find other clients, other kubeconfigs and another store. *)
Inductive clusters_reachable : clusters -> Prop :=
| clusters_start : clusters_reachable no_clusters
| clusters_event (loader : ClientLoader Config) (LoadKubeConfig : string -> ApiConfig + string)
    (ClientConfig : ApiConfig -> Config + string) indexer key requeues b s s' :
    clusters_reachable s -> secret_event p argo clock LoadKubeConfig ClientConfig indexer key requeues s = Some (b, s') ->
    clusters_reachable s'.

Lemma event_item {loader : ClientLoader Config} (LoadKubeConfig : string -> ApiConfig + string)
    (ClientConfig : ApiConfig -> Config + string) indexer key requeues b s s' :
  secret_event p argo clock LoadKubeConfig ClientConfig indexer key requeues s = Some (b, s') ->
  exists err, secret_processItem p (createCacheController p argo clock) (updateCacheController p argo clock) deleteCacheController
    DefaultResolver_FetchKubeConfig LoadKubeConfig ClientConfig indexer key s = Some (err, s').
Proof using Type.
  unfold secret_event, secret_resolver. destruct (_ =?s _); [|done]. unfold secret_processNextItem, sbnd.
  destruct (secret_processItem _ _ _ _ _ _ _ _ _ s) as [[err s1]|]; [|done]. intros [= _ <-]. by exists err.
Qed.

Lemma item_ok {loader : ClientLoader Config} (fetch : string -> string -> string + string)
    (LoadKubeConfig : string -> ApiConfig + string) (ClientConfig : ApiConfig -> Config + string) indexer key err s s' :
  secret_processItem p (createCacheController p argo clock) (updateCacheController p argo clock) deleteCacheController
    fetch LoadKubeConfig ClientConfig indexer key s = Some (err, s') -> clusters_ok s -> clusters_ok s'.
Proof using Type.
  intros H Hok. unfold secret_processItem in H. destruct (indexer key) as [[secret|]|e]; [| |by injection H as _ <-].
  - destruct (add_members_spec p argo clock fetch LoadKubeConfig ClientConfig key (go_range 0 (ScData secret)) s Hok) as [_ Hrun];
      [apply go_range_fst_NoDup|].
    unfold addMemberCluster, sbnd in H. destruct (add_members _ _ _ _ _ _ _ _ s) as [[u s1]|] eqn:E; [|done].
    injection H as _ <-. apply metric_ok. by eapply Hrun.
  - destruct (delete_members_spec key (go_range 0 (RemoteClusters s)) s Hok) as (s1 & E & Hok1 & _); [apply go_range_fst_NoDup|].
    unfold deleteMemberCluster, sbnd in H. rewrite E in H. injection H as _ <-. by apply metric_ok.
Qed.

Lemma reachable_clusters_ok (s : clusters) : clusters_reachable s -> clusters_ok s.
Proof using Type.
  induction 1 as [|ld lk cc ix key n b s s' _ IH H]; [apply no_clusters_ok|].
  apply event_item in H as [err H]. by eapply item_ok.
Qed.

(** C9: However the secrets change and whichever clients fail, each controller of the
    registry belongs to a cluster of a processed secret and runs under a stop channel of
    its own, which is open; all informers run under channels that were made. *)
Theorem clusters_invariant (s : clusters) : clusters_reachable s -> clusters_ok s.
Proof using Type. apply reachable_clusters_ok. Qed.

Context {loader : ClientLoader Config}.
Context (LoadKubeConfig : string -> ApiConfig + string) (ClientConfig : ApiConfig -> Config + string).
Context (indexer : string -> option SecretObj + string).
Context (default_profile : GetAdmiralProfile p = AdmiralProfileDefault).

Abbreviation event := (secret_event p argo clock LoadKubeConfig ClientConfig indexer).
Abbreviation built := (createRemoteCluster DefaultResolver_FetchKubeConfig LoadKubeConfig ClientConfig).

Lemma event_add (key : string) (secret : SecretObj) (requeues : nat) (s : clusters) :
  indexer key = inl (Some secret) ->
  event key requeues s =
    match add_members p (createCacheController p argo clock) (updateCacheController p argo clock)
            DefaultResolver_FetchKubeConfig LoadKubeConfig ClientConfig key (go_range 0 (ScData secret)) s with
    | Some (_, s') => Some (false, s' <| remoteClustersMetric := size (RemoteClusters s') |>)
    | None => None
    end.
Proof using default_profile.
  intros Hi. unfold secret_event, secret_resolver. rewrite default_profile. simpl.
  unfold secret_processNextItem, secret_processItem, sbnd. rewrite Hi. unfold addMemberCluster, sbnd.
  by destruct (add_members _ _ _ _ _ _ _ _ s) as [[[] s']|].
Qed.

(** Processing a secret panics exactly when one of its clusters is registered under
    it without controllers, because an earlier start of them failed, and its kubeconfig
    can be loaded. *)
Theorem secret_panics_iff (key : string) (requeues : nat) (s : clusters) :
  clusters_reachable s ->
  event key requeues s = None <->
  exists secret c kubeConfig config, indexer key = inl (Some secret) /\ ScData secret !! c = Some kubeConfig /\
    built kubeConfig c = inl config /\ RemoteClusters s !! c = Some key /\ remoteControllers s !! c = None.
Proof using default_profile.
  intros Hok%reachable_clusters_ok. destruct (indexer key) as [[secret|]|e] eqn:Ei.
  - rewrite (event_add _ _ _ _ Ei).
    destruct (add_members_spec p argo clock DefaultResolver_FetchKubeConfig LoadKubeConfig ClientConfig key
      (go_range 0 (ScData secret)) s Hok) as [Hp _]; [apply go_range_fst_NoDup|].
    transitivity (add_members p (createCacheController p argo clock) (updateCacheController p argo clock)
      DefaultResolver_FetchKubeConfig LoadKubeConfig ClientConfig key (go_range 0 (ScData secret)) s = None);
      [by destruct (add_members _ _ _ _ _ _ _ _ s) as [[[] s']|]|]. rewrite Hp. unfold half_added. split.
    + intros (c & kc & Hin%go_range_elem & Hr & Hc & config & Hb). by exists secret, c, kc, config.
    + intros (secret' & c & kc & config & [= <-] & Hd & Hb & Hr & Hc). exists c, kc. split; [by apply go_range_elem|].
      split_and!; [done..|by exists config].
  - split; [|by intros (? & ? & ? & ? & ? & _)]. unfold secret_event, secret_resolver. rewrite default_profile. simpl.
    unfold secret_processNextItem, secret_processItem, sbnd. rewrite Ei. unfold deleteMemberCluster, sbnd.
    destruct (delete_members_spec key (go_range 0 (RemoteClusters s)) s Hok) as (s1 & -> & _); [apply go_range_fst_NoDup|done].
  - split; [|by intros (? & ? & ? & ? & ? & _)]. unfold secret_event, secret_resolver. rewrite default_profile. simpl.
    unfold secret_processNextItem, secret_processItem, sbnd. by rewrite Ei.
Qed.

(** C10: In the default profile, when the processing of a secret returns, the key is not put
    back.  Each of its clusters that no other secret has and whose kubeconfig can be loaded
    is registered under it and, if its clients can be made, has controllers for the API
    server of its kubeconfig.  If the cluster had controllers for this API server, they are
    kept with their informers, and with the clients they were made with; otherwise new ones
    are started, exactly those that the parameters ask for, each for this API server.  Their
    channel is open.  All other clusters keep their secret, controllers and informers. *)
Theorem secret_clusters_started (key : string) (secret : SecretObj) (requeues : nat) (b : bool) (s s' : clusters) :
  clusters_reachable s -> indexer key = inl (Some secret) -> event key requeues s = Some (b, s') ->
  b = false /\
  (forall c kubeConfig config, ScData secret !! c = Some kubeConfig -> may_have key s c -> built kubeConfig c = inl config ->
     RemoteClusters s' !! c = Some key /\
     (available config c -> current p argo config c s s' /\
        exists rc, remoteControllers s' !! c = Some rc /\ rcApiServer rc = Host config /\ rcStop rc ∉ closed s')) /\
  (forall c, ScData secret !! c = None \/ ~ may_have key s c -> same_at c s s').
Proof using default_profile.
  intros Hok%reachable_clusters_ok Hi H. rewrite (event_add _ _ _ _ Hi) in H.
  destruct (add_members_spec p argo clock DefaultResolver_FetchKubeConfig LoadKubeConfig ClientConfig key
    (go_range 0 (ScData secret)) s Hok) as [_ Hrun]; [apply go_range_fst_NoDup|].
  destruct (add_members _ _ _ _ _ _ _ _ s) as [[u s1]|]; [|done]. destruct (Hrun _ _ eq_refl) as (Hok1 & Hsame & Hout).
  injection H as <- <-. split; [done|]. split.
  - intros c kc config Hd Hm Hb. destruct (Hout c kc) as (_ & _ & Ho); [by apply go_range_elem|].
    destruct (Ho config Hm Hb) as [Hr Ha]. split; [done|]. intros Hav. specialize (Ha Hav).
    split; [exact Ha|]. destruct (current_controller _ _ _ _ _ _ Ha) as (rc & Hrc & Hh). exists rc. split_and!; [done..|]. by eapply Hok1.
  - intros c Hor. destruct (ScData secret !! c) as [kc|] eqn:Ed.
    + destruct Hor as [|Hnot]; [done|]. destruct (Hout c kc) as (Ho & _); [by apply go_range_elem|]. by apply Ho.
    + apply Hsame. intros Hin. apply list_elem_of_fmap in Hin as ([c' kc] & -> & Hin). apply go_range_elem in Hin. simpl in Ed. congruence.
Qed.

(** C19: The processing of a deleted secret returns and removes exactly its clusters: they
    are no longer registered, have no controllers, and the channels of those they had are
    closed; the others are as they were. *)
Theorem secret_deletion_complete (key : string) (requeues : nat) (s : clusters) :
  clusters_reachable s -> indexer key = inl None ->
  exists s', event key requeues s = Some (false, s') /\ remoteClustersMetric s' = size (RemoteClusters s') /\
    forall c : string, if decide (RemoteClusters s !! c = Some key) then gone c s s' else same_at c s s'.
Proof using default_profile.
  intros Hok%reachable_clusters_ok Hi.
  destruct (delete_members_spec key (go_range 0 (RemoteClusters s)) s Hok) as (s1 & E & Hok1 & _ & Hall); [apply go_range_fst_NoDup|].
  eexists. split; [|split; [|intros c; specialize (Hall c)] ].
  - unfold secret_event, secret_resolver. rewrite default_profile. simpl. unfold secret_processNextItem, secret_processItem, sbnd. rewrite Hi.
    unfold deleteMemberCluster, sbnd. rewrite E. reflexivity.
  - done.
  - rewrite (decide_ext _ ((c, key) ∈ go_range 0 (RemoteClusters s))) by (by rewrite go_range_elem). by destruct (decide _).
Qed.
End Events.

(** ** Two secrets *)

(** A kubeconfig is the host of its API server; the Istio client of a host in [down] cannot
    be made. *)
Definition host_loader (down : list string) : ClientLoader string := {|
  Host config := config;
  LoadAdmiralClientFromConfig _ := None;
  LoadIstioClientFromConfig config := if str_in config down then Some "no client" else None;
  LoadArgoClientFromConfig _ := None;
  LoadKubeClientFromConfig _ := None;
  LoadNumaflowClientFromConfig _ := None;
  istio_NewForConfig _ := None;
  LoadKubeClientFromPath _ := None;
  LoadAdmiralClientFromPath _ := None;
  LoadAdmiralApiClientFromPath _ := None
|}.
Definition secret_params : AdmiralParams := Params.zero_AdmiralParams <| Params.Profile := "default" |>.
Definition one_secret (name : string) (data : gmap string string) (key : string) : option SecretObj + string :=
  inl (if key =?s name then Some (mkSecret (mkMeta name "admiral" None None 0 "1") data) else None).
Definition secret_run (down : list string) (data : gmap string string) (name : string) : Reg bool :=
  secret_event (loader := host_loader down) secret_params false (fun _ => 0) inl inl
    (if Nat.eqb (size data) 0 then fun _ => inl None else one_secret name data) name 0.
Definition clusters_after (c : Reg bool) (s : clusters) : clusters := match c s with Some (_, s') => s' | None => s end.
Definition hosts (s : clusters) : gmap string string := rcApiServer <$> remoteControllers s.
Definition running (s : clusters) : list string := st_name <$> filter (fun st => st_stop st ∉ closed s) (informers s).

Abbreviation secret_reached := (@clusters_reachable _ string string secret_params false (fun _ => 0)).
Definition two_clusters_started : clusters :=
  clusters_after (secret_run [] {[ "c1" := "h1"; "c2" := "h2" ]} "s") no_clusters.

Lemma secret_run_reached (down : list string) (data : gmap string string) (name : string) (s : clusters) :
  secret_reached s -> secret_reached (clusters_after (secret_run down data name) s).
Proof.
  intros Hs. unfold clusters_after. destruct (secret_run down data name s) as [[b s']|] eqn:E; [|done].
  eapply clusters_event; [exact Hs|exact E].
Qed.

Lemma two_clusters_reached : secret_reached two_clusters_started.
Proof. apply secret_run_reached, clusters_start. Qed.

Lemma clusters_invariant_witness :
  hosts two_clusters_started = {[ "c1" := "h1"; "c2" := "h2" ]} /\ clusters_ok two_clusters_started.
Proof.
  split; [vm_compute; reflexivity|].
  exact (clusters_invariant secret_params false (fun _ => 0) two_clusters_started two_clusters_reached).
Defined.

(** The API server of [c1] moves. *)
Lemma secret_clusters_started_witness :
  let s' := clusters_after (secret_run [] {[ "c1" := "h3"; "c2" := "h2" ]} "s") two_clusters_started in
  hosts s' = {[ "c1" := "h3"; "c2" := "h2" ]} /\
  st_name <$> filter (fun st => st_host st = "h3") (informers s') = controllers_of secret_params false "c1" /\
  exists rc, remoteControllers s' !! "c1" = Some rc /\ rcApiServer rc = "h3" /\ rcStop rc ∉ closed s'.
Proof.
  intros s'. split; [vm_compute; reflexivity|]. split; [vm_compute; reflexivity|].
  refine (proj2 (proj2 (proj1 (proj2 (secret_clusters_started (loader := host_loader []) secret_params false (fun _ => 0) inl inl
    (one_secret "s" {[ "c1" := "h3"; "c2" := "h2" ]}) eq_refl "s" _ 0 false two_clusters_started s' two_clusters_reached
    eq_refl _)) "c1" "h3" "h3" _ _ _) _)); [vm_compute; reflexivity|reflexivity|by right|reflexivity|by split_and!].
Defined.

Lemma secret_deletion_complete_witness :
  exists s', secret_run [] ∅ "s" two_clusters_started = Some (false, s') /\ RemoteClusters s' !! "c1" = None /\
    running s' = [] /\ length (running two_clusters_started) = 20%nat.
Proof.
  destruct (secret_deletion_complete (loader := host_loader []) secret_params false (fun _ => 0) inl inl (fun _ => inl None) eq_refl
    "s" 0 two_clusters_started two_clusters_reached eq_refl) as (s' & E & _ & Hall).
  exists s'. split; [exact E|]. split.
  - specialize (Hall "c1"). rewrite decide_True in Hall by (vm_compute; reflexivity). apply Hall.
  - split; [|vm_compute; reflexivity].
    assert (E' : Some (false, s') = secret_run [] ∅ "s" two_clusters_started) by (symmetry; exact E).
    revert E'. vm_compute. by intros [= ->].
Defined.

(** A start that failed is not tried again, and leaves informers that nothing stops; the
    next update of the secret panics. *)
Lemma failed_cluster_panics :
  let s := clusters_after (secret_run ["h1"] {[ "c1" := "h1" ]} "s") no_clusters in
  RemoteClusters s !! "c1" = Some "s" /\ hosts s = ∅ /\
  running s = ["service-ctrl"; "gtp-ctrl"; "od-ctrl"; "node-ctrl"; "rp-ctrl"; "deployment-ctrl"] /\
  secret_run [] {[ "c1" := "h1" ]} "s" s = None /\
  running (clusters_after (secret_run [] ∅ "s") s) = running s.
Proof. vm_compute. done. Qed.

Lemma secret_panics_iff_witness :
  let s := clusters_after (secret_run ["h1"] {[ "c1" := "h1" ]} "s") no_clusters in
  secret_reached s /\ secret_run [] {[ "c1" := "h1" ]} "s" s = None.
Proof.
  intros s. assert (Hs : secret_reached s) by apply secret_run_reached, clusters_start. split; [exact Hs|].
  apply (secret_panics_iff (loader := host_loader []) secret_params false (fun _ => 0) inl inl
    (one_secret "s" {[ "c1" := "h1" ]}) eq_refl "s" 0 s Hs).
  exists (mkSecret (mkMeta "s" "admiral" None None 0 "1") {[ "c1" := "h1" ]}), "c1", "h1", "h1".
  split_and!; vm_compute; reflexivity.
Defined.

(** A cluster that is taken out of its secret stays. *)
Lemma dropped_cluster_stays :
  hosts (clusters_after (secret_run [] {[ "c1" := "h1" ]} "s") two_clusters_started) = {[ "c1" := "h1"; "c2" := "h2" ]}.
Proof. vm_compute. reflexivity. Qed.

(** A cluster of two secrets is the first one's; it is gone when that is deleted, although
    the other still has it. *)
Lemma shared_cluster_lost :
  let s := clusters_after (secret_run [] {[ "c1" := "h1" ]} "other") two_clusters_started in
  hosts s = {[ "c1" := "h1"; "c2" := "h2" ]} /\ hosts (clusters_after (secret_run [] ∅ "s") s) = ∅.
Proof. vm_compute. done. Qed.

(** Only the default profile has a secret resolver; with another one the controller is
    nil. *)
Lemma other_profile_panics :
  secret_event (loader := host_loader []) (secret_params <| Params.Profile := "intuit" |>) false (fun _ => 0) inl inl
    (one_secret "s" ∅) "s" 0 no_clusters = None.
Proof. vm_compute. reflexivity. Qed.

(** A shutdown closes the channels, which a deletion that follows closes again. *)
Lemma deletion_after_shutdown_panics :
  match shutdown two_clusters_started with
  | Some (_, s) => running s = [] /\ secret_run [] ∅ "s" s = None
  | None => False
  end.
Proof. vm_compute. done. Qed.
