(* ===== verification/SecretController.v ===== *)
(** * The start of the secret controller

    [NewController], [StartSecretController] and [Run] of
    [controller/secret/secretcontroller.go] and [createSecretController] of
    [clusters/registry.go].  The processing of a key is [secret_event] of [Clusters.v];
    the informer, its keys and the queue are client-go's. *)
From S2P Require Import Prelude GoStrings Config Objects Metadata Clusters.
From stdpp Require Import options.

Definition filterLabel := "admiral/sync".
(** The selector of [ListFunc] and [WatchFunc]. *)
Definition secret_selector : string := filterLabel +:+ "=true".

(** The store of clusters: a cluster and the name of its secret. *)
Definition newClustersStore : gmap string string := ∅.

(** [Controller]: the callbacks are those of [Clusters.v]. *)
Record secret_controller := mkSecretController {
  scNamespace : string;
  scCs : gmap string string;
  scSelector : string;
  scResolver : string -> string -> string + string
}.

(** The handlers of the informer, by the key of the object or its error: what is added to
    the queue.  A deletion takes the key of the object or of its tombstone. *)
Definition secret_AddFunc (key : string + string) : list string := match key with inl key => [key] | inr _ => [] end.
Definition secret_UpdateFunc (newKey : string + string) : list string := match newKey with inl key => [key] | inr _ => [] end.
Definition secret_DeleteFunc (key : string + string) : list string := match key with inl key => [key] | inr _ => [] end.

(** [None] is nil, after the error has been logged. *)
Definition NewSecretController (namespace : string) (cs : gmap string string) (admiralProfile : string) : option secret_controller :=
  match secret_resolver admiralProfile with
  | Some secretResolver => Some (mkSecretController namespace cs secret_selector secretResolver)
  | None => None
  end.

(** What [Run] does: it uses the controller's queue, then waits for the informer. *)
Inductive secret_run_result := NilPointer | NotSynced | Working.
Definition secret_Run (c : option secret_controller) (WaitForCacheSync : bool) : secret_run_result :=
  match c with
  | None => NilPointer
  | Some _ => if WaitForCacheSync then Working else NotSynced
  end.

(** The controller that is returned with a nil error, and what the goroutine of [Run]
    does. *)
Definition StartSecretController (namespace admiralProfile : string) (WaitForCacheSync : bool)
    : option secret_controller * error * secret_run_result :=
  let controller := NewSecretController namespace newClustersStore admiralProfile in
  (controller, None, secret_Run controller WaitForCacheSync).

Section Create.
Context {Config : Type} {loader : ClientLoader Config} (p : AdmiralParams) (WaitForCacheSync : bool).

(** The controller that the registry gets, the error, and the goroutine if it runs. *)
Definition createSecretController : option secret_controller * error * option secret_run_result :=
  match LoadKubeClientFromPath (GetKubeconfigPath p) with
  | Some err => (None, Some ("could not create K8s client: " +:+ err), None)
  | None =>
      match StartSecretController (GetClusterRegistriesNamespace p) (GetAdmiralProfile p) WaitForCacheSync with
      | (controller, Some err, run) => (None, Some ("could not start secret controller: " +:+ err), Some run)
      | (controller, None, run) => (controller, None, Some run)
      end
  end.

(** ** Lemmas *)

(** Once a client can be made there is no error, and the goroutine panics exactly when the
    profile is not the default one. *)
Lemma secret_controller_starts : LoadKubeClientFromPath (GetKubeconfigPath p) = None ->
  let '(controller, err, run) := createSecretController in
  err = None /\
  (run = Some NilPointer <-> GetAdmiralProfile p <> AdmiralProfileDefault) /\
  (forall c, controller = Some c -> scNamespace c = GetClusterRegistriesNamespace p /\ scCs c = ∅ /\ scSelector c = "admiral/sync=true").
Proof.
  intros H. unfold createSecretController, StartSecretController, NewSecretController, secret_resolver. rewrite H.
  destruct (GetAdmiralProfile p =?s AdmiralProfileDefault) eqn:E.
  - apply seqb_eq in E. split_and!; [done| |by intros c [= <-]].
    simpl. destruct WaitForCacheSync; naive_solver.
  - split_and!; [done| |done]. split; [|done]. intros _ He. by rewrite He, seqb_refl in E.
Qed.

(** An event is processed only where the controller is there. *)
Lemma nil_controller_events {range : GoRange} {ApiConfig} argo clock (Load : string -> ApiConfig + string)
    (Client : ApiConfig -> Config + string) indexer key requeues :
  NewSecretController (GetClusterRegistriesNamespace p) newClustersStore (GetAdmiralProfile p) = None ->
  secret_event p argo clock Load Client indexer key requeues = fun _ => None.
Proof. unfold NewSecretController, secret_event. by destruct (secret_resolver _). Qed.
End Create.
