(* ===== verification/DynamicConfig.v ===== *)
(** * The dynamic configuration and the workload table

    [clusters/admiralDatabaseClient.go] and [clusters/dynamoDB.go]: Admiral reads a row of
    configuration from a table every few minutes, puts it into its parameters and, when it
    has changed, processes the clusters whose load balancer changed and the clients it
    names; the workload records are written to another table.  The tables are those of the
    AWS SDK. *)
From S2P Require Import Prelude GoStrings Config Objects Metadata ServiceCache Policies AddressStore StateCheck.
From S2P Require Import Caches Dependents World ServiceEntries GatherServiceEntries.
From stdpp Require Import options.
Local Open Scope world_scope.

(** ** The tables *)

Definition dynamoDbMaxRetries := 3%nat.
Definition AssetAliasKey := "assetAlias".
Definition EndpointKey := "endpoint".
Definition SuccessClustersKey := "successClusters".
Definition FailedClustersKey := "failedClusters".
Definition DynamicConfigUpdate := "DynamicConfigUpdate".

Record DynamicConfigData := mkDynamicConfig {
  EnableDynamicConfig : string;
  NLBEnabledClusters : list string;
  NLBEnabledIdentityList : list string;
  CLBEnabledClusters : list string;
  InitiateClientInitiatedProcessingFor : list string
}.

(** An action of [expression.UpdateBuilder]; [SS] is a set of strings. *)
Inductive update_action (Value : Type) :=
| RemoveAttr (name : string)
| SetAttr (name : string) (value : Value)
| SetSS (name : string) (value : list string)
| DeleteFrom (name : string) (value : list string)
| AddTo (name : string) (value : list string).
Arguments RemoveAttr {Value} _.
Arguments SetAttr {Value} _ _.
Arguments SetSS {Value} _ _.
Arguments DeleteFrom {Value} _ _.
Arguments AddTo {Value} _ _.

Record query_output (Item : Type) := mkQueryOutput { Items : list Item; Count : option Z }.
Arguments mkQueryOutput {Item} _ _.
Arguments Items {Item} _.
Arguments Count {Item} _.

(** The SDK: the calls, which may change the tables, the expressions and the conversions
    of items. *)
Class DynamoDB (St Value Item Expr : Type) := {
  UpdateItem : string -> string * string -> Expr -> St -> St * error;
  DeleteItem : string -> string * string -> St -> St * error;
  Query : string -> Expr -> St -> St * (option (query_output Item) + string);
  build_update : list (update_action Value) -> Expr + string;
  build_key : string * string -> option (string * string) -> Expr + string;
  MarshalMap : WorkloadData -> gmap string Value + string;
  marshal_keys : string * string -> error;
  unmarshal_workload : Item -> WorkloadData + string;
  unmarshal_config : Item -> DynamicConfigData + string;
  count_pointer : option Z -> string  (* how %d prints the pointer *)
}.

Section Tables.
Context {range : GoRange} {St Value Item Expr : Type} {db : DynamoDB St Value Item Expr}.

Definition handleClusterListUpdate (workloadDataEntry : WorkloadData) : list (update_action Value) :=
  match wdSuccessCluster workloadDataEntry, wdFailedClusters workloadDataEntry with
  | None, None => [RemoveAttr SuccessClustersKey; RemoveAttr FailedClustersKey]
  | Some successClusters, Some failedClusters => [SetSS SuccessClustersKey successClusters; SetSS FailedClustersKey failedClusters]
  | Some successClusters, None => [DeleteFrom FailedClustersKey successClusters; AddTo SuccessClustersKey successClusters]
  | None, Some failedClusters => [DeleteFrom SuccessClustersKey failedClusters; AddTo FailedClustersKey failedClusters]
  end.

(** Neither the primary keys nor the lists of clusters. *)
Definition settable (key : string) : bool :=
  negb ((key =?s AssetAliasKey) || (key =?s EndpointKey) || (key =?s FailedClustersKey) || (key =?s SuccessClustersKey)).

Definition update_actions (workloadDataEntry : WorkloadData) (av : gmap string Value) : list (update_action Value) :=
  handleClusterListUpdate workloadDataEntry ++
  map (fun kv => SetAttr kv.1 kv.2) (List.filter (fun kv => settable kv.1) (go_range 0 av)).

Definition generateUpdateExpression (workloadDataEntry : WorkloadData) : Expr + string :=
  match MarshalMap workloadDataEntry with
  | inr err => inr ("error marshalling workload data: " +:+ err)
  | inl av => build_update (update_actions workloadDataEntry av)
  end.

(** At most [n] attempts, with a sleep after each that fails; the number of sleeps. *)
Fixpoint attempts (n : nat) (call : St -> St * error) (err : error) (s : St) : St * error * nat :=
  match n with
  | 0%nat => (s, err, 0%nat)
  | S n =>
      match call s with
      | (s', None) => (s', None, 0%nat)
      | (s', Some e) => let '(r, k) := attempts n call (Some e) s' in (r, S k)
      end
  end.

Definition updateWorkloadDataItem (workloadDataEntry : WorkloadData) (tableName : string) (s : St) : St * error * nat :=
  match generateUpdateExpression workloadDataEntry with
  | inr err => (s, Some ("failed to generate update expression : " +:+ err), 0%nat)
  | inl expr =>
      attempts dynamoDbMaxRetries
        (UpdateItem tableName (wdAssetAlias workloadDataEntry, wdEndpoint workloadDataEntry) expr) None s
  end.

Definition deleteWorkloadDataItem (workloadDataEntry : WorkloadData) (tableName : string) (s : St) : St * error * nat :=
  let keys := (wdAssetAlias workloadDataEntry, wdEndpoint workloadDataEntry) in
  match marshal_keys keys with
  | Some err => (s, Some err, 0%nat)
  | None => attempts dynamoDbMaxRetries (DeleteItem tableName keys) None s
  end.

(** The first item that cannot be read ends it. *)
Fixpoint unmarshal_all (items : list Item) : list WorkloadData + string :=
  match items with
  | [] => inl []
  | item :: rest =>
      match unmarshal_workload item with
      | inr err => inr ("failed to unmarshal table items, err: " +:+ err)
      | inl w => match unmarshal_all rest with inl ws => inl (w :: ws) | r => r end
      end
  end.

Definition getWorkloadDataItemByIdentityAndEnv (env identity tableName : string) (s : St)
    : St * (list WorkloadData + string) :=
  match build_key (AssetAliasKey, identity) (Some ("env", env)) with
  | inr err => (s, inr err)
  | inl expr =>
      match Query tableName expr s with
      | (s', inr err) => (s', inr ("failed to query items from workload data table for identity " +:+ identity +:+ " and env "
                            +:+ env +:+ ", err: " +:+ err))
      | (s', inl None) => (s', inl [])
      | (s', inl (Some items)) => (s', unmarshal_all (Items items))
      end
  end.

Definition no_config : DynamicConfigData := mkDynamicConfig "" [] [] [] [].

(** [None] is a panic: a count of one without an item. *)
Definition getDynamicConfig (key value tableName : string) (s : St) : option (St * (DynamicConfigData + string)) :=
  match build_key (key, value) None with
  | inr err => Some (s, inr err)
  | inl expr =>
      match Query tableName expr s with
      | (s', inr err) => Some (s', inr ("task=" +:+ DynamicConfigUpdate +:+ ", Failed to fetch dynamic config : " +:+ err))
      | (s', inl None) => Some (s', inl no_config)
      | (s', inl (Some items)) =>
          match Count items with
          | Some 1%Z =>
              match Items items with
              | [] => None
              | item :: _ =>
                  Some (s', match unmarshal_config item with
                            | inr err => inr ("task=" +:+ DynamicConfigUpdate +:+ ", failed to unmarshal table items, err: " +:+ err)
                            | inl c => inl c
                            end)
              end
          | count => Some (s', inr ("task=" +:+ DynamicConfigUpdate +:+ ", Expected only 1 row but got " +:+ count_pointer count +:+
                                " for tableName : " +:+ tableName))
          end
      end
  end.

(** *** The database clients

    Their two pointers: the client of the SDK and the table. *)
Record database_client := mkDatabaseClient { has_dynamoClient : bool; database : option string }.

Definition checkIfDatabaseClientIsInitialize (c : option database_client) : string + string :=
  match c with
  | Some (mkDatabaseClient true (Some tableName)) => inl tableName
  | Some (mkDatabaseClient true None) => inr "database is not initialized"
  | _ => inr "dynamoClient is not initialized"
  end.

Definition WorkloadDatabaseClient_Update (c : option database_client) (data : WorkloadData) (s : St) : St * error * nat :=
  match checkIfDatabaseClientIsInitialize c with
  | inr err => (s, Some err, 0%nat)
  | inl tableName => updateWorkloadDataItem data tableName s
  end.
Definition WorkloadDatabaseClient_Delete (c : option database_client) (data : WorkloadData) (s : St) : St * error * nat :=
  match checkIfDatabaseClientIsInitialize c with
  | inr err => (s, Some err, 0%nat)
  | inl tableName => deleteWorkloadDataItem data tableName s
  end.
Definition WorkloadDatabaseClient_Get (c : option database_client) (env identity : string) (s : St)
    : St * (list WorkloadData + string) :=
  match checkIfDatabaseClientIsInitialize c with
  | inr err => (s, inr err)
  | inl tableName => getWorkloadDataItemByIdentityAndEnv env identity tableName s
  end.

Definition checkIfDynamicConfigDatabaseClientIsInitialized (c : option database_client) : string + string :=
  match c with
  | Some (mkDatabaseClient true (Some tableName)) => inl tableName
  | Some (mkDatabaseClient true None) => inr ("task=" +:+ DynamicConfigUpdate +:+ ", database is not initialized")
  | _ => inr ("task=" +:+ DynamicConfigUpdate +:+ ", dynamoClient is not initialized")
  end.

(** [Update] and [Delete] of this client panic. *)
Definition DynamicConfigDatabaseClient_Get (c : option database_client) (env identity : string) (s : St)
    : option (St * (DynamicConfigData + string)) :=
  match checkIfDynamicConfigDatabaseClientIsInitialized c with
  | inr err => Some (s, inr err)
  | inl tableName => getDynamicConfig env identity tableName s
  end.

(** Not implemented: [panic]. *)
Definition DynamicConfigDatabaseClient_Update (s : St) : option (St * error) := None.
Definition DynamicConfigDatabaseClient_Delete (s : St) : option (St * error) := None.

Definition DummyDatabaseClient_Update (s : St) : St * error := (s, None).
Definition DummyDatabaseClient_Delete (s : St) : St * error := (s, None).
Definition DummyDatabaseClient_Get (s : St) : St * (option (list WorkloadData) * error) := (s, (None, None)).

(** [NewAdmiralDatabaseClient] and [NewDynamicConfigDatabaseClient]: the configuration file
    gives the table of the workloads, the role and the region; the other table is a
    parameter of Admiral's. *)
Definition NewAdmiralDatabaseClient (admiralConfig : (string * string * string) + string)
    (dynamoClientInitFunc : string -> string -> error) : option database_client * error :=
  match admiralConfig with
  | inr err => (None, Some ("error unmarshalling admiral config file, err: " +:+ err))
  | inl (table, role, region) =>
      match dynamoClientInitFunc role region with
      | Some err => (None, Some ("unable to instantiate dynamo client, err: " +:+ err))
      | None => (Some (mkDatabaseClient true (Some table)), None)
      end
  end.
Definition NewDynamicConfigDatabaseClient (p : AdmiralParams) (admiralConfig : (string * string * string) + string)
    (dynamoClientInitFunc : string -> string -> error) : option database_client * error :=
  match admiralConfig with
  | inr err => (None, Some ("task=" +:+ DynamicConfigUpdate +:+ ", error unmarshalling admiral config file, err: " +:+ err))
  | inl (_, role, region) =>
      match dynamoClientInitFunc role region with
      | Some err => (Some (mkDatabaseClient false (Some p.(Params.DynamicConfigDynamoDBTableName))),
          Some ("task=" +:+ DynamicConfigUpdate +:+ ", unable to instantiate dynamo client for DynamicConfig, err: " +:+ err))
      | None => (Some (mkDatabaseClient true (Some p.(Params.DynamicConfigDynamoDBTableName))), None)
      end
  end.
End Tables.

(** ** The clusters whose load balancer changes *)

(** The clusters to process, and the cache afterwards. *)
Definition getLBToProcess (updatedLB cache : list string) : list string * list string :=
  match cache, updatedLB with
  | [], _ => (updatedLB, updatedLB)
  | _, [] => (cache, updatedLB)
  | _, _ =>
      let '(clusersToProcess, cache) :=
        foldl (fun '(toProcess, cache) clusterFromAdmiralParam =>
          if str_in clusterFromAdmiralParam cache then (toProcess, cache)
          else (toProcess ++ [clusterFromAdmiralParam], cache ++ [clusterFromAdmiralParam]))
          ([], cache) updatedLB in
      (clusersToProcess ++ List.filter (fun clusterFromCache => negb (str_in clusterFromCache updatedLB)) cache, updatedLB)
  end.

(** ** The processing of a configuration *)

(** [fmt.Sprintf("%v", config)] *)
Definition show_list (l : list string) : string := "[" +:+ String.concat " " l +:+ "]".
Definition show_config (c : DynamicConfigData) : string :=
  "{" +:+ EnableDynamicConfig c +:+ " " +:+ show_list (NLBEnabledClusters c) +:+ " " +:+ show_list (NLBEnabledIdentityList c) +:+
  " " +:+ show_list (CLBEnabledClusters c) +:+ " " +:+ show_list (InitiateClientInitiatedProcessingFor c) +:+ "}".

Definition overwritten (new old : list string) : list string := match new with [] => old | _ => new end.

(** The lists of the configuration that are not empty. *)
Definition UpdateSyncAdmiralConfig (configData : DynamicConfigData) (w : admiralParamsWrapper) : admiralParamsWrapper :=
  if EnableDynamicConfig configData =?s "admiral" then
    let newAdmiralConfig := GetAdmiralParams w in
    UpdateAdmiralParams
      (newAdmiralConfig
         <| Params.NLBEnabledClusters := overwritten (NLBEnabledClusters configData) newAdmiralConfig.(Params.NLBEnabledClusters) |>
         <| Params.CLBEnabledClusters := overwritten (CLBEnabledClusters configData) newAdmiralConfig.(Params.CLBEnabledClusters) |>
         <| Params.NLBEnabledIdentityList :=
              overwritten (NLBEnabledIdentityList configData) newAdmiralConfig.(Params.NLBEnabledIdentityList) |>
         <| Params.InitiateClientInitiatedProcessingFor :=
              overwritten (InitiateClientInitiatedProcessingFor configData)
                newAdmiralConfig.(Params.InitiateClientInitiatedProcessingFor) |>) w
  else w.

(** The rest, the parameters, [DynamicConfigCheckSum] and [AdmiralCache.NLBEnabledCluster]. *)
Record dyn_state (X : Type) := mkDynState {
  dy_rest : X;
  dy_wrapper : admiralParamsWrapper;
  DynamicConfigCheckSum : string;
  NLBEnabledCluster : list string
}.
Arguments mkDynState {X} _ _ _ _.
Arguments dy_rest {X} _.
Arguments dy_wrapper {X} _.
Arguments DynamicConfigCheckSum {X} _.
Arguments NLBEnabledCluster {X} _.
#[export] Instance eta_dyn_state X : Settable (dyn_state X) := fun s =>
  mkDynState (dy_rest s) (dy_wrapper s) (DynamicConfigCheckSum s) (NLBEnabledCluster s).

Definition dy_params {X} (s : dyn_state X) : AdmiralParams := GetAdmiralParams (dy_wrapper s).

Section Dynamic.
Context {range : GoRange} {sorting : GoSort} {X : Type}.
(** [md5.Sum]; read-only mode; the start of the registry and the time of the warm-up check;
    the service caches of the clusters. *)
Context (md5_Sum : string -> string) (readOnly : bool) (startTime now : Z) (services : gmap string rc_services).
(** [handleEventForService] for a service of a cluster, [processClientDependencyRecord] for
    an identity, a cluster and a namespace, and the table's configuration: a row, another
    value, or an error. *)
Context (handleEventForService : event_ctx -> ServiceObj -> string -> W (dyn_state X) error).
Context (processClientDependencyRecord : event_ctx -> string -> string -> string -> bool -> W (dyn_state X) error).
Context (get_config : dyn_state X -> dyn_state X * (option DynamicConfigData + string)).

Abbreviation state := (dyn_state X).

Definition get_params : W state AdmiralParams := on_api (fun s => (s, dy_params s)).
Definition set_params (f : AdmiralParams -> AdmiralParams) : W state unit :=
  on_api (fun s => (s <| dy_wrapper := UpdateAdmiralParams (f (dy_params s)) (dy_wrapper s) |>, tt)).

(** [Map.Range] and [MapOfMaps.Range] with a callback that changes a variable of its
    closure; it runs with the lock held. *)
Fixpoint wfold {A B} (f : A -> B -> W state B) (l : list A) (b : B) : W state B :=
  match l with
  | [] => wret b
  | a :: l' => b' <- f a b;; wfold f l' b'
  end.
Definition w_locking {A} (d l : nat) (c : W state A) : W state A :=
  on_heap (set_locked d l true) ;;; a <- c;; on_heap (set_locked d l false) ;;; wret a.
Definition w_Map_Range {B} (s : ptr) (fn : string -> string -> B -> W state B) (b : B) : W state B :=
  '(l, m) <- on_heap (deref_map s);; w_locking 1 l (wfold (fun kv => fn kv.1 kv.2) (go_range 0 m) b).
Definition w_MapOfMaps_Range {B} (s : ptr) (fn : string -> ptr -> B -> W state B) (b : B) : W state B :=
  '(l, m) <- on_heap (deref_tab 2 s);; w_locking 2 l (wfold (fun kv => fn kv.1 kv.2) (go_range 0 m) b).

(** *** Load balancers *)

Definition process_services (ctx : event_ctx) (cluster lbLabel : string) (fetched : list ServiceObj) : W state unit :=
  witer (fun fetchService =>
    if mget (Labels (SvcMeta fetchService)) "app" =?s lbLabel
    then handleEventForService (ctx <| ctxEventType := Some Update |>) fetchService cluster ;;; wret tt
    else wret tt) fetched.

(** The events' errors are logged, and a cluster without service controller is left out. *)
Definition processLBMigration (ctx : event_ctx) (updatedLBs : list string) (lbLabel : string) : W state unit :=
  clusterToProcess <- on_api (fun s =>
    let '(toProcess, cache) := getLBToProcess updatedLBs (NLBEnabledCluster s) in (s <| NLBEnabledCluster := cache |>, toProcess));;
  witer (fun cluster =>
    match default None (services !! cluster) with
    | Some (Some (Some cache)) => process_services ctx cluster lbLabel (ServiceCache_Get cache NamespaceIstioSystem)
    | _ => wret tt
    end) clusterToProcess.

(** *** Clients *)

Definition bypassPrefix := "bypass:".

(** The identities that were processed are taken out of the map, whose keys then replace
    those of the parameters. *)
Definition removeProcessedIdentities (processedGlobalIdentifiers : list string) (processingForMap : gmap string string)
    : W state nat :=
  let unprocessed := (go_range 0 (foldl (fun m id => delete id m) processingForMap processedGlobalIdentifiers)).*1 in
  set_params (fun p => p <| Params.InitiateClientInitiatedProcessingFor := unprocessed |>) ;;;
  wret (length unprocessed).

(** The namespaces of the clusters of an identity; the errors, the last first. *)
Definition process_client (ctx : event_ctx) (globalIdentifier : string) (bypass : bool) (clusterNamespaces : ptr) : W state error :=
  w_MapOfMaps_Range clusterNamespaces (fun cluster nsMap err =>
    match nsMap with
    | None => wret err
    | Some _ =>
        w_Map_Range nsMap (fun ns _ err =>
          processingErr <- processClientDependencyRecord ctx globalIdentifier cluster ns bypass;;
          wret (AppendError processingErr err)) err
    end) None.

(** [None]: an identity that no cluster has ends it. *)
Fixpoint process_clients (ctx : event_ctx) (identifiers processed : list string) : W state (option (list string)) :=
  match identifiers with
  | [] => wret (Some processed)
  | identifier :: rest =>
      let bypass := has_prefix identifier bypassPrefix in
      let globalIdentifier := if bypass then trim_prefix identifier bypassPrefix else identifier in
      c <- get_caches;;
      clusterNamespaces <- on_heap (MapOfMapOfMaps_Get (IdentityClusterNamespaceCache (pointers c)) globalIdentifier);;
      match clusterNamespaces with
      | None => wret None
      | Some _ =>
          err <- process_client ctx globalIdentifier bypass clusterNamespaces;;
          process_clients ctx rest (if is_nil err then processed ++ [globalIdentifier] else processed)
      end
  end.

(** [txId] is a new one. *)
Definition triggerClientInitiatedProcessing (txId : string) (processingForMap : gmap string string) : W state error :=
  p <- get_params;;
  if negb (ClientInitiatedProcessingEnabledForDynamicConfig p) then wret None
  else
    processed <- process_clients (mkCtx None None None (Some txId)) (go_range 0 processingForMap).*2 [];;
    match processed with
    | None => wret None
    | Some processedGlobalIdentifiers =>
        unprocessedCount <- removeProcessedIdentities processedGlobalIdentifiers processingForMap;;
        wret (if Nat.ltb 0 unprocessedCount
              then Some ("Failed to process " +:+ itoa (Z.of_nat unprocessedCount) +:+ " identities as a client") else None)
    end.

(** *** The row *)

(** Whether the digest differs from the last one, which it replaces. *)
Definition IsDynamicConfigChanged (config : DynamicConfigData) : W state bool :=
  on_api (fun s =>
    if negb (EnableDynamicConfig config =?s "admiral") then (s, false)
    else if DynamicConfigCheckSum s =?s md5_Sum (show_config config) then (s, false)
    else (s <| DynamicConfigCheckSum := md5_Sum (show_config config) |>, true)).

(** A changed configuration. *)
Definition process_changed (txId : string) : W state unit :=
  p <- get_params;;
  processLBMigration (mkCtx None None None None) p.(Params.NLBEnabledClusters) p.(Params.NLBIngressLabel) ;;;
  p <- get_params;;
  triggerClientInitiatedProcessing txId (GetInitiateClientInitiatedProcessingFor p) ;;;
  wret tt.

Definition ReadAndUpdateSyncAdmiralConfig (txId : string) : W state error :=
  dbRawData <- on_api get_config;;
  match dbRawData with
  | inr err => wret (Some err)
  | inl None => wret (Some ("task=" +:+ DynamicConfigUpdate +:+ ", failed to parse DynamicConfigData"))
  | inl (Some configData) =>
      on_api (fun s => (s <| dy_wrapper := UpdateSyncAdmiralConfig configData (dy_wrapper s) |>, tt)) ;;;
      if readOnly then wret None
      else
        p <- get_params;;
        if IsCacheWarmupTime p startTime now then wret None
        else
          changed <- IsDynamicConfigChanged configData;;
          (if changed : bool then process_changed txId else wret tt) ;;;
          wret None
  end.
End Dynamic.

(** ** The passes *)

(** A pass: read-only mode, the time and the id of the transaction. *)
Record dynamic_pass := mkDynamicPass { dpReadOnly : bool; dpNow : Z; dpTxId : string }.

(** [time.Minute * time.Duration(syncTime)], in int64. *)
Definition sync_interval (syncTime : Z) : Z := ((60000000000 * syncTime + 2 ^ 63) mod 2 ^ 64 - 2 ^ 63)%Z.

Section Periodic.
Context {range : GoRange} {sorting : GoSort} {X : Type}.
Context (md5_Sum : string -> string) (startTime : Z) (services : gmap string rc_services).
Context (handleEventForService : event_ctx -> ServiceObj -> string -> W (dyn_state X) error).
Context (processClientDependencyRecord : event_ctx -> string -> string -> string -> bool -> W (dyn_state X) error).
Context (get_config : dyn_state X -> dyn_state X * (option DynamicConfigData + string)).

Definition read_pass (i : dynamic_pass) : W (dyn_state X) error :=
  ReadAndUpdateSyncAdmiralConfig md5_Sum (dpReadOnly i) startTime (dpNow i) services handleEventForService
    processClientDependencyRecord get_config (dpTxId i).

(** The error of a pass is dropped. *)
Fixpoint on_ticks (ticks : list dynamic_pass) : W (dyn_state X) unit :=
  match ticks with
  | [] => wret tt
  | i :: ticks => read_pass i ;;; on_ticks ticks
  end.

(** A pass at the start and one at each tick, until the context is done; [NewTicker] panics
    on an interval that is not positive. *)
Definition UpdateASyncAdmiralConfig (syncTime : Z) (first : dynamic_pass) (ticks : list dynamic_pass) : W (dyn_state X) unit :=
  read_pass first ;;;
  (if (sync_interval syncTime <=? 0)%Z then wpanic else on_ticks ticks).

(** A period that is not positive ends the process after the first pass; one of up to 292
    years is that many minutes. *)
Lemma sync_period (syncTime : Z) :
  (- 153722867 <= syncTime <= 0 -> forall first ticks w, UpdateASyncAdmiralConfig syncTime first ticks w = None)%Z /\
  (0 < syncTime <= 153722867 -> 0 < sync_interval syncTime /\ sync_interval syncTime = 60000000000 * syncTime)%Z.
Proof.
  split.
  - intros H first ticks w. unfold UpdateASyncAdmiralConfig.
    assert (sync_interval syncTime <= 0)%Z as Hi by (unfold sync_interval; rewrite Z.mod_small; lia).
    apply Z.leb_le in Hi. rewrite Hi. unfold wbnd. by destruct (read_pass first w) as [[]|].
  - intros H. unfold sync_interval. rewrite Z.mod_small; lia.
Qed.
End Periodic.

(** ** Which clusters are processed *)

(** The loop over the new list. *)
Lemma new_clusters (updated cache acc : list string) l cache' :
  foldl (fun '(toProcess, cache) c => if str_in c cache then (toProcess, cache) else (toProcess ++ [c], cache ++ [c]))
    (acc, cache) updated = (l, cache') ->
  exists added, l = acc ++ added /\ cache' = cache ++ added /\ NoDup added /\ forall c, c ∈ added <-> c ∈ updated /\ c ∉ cache.
Proof.
  revert acc cache. induction updated as [|u us IH]; intros acc cache H.
  { injection H as <- <-. exists []. rewrite !app_nil_r. split_and!; [done..|constructor|]. intros c. rewrite elem_of_nil. tauto. }
  simpl in H. destruct (str_in u cache) eqn:E.
  - apply IH in H as (added & -> & -> & Hnd & Ha). exists added. split_and!; [done..|]. intros c. rewrite Ha, elem_of_cons.
    apply str_in_spec in E. split; [intros [? ?]; split; [by right|done]|]. intros [[->|?] ?]; [done|by split].
  - apply IH in H as (added & -> & -> & Hnd & Ha). apply str_in_false in E. exists (u :: added). rewrite <- !app_assoc.
    split_and!; [done..| |].
    + constructor; [|done]. rewrite Ha. set_solver.
    + intros c. rewrite !elem_of_cons, Ha, elem_of_app, list_elem_of_singleton. destruct (decide (c = u)); naive_solver.
Qed.

(** The clusters whose load balancer is processed are those in exactly one of the new
    list and the one remembered, each once, and the new list is remembered. *)
Theorem lb_to_process_spec (updatedLB cache : list string) :
  let '(toProcess, cache') := getLBToProcess updatedLB cache in
  cache' = updatedLB /\
  (forall c, c ∈ toProcess <-> (c ∈ updatedLB /\ c ∉ cache) \/ (c ∈ cache /\ c ∉ updatedLB)) /\
  (NoDup updatedLB -> NoDup cache -> NoDup toProcess).
Proof.
  unfold getLBToProcess. destruct cache as [|k cache].
  { split_and!; [done| |done]. intros c. rewrite elem_of_nil. tauto. }
  destruct updatedLB as [|u updated].
  { split_and!; [done| |done]. intros c. rewrite elem_of_nil. tauto. }
  set (C := k :: cache). set (U := u :: updated). clearbody C U.
  destruct (foldl _ _ U) as [l cache'] eqn:E. apply new_clusters in E as (added & -> & -> & Hnd & Ha).
  split; [done|]. rewrite app_nil_l. assert (Hf : forall c, c ∈ List.filter (fun x => negb (str_in x U)) (C ++ added) <-> c ∈ C /\ c ∉ U).
  { intros c. rewrite list_elem_of_In, filter_In, <- list_elem_of_In, negb_true_iff, str_in_false, elem_of_app, Ha. tauto. }
  split.
  - intros c. by rewrite elem_of_app, Ha, Hf.
  - intros HU HC. apply NoDup_app. split_and!; [done| |].
    + intros c Hc. rewrite Hf. apply Ha in Hc as [Hc _]. tauto.
    + apply NoDup_ListNoDup, List.NoDup_filter, NoDup_ListNoDup, NoDup_app. split_and!; [done| |done]. intros c Hc. rewrite Ha. tauto.
Qed.

(** ** The writes of the workload table *)

Section Retries.
Context {St : Type} (call : St -> St * error).

(** The state after [k] calls, and the error of the last of them. *)
Fixpoint after_calls (k : nat) (s : St) : St := match k with 0%nat => s | S k => after_calls k (call s).1 end.
Definition call_error (k : nat) (s : St) : error := (call (after_calls k s)).2.

Lemma attempts_success (n k : nat) (err : error) (s : St) :
  (k < n)%nat -> (forall j, (j < k)%nat -> call_error j s <> None) -> call_error k s = None ->
  attempts n call err s = (after_calls (S k) s, None, k).
Proof.
  revert n err s. induction k as [|k IH]; intros n err s Hlt Hfail Hok; (destruct n as [|n]; [lia|]); simpl.
  - unfold call_error in Hok. simpl in Hok. destruct (call s) as [s' e]. simpl in Hok. by subst.
  - specialize (Hfail 0%nat) as H0. unfold call_error in H0. simpl in H0.
    destruct (call s) as [s' [e|]] eqn:E; simpl in H0; [|exfalso; apply H0; [lia|done] ].
    rewrite (IH n (Some e) s'); [done|lia| |].
    + intros j Hj. specialize (Hfail (S j)). unfold call_error in *. simpl in Hfail. rewrite E in Hfail. apply Hfail. lia.
    + unfold call_error in *. simpl in Hok. by rewrite E in Hok.
Qed.

Lemma attempts_failure (n : nat) (err : error) (s : St) :
  (forall j, (j < n)%nat -> call_error j s <> None) ->
  attempts n call err s = (after_calls n s, match n with 0%nat => err | S m => call_error m s end, n).
Proof.
  revert err s. induction n as [|n IH]; intros err s Hfail; [done|]. simpl.
  pose proof (Hfail 0%nat ltac:(lia)) as H0. unfold call_error in H0. simpl in H0.
  destruct (call s) as [s' [e|]] eqn:E; simpl in H0; [|done]. rewrite (IH (Some e) s').
  - f_equal. f_equal. unfold call_error. destruct n; simpl; by rewrite E.
  - intros j Hj. specialize (Hfail (S j)). unfold call_error in *. simpl in Hfail. rewrite E in Hfail. apply Hfail. lia.
Qed.
End Retries.

Section Writes.
Context {range : GoRange} {St Value Item Expr : Type} {db : DynamoDB St Value Item Expr}.

(** The call of an update of a record. *)
Definition update_call (tableName : string) (data : WorkloadData) (expr : Expr) : St -> St * error :=
  UpdateItem tableName (wdAssetAlias data, wdEndpoint data) expr.

(** A record is written in at most three attempts with a sleep after each failed one:
    the write succeeds with the first attempt that does, and otherwise returns the last
    error; without a client, a table or an expression no attempt is made. *)
Theorem workload_update_outcome (c : option database_client) (data : WorkloadData) (s : St) :
  match checkIfDatabaseClientIsInitialize c, generateUpdateExpression data with
  | inl tableName, inl expr =>
      let call := update_call tableName data expr in
      (forall k, (k < 3)%nat -> (forall j, (j < k)%nat -> call_error call j s <> None) -> call_error call k s = None ->
         WorkloadDatabaseClient_Update c data s = (after_calls call (S k) s, None, k)) /\
      ((forall j, (j < 3)%nat -> call_error call j s <> None) ->
         WorkloadDatabaseClient_Update c data s = (after_calls call 3 s, call_error call 2 s, 3%nat))
  | _, _ => exists e, WorkloadDatabaseClient_Update c data s = (s, Some e, 0%nat)
  end.
Proof using Type.
  unfold WorkloadDatabaseClient_Update, updateWorkloadDataItem.
  destruct (checkIfDatabaseClientIsInitialize c) as [tableName|e]; [|by eexists].
  destruct (generateUpdateExpression data) as [expr|e]; [|by eexists]. split.
  - intros k Hk Hf Ho. by apply attempts_success.
  - intros Hf. by apply (attempts_failure (update_call tableName data expr) 3).
Qed.

(** The column that an action changes. *)
Definition action_name (a : update_action Value) : string :=
  match a with RemoveAttr n | SetAttr n _ | SetSS n _ | DeleteFrom n _ | AddTo n _ => n end.

Lemma cluster_columns (data : WorkloadData) :
  map action_name (handleClusterListUpdate (Value := Value) data) ≡ₚ [SuccessClustersKey; FailedClustersKey].
Proof using Type. unfold handleClusterListUpdate. destruct (wdSuccessCluster data), (wdFailedClusters data); simpl; try done; apply perm_swap. Qed.

Lemma set_columns (l : list (string * Value)) :
  map action_name (map (fun kv => SetAttr kv.1 kv.2) (List.filter (fun kv => settable kv.1) l)) = List.filter settable l.*1.
Proof using Type. induction l as [|[k v] l IH]; [done|]. cbn. destruct (settable k); cbn; by rewrite <- IH. Qed.

(** The update of a record never names a primary key, changes no column twice, and
    changes every other column of the record and the two lists of clusters; a cluster that
    is added to one of the lists is taken out of the other. *)
Theorem update_actions_sound (data : WorkloadData) (av : gmap string Value) :
  let actions := update_actions data av in
  NoDup (map action_name actions) /\
  (forall name, name ∈ map action_name actions <->
     name = SuccessClustersKey \/ name = FailedClustersKey \/ (is_Some (av !! name) /\ settable name = true)) /\
  (forall name clusters, AddTo name clusters ∈ actions ->
     exists other, DeleteFrom other clusters ∈ actions /\ other <> name /\ other ∈ [SuccessClustersKey; FailedClustersKey]).
Proof using Type.
  assert (Hin : forall name, name ∈ List.filter settable (go_range 0 av).*1 <-> is_Some (av !! name) /\ settable name = true).
  { intros name. rewrite list_elem_of_In, filter_In, <- list_elem_of_In, list_elem_of_fmap. split; [|intros [[v Hv] Hs] ].
    - intros [([k v] & -> & Hkv) Hs]. apply go_range_elem in Hkv. by split; [exists v|].
    - split; [|done]. exists (name, v). split; [done|]. by apply go_range_elem. }
  unfold update_actions. split; [|split].
  - rewrite map_app, set_columns, cluster_columns. apply NoDup_app. split_and!.
    + apply (bool_decide_eq_true_1 _). vm_compute. reflexivity.
    + intros name Hn. rewrite Hin. intros [_ Hs]. rewrite !elem_of_cons, elem_of_nil in Hn. by destruct Hn as [->|[->|[]] ].
    + apply NoDup_ListNoDup, List.NoDup_filter, NoDup_ListNoDup, go_range_fst_NoDup.
  - intros name. rewrite map_app, set_columns, cluster_columns, elem_of_app, Hin, !elem_of_cons, elem_of_nil. tauto.
  - intros name clusters Ha. apply elem_of_app in Ha as [Ha|Ha].
    + unfold handleClusterListUpdate in *. destruct (wdSuccessCluster data) as [sc|], (wdFailedClusters data) as [fc|];
        rewrite !elem_of_cons, elem_of_nil in Ha; destruct Ha as [Ha|[Ha|[]]]; try done; injection Ha as -> ->;
        eexists; (split; [apply elem_of_app; left; apply list_elem_of_here|split; [done|] ]); rewrite !elem_of_cons; tauto.
    + apply list_elem_of_fmap in Ha as (kv & E & _). done.
Qed.
End Writes.

(** ** A configuration is processed once *)

Section Once.
Context {range : GoRange} {sorting : GoSort} {X : Type}.
Context (md5_Sum : string -> string) (startTime : Z) (services : gmap string rc_services).
Context (handleEventForService : event_ctx -> ServiceObj -> string -> W (dyn_state X) error).
Context (processClientDependencyRecord : event_ctx -> string -> string -> string -> bool -> W (dyn_state X) error).
Context (get_config : dyn_state X -> dyn_state X * (option DynamicConfigData + string)).

(** The digest is that of this file alone. *)
Definition keeps_digest (s s' : dyn_state X) : Prop := DynamicConfigCheckSum s' = DynamicConfigCheckSum s.
#[local] Instance keeps_digest_pre : PreOrder keeps_digest.
Proof using Type. split; [done|]. intros s s' s'' H H'. unfold keeps_digest in *. congruence. Qed.
Context (service_keeps : forall ctx svc cluster, api_post (handleEventForService ctx svc cluster) keeps_digest).
Context (client_keeps : forall ctx id cluster ns bypass, api_post (processClientDependencyRecord ctx id cluster ns bypass) keeps_digest).

Lemma wfold_keeps {A B} (f : A -> B -> W (dyn_state X) B) l b :
  (forall a b, api_post (f a b) keeps_digest) -> api_post (wfold f l b) keeps_digest.
Proof using Type.
  intros Hf. revert b. induction l as [|a l IH]; intros b; [apply api_post_ret, _|].
  apply api_post_bnd; [apply _|apply Hf|]. intros b'. apply IH.
Qed.

Lemma locking_keeps {A} d l (c : W (dyn_state X) A) : api_post c keeps_digest -> api_post (w_locking d l c) keeps_digest.
Proof using Type.
  intros Hc. apply api_post_bnd; [apply _|apply api_post_heap, _|]. intros []. apply api_post_bnd; [apply _|done|]. intros a.
  apply api_post_bnd; [apply _|apply api_post_heap, _|]. intros []. apply api_post_ret, _.
Qed.

Lemma process_client_keeps ctx id bypass ns : api_post (process_client processClientDependencyRecord ctx id bypass ns) keeps_digest.
Proof using client_keeps.
  apply api_post_bnd; [apply _|apply api_post_heap, _|]. intros [l m]. apply locking_keeps, wfold_keeps. intros [cluster nsMap] err.
  destruct nsMap as [n|]; [|apply api_post_ret, _]. apply api_post_bnd; [apply _|apply api_post_heap, _|]. intros [l' m'].
  apply locking_keeps, wfold_keeps. intros [k v] err'. apply api_post_bnd; [apply _|apply client_keeps|]. intros e. apply api_post_ret, _.
Qed.

Lemma process_clients_keeps ctx ids processed :
  api_post (process_clients processClientDependencyRecord ctx ids processed) keeps_digest.
Proof using client_keeps.
  revert processed. induction ids as [|id ids IH]; intros processed; [apply api_post_ret, _|]. cbn [process_clients].
  apply api_post_bnd; [apply _|apply api_post_caches, _|]. intros c. apply api_post_bnd; [apply _|apply api_post_heap, _|].
  intros [n|]; [|apply api_post_ret, _]. apply api_post_bnd; [apply _|apply process_client_keeps|]. intros err. apply IH.
Qed.

Lemma process_changed_keeps txId :
  api_post (process_changed services handleEventForService processClientDependencyRecord txId) keeps_digest.
Proof using client_keeps service_keeps.
  apply api_post_bnd; [apply _|by apply api_post_api|]. intros p. apply api_post_bnd; [apply _| |intros []].
  - apply api_post_bnd; [apply _| |intros toProcess].
    + apply api_post_api. intros s. by destruct (getLBToProcess _ _).
    + apply api_post_iter; [apply _|]. intros cluster. destruct (default None (services !! cluster)) as [[[cache|]|]|]; try apply api_post_ret, _.
      apply api_post_iter; [apply _|]. intros svc. destruct (_ =?s _); [|apply api_post_ret, _].
      apply api_post_bnd; [apply _|apply service_keeps|]. intros e. apply api_post_ret, _.
  - apply api_post_bnd; [apply _|by apply api_post_api|]. intros p'. apply api_post_bnd; [apply _| |intros e; apply api_post_ret, _].
    apply api_post_bnd; [apply _|by apply api_post_api|]. intros p''. destruct (negb _); [apply api_post_ret, _|].
    apply api_post_bnd; [apply _|apply process_clients_keeps|]. intros [ids|]; [|apply api_post_ret, _].
    apply api_post_bnd; [apply _| |intros n; apply api_post_ret, _].
    apply api_post_bnd; [apply _|by apply api_post_api|]. intros []. apply api_post_ret, _.
Qed.

Abbreviation read now := (ReadAndUpdateSyncAdmiralConfig md5_Sum false startTime now services handleEventForService
  processClientDependencyRecord get_config).

(** The digest of a configuration that was read and processed, or is not enabled. *)
Definition up_to_date (c : DynamicConfigData) (s : dyn_state X) : Prop :=
  EnableDynamicConfig c = "admiral" -> DynamicConfigCheckSum s = md5_Sum (show_config c).

Lemma read_up_to_date (c : DynamicConfigData) (now : Z) (txId : string) (err : error) (w w1 : world (dyn_state X)) :
  (forall s, get_config s = (s, inl (Some c))) ->
  IsCacheWarmupTime (GetAdmiralParams (UpdateSyncAdmiralConfig c (dy_wrapper (w_api w)))) startTime now = false ->
  read now txId w = Some (err, w1) -> up_to_date c (w_api w1).
Proof using client_keeps service_keeps.
  intros Hc Hwarm H. unfold ReadAndUpdateSyncAdmiralConfig in H. apply wbnd_Some in H as (raw & w2 & Hg & H).
  unfold on_api in Hg. rewrite Hc in Hg. injection Hg as <- <-. apply wbnd_Some in H as ([] & w3 & Hu & H). injection Hu as <-.
  apply wbnd_Some in H as (p & w4 & Hp & H). injection Hp as <- <-. cbn in H. unfold dy_params in H. cbn in H. rewrite Hwarm in H.
  apply wbnd_Some in H as (changed & w5 & Hch & H). apply wbnd_Some in H as ([] & w6 & Hpr & H). injection H as _ <-.
  intros Hen. assert (Hsum : DynamicConfigCheckSum (w_api w5) = md5_Sum (show_config c)).
  { unfold IsDynamicConfigChanged, on_api in Hch. rewrite Hen in Hch. cbn in Hch.
    destruct (_ =?s md5_Sum _) eqn:E; injection Hch as <- <-; [|done]. by apply seqb_eq in E. }
  rewrite <- Hsum. destruct changed; [|by injection Hpr as <-]. by apply process_changed_keeps in Hpr.
Qed.

Lemma changed_false (c : DynamicConfigData) (w : world (dyn_state X)) :
  up_to_date c (w_api w) -> IsDynamicConfigChanged md5_Sum c w = Some (false, w).
Proof using Type.
  unfold up_to_date, IsDynamicConfigChanged, on_api. intros Hup. destruct w as [s h cs a se].
  destruct (EnableDynamicConfig c =?s "admiral") eqn:E; [|reflexivity]. apply seqb_eq in E. cbv [negb w_api]. simpl in Hup.
  by rewrite (Hup E), (proj2 (seqb_eq _ _) eq_refl).
Qed.

Abbreviation pass := (read_pass md5_Sum startTime services handleEventForService processClientDependencyRecord get_config).
Abbreviation ticks := (on_ticks md5_Sum startTime services handleEventForService processClientDependencyRecord get_config).

(** The world after the lists of the row were put into the parameters [n] times. *)
Definition lists_put (c : DynamicConfigData) (n : nat) (w : world (dyn_state X)) : world (dyn_state X) :=
  w <| w_api := w_api w <| dy_wrapper := Nat.iter n (UpdateSyncAdmiralConfig c) (dy_wrapper (w_api w)) |> |>.

Lemma lists_put_again (c : DynamicConfigData) (n : nat) (w : world (dyn_state X)) :
  lists_put c n (lists_put c 1 w) = lists_put c (S n) w.
Proof using Type.
  assert (forall x, Nat.iter n (UpdateSyncAdmiralConfig c) (UpdateSyncAdmiralConfig c x) = Nat.iter (S n) (UpdateSyncAdmiralConfig c) x) as Hi
    by (intros x; by rewrite Nat.iter_succ_r).
  unfold lists_put. rewrite <- Hi. by destruct w as [[] h cs a se].
Qed.

Lemma up_to_date_pass (c : DynamicConfigData) (i : dynamic_pass) (w : world (dyn_state X)) :
  (forall s, get_config s = (s, inl (Some c))) -> up_to_date c (w_api w) -> pass i w = Some (None, lists_put c 1 w).
Proof using Type.
  intros Hc Hup. destruct w as [s h cs a se]. unfold read_pass, ReadAndUpdateSyncAdmiralConfig, wbnd, on_api at 1. rewrite Hc.
  cbn [on_api get_params w_api]. destruct (dpReadOnly i); [reflexivity|]. destruct (IsCacheWarmupTime _ _ _); [reflexivity|].
  by rewrite changed_false.
Qed.

(** C25: A configuration that has been read in a pass that is neither read-only nor in the
    warm-up is not processed again: as long as the row stays the same, the passes that
    follow, in whichever mode and at whatever times, return without an error, and only put
    its lists into the parameters. *)
Theorem unchanged_config_not_processed (c : DynamicConfigData) (first : dynamic_pass) (later : list dynamic_pass) (err : error)
    (w w1 : world (dyn_state X)) :
  (forall s, get_config s = (s, inl (Some c))) ->
  dpReadOnly first = false ->
  IsCacheWarmupTime (GetAdmiralParams (UpdateSyncAdmiralConfig c (dy_wrapper (w_api w)))) startTime (dpNow first) = false ->
  pass first w = Some (err, w1) ->
  ticks later w1 = Some (tt, lists_put c (length later) w1) /\
  forall i, pass i (lists_put c (length later) w1) = Some (None, lists_put c (S (length later)) w1).
Proof using client_keeps service_keeps.
  intros Hc Hro Hwarm H. assert (up_to_date c (w_api w1)) as Hup.
  { unfold read_pass in H. rewrite Hro in H. exact (read_up_to_date c (dpNow first) (dpTxId first) err w w1 Hc Hwarm H). }
  clear H Hwarm Hro. split; [|intros i; rewrite (up_to_date_pass c) by done; by destruct w1 as [[] h cs a se] ].
  revert w1 Hup. induction later as [|i later IH]; intros w1 Hup; [by destruct w1 as [[] h cs a se]|].
  cbn [on_ticks length]. unfold wbnd. rewrite (up_to_date_pass c i w1 Hc Hup), IH by done. by rewrite lists_put_again.
Qed.
End Once.

(** ** A row for [foo], a client in cluster [c1] *)

Definition dyn_params0 : AdmiralParams :=
  Params.zero_AdmiralParams <| Params.ClientInitiatedProcessingEnabledForDynamicConfig := true |>
    <| Params.NLBIngressLabel := "nlb" |> <| Params.CacheReconcileDuration := 100%Z |>.
Abbreviation log_state := (dyn_state (list string)).
Definition dyn_world (nlb : list string) : world log_state :=
  mkWorld (mkDynState [] (mkWrapper dyn_params0 true) "" nlb)
    (mkHeap {[ 1%nat := {[ "ns" := "ns" ]} ]}
       {[ (2%nat, 2%nat) := {[ "c1" := Some 1%nat ]}; (3%nat, 3%nat) := {[ "foo" := Some 2%nat ]} ]} 4 ∅)
    (mkAdmiralCaches (mkCachePointers None None None (Some 3%nat) None) None None None None) empty_store ∅.
Definition log_event (what : string) : W log_state error :=
  on_api (fun s => (s <| dy_rest := dy_rest s ++ [what] |>, None)).
Definition log_service (ctx : event_ctx) (svc : ServiceObj) (cluster : string) : W log_state error := log_event (cluster +:+ "/" +:+ Name (SvcMeta svc)).
Definition log_client (ctx : event_ctx) (id cluster ns : string) (bypass : bool) : W log_state error :=
  log_event (id +:+ "/" +:+ cluster +:+ "/" +:+ ns +:+ if bypass then "/bypass" else "").
Definition lb_services : gmap string rc_services :=
  let svc := mkService (mkMeta "lb" NamespaceIstioSystem (Some {[ "app" := "nlb" ]}) None 0 "1") [] None [] [] in
  {[ "c1" := Some (Some (Some (ServiceCache_Put ∅ svc))) ]}.
Definition row (nlb clients : list string) : DynamicConfigData := mkDynamicConfig "admiral" nlb [] [] clients.
Abbreviation read_row c := (ReadAndUpdateSyncAdmiralConfig (fun s => s) false 0 1000 lb_services log_service log_client
  (fun s => (s, inl (Some c))) "tx").
Definition dyn_log {A} (r : option (A * world log_state)) : list string :=
  match r with Some (_, w) => dy_rest (w_api w) | None => ["panic"] end.
Definition pending {A} (r : option (A * world log_state)) : list string :=
  match r with Some (_, w) => (dy_params (w_api w)).(Params.InitiateClientInitiatedProcessingFor) | None => ["panic"] end.
Definition world_of {A} (w : world log_state) (r : option (A * world log_state)) : world log_state :=
  match r with Some (_, w') => w' | None => w end.

Lemma log_keeps (what : string) : api_post (log_event what) keeps_digest.
Proof. by apply api_post_api. Qed.

Lemma row_not_warming (nlb clients : list string) :
  IsCacheWarmupTime (GetAdmiralParams (UpdateSyncAdmiralConfig (row nlb clients) (dy_wrapper (w_api (dyn_world []))))) 0 1000 = false.
Proof. reflexivity. Qed.

(** The row is read again and again, first as a writer: the load balancer of [c1] and the
    client [foo] are processed once. *)
Lemma unchanged_config_not_processed_witness :
  let c := row ["c1"] ["foo"] in
  let get := fun s : log_state => (s, inl (Some c)) in
  exists w1, read_row c (dyn_world []) = Some (None, w1) /\ dy_rest (w_api w1) = ["c1/lb"; "foo/c1/ns"] /\
    on_ticks (fun s => s) 0 lb_services log_service log_client get [mkDynamicPass true 1100 "a"; mkDynamicPass false 1200 "b"] w1 =
      Some (tt, lists_put c 2 w1).
Proof.
  intros c get. assert (Hr : match read_row c (dyn_world []) with
    | Some (e, w) => e = None /\ dy_rest (w_api w) = ["c1/lb"; "foo/c1/ns"] | None => False end) by (vm_compute; split; reflexivity).
  destruct (read_row c (dyn_world [])) as [[err w1]|] eqn:Hread; [|destruct Hr]. destruct Hr as [-> Hr].
  exists w1. split; [reflexivity|]. split; [exact Hr|].
  exact (proj1 (unchanged_config_not_processed (fun s => s) 0 lb_services log_service log_client get
    (fun _ _ _ => log_keeps _) (fun _ _ _ _ _ => log_keeps _) c (mkDynamicPass false 1000 "tx")
    [mkDynamicPass true 1100 "a"; mkDynamicPass false 1200 "b"] None (dyn_world []) w1
    (fun _ => eq_refl) eq_refl (row_not_warming _ _) Hread)).
Defined.

(** An identity with the prefix is processed, but stays pending: it is taken out of the map
    without the prefix. *)
Lemma bypass_stays_pending :
  let r := read_row (row [] ["bypass:foo"]) (dyn_world []) in
  dyn_log r = ["foo/c1/ns/bypass"] /\ pending r = ["bypass:foo"].
Proof. vm_compute. done. Qed.

(** An identity that no cluster has ends the processing of all, without an error; those
    processed before it stay pending. *)
Lemma unknown_client_ends_all :
  let r := read_row (row [] ["aaa"; "foo"]) (dyn_world []) in
  let r' := read_row (row [] ["foo"; "zzz"]) (dyn_world []) in
  dyn_log r = [] /\ pending r = ["aaa"; "foo"] /\ dyn_log r' = ["foo/c1/ns"] /\ pending r' = ["foo"; "zzz"].
Proof. vm_compute. done. Qed.

(** An empty list of the row does not empty that of the parameters: the last cluster keeps
    its load balancer. *)
Lemma last_cluster_stays :
  let w1 := world_of (dyn_world []) (read_row (row ["c1"] []) (dyn_world [])) in
  let r := read_row (row [] []) w1 in
  dyn_log r = ["c1/lb"] /\ NLBEnabledCluster (w_api (world_of w1 r)) = ["c1"].
Proof. vm_compute. done. Qed.

(** *** A table that fails twice *)

#[local] Instance flaky_table : DynamoDB nat string unit unit := {|
  UpdateItem _ _ _ s := (S s, if Nat.ltb s 2 then Some "throttled" else None);
  DeleteItem _ _ s := (S s, None);
  Query _ _ s := (s, inl None);
  build_update _ := inl tt;
  build_key _ _ := inl tt;
  MarshalMap _ := inl ∅;
  marshal_keys _ := None;
  unmarshal_workload _ := inr "";
  unmarshal_config _ := inr "";
  count_pointer _ := ""
|}.
Definition example_workload : WorkloadData :=
  mkWorkloadData "foo" "foo.mesh" "dev" "default" "" (Some ∅) None "" "" "" None None.
Lemma third_attempt_writes :
  WorkloadDatabaseClient_Update (Some (mkDatabaseClient true (Some "workloads"))) example_workload 0%nat =
  (3%nat, None, 2%nat).
Proof. vm_compute. reflexivity. Qed.

(** A count other than one, also of a table without the row, is an error; without a client
    there is another one. *)
Lemma config_client_errors :
  (exists e, DynamicConfigDatabaseClient_Get (Some (mkDatabaseClient false None)) "EnableDynamicConfig" "admiral" 0%nat = Some (0%nat, inr e)) /\
  DynamicConfigDatabaseClient_Get (Some (mkDatabaseClient true (Some "t"))) "EnableDynamicConfig" "admiral" 0%nat = Some (0%nat, inl no_config).
Proof. split; [eexists; vm_compute; reflexivity|vm_compute; reflexivity]. Qed.
