(* ===== verification/Workloads.v ===== *)
(** * Workload records

    [getWorkloadData] and [getGTPDetails] of [clusters/serviceentry.go]: the record of an
    endpoint for the workload table, of its service entry and the traffic policy in use.
    [storeWorkloadData] and [deleteWorkloadData], which would write it, do nothing; the
    table is in [DynamicConfig.v]. *)
From S2P Require Import Prelude GoStrings GoStd Config Objects Metadata ServiceCache Policies AddressStore StateCheck.
From S2P Require Import Caches Dependents World VsRouting ServiceEntries GatherServiceEntries DynamicConfig.
From stdpp Require Import options.

Definition gtpManagedByGithub := "github".
Definition gtpManagedByMeshAgent := "mesh-agent".
Definition gtpManagerMeshAgentFieldValue := "ewok-mesh-agent".
Definition LastUpdatedAt := "lastUpdatedAt".

Definition LbType_String (t : LbType) : string := match t with TOPOLOGY => "TOPOLOGY" | FAILOVER => "FAILOVER" end.

(** The values of [getGTPDetails]. *)
Record gtp_details := mkGtpDetails {
  gdLbType : string;
  gdDnsPrefix : string;
  gdTrafficDistribution : gmap string Z;
  gdGtpManagedBy : string;
  gdGtpId : string;
  gdLastUpdatedAt : string
}.

Section Workloads.
Context (p : AdmiralParams).
(** The managers in the metadata of a policy, and the time in RFC 3339 format. *)
Context (managers : GlobalTrafficPolicy -> list string) (now : string).

(** The policy that counts for the prefix of a service entry. *)
Definition policy_applies (serviceEntry : ServiceEntryObj) (policy : TrafficPolicy) : bool :=
  let annotations := Annotations (SeMeta serviceEntry) in
  negb (Nat.eqb (mlen annotations) 0) &&
  ((tpDnsPrefix policy =?s mget annotations "dns-prefix") ||
   (is_empty (mget annotations "dns-prefix") && (tpDnsPrefix policy =?s "default"))).

Definition distribution_of (targets : list TrafficGroup) : gmap string Z :=
  foldl (fun m entry => <[Region entry := Weight entry]> m) ∅ targets.

Definition getGTPDetails (serviceEntry : ServiceEntryObj) (globalTrafficPolicy : GlobalTrafficPolicy) : gtp_details :=
  let annotations := Annotations (GtpMeta globalTrafficPolicy) in
  let gtpId := if is_empty (mget annotations IntuitTID) then ResourceVersion (GtpMeta globalTrafficPolicy)
               else mget annotations IntuitTID in
  let lastUpdatedAt := if is_empty (mget annotations LastUpdatedAt) then now else mget annotations LastUpdatedAt in
  match GtpPolicy globalTrafficPolicy with
  | [] => mkGtpDetails "" "" ∅ "" gtpId lastUpdatedAt
  | policies =>
      let gtpManagedBy := if str_in gtpManagerMeshAgentFieldValue (managers globalTrafficPolicy)
                          then gtpManagedByMeshAgent else gtpManagedByGithub in
      match List.find (policy_applies serviceEntry) policies with
      | Some policy => mkGtpDetails (LbType_String (tpLbType policy)) (tpDnsPrefix policy) (distribution_of (tpTarget policy))
                         gtpManagedBy gtpId lastUpdatedAt
      | None => mkGtpDetails "" "" ∅ gtpManagedBy gtpId lastUpdatedAt
      end
  end.

(** The distribution of a rule that sends everything from anywhere to a single list of
    regions. *)
Definition primary_distribution (dr : DestinationRule) : option (gmap string Z) :=
  policy ← drTrafficPolicy dr;
  balancer ← drLoadBalancer policy;
  match lbLocality balancer with
  | Some [d] => if dFrom d =?s "*" then Some (dTo d) else None
  | _ => None
  end.

(** Weights are converted from uint32 to int32. *)
Definition active_passive (dr : DestinationRule) : string * gmap string Z :=
  match primary_distribution dr with
  | Some regions => (if Nat.eqb (size regions) 0 then "" else LbType_String FAILOVER, int32 <$> regions)
  | None => ("", ∅)
  end.

(** [None]: the service entry has no host, and indexing panics. *)
Definition getWorkloadData (serviceEntry : ServiceEntryObj) (globalTrafficPolicy : option GlobalTrafficPolicy)
    (additionalEndpoints : list string) (dr : DestinationRule) (clusterName : string) (isSuccess : bool) : option WorkloadData :=
  let annotations := Annotations (SeMeta serviceEntry) in
  let '(d, successClusters, failedClusters) :=
    match globalTrafficPolicy with
    | Some gtp => (getGTPDetails serviceEntry gtp,
                   if isSuccess then Some [clusterName] else None, if isSuccess then None else Some [clusterName])
    | None =>
        let '(lbType, trafficDistribution) := if EnableActivePassive p then active_passive dr else ("", ∅) in
        (mkGtpDetails lbType "" trafficDistribution "" "" "", None, None)
    end in
  endpoint ← head (seHosts (SeSpec serviceEntry));
  Some (mkWorkloadData (mget annotations (GetWorkloadIdentifier p)) endpoint
    (mget (Labels (SeMeta serviceEntry)) (GetEnvKey p)) (gdDnsPrefix d) (gdLbType d) (Some (gdTrafficDistribution d))
    (match additionalEndpoints with [] => None | _ => Some additionalEndpoints end)
    (gdGtpManagedBy d) (gdGtpId d) (gdLastUpdatedAt d) successClusters failedClusters).

Definition storeWorkloadData {St : Type} (s : St) : St * error := (s, None).
Definition deleteWorkloadData {St : Type} (s : St) : St * error := (s, None).

(** ** Lemmas *)

Lemma distribution_lookup (targets : list TrafficGroup) (m : gmap string Z) (region : string) :
  foldl (fun m entry => <[Region entry := Weight entry]> m) m targets !! region =
  match last (List.filter (fun e => Region e =?s region) targets) with
  | Some e => Some (Weight e)
  | None => m !! region
  end.
Proof.
  induction targets as [|t targets IH] using rev_ind; [done|].
  rewrite foldl_snoc, List.filter_app. simpl. destruct (Region t =?s region) eqn:E.
  - apply seqb_eq in E. subst. by rewrite lookup_insert_eq, last_snoc.
  - rewrite app_nil_r. apply seqb_neq in E. by rewrite lookup_insert_ne.
Qed.

(** The record with a policy moves the cluster between the two lists of the table. *)
Lemma workload_cluster_columns {Value : Type} serviceEntry gtp additional dr clusterName isSuccess data :
  getWorkloadData serviceEntry (Some gtp) additional dr clusterName isSuccess = Some data ->
  handleClusterListUpdate (Value := Value) data =
    let '(to, from) := if isSuccess then (SuccessClustersKey, FailedClustersKey) else (FailedClustersKey, SuccessClustersKey) in
    [DeleteFrom from [clusterName]; AddTo to [clusterName]].
Proof. unfold getWorkloadData. destruct (head _); [|done]. simpl. intros [= <-]. by destruct isSuccess. Qed.

(** Without a policy in use both lists are removed; in an active-passive mesh the record
    has the primary region of the rule. *)
Lemma workload_without_policy {Value : Type} serviceEntry additional dr clusterName isSuccess data :
  getWorkloadData serviceEntry None additional dr clusterName isSuccess = Some data ->
  handleClusterListUpdate (Value := Value) data = [RemoveAttr SuccessClustersKey; RemoveAttr FailedClustersKey] /\
  wdGtpManagedBy data = "" /\ wdDnsPrefix data = "" /\
  (wdTrafficDistribution data <> Some ∅ -> EnableActivePassive p = true /\ exists regions, primary_distribution dr = Some regions).
Proof.
  unfold getWorkloadData. unfold active_passive.
  destruct (EnableActivePassive p), (primary_distribution dr) as [regions|], (head _); intros [=]; subst; split_and!; try done; eauto.
Qed.

(** The policy of a record is the first of the prefix, and the weight of a region that of
    its last target. *)
Lemma workload_policy serviceEntry gtp additional dr clusterName isSuccess data policy before after :
  getWorkloadData serviceEntry (Some gtp) additional dr clusterName isSuccess = Some data ->
  GtpPolicy gtp = before ++ policy :: after ->
  Forall (fun q => policy_applies serviceEntry q = false) before -> policy_applies serviceEntry policy = true ->
  wdDnsPrefix data = tpDnsPrefix policy /\ wdLbType data = LbType_String (tpLbType policy) /\
  head (seHosts (SeSpec serviceEntry)) = Some (wdEndpoint data) /\
  forall region, default ∅ (wdTrafficDistribution data) !! region =
    Weight <$> last (List.filter (fun e => Region e =?s region) (tpTarget policy)).
Proof.
  intros H Hp Hb Ha.
  assert (Hf : List.find (policy_applies serviceEntry) (GtpPolicy gtp) = Some policy).
  { rewrite Hp. clear Hp. induction Hb as [|q l Hq _ IH]; simpl; [by rewrite Ha|by rewrite Hq]. }
  unfold getWorkloadData in H. destruct (head (seHosts (SeSpec serviceEntry))) as [endpoint|]; [|done]. simpl in H.
  assert (Hd : exists m i t, getGTPDetails serviceEntry gtp =
    mkGtpDetails (LbType_String (tpLbType policy)) (tpDnsPrefix policy) (distribution_of (tpTarget policy)) m i t).
  { unfold getGTPDetails. destruct (GtpPolicy gtp); [done|]. rewrite Hf. eauto. }
  destruct Hd as (m & i & t & Hd). rewrite Hd in H. injection H as <-. simpl. split_and!; [done..|].
  intros region. unfold distribution_of. rewrite distribution_lookup, lookup_empty. by destruct (last _).
Qed.
End Workloads.
