(* ===== verification/RegistryClient.v ===== *)
(** * The client of the registry

    [registry/registry.go] and [util/baseClient.go]: the objects that Admiral's state syncer
    sees in the clusters are put into the registry, and deleted from it, by HTTP calls.  The
    clients of [WorkloadHandlers.v] and [Policies.v] are implemented here; what the server
    answers is a parameter. *)
From S2P Require Import Prelude GoStrings Config Objects Metadata ServiceCache Policies Caches Dependents World Controller.
From S2P Require Import ClientControllers WorkloadHandlers.
From stdpp Require Import options.

(** ** JSON objects of strings *)

Definition quote : string := String (Ascii.ascii_of_nat 34) "".
Definition hex_digit (n : nat) : string := String.substring n 1 "0123456789abcdef".

(** An ASCII character in a JSON string, as [json.Marshal] writes it. *)
Definition json_char (c : Ascii.ascii) : string :=
  let n := Ascii.nat_of_ascii c in
  if Nat.eqb n 34 then "\" +:+ quote
  else if Nat.eqb n 92 then "\\"
  else if Nat.eqb n 8 then "\b" else if Nat.eqb n 9 then "\t" else if Nat.eqb n 10 then "\n"
  else if Nat.eqb n 12 then "\f" else if Nat.eqb n 13 then "\r"
  else if Nat.ltb n 32 || Nat.eqb n 38 || Nat.eqb n 60 || Nat.eqb n 62
       then "\u00" +:+ hex_digit (n / 16) +:+ hex_digit (n mod 16)
  else String c "".
Fixpoint json_chars (s : string) : string :=
  match s with EmptyString => "" | String c s' => json_char c +:+ json_chars s' end.
Definition json_string (s : string) : string := quote +:+ json_chars s +:+ quote.

(** The keys are sorted. *)
Definition json_object (data : gmap string string) : string :=
  "{" +:+ String.concat "," (map (fun k => json_string k +:+ ":" +:+ json_string (default "" (data !! k)))
            (sort_strings (map_to_list data).*1)) +:+ "}".

(** ** Calls *)

Record http_request := mkRequest { rq_method : string; rq_url : string; rq_header : gmap string string; rq_body : string }.
Record http_response := mkResponse { StatusCode : Z; rs_body : option string }.

(** [http.Client.Do]. *)
Class HttpClient (St : Type) := { http_Do : http_request -> St -> St * (http_response + string) }.

Definition MethodPut := "PUT".
Definition MethodDelete := "DELETE".
Definition DefaultReqTimeoutSeconds := 10%Z.
Definition DefaultConnectionTimeoutSeconds := 5%Z.
Definition DefaultTlsHandShakeTimeoutSeconds := 5%Z.

(** [util.Config] *)
Record client_config := mkClientConfig {
  cfHost : string; cfAppId : string; cfAppSecret : string; cfBaseURI : string;
  ReqTimeoutSeconds : Z; ConnectionTimeoutSeconds : Z; TlsHandShakeTimeoutSeconds : Z
}.
Definition or_default (z d : Z) : Z := if (z =? 0)%Z then d else z.
Definition NewClient (c : client_config) : client_config :=
  mkClientConfig (cfHost c) (cfAppId c) (cfAppSecret c) (cfBaseURI c)
    (or_default (ReqTimeoutSeconds c) DefaultReqTimeoutSeconds)
    (or_default (ConnectionTimeoutSeconds c) DefaultConnectionTimeoutSeconds)
    (or_default (TlsHandShakeTimeoutSeconds c) DefaultTlsHandShakeTimeoutSeconds).

Definition NewDefaultRegistryClient (p : AdmiralParams) : client_config :=
  let params := GetRegistryClientConfig p in
  let get k := default "" (params !! k) in
  NewClient (mkClientConfig (get "Host") (get "AppId") (get "AppSecret") (get "BaseURI") 0 0 0).

Section Client.
Context {St : Type} {http : HttpClient St} (p : AdmiralParams) (config : client_config).

(** The URLs are those of Kubernetes names, which [http.NewRequest] takes. *)
Definition makeCall (url : string) (headers : gmap string string) (method body : string) (s : St) : St * (http_response + string) :=
  match http_Do (mkRequest method url headers body) s with
  | (s', inr err) => (s', inr ("error executing http request err:" +:+ err))
  | r => r
  end.

Definition MakePrivateAuthCall (url tid method body : string) (s : St) : St * (http_response + string) :=
  let authHeader := "Intuit_IAM_Authentication intuit_appid=" +:+ cfAppId config +:+ ", intuit_app_secret=" +:+ cfAppSecret config in
  let headers : gmap string string := if is_empty tid then ∅ else {[ "Intuit_tid" := tid ]} in
  makeCall url (<["Authorization" := authHeader]> (<["Content-Type" := "application/json"]> headers)) method body s.

(** A deletion has no data. *)
Definition makeCallToRegistry (url tid method : string) (data : option (gmap string string)) (s : St) : St * error :=
  let body := match data with None => "" | Some d => json_object d end in
  match MakePrivateAuthCall url tid method body s with
  | (s', inr err) => (s', Some err)
  | (s', inl response) =>
      if (StatusCode response =? 200)%Z then (s', None)
      else (s', Some ("response code for request to " +:+ url +:+ " was " +:+ itoa (StatusCode response) +:+ " with body: " +:+
                      default "nil response body" (rs_body response)))
  end.

(** ** Gateways and custom data *)

Definition cluster_url (cluster : string) : string := cfHost config +:+ "/" +:+ cfBaseURI config +:+ "/k8s/clusters/" +:+ cluster.

Definition gateway_url (cluster name resourceType : string) : string :=
  cluster_url cluster +:+ "/gateways/" +:+ name +:+ "?type=" +:+ resourceType.

(** [PutClusterGateway] *)
Definition RegistryClient_PutClusterGateway (cluster name ingressURL notes resourceType tid : string) (labels : list string)
    (s : St) : St * error :=
  makeCallToRegistry (gateway_url cluster name resourceType) tid MethodPut
    (Some (<["name" := name]> (<["url" := ingressURL]> (<["label" := String.concat ", " labels]>
       (<["notes" := notes]> {[ "type" := resourceType ]}))))) s.
Definition RegistryClient_DeleteClusterGateway (cluster name resourceType tid : string) (s : St) : St * error :=
  makeCallToRegistry (gateway_url cluster name resourceType) tid MethodDelete None s.

Definition custom_url (cluster namespace name resourceType : string) : string :=
  cluster_url cluster +:+ "/namespaces/" +:+ namespace +:+ "/customdata/" +:+ name +:+ "?type=" +:+ resourceType.

(** [json.Marshal] of a resource; its error is dropped. *)
Definition RegistryClient_PutCustomData {A} (marshal : A -> string) (cluster namespace name resourceType tid : string) (value : A)
    (s : St) : St * error :=
  makeCallToRegistry (custom_url cluster namespace name resourceType) tid MethodPut
    (Some (<["name" := name]> (<["type" := resourceType]> {[ "value" := marshal value ]}))) s.
Definition RegistryClient_DeleteCustomData (cluster namespace name resourceType tid : string) (s : St) : St * error :=
  makeCallToRegistry (custom_url cluster namespace name resourceType) tid MethodDelete None s.

(** ** Hostings *)

Definition hosting_query (assetAlias resourceType : string) : string :=
  "?type=" +:+ resourceType +:+ "&env=" +:+ GetAdmiralAppEnv p +:+ "&assetAlias=" +:+ assetAlias.
Definition namespace_url (cluster namespace : string) : string := cluster_url cluster +:+ "/namespaces/" +:+ namespace.
Definition hosting_url (cluster namespace name assetAlias resourceType : string) : string :=
  namespace_url cluster namespace +:+ "/hostings/" +:+ name +:+ hosting_query assetAlias resourceType.
Definition metadata_url (cluster namespace name key assetAlias resourceType : string) : string :=
  namespace_url cluster namespace +:+ "/hostings/" +:+ name +:+ "/metadata/" +:+ key +:+ hosting_query assetAlias resourceType.

(** An error that has 404 in its text is that of a missing hosting, which is created; the
    error of its namespace is only logged. *)
Definition RegistryClient_PutHostingData (json : string) (cluster namespace name assetAlias resourceType tid : string) (s : St)
    : St * error :=
  let hostingMetadataUrl := metadata_url cluster namespace name "obj" assetAlias resourceType in
  let hostingMetadataPayload : gmap string string := <["json" := json]> (<["key" := "obj"]> {[ "type" := resourceType ]}) in
  match makeCallToRegistry hostingMetadataUrl tid MethodPut (Some hostingMetadataPayload) s with
  | (s1, Some metadataErr) =>
      if contains metadataErr "404" then
        let '(s2, _) := makeCallToRegistry (namespace_url cluster namespace) tid MethodPut (Some {[ "name" := namespace ]}) s1 in
        let hostingPayload : gmap string string :=
          <["assetAlias" := assetAlias]> (<["env" := GetAdmiralAppEnv p]> (<["name" := name]> {[ "type" := resourceType ]})) in
        match makeCallToRegistry (hosting_url cluster namespace name assetAlias resourceType) tid MethodPut (Some hostingPayload) s2 with
        | (s3, Some hostingErr) => (s3, Some hostingErr)
        | (s3, None) => makeCallToRegistry hostingMetadataUrl tid MethodPut (Some hostingMetadataPayload) s3
        end
      else (s1, Some metadataErr)
  | r => r
  end.

(** The asset is named where the hosting was, and the hosting where the key was. *)
Definition RegistryClient_DeleteHostingData (cluster namespace name assetAlias resourceType tid : string) (s : St) : St * error :=
  makeCallToRegistry (metadata_url cluster namespace assetAlias name assetAlias resourceType) tid MethodDelete None s.
End Client.

(** ** Identity configurations *)

Section IdentityFiles.
Context {Conf : Type} (p : AdmiralParams).
(** [os.ReadFile], and [json.Unmarshal], which also returns what it read before an error. *)
Context (ReadFile : string -> string + string) (unmarshal : string -> Conf * error).

Definition readIdentityConfigFromFile (shortAlias : list string) : string + string :=
  let file := default "" (last shortAlias) +:+ "IdentityConfiguration.json" in
  ReadFile (if (GetSecretFilterTags p =?s GetOperatorSecretFilterTags p) && negb (is_empty (GetOperatorSyncNamespace p))
            then "/etc/serviceregistry/config/" +:+ file else "testdata/" +:+ file).

(** The error of the file is only logged: what is read then is empty. *)
Definition GetIdentityConfigByIdentityName (identityAlias : string) : Conf * error :=
  unmarshal (match readIdentityConfigFromFile (split "."%char identityAlias) with inl byteValue => byteValue | inr _ => "" end).

Definition GetIdentityConfigByClusterName (clusterName : string) : list Conf * error :=
  let '(identityConfig, identityErr) := GetIdentityConfigByIdentityName clusterName in ([identityConfig], identityErr).
End IdentityFiles.

(** ** The interfaces of the handlers *)

Section Interfaces.
Context {St : Type} {http : HttpClient St} (p : AdmiralParams) (config : client_config).
Context {A : Type} (marshal : A -> string) (marshal_hosted : hosted -> string).

Definition registry_custom_data : CustomDataRegistry St A := {|
  PutCustomData := RegistryClient_PutCustomData config marshal;
  DeleteCustomData := RegistryClient_DeleteCustomData config
|}.
Definition registry_hostings : HostingRegistry St := {|
  PutHostingData cluster ns name assetAlias kind tid obj :=
    on_api (RegistryClient_PutHostingData p config (marshal_hosted obj) cluster ns name assetAlias kind tid);
  DeleteHostingData cluster ns name assetAlias kind tid :=
    on_api (RegistryClient_DeleteHostingData p config cluster ns name assetAlias kind tid);
  PutClusterGateway cluster name ingressURL tid :=
    on_api (RegistryClient_PutClusterGateway config cluster name ingressURL "" "istio-ingressgateway" tid [])
|}.
End Interfaces.

(** ** The URLs tell the objects apart *)

Fixpoint no_char (c : Ascii.ascii) (s : string) : bool :=
  match s with EmptyString => true | String d s' => negb (Ascii.eqb c d) && no_char c s' end.

Lemma cut_at (c : Ascii.ascii) (a b r r' : string) :
  no_char c a = true -> no_char c b = true -> a +:+ String c r = b +:+ String c r' -> a = b /\ r = r'.
Proof.
  revert b. induction a as [|d a IH]; intros [|e b] Ha Hb H; simpl in *.
  - by injection H as ->.
  - injection H as -> _. by rewrite Ascii.eqb_refl in Hb.
  - injection H as -> _. by rewrite Ascii.eqb_refl in Ha.
  - injection H as -> H. apply andb_prop in Ha as [_ Ha], Hb as [_ Hb]. destruct (IH b Ha Hb H) as [-> ->]. done.
Qed.

(** A cluster, a namespace or a name, which are free of the separators of a URL. *)
Definition plain (s : string) : Prop := no_char "/"%char s = true /\ no_char "?"%char s = true.

Lemma custom_url_inj (config : client_config) (c c' ns ns' n n' k k' : string) :
  plain c -> plain c' -> plain ns -> plain ns' -> plain n -> plain n' ->
  custom_url config c ns n k = custom_url config c' ns' n' k' -> c = c' /\ ns = ns' /\ n = n' /\ k = k'.
Proof.
  intros [Hc _] [Hc' _] [Hns _] [Hns' _] [_ Hn] [_ Hn'] H. unfold custom_url, cluster_url in H. rewrite !sapp_assoc in H.
  do 4 apply sapp_inj_l in H. apply (cut_at "/"%char) in H as [-> H]; [|done..].
  apply (sapp_inj_l "namespaces/") in H. apply (cut_at "/"%char) in H as [-> H]; [|done..].
  apply (sapp_inj_l "customdata/") in H. apply (cut_at "?"%char) in H as [-> H]; [|done..]. by apply (sapp_inj_l "type=") in H.
Qed.

(** ** Custom data come and go *)

Section Rest.
Context {St : Type} {http : HttpClient St} (config : client_config) {A : Type} (marshal : A -> string).
(** A server that keeps the bodies of its resources by URL. *)
Context (contents : St -> gmap string string).
Context (put_stores : forall url h body s s' r, http_Do (mkRequest MethodPut url h body) s = (s', inl r) -> StatusCode r = 200%Z ->
  contents s' = <[url := body]> (contents s)).
Context (delete_removes : forall url h body s s' r, http_Do (mkRequest MethodDelete url h body) s = (s', inl r) -> StatusCode r = 200%Z ->
  contents s' = delete url (contents s)).

Lemma call_ok url tid method data (s s' : St) :
  makeCallToRegistry config url tid method data s = (s', None) ->
  exists h body r, http_Do (mkRequest method url h body) s = (s', inl r) /\ StatusCode r = 200%Z /\
    body = match data with None => "" | Some d => json_object d end.
Proof using Type.
  unfold makeCallToRegistry, MakePrivateAuthCall, makeCall. intros H.
  destruct (http_Do _ s) as [s1 [r|e]] eqn:E; [|done]. destruct (StatusCode r =? 200)%Z eqn:Er; [|done].
  injection H as ->. apply Z.eqb_eq in Er. eexists _, _, r. split; [exact E|done].
Qed.

(** C31: What is put into the registry for an object is there under the URL of the object;
    its deletion removes that and nothing else, in particular no data of another object. *)
Theorem custom_data_roundtrip (c ns n k tid tid' : string) (value : A) (s s1 s2 : St) :
  RegistryClient_PutCustomData config marshal c ns n k tid value s = (s1, None) ->
  RegistryClient_DeleteCustomData config c ns n k tid' s1 = (s2, None) ->
  contents s1 !! custom_url config c ns n k =
    Some (json_object (<["name" := n]> (<["type" := k]> {[ "value" := marshal value ]}))) /\
  contents s2 = delete (custom_url config c ns n k) (contents s) /\
  (plain c -> plain ns -> plain n -> forall c' ns' n' k', plain c' -> plain ns' -> plain n' ->
     (c', ns', n', k') <> (c, ns, n, k) ->
     contents s2 !! custom_url config c' ns' n' k' = contents s !! custom_url config c' ns' n' k').
Proof using put_stores delete_removes.
  intros (h & body & r & Hp & Hr & ->)%call_ok (h' & body' & r' & Hd & Hr' & _)%call_ok.
  rewrite (delete_removes _ _ _ _ _ _ Hd Hr'), (put_stores _ _ _ _ _ _ Hp Hr), delete_insert_eq.
  split_and!; [apply lookup_insert_eq|done|]. intros Hc Hns Hn c' ns' n' k' Hc' Hns' Hn' Hne.
  apply lookup_delete_ne. intros H. apply custom_url_inj in H as (-> & -> & -> & ->); done.
Qed.
End Rest.

(** ** A server with hostings *)

(** The prefix before [sep], if there is one. *)
Fixpoint before (sep s : string) : option string :=
  if has_prefix s sep then Some ""
  else match s with EmptyString => None | String c s' => String c <$> before sep s' end.

Definition reply (code : Z) (s : gmap string string) : gmap string string * (http_response + string) :=
  (s, inl (mkResponse code (Some ""))).

(** Metadata are put for a hosting that exists; any other resource can be put; what does
    not exist cannot be deleted.  The URLs are kept without their queries. *)
#[local] Instance hosting_server : HttpClient (gmap string string) := {|
  http_Do rq s :=
    let url := default (rq_url rq) (before "?" (rq_url rq)) in
    if rq_method rq =?s MethodPut then
      match before "/metadata/" url with
      | Some hosting => match s !! hosting with None => reply 404 s | Some _ => reply 200 (<[url := rq_body rq]> s) end
      | None => reply 200 (<[url := rq_body rq]> s)
      end
    else match s !! url with None => reply 404 s | Some _ => reply 200 (delete url s) end
|}.
Definition registry_config : client_config := mkClientConfig "h" "id" "secret" "v1" 0 0 0.
Definition urls {A} (r : gmap string string * A) : list string := (map_to_list r.1).*1.
Definition put_hosting (json : string) : gmap string string -> gmap string string * error :=
  RegistryClient_PutHostingData Params.zero_AdmiralParams registry_config json "c1" "ns" "foo" "asset" "Deployment" "tx".

(** A hosting that does not exist is created with its namespace. *)
Lemma hosting_created :
  urls (put_hosting "{}" ∅) =
    ["h/v1/k8s/clusters/c1/namespaces/ns/hostings/foo/metadata/obj"; "h/v1/k8s/clusters/c1/namespaces/ns/hostings/foo";
     "h/v1/k8s/clusters/c1/namespaces/ns"] /\
  (put_hosting "{}" ∅).2 = None.
Proof. vm_compute. done. Qed.

(** A deletion does not find the metadata that were put. *)
Lemma hosting_not_deleted :
  let s := (put_hosting "{}" ∅).1 in
  let r := RegistryClient_DeleteHostingData Params.zero_AdmiralParams registry_config "c1" "ns" "foo" "asset" "Deployment" "tx" s in
  urls r = urls (s, None (A := string)) /\ match r.2 with Some e => contains e "404" | None => false end = true.
Proof. vm_compute. done. Qed.

(** The error's text has the URL: a failure of any kind for an object whose cluster,
    namespace or name has 404 in it is taken for a missing hosting. *)
#[local] Instance failing_server : HttpClient (list string) := {|
  http_Do rq s := (s ++ [rq_url rq], inl (mkResponse 500 None))
|}.
Lemma name_taken_for_404 :
  let put name := (RegistryClient_PutHostingData Params.zero_AdmiralParams registry_config "{}" "c1" "ns" name "asset" "Deployment" "tx" []).1 in
  length (put "foo") = 1%nat /\ length (put "foo-404") = 3%nat.
Proof. vm_compute. done. Qed.

(** *** Custom data of two objects *)

#[local] Instance plain_server : HttpClient (gmap string string) := {|
  http_Do rq s := (if rq_method rq =?s MethodPut then <[rq_url rq := rq_body rq]> s else delete (rq_url rq) s,
                   inl (mkResponse 200 (Some "")))
|}.

Lemma plain_server_puts url h body s s' r :
  http_Do (mkRequest MethodPut url h body) s = (s', inl r) -> StatusCode r = 200%Z -> s' = <[url := body]> s.
Proof. by intros [= <- <-]. Qed.
Lemma plain_server_deletes url h body s s' r :
  http_Do (mkRequest MethodDelete url h body) s = (s', inl r) -> StatusCode r = 200%Z -> s' = delete url s.
Proof. by intros [= <- <-]. Qed.

Lemma with_result {B C} (r : B * C) (c : C) : r.2 = c -> r = (r.1, c).
Proof. destruct r. by intros [= <-]. Qed.

Lemma custom_data_roundtrip_witness :
  let s := (RegistryClient_PutCustomData registry_config id "c1" "ns" "gtp" "GlobalTrafficPolicy" "tx" "{}" ∅).1 in
  let s1 := (RegistryClient_PutCustomData registry_config id "c1" "ns" "od" "OutlierDetection" "tx" "{}" s).1 in
  let s2 := (RegistryClient_DeleteCustomData registry_config "c1" "ns" "od" "OutlierDetection" "tx" s1).1 in
  size s1 = 2%nat /\
  s2 !! custom_url registry_config "c1" "ns" "gtp" "GlobalTrafficPolicy" =
    s !! custom_url registry_config "c1" "ns" "gtp" "GlobalTrafficPolicy".
Proof.
  intros s s1 s2. split; [vm_compute; reflexivity|].
  assert (H1 : RegistryClient_PutCustomData registry_config id "c1" "ns" "od" "OutlierDetection" "tx" "{}" s = (s1, None))
    by (apply with_result; vm_compute; reflexivity).
  assert (H2 : RegistryClient_DeleteCustomData registry_config "c1" "ns" "od" "OutlierDetection" "tx" s1 = (s2, None))
    by (apply with_result; vm_compute; reflexivity).
  assert (Hp : plain "c1" /\ plain "ns" /\ plain "od" /\ plain "gtp") by by repeat split. destruct Hp as (Pc & Pns & Pod & Pgtp).
  refine (proj2 (proj2 (custom_data_roundtrip registry_config id (fun s => s) plain_server_puts plain_server_deletes
    "c1" "ns" "od" "OutlierDetection" "tx" "tx" "{}" s s1 s2 H1 H2)) Pc Pns Pod "c1" "ns" "gtp" "GlobalTrafficPolicy" Pc Pns Pgtp _).
  discriminate.
Defined.
