(* ===== verification/Routes.v ===== *)
(** * The HTTP routes

    [apis/admiral/routes] and [GetServiceEntriesByCluster] of [clusters/serviceentry.go]:
    the health check, and the queries of the clusters, of the service entries by cluster
    and by identity, and of the traffic policy in use.  Matching a request to its route is
    the router's; [json.Marshal] is a parameter.  The connection takes what is written. *)
From S2P Require Import Prelude GoStrings Config Objects Metadata Policies AddressStore Writers ServiceEntries.
From S2P Require Import Caches Dependents World VirtualServices ClusterWriter.
From stdpp Require Import options.

(** ** Responses *)

(** [http.ResponseWriter]: the first status counts, and the header as it is then. *)
Record response := mkHttp { rspStatus : option Z; rspHeader : gmap string string; rspBody : string }.
Definition new_response : response := mkHttp None ∅ "".

Definition WriteHeader (code : Z) (header : gmap string string) (w : response) : response :=
  match rspStatus w with Some _ => w | None => mkHttp (Some code) header (rspBody w) end.
Definition Write (body : string) (w : response) : response :=
  let w := WriteHeader 200 (rspHeader w) w in mkHttp (rspStatus w) (rspHeader w) (rspBody w +:+ body).

Definition newline : string := String "010"%char "".
Definition json_type : gmap string string := {[ "Content-Type" := "application/json" ]}.

(** [http.Error] *)
Definition http_error (message : string) (code : Z) (w : response) : response :=
  Write (message +:+ newline)
    (WriteHeader code {[ "Content-Type" := "text/plain; charset=utf-8"; "X-Content-Type-Options" := "nosniff" ]} w).

Definition StatusOK := 200%Z.
Definition StatusBadRequest := 400%Z.
Definition StatusNotFound := 404%Z.
Definition StatusInternalServerError := 500%Z.

(** A double quote. *)
Definition quote : string := String "034"%char "".

Record IdentityServiceEntry := mkIdentityServiceEntry { Cname : string; ClusterNames : list string }.

(** What is marshalled. *)
Inductive payload :=
| PStrings (l : list string)
| PString (s : string)
| PServiceEntries (l : list ServiceEntryObj)
| PIdentityEntries (l : list IdentityServiceEntry)
| PPolicy (gtp : GlobalTrafficPolicy)
| PObject (m : gmap string string).

(** ** The health check *)

(** [strconv.ParseBool] *)
Definition parse_bool (s : string) : option bool :=
  if str_in s ["1"; "t"; "T"; "TRUE"; "true"; "True"] then Some true
  else if str_in s ["0"; "f"; "F"; "FALSE"; "false"; "False"] then Some false
  else None.

(** The text is the request's host, URI and method. *)
Definition ReturnSuccessGET (readOnly : bool) (host uri method checkifreadonly : string) (w : response) : response :=
  let value := replace_all checkifreadonly " " "" in
  if is_empty value || negb (is_nil (parse_bool value)) then
    let code := if default false (parse_bool value) && readOnly then 503%Z else 200%Z in
    Write ("Heath check method called: " +:+ host +:+ ", URI: " +:+ uri +:+ ", Method: " +:+ method +:+ newline)
      (WriteHeader code (rspHeader w) w)
  else
    Write ("Health check method called with bad query param value " +:+ value +:+ " for checkifreadonly")
      (WriteHeader 400 (rspHeader w) w).

(** ** The queries *)

(** [strings.Trim(s, " ")] *)
Fixpoint trim_spaces_left (s : string) : string :=
  match s with String a s' => if Ascii.eqb a " " then trim_spaces_left s' else s | "" => "" end.
Fixpoint trim_spaces_right (s : string) : string :=
  match s with
  | "" => ""
  | String a s' =>
      match trim_spaces_right s' with
      | "" => if Ascii.eqb a " " then "" else String a ""
      | t => String a t
      end
  end.
Definition trim_spaces (s : string) : string := trim_spaces_right (trim_spaces_left s).

(** [MapOfMaps.Range] with a callback that changes a variable of its closure. *)
Definition MapOfMaps_RangeWith {range : GoRange} {B} (s : ptr) (fn : string -> ptr -> B -> M B) (b : B) : M B :=
  mbnd (deref_tab 2 s) (fun '(l, m) => locking 2 l (mfold (fun kv => fn kv.1 kv.2) (go_range 0 m) b)).

Section Queries.
Context {range : GoRange} {St : Type} (p : AdmiralParams) (marshal : payload -> string + string).

(** The list of a cluster's service entries in a namespace, and the text of an API error. *)
Context (list_entries : string -> string -> St -> St * (list ServiceEntryObj + api_error)) (message : api_error -> string).
Context (remoteControllers : gmap string RemoteController).

Definition GetClusters (RemoteClusters : gmap string string) (w : response) : response :=
  let clusterList := (go_range 0 RemoteClusters).*1 in
  match marshal (PStrings clusterList) with
  | inr _ => http_error "Failed to marshall response" StatusInternalServerError w
  | inl out =>
      match clusterList with
      | [] =>
          let out := match marshal (PString "No cluster is monitored by admiral") with inl out => out | inr _ => "" end in
          Write out (WriteHeader 200 (rspHeader w) w)
      | _ => Write out (WriteHeader 200 json_type w)
      end
  end.

(** [clusters.GetServiceEntriesByCluster]; a controller of a cluster has one of service
    entries. *)
Definition service_entries_of (clusterID : string) (s : St) : St * (list ServiceEntryObj + string) :=
  match remoteControllers !! clusterID with
  | None => (s, inr ("admiral is not monitoring cluster " +:+ clusterID))
  | Some _ =>
      match list_entries clusterID (GetSyncNamespace p) s with
      | (s, inl items) => (s, inl items)
      | (s, inr err) => (s, inr (message err))
      end
  end.

Definition GetServiceEntriesByCluster (clustername : string) (w : response) (s : St) : St * response :=
  let clusterName := trim_spaces clustername in
  if is_empty clusterName then (s, http_error "cluster name not provided as part of the request" StatusBadRequest w)
  else
    match service_entries_of clusterName s with
    | (s, inr err) =>
        (s, http_error err (if contains (to_lower err) (to_lower "Admiral is not monitoring cluster") then StatusNotFound
                            else StatusInternalServerError) w)
    | (s, inl []) => (s, Write ("no service entries configured for cluster - " +:+ clusterName) (WriteHeader 200 (rspHeader w) w))
    | (s, inl entries) =>
        match marshal (PServiceEntries entries) with
        | inr _ => (s, http_error ("Failed to marshall response for getting service entries api for cluster " +:+ clusterName)
                         StatusInternalServerError w)
        | inl out => (s, Write out (WriteHeader 200 json_type w))
        end
    end.

(** The names that have the identity in them, with their clusters; [None] is a panic. *)
Definition entries_of_identity (identity : string) : W St (list IdentityServiceEntry) := fun w =>
  on_heap (MapOfMaps_RangeWith (SeClusterCache (w_caches w)) (fun cname serviceCluster response =>
    if contains cname identity then
      mbnd (Map_RangeWith serviceCluster (fun _ clusterID l => mret (l ++ [clusterID])) []) (fun clusterNames =>
        mret (response ++ [mkIdentityServiceEntry cname clusterNames]))
    else mret response) []) w.

Definition GetServiceEntriesByIdentity (param : string) (rsp : response) : W St response := fun w =>
  let identity := trim_spaces param in
  if is_empty identity then Some (http_error "Identity not provided as part of the request" StatusBadRequest rsp, w)
  else
    match entries_of_identity identity w with
    | None => None
    | Some (entries, w) =>
        Some (match marshal (PIdentityEntries entries) with
              | inr _ => http_error ("Failed to marshall response for getting service entries api for identity " +:+ identity)
                           StatusInternalServerError rsp
              | inl out => Write out (WriteHeader 200 json_type rsp)
              end, w)
    end.

Definition generateResponseJSON (code : Z) (payload : payload) (w : response) : response :=
  let body := match marshal payload with
              | inl out => out
              | inr _ => "{" +:+ quote +:+ "error" +:+ quote +:+ ": " +:+ quote +:+ "malformed response payload" +:+ quote +:+ "}"
              end in
  Write body (WriteHeader code json_type w).
Definition generateErrorResponse (code : Z) (message : string) : response -> response :=
  generateResponseJSON code (PObject {[ "error" := message ]}).

(** The registry and its cache of policies exist; a lookup has no error. *)
Definition GetGlobalTrafficPolicyByIdentityAndEnv (gtps : identityCache GlobalTrafficPolicy) (identity env : string)
    (w : response) : response :=
  if is_empty identity then generateErrorResponse StatusBadRequest "identity not provided as part of the path param" w
  else
    let env := if is_empty env then "default" else env in
    match identityCache_GetFromIdentity gtps identity env with
    | None => generateErrorResponse StatusNotFound
                ("globaltraffic policy with identity: " +:+ identity +:+ " and env: " +:+ env +:+ " was not found") w
    | Some gtp => generateResponseJSON StatusOK (PPolicy gtp) w
    end.
End Queries.

(** [Noop], the metrics when they are off. *)
Definition Noop (w : response) : response := WriteHeader StatusOK (rspHeader w) w.

(** ** The health check and the service entries of an identity *)

(** The health check of a passive instance fails exactly for a caller that asks for it; a
    value that is no boolean is the caller's error. *)
Lemma health_check_spec (readOnly : bool) (host uri method value : string) :
  rspStatus (ReturnSuccessGET readOnly host uri method value new_response) =
  Some (match parse_bool (replace_all value " " "") with
        | Some b => if b && readOnly then 503%Z else 200%Z
        | None => if is_empty (replace_all value " " "") then 200%Z else 400%Z
        end).
Proof.
  unfold ReturnSuccessGET. destruct (parse_bool _) as [[]|] eqn:E; cbn.
  - by destruct (is_empty _), readOnly.
  - by destruct (is_empty _).
  - by destruct (is_empty _).
Qed.

(** A body that changes nothing. *)
Lemma locking_read {A} (d l : nat) (c : M A) (h : heap) (a : A) :
  (d, l) ∉ h_locked h ->
  c (with_locks h ({[ (d, l) ]} ∪ h_locked h)) = Done a (with_locks h ({[ (d, l) ]} ∪ h_locked h)) ->
  locking d l c h = Done a h.
Proof. intros Hl Hc. rewrite (locking_run d l c h a _ Hl Hc) by done. by destruct h. Qed.

Lemma mfold_read {A B} (f : A -> B -> M B) (g : A -> B -> B) (l : list A) (h : heap) :
  (forall a b, a ∈ l -> f a b h = Done (g a b) h) -> forall b, mfold f l b h = Done (foldl (fun b a => g a b) b l) h.
Proof.
  induction l as [|a l IH]; intros Hf b; [done|]. simpl. unfold mbnd. rewrite Hf by apply list_elem_of_here.
  apply IH. intros a' b' Ha. by apply Hf, list_elem_of_further.
Qed.

Lemma foldl_snoc {A B} (f : A -> B) (l : list A) (acc : list B) : foldl (fun acc a => acc ++ [f a]) acc l = acc ++ map f l.
Proof. revert acc. induction l as [|a l IH]; intros acc; simpl; [by rewrite app_nil_r|]. by rewrite IH, <- app_assoc. Qed.

Lemma clusters_of_name {range : GoRange} (n : nat) (m : gmap string string) (h : heap) :
  h_maps h !! n = Some m -> (1, n) ∉ h_locked h ->
  Map_RangeWith (Some n) (fun _ clusterID l => mret (l ++ [clusterID])) [] h = Done (go_range 0 m).*2 h.
Proof.
  intros Hm Hl. unfold Map_RangeWith, mbnd, deref_map. rewrite bool_decide_eq_false_2, Hm by done.
  apply locking_read; [done|]. rewrite (mfold_read _ (fun (kv : string * string) l => l ++ [kv.2])) by done.
  by rewrite (foldl_snoc snd).
Qed.

(** The names that were written for an identity, by the substring, each with the clusters
    that are remembered for it; nothing is changed. *)
Lemma entries_of_identity_spec {range : GoRange} {St} (identity : string) (l : nat) (m : gmap string ptr) (w : world St) :
  SeClusterCache (w_caches w) = Some l -> h_tabs (w_heap w) !! (2, l) = Some m -> h_locked (w_heap w) = ∅ ->
  (forall cname q, m !! cname = Some q -> exists n clusters, q = Some n /\ h_maps (w_heap w) !! n = Some clusters) ->
  exists entries, entries_of_identity identity w = Some (entries, w) /\
    forall e, e ∈ entries <-> contains (Cname e) identity = true /\
      exists n clusters, m !! Cname e = Some (Some n) /\ h_maps (w_heap w) !! n = Some clusters /\
        ClusterNames e = (go_range 0 clusters).*2.
Proof.
  intros Hc Ht Hu Hq. set (h := w_heap w) in *.
  set (entry := fun kv : string * ptr =>
    mkIdentityServiceEntry kv.1 (go_range 0 (default ∅ (n ← kv.2; h_maps h !! n))).*2).
  set (g := fun (kv : string * ptr) (b : list IdentityServiceEntry) => if contains kv.1 identity then b ++ [entry kv] else b).
  assert (MapOfMaps_RangeWith (Some l) (fun cname serviceCluster response =>
    if contains cname identity then
      mbnd (Map_RangeWith serviceCluster (fun _ clusterID l => mret (l ++ [clusterID])) []) (fun clusterNames =>
        mret (response ++ [mkIdentityServiceEntry cname clusterNames]))
    else mret response) [] h = Done (foldl (fun b a => g a b) [] (go_range 0 m)) h) as Hr.
  { unfold MapOfMaps_RangeWith, mbnd at 1, deref_tab. rewrite Hu, bool_decide_eq_false_2, Ht by set_solver.
    apply locking_read; [rewrite Hu; set_solver|]. apply mfold_read. intros [cname q] b Hin. apply go_range_elem in Hin.
    destruct (Hq _ _ Hin) as (n & clusters & -> & Hn). unfold g, entry. simpl. destruct (contains cname identity); [|done].
    unfold mbnd. rewrite (clusters_of_name n clusters); [by rewrite Hn|done|]. simpl. rewrite Hu. set_solver. }
  eexists. split.
  - unfold entries_of_identity, on_heap. rewrite Hc. fold h. rewrite Hr. by destruct w.
  - assert (forall kvs acc e, e ∈ foldl (fun b a => g a b) acc kvs <->
      e ∈ acc \/ exists kv, kv ∈ kvs /\ contains kv.1 identity = true /\ e = entry kv) as Hf.
    { induction kvs as [|kv kvs IH]; intros acc e; simpl.
      - split; [by left|]. intros [?|(? & []%elem_of_nil & _)]; done.
      - rewrite IH. unfold g at 1. destruct (contains kv.1 identity) eqn:Ec.
        + rewrite elem_of_app, list_elem_of_singleton. split.
          * intros [[?| ->]|(kv' & Hin & ?)]; [by left|right; exists kv; by split; [apply list_elem_of_here|]|].
            right. exists kv'. by split; [apply list_elem_of_further|].
          * intros [?|(kv' & [->|Hin]%elem_of_cons & ? & ?)]; [by left; left|by left; right|]. right. by exists kv'.
        + split.
          * intros [?|(kv' & Hin & ?)]; [by left|]. right. exists kv'. by split; [apply list_elem_of_further|].
          * intros [?|(kv' & [->|Hin]%elem_of_cons & Hc' & ?)]; [by left|congruence|]. right. by exists kv'. }
    intros e. rewrite Hf. split.
    + intros [[]%elem_of_nil|([cname q] & Hin & Hct & ->)]. simpl in *. apply go_range_elem in Hin. split; [done|].
      destruct (Hq _ _ Hin) as (n & clusters & -> & Hn). exists n, clusters. simpl. by rewrite Hn.
    + intros [Hct (n & clusters & Hm & Hn & Hcl)]. right. exists (Cname e, Some n). split_and!; [by apply go_range_elem|done|].
      unfold entry. simpl. rewrite Hn. destruct e as [c l0]. simpl in *. by rewrite Hcl.
Qed.
