(* ===== verification/Server.v ===== *)
(** * The HTTP servers

    [apis/admiral/server/server.go], the tables of routes of
    [apis/admiral/routes/routes.go] and the access log of
    [apis/admiral/filters/filters.go].  What a handler does is in [Routes.v]; the router
    of gorilla/mux that takes the routes, and listening, are parameters. *)
From S2P Require Import Prelude GoStrings Config Clusters.
From stdpp Require Import options.

(** ** Routes and filters *)

Section Server.
Context {Handler : Type}.

(** A filter gives the handler around a handler; the string is the route's name.  The
    FilterChain of a route is not read. *)
Definition FilterHandlerFunc : Type := Handler -> string -> Handler.
Record Filter := mkFilter { fltHandlerFunc : FilterHandlerFunc }.
Record Route := mkRoute {
  rtName : string; rtMethod : string; rtPattern : string; rtQuery : string; rtHandlerFunc : Handler }.

(** What the router is given: [router.Methods(..).Path(..).Name(..).Handler(..)] and
    [router.Queries(..)], which makes a route of its own, and [router.PathPrefix(..)]. *)
Inductive mux_route :=
| MuxRoute (method pattern name : string) (handler : Handler)
| MuxQueries (pairs : list string)
| MuxPrefix (prefix : string) (handler : Handler).

Definition wrap (filter : list Filter) (name : string) (handler : Handler) : Handler :=
  foldl (fun handler f => fltHandlerFunc f handler name) handler filter.

Definition add_queries (Query : string) : list mux_route :=
  if is_empty Query then [] else map (fun query => MuxQueries [query; "{query}"]) (split "," Query).

Definition add_route (filter : list Filter) (router : list mux_route) (route : Route) : list mux_route :=
  (router ++ [MuxRoute (rtMethod route) (rtPattern route) (rtName route)
                (wrap filter (rtName route) (rtHandlerFunc route))]) ++ add_queries (rtQuery route).
Definition newRouter (routes : list Route) (filter : list Filter) : list mux_route :=
  foldl (add_route filter) [] routes.

(** [DefaultServeMux] has the profiler. *)
Definition start_router (DefaultServeMux : Handler) (port : Z) (routes : list Route) (filter : list Filter) : list mux_route :=
  newRouter routes filter ++ (if (port =? 8080)%Z then [MuxPrefix "/debug/" DefaultServeMux] else []).

(** ** A service *)

(** [Start] goes on, ends the process by [log.Fatalln], or returns. *)
Inductive serve_end := Serving | Exit (message : string) | Stopped.

(** [ListenAndServe] returns an error when it returns. *)
Definition Service_Start (ListenAndServe : Z -> list mux_route -> option string) (DefaultServeMux : Handler)
    (port : Z) (routes : list Route) (filter : list Filter) : serve_end :=
  match ListenAndServe port (start_router DefaultServeMux port routes filter) with
  | Some err => Exit err
  | None => Serving
  end.

(** The calls of [stop] by [for range s.ctx.Done()]: one for each value received, until
    the channel is closed. *)
Definition waitForStop (received : list unit) : nat := foldl (fun stops _ => S stops) 0 received.

(** The values received from the Done channel of a context: it is closed, and nothing is
    sent on it. *)
Definition Done : list unit := [].

(** ** The tables of routes *)

Record api_handlers := mkApiHandlers {
  hReturnSuccessGET : Handler;
  hGetClusters : Handler;
  hGetServiceEntriesByCluster : Handler;
  hGetServiceEntriesByIdentity : Handler;
  hGetGlobalTrafficPolicyByIdentityAndEnv : Handler
}.

(** The configuration that is loaded first is only logged. *)
Definition NewAdmiralAPIServer (opts : api_handlers) : list Route := [
  mkRoute "Success health check" "GET" "/health/ready" "" (hReturnSuccessGET opts);
  mkRoute "Get list of clusters admiral is watching" "GET" "/clusters" "" (hGetClusters opts);
  mkRoute "Get list service entries for a given cluster" "GET" "/cluster/{clustername}/serviceentries" ""
    (hGetServiceEntriesByCluster opts);
  mkRoute "Get list service entries for a given identity" "GET" "/identity/{identity}/serviceentries" ""
    (hGetServiceEntriesByIdentity opts);
  mkRoute "Get the GlobalTrafficPolicy based on the env and identity/asset alias" "GET"
    "/identity/{identity}/globaltrafficpolicy" "env" (hGetGlobalTrafficPolicyByIdentityAndEnv opts) ].

Definition NewMetricsServer (p : AdmiralParams) (prometheus noop : Handler) : list Route :=
  if GetMetricsEnabled p
  then [mkRoute "Get metrics in prometheus format" "GET" "/metrics" "" prometheus]
  else [mkRoute "Noop metrics" "GET" "/metrics" "" noop].

(** ** Lemmas *)

(** The handlers of the paths, in the order of the routes. *)
Definition mux_handlers (router : list mux_route) : list (string * string * Handler) :=
  omap (fun r => match r with MuxRoute m path _ h => Some (m, path, h) | _ => None end) router.

Lemma mux_handlers_queries (Query : string) : mux_handlers (add_queries Query) = [].
Proof. unfold add_queries. destruct (is_empty Query); [done|]. by induction (split "," Query). Qed.

(** Each route has its handler, in all the filters. *)
Lemma newRouter_handlers (routes : list Route) (filter : list Filter) :
  mux_handlers (newRouter routes filter) =
  map (fun r => (rtMethod r, rtPattern r, wrap filter (rtName r) (rtHandlerFunc r))) routes.
Proof.
  unfold newRouter. induction routes as [|r routes IH] using rev_ind; [done|].
  pose proof (mux_handlers_queries (rtQuery r)) as Hq.
  rewrite foldl_snoc, map_app, <-IH. unfold add_route, mux_handlers in *. rewrite !omap_app, Hq. by rewrite app_nil_r.
Qed.

(** The query of a route is not a condition of that route: the route that requires it
    has no path and no handler, and is tried before [/debug/]. *)
Lemma query_route_has_no_handler (opts : api_handlers) (filter : list Filter) (mux : Handler) :
  drop 4 (start_router mux 8080 (NewAdmiralAPIServer opts) filter) = [
    MuxRoute "GET" "/identity/{identity}/globaltrafficpolicy"
      "Get the GlobalTrafficPolicy based on the env and identity/asset alias"
      (wrap filter "Get the GlobalTrafficPolicy based on the env and identity/asset alias"
         (hGetGlobalTrafficPolicyByIdentityAndEnv opts));
    MuxQueries ["env"; "{query}"];
    MuxPrefix "/debug/" mux ].
Proof. reflexivity. Qed.

(** A service is not stopped when its context is done. *)
Lemma never_stopped : waitForStop Done = 0.
Proof. reflexivity. Qed.
End Server.
Arguments mkFilter {_} _.
Arguments mkRoute {_} _ _ _ _ _.
Arguments api_handlers _ : clear implicits.
Arguments Route _ : clear implicits.
Arguments Filter _ : clear implicits.
Arguments mux_route _ : clear implicits.

(** ** The access log *)

(** A handler with the record of its calls; what is logged is the request's text. *)
Section Filters.
Context {St : Type} (request_log : string -> string).
Definition Logger (inner : St -> St * list string) (name : string) : St -> St * list string :=
  fun s => let '(s, log) := inner s in (s, log ++ [request_log name]).

(** The log does not change what a handler does. *)
Lemma Logger_transparent (inner : St -> St * list string) (name : string) (s : St) :
  (Logger inner name s).1 = (inner s).1 /\ (Logger inner name s).2 = (inner s).2 ++ [request_log name].
Proof. unfold Logger. by destruct (inner s). Qed.
End Filters.

(** The filters of the servers. *)
Definition server_filters {St : Type} (request_log : string -> string) : list (Filter (St -> St * list string)) :=
  [mkFilter (Logger request_log)].
