(* ===== verification/ShardHandler.v ===== *)
(** * Shards of an operator

    [clusters/shard_handler.go]: a shard names identities for client clusters.  Its event
    starts a producer, which asks the registry for each identity and fills the caches from
    the answer, five consumers, which build and write the identity's service entries
    ([IdentityConfigs.v], [ClusterWriter.v]), and a collector of the results, which writes
    the shard's status; they are connected by two buffered channels.  The goroutines are a
    step relation in which an identity is produced, and consumed, in one step. *)
From S2P Require Import Prelude GoStrings Config Objects Metadata ServiceCache Policies AddressStore.
From S2P Require Import DestinationRules Writers ServiceEntries SeDrSet Caches Dependents World VirtualServices.
From S2P Require Import VsRouting Worker ClusterWriter DeploymentController RolloutController.
From S2P Require Import RoutingRules SeState RegistryConfig GatherServiceEntries IdentityConfigs.
From stdpp Require Import options.

(** ** Shards, without the times in their status *)

Record FailedIdentity := mkFailedIdentity { fiName : string; fiMessage : string }.
Record FailedCluster := mkFailedCluster { fcName : string; FailedIdentities : list FailedIdentity }.
Inductive condition_reason := Processing | Processed | ErrorOccurred.
Inductive condition_type := NoType | SyncComplete | SyncFailed.
Record ShardStatusCondition := mkCondition {
  scMessage : string; scReason : condition_reason; scStatus : bool; scType : condition_type
}.
Record ShardStatus := mkShardStatus {
  Conditions : list ShardStatusCondition;
  ClustersMonitored : Z;
  FailedClusters : list FailedCluster
}.
#[export] Instance eta_ShardStatus : Settable ShardStatus := fun s =>
  mkShardStatus (Conditions s) (ClustersMonitored s) (FailedClusters s).
Record ClusterShard := mkClusterShard { csName : string; csIdentities : list string }.
Record Shard := mkShard { ShMeta : ObjectMeta; ShClusters : list ClusterShard; ShStatus : ShardStatus }.
#[export] Instance eta_Shard : Settable Shard := fun s => mkShard (ShMeta s) (ShClusters s) (ShStatus s).

(** The clusters with their identities, in the order of the producer's loops. *)
Definition shard_items (shard : Shard) : list (string * string) :=
  flat_map (fun c => map (pair (csName c)) (csIdentities c)) (ShClusters shard).

(** ** The status *)

Section Status.
Context {St : Type} {cc : KubeClient St Shard}.

(** [retryUpdatingShard]'s change of the fetched shard. *)
Definition patch_shard (obj updated : Shard) : Shard :=
  mkShard (ShMeta updated <| Annotations := Annotations (ShMeta obj) |> <| Labels := Labels (ShMeta obj) |>)
    (ShClusters obj) (ShStatus obj).

Definition retryUpdatingShard (obj exist : Shard) (err : option api_error) (s : St) : St * option api_error :=
  retry_update (Namespace (ShMeta exist)) (Namespace (ShMeta exist)) (Name (ShMeta exist)) (patch_shard obj) err s.

(** A client returns an object also with an error. *)
Definition updateShardStatus (obj : Shard) (s : St) : St * option api_error :=
  let '(s, r) := api_get (Namespace (ShMeta obj)) (Name (ShMeta obj)) s in
  let exist := match r with inl found => found | inr _ => obj end in
  let exist := mkShard (ShMeta exist <| Labels := Labels (ShMeta obj) |> <| Annotations := Annotations (ShMeta obj) |>)
                 (ShClusters obj) (ShStatus exist) in
  let '(s, err) := api_update (Namespace (ShMeta exist)) exist s in
  match err with Some _ => retryUpdatingShard obj exist err s | None => (s, None) end.
End Status.

Definition starting_condition : ShardStatusCondition := mkCondition "Starting to handle shard" Processing false NoType.

(** [tmpShard]. *)
Definition shard_started (shard : Shard) : Shard :=
  shard <| ShStatus := ShStatus shard <| Conditions := starting_condition :: Conditions (ShStatus shard) |> |>.

(** What goes through the channels; a failed identity has only its name. *)
Record ConfigWriterData := mkData { cdConfig : IdentityConfig; cdCluster : string; cdError : error }.

Section Results.
Context {range : GoRange}.

(** The loop's variables: the failed identities, and the condition. *)
Definition process_result (acc : gmap string (list FailedIdentity) * ShardStatusCondition) (data : ConfigWriterData)
    : gmap string (list FailedIdentity) * ShardStatusCondition :=
  match cdError data with
  | None => acc
  | Some err =>
      let failed := mkFailedIdentity (IdentityName (cdConfig data)) err in
      (<[cdCluster data := failed :: default [] (acc.1 !! cdCluster data)]> acc.1,
       mkCondition (scMessage acc.2) ErrorOccurred (scStatus acc.2) SyncFailed)
  end.

Definition complete_condition : ShardStatusCondition := mkCondition "Shard handling complete" Processed true SyncComplete.

(** [ProcessResults] up to the update; its shard has a condition. *)
Definition shard_results (shard : Shard) (results : list ConfigWriterData) : Shard :=
  let '(failures, condition) := foldl process_result (∅, complete_condition) results in
  shard <| ShStatus := mkShardStatus
    (match Conditions (ShStatus shard) with [] => [] | _ :: rest => condition :: rest end)
    (Z.of_nat (length (ShClusters shard)))
    (map (fun kv => mkFailedCluster kv.1 kv.2) (go_range 0 failures)) |>.
End Results.

(** ** The state *)

(** [ClusterLocalityCache], and the maps of names of the producers, whose variable the loops
    of [ProduceIdentityConfigsFromShard] do not reset. *)
Record shard_state (X : Type) := mkShardState {
  so_rest : proc_world X;
  so_locality : gmap string (gmap string string);
  so_names : list (gmap string string)
}.
Arguments mkShardState {X} _ _ _.
Arguments so_rest {X} _.
Arguments so_locality {X} _.
Arguments so_names {X} _.
#[export] Instance eta_shard_state X : Settable (shard_state X) := fun s =>
  mkShardState (so_rest s) (so_locality s) (so_names s).

Section State.
Context {X : Type}.

Definition on_rest {A} (c : W (proc_world X) A) : W (shard_state X) A := fun w =>
  let s := w_api w in
  match c (mkWorld (so_rest s) (w_heap w) (w_caches w) (w_addresses w) (w_se_cache w)) with
  | Some (a, w') => Some (a, mkWorld (s <| so_rest := w_api w' |>) (w_heap w') (w_caches w') (w_addresses w') (w_se_cache w'))
  | None => None
  end.
Definition get_shard_state : W (shard_state X) (shard_state X) := on_api (fun s => (s, s)).
Definition update_shard (f : shard_state X -> shard_state X) : W (shard_state X) unit := on_api (fun s => (f s, tt)).

(** [cnames := make(map[string]string)]. *)
Definition new_cnames : W (shard_state X) nat :=
  on_api (fun s => (s <| so_names := so_names s ++ [∅] |>, length (so_names s))).
End State.

(** ** The producer *)

Section Produce.
Context {range : GoRange} {X : Type} (p : AdmiralParams) (registry_config : string -> IdentityConfig * error).

(** The policies of an environment; only the last error is kept. *)
Definition put_policies (env : IdentityConfigEnvironment) : W (shard_state X) error := on_rest (
  s <- get_proc;;
  let '(gtps, _) := globalTrafficCache_Put p (iePolicy env) (pc_gtps s) in
  let '(ods, _) := outlierDetectionCache_Put p (ieOutlier env) (pc_ods s) in
  let '(cccs, err) := clientConnectionSettingsCache_Put p (ieConnection env) (pc_cccs s) in
  update_proc (fun s => s <| pc_gtps := gtps |> <| pc_ods := ods |> <| pc_cccs := cccs |>) ;;;
  wret err)%world.

(** [cnames[cname] = "1"]. *)
Definition put_name (cnames : nat) (cname : string) : W (shard_state X) (gmap string string) :=
  on_api (fun s =>
    let names := <[cname := "1"]> (default ∅ (so_names s !! cnames)) in
    (s <| so_names := <[cnames := names]> (so_names s) |>, names)).

(** The entry of the client gets a copy of the names so far. *)
Definition put_egress (cnames : nat) (identity : string) (env : IdentityConfigEnvironment) (clientAsset : string)
    : W (shard_state X) unit := (
  let cname := GetCnameVal [ieName env; to_lower identity; GetHostnameSuffix p] in
  names <- put_name cnames cname;;
  let localFqdn := ieServiceName env +:+ Sep +:+ ieNamespace env +:+ GetLocalDomainSuffix p in
  on_rest (update_proc (fun s =>
    s <| pc_egress := SidecarEgressMap_Put (pc_egress s) clientAsset (ieNamespace env) localFqdn names |>)))%world.

Local Open Scope world_scope.

Fixpoint fill_environments (cnames : nat) (config : IdentityConfig) (envs : list IdentityConfigEnvironment) (err : error)
    : W (shard_state X) error :=
  match envs with
  | [] => wret err
  | env :: rest =>
      err <- put_policies env;;
      witer (put_egress cnames (IdentityName config) env) (go_range 2 (ClientAssets config)).*2 ;;;
      fill_environments cnames config rest err
  end.

Definition put_locality (cluster : IdentityConfigCluster) : W (shard_state X) unit :=
  update_shard (fun s => s <| so_locality := <[icName cluster := <[icName cluster := icLocality cluster]>
                                              (default ∅ (so_locality s !! icName cluster))]> (so_locality s) |>).

Fixpoint fill_clusters (cnames : nat) (config : IdentityConfig) (clusters : list IdentityConfigCluster) (err : error)
    : W (shard_state X) error :=
  match clusters with
  | [] => wret err
  | cluster :: rest =>
      err <- fill_environments cnames config (go_range 1 (icEnvironment cluster)).*2 err;;
      put_locality cluster ;;;
      fill_clusters cnames config rest err
  end.

(** The body of the loops of [ProduceIdentityConfigsFromShard], up to the channel. *)
Definition produce_identity (cnames : nat) (item : string * string) : W (shard_state X) ConfigWriterData :=
  let '(cluster, identity) := item in
  match registry_config identity with
  | (_, Some err) => wret (mkData (mkIdentityConfig identity ∅ ∅) cluster (Some err))
  | (config, None) =>
      c <- get_caches;;
      witer (fun clientAsset => on_heap (MapOfMaps_Put (IdentityDependencyCache c) (IdentityName config) clientAsset clientAsset))
        (go_range 0 (ClientAssets config)).*2 ;;;
      err <- fill_clusters cnames config (go_range 0 (icClusters config)).*2 None;;
      wret (mkData config cluster err)
  end.
End Produce.

(** ** A consumer *)

Section Consume.
Context {range : GoRange} {sorting : GoSort} {yaml : Yaml} {X : Type} {addressClient : ConfigMapClient X}.
Context (p : AdmiralParams) (readOnly : bool) (rr : RemoteRegistry) (registry_config : string -> IdentityConfig * error).
(** The clients of the clusters. *)
Context (seClients : string -> KubeClient X ServiceEntryObj) (drClients : string -> KubeClient X DestinationRuleObj)
  (vsClients : string -> KubeClient X VirtualServiceObj) (sidecarClients : string -> KubeClient X SidecarObj).
(** What the worker of [ClusterWriter.v] uses besides. *)
Context (message : api_error -> string) (is_invalid : string -> bool)
  (se_on_error : option ServiceEntryObj) (vs_on_error : option VirtualServiceObj)
  (sinceStart : SeDrTuple -> Z) (registry_clusters : string -> option (list string))
  (api_list : string -> string -> gmap string string -> X -> X * (list VirtualServiceObj + api_error))
  (list_on_error : option (list VirtualServiceObj))
  (dr_caches : gmap string (gmap (string * string) DestinationRuleObj)) (ip_prefix : string).

Local Open Scope world_scope.

(** A worker with one cluster.  It is given no event type. *)
Definition AddServiceEntriesWithDrWorker (eventResourceType : option string) (sourceCluster : bool)
    (assetName env : string) (se : ServiceEntry) (cluster : string) : W (shard_state X) cluster_run :=
  s <- get_shard_state;;
  on_rest (
    identityId <- getNonPartitionedIdentity p assetName;;
    proc <- get_proc;;
    process_cluster (addressClient := proc_configmap addressClient)
      (seClient := routing_client (proc_client (seClients cluster)))
      (drClient := routing_client (proc_client (drClients cluster)))
      (vsClient := routing_client (proc_client (vsClients cluster)))
      p message se_on_error vs_on_error sinceStart registry_clusters
      (fun cluster ns labels => on_rs_api (on_pc_api (api_list cluster ns labels))) list_on_error
      (remoteControllers rr) dr_caches (RoutingCaches rr) (Some (so_locality s)) ip_prefix
      (pc_gtps proc) (pc_ods proc) (pc_cccs proc) true sourceCluster assetName identityId env eventResourceType None
      se cluster).

(** The namespaces of the client cluster's environments, by name: of the first cluster of
    the configuration with its name. *)
Definition client_environments (clientCluster : string) (config : IdentityConfig) : option (gmap string string) :=
  match List.find (fun cluster => icName cluster =?s clientCluster) (go_range 1 (icClusters config)).*2 with
  | None => None
  | Some cluster => Some (foldl (fun m env => <[ieName env := ieNamespace env]> m) ∅ (go_range 2 (icEnvironment cluster)).*2)
  end.

(** Any type of the first environment of the first cluster, else the one of before. *)
Definition resource_type (config : IdentityConfig) (previous : option string) : option string :=
  match (go_range 3 (icClusters config)).*2 with
  | [] => previous
  | cluster :: _ =>
      match (go_range 4 (icEnvironment cluster)).*2 with
      | [] => previous
      | env :: _ => match (go_range 5 (ieTypeConfigs env)).*1 with [] => previous | typeKey :: _ => Some typeKey end
      end
  end.

(** The first error that the worker sends; the channel has room for a second one. *)
Definition received_error (cluster : string) (run : cluster_run) : error := default None (head (worker_messages cluster run)).

(** [data.Error = err], if there is one. *)
Definition record_error (data : ConfigWriterData) (err : error) : ConfigWriterData :=
  match err with Some _ => mkData (cdConfig data) (cdCluster data) err | None => data end.

(** The loop over the service entries. *)
Fixpoint write_entries (eventResourceType : option string) (sourceNamespaces : option (gmap string string))
    (data : ConfigWriterData) (ses : list ServiceEntry) : W (shard_state X) ConfigWriterData :=
  match ses with
  | [] => wret data
  | se :: rest =>
      match seHosts se with
      | [] => wpanic
      | host :: _ =>
          let assetName := IdentityName (cdConfig data) in
          let env := default "" (head (split "."%char host)) in
          let namespace := m ← sourceNamespaces; m !! env in
          run <- AddServiceEntriesWithDrWorker eventResourceType (negb (is_nil namespace)) assetName env se (cdCluster data);;
          let data := record_error data (received_error (cdCluster data) run) in
          match namespace with
          | None => write_entries eventResourceType sourceNamespaces data rest
          | Some ns =>
              err <- on_rest (
                s <- get_proc;;
                modifySidecarForLocalClusterCommunication p readOnly sidecarClients is_invalid ns assetName
                  (pc_egress s) (remoteControllers rr !! cdCluster data));;
              write_entries eventResourceType sourceNamespaces (record_error data err) rest
          end
      end
  end.

(** The body of [ConsumeIdentityConfigs]' loop, up to the channel; [previous] is the
    resource type in the consumer's context, which the loop does not reset. *)
Definition consume_identity (previous : option string) (data : ConfigWriterData)
    : W (shard_state X) (option string * ConfigWriterData) :=
  match cdError data with
  | Some _ => wret (previous, data)
  | None =>
      match BuildServiceEntriesFromIdentityConfig p registry_config (cdCluster data) (cdConfig data) with
      | None => wpanic
      | Some (_, Some err) => wret (previous, mkData (cdConfig data) (cdCluster data) (Some err))
      | Some (serviceEntries, None) =>
          let eventResourceType := resource_type (cdConfig data) previous in
          data <- write_entries eventResourceType (client_environments (cdCluster data) (cdConfig data)) data serviceEntries;;
          wret (eventResourceType, data)
      end
  end.
End Consume.

(** ** The goroutines *)

(** A consumer has the context of its loop. *)
Inductive consumer {Cx D : Type} := Waiting (c : Cx) | Consuming (c : Cx) (d : D) | Reporting (c : Cx) (d : D) | Exited.
Arguments consumer : clear implicits.

Record shard_run (I D Cx Wd : Type) := mkRun {
  to_produce : list I;
  produced : option D;          (** what the producer is sending *)
  jobs : list D;                (** the buffer of [configWriterData] *)
  jobs_closed : bool;
  consumers : list (consumer Cx D);
  results : list D;             (** the buffer of [configWriterDataResults] *)
  results_closed : bool;
  collected : list D;
  handled : bool;               (** the status is written, and the handler returns *)
  run_world : Wd
}.
Arguments mkRun {I D Cx Wd} _ _ _ _ _ _ _ _ _ _.
Arguments to_produce {I D Cx Wd} _.
Arguments produced {I D Cx Wd} _.
Arguments jobs {I D Cx Wd} _.
Arguments jobs_closed {I D Cx Wd} _.
Arguments consumers {I D Cx Wd} _.
Arguments results {I D Cx Wd} _.
Arguments results_closed {I D Cx Wd} _.
Arguments collected {I D Cx Wd} _.
Arguments handled {I D Cx Wd} _.
Arguments run_world {I D Cx Wd} _.

Definition channel_capacity : nat := 1000.
Definition consumer_count : nat := 5.

Section Goroutines.
Context {I D Cx Wd : Type} (produce : I -> Wd -> option (D * Wd)) (consume : Cx -> D -> Wd -> option ((Cx * D) * Wd)).
Context (write_status : list D -> Wd -> Wd).

Inductive shard_step : shard_run I D Cx Wd -> shard_run I D Cx Wd -> Prop :=
| step_produce i d ts js cl cs rs rcl l w w' :
    produce i w = Some (d, w') ->
    shard_step (mkRun (i :: ts) None js cl cs rs rcl l false w) (mkRun ts (Some d) js cl cs rs rcl l false w')
| step_send d ts js cl cs rs rcl l w :
    (length js < channel_capacity)%nat ->
    shard_step (mkRun ts (Some d) js cl cs rs rcl l false w) (mkRun ts None (js ++ [d]) cl cs rs rcl l false w)
| step_close js cs rs rcl l w :
    shard_step (mkRun [] None js false cs rs rcl l false w) (mkRun [] None js true cs rs rcl l false w)
| step_take c d ts pd js cl cs1 cs2 rs rcl l w :
    shard_step (mkRun ts pd (d :: js) cl (cs1 ++ Waiting c :: cs2) rs rcl l false w)
               (mkRun ts pd js cl (cs1 ++ Consuming c d :: cs2) rs rcl l false w)
| step_consume c c' d d' ts pd js cl cs1 cs2 rs rcl l w w' :
    consume c d w = Some ((c', d'), w') ->
    shard_step (mkRun ts pd js cl (cs1 ++ Consuming c d :: cs2) rs rcl l false w)
               (mkRun ts pd js cl (cs1 ++ Reporting c' d' :: cs2) rs rcl l false w')
| step_report c d ts pd js cl cs1 cs2 rs rcl l w :
    (length rs < channel_capacity)%nat ->
    shard_step (mkRun ts pd js cl (cs1 ++ Reporting c d :: cs2) rs rcl l false w)
               (mkRun ts pd js cl (cs1 ++ Waiting c :: cs2) (rs ++ [d]) rcl l false w)
| step_exit c ts pd cs1 cs2 rs rcl l w :
    shard_step (mkRun ts pd [] true (cs1 ++ Waiting c :: cs2) rs rcl l false w)
               (mkRun ts pd [] true (cs1 ++ Exited :: cs2) rs rcl l false w)
| step_close_results ts pd js cs rs l w :
    Forall (eq Exited) cs ->
    shard_step (mkRun ts pd js true cs rs false l false w) (mkRun ts pd js true cs rs true l false w)
| step_collect d ts pd js cl cs rs rcl l w :
    shard_step (mkRun ts pd js cl cs (d :: rs) rcl l false w) (mkRun ts pd js cl cs rs rcl (l ++ [d]) false w)
| step_finish ts pd js cl cs l w :
    shard_step (mkRun ts pd js cl cs [] true l false w) (mkRun ts pd js cl cs [] true l true (write_status l w)).

Definition shard_start (c : Cx) (items : list I) (w : Wd) : shard_run I D Cx Wd :=
  mkRun items None [] false (replicate consumer_count (Waiting c)) [] false [] false w.

(** The producer, or a consumer, has panicked. *)
Definition run_panics (s : shard_run I D Cx Wd) : Prop :=
  (exists i ts, to_produce s = i :: ts /\ produced s = None /\ produce i (run_world s) = None) \/
  (exists c d, Consuming c d ∈ consumers s /\ consume c d (run_world s) = None).

(** An item, and what became of it. *)
Definition handled_as (i : I) (d : D) : Prop :=
  exists c c' d0 w0 w0' w w', produce i w0 = Some (d0, w0') /\ consume c d0 w = Some ((c', d), w').

(** *** Where an item is *)

Inductive token := Fetching (i : I) | InHand (d : D) | Queued (d : D) | Held (d : D) | Consumed (d : D) | Reported (d : D) | Collected (d : D).

Definition weight (t : token) : nat :=
  match t with Fetching _ => 6 | InHand _ => 5 | Queued _ => 4 | Held _ => 3 | Consumed _ => 2 | Reported _ => 1 | Collected _ => 0 end.

Definition held (c : consumer Cx D) : list token :=
  match c with Consuming _ d => [Held d] | Reporting _ d => [Consumed d] | _ => [] end.

Definition in_hand (o : option D) : list token := match o with Some d => [InHand d] | None => [] end.

Definition tokens (s : shard_run I D Cx Wd) : list token :=
  map Fetching (to_produce s) ++ in_hand (produced s) ++ map Queued (jobs s) ++
  flat_map held (consumers s) ++ map Reported (results s) ++ map Collected (collected s).

Inductive moves : token -> token -> Prop :=
| move_fetch i d w w' : produce i w = Some (d, w') -> moves (Fetching i) (InHand d)
| move_queue d : moves (InHand d) (Queued d)
| move_take d : moves (Queued d) (Held d)
| move_consume c c' d d' w w' : consume c d w = Some ((c', d'), w') -> moves (Held d) (Consumed d')
| move_report d : moves (Consumed d) (Reported d)
| move_collect d : moves (Reported d) (Collected d).

Definition active (c : consumer Cx D) : nat := match c with Exited => 0 | _ => 1 end.
Definition open_flags (s : shard_run I D Cx Wd) : nat :=
  (if jobs_closed s then 0 else 1) + (if results_closed s then 0 else 1) + (if handled s then 0 else 1) +
  sum_list_with active (consumers s).

(** The tokens of a run apart from those of one consumer. *)
Definition consumer_rest (ts : list I) (pd : option D) (js : list D) (cs1 cs2 : list (consumer Cx D)) (rs l : list D) : list token :=
  map Fetching ts ++ in_hand pd ++ map Queued js ++ flat_map held cs1 ++ flat_map held cs2 ++ map Reported rs ++ map Collected l.

Lemma step_moves s s' :
  shard_step s s' ->
  (open_flags s' = open_flags s /\ exists a b rest, moves a b /\ tokens s ≡ₚ a :: rest /\ tokens s' ≡ₚ b :: rest) \/
  ((open_flags s' < open_flags s)%nat /\ tokens s' ≡ₚ tokens s).
Proof using Type.
  assert (forall cs1 c c' cs2, active c = active c' ->
    sum_list_with active (cs1 ++ c' :: cs2) = sum_list_with active (cs1 ++ c :: cs2)) as Ha.
  { intros cs1 c c' cs2 E. rewrite !sum_list_with_app. simpl. lia. }
  intros Hs. destruct Hs; unfold tokens, open_flags; simpl; rewrite ?flat_map_app, ?map_app; simpl.
  - left. split; [done|]. eexists _, _, _. split_and!; [by eapply move_fetch|reflexivity|]. solve_Permutation.
  - left. split; [done|]. eexists _, _, (map Fetching ts ++ map Queued js ++ flat_map held cs ++ map Reported rs ++ map Collected l).
    split_and!; [apply (move_queue d)| |]; solve_Permutation.
  - right. split; [lia|done].
  - left. split; [by rewrite (Ha cs1 (Waiting c))|]. eexists _, _, (consumer_rest ts pd js cs1 cs2 rs l).
    split_and!; [apply (move_take d)| |]; unfold consumer_rest; solve_Permutation.
  - left. split; [by rewrite (Ha cs1 (Consuming c d))|]. eexists _, _, (consumer_rest ts pd js cs1 cs2 rs l).
    split_and!; [by eapply move_consume| |]; unfold consumer_rest; solve_Permutation.
  - left. split; [by rewrite (Ha cs1 (Reporting c d))|]. eexists _, _, (consumer_rest ts pd js cs1 cs2 rs l).
    split_and!; [apply (move_report d)| |]; unfold consumer_rest; solve_Permutation.
  - right. split; [rewrite !sum_list_with_app; simpl; lia|done].
  - right. split; [lia|done].
  - left. split; [done|].
    eexists _, _, (map Fetching ts ++ in_hand pd ++ map Queued js ++ flat_map held cs ++ map Reported rs ++ map Collected l).
    split_and!; [apply (move_collect d)| |]; solve_Permutation.
  - right. split; [lia|done].
Qed.

(** Rearranging the right list of two related ones. *)
Lemma related_perm {A B} (R : A -> B -> Prop) (l : list A) (k k' : list B) :
  Forall2 R l k -> k ≡ₚ k' -> exists l', l ≡ₚ l' /\ Forall2 R l' k'.
Proof using Type.
  intros H Hp. apply Forall2_flip in H. destruct (Permutation_Forall2 Hp H) as (l' & Hl & H').
  exists l'. split; [done|]. by apply Forall2_flip.
Qed.

Definition from (i : I) (t : token) : Prop :=
  match t with
  | Fetching j => i = j
  | InHand d | Queued d | Held d => exists w w', produce i w = Some (d, w')
  | Consumed d | Reported d | Collected d => handled_as i d
  end.

Lemma from_moves i a b : moves a b -> from i a -> from i b.
Proof using Type.
  intros H. destruct H; simpl; try done.
  - intros <-. eauto.
  - intros (w0 & w0' & ?). repeat eexists; eauto.
Qed.

(** *** The invariant *)

Record run_ok (items : list I) (s : shard_run I D Cx Wd) : Prop := {
  ok_tokens : exists items', items' ≡ₚ items /\ Forall2 from items' (tokens s);
  ok_consumers : length (consumers s) = consumer_count;
  ok_closed : jobs_closed s = true -> to_produce s = [] /\ produced s = None;
  ok_exited : Exited ∈ consumers s -> jobs_closed s = true /\ jobs s = [];
  ok_results : results_closed s = true -> jobs_closed s = true /\ Forall (eq Exited) (consumers s);
  ok_handled : handled s = true -> results_closed s = true /\ results s = []
}.

Lemma run_ok_start c items w : run_ok items (shard_start c items w).
Proof using Type.
  split; try done; [|by intros [? _]%elem_of_replicate]. exists items. split; [done|].
  unfold tokens. simpl. rewrite app_nil_r. induction items; by constructor.
Qed.

Lemma tokens_step items (s s' : shard_run I D Cx Wd) :
  shard_step s s' -> (exists items', items' ≡ₚ items /\ Forall2 from items' (tokens s)) ->
  exists items', items' ≡ₚ items /\ Forall2 from items' (tokens s').
Proof using Type.
  intros Hs (items' & Hp & Hf). destruct (step_moves s s' Hs) as [[_ (a & b & rest & Hm & H1 & H2)]|[_ H]].
  - symmetry in H2. destruct (related_perm from items' _ _ Hf H1) as (i1 & Hp1 & Hf1).
    inversion Hf1 as [|i ? is1 ? Hi Hr]; subst.
    destruct (related_perm from (i :: is1) (b :: rest) (tokens s')) as (i2 & Hp2 & Hf2); [|done|].
    + constructor; [by eapply from_moves|done].
    + exists i2. split; [|done]. by rewrite <- Hp2, <- Hp1.
  - symmetry in H. destruct (related_perm from items' _ _ Hf H) as (i1 & Hp1 & Hf1).
    exists i1. split; [|done]. by rewrite <- Hp1.
Qed.

Lemma consumer_exited_mid (c c' : consumer Cx D) cs1 cs2 :
  c' <> Exited -> Exited ∈ cs1 ++ c' :: cs2 -> Exited ∈ cs1 ++ c :: cs2.
Proof using Type. intros Hc. rewrite !elem_of_app, !elem_of_cons. intros [?|[?|?] ]; [by left|congruence|auto]. Qed.

Lemma all_exited_mid (c : consumer Cx D) cs1 cs2 : Forall (eq Exited) (cs1 ++ c :: cs2) -> c = Exited.
Proof using Type. intros H. apply Forall_app in H as [_ H]. by inversion H. Qed.

Lemma run_ok_step items s s' : shard_step s s' -> run_ok items s -> run_ok items s'.
Proof using Type.
  intros Hs [Ht Hc Hcl He Hr Hh]. pose proof (tokens_step items s s' Hs Ht) as Ht'.
  split; [done|..]; clear Ht Ht'; destruct Hs; simpl in *; rewrite ?length_app in *; simpl in *; try done; try tauto.
  all: try (intros Hx; by destruct (Hcl Hx)).
  all: try (intros Hx; eapply consumer_exited_mid in Hx; [by destruct (He Hx)|done]).
  all: try (intros Hx; destruct (Hr Hx) as [_ Hy]; by apply all_exited_mid in Hy).
  all: try (intros Hx; by destruct (He Hx)).
  intros Hx. destruct (He Hx) as [Hy _]. by destruct (Hcl Hy).
Qed.

Lemma run_ok_reach c items w s : rtc shard_step (shard_start c items w) s -> run_ok items s.
Proof using Type.
  intros H. remember (shard_start c items w) as s0 eqn:E. assert (run_ok items s0) as Hi by (subst; apply run_ok_start).
  clear E. induction H; [done|]. by eauto using run_ok_step.
Qed.

(** *** Progress and the bound *)

Definition run_measure (s : shard_run I D Cx Wd) : nat := sum_list_with weight (tokens s) + open_flags s.

Lemma measure_decreases s s' : shard_step s s' -> (run_measure s' < run_measure s)%nat.
Proof using Type.
  intros Hs. unfold run_measure. destruct (step_moves s s' Hs) as [[-> (a & b & rest & Hm & H1 & H2)]|[Hlt H]].
  - rewrite H1, H2. destruct Hm; simpl; lia.
  - rewrite H. lia.
Qed.

Lemma shard_run_length c items w n s :
  nsteps shard_step n (shard_start c items w) s -> (n <= 6 * length items + 8)%nat.
Proof using Type.
  assert (forall s0, nsteps shard_step n s0 s -> (n + run_measure s <= run_measure s0)%nat) as Hn.
  { intros s0 H. induction H as [|n s0 s1 s2 Hs _ IH]; [lia|]. apply measure_decreases in Hs. lia. }
  intros H%Hn. assert (run_measure (shard_start c items w) = 6 * length items + 8)%nat as E; [|lia].
  unfold run_measure, tokens, open_flags. simpl. rewrite app_nil_r. f_equal.
  clear. induction items as [|i items IH]; simpl; lia.
Qed.

(** A consumer that is not waiting and has not left. *)
Lemma consumers_cases (cs : list (consumer Cx D)) :
  (exists cs1 c d cs2, cs = cs1 ++ Consuming c d :: cs2) \/ (exists cs1 c d cs2, cs = cs1 ++ Reporting c d :: cs2) \/
  (exists cs1 c cs2, cs = cs1 ++ Waiting c :: cs2) \/ Forall (eq Exited) cs.
Proof using Type.
  induction cs as [|x cs IH]; [by repeat right|]. destruct x as [c|c d|c d|].
  - right. right. left. by exists [], c, cs.
  - left. by exists [], c, d, cs.
  - right. left. by exists [], c, d, cs.
  - destruct IH as [(cs1 & c & d & cs2 & ->)|[(cs1 & c & d & cs2 & ->)|[(cs1 & c & cs2 & ->)|IH] ] ].
    + left. by exists (Exited :: cs1), c, d, cs2.
    + right. left. by exists (Exited :: cs1), c, d, cs2.
    + right. right. left. by exists (Exited :: cs1), c, cs2.
    + right. right. right. by constructor.
Qed.

Lemma run_progress items s : run_ok items s -> handled s = true \/ (exists s', shard_step s s') \/ run_panics s.
Proof using Type.
  intros [_ Hc Hcl He Hr Hh]. destruct s as [ts pd js cl cs rs rcl l h w]. simpl in *.
  destruct h; [by left|right]. unfold run_panics. simpl.
  destruct rs as [|d rs]; [|left; eexists; apply step_collect].
  destruct (consumers_cases cs) as [(cs1 & c & d & cs2 & ->)|[(cs1 & c & d & cs2 & ->)|Hcs] ].
  { destruct (consume c d w) as [[[c' d'] w']|] eqn:E; [left; eexists; by eapply step_consume|].
    right. right. exists c, d. split; [|done]. rewrite elem_of_app, elem_of_cons. tauto. }
  { left. eexists. apply step_report. unfold channel_capacity. simpl. lia. }
  destruct js as [|d js].
  - destruct pd as [d|]; [left; eexists; apply step_send; unfold channel_capacity; simpl; lia|].
    destruct ts as [|i ts].
    + destruct cl; [|left; eexists; apply step_close].
      destruct Hcs as [(cs1 & c & cs2 & ->)|Hcs]; [left; eexists; apply step_exit|].
      left. destruct rcl; eexists; [apply step_finish|by apply step_close_results].
    + destruct (produce i w) as [[d w']|] eqn:E; [left; eexists; by eapply step_produce|].
      right. left. by exists i, ts.
  - destruct Hcs as [(cs1 & c & cs2 & ->)|Hcs]; [left; eexists; apply step_take|].
    destruct cs as [|x cs]; [done|]. inversion Hcs; subst. destruct (He (list_elem_of_here _ _)) as [_ [=] ].
Qed.

Lemma run_finished items s :
  run_ok items s -> handled s = true -> exists items', items' ≡ₚ items /\ Forall2 handled_as items' (collected s).
Proof using Type.
  intros [(items' & Hp & Hf) Hn Hcl He Hr Hh] Hd. destruct (Hh Hd) as [Hrc Hrs]. destruct (Hr Hrc) as [Hc Hx].
  destruct (Hcl Hc) as [H1 H2]. assert (jobs s = []) as H3.
  { destruct (consumers s) as [|x cs] eqn:E; [done|inversion Hx; subst; by destruct (He (list_elem_of_here _ _))]. }
  exists items'. split; [done|]. unfold tokens in Hf. rewrite H1, H2, H3, Hrs in Hf. simpl in Hf.
  assert (flat_map held (consumers s) = []) as E.
  { clear -Hx. induction Hx as [|x cs <- _ IH]; [done|]. apply IH. }
  rewrite E in Hf. simpl in Hf. clear -Hf. remember (map Collected (collected s)) as ts eqn:E.
  generalize dependent (collected s). induction Hf as [|i t items' ts H Hf IH]; intros [|d l] E; try done.
  injection E as -> E. constructor; [done|by apply IH].
Qed.
End Goroutines.

(** ** The handler *)

Section Handler.
Context {range : GoRange} {sorting : GoSort} {yaml : Yaml} {X : Type} {addressClient : ConfigMapClient X}.
Context {cc : KubeClient (shard_state X) Shard}.
Context (p : AdmiralParams) (readOnly : bool) (rr : RemoteRegistry) (registry_config : string -> IdentityConfig * error).
Context (seClients : string -> KubeClient X ServiceEntryObj) (drClients : string -> KubeClient X DestinationRuleObj)
  (vsClients : string -> KubeClient X VirtualServiceObj) (sidecarClients : string -> KubeClient X SidecarObj).
Context (message : api_error -> string) (is_invalid : string -> bool)
  (se_on_error : option ServiceEntryObj) (vs_on_error : option VirtualServiceObj)
  (sinceStart : SeDrTuple -> Z) (registry_clusters : string -> option (list string))
  (api_list : string -> string -> gmap string string -> X -> X * (list VirtualServiceObj + api_error))
  (list_on_error : option (list VirtualServiceObj))
  (dr_caches : gmap string (gmap (string * string) DestinationRuleObj)) (ip_prefix : string).

Definition consume_data : option string -> ConfigWriterData -> W (shard_state X) (option string * ConfigWriterData) :=
  consume_identity (addressClient := addressClient) p readOnly rr registry_config seClients drClients vsClients sidecarClients message
    is_invalid se_on_error vs_on_error sinceStart registry_clusters api_list list_on_error dr_caches ip_prefix.

(** [ProcessResults]: [tmpShard] is [shard_started]. *)
Definition ProcessResults (shard : Shard) (results : list ConfigWriterData) (w : world (shard_state X)) : world (shard_state X) :=
  w <| w_api := (updateShardStatus (shard_results (shard_started shard) results) (w_api w)).1 |>.

(** The world when the goroutines are started, and the producer's map of names. *)
Definition shard_prepared (shard : Shard) (w : world (shard_state X)) : world (shard_state X) * nat :=
  let s := (updateShardStatus (shard_started shard) (w_api w)).1 in
  (w <| w_api := s <| so_names := so_names s ++ [∅] |> |>, length (so_names s)).

(** A step of [HandleEventForShard] with its goroutines, and how they start; a consumer
    has no resource type then. *)
Definition shard_event_step (shard : Shard) (w : world (shard_state X)) :=
  shard_step (produce_identity p registry_config (shard_prepared shard w).2) consume_data (ProcessResults shard).
Definition shard_event_start (shard : Shard) (w : world (shard_state X)) :=
  shard_start (D := ConfigWriterData) (None : option string) (shard_items shard) (shard_prepared shard w).1.

(** *** What is reported of an item *)

Definition reported_as (item : string * string) (d : ConfigWriterData) : Prop :=
  cdCluster d = item.1 /\
  cdConfig d = (match registry_config item.2 with (_, Some _) => mkIdentityConfig item.2 ∅ ∅ | (config, None) => config end) /\
  forall err, (registry_config item.2).2 = Some err -> cdError d = Some err.

Lemma produced_data cnames item (w : world (shard_state X)) d w' :
  produce_identity p registry_config cnames item w = Some (d, w') -> reported_as item d.
Proof using Type.
  destruct item as [cluster identity]. unfold produce_identity, reported_as. simpl.
  destruct (registry_config identity) as [config [e|]] eqn:E.
  - intros [= <- <-]. simpl. split_and!; [done..|]. by intros err [= ->].
  - unfold wbnd. destruct (get_caches w) as [[c w1]|]; [|done].
    destruct (witer _ _ w1) as [[[] w2]|]; [|done]. destruct (fill_clusters _ _ _ _ _ w2) as [[err w3]|]; [|done].
    intros [= <- <-]. by split_and!.
Qed.

(** The cache of the dependents of identities can be written, and nobody else has a lock. *)
Definition dependents_ready (w : world (shard_state X)) : Prop :=
  exists l, IdentityDependencyCache (w_caches w) = Some l /\ wf (w_heap w) /\ Caches.unlocked 2 (w_heap w) /\
    allocated 2 (w_heap w) l /\ Caches.unshared 2 (w_heap w) (Some l).

Lemma dependents_put_returns identity (clients : list string) : forall (w : world (shard_state X)),
  dependents_ready w -> exists w', witer (fun clientAsset =>
    on_heap (MapOfMaps_Put (IdentityDependencyCache (w_caches w)) identity clientAsset clientAsset)) clients w = Some (tt, w').
Proof using Type.
  induction clients as [|client clients IH]; intros w Hr; simpl; [by eexists|].
  destruct Hr as (l & Hl & Hw & Hu & Ha & Hs).
  destruct (nested_put_helper 2 _ [identity] l client client (w_heap w) (pm_map_of_maps identity)) as (h' & Hp & Hw' & Hu' & Ha' & Hs' & _);
    [done..|]. unfold wbnd, on_heap at 1. rewrite Hl, Hp. rewrite <- Hl.
  destruct (IH (w <| w_heap := h' |>)) as [w' H']; [by exists l|]. exists w'. by rewrite <- H'.
Qed.

Lemma fill_environments_returns cnames config envs : forall err (w : world (shard_state X)),
  exists err' w', fill_environments p cnames config envs err w = Some (err', w').
Proof using Type.
  induction envs as [|env envs IH]; intros err w; simpl; [by do 2 eexists|].
  assert (exists e w1, put_policies p env w = Some (e, w1)) as (e & w1 & E).
  { unfold put_policies, on_rest, wbnd, get_proc, update_proc, on_rs_api, on_api, wret. simpl.
    destruct (globalTrafficCache_Put _ _ _), (outlierDetectionCache_Put _ _ _), (clientConnectionSettingsCache_Put _ _ _).
    by do 2 eexists. }
  unfold wbnd. rewrite E.
  assert (forall l (w1 : world (shard_state X)), exists w2, witer (put_egress p cnames (IdentityName config) env) l w1 = Some (tt, w2)) as Hi.
  { induction l as [|a l IHl]; intros w2; simpl; [by eexists|]. unfold wbnd at 1, put_egress, put_name, wbnd at 1, on_api at 1, on_rest.
    simpl. apply IHl. }
  destruct (Hi (go_range 2 (ClientAssets config)).*2 w1) as [w2 ->]. apply IH.
Qed.

Lemma fill_clusters_returns cnames config cs : forall err (w : world (shard_state X)),
  exists err' w', fill_clusters p cnames config cs err w = Some (err', w').
Proof using Type.
  induction cs as [|c cs IH]; intros err w; simpl; [by do 2 eexists|]. unfold wbnd at 1.
  destruct (fill_environments_returns cnames config (go_range 1 (icEnvironment c)).*2 err w) as (e & w1 & ->).
  unfold wbnd, put_locality, update_shard, on_api. apply IH.
Qed.

(** The producer does not panic. *)
Lemma produce_returns cnames item (w : world (shard_state X)) :
  dependents_ready w -> exists d w', produce_identity p registry_config cnames item w = Some (d, w').
Proof using Type.
  intros Hr. destruct item as [cluster identity]. unfold produce_identity.
  destruct (registry_config identity) as [config [e|]]; [by do 2 eexists|].
  destruct (dependents_put_returns (IdentityName config) (go_range 0 (ClientAssets config)).*2 w Hr) as [w1 E].
  unfold get_caches, wbnd. rewrite E. destruct (fill_clusters_returns cnames config (go_range 0 (icClusters config)).*2 None w1) as (e & w2 & ->).
  by do 2 eexists.
Qed.

Lemma record_error_data d err : cdCluster (record_error d err) = cdCluster d /\ cdConfig (record_error d err) = cdConfig d.
Proof using Type. by destruct err. Qed.

Lemma written_data (rt : option string) ns ses : forall d (w : world (shard_state X)) d' w',
  write_entries (addressClient := addressClient) p readOnly rr seClients drClients vsClients sidecarClients message
    is_invalid se_on_error vs_on_error sinceStart registry_clusters api_list list_on_error dr_caches ip_prefix rt ns d ses w = Some (d', w') ->
  cdCluster d' = cdCluster d /\ cdConfig d' = cdConfig d.
Proof using registry_config.
  induction ses as [|se ses IH]; intros d w d' w'; simpl; [by intros [= <- <-]|].
  destruct (seHosts se) as [|host hosts]; [done|]. unfold wbnd at 1.
  destruct (AddServiceEntriesWithDrWorker _ _ _ _ _ _ _ _ _ _ _ _ _ _ _ _ _ _ _ _ w) as [[run w1]|]; [|done].
  pose proof (record_error_data d (received_error (cdCluster d) run)) as [H1 H2].
  destruct (ns ≫= _) as [n|].
  - unfold wbnd. destruct (on_rest _ w1) as [[err w3]|]; [|done].
    intros H%IH. pose proof (record_error_data (record_error d (received_error (cdCluster d) run)) err) as [H3 H4]. intuition congruence.
  - intros H%IH. intuition congruence.
Qed.

Lemma consumed_data (rt rt' : option string) item d (w : world (shard_state X)) d' w' :
  consume_data rt d w = Some ((rt', d'), w') -> reported_as item d -> reported_as item d'.
Proof using Type.
  unfold consume_data, consume_identity. intros H (Hc & Hi & He). destruct (cdError d) as [e|] eqn:E.
  { injection H as <- <- <-. split_and!; [done..|]. by rewrite E. }
  assert (forall err, (registry_config item.2).2 <> Some err) as Hn by (intros err Herr; by apply He in Herr).
  assert (cdCluster d' = cdCluster d /\ cdConfig d' = cdConfig d) as [Ec Ei].
  { destruct (BuildServiceEntriesFromIdentityConfig _ _ _ _) as [[ses [err|]]|]; [by injection H as <- <- <-| |done].
    unfold wbnd in H. destruct (write_entries _ _ _ _ _ _ _ _ _ _ _ _ _ _ _ _ _ _ _ _ _ w) as [[d1 w1]|] eqn:Ew; [|done].
    injection H as <- <- <-. by apply written_data in Ew. }
  unfold reported_as. rewrite Ec, Ei. split_and!; [done..|]. intros err Herr. by destruct (Hn err).
Qed.

Lemma handled_reported cnames item d :
  handled_as (produce_identity p registry_config cnames) consume_data item d -> reported_as item d.
Proof using Type. intros (c & c' & d0 & w0 & w0' & w & w' & Hp & Hc). by eapply consumed_data, produced_data. Qed.
End Handler.

(** *** The failures of a cluster *)

Definition failures_of (cluster : string) (results : list ConfigWriterData) : list FailedIdentity :=
  rev (omap (fun d => if cdCluster d =?s cluster then mkFailedIdentity (IdentityName (cdConfig d)) <$> cdError d else None) results).

Lemma failures_snoc cluster results d :
  failures_of cluster (results ++ [d]) =
  match cdError d with
  | Some err => if cdCluster d =?s cluster then mkFailedIdentity (IdentityName (cdConfig d)) err :: failures_of cluster results
                else failures_of cluster results
  | None => failures_of cluster results
  end.
Proof. unfold failures_of. rewrite omap_app, rev_app_distr. simpl. destruct (cdCluster d =?s cluster), (cdError d); done. Qed.

Definition failed_result (d : ConfigWriterData) : bool := negb (is_nil (cdError d)).

Lemma fold_results results :
  let '(failures, condition) := foldl process_result (∅, complete_condition) results in
  (forall cluster, failures !! cluster = match failures_of cluster results with [] => None | l => Some l end) /\
  condition = if existsb failed_result results then mkCondition (scMessage complete_condition) ErrorOccurred true SyncFailed
              else complete_condition.
Proof.
  induction results as [|d results IH] using rev_ind; [done|]. rewrite foldl_app. simpl.
  destruct (foldl _ _ results) as [failures condition]. destruct IH as [IHf ->].
  rewrite existsb_app. simpl. rewrite orb_false_r. unfold process_result.
  assert (failed_result d = negb (is_nil (cdError d))) as -> by done.
  destruct (cdError d) as [err|] eqn:E; simpl.
  - split; [|rewrite orb_true_r; by destruct (existsb _ _)]. intros cluster. rewrite failures_snoc, E.
    destruct (cdCluster d =?s cluster) eqn:Hc.
    + apply seqb_eq in Hc as <-. rewrite lookup_insert_eq, IHf. by destruct (failures_of _ _).
    + apply seqb_neq in Hc. by rewrite lookup_insert_ne, IHf.
  - split; [|by rewrite orb_false_r]. intros cluster. by rewrite failures_snoc, E.
Qed.

(** C29: The status of a shard names each cluster with a failed identity once, with the
    failed identities and their errors, the last one first; the condition that was put
    first when the handling began says whether there are any. *)
Theorem shard_results_spec {range : GoRange} (shard : Shard) (results : list ConfigWriterData) :
  let status := ShStatus (shard_results (shard_started shard) results) in
  NoDup (map fcName (FailedClusters status)) /\
  (forall cluster l, mkFailedCluster cluster l ∈ FailedClusters status <-> l = failures_of cluster results /\ l <> []) /\
  Conditions status =
    (if existsb failed_result results then mkCondition "Shard handling complete" ErrorOccurred true SyncFailed
     else mkCondition "Shard handling complete" Processed true SyncComplete) :: Conditions (ShStatus shard).
Proof.
  unfold shard_results, shard_started. pose proof (fold_results results) as H.
  destruct (foldl _ _ results) as [failures condition]. destruct H as [Hf ->]. simpl. split_and!.
  - rewrite map_map. simpl. apply go_range_fst_NoDup.
  - intros cluster l. rewrite list_elem_of_fmap. split.
    + intros ([k l'] & [= -> ->] & Hk). apply go_range_elem in Hk. rewrite Hf in Hk.
      destruct (failures_of k results) eqn:E; [done|]. injection Hk as <-. done.
    + intros [-> Hne]. exists (cluster, failures_of cluster results). split; [done|]. apply go_range_elem. rewrite Hf.
      by destruct (failures_of cluster results).
  - by destruct (existsb _ _).
Qed.

Section Handled.
Context {range : GoRange} {sorting : GoSort} {yaml : Yaml} {X : Type} {addressClient : ConfigMapClient X}.
Context {cc : KubeClient (shard_state X) Shard}.
Context (p : AdmiralParams) (readOnly : bool) (rr : RemoteRegistry) (registry_config : string -> IdentityConfig * error).
Context (seClients : string -> KubeClient X ServiceEntryObj) (drClients : string -> KubeClient X DestinationRuleObj)
  (vsClients : string -> KubeClient X VirtualServiceObj) (sidecarClients : string -> KubeClient X SidecarObj).
Context (message : api_error -> string) (is_invalid : string -> bool)
  (se_on_error : option ServiceEntryObj) (vs_on_error : option VirtualServiceObj)
  (sinceStart : SeDrTuple -> Z) (registry_clusters : string -> option (list string))
  (api_list : string -> string -> gmap string string -> X -> X * (list VirtualServiceObj + api_error))
  (list_on_error : option (list VirtualServiceObj))
  (dr_caches : gmap string (gmap (string * string) DestinationRuleObj)) (ip_prefix : string).

Abbreviation handler_step := (shard_event_step (addressClient := addressClient) p readOnly rr registry_config seClients
  drClients vsClients sidecarClients message is_invalid se_on_error vs_on_error sinceStart registry_clusters api_list
  list_on_error dr_caches ip_prefix).
Abbreviation consuming := (consume_data (addressClient := addressClient) p readOnly rr registry_config seClients
  drClients vsClients sidecarClients message is_invalid se_on_error vs_on_error sinceStart registry_clusters api_list
  list_on_error dr_caches ip_prefix).

Abbreviation worker := (AddServiceEntriesWithDrWorker (addressClient := addressClient) p rr seClients drClients vsClients message
  se_on_error vs_on_error sinceStart registry_clusters api_list list_on_error dr_caches ip_prefix).
Abbreviation writing := (write_entries (addressClient := addressClient) p readOnly rr seClients drClients vsClients
  sidecarClients message is_invalid se_on_error vs_on_error sinceStart registry_clusters api_list list_on_error dr_caches ip_prefix).

Lemma on_rest_None {A} (c : W (proc_world X) A) (w : world (shard_state X)) :
  on_rest c w = None -> c (mkWorld (so_rest (w_api w)) (w_heap w) (w_caches w) (w_addresses w) (w_se_cache w)) = None.
Proof using Type. unfold on_rest. by destruct (c _) as [[]|]. Qed.

(** Where a consumer can panic: in the construction of the entries, at an entry without
    hosts, in the worker, or in the write of the sidecar. *)
Inductive consumer_panics (data : ConfigWriterData) : Prop :=
| panics_build :
    BuildServiceEntriesFromIdentityConfig p registry_config (cdCluster data) (cdConfig data) = None -> consumer_panics data
| panics_hosts ses se :
    BuildServiceEntriesFromIdentityConfig p registry_config (cdCluster data) (cdConfig data) = Some (ses, None) ->
    se ∈ ses -> seHosts se = [] -> consumer_panics data
| panics_worker ses se rt source env w :
    BuildServiceEntriesFromIdentityConfig p registry_config (cdCluster data) (cdConfig data) = Some (ses, None) ->
    se ∈ ses -> worker rt source (IdentityName (cdConfig data)) env se (cdCluster data) w = None -> consumer_panics data
| panics_sidecar ns egress (w : world (proc_world X)) :
    modifySidecarForLocalClusterCommunication p readOnly sidecarClients is_invalid ns (IdentityName (cdConfig data))
      egress (remoteControllers rr !! cdCluster data) w = None -> consumer_panics data.

Lemma write_entries_panics rt namespaces (data0 : ConfigWriterData) all :
  BuildServiceEntriesFromIdentityConfig p registry_config (cdCluster data0) (cdConfig data0) = Some (all, None) ->
  forall (ses : list ServiceEntry) (data : ConfigWriterData) (w : world (shard_state X)),
  (forall se, se ∈ ses -> se ∈ all) -> cdCluster data = cdCluster data0 -> cdConfig data = cdConfig data0 ->
  writing rt namespaces data ses w = None -> consumer_panics data0.
Proof using Type.
  intros Hb. induction ses as [|se ses IH]; intros data w Hin Hc Hi; simpl; [done|].
  assert (forall data' err, cdCluster (record_error data' err) = cdCluster data' /\ cdConfig (record_error data' err) = cdConfig data')
    as Hr by (by intros data' [e|]).
  destruct (seHosts se) as [|host hosts] eqn:Eh.
  { intros _. eapply panics_hosts; [done|apply Hin, list_elem_of_here|done]. }
  unfold wbnd at 1. match goal with |- match ?c with _ => _ end = None -> _ => destruct c as [[run w1]|] eqn:E end.
  2: { intros _. eapply panics_worker; [done|apply Hin, list_elem_of_here|]. rewrite <- Hc, <- Hi. exact E. }
  pose proof (Hr data (received_error (cdCluster data) run)) as [Hr1 Hr2].
  destruct (m ← namespaces; m !! _) as [ns|].
  2: { apply IH; [intros; apply Hin; by apply list_elem_of_further|congruence|congruence]. }
  unfold wbnd at 1. match goal with |- match ?c with _ => _ end = None -> _ => destruct c as [[err w2]|] eqn:Es end.
  - apply IH; [intros; apply Hin; by apply list_elem_of_further| |];
      destruct (Hr (record_error data (received_error (cdCluster data) run)) err) as [Hr3 Hr4]; congruence.
  - intros _. rewrite Hr1, Hc, Hi in Es. apply on_rest_None in Es.
    eapply panics_sidecar, Es.
Qed.

Lemma consuming_panics rt (data : ConfigWriterData) (w : world (shard_state X)) :
  consuming rt data w = None -> consumer_panics data.
Proof using Type.
  unfold consume_data, consume_identity. destruct (cdError data); [done|].
  destruct (BuildServiceEntriesFromIdentityConfig _ _ _ _) as [[ses [e|]]|] eqn:E; [done| |by intros _; apply panics_build].
  unfold wbnd. match goal with |- match ?c with _ => _ end = None -> _ => destruct c as [[d w1]|] eqn:Ew; [done|] end.
  intros _. eapply write_entries_panics; [done| |done|done|exact Ew]. done.
Qed.

(** C8: The goroutines of a shard's event neither block each other nor go on forever,
    whatever the schedule: after at most six steps for each identity and eight more the
    handler has returned, or the body of one of them has panicked, which ends the process.
    The producer's does not as long as the cache of the dependents of identities can be
    written; a consumer's does not for an identity that comes with an error, and otherwise
    only where one of the functions that it calls does, or at an entry without hosts.  When the
    handler returns, the status has been computed from exactly one result for each identity
    of each of the shard's clusters, which is an error if the registry did not have it. *)
Theorem shard_handled (shard : Shard) (w : world (shard_state X)) (n : nat) s :
  nsteps (handler_step shard w) n (shard_event_start shard w) s ->
  (n <= 6 * length (shard_items shard) + 8)%nat /\
  (handled s = true \/ (exists s', handler_step shard w s s') \/
   run_panics (produce_identity p registry_config (shard_prepared shard w).2) consuming s) /\
  (forall item (w' : world (shard_state X)), dependents_ready w' -> is_Some (produce_identity p registry_config (shard_prepared shard w).2 item w')) /\
  (forall rt d w', cdError d <> None -> consuming rt d w' = Some ((rt, d), w')) /\
  (forall rt d w', consuming rt d w' = None -> consumer_panics d) /\
  (handled s = true -> exists items, items ≡ₚ shard_items shard /\ Forall2 (reported_as registry_config) items (collected s)).
Proof using Type.
  intros Hn. split; [by eapply shard_run_length|]. assert (run_ok (produce_identity p registry_config (shard_prepared shard w).2)
    consuming (shard_items shard) s) as Hi by (eapply run_ok_reach, rtc_nsteps_2; exact Hn).
  split; [by eapply run_progress|]. split.
  { intros item w' Hr. destruct (produce_returns p registry_config (shard_prepared shard w).2 item w' Hr) as (d & w1 & ->). by eexists. }
  split. { intros rt d w' Hd. unfold consume_data, consume_identity. by destruct (cdError d). }
  split. { intros rt d w'. apply consuming_panics. }
  intros Hd. destruct (run_finished _ _ _ _ Hi Hd) as (items & Hp & Hf).
  exists items. split; [done|]. eapply Forall2_impl; [exact Hf|]. intros item d. apply handled_reported.
Qed.
End Handled.

(** ** What stays behind *)

(** When the shard is found and can be written, its status makes no difference to what is
    written: not it but the labels, the annotations and the clusters are copied. *)
Lemma shard_status_not_written {St} {cc : KubeClient St Shard} (obj found : Shard) (status : ShardStatus) (s s1 : St) :
  api_get (Namespace (ShMeta obj)) (Name (ShMeta obj)) s = (s1, inl found) ->
  (api_update (Namespace (ShMeta found))
     (mkShard (ShMeta found <| Labels := Labels (ShMeta obj) |> <| Annotations := Annotations (ShMeta obj) |>)
        (ShClusters obj) (ShStatus found)) s1).2 = None ->
  updateShardStatus obj s = updateShardStatus (obj <| ShStatus := status |>) s.
Proof.
  intros Hg Hu. unfold updateShardStatus. simpl. rewrite Hg. simpl.
  destruct (api_update _ _ s1) as [s2 err]. simpl in Hu. by subst.
Qed.

(** A client cluster whose region no identity has brought yet: the worker panics. *)
Section Locality.
Context {range : GoRange} {sorting : GoSort} {yaml : Yaml} {X : Type} {addressClient : ConfigMapClient X}.
Context (p : AdmiralParams) (rr : RemoteRegistry).
Context (seClients : string -> KubeClient X ServiceEntryObj) (drClients : string -> KubeClient X DestinationRuleObj)
  (vsClients : string -> KubeClient X VirtualServiceObj).

Lemma unknown_locality_panics message so vo sinceStart rc_of (api_list : string -> string -> gmap string string -> X -> X * (list VirtualServiceObj + api_error))
    lo drs prefix rt source asset env se cluster rc (w : world (shard_state X)) :
  IsAdmiralOperatorMode p = true -> remoteControllers rr !! cluster = Some rc -> so_locality (w_api w) !! cluster = None ->
  AddServiceEntriesWithDrWorker (addressClient := addressClient) p rr seClients drClients vsClients message so vo sinceStart
    rc_of api_list lo drs prefix rt source asset env se cluster w = None.
Proof using Type.
  intros Hp Hrc Hl. unfold AddServiceEntriesWithDrWorker, wbnd, get_shard_state, on_api, on_rest. simpl.
  unfold getNonPartitionedIdentity. rewrite Hp. simpl. unfold process_cluster. rewrite Hrc.
  unfold getClusterRegion. rewrite Hp, Hl. done.
Qed.
End Locality.

(** *** A registry with two identities *)

Definition shard_env (settings : string) : IdentityConfigEnvironment :=
  mkIdentityEnvironment "dev" "ns" None "svc" ∅ [] (mkGTP (mkMeta "gtp" "ns" None None 0 "") [] None)
    zero_od (mkCCC (mkMeta settings "ns" None None 0 "") None) None.
Definition shard_config (name client settings : string) : IdentityConfig :=
  mkIdentityConfig name {[ "c1" := mkIdentityCluster "c1" "west" "lb" "15443" "http" {[ "dev" := shard_env settings ]} ]}
    {[ client := client ]}.
Definition shard_registry (identity : string) : IdentityConfig * error :=
  if identity =?s "a" then (shard_config "a" "foo" "", None)
  else if identity =?s "b" then (shard_config "b" "bar" "settings", None)
  else (mkIdentityConfig "" ∅ ∅, Some "not found").

Definition shard_params : AdmiralParams :=
  Params.zero_AdmiralParams <| Params.AdmiralOperatorMode := true |> <| Params.HostnameSuffix := "mesh" |>.
Definition shard_world : world (shard_state unit) :=
  mkWorld (mkShardState (mkRouting (mkProc tt (mkAdmiralCache ∅ []) ∅ ∅ ∅ ∅ ∅ ∅) ∅ ∅ ∅) ∅ [∅])
    (mkHeap ∅ {[ (2%nat, 2%nat) := ∅ ]} 3 ∅) (mkAdmiralCaches (mkCachePointers None None None None None) None None None (Some 2%nat))
    empty_store ∅.

Definition produced_by (items : list (string * string)) : option (list (string * error) * world (shard_state unit)) :=
  foldl (fun r item =>
    match r with
    | None => None
    | Some (ds, w) =>
        match produce_identity shard_params shard_registry 0 item w with
        | None => None
        | Some (d, w) => Some (ds ++ [(IdentityName (cdConfig d), cdError d)], w)
        end
    end) (Some ([], shard_world)) items.

(** An identity without client connection settings is reported as failed, and nothing is
    written for it, because the error of the last cache is sent along. *)
Lemma unnamed_settings_fail :
  fst <$> produced_by [("c1", "a"); ("c1", "b"); ("c1", "z")] =
    Some [("a", Some "skipped adding to clientConnectionSettingsCache, missing name in clientConnectionSettings");
          ("b", None); ("z", Some "not found")].
Proof. vm_compute. reflexivity. Qed.

Definition names_for (client : string) (items : list (string * string)) : option (gmap string string) :=
  r ← produced_by items; m ← pc_egress (rs_api (so_rest (w_api r.2))) !! client; e ← m !! "ns"; Some (CNAMEs e).

(** The map of names is made once for a shard: the sidecars of [bar], a client of [b], get the
    names of [a] as well when [a] has been produced before.  What is produced later does not
    change an entry. *)
Lemma names_of_earlier_identities :
  names_for "bar" [("c1", "b")] = Some {[ "dev.b.mesh" := "1" ]} /\
  names_for "bar" [("c1", "a"); ("c1", "b")] = Some {[ "dev.a.mesh" := "1"; "dev.b.mesh" := "1" ]} /\
  names_for "foo" [("c1", "a"); ("c1", "b")] = Some {[ "dev.a.mesh" := "1" ]}.
Proof. split_and!; vm_compute; reflexivity. Qed.

(** *** A shard with one identity *)

#[local] Instance silent {X Obj} : KubeClient X Obj := {|
  api_create _ _ s := (s, None); api_update _ _ s := (s, None); api_delete _ _ s := (s, None);
  api_get _ _ s := (s, inr NotFound) |}.
#[local] Instance silent_configmap : ConfigMapClient unit := {| cm_get s := (s, inr "none"); cm_create s := (s, inr "none"); cm_update _ s := (s, Some "none") |}.

Definition one_shard : Shard := mkShard (mkMeta "shard" "admiral" None None 0 "1") [mkClusterShard "c1" ["z"] ] (mkShardStatus [] 0 []).

Abbreviation one_step := (shard_event_step (X := unit) (cc := silent) shard_params false (mkRegistry ∅ ∅ ∅ ∅ ∅ ∅ ∅ None) shard_registry
  (fun _ => silent) (fun _ => silent) (fun _ => silent) (fun _ => silent) (fun _ => "") (fun _ => false) None None (fun _ => 0%Z)
  (fun _ => None) (fun _ _ _ s => (s, inl [])) None ∅ "240.0" one_shard shard_world).

Definition one_result : ConfigWriterData := mkData (mkIdentityConfig "z" ∅ ∅) "c1" (Some "not found").
Definition one_done : shard_run (string * string) ConfigWriterData (option string) (world (shard_state unit)) :=
  mkRun [] None [] true (replicate 5 Exited) [] true [one_result] true
    (ProcessResults one_shard [one_result] (shard_prepared one_shard shard_world).1).

(** One consumer takes the identity; all five leave. *)
Lemma one_run : nsteps one_step 14 (shard_event_start one_shard shard_world) one_done.
Proof.
  eapply nsteps_l; [by eapply step_produce|]. eapply nsteps_l; [apply step_send; unfold channel_capacity; simpl; lia|].
  eapply nsteps_l; [apply step_close|]. eapply nsteps_l; [apply (step_take _ _ _ None one_result [] None [] true [])|].
  eapply nsteps_l; [by apply (step_consume _ _ _ None None one_result one_result [] None [] true [])|].
  eapply nsteps_l; [apply (step_report _ _ _ None one_result [] None [] true []); unfold channel_capacity; simpl; lia|].
  eapply nsteps_l; [apply step_collect|].
  eapply nsteps_l; [apply (step_exit _ _ _ None [] None [])|]. eapply nsteps_l; [apply (step_exit _ _ _ None [] None [Exited])|].
  eapply nsteps_l; [apply (step_exit _ _ _ None [] None [Exited; Exited])|].
  eapply nsteps_l; [apply (step_exit _ _ _ None [] None [Exited; Exited; Exited])|].
  eapply nsteps_l; [apply (step_exit _ _ _ None [] None [Exited; Exited; Exited; Exited])|].
  eapply nsteps_l; [apply step_close_results; simpl; by repeat constructor|]. eapply nsteps_l; [apply step_finish|].
  apply nsteps_O.
Qed.

Lemma shard_handled_witness :
  handled one_done = true /\
  exists items, items ≡ₚ shard_items one_shard /\ Forall2 (reported_as shard_registry) items (collected one_done).
Proof.
  split; [reflexivity|].
  exact (proj2 (proj2 (proj2 (proj2 (proj2 (shard_handled shard_params false (mkRegistry ∅ ∅ ∅ ∅ ∅ ∅ ∅ None) shard_registry
    (fun _ => silent) (fun _ => silent) (fun _ => silent) (fun _ => silent) (fun _ => "") (fun _ => false) None None (fun _ => 0%Z)
    (fun _ => None) (fun _ _ _ s => (s, inl [])) None ∅ "240.0" one_shard shard_world 14 one_done one_run))))) eq_refl).
Defined.
