(* ===== verification/Startup.v ===== *)
(** * The start of Admiral

    [InitAdmiral] and [InitAdmiralOperator] of [clusters/registry.go], [NewRemoteRegistry]
    of [clusters/types.go], and the choice and the runs of the state checkers
    ([clusters/admiralStateChecker.go], [admiralIgnoreIdentityStateChecker.go]).  Reading
    configuration files and making clients are parameters.  What the registry has at the
    start is what the other files assume of its caches. *)
From S2P Require Import DependencyProcessing RoutingPolicies DynamicConfig.
From S2P Require Import Prelude GoStrings Config Objects Metadata Policies AddressStore Writers ServiceEntries.
From S2P Require Import Caches Dependents World StateCheck SeState Clusters RegistryClient.
From stdpp Require Import options.

(** ** State checkers *)

Definition ignoreIdentityChecker := "dynamodbbasedignoreidentitylistchecker".
Definition drStateChecker := "dynamodbbasedstatechecker".

(** The part of [AdmiralConfig] that is read; the zero value of a struct is equal to it. *)
Record DynamoDB := mkDynamoDB { dbTableName : string; dbRegion : string; dbRole : string; dbClusterEnvironment : string }.
#[export] Instance DynamoDB_eq_dec : EqDecision DynamoDB.
Proof. solve_decision. Defined.
Record IgnoreIdentityList := mkIgnoreIdentityList { StateCheckerPeriodInSeconds : Z; ilDynamoDB : DynamoDB }.
#[export] Instance IgnoreIdentityList_eq_dec : EqDecision IgnoreIdentityList.
Proof. solve_decision. Defined.
Definition zero_DynamoDB : DynamoDB := mkDynamoDB "" "" "" "".

(** [printed]: the text of [%+v]. *)
Definition validateAdmiralConfig (printed : DynamoDB -> string) (admiralConfig : option IgnoreIdentityList) : error :=
  match admiralConfig with
  | None => Some "admiralConfig cannot be nil"
  | Some l =>
      let db := ilDynamoDB l in
      if bool_decide (l = mkIgnoreIdentityList 0 zero_DynamoDB) then Some "ignoreIdentityList cannot be empty"
      else if bool_decide (db = zero_DynamoDB) then Some "ignoreIdentityList.dynamoDB cannot be empty"
      else if is_empty (dbRole db) || is_empty (dbRegion db) || is_empty (dbTableName db) || is_empty (dbClusterEnvironment db)
      then Some ("ignoreIdentityList.dynamoDB is not configured correctly. expect all properties to be present, got: " +:+ printed db)
      else if (StateCheckerPeriodInSeconds l =? 0)%Z
      then Some "ignoreIdentityList.stateCheckerPeriodInSeconds is either not set, or is set to 0. It should be set to a value greater than 0"
      else None
  end.

(** A checker of ignored identities has the pointer to the cache it keeps, nil at first. *)
Inductive state_checker :=
| IgnoreIdentityStateChecker (config : IgnoreIdentityList) (stateCache : option IgnoredIdentityCache)
| ReadWriteLeaseStateChecker
| NoOPStateChecker.

Section Checkers.
Context (printed : DynamoDB -> string).
(** The configuration file of a path, and [NewDynamoClient]. *)
Context (read_config : string -> option IgnoreIdentityList + string) (NewDynamoClient : string -> string -> error).

Definition NewIgnoreIdentityStateChecker (configFile : string) : state_checker + string :=
  match read_config configFile with
  | inr err => inr err
  | inl admiralConfig =>
      match validateAdmiralConfig printed admiralConfig, admiralConfig with
      | Some err, _ => inr ("failed validating admiral config, err: " +:+ err)
      | None, None => inr ""
      | None, Some l =>
          match NewDynamoClient (dbRole (ilDynamoDB l)) (dbRegion (ilDynamoDB l)) with
          | Some err => inr ("unable to instantiate dynamo client, err: " +:+ err)
          | None => inl (IgnoreIdentityStateChecker l None)
          end
      end
  end.

(** [inr] is the end of the process. *)
Definition initAdmiralStateChecker (stateChecker stateConfigFilePath : string) : state_checker + string :=
  let name := to_lower stateChecker in
  if name =?s ignoreIdentityChecker then NewIgnoreIdentityStateChecker stateConfigFilePath
  else if name =?s drStateChecker then inl ReadWriteLeaseStateChecker
  else inl NoOPStateChecker.
End Checkers.

Definition shouldRunOnIndependentGoRoutine (checker : state_checker) : bool :=
  match checker with NoOPStateChecker => false | _ => true end.

(** [initStateCache]; the other checkers have none. *)
Definition initStateCache (cache : IgnoredIdentityCache) (checker : state_checker) : state_checker :=
  match checker with IgnoreIdentityStateChecker l _ => IgnoreIdentityStateChecker l (Some cache) | c => c end.

(** What a pass of [runStateCheck] reads: the items of the ignore list, or the lease. *)
Record check_input := mkCheckInput {
  ciItems : list IgnoredIdentityCache + string;
  ciLease : DynamoDBConfig;
  ciNow : Z;
  ciWarmup : option (option bool);
  ciScan : option (list ReadWriteLease)
}.

(** A pass, on [CurrentAdmiralState] and the cache of the checker; [None] is a panic. *)
Definition state_check_pass (i : check_input) (checker : state_checker) (s : AdmiralState) : option (state_checker * AdmiralState) :=
  match checker with
  | IgnoreIdentityStateChecker l stateCache =>
      match getState (dbTableName (ilDynamoDB l)) (ciItems i), stateCache with
      | (_, Some _), _ => Some (checker, s)
      | (state, None), Some cache => Some (IgnoreIdentityStateChecker l (Some (syncState cache state)), s)
      | (_, None), None => None
      end
  | ReadWriteLeaseStateChecker => Some (checker, (ExecuteStateCheck (ciLease i) (ciNow i) (ciWarmup i) (ciScan i) s).1)
  | NoOPStateChecker => Some (checker, NoOPStateChecker_runStateCheck s)
  end.

(** ** Waiting for the state *)

(** [initialized k] and [elapsed k] are the state and the milliseconds at the [k]-th pass
    of the loop; [None] is the end of the process. *)
Fixpoint pause_loop (initialized : nat -> bool) (elapsed : nat -> Z) (fuel k : nat) : option nat :=
  match fuel with
  | O => None
  | S fuel =>
      if initialized k then Some k
      else if (60000 <? elapsed k)%Z then None
      else pause_loop initialized elapsed fuel (S k)
  end.
Definition pauseForAdmiralToInitializeState (initialized : nat -> bool) (elapsed : nat -> Z) : option nat :=
  pause_loop initialized elapsed 602 0.

(** ** The registry *)

Definition AdmiralProfileIntuit := "intuit".
Definition AdmiralProfilePerf := "perf".

(** The clients of the databases; that of an enabled one may be nil. *)
Inductive database_manager := DummyDatabaseClient | DatabaseClient (client : option database_client).

(** What [NewRemoteRegistry] makes: the caches of [World.v], those of [SeState.v] with
    clients [X] and those of [RoutingPolicies.v] and [DependencyProcessing.v], the pointers of
    [CnameClusterCache], whose entries are in [SeState.v], [SlowStartConfigCache] and
    [ClusterLocalityCache], the address store, the suspender, the loader of clients, the
    clients of the databases and the configuration of the registry's client. *)
Inductive client_loader := FakeClientLoader | KubeClientLoader.
Record new_registry (X : Type) := mkNewRegistry {
  nrCaches : AdmiralCaches;
  nrState : proc_state X;
  nrCnameCluster : ptr;
  nrSlowStart : ptr;
  nrClusterLocality : ptr;
  nrFilters : gmap string filters_by_cluster;
  nrPolicies : gmap string policies_by_env;
  nrAddresses : ServiceEntryAddressStore;
  nrSources : gmap string (list string);
  nrArgoRolloutsEnabled : bool;
  nrCLBEnabledCluster : list string;
  nrControllers : gmap string RemoteController;
  nrSuspender : IgnoredIdentityCache;
  nrDatabase : database_manager;
  nrDynamicDatabase : database_manager;
  nrLoader : client_loader;
  nrRegistryClient : option client_config
}.
Arguments mkNewRegistry {X} _ _ _ _ _ _ _ _ _ _ _ _ _ _ _ _ _.
Arguments nrCaches {X} _.
Arguments nrState {X} _.
Arguments nrCnameCluster {X} _.
Arguments nrSlowStart {X} _.
Arguments nrClusterLocality {X} _.
Arguments nrFilters {X} _.
Arguments nrPolicies {X} _.
Arguments nrAddresses {X} _.
Arguments nrSources {X} _.
Arguments nrArgoRolloutsEnabled {X} _.
Arguments nrCLBEnabledCluster {X} _.
Arguments nrControllers {X} _.
Arguments nrSuspender {X} _.
Arguments nrDatabase {X} _.
Arguments nrDynamicDatabase {X} _.
Arguments nrLoader {X} _.
Arguments nrRegistryClient {X} _.

Section Registry.
(** The databases' configuration in Admiral's file, and the constructor of their clients. *)
Context {X : Type} (p : AdmiralParams) (admiralConfig : string -> (string * string * string) + string)
  (dynamoClient : string -> string -> error) (api : X).

(** The cache of a dynamic suspender is empty at first. *)
Definition new_suspender (params : AdmiralParams) : IgnoredIdentityCache :=
  if (GetAdmiralProfile p =?s AdmiralProfileDefault) || (GetAdmiralProfile p =?s AdmiralProfilePerf)
  then NewDefaultServiceEntrySuspender params.(Params.ExcludedIdentityList)
  else if GetAdmiralProfile p =?s AdmiralProfileIntuit then mkIgnoredIdentityCache false false "" ∅
  else NewDummyServiceEntrySuspender.

Definition new_registry_client : option client_config :=
  if IsAdmiralOperatorMode p || IsAdmiralStateSyncerMode p then
    let params := GetRegistryClientConfig p in
    let get k := default "" (params !! k) in
    Some (NewClient (mkClientConfig (get "Host") (get "AppId") (get "AppSecret") (get "BaseURI") 0 0 0))
  else None.

(** The errors of the constructors are logged or dropped. *)
Definition new_database : database_manager :=
  if GetEnableWorkloadDataStorage p
  then DatabaseClient (NewAdmiralDatabaseClient (admiralConfig (GetAdmiralConfigPath p)) dynamoClient).1
  else DummyDatabaseClient.
Definition new_dynamic_database : database_manager :=
  if IsAdmiralDynamicConfigEnabled p
  then DatabaseClient (NewDynamicConfigDatabaseClient p (admiralConfig (GetAdmiralConfigPath p)) dynamoClient).1
  else DummyDatabaseClient.

Local Open Scope cache_scope.

Definition NewRemoteRegistry (params : AdmiralParams) : M (new_registry X) :=
  identityCluster <- NewMapOfMaps;;
  cnameCluster <- NewMapOfMaps;;
  cnameDependentCluster <- NewMapOfMaps;;
  identityDependency <- NewMapOfMaps;;
  seCluster <- NewMapOfMaps;;
  identityClusterNamespace <- NewMapOfMapOfMaps;;
  cnameDependentClusterNamespace <- NewMapOfMapOfMaps;;
  clientClusterNamespaceServer <- NewMapOfMapOfMaps;;
  partitionIdentity <- NewMap;;
  slowStart <- NewMapOfMapOfMaps;;
  clusterLocality <- (if is_nil new_registry_client then mret None else NewMapOfMaps);;
  mret (mkNewRegistry
    (mkAdmiralCaches
       (mkCachePointers cnameDependentCluster (Some ∅) identityCluster identityClusterNamespace cnameDependentClusterNamespace)
       partitionIdentity seCluster clientClusterNamespaceServer identityDependency)
    (mkProc api (mkAdmiralCache ∅ params.(Params.NLBEnabledClusters)) ∅ ∅ ∅ ∅ ∅ ∅)
    cnameCluster slowStart clusterLocality ∅ ∅ empty_store ∅ params.(Params.ArgoRolloutsEnabled)
    params.(Params.CLBEnabledClusters) ∅ (new_suspender params) new_database new_dynamic_database
    (if GetAdmiralProfile p =?s AdmiralProfilePerf then FakeClientLoader else KubeClientLoader)
    new_registry_client).
End Registry.

(** ** The start *)

(** What has been started, in this order. *)
Inductive component := StateChecker | DependencyController | TrafficConfigController | ShardController
  | AddressStoreLoaded | SecretController | Shutdown.

(** [Ended]: the process has ended.  The registry is returned or nil. *)
Inductive init_result := Ended | Returned (registry : bool) (err : error).

Section Init.
(** The errors of the constructors; whether the wait for the state returns. *)
Context (p : AdmiralParams) (state_initialized : bool)
  (dependency_error trafficConfig_error configMap_error shard_error secret_error : error).

Definition InitAdmiralWithDefaultPersona (started : list component) : list component * error :=
  match secret_error with
  | Some err => (started, Some ("error with secret control init: " +:+ err))
  | None => (started ++ [SecretController], None)
  end.

Definition InitAdmiral : list component * init_result :=
  let started := [StateChecker] in
  if negb state_initialized then (started, Ended)
  else match dependency_error with
  | Some err => (started, Returned false (Some ("error with dependency controller init: " +:+ err)))
  | None =>
      let started := started ++ [DependencyController] in
      match (if IsTrafficConfigProcessingEnabledForSlowStart p then trafficConfig_error else None) with
      | Some err => (started, Returned false (Some ("error with trafficConfig controller init: " +:+ err)))
      | None =>
          let started := started ++ (if IsTrafficConfigProcessingEnabledForSlowStart p then [TrafficConfigController] else []) in
          match configMap_error with
          | Some err => (started, Returned false (Some ("error with configmap controller init: " +:+ err)))
          | None =>
              match InitAdmiralWithDefaultPersona (started ++ [AddressStoreLoaded]) with
              | (started, Some err) => (started, Returned false (Some err))
              | (started, None) => (started ++ [Shutdown], Returned true None)
              end
          end
      end
  end.

Definition InitAdmiralOperator : list component * init_result :=
  let started := [StateChecker] in
  if negb state_initialized then (started, Ended)
  else match shard_error with
  | Some err => (started, Returned false (Some ("error with ShardController initialization, err: " +:+ err)))
  | None =>
      let '(started, err) := InitAdmiralWithDefaultPersona (started ++ [ShardController]) in
      (started ++ [Shutdown], Returned true err)
  end.
End Init.

(** ** Lemmas *)

(** The heap has more objects, and the old ones are as they were. *)
Record extends (h h' : heap) : Prop := {
  ex_wf : wf h';
  ex_locked : h_locked h' = h_locked h;
  ex_alloc : forall d n, allocated d h n -> allocated d h' n;
  ex_child : forall d q k, child d h' q k = child d h q k;
  ex_map : forall q, default ∅ (h_maps h' !! q) = default ∅ (h_maps h !! q);
  ex_next : h_next h <= h_next h'
}.

Lemma extends_refl h : wf h -> extends h h.
Proof. intros Hw. by split. Qed.

Lemma extends_trans h h' h'' : extends h h' -> extends h' h'' -> extends h h''.
Proof.
  intros [_ L1 A1 C1 M1 N1] [W2 L2 A2 C2 M2 N2].
  split; [done|congruence|auto|intros; by rewrite C2|intros; by rewrite M2|lia].
Qed.

(** A new object: the pointer is the next free one, and nothing is in the object. *)
Record fresh_object (d : nat) (h h' : heap) (q : nat) : Prop := {
  fo_pointer : q = h_next h;
  fo_alloc : allocated d h' q;
  fo_tab : forall k, child d h' (Some q) k = None;
  fo_map : default ∅ (h_maps h' !! q) = ∅
}.

Lemma child_next d h k : wf h -> child d h (Some (h_next h)) k = None.
Proof.
  intros Hw. destruct (child d h (Some (h_next h)) k) as [q|] eqn:E; [|done].
  pose proof (wf_child _ Hw _ _ _ _ E) as [Hd _]. unfold child in E. rewrite fresh_tab in E; [done|done|lia].
Qed.

Lemma alloc_run d h :
  wf h -> exists h', new_obj d h = Done (Some (h_next h)) h' /\ extends h h' /\ fresh_object d h h' (h_next h) /\ h_next h' = S (h_next h).
Proof.
  intros Hw. destruct (new_obj_run d h Hw) as (h' & Hr & He). exists h'. split; [done|].
  pose proof (new_effect_wf _ _ _ He Hw) as Hw'. destruct He as [E1 E2 E3 E4 E5 _ _]. split_and!; [| |done].
  - split; [done|done| |done|done|lia]. intros d0 n Ha. apply E1. by left.
  - split; [done|apply E1; by right|intros k; rewrite E2; by apply child_next|]. by rewrite E5, fresh_map.
Qed.

(** Several objects, one after the other. *)
Fixpoint allocs (ds : list nat) : M (list ptr) :=
  match ds with
  | [] => mret []
  | d :: ds => mbnd (new_obj d) (fun q => mbnd (allocs ds) (fun l => mret (q :: l)))
  end.

Definition empty_at (d : nat) (h : heap) (q : nat) : Prop :=
  allocated d h q /\ (forall k, child d h (Some q) k = None) /\ default ∅ (h_maps h !! q) = ∅.

Lemma empty_at_extends d h h' q : extends h h' -> empty_at d h q -> empty_at d h' q.
Proof.
  intros [_ _ A C M _] (Ha & Hc & Hm). split_and!; [by apply A|intros k; by rewrite C|by rewrite M].
Qed.

Lemma allocs_run ds : forall h, wf h ->
  exists h', allocs ds h = Done (map Some (seq (h_next h) (length ds))) h' /\ extends h h' /\
    Forall2 (fun d q => empty_at d h' q) ds (seq (h_next h) (length ds)) /\ h_next h' = h_next h + length ds.
Proof.
  induction ds as [|d ds IH]; intros h Hw; [exists h; split_and!; [done|by apply extends_refl|constructor|simpl; lia]|].
  destruct (alloc_run d h Hw) as (h1 & Hr & He & [_ Ha Ht Hm] & Hn). destruct (IH h1 (ex_wf _ _ He)) as (h' & Hr' & He' & Hf & Hnext).
  exists h'. simpl. unfold mbnd. rewrite Hr, Hr', Hn in *. split_and!; [done|by eapply extends_trans| |lia].
  constructor; [|done]. by apply (empty_at_extends d h1).
Qed.

(** The objects of a new registry, with their depths. *)
Definition registry_objects {X} (rr : new_registry X) : list (nat * ptr) :=
  let c := nrCaches rr in let ps := pointers c in
  [(2, IdentityClusterCache ps); (2, nrCnameCluster rr); (2, CnameDependentClusterCache ps); (2, IdentityDependencyCache c); (2, SeClusterCache c);
   (3, IdentityClusterNamespaceCache ps); (3, CnameDependentClusterNamespaceCache ps); (3, ClientClusterNamespaceServerCache c);
   (1, PartitionIdentityCache c); (3, nrSlowStart rr)] ++
  match nrClusterLocality rr with None => [] | q => [(2, q)] end.

(** [NewRemoteRegistry] from the objects that it allocates. *)
Definition registry_depths (p : AdmiralParams) : list nat :=
  [2; 2; 2; 2; 2; 3; 3; 3; 1; 3] ++ if is_nil (new_registry_client p) then [] else [2].

Definition registry_of {X} (p params : AdmiralParams) admiralConfig dynamoClient (api : X) (l : list ptr) : option (new_registry X) :=
  match l with
  | ic :: cc :: cdc :: idep :: sec :: icn :: cdcn :: ccns :: part :: slow :: rest =>
      Some (mkNewRegistry
        (mkAdmiralCaches (mkCachePointers cdc (Some ∅) ic icn cdcn) part sec ccns idep)
        (mkProc api (mkAdmiralCache ∅ params.(Params.NLBEnabledClusters)) ∅ ∅ ∅ ∅ ∅ ∅)
        cc slow (default None (head rest)) ∅ ∅ empty_store ∅ params.(Params.ArgoRolloutsEnabled)
        params.(Params.CLBEnabledClusters) ∅ (new_suspender p params) (new_database p admiralConfig dynamoClient)
        (new_dynamic_database p admiralConfig dynamoClient)
        (if GetAdmiralProfile p =?s AdmiralProfilePerf then FakeClientLoader else KubeClientLoader)
        (new_registry_client p))
  | _ => None
  end.

Lemma NewRemoteRegistry_allocs {X} (p params : AdmiralParams) admiralConfig dynamoClient (api : X) (h h' : heap) (l : list ptr) :
  allocs (registry_depths p) h = Done l h' ->
  exists rr, NewRemoteRegistry p admiralConfig dynamoClient api params h = Done rr h' /\
    registry_of p params admiralConfig dynamoClient api l = Some rr.
Proof.
  unfold NewRemoteRegistry, registry_depths. change NewMapOfMaps with (new_obj 2). change NewMapOfMapOfMaps with (new_obj 3).
  change NewMap with (new_obj 1). cbn [allocs app]. unfold mbnd, mret.
  do 10 (match goal with |- context [new_obj ?d ?h] => destruct (new_obj d h); cbv beta iota; [|done|done] end).
  destruct (is_nil (new_registry_client p)); cbn [allocs]; unfold mbnd, mret.
  - intros [= <- <-]. by eexists.
  - match goal with |- context [new_obj ?d ?h] => destruct (new_obj d h); cbv beta iota; [|done|done] end.
    intros [= <- <-]. by eexists.
Qed.

(** C28: The registry that Admiral starts with satisfies what the other components assume
    of their caches: each cache is an object of its own of the right depth, without an
    entry and unlocked, none of them is nil, apart from the regions of the clusters, which
    only an operator or a state syncer has; these objects are all that is allocated, what was
    allocated before is as it was, and the caches that are not on the heap are empty. *)
Theorem new_registry_ok {X} (p params : AdmiralParams) admiralConfig dynamoClient (api : X) (h : heap) :
  wf h -> h_locked h = ∅ ->
  exists rr h', NewRemoteRegistry p admiralConfig dynamoClient api params h = Done rr h' /\ extends h h' /\
    caches_ok h' (pointers (nrCaches rr)) /\
    map snd (registry_objects rr) = map Some (seq (h_next h) (length (registry_objects rr))) /\
    h_next h' = h_next h + length (registry_objects rr) /\
    Forall (fun dq => exists n, dq.2 = Some n /\ empty_at dq.1 h' n) (registry_objects rr) /\
    (nrClusterLocality rr <> None <-> IsAdmiralOperatorMode p = true \/ IsAdmiralStateSyncerMode p = true) /\
    nrState rr = mkProc api (mkAdmiralCache ∅ params.(Params.NLBEnabledClusters)) ∅ ∅ ∅ ∅ ∅ ∅ /\
    nrFilters rr = ∅ /\ nrPolicies rr = ∅ /\ nrAddresses rr = empty_store /\ nrSources rr = ∅ /\ nrControllers rr = ∅.
Proof.
  intros Hw Hu. destruct (allocs_run (registry_depths p) h Hw) as (h' & Hr & He & Hf & Hnext).
  destruct (NewRemoteRegistry_allocs p params admiralConfig dynamoClient api h h' _ Hr) as (rr & Hrr & Hof). exists rr, h'. clear Hr.
  assert (is_nil (new_registry_client p) = negb (IsAdmiralOperatorMode p || IsAdmiralStateSyncerMode p)) as Hn.
  { unfold new_registry_client. by destruct (IsAdmiralOperatorMode p || IsAdmiralStateSyncerMode p). }
  rewrite <- orb_true_iff. unfold registry_depths in *. rewrite Hn in *.
  destruct (IsAdmiralOperatorMode p || IsAdmiralStateSyncerMode p); cbn [negb app length seq map] in *;
    injection Hof as <-; repeat match goal with H : Forall2 _ (_ :: _) (_ :: _) |- _ => inversion H; clear H; subst end.
  all: split_and!; [done|done| |done|done| |done..].
  all: try (split; [by eapply ex_wf|by rewrite (ex_locked _ _ He)|..]; simpl; match goal with H : empty_at _ _ ?n |- allocated _ _ ?n => apply H end).
  all: repeat constructor; eexists; (split; [reflexivity|done]).
Qed.

Definition start_heap : heap := mkHeap ∅ ∅ 0 ∅.

Lemma start_heap_wf : wf start_heap.
Proof.
  split.
  - intros d n. unfold allocated. destruct (decide (d = 1)); intros [? H]; cbn [start_heap h_maps h_tabs] in H;
      by rewrite lookup_empty in H.
  - intros d [l|] k q H; [|done]. unfold child in H. change (h_tabs start_heap !! (d, l)) with (@None (gmap string ptr)) in H. done.
Qed.

Lemma new_registry_ok_witness :
  exists rr h', NewRemoteRegistry Params.zero_AdmiralParams (fun _ => inr "no file") (fun _ _ => None) tt
      Params.zero_AdmiralParams start_heap = Done rr h' /\
    caches_ok h' (pointers (nrCaches rr)) /\ h_next h' = length (registry_objects rr).
Proof.
  destruct (new_registry_ok Params.zero_AdmiralParams Params.zero_AdmiralParams (fun _ => inr "no file") (fun _ _ => None) tt
    start_heap start_heap_wf eq_refl) as (rr & h' & Hr & _ & Hok & _ & Hn & _).
  exists rr, h'. split; [exact Hr|]. split; [exact Hok|exact Hn].
Defined.

(** ** The wait and the checkers *)

(** The wait ends: with the first pass that sees an initialized state, if no pass before it
    was later than a minute, and otherwise with the process; a pass is at least 100 ms
    after the one before. *)
Lemma pause_spec (initialized : nat -> bool) (elapsed : nat -> Z) :
  (0 <= elapsed 0%nat)%Z -> (forall k, (elapsed k + 100 <= elapsed (S k))%Z) ->
  match pauseForAdmiralToInitializeState initialized elapsed with
  | Some k => initialized k = true /\ forall j, j < k -> initialized j = false /\ (elapsed j <= 60000)%Z
  | None => exists k, (60000 < elapsed k)%Z /\ forall j, j <= k -> initialized j = false
  end.
Proof.
  intros H0 Hs. assert (forall k, (100 * Z.of_nat k <= elapsed k)%Z) as Hk.
  { induction k as [|k IH]; [lia|]. specialize (Hs k). lia. }
  assert (forall fuel k, fuel + k = 602 -> (forall j, j < k -> initialized j = false /\ (elapsed j <= 60000)%Z) ->
    match pause_loop initialized elapsed fuel k with
    | Some k => initialized k = true /\ forall j, j < k -> initialized j = false /\ (elapsed j <= 60000)%Z
    | None => exists k, (60000 < elapsed k)%Z /\ forall j, j <= k -> initialized j = false
    end) as Hl; [|by apply Hl; [|lia]].
  induction fuel as [|fuel IH]; intros k Hf Hb; simpl.
  { destruct (Hb 601) as [_ Hj]; [lia|]. specialize (Hk 601). lia. }
  destruct (initialized k) eqn:E; [done|]. destruct (Z.ltb_spec 60000 (elapsed k)) as [Hlt|Hle].
  - exists k. split; [done|]. intros j Hj. destruct (decide (j = k)) as [->|]; [done|]. apply Hb. lia.
  - apply IH; [lia|]. intros j Hj. destruct (decide (j = k)) as [->|]; [done|]. apply Hb. lia.
Qed.

(** A checker of ignored identities that is chosen as Admiral's state checker never
    initializes the state, so that the wait ends the process, and panics at the first
    successful read, because it was given no cache. *)
Lemma ignore_checker_never_initializes printed read_config NewDynamoClient stateChecker path checker i (s : AdmiralState) :
  initAdmiralStateChecker printed read_config NewDynamoClient stateChecker path = inl checker ->
  to_lower stateChecker = ignoreIdentityChecker ->
  (forall r, state_check_pass i checker s = Some r -> r = (checker, s)) /\
  (forall item items, ciItems i = inl (item :: items) -> state_check_pass i checker s = None).
Proof.
  intros H Hn. unfold initAdmiralStateChecker in H. rewrite Hn, seqb_refl in H. unfold NewIgnoreIdentityStateChecker in H.
  destruct (read_config path) as [cfg|]; [|done]. destruct (validateAdmiralConfig printed cfg); [done|].
  destruct cfg as [l|]; [|done]. destruct (NewDynamoClient _ _); [done|]. injection H as <-.
  unfold state_check_pass, getState. split.
  - intros r. destruct (ciItems i) as [[|x xs]|]; [|done|]; by intros [= <-].
  - by intros item items ->.
Qed.

(** With its cache the checker keeps the suspension list, and leaves the state alone. *)
Lemma suspender_pass l cache i s :
  state_check_pass i (initStateCache cache (IgnoreIdentityStateChecker l None)) s =
  Some (IgnoreIdentityStateChecker l (Some (ignore_check (dbTableName (ilDynamoDB l)) cache (ciItems i))), s).
Proof.
  unfold state_check_pass, initStateCache, ignore_check. destruct (getState _ _) as [state [err|]]; done.
Qed.

(** ** The order of the start *)

(** No cluster is watched before the state is known, and before the controllers that
    Admiral needs have been made; when an error is returned there is no registry in the
    usual mode, but an operator has one. *)
Lemma start_order (p : AdmiralParams) (initialized : bool) (dep tc cm shard sec : error) :
  let usual := InitAdmiral p initialized dep tc cm sec in
  let operator := InitAdmiralOperator initialized shard sec in
  (SecretController ∈ usual.1 <-> usual.2 = Returned true None) /\
  (usual.2 = Returned true None ->
     usual.1 = [StateChecker; DependencyController] ++
       (if IsTrafficConfigProcessingEnabledForSlowStart p then [TrafficConfigController] else []) ++
       [AddressStoreLoaded; SecretController; Shutdown] /\ initialized = true) /\
  (forall registry err, usual.2 = Returned registry (Some err) -> registry = false) /\
  (SecretController ∈ operator.1 -> initialized = true /\ shard = None /\ sec = None) /\
  (Shutdown ∈ operator.1 <-> exists err, operator.2 = Returned true err).
Proof.
  unfold InitAdmiral, InitAdmiralOperator, InitAdmiralWithDefaultPersona.
  destruct initialized, dep, tc, cm, shard, sec, (IsTrafficConfigProcessingEnabledForSlowStart p); simpl;
    split_and!; rewrite ?elem_of_cons, ?elem_of_nil; try naive_solver.
Qed.
