(* ===== verification/CommandLine.v ===== *)
(** * The command line

    [cmd/admiral/cmd/root.go]: the flags of the process with their defaults and the
    parameters they set, and what the command does once they are parsed.  Parsing the
    arguments to values is pflag's, and [given] is its result; the steps of the start are in
    [Startup.v], the servers in [Server.v].  The usage texts are left out. *)
From S2P Require Import Prelude GoStrings Config Objects Metadata Policies AddressStore Writers ServiceEntries.
From S2P Require Import Caches Dependents World StateCheck SeState Clusters RegistryClient Routes Server Startup.
From stdpp Require Import options.
Import Params.

(** ** Flags *)

(** The methods of a flag set, and what the flag's value is. *)
Inductive flag_type := TBool | TString | TInt | TInt32 | TInt64 | TDuration | TStringSlice | TStringToString.
Definition value_of (t : flag_type) : Type :=
  match t with
  | TBool => bool
  | TString => string
  | TInt | TInt32 | TInt64 | TDuration => Z
  | TStringSlice => list string
  | TStringToString => gomap
  end.

(** The variable that a flag points to: a field of [params], or of its LabelSet. *)
Record variable (T : Type) := mkVariable { rd : AdmiralParams -> T; wr : T -> AdmiralParams -> AdmiralParams }.
Arguments mkVariable {_} _ _.
Arguments rd {_} _ _.
Arguments wr {_} _ _ _.

Definition labels (p : AdmiralParams) : LabelSet := default zero_LabelSet (LabelSetPtr p).
Notation field F := (mkVariable F (fun v p => p <| F := v |>)).
Notation label F := (mkVariable (fun p => F (labels p)) (fun v p => p <| LabelSetPtr := Some (labels p <| F := v |>) |>)).

Record flag := mkFlag {
  flType : flag_type;
  flName : string;
  flShorthand : string;
  flDefault : value_of flType;
  flVariable : variable (value_of flType)
}.
Definition flag_ (t : flag_type) (name : string) (value : value_of t) (var : variable (value_of t)) : flag :=
  mkFlag t name "" value var.
Definition flagP (t : flag_type) (name shorthand : string) (value : value_of t) (var : variable (value_of t)) : flag :=
  mkFlag t name shorthand value var.

Definition deploymentOrRolloutWorkerConcurrency := 5%Z.
Definition dependentClusterWorkerConcurrency := 5%Z.
Definition DefaultMaxRequestsPerConnection := 100%Z.
Definition NLBIstioIngressGatewayLabelValue := "istio-ingressgateway-nlb".
(** [log.InfoLevel] of logrus; durations are in nanoseconds. *)
Definition InfoLevel := 4%Z.
Definition five_minutes := 300000000000%Z.

#[local] Open Scope Z_scope.

(** General flags *)
Definition general_flags : list flag := [
  flag_ TInt "log_level" InfoLevel (field LogLevel);
  flag_ TBool "log_to_file" false (field LogToFile);
  flag_ TString "log_file_path" "/app/logs/admiral.log" (field LogFilePath);
  flag_ TInt "log_file_size_in_MBs" 200 (field LogFileSizeInMBs);
  flag_ TString "kube_config" "" (field KubeconfigPath);
  flag_ TBool "argo_rollouts" true (field ArgoRolloutsEnabled);
  flag_ TString "secret_filter_tags" "admiral/sync" (field SecretFilterTags);
  flag_ TString "secret_namespace" "admiral" (field ClusterRegistriesNamespace);
  flag_ TString "dependency_namespace" "admiral" (field DependenciesNamespace);
  flag_ TString "sync_namespace" "admiral-sync" (field SyncNamespace);
  flag_ TDuration "sync_period" five_minutes (field CacheReconcileDuration);
  flag_ TDuration "se_dr_sync_period" five_minutes (field SeAndDrCacheReconcileDuration);
  flag_ TBool "enable_san" false (field EnableSAN);
  flag_ TString "san_prefix" "" (field SANPrefix);
  flag_ TString "secret_resolver" AdmiralProfileDefault (field Profile);
  flag_ TString "deployment_annotation" "sidecar.istio.io/inject" (label DeploymentAnnotation);
  flag_ TString "subset_label" "subset" (label SubsetLabel);
  flag_ TString "namespace_injected_label" "istio-injection" (label NamespaceSidecarInjectionLabel);
  flag_ TString "namespace_injected_value" "enabled" (label NamespaceSidecarInjectionLabelValue);
  flag_ TString "admiral_ignore_label" "admiral-ignore" (label AdmiralIgnoreLabel);
  flag_ TString "priority_key" "priority" (label PriorityKey);
  flag_ TString "hostname_suffix" "global" (field HostnameSuffix);
  flag_ TString "workload_identity_key" "identity" (label WorkloadIdentityKey);
  flag_ TString "admiral_crd_identity_label" "identity" (label AdmiralCRDIdentityLabel);
  flag_ TString "workload_sidecar_update" "disabled" (field WorkloadSidecarUpdate);
  flag_ TString "workload_sidecar_name" "default" (field WorkloadSidecarName);
  flag_ TString "env_key" "admiral.io/env" (label EnvKey);
  flag_ TString "gateway_app" "istio-ingressgateway" (label GatewayApp);
  flag_ TString "secret_resolver_config_path" "/etc/config/resolver_config.yaml" (field AdmiralConfig);
  flag_ TBool "metrics" true (field MetricsEnabled);
  flag_ TString "admiral_state_checker_name" "NoOPStateChecker" (field AdmiralStateCheckerName);
  flag_ TString "dr_state_store_config_path" "" (field DRStateStoreConfigPath);
  flag_ TString "se_ip_prefix" "240.0" (field ServiceEntryIPPrefix);
  flag_ TString "envoy_filter_version" "1.17,1.20" (field EnvoyFilterVersion);
  flag_ TString "deprecated_envoy_filter_version" "" (field DeprecatedEnvoyFilterVersion);
  flag_ TString "envoy_filter_additional_config" "" (field EnvoyFilterAdditionalConfig);
  flag_ TBool "enable_routing_policy" false (field EnableRoutingPolicy);
  flag_ TStringSlice "routing_policy_enabled_clusters" [] (field RoutingPolicyClusters);
  flag_ TStringSlice "excluded_identity_list" [] (field ExcludedIdentityList);
  flag_ TBool "enable_diff_check" true (field EnableDiffCheck);
  flag_ TStringSlice "additional_endpoint_suffixes" [] (field AdditionalEndpointSuffixes);
  flag_ TStringSlice "additional_endpoint_label_filters" [] (field AdditionalEndpointLabelFilters);
  flag_ TBool "enable_workload_data_storage" false (field EnableWorkloadDataStorage);
  flag_ TBool "disable_default_automatic_failover" false (field DisableDefaultAutomaticFailover);
  flag_ TBool "disable_ip_generation" false (field DisableIPGeneration);
  flag_ TString "identity_partition_key" "admiral.io/identityPartition" (label IdentityPartitionKey);
  flag_ TStringSlice "exportto_identity_list" ["*"] (field ExportToIdentityList);
  flag_ TInt "exportto_max_namespaces" 35 (field ExportToMaxNamespaces) ].

(** Admiral HA flags *)
Definition ha_flags : list flag := [
  flag_ TInt "dns_retries" 3 (field DNSRetries);
  flag_ TInt "dns_timeout_ms" 1000 (field DNSTimeoutMs);
  flag_ TString "dns_config_file" "/etc/resolv.conf" (field DnsConfigFile);
  flag_ TBool "enable_proxy_envoy_filter" false (field EnableProxyEnvoyFilter);
  flag_ TBool "enable_dependency_processing" false (field EnableDependencyProcessing);
  flag_ TString "se_address_configmap" "se-address-configmap" (field SeAddressConfigmap);
  flag_ TBool "enable_outlierdetection" false (field EnableOutlierDetection);
  flag_ TInt "deployment_or_rollout_worker_concurrency" deploymentOrRolloutWorkerConcurrency
    (field DeploymentOrRolloutWorkerConcurrency);
  flag_ TInt "dependent_cluster_worker_concurrency" dependentClusterWorkerConcurrency (field DependentClusterWorkerConcurrency);
  flag_ TInt "dependency_warmup_multiplier" 2 (field DependencyWarmupMultiplier);
  flag_ TInt32 "max_requests_per_connection" DefaultMaxRequestsPerConnection (field MaxRequestsPerConnection);
  flag_ TBool "enable_serviceentry_cache" false (field EnableServiceEntryCache);
  flag_ TBool "enable_destinationrule_cache" false (field EnableDestinationRuleCache);
  flag_ TBool "enable_absolute_fqdn" true (field EnableAbsoluteFQDN);
  flag_ TStringSlice "alpha_identity_list" [] (field AlphaIdentityList);
  flag_ TBool "enable_absolute_fqdn_for_local_endpoints" false (field EnableAbsoluteFQDNForLocalEndpoints);
  flag_ TBool "enable_client_connection_config_processing" false (field EnableClientConnectionConfigProcessing);
  flag_ TStringSlice "gateway_asset_aliases" ["Intuit.platform.servicesgateway.servicesgateway"] (field GatewayAssetAliases);
  flag_ TBool "enable_active_passive" false (field EnableActivePassive);
  flag_ TBool "enable_sw_aware_ns_caches" false (field EnableSWAwareNSCaches);
  flag_ TInt64 "default_warmup_duration_in_seconds" 45 (field DefaultWarmupDurationSecs);
  flag_ TBool "enable_generation_check" true (field EnableGenerationCheck);
  flag_ TBool "enable_replica_count_check" true (field EnableIsOnlyReplicaCountChangedCheck);
  flag_ TBool "client_initiated_processing_enabled_for_controllers" false (field ClientInitiatedProcessingEnabledForControllers);
  flag_ TBool "client_initiated_processing_enabled_for_dynamic_config" false
    (field ClientInitiatedProcessingEnabledForDynamicConfig);
  flag_ TStringSlice "initiate_client_initiated_processing_for" [] (field InitiateClientInitiatedProcessingFor);
  flag_ TBool "prevent_split_brain" true (field PreventSplitBrain);
  flag_ TStringSlice "ignore_labels_annotations_vs_copy_list"
    ["applications.argoproj.io/app-name"; "app.kubernetes.io/instance"; "argocd.argoproj.io/tracking-id"]
    (field IgnoreLabelsAnnotationsVSCopyList) ].

(** Admiral 2.0 flags *)
Definition operator_flags : list flag := [
  flag_ TBool "admiral_operator_mode" false (field AdmiralOperatorMode);
  flag_ TBool "admiral_state_syncer_mode" false (field AdmiralStateSyncerMode);
  flag_ TString "operator_sync_namespace" "admiral-operator-sync" (field OperatorSyncNamespace);
  flag_ TString "shard_identity_label_key" "admiral.io/shardIdentity" (label ShardIdentityLabelKey);
  flag_ TString "operator_identity_value" "" (field OperatorIdentityValue);
  flag_ TString "shard_identity_value" "" (field ShardIdentityValue);
  flag_ TString "operator_secret_filter_tags" "admiral/syncoperator" (field OperatorSecretFilterTags);
  flag_ TString "registry_client_host" "https://registry.com" (field RegistryClientHost);
  flag_ TString "registry_client_app_id" "admiral" (field RegistryClientAppId);
  flag_ TString "registry_client_app_secret" "secrets/admiral/credentials/preprod" (field RegistryClientAppSecret);
  flag_ TString "registry_client_base_uri" "v1" (field RegistryClientBaseURI);
  flag_ TString "admiral_app_env" "preProd" (field AdmiralAppEnv);
  flag_ TStringSlice "admiral_state_syncer_clusters" [] (field AdmiralStateSyncerClusters) ].

(** Routing by virtual services and the discovery of clients *)
Definition routing_flags : list flag := [
  flag_ TBool "enable_vs_routing" false (field EnableVSRouting);
  flag_ TStringSlice "vs_routing_disabled_clusters" [] (field VSRoutingDisabledClusters);
  flag_ TStringSlice "vs_routing_slow_start_enabled_clusters" [] (field VSRoutingSlowStartEnabledClusters);
  flag_ TStringSlice "vs_routing_gateways" [] (field VSRoutingGateways);
  flag_ TStringSlice "ingress_vs_export_to_namespaces" ["istio-system"] (field IngressVSExportToNamespaces);
  flag_ TString "ingress_lb_policy" "round_robin" (field IngressLBPolicy);
  flag_ TBool "enable_vs_routing_in_cluster" false (field EnableVSRoutingInCluster);
  flagP TStringToString "vs_routing_in_cluster_enabled_resources" "e" (Some ∅) (field VSRoutingInClusterEnabledResources);
  flagP TStringToString "vs_routing_in_cluster_disabled_resources" "d" (Some ∅) (field VSRoutingInClusterDisabledResources);
  flag_ TBool "enable_custom_vs_merge" false (field EnableCustomVSMerge);
  flag_ TString "process_vs_created_by" "" (field ProcessVSCreatedBy);
  flag_ TBool "enable_sidecar_caching" false (field EnableSidecarCaching);
  flag_ TInt "max_sidecar_egress_hosts_limit_to_cache" 100 (field MaxSidecarEgressHostsLimitToCache);
  flag_ TBool "enable_client_discovery" true (field EnableClientDiscovery);
  flag_ TStringSlice "client_discovery_clusters_for_jobs" [] (field ClientDiscoveryClustersForJobs);
  flag_ TStringSlice "client_discovery_clusters_for_numaflow" [] (field DiscoveryClustersForNumaflow) ].

(** Dynamic configuration, load balancers and slow start *)
Definition dynamic_flags : list flag := [
  flag_ TBool "enable_dynamic_config" true (field EnableDynamicConfig);
  flag_ TString "dynamic_config_dynamodb_table_name" "dynamic-config-dev" (field DynamicConfigDynamoDBTableName);
  flag_ TInt "dynamic_sync_period" 10 (field DynamicSyncPeriod);
  flag_ TStringSlice "nlb_enabled_clusters" [] (field NLBEnabledClusters);
  flag_ TStringSlice "nlb_enabled_identity_list" [] (field NLBEnabledIdentityList);
  flag_ TStringSlice "clb_enabled_clusters" [] (field CLBEnabledClusters);
  flag_ TString "nlb_ingress_label" NLBIstioIngressGatewayLabelValue (field NLBIngressLabel);
  flag_ TBool "enable_traffic_config_processing_for_slow_start" false (field EnableTrafficConfigProcessingForSlowStart) ].

Definition flags : list flag := general_flags ++ ha_flags ++ operator_flags ++ routing_flags ++ dynamic_flags.
#[local] Close Scope Z_scope.

(** ** The parameters *)

(** A [Var] method stores the default; parsing stores the values given afterwards. *)
Definition store (value : forall f : flag, option (value_of (flType f))) (p : AdmiralParams) (f : flag) : AdmiralParams :=
  match value f with Some v => wr (flVariable f) v p | None => p end.
Definition register : AdmiralParams -> flag -> AdmiralParams := store (fun f => Some (flDefault f)).
Definition parse (given : string -> forall t, option (value_of t)) : AdmiralParams -> flag -> AdmiralParams :=
  store (fun f => given (flName f) (flType f)).

Definition new_params : AdmiralParams := zero_AdmiralParams <| LabelSetPtr := Some zero_LabelSet |>.
Definition params_of (given : string -> forall t, option (value_of t)) : AdmiralParams :=
  foldl (parse given) (foldl register new_params flags) flags.

(** ** The command *)

(** The flag set, as the names and shorthands in it; the second step of adding is the
    method of the flag's type.  [None] is a panic. *)
Section Root.
Context (AddFlag : list (string * string) -> string -> string -> option (list (string * string))).

Definition add_flag (set : option (list (string * string))) (f : flag) : option (list (string * string)) :=
  set ← set; AddFlag set (flName f) (flShorthand f).
(** [CommandLine]: the flags that packages have put into Go's flag set. *)
Definition GetRootCmd (CommandLine : list (string * string)) : option (list (string * string)) :=
  foldl add_flag (Some CommandLine) flags.
End Root.

Definition PersistentPreRunE (quoted : string -> string) (args : list string) : error :=
  match args with
  | a :: _ => Some (quoted a +:+ " is an invalid argument")
  | [] => None
  end.

(** ** Running *)

Inductive log_output := Stdout | LogFile (Filename : string) (MaxSize MaxBackups MaxAge : Z).

(** How a run ends: the process exits, a nil pointer is used, [Run] returns, or it waits. *)
Inductive run_end := Exits (message : string) | Panics | Returns | Waits.
Record run := mkRun {
  runLevel : Z;
  runOutput : log_output;
  runStarted : list component;
  runDynamicConfig : option Z;
  runEnd : run_end
}.

Section Run.
(** The error of opening the log file; whether the wait for the state returns, and the
    errors of the constructors; what listening on a port with the routes gives. *)
Context (open_error : error) (initialized : bool) (dependency trafficConfig configMap shard secret : error).
Context {Handler : Type} (ListenAndServe : Z -> list (mux_route Handler) -> option string).
Context (DefaultServeMux prometheus noop : Handler) (opts : api_handlers Handler) (filter : list (Filter Handler)).

Definition log_setup (params : AdmiralParams) : log_output :=
  if LogToFile params then
    match open_error with
    | Some _ => Stdout
    | None => LogFile (LogFilePath params) (LogFileSizeInMBs params) 10 28
    end
  else Stdout.

(** The servers run concurrently, and the first that exits ends the process; [wg.Wait]
    returns when both have returned. *)
Definition wait_servers (metrics service : serve_end) (after : run_end) : run_end :=
  match metrics, service with
  | Exit e, _ | Serving, Exit e => Exits e
  | Serving, Serving => Waits
  | Stopped, Exit e => Exits e
  | Stopped, Serving | Serving, Stopped => Waits
  | Stopped, Stopped => after
  end.

(** [err.Error()] after the wait. *)
Definition fatal (err : error) : run_end :=
  match err with Some e => Exits e | None => Panics end.

Definition Run (params : AdmiralParams) (w : admiralParamsWrapper) : run :=
  let p := GetAdmiralParams (InitializeConfig params w).1 in
  let '(started, result) :=
    if AdmiralOperatorMode params then InitAdmiralOperator initialized shard secret
    else InitAdmiral p initialized dependency trafficConfig configMap secret in
  let finish := mkRun (LogLevel params) (log_setup params) started in
  match result with
  | Ended => finish None (Exits "")
  | Returned _ (Some err) => finish None (Exits ("Error: " +:+ err))
  | Returned _ None =>
      let metrics := Service_Start ListenAndServe DefaultServeMux 6900 (NewMetricsServer p prometheus noop) filter in
      let service := Service_Start ListenAndServe DefaultServeMux 8080 (NewAdmiralAPIServer opts) filter in
      finish (if IsAdmiralDynamicConfigEnabled p then Some (DynamicSyncPeriod params) else None)
        (wait_servers metrics service (fatal None))
  end.

(** [Execute]: the hooks around [Run]; the result is the run, if there is one, whether
    [shutdown] is called, and the error of the command. *)
Definition Execute (quoted : string -> string) (args : list string) (params : AdmiralParams) (w : admiralParamsWrapper)
    : option run * bool * error :=
  match PersistentPreRunE quoted args with
  | Some err => (None, false, Some err)
  | None =>
      let r := Run params w in
      (Some r, match runEnd r with Returns => true | _ => false end, None)
  end.
End Run.

(** [shutdown]: the context is cancelled once a signal is in the channel. *)
Definition shutdown (signals : list string) (cancelled : bool) : option bool :=
  match signals with [] => None | _ :: _ => Some true end.

(** ** Lemmas *)

(** A flag's parameter, with its type. *)
Definition value (p : AdmiralParams) (f : flag) : { t : flag_type & value_of t } := existT (flType f) (rd (flVariable f) p).
Definition values (p : AdmiralParams) : list { t : flag_type & value_of t } := map (value p) flags.

(** Setting the flag at an index changes the parameter of this flag and of no other, and
    leaves the label set there. *)
Definition sets_only (i : nat) (g : flag) : Prop := forall v p,
  is_Some (LabelSetPtr p) ->
  values (wr (flVariable g) v p) = <[i := existT (flType g) v]> (values p) /\
  is_Some (LabelSetPtr (wr (flVariable g) v p)).

Fixpoint all_from (i : nat) (P : nat -> flag -> Prop) (l : list flag) : Prop :=
  match l with [] => True | f :: l => P i f /\ all_from (S i) P l end.

Lemma all_from_lookup P l : forall i k f, all_from i P l -> l !! k = Some f -> P (i + k) f.
Proof.
  induction l as [|g l IH]; intros i k f Hl Hk; [done|]. destruct Hl as [H Hl], k as [|k]; simplify_eq/=.
  - by rewrite Nat.add_0_r.
  - rewrite Nat.add_succ_r. exact (IH (S i) k f Hl Hk).
Qed.

#[local] Ltac sets_only_tac :=
  let v := fresh "v" in let p := fresh "p" in let l := fresh "l" in
  intros v p [l Hl]; destruct p; simpl in Hl; subst; split; [reflexivity | eexists; reflexivity].

Lemma all_from_all (Q : flag -> Prop) l : forall i, (forall f, f ∈ l -> Q f) -> all_from i (fun _ f => Q f) l.
Proof.
  induction l as [|f l IH]; intros i H; [done|]. split; [apply H; by left|]. apply IH. intros g Hg. apply H. by right.
Qed.

Lemma all_from_cons i P f l : P i f -> all_from (S i) P l -> all_from i P (f :: l).
Proof. by split. Qed.

Lemma flags_independent : all_from 0 sets_only flags.
Proof.
  let l := eval cbv [flags general_flags ha_flags operator_flags routing_flags dynamic_flags app] in flags in
  change (all_from 0 sets_only l).
  repeat (apply all_from_cons; [sets_only_tac|]). exact I.
Qed.

#[local] Opaque flags.

(** What storing for the flags from an index on does to the values. *)
Lemma store_from (vals : forall f : flag, option (value_of (flType f))) (l : list flag) : forall i p,
  all_from i sets_only l -> i + length l <= length flags -> is_Some (LabelSetPtr p) ->
  let p' := foldl (store vals) p l in
  is_Some (LabelSetPtr p') /\
  (forall j, j < i -> values p' !! j = values p !! j) /\
  (forall k f, l !! k = Some f ->
     values p' !! (i + k) = match vals f with Some v => Some (existT (flType f) v) | None => values p !! (i + k) end).
Proof.
  induction l as [|g l IH]; intros i p Hall Hlen Hl; cbn [length foldl] in *; [done|].
  destruct Hall as [Hg Hall].
  assert (Hp : is_Some (LabelSetPtr (store vals p g)) /\
    values (store vals p g) = match vals g with Some v => <[i := existT (flType g) v]> (values p) | None => values p end).
  { unfold store. destruct (vals g) as [v|]; [|done]. by destruct (Hg v p Hl). }
  destruct Hp as [Hl' Hv]. destruct (IH (S i) (store vals p g) Hall ltac:(lia) Hl') as (H1 & H2 & H3).
  split_and!; [done| |].
  - intros j Hj. rewrite H2, Hv by lia. destruct (vals g); [|done]. by rewrite list_lookup_insert_ne by lia.
  - intros [|k] f Hk; simplify_eq/=.
    + rewrite Nat.add_0_r, H2, Hv by lia. destruct (vals f); [|done].
      apply list_lookup_insert_eq. unfold values. rewrite length_map. lia.
    + replace (i + S k) with (S (i + k)) by lia. specialize (H3 k f Hk). simpl in H3. rewrite H3, Hv.
      destruct (vals f); [done|].
      destruct (vals g); [|done]. by rewrite list_lookup_insert_ne by lia.
Qed.

Lemma store_flags (vals : forall f : flag, option (value_of (flType f))) (p : AdmiralParams) (i : nat) (f : flag) :
  is_Some (LabelSetPtr p) -> flags !! i = Some f ->
  is_Some (LabelSetPtr (foldl (store vals) p flags)) /\
  value (foldl (store vals) p flags) f =
    match vals f with Some v => existT (flType f) v | None => value p f end.
Proof.
  intros Hl Hf. destruct (store_from vals flags 0 p flags_independent (le_n _) Hl) as (H1 & _ & H2).
  split; [done|]. specialize (H2 i f Hf). unfold values in H2. cbn [plus] in H2.
  rewrite list_lookup_fmap, Hf in H2. destruct (vals f); [|rewrite list_lookup_fmap, Hf in H2]; by injection H2.
Qed.

#[export] Instance flag_type_eq_dec : EqDecision flag_type.
Proof. solve_decision. Defined.

(** After parsing, the parameter of a flag is the value given for it, or its default. *)
Lemma flag_values (given : string -> forall t, option (value_of t)) (f : flag) :
  f ∈ flags -> rd (flVariable f) (params_of given) = default (flDefault f) (given (flName f) (flType f)).
Proof.
  intros [i Hf]%list_elem_of_lookup_1.
  destruct (store_flags (fun f => Some (flDefault f)) new_params i f ltac:(by eexists) Hf) as [H1 H2].
  destruct (store_flags (fun f => given (flName f) (flType f)) _ i f H1 Hf) as [_ H3].
  change (value (params_of given) f = match given (flName f) (flType f) with
      Some v => existT (flType f) v | None => value (foldl register new_params flags) f end) in H3.
  change (value (foldl register new_params flags) f = existT (flType f) (flDefault f)) in H2. rewrite H2 in H3.
  destruct (given (flName f) (flType f));
      by apply (Eqdep_dec.inj_pair2_eq_dec _ (fun a b : flag_type => decide (a = b))) in H3.
Qed.

(** The parameters that no flag sets. *)
Definition unset (p : AdmiralParams) : string * string * Z * string * bool * bool * list string * gomap * string * string :=
  (TrafficConfigNamespace p, PreviewHostnamePrefix p, ChannelCapacity p, HAMode p, EnableSyncIstioResourcesToSourceClusters p,
   TrafficConfigPersona p, TrafficConfigIgnoreAssets p, CartographerFeatures p, TrafficConfigScope p,
   TrafficConfigIdentityKey (labels p)).

Definition keeps_unset (i : nat) (f : flag) : Prop := forall v p, unset (wr (flVariable f) v p) = unset p.

Lemma flags_keep_unset : all_from 0 keeps_unset flags.
Proof.
  let l := eval cbv [flags general_flags ha_flags operator_flags routing_flags dynamic_flags app] in flags in
  change (all_from 0 keeps_unset l).
  repeat (apply all_from_cons; [intros v p; destruct p as [????????????????[[]|]]; reflexivity|]). exact I.
Qed.

(** Whatever is given, they are as in the zero value: in particular the key of the
    identity of a traffic configuration is empty. *)
Lemma unset_parameters (given : string -> forall t, option (value_of t)) :
  unset (params_of given) = unset zero_AdmiralParams.
Proof.
  assert (H : forall vals l i p, all_from i keeps_unset l -> unset (foldl (store vals) p l) = unset p).
  { intros vals l. induction l as [|f l IH]; intros i p Hl; [done|]. destruct Hl as [Hf Hl]. cbn [foldl].
    rewrite (IH (S i) _ Hl). unfold store. destruct (vals f); [apply Hf|done]. }
  unfold params_of, register, parse. rewrite !(H _ flags 0 _ flags_keep_unset). reflexivity.
Qed.

Lemma label_set_there (given : string -> forall t, option (value_of t)) : is_Some (LabelSetPtr (params_of given)).
Proof.
  destruct (store_from (fun f => Some (flDefault f)) flags 0 new_params flags_independent (le_n _) ltac:(by eexists)) as (H1 & _).
  by destruct (store_from (fun f => given (flName f) (flType f)) flags 0 _ flags_independent (le_n _) H1).
Qed.

(** *** The record of the parameters *)

(** The parameters for the values that are given, in the order of the fields; those that no
    flag sets are zero. *)
Definition given_or (given : string -> forall t, option (value_of t)) (t : flag_type) (name : string) (d : value_of t) : value_of t :=
  default d (given name t).
Definition given_labels (given : string -> forall t, option (value_of t)) : LabelSet := {|
  DeploymentAnnotation := given_or given TString "deployment_annotation" "sidecar.istio.io/inject";
  SubsetLabel := given_or given TString "subset_label" "subset";
  NamespaceSidecarInjectionLabel := given_or given TString "namespace_injected_label" "istio-injection";
  NamespaceSidecarInjectionLabelValue := given_or given TString "namespace_injected_value" "enabled";
  AdmiralIgnoreLabel := given_or given TString "admiral_ignore_label" "admiral-ignore";
  PriorityKey := given_or given TString "priority_key" "priority";
  WorkloadIdentityKey := given_or given TString "workload_identity_key" "identity";
  TrafficConfigIdentityKey := "";
  EnvKey := given_or given TString "env_key" "admiral.io/env";
  GatewayApp := given_or given TString "gateway_app" "istio-ingressgateway";
  AdmiralCRDIdentityLabel := given_or given TString "admiral_crd_identity_label" "identity";
  IdentityPartitionKey := given_or given TString "identity_partition_key" "admiral.io/identityPartition";
  ShardIdentityLabelKey := given_or given TString "shard_identity_label_key" "admiral.io/shardIdentity"
|}.
Definition given_params (given : string -> forall t, option (value_of t)) : AdmiralParams := {|
  ArgoRolloutsEnabled := given_or given TBool "argo_rollouts" true;
  KubeconfigPath := given_or given TString "kube_config" "";
  SecretFilterTags := given_or given TString "secret_filter_tags" "admiral/sync";
  CacheReconcileDuration := given_or given TDuration "sync_period" 300000000000%Z;
  SeAndDrCacheReconcileDuration := given_or given TDuration "se_dr_sync_period" 300000000000%Z;
  ClusterRegistriesNamespace := given_or given TString "secret_namespace" "admiral";
  DependenciesNamespace := given_or given TString "dependency_namespace" "admiral";
  DnsConfigFile := given_or given TString "dns_config_file" "/etc/resolv.conf";
  DNSTimeoutMs := given_or given TInt "dns_timeout_ms" 1000%Z;
  DNSRetries := given_or given TInt "dns_retries" 3%Z;
  TrafficConfigNamespace := "";
  SyncNamespace := given_or given TString "sync_namespace" "admiral-sync";
  EnableSAN := given_or given TBool "enable_san" false;
  SANPrefix := given_or given TString "san_prefix" "";
  AdmiralConfig := given_or given TString "secret_resolver_config_path" "/etc/config/resolver_config.yaml";
  Profile := given_or given TString "secret_resolver" "default";
  LabelSetPtr := Some (given_labels given);
  LogLevel := given_or given TInt "log_level" 4%Z;
  HostnameSuffix := given_or given TString "hostname_suffix" "global";
  PreviewHostnamePrefix := "";
  MetricsEnabled := given_or given TBool "metrics" true;
  ChannelCapacity := 0%Z;
  WorkloadSidecarUpdate := given_or given TString "workload_sidecar_update" "disabled";
  WorkloadSidecarName := given_or given TString "workload_sidecar_name" "default";
  AdmiralStateCheckerName := given_or given TString "admiral_state_checker_name" "NoOPStateChecker";
  DRStateStoreConfigPath := given_or given TString "dr_state_store_config_path" "";
  ServiceEntryIPPrefix := given_or given TString "se_ip_prefix" "240.0";
  EnvoyFilterVersion := given_or given TString "envoy_filter_version" "1.17,1.20";
  DeprecatedEnvoyFilterVersion := given_or given TString "deprecated_envoy_filter_version" "";
  EnvoyFilterAdditionalConfig := given_or given TString "envoy_filter_additional_config" "";
  EnableRoutingPolicy := given_or given TBool "enable_routing_policy" false;
  RoutingPolicyClusters := given_or given TStringSlice "routing_policy_enabled_clusters" [];
  ExcludedIdentityList := given_or given TStringSlice "excluded_identity_list" [];
  AdditionalEndpointSuffixes := given_or given TStringSlice "additional_endpoint_suffixes" [];
  AdditionalEndpointLabelFilters := given_or given TStringSlice "additional_endpoint_label_filters" [];
  HAMode := "";
  EnableWorkloadDataStorage := given_or given TBool "enable_workload_data_storage" false;
  EnableDiffCheck := given_or given TBool "enable_diff_check" true;
  EnableProxyEnvoyFilter := given_or given TBool "enable_proxy_envoy_filter" false;
  EnableDependencyProcessing := given_or given TBool "enable_dependency_processing" false;
  DeploymentOrRolloutWorkerConcurrency := given_or given TInt "deployment_or_rollout_worker_concurrency" 5%Z;
  DependentClusterWorkerConcurrency := given_or given TInt "dependent_cluster_worker_concurrency" 5%Z;
  SeAddressConfigmap := given_or given TString "se_address_configmap" "se-address-configmap";
  DependencyWarmupMultiplier := given_or given TInt "dependency_warmup_multiplier" 2%Z;
  EnableOutlierDetection := given_or given TBool "enable_outlierdetection" false;
  EnableClientConnectionConfigProcessing := given_or given TBool "enable_client_connection_config_processing" false;
  MaxRequestsPerConnection := given_or given TInt32 "max_requests_per_connection" 100%Z;
  EnableAbsoluteFQDN := given_or given TBool "enable_absolute_fqdn" true;
  EnableAbsoluteFQDNForLocalEndpoints := given_or given TBool "enable_absolute_fqdn_for_local_endpoints" false;
  DisableDefaultAutomaticFailover := given_or given TBool "disable_default_automatic_failover" false;
  EnableServiceEntryCache := given_or given TBool "enable_serviceentry_cache" false;
  AlphaIdentityList := given_or given TStringSlice "alpha_identity_list" [];
  EnableDestinationRuleCache := given_or given TBool "enable_destinationrule_cache" false;
  DisableIPGeneration := given_or given TBool "disable_ip_generation" false;
  EnableActivePassive := given_or given TBool "enable_active_passive" false;
  EnableSWAwareNSCaches := given_or given TBool "enable_sw_aware_ns_caches" false;
  ClientInitiatedProcessingEnabledForControllers := given_or given TBool "client_initiated_processing_enabled_for_controllers" false;
  ClientInitiatedProcessingEnabledForDynamicConfig := given_or given TBool "client_initiated_processing_enabled_for_dynamic_config" false;
  InitiateClientInitiatedProcessingFor := given_or given TStringSlice "initiate_client_initiated_processing_for" [];
  ExportToIdentityList := given_or given TStringSlice "exportto_identity_list" ["*"];
  ExportToMaxNamespaces := given_or given TInt "exportto_max_namespaces" 35%Z;
  EnableSyncIstioResourcesToSourceClusters := false;
  DefaultWarmupDurationSecs := given_or given TInt64 "default_warmup_duration_in_seconds" 45%Z;
  EnableGenerationCheck := given_or given TBool "enable_generation_check" true;
  EnableIsOnlyReplicaCountChangedCheck := given_or given TBool "enable_replica_count_check" true;
  PreventSplitBrain := given_or given TBool "prevent_split_brain" true;
  IgnoreLabelsAnnotationsVSCopyList := given_or given TStringSlice "ignore_labels_annotations_vs_copy_list" ["applications.argoproj.io/app-name"; "app.kubernetes.io/instance"; "argocd.argoproj.io/tracking-id"];
  TrafficConfigPersona := false;
  TrafficConfigIgnoreAssets := [];
  CartographerFeatures := None;
  TrafficConfigScope := "";
  LogToFile := given_or given TBool "log_to_file" false;
  LogFilePath := given_or given TString "log_file_path" "/app/logs/admiral.log";
  LogFileSizeInMBs := given_or given TInt "log_file_size_in_MBs" 200%Z;
  GatewayAssetAliases := given_or given TStringSlice "gateway_asset_aliases" ["Intuit.platform.servicesgateway.servicesgateway"];
  AdmiralOperatorMode := given_or given TBool "admiral_operator_mode" false;
  OperatorSyncNamespace := given_or given TString "operator_sync_namespace" "admiral-operator-sync";
  AdmiralStateSyncerMode := given_or given TBool "admiral_state_syncer_mode" false;
  OperatorIdentityValue := given_or given TString "operator_identity_value" "";
  ShardIdentityValue := given_or given TString "shard_identity_value" "";
  OperatorSecretFilterTags := given_or given TString "operator_secret_filter_tags" "admiral/syncoperator";
  RegistryClientHost := given_or given TString "registry_client_host" "https://registry.com";
  RegistryClientAppId := given_or given TString "registry_client_app_id" "admiral";
  RegistryClientAppSecret := given_or given TString "registry_client_app_secret" "secrets/admiral/credentials/preprod";
  RegistryClientBaseURI := given_or given TString "registry_client_base_uri" "v1";
  AdmiralAppEnv := given_or given TString "admiral_app_env" "preProd";
  AdmiralStateSyncerClusters := given_or given TStringSlice "admiral_state_syncer_clusters" [];
  EnableVSRouting := given_or given TBool "enable_vs_routing" false;
  VSRoutingGateways := given_or given TStringSlice "vs_routing_gateways" [];
  IngressVSExportToNamespaces := given_or given TStringSlice "ingress_vs_export_to_namespaces" ["istio-system"];
  IngressLBPolicy := given_or given TString "ingress_lb_policy" "round_robin";
  VSRoutingDisabledClusters := given_or given TStringSlice "vs_routing_disabled_clusters" [];
  VSRoutingSlowStartEnabledClusters := given_or given TStringSlice "vs_routing_slow_start_enabled_clusters" [];
  EnableVSRoutingInCluster := given_or given TBool "enable_vs_routing_in_cluster" false;
  VSRoutingInClusterEnabledResources := given_or given TStringToString "vs_routing_in_cluster_enabled_resources" (Some ∅);
  VSRoutingInClusterDisabledResources := given_or given TStringToString "vs_routing_in_cluster_disabled_resources" (Some ∅);
  EnableCustomVSMerge := given_or given TBool "enable_custom_vs_merge" false;
  ProcessVSCreatedBy := given_or given TString "process_vs_created_by" "";
  EnableSidecarCaching := given_or given TBool "enable_sidecar_caching" false;
  MaxSidecarEgressHostsLimitToCache := given_or given TInt "max_sidecar_egress_hosts_limit_to_cache" 100%Z;
  EnableClientDiscovery := given_or given TBool "enable_client_discovery" true;
  ClientDiscoveryClustersForJobs := given_or given TStringSlice "client_discovery_clusters_for_jobs" [];
  DiscoveryClustersForNumaflow := given_or given TStringSlice "client_discovery_clusters_for_numaflow" [];
  EnableDynamicConfig := given_or given TBool "enable_dynamic_config" true;
  DynamicConfigDynamoDBTableName := given_or given TString "dynamic_config_dynamodb_table_name" "dynamic-config-dev";
  DynamicSyncPeriod := given_or given TInt "dynamic_sync_period" 10%Z;
  NLBEnabledClusters := given_or given TStringSlice "nlb_enabled_clusters" [];
  NLBEnabledIdentityList := given_or given TStringSlice "nlb_enabled_identity_list" [];
  CLBEnabledClusters := given_or given TStringSlice "clb_enabled_clusters" [];
  NLBIngressLabel := given_or given TString "nlb_ingress_label" "istio-ingressgateway-nlb";
  EnableTrafficConfigProcessingForSlowStart := given_or given TBool "enable_traffic_config_processing_for_slow_start" false
|}.

(** C26: The parameters of the process for a command line are this record: each parameter is
    the value given for its flag, or the flag's default, and those without a flag are zero;
    in particular no flag sets the parameter of another one.  No two flags have the same
    name. *)
Theorem params_of_given (given : string -> forall t, option (value_of t)) :
  params_of given = given_params given /\ NoDup (map flName flags).
Proof.
  split; [|apply (bool_decide_unpack _); vm_compute; exact I].
  pose proof (flag_values given) as Hf. pose proof (unset_parameters given) as Hu. pose proof (label_set_there given) as [l Hl].
  assert (Hall : all_from 0 (fun _ f => rd (flVariable f) (params_of given) = given_or given (flType f) (flName f) (flDefault f)) flags).
  { apply all_from_all. intros f Hin. by apply Hf. }
  clear Hf. set (p := params_of given) in *. clearbody p. unfold unset, labels in Hu.
  revert Hall. let l := eval cbv [flags general_flags ha_flags operator_flags routing_flags dynamic_flags app] in flags in
    change (all_from 0 (fun _ f => rd (flVariable f) p = given_or given (flType f) (flName f) (flDefault f)) l ->
            p = given_params given).
  cbn [all_from rd flVariable flType flName flDefault flag_ flagP]. unfold labels. rewrite Hl. cbn [default].
  intros Hall. rewrite Hl in Hu. destruct p, l. cbn in *. injection Hu; intros.
  repeat match goal with H : _ /\ _ |- _ => destruct H end. subst. reflexivity.
Qed.

(** Two arguments: the level of the log and the mode of the operator. *)
Definition two_flags : string -> forall t, option (value_of t) := fun name t =>
  match t with
  | TInt => if name =?s "log_level" then Some 6%Z else None
  | TBool => if name =?s "admiral_operator_mode" then Some true else None
  | _ => None
  end.

Example two_flags_given :
  let p := params_of two_flags in
  LogLevel p = 6%Z /\ LogFilePath p = "/app/logs/admiral.log" /\ AdmiralOperatorMode p = true /\ WorkloadIdentityKey (labels p) = "identity".
Proof. vm_compute. done. Qed.

(** The flags can be added to a set that has none of their names and shorthands; adding
    a flag whose name and shorthand are new does not panic. *)
Section AddFlags.
Context (AddFlag : list (string * string) -> string -> string -> option (list (string * string))).
Context (AddFlag_new : forall set name shorthand,
  name ∉ set.*1 -> shorthand = "" \/ shorthand ∉ set.*2 -> AddFlag set name shorthand = Some (set ++ [(name, shorthand)])).

Definition clashes (set : list (string * string)) (f : flag) : bool :=
  str_in (flName f) (map fst set) || (negb (is_empty (flShorthand f)) && str_in (flShorthand f) (map snd set)).

Fixpoint no_clash (set : list (string * string)) (l : list flag) : bool :=
  match l with
  | [] => true
  | f :: l => negb (clashes set f) && no_clash (set ++ [(flName f, flShorthand f)]) l
  end.

Lemma add_flags (l : list flag) : forall set, no_clash set l = true ->
  foldl (add_flag AddFlag) (Some set) l = Some (set ++ map (fun f => (flName f, flShorthand f)) l).
Proof using AddFlag_new.
  induction l as [|f l IH]; intros set H; cbn [foldl map]; [by rewrite app_nil_r|].
  simpl in H. apply andb_true_iff in H as [Hc H]. unfold clashes in Hc.
  apply negb_true_iff, orb_false_iff in Hc as [Hn Hs].
  assert (Hadd : AddFlag set (flName f) (flShorthand f) = Some (set ++ [(flName f, flShorthand f)])).
  { apply AddFlag_new.
    - by apply str_in_false in Hn.
    - apply andb_false_iff in Hs as [Hs|Hs].
      + left. by apply is_empty_spec, negb_false_iff.
      + right. by apply str_in_false in Hs. }
  unfold add_flag at 2. simpl. rewrite Hadd, (IH _ H). by rewrite <-app_assoc.
Qed.

Lemma GetRootCmd_adds (CommandLine : list (string * string)) : no_clash CommandLine flags = true ->
  GetRootCmd AddFlag CommandLine = Some (CommandLine ++ map (fun f => (flName f, flShorthand f)) flags).
Proof using AddFlag_new. intros H. by apply add_flags. Qed.
End AddFlags.

Lemma no_go_flags_ok : no_clash [] flags = true /\ no_clash [("alsologtostderr", ""); ("v", "v")] flags = true.
Proof. by vm_compute. Qed.

(** With the defaults the profile is the one that a secret resolver exists for. *)
Lemma default_parameters :
  let p := params_of (fun _ _ => None) in
  GetAdmiralProfile p = AdmiralProfileDefault /\ is_Some (secret_resolver (GetAdmiralProfile p)) /\
  AdmiralOperatorMode p = false /\ GetSecretFilterTags p = "admiral/sync" /\ ClusterRegistriesNamespace p = "admiral".
Proof. vm_compute. split_and!; eauto. Qed.

(** ** The end of a run *)

Section RunEnd.
Context (open_error : error) (initialized : bool) (dependency trafficConfig configMap shard secret : error).
Context {Handler : Type} (ListenAndServe : Z -> list (mux_route Handler) -> option string).
Context (DefaultServeMux prometheus noop : Handler) (opts : api_handlers Handler) (filter : list (Filter Handler)).

Lemma Start_not_stopped mux port routes (flt : list (Filter Handler)) : Service_Start ListenAndServe mux port routes flt <> Stopped.
Proof. unfold Service_Start. by destruct (ListenAndServe _ _). Qed.

(** A run never returns to the command: it ends with the process, or waits for the servers,
    so that [shutdown], which is to cancel the context at a signal, is not called. *)
Theorem run_never_returns (quoted : string -> string) (args : list string) (params : AdmiralParams) (w : admiralParamsWrapper) :
  let '(r, down, err) := Execute open_error initialized dependency trafficConfig configMap shard secret ListenAndServe
                DefaultServeMux prometheus noop opts filter quoted args params w in
  down = false /\
  (forall r', r = Some r' -> (exists message, runEnd r' = Exits message) \/ runEnd r' = Waits) /\
  (r = None <-> is_Some err).
Proof.
  unfold Execute. destruct (PersistentPreRunE quoted args) as [err|]; [naive_solver|].
  set (r := Run _ _ _ _ _ _ _ _ _ _ _ _ _ _ _).
  assert (Hr : (exists message, runEnd r = Exits message) \/ runEnd r = Waits).
  { unfold r, Run. destruct (if AdmiralOperatorMode params then _ else _) as [started [|registry [err|]]]; simpl; eauto.
    match goal with |- context [wait_servers ?m ?s _] =>
      assert (Hm : m <> Stopped) by apply Start_not_stopped; assert (Hs : s <> Stopped) by apply Start_not_stopped;
      destruct m, s; simpl; eauto; done end. }
  split_and!.
  - destruct Hr as [[m ->]| ->]; done.
  - intros r' [= <-]. exact Hr.
  - split; [done|]. intros [? [=]].
Qed.
End RunEnd.
